(* ===== verification/_CoqProject ===== *)
-Q . S2P
Prelude.v
PyData.v
Names.v
Text.v
Timestamps.v
Storage.v
MailboxModels.v
MailboxKernel.v
MailboxInvariant.v
MailboxOps.v
MailboxSpec.v
MailboxDiscipline.v
MailboxReach.v
MailboxProps.v
Sha256.v
CompletionModels.v
Detectors.v
DetectorLemmas.v
Jobs.v
Api.v
JobStore.v
Heartbeat.v
HeartbeatLemmas.v
HeartbeatProps.v
BureauModels.v
BureauState.v
Bureau.v
BureauView.v
BureauSpec.v
BureauReach.v
BureauOutcomes.v
BureauProps.v
Completion.v
CompletionLemmas.v
CompletionProps.v
Artifacts.v
DispatchState.v
DispatchPolicy.v
Dispatch.v
Drain.v
Routing.v
Chains.v
Continuations.v
Submission.v
Deliveries.v
Finalize.v
Starting.v
Polling.v
DispatchView.v
DispatchGood.v
DispatchOps.v
DispatchKeeps.v
DispatchGrows.v
DispatchEnds.v
DispatchFinish.v
DispatchTicks.v
DispatchReads.v
DispatchFlow.v
DispatchOnce.v
DispatchRebuild.v
DispatchSteps.v
DispatchProps.v
DeliveryProps.v
ControlQueue.v
Layout.v
LayoutParser.v
LayoutGrammar.v
LayoutRender.v
LayoutTokens.v
LayoutOpsLemmas.v
LayoutPanes.v
ReflowLemmas.v
Topology.v
TopologyLemmas.v
ReloadConfig.v
ReloadPatch.v
ReloadPlan.v
ReloadScreen.v
ReloadProps.v
LayoutProps.v
