(* ===== verification/Prelude.v ===== *)
(** * The agent bridge: its messages, jobs, completion, heartbeats, reloads and layouts

    The program ([src/lib], Python) runs several command-line coding agents side by side
    in the panes of a terminal multiplexer, behind one daemon per project.  A client
    submits a message; the daemon's dispatcher turns it into one job per target agent,
    queues a request in each agent's mailbox, starts the job when the agent is free, watches
    the provider's output until a completion detector decides, and ends the job: the bureau
    is told, the reply goes back to whoever asked (through a delivery job when that is an
    agent), a chained request continues its parent, a failure may be tried again.  The
    windows and panes come from the project's configuration, which can be reloaded while
    agents work.

    This library models the parts that decide something: what is stored, in which order,
    when a job is over, when somebody is notified, what a configuration means.  Processes,
    sockets, terminals and files are outside; where the code talks to them they are
    parameters of the definitions, and files of records are sequences of records.

    ** Files

    Shared: [Prelude] (results, exceptions, the state-and-exception monad [M] with its
    weakest preconditions [wp], automation), [PyData] (strings, integers and JSON values of
    Python, dictionaries in insertion order), [Text] (laws of strings and of decimal
    numbers), [Timestamps] (ISO time stamps and the calendar), [Storage] (the [Codec] class
    between records and the dictionaries written for them; JSON-lines files of
    [storage/jsonl_store.py]), [Names] ([agents/models_runtime/names.py],
    [mailbox_runtime/targets.py]), [Sha256].

    - Mailbox kernel, [mailbox_kernel/]: [MailboxModels] (records and their checks),
      [MailboxKernel] (stores and every operation of [service.py] and [service_runtime/]),
      [MailboxInvariant] (the append-only inbox log; a summary mirrors queue and lease),
      [MailboxOps] (a rule per operation), [MailboxSpec] (the abstract mailbox, without
      summaries, that the operations refine), [MailboxDiscipline] and [MailboxReach] (runs
      as step relations), [MailboxProps].
    - Completion, [completion/] and [provider_core/]: [CompletionModels], [Detectors] (the
      five families as one state machine interface), [DetectorLemmas], [Completion]
      (selectors, manifests, catalog, registry, tracker, orchestrator),
      [CompletionLemmas], [CompletionProps].
    - Daemon records and job store, [ccbd/api_models_runtime/] and [jobs/]: [Jobs], [Api],
      [JobStore].
    - Heartbeat, [heartbeat/] and [ccbd/services/job_heartbeat_runtime/]: [Heartbeat] (the
      engine, its state files, and the service against the class [DispatcherOps] of what it
      needs of the dispatcher), [HeartbeatLemmas], [HeartbeatProps].
    - Message bureau, [message_bureau/]: [BureauModels], [BureauState] (stores, edge cache,
      message state), [Bureau] (the facade; the mailbox kernel is a field of its state and
      its operations are run by [on_kernel]), [BureauView] (what the state says without the
      summaries, with rules for the building blocks), [BureauSpec] (a rule per facade
      operation), [BureauReach] (runs of facade and kernel calls), [BureauOutcomes],
      [BureauProps]; [ControlQueue] (the control service's queue views and
      acknowledgements, [control_queue_runtime/], which clean up stale events as they read).
    - Text artifacts, [storage/text_artifacts.py]: [Artifacts].
    - Dispatcher, [ccbd/services/dispatcher_runtime/]: [DispatchState] (queues, active jobs
      and index, and their rebuild), [DispatchPolicy] (what is retried, told and accepted),
      [Dispatch] (the state as one record: job store, queues, bureau, tracker, snapshots,
      runtimes; admission and the rows of a job), [Routing], [Chains], [Continuations],
      [Submission], [Deliveries], [Finalize], [Starting], [Polling], one for each group of
      operations, the later ones made of the earlier.  Proofs: [DispatchView] (the view of
      logs, queues, active jobs and index, and what leaves it alone), [DispatchGood] (when a
      view is good), [DispatchOps] and [DispatchKeeps] (operations on views, and rules for
      computations that keep them good), [DispatchGrows], [DispatchEnds], [DispatchFinish],
      [DispatchTicks] (every operation keeps the view good), [DispatchReads] (planning writes
      nothing), [DispatchFlow] (what a request comes to; chains), [DispatchOnce] (one
      continuation), [DispatchRebuild] (a new start), [DispatchSteps] (runs of the daemon as
      a step relation, and a run of two agents), [DispatchProps], [DeliveryProps].
    - Reload, [ccbd/reload_*.py]: [Drain] (the queue of agents being unloaded or replaced),
      [ReloadConfig] (what a reload reads of a configuration, and the windows it asks for),
      [ReloadPatch] (the steps that windows and panes need), [ReloadPlan] (how two
      configurations differ, the class of a plan, the gate before its application),
      [ReloadScreen] (what steps do to a screen; what a plan without blocked operations
      guarantees), [ReloadProps].
    - Layouts, [agents/models_runtime/layout_runtime/]: [Layout] (trees, text, pruning,
      balanced and pane-growth layouts), [LayoutParser], [LayoutGrammar] (the grammar as an
      inductive relation), [LayoutRender], [LayoutTokens], [LayoutOpsLemmas].  Panes of a
      window, [ccbd/services/project_namespace_runtime/]: [LayoutPanes] (module [Materialize]
      for [materialize_topology.py], module [Reflow] for [agent_window_reflow.py]),
      [ReflowLemmas].  Windows of a configuration, [agents/models_runtime/config_runtime/]
      and [layout_plan.py]: [Topology], [TopologyLemmas].  [LayoutProps].

    A component's [Models] file has its enumerations and records with the constructors'
    checks, the file named after it the operations, and its [Props] file the properties,
    numbered C1 to C40, each with a run it applies to.

    ** What is shown

    Mailbox (C1 to C6).  Along every run from empty stores the summary record of an
    agent is a function of its log and lease (C1), one event at most is delivered and it is
    the head of the queue (C2), pending events never overtake one another (C4) and lease
    versions grow (C5); a consumer drains a queue in order (C3).  Each service call refines
    its contract on the abstract mailbox, on every branch (C6).

    Completion (C8, C10, C13, C14).  When the anchored detector completes (C8), that no
    detector fails or leaves its decision invalid (C10), that timeouts settle a job (C13) and
    the orchestrator's loop ends (C14).

    Dispatcher (C7, C9, C11, C12, C15, C16, C19, C27, C31, C38).  A run is any sequence of
    requests, resubmissions, retries, completions, cancellations, ticks, polls and
    restorations, where an operation may raise half way and the daemon goes on (a tick that
    raises is followed by a new start, and so is a shutdown).  Along every run the memory is
    in step with the log: queues hold the waiting jobs, an agent runs one job at most, the
    index knows every job, and no job leaves a terminal state (C12); a new start rebuilds all
    of it from the log and the mailboxes (C15).  A refused request writes nothing and an
    accepted one adds one job for each target (C7).  A callback edge is continued once (C9),
    chains are bounded in depth and fan-out (C19).  A delivery puts its reply back three times
    at most (C11).  Who may be retried by hand (C27) and automatically (C31); when a
    provider's word ends a job (C38).  Completions that end other jobs come to an end (C16).

    Jobs, artifacts and heartbeat (C17, C18, C20, C21).  The widening loop of recent jobs
    against one scan of the file (C17); texts spilled to files are read back (C18); the pacing
    of notices over any run (C20), the service against the engine (C21).

    Bureau (C22 to C26, C28, C29, C34).  Consistency of every run of facade and kernel calls
    (C23), what a submission, a retry and the end of an attempt do (C24 to C26), retry lineage
    (C28), the edge cache against the file (C29).  Reading a mailbox ends and abandons its stale
    front only (C34); acknowledging a reply consumes that reply (C22).

    Layouts (C32, C33, C35 to C37, C39).  The parser is its grammar (C32); rendering and
    reading back (C33); one pane per leaf (C35); every computed geometry tiles
    its window (C36); a reflow that reports success sent a valid layout string and swaps
    that reach it (C37); an accepted configuration is sound (C39).

    Reload (C30, C40).  A plan that passes the gate leads, step by step, from the windows of the
    current configuration to those of the new one, and touches no agent it need not (C30); the
    drain queue is bounded whatever reloads do to it (C40).

    ** Bounds and fuel

    Integers of Python are unbounded and so is [Z]; the layout checksum and SHA-256 reduce
    modulo 2^16 and 2^32 where the code does.  Durations are whole microseconds, but for the
    drain queue, whose times are IEEE numbers ([SpecFloat]).  Recursion that follows no data
    has explicit rounds, always with a proof that they are enough: the parser gets four steps
    per token and three more ([parse_fuel]; that it never runs out is part of C32), the
    tokenizer a step per character, pane growth a page per name, cleaning a mailbox a
    round more than it has pending events (C34), the recent-jobs loop
    and the orchestrator as stated in C17 and C14, the nesting of completions as stated in
    C16.  [round] of a float quotient is the exact quotient rounded to even, which is the same
    number for divisors below 2^45.

    Parameters: clocks and fresh identifiers (given as functions of the number of draws),
    the replies of the multiplexer, the dispatcher as the heartbeat service sees it, the
    sources of the orchestrator, the spilling of long payloads to files, the rendering of
    floats in JSON payloads.  The dispatcher's surroundings are the record [outside] (rules
    of agents, drain queue, chain limit, digests) and the class [Execution] (what provider
    adapters answer, which may be that they raise), both arbitrary in the theorems but for
    [config_ok] and [op_ok]: agent names are valid and apart, and the arguments of a request
    are ones its constructor accepts.  Text is ASCII: [strip], [lower] and the patterns act
    on the ASCII part of their definition.

    ** Not modelled

    Python's limits on recursion and on the digits of an integer; the Rust helpers that
    replace some file scans; threads (the daemon serialises its operations).  Of the
    dispatcher: the workflows of the agentic loop (frontdesk and task detailer handoffs and
    the frontdesk boundary), the recovery of stopped runtimes and the execution service
    itself (parameters), the web hook, cancel flag files, the recovery of communications and
    active follow-ups.  Of the reload: the JSON file of the drain queue, and the carrying out
    of a plan (panes, runtimes, the new service graph).  The trace of an identifier, the
    maintenance heartbeat, the project view and the mobile gateway assemble what is shown;
    the command line, provider adapters, terminal runtime, role packs, workspaces and the
    reading of configuration files are input and output, as is the daemon's process life
    cycle. *)

From Stdlib Require Import Ascii String ZArith Lia.
From stdpp Require Import base gmap list strings pretty.

Create HintDb ccb.
Create Rewrite HintDb ccb.

(** ** Results and exceptions *)

(** The exception classes the modelled code raises or catches.  [Unmodelled]
    marks a value of a type the source's annotations exclude (a JSON number where
    the dataclass declares [str | None], say); no modelled caller produces one. *)
Inductive exn_kind :=
  | ValueError
  | AgentValidationError
  | CompletionValidationError
  | RetryLineageError
  | TypeError
  | KeyError
  | RuntimeError
  | DispatchError
  | CcbdModelError
  | DispatchRejectedError
  | AttributeError
  | OverflowError
  | AssertionError
  | LayoutParseError
  | ConfigValidationError
  | RecursionError
  | IndexError
  | OSError
  | Unmodelled.

Record exn := Exn { exn_class : exn_kind; exn_message : string }.

#[export] Instance exn_kind_eq_dec : EqDecision exn_kind.
Proof. solve_decision. Defined.
#[export] Instance exn_eq_dec : EqDecision exn.
Proof. solve_decision. Defined.

(** [except ValueError] also catches the classes that derive from it. *)
Definition caught_by_value_error (e : exn) : bool :=
  match exn_class e with
  | ValueError | AgentValidationError | CompletionValidationError
  | RetryLineageError | CcbdModelError | LayoutParseError | ConfigValidationError => true
  | _ => false
  end.

Inductive result (A : Type) :=
  | Ok (a : A)
  | Err (e : exn).
Arguments Ok {A} a.
Arguments Err {A} e.

#[export] Instance result_eq_dec {A} `{EqDecision A} : EqDecision (result A).
Proof. solve_decision. Defined.

Definition raise {A} (k : exn_kind) (msg : string) : result A := Err (Exn k msg).

Definition result_bind {A B} (m : result A) (f : A → result B) : result B :=
  match m with Ok a => f a | Err e => Err e end.

Definition is_ok {A} (m : result A) : bool :=
  match m with Ok _ => true | Err _ => false end.

(** [guard_exn b k msg] is [if b: raise k(msg)]. *)
Definition raise_if (b : bool) (k : exn_kind) (msg : string) : result unit :=
  if b then raise k msg else Ok tt.

Lemma raise_if_Ok {B} b k msg (f : unit → result B) v :
  result_bind (raise_if b k msg) f = Ok v → b = false ∧ f tt = Ok v.
Proof. by destruct b. Qed.

Lemma result_bind_Ok {A B} (m : result A) (f : A → result B) v :
  result_bind m f = Ok v → ∃ a, m = Ok a ∧ f a = Ok v.
Proof. destruct m; simpl; naive_solver. Qed.

(** Split a successful chain of binds into the equations of its steps. *)
Ltac inv_binds H :=
  repeat lazymatch type of H with
  | result_bind _ _ = Ok _ => apply result_bind_Ok in H as (? & ? & H)
  end.

(** Step through the guards of a constructor that succeeded. *)
Ltac inv_guards H :=
  repeat (let G := fresh "G" in apply raise_if_Ok in H as [G H]; cbn beta in H).

Declare Scope py_scope.
Delimit Scope py_scope with py.
Open Scope py_scope.

Notation "'let!' x ':=' m 'in' k" := (result_bind m (λ x, k))
  (at level 10, x binder, m at level 100, k at level 200) : py_scope.
Notation "'do!' m 'in' k" := (result_bind m (λ _, k))
  (at level 10, m at level 100, k at level 200) : py_scope.

(** ** Stateful code that may raise

    A computation threads a state and ends in a value or an exception.  The state
    reached so far survives an exception: a file that was written stays written. *)
Definition M (S A : Type) : Type := S → S * result A.

Definition mret' {S A} (a : A) : M S A := λ s, (s, Ok a).
Definition mraise {S A} (k : exn_kind) (msg : string) : M S A := λ s, (s, raise k msg).
Definition mlift {S A} (r : result A) : M S A := λ s, (s, r).
Definition mget {S A} (f : S → A) : M S A := λ s, (s, Ok (f s)).
Definition mmod {S} (f : S → S) : M S unit := λ s, (f s, Ok tt).
Definition mbind' {S A B} (m : M S A) (f : A → M S B) : M S B :=
  λ s, match m s with
       | (s', Ok a) => f a s'
       | (s', Err e) => (s', Err e)
       end.

Notation "'let*' x ':=' m 'in' k" := (mbind' m (λ x, k))
  (at level 10, x binder, m at level 100, k at level 200) : py_scope.
Notation "'do*' m 'in' k" := (mbind' m (λ _, k))
  (at level 10, m at level 100, k at level 200) : py_scope.

(** Weakest precondition of a computation: [Q] on a value, [E] on an exception. *)
Definition wp {S A} (m : M S A) (Q : A → S → Prop) (E : exn → S → Prop) (s : S) : Prop :=
  match m s with
  | (s', Ok a) => Q a s'
  | (s', Err e) => E e s'
  end.

Section wp_rules.
Context {S : Type}.
Implicit Types s : S.

Lemma wp_ret {A} (a : A) Q E s : Q a s → wp (mret' a) Q E s.
Proof. done. Qed.
Lemma wp_get {A} (f : S → A) Q E s : Q (f s) s → wp (mget f) Q E s.
Proof. done. Qed.
Lemma wp_mod (f : S → S) Q E s : Q tt (f s) → wp (mmod f) Q E s.
Proof. done. Qed.
Lemma wp_lift {A} (r : result A) Q E s :
  match r with Ok a => Q a s | Err e => E e s end → wp (mlift r) Q E s.
Proof. unfold wp, mlift. by destruct r. Qed.
Lemma wp_raise {A} k msg (Q : A → S → Prop) E s :
  E (Exn k msg) s → wp (mraise k msg) Q E s.
Proof. done. Qed.

Lemma wp_bind {A B} (m : M S A) (f : A → M S B) Q E s :
  wp m (λ a s', wp (f a) Q E s') E s → wp (mbind' m f) Q E s.
Proof. unfold wp, mbind'. by destruct (m s) as [s' [a|e]]. Qed.

Lemma wp_mono {A} (m : M S A) (Q Q' : A → S → Prop) (E E' : exn → S → Prop) s :
  wp m Q E s → (∀ a s', Q a s' → Q' a s') → (∀ e s', E e s' → E' e s') → wp m Q' E' s.
Proof. unfold wp. destruct (m s) as [s' [a|e]]; naive_solver. Qed.

(** A computation that ends normally in a known way can be read off. *)
Lemma wp_run {A} (m : M S A) s s' a Q E :
  m s = (s', Ok a) → Q a s' → wp m Q E s.
Proof. unfold wp. by intros ->. Qed.

Lemma wp_run_err {A} (m : M S A) s s' e (Q : A → S → Prop) E :
  m s = (s', Err e) → E e s' → wp m Q E s.
Proof. unfold wp. by intros ->. Qed.
End wp_rules.

(** One step of symbolic execution. *)
Ltac wp_step :=
  first
    [ apply wp_ret | apply wp_get | apply wp_mod | apply wp_raise | apply wp_bind
    | apply wp_lift ]; cbn beta.
Ltac wp_steps := repeat wp_step.

(** Running the monad on a known prefix. *)
Lemma mbind_ok {S A B} (m : M S A) (f : A → M S B) s s' a :
  m s = (s', Ok a) → mbind' m f s = f a s'.
Proof. unfold mbind'. by intros ->. Qed.

Lemma mbind_err {S A B} (m : M S A) (f : A → M S B) s s' e :
  m s = (s', Err e) → mbind' m f s = (s', Err e).
Proof. unfold mbind'. by intros ->. Qed.
