(* ===== verification/PyData.v ===== *)
(** Python data as the modelled code uses it: strings (as byte strings, with the
    ASCII part of [str.strip], [str.lower], [str.split]), decimal integers, and the
    JSON-like values records and payloads are made of, with dictionaries in
    insertion order. *)

From Stdlib Require Import Ascii String ZArith Lia.
From stdpp Require Import base list strings pretty numbers.
From S2P Require Import Prelude.

Local Open Scope Z_scope.

(** ** Characters *)

Definition code (c : ascii) : Z := Z.of_N (N_of_ascii c).

Definition in_range (lo hi : Z) (c : ascii) : bool := (lo <=? code c) && (code c <=? hi).

(** [str.isspace] on ASCII: tab to carriage return, the four separators, space. *)
Definition is_space (c : ascii) : bool :=
  in_range 9 13 c || in_range 28 32 c.

Definition is_digit (c : ascii) : bool := in_range 48 57 c.
Definition is_upper (c : ascii) : bool := in_range 65 90 c.
Definition is_lower (c : ascii) : bool := in_range 97 122 c.
Definition is_alpha (c : ascii) : bool := is_upper c || is_lower c.

Definition lower_char (c : ascii) : ascii :=
  if is_upper c then ascii_of_N (N_of_ascii c + 32) else c.

(** ** Strings *)

Definition truthy (s : string) : bool := match s with EmptyString => false | _ => true end.

Fixpoint lstrip (s : string) : string :=
  match s with
  | EmptyString => EmptyString
  | String c r => if is_space c then lstrip r else s
  end.

Fixpoint rstrip (s : string) : string :=
  match s with
  | EmptyString => EmptyString
  | String c r =>
      match rstrip r with
      | EmptyString => if is_space c then EmptyString else String c EmptyString
      | r' => String c r'
      end
  end.

(** [s.strip()] *)
Definition strip (s : string) : string := rstrip (lstrip s).

(** [not s.strip()] *)
Definition blank (s : string) : bool := negb (truthy (strip s)).

(** [s.lower()] *)
Fixpoint lower (s : string) : string :=
  match s with
  | EmptyString => EmptyString
  | String c r => String (lower_char c) (lower r)
  end.

Fixpoint str_forall (p : ascii → bool) (s : string) : bool :=
  match s with
  | EmptyString => true
  | String c r => p c && str_forall p r
  end.

(** [s.replace(c, r)] for a one-character [c]. *)
Fixpoint replace_char (c : ascii) (r : string) (s : string) : string :=
  match s with
  | EmptyString => EmptyString
  | String d s' => if Ascii.eqb c d then String.append r (replace_char c r s')
                   else String d (replace_char c r s')
  end.

(** [needle in s] *)
Fixpoint str_contains (needle s : string) : bool :=
  String.prefix needle s ||
  match s with EmptyString => false | String _ r => str_contains needle r end.

(** [s[n:]] *)
Fixpoint drop_str (n : nat) (s : string) : string :=
  match n, s with
  | O, _ => s
  | S n', String _ r => drop_str n' r
  | S _, EmptyString => EmptyString
  end.

(** [s.endswith(c)] and [s[:-1]] for a one-character suffix. *)
Fixpoint last_char (s : string) : option ascii :=
  match s with
  | EmptyString => None
  | String c EmptyString => Some c
  | String _ r => last_char r
  end.

Fixpoint drop_last (s : string) : string :=
  match s with
  | EmptyString => EmptyString
  | String _ EmptyString => EmptyString
  | String c r => String c (drop_last r)
  end.

(** [s.split()]: the maximal runs of non-space characters. *)
Fixpoint split_ws_go (cur : string) (s : string) : list string :=
  match s with
  | EmptyString => if truthy cur then [cur] else []
  | String c r =>
      if is_space c
      then (if truthy cur then [cur] else []) ++ split_ws_go EmptyString r
      else split_ws_go (String.append cur (String c EmptyString)) r
  end.
Definition split_ws (s : string) : list string := split_ws_go EmptyString s.

(** [' '.join(parts)] *)
Definition join_space (parts : list string) : string := String.concat " " parts.

(** [a > b] on [str]: code points, which on UTF-8 bytes is the byte order. *)
Definition str_gtb (a b : string) : bool :=
  match String.compare a b with Gt => true | _ => false end.

(** ** Optional strings: [None] is falsy, as is the empty string *)

(** [o or d] *)
Definition str_or (o : option string) (d : string) : string :=
  match o with
  | Some s => if truthy s then s else d
  | None => d
  end.

(** [s or None] *)
Definition or_none (s : string) : option string := if truthy s then Some s else None.

(** [str(o or '').strip()] *)
Definition stripped (o : option string) : string := strip (str_or o "").

Definition opt_truthy (o : option string) : bool :=
  match o with Some s => truthy s | None => false end.

(** ** Decimal integers *)

Definition digit_value (c : ascii) : option Z :=
  if is_digit c then Some (code c - 48) else None.

(** Digits, with single underscores between them as [int] allows. *)
Fixpoint parse_digits (acc : Z) (after_digit : bool) (s : string) : option Z :=
  match s with
  | EmptyString => if after_digit then Some acc else None
  | String c r =>
      match digit_value c with
      | Some d => parse_digits (acc * 10 + d) true r
      | None =>
          if Ascii.eqb c "_" && after_digit
          then match r with
               | String c' _ => if is_digit c' then parse_digits acc false r else None
               | EmptyString => None
               end
          else None
      end
  end.

Definition parse_int (s : string) : option Z :=
  match strip s with
  | String "-" r => option_map Z.opp (parse_digits 0 false r)
  | String "+" r => parse_digits 0 false r
  | r => parse_digits 0 false r
  end.

(** ** JSON-like values *)

Inductive pyval :=
  | VNone
  | VBool (b : bool)
  | VInt (z : Z)
  | VStr (s : string)
  | VList (l : list pyval)
  | VDict (d : list (string * pyval)).

(** Insertion-ordered dictionaries. *)
Abbreviation pydict := (list (string * pyval)).

Fixpoint dict_get (d : pydict) (k : string) : option pyval :=
  match d with
  | [] => None
  | (k', v) :: d' => if String.eqb k k' then Some v else dict_get d' k
  end.

(** [d.get(k)] *)
Definition dget (d : pydict) (k : string) : pyval :=
  match dict_get d k with Some v => v | None => VNone end.

(** [d.get(k, default)] *)
Definition dget_or (d : pydict) (k : string) (v0 : pyval) : pyval :=
  match dict_get d k with Some v => v | None => v0 end.

(** [d[k]] *)
Definition dindex (d : pydict) (k : string) : result pyval :=
  match dict_get d k with Some v => Ok v | None => raise KeyError k end.

(** [d[k] = v]: the key keeps its place, a new key goes last. *)
Fixpoint dset (d : pydict) (k : string) (v : pyval) : pydict :=
  match d with
  | [] => [(k, v)]
  | (k', v') :: d' => if String.eqb k k' then (k', v) :: d' else (k', v') :: dset d' k v
  end.

(** [d.pop(k, None)] *)
Fixpoint dpop (d : pydict) (k : string) : pydict :=
  match d with
  | [] => []
  | (k', v) :: d' => if String.eqb k k' then d' else (k', v) :: dpop d' k
  end.

(** [d.setdefault(k, v)] *)
Definition dsetdefault (d : pydict) (k : string) (v : pyval) : pydict :=
  match dict_get d k with Some _ => d | None => dset d k v end.

(** [d.update(u)] *)
Definition dupdate (d u : pydict) : pydict := foldl (λ acc kv, dset acc kv.1 kv.2) d u.

Definition py_truthy (v : pyval) : bool :=
  match v with
  | VNone => false
  | VBool b => b
  | VInt z => negb (z =? 0)
  | VStr s => truthy s
  | VList l => match l with [] => false | _ => true end
  | VDict d => match d with [] => false | _ => true end
  end.

(** [v or w] *)
Definition py_or (v w : pyval) : pyval := if py_truthy v then v else w.

(** ** [repr] and [str] *)

Definition hex_digit (n : Z) : string :=
  match String.get (Z.to_nat n) "0123456789abcdef" with
  | Some c => String c EmptyString
  | None => EmptyString
  end.

Definition repr_char (quote c : ascii) : string :=
  if Ascii.eqb c quote then String "\" (String c EmptyString)
  else if Ascii.eqb c "\" then "\\"
  else if code c =? 9 then "\t"
  else if code c =? 10 then "\n"
  else if code c =? 13 then "\r"
  else if (code c <? 32) || (code c =? 127)
  then String.append "\x" (String.append (hex_digit (code c / 16)) (hex_digit (code c mod 16)))
  else String c EmptyString.

Fixpoint repr_body (quote : ascii) (s : string) : string :=
  match s with
  | EmptyString => EmptyString
  | String c r => String.append (repr_char quote c) (repr_body quote r)
  end.

Definition single_quote : ascii := "'".
Definition double_quote : ascii := ascii_of_nat 34.

Definition repr_str (s : string) : string :=
  let q := if str_contains (String single_quote EmptyString) s
              && negb (str_contains (String double_quote EmptyString) s)
           then double_quote else single_quote in
  String q (String.append (repr_body q s) (String q EmptyString)).

Fixpoint py_repr (v : pyval) : string :=
  match v with
  | VNone => "None"
  | VBool b => if b then "True" else "False"
  | VInt z => pretty z
  | VStr s => repr_str s
  | VList l => String.append "[" (String.append (String.concat ", " (map py_repr l)) "]")
  | VDict d =>
      String.append "{" (String.append
        (String.concat ", "
           (map (λ kv, String.append (repr_str kv.1) (String.append ": " (py_repr kv.2))) d)) "}")
  end.

(** [str(v)] *)
Definition py_str (v : pyval) : string :=
  match v with VStr s => s | _ => py_repr v end.

(** [str(v or '')] *)
Definition py_str_or_empty (v : pyval) : string := py_str (py_or v (VStr "")).

(** [int(v)] *)
Definition py_int (v : pyval) : result Z :=
  match v with
  | VInt z => Ok z
  | VBool b => Ok (if b then 1 else 0)
  | VStr s =>
      match parse_int s with
      | Some z => Ok z
      | None => raise ValueError "invalid literal for int()"
      end
  | _ => raise TypeError "int() argument must be a string or a number"
  end.

(** A value stored into a field declared [str | None]. *)
Definition as_opt_str (v : pyval) : result (option string) :=
  match v with
  | VNone => Ok None
  | VStr s => Ok (Some s)
  | _ => raise Unmodelled "expected str or None"
  end.

Definition of_opt_str (o : option string) : pyval :=
  match o with Some s => VStr s | None => VNone end.

(** [str(record[k])] *)
Definition py_str_at (r : pydict) (k : string) : result string :=
  let! v := dindex r k in Ok (py_str v).

(** [dict(v or {})] *)
Definition py_dict_or_empty (v : pyval) : result pydict :=
  match v with
  | VDict d => Ok d
  | VStr EmptyString | VNone | VList [] => Ok []
  | VBool b => if b then raise TypeError "object is not iterable" else Ok []
  | VInt z => if z =? 0 then Ok [] else raise TypeError "object is not iterable"
  | VStr _ => raise ValueError "dictionary update sequence element has wrong length"
  | VList _ => raise Unmodelled "dict() of a list"
  end.

(** [isinstance(v, str) and v.strip()], the stripped text when both hold. *)
Definition nonblank_str (v : pyval) : option string :=
  match v with
  | VStr s => if truthy (strip s) then Some (strip s) else None
  | _ => None
  end.

(** ** [==] *)

(** On JSON-like values: the order of the keys of a dictionary does not count, and a
    boolean is a number. *)
Fixpoint py_eq (v w : pyval) {struct v} : bool :=
  match v, w with
  | VNone, VNone => true
  | VStr a, VStr b => String.eqb a b
  | VBool a, VBool b => Bool.eqb a b
  | VInt a, VInt b => a =? b
  | VBool a, VInt b => (if a then 1 else 0) =? b
  | VInt a, VBool b => a =? (if b then 1 else 0)
  | VList l, VList l' =>
      (fix go (l l' : list pyval) : bool :=
         match l, l' with
         | [], [] => true
         | x :: r, y :: r' => py_eq x y && go r r'
         | _, _ => false
         end) l l'
  | VDict d, VDict d' =>
      (length d =? length d')%nat &&
      forallb (λ kv, match dict_get d' kv.1 with Some w => py_eq kv.2 w | None => false end) d
  | _, _ => false
  end.

(** ** Lemmas shared by the codecs *)

Lemma as_opt_str_of o : as_opt_str (of_opt_str o) = Ok o.
Proof. by destruct o. Qed.

Lemma py_str_or_empty_VStr s : py_str_or_empty (VStr s) = s.
Proof. by destruct s. Qed.

Lemma py_or_VStr s v : truthy s = true → py_or (VStr s) v = VStr s.
Proof. unfold py_or. simpl. by intros ->. Qed.

Lemma blank_truthy s : blank s = false → truthy s = true.
Proof. by destruct s. Qed.

#[export] Hint Resolve blank_truthy : ccb.
#[export] Hint Rewrite as_opt_str_of py_str_or_empty_VStr : ccb.

Lemma dict_get_dset_eq d k v : dict_get (dset d k v) k = Some v.
Proof.
  induction d as [|[k' v'] d IH]; simpl; [by rewrite String.eqb_refl|].
  destruct (String.eqb k k') eqn:E; simpl; by rewrite E.
Qed.

Lemma dict_get_dset_ne d k k' v : k ≠ k' → dict_get (dset d k v) k' = dict_get d k'.
Proof.
  intros Hne. induction d as [|[k0 v0] d IH]; simpl.
  - by destruct (String.eqb_spec k' k) as [->|].
  - destruct (String.eqb_spec k k0) as [->|]; simpl.
    + by destruct (String.eqb_spec k' k0) as [->|].
    + destruct (String.eqb k' k0); [done|apply IH].
Qed.

Lemma dget_dset_eq d k v : dget (dset d k v) k = v.
Proof. unfold dget. by rewrite dict_get_dset_eq. Qed.

Lemma dget_dset_ne d k k' v : k ≠ k' → dget (dset d k v) k' = dget d k'.
Proof. intros. unfold dget. by rewrite dict_get_dset_ne. Qed.

Lemma truthy_or s d : truthy s = true → str_or (Some s) d = s.
Proof. simpl. by intros ->. Qed.

Lemma str_gtb_irrefl s : str_gtb s s = false.
Proof.
  unfold str_gtb. induction s as [|c s IH]; simpl; [done|].
  unfold Ascii.compare. by rewrite N.compare_refl.
Qed.

Lemma str_gtb_leb a b : str_gtb a b = negb (String.leb a b).
Proof. unfold str_gtb, String.leb. by destruct (String.compare a b). Qed.

(** [a ≤ b] through stdpp's order on strings. *)
Lemma str_gtb_false a b : str_gtb a b = false ↔ String.le a b.
Proof.
  rewrite str_gtb_leb, negb_false_iff. unfold String.le. by rewrite Is_true_true.
Qed.
