(* ===== verification/Names.v ===== *)
(** Agent names and mailbox owners: [lib/agents/models_runtime/names.py] and
    [lib/mailbox_runtime/targets.py].  Every record of the message layer passes its
    agent name through these functions, so that they are idempotent is what makes a
    stored name a key. *)

From Stdlib Require Import Ascii String ZArith Lia.
From stdpp Require Import base list strings gmap.
From S2P Require Import Prelude PyData.

Local Open Scope Z_scope.

(** ** [agents/models_runtime/names.py] *)

Definition RESERVED_AGENT_NAMES : list string :=
  ["all"; "from"; "user"; "system"; "ask"; "cancel"; "clear"; "pend"; "ping"; "watch";
   "kill"; "ps"; "logs"; "doctor"; "config"; "cmd"; "version"; "update"; "help"].

Definition name_tail_char (c : ascii) : bool :=
  is_alpha c || is_digit c || Ascii.eqb c "_" || Ascii.eqb c "-".

(** [AGENT_NAME_PATTERN.fullmatch(value)] for
    [^[a-zA-Z][a-zA-Z0-9_-]{0,31}$]. *)
Definition agent_name_pattern (value : string) : bool :=
  match value with
  | EmptyString => false
  | String c r => is_alpha c && str_forall name_tail_char r && (String.length r <=? 31)%nat
  end.
Arguments agent_name_pattern : simpl never.

Definition mem_str (s : string) (l : list string) : bool := existsb (String.eqb s) l.
Arguments mem_str : simpl never.

Definition normalize_agent_name (name : string) : result string :=
  let value := strip name in
  do! raise_if (negb (truthy value)) AgentValidationError "agent name cannot be empty" in
  do! raise_if (negb (agent_name_pattern value)) AgentValidationError
        "agent name must match ^[a-zA-Z][a-zA-Z0-9_-]{0,31}$" in
  let normalized := lower value in
  do! raise_if (mem_str normalized RESERVED_AGENT_NAMES) AgentValidationError
        (String.append "agent name " (String.append (repr_str normalized) " is reserved")) in
  Ok normalized.

Definition validate_agent_name (name : string) : result string := normalize_agent_name name.

(** ** [mailbox_runtime/targets.py] *)

Definition CMD_ACTOR : string := "cmd".
Definition USER_ACTOR : string := "user".
Definition MAINTENANCE_HEARTBEAT_ACTOR : string := "maintenance-heartbeat".
Definition NON_MAILBOX_ACTORS : list string :=
  [USER_ACTOR; "system"; "manual"; "email"; MAINTENANCE_HEARTBEAT_ACTOR].
Definition NON_AGENT_ACTORS : list string := CMD_ACTOR :: NON_MAILBOX_ACTORS.

Definition normalize_actor_name (actor : option string) : result string :=
  let normalized := lower (stripped actor) in
  do! raise_if (negb (truthy normalized)) AgentValidationError "actor cannot be empty" in
  if String.eqb normalized CMD_ACTOR || mem_str normalized NON_MAILBOX_ACTORS
  then Ok normalized
  else normalize_agent_name normalized.

Definition normalize_mailbox_owner_name (actor : option string) : result string :=
  let! normalized := normalize_actor_name actor in
  do! raise_if (mem_str normalized NON_AGENT_ACTORS) AgentValidationError
        (String.append "actor " (String.append (repr_str normalized) " does not own a mailbox")) in
  Ok normalized.

(** [known_mailbox_targets]: the agents of the configuration, normalised. *)
Fixpoint known_mailbox_targets (agents : list string) : result (list string) :=
  match agents with
  | [] => Ok []
  | name :: rest =>
      let! n := normalize_agent_name name in
      let! ns := known_mailbox_targets rest in
      Ok (n :: ns)
  end.

(** [except AgentValidationError: return None] *)
Definition normalize_mailbox_target (actor : option string) (known_targets : list string)
    : option string :=
  let normalized := lower (stripped actor) in
  if negb (truthy normalized) then None
  else
    match normalize_mailbox_owner_name (Some normalized) with
    | Err _ => None
    | Ok mailbox_name => if mem_str mailbox_name known_targets then Some mailbox_name else None
    end.

(** ** Lemmas on characters and strings *)

Lemma mem_str_spec s l : mem_str s l = true ↔ s ∈ l.
Proof.
  unfold mem_str. rewrite existsb_exists. setoid_rewrite <-list_elem_of_In.
  split.
  - intros (x & Hx & Heq). apply String.eqb_eq in Heq. by subst.
  - intros Hs. exists s. split; [done|]. by apply String.eqb_refl.
Qed.

Lemma code_range c : 0 <= code c <= 255.
Proof.
  unfold code. split; [lia|].
  pose proof (N_ascii_bounded c). lia.
Qed.

Lemma lower_char_id c : is_upper c = false → lower_char c = c.
Proof. unfold lower_char. by intros ->. Qed.

(** Facts about single characters are checked on all 256 of them. *)
Ltac by_ascii := intros [[] [] [] [] [] [] [] []]; vm_compute; (done || congruence || auto).

Lemma lower_char_not_upper : ∀ c, is_upper (lower_char c) = false.
Proof. by_ascii. Qed.

Lemma lower_char_alpha : ∀ c, is_alpha (lower_char c) = is_alpha c.
Proof. by_ascii. Qed.

Lemma lower_char_tail : ∀ c, name_tail_char (lower_char c) = name_tail_char c.
Proof. by_ascii. Qed.

Lemma lower_char_space : ∀ c, is_space (lower_char c) = is_space c.
Proof. by_ascii. Qed.

Lemma alpha_tail : ∀ c, is_alpha c = true → name_tail_char c = true.
Proof. by_ascii. Qed.

Lemma tail_not_space : ∀ c, name_tail_char c = true → is_space c = false.
Proof. by_ascii. Qed.

#[export] Hint Resolve lower_char_not_upper lower_char_alpha lower_char_tail lower_char_space
  alpha_tail tail_not_space : ccb.
#[export] Hint Rewrite lower_char_alpha lower_char_tail lower_char_space : ccb.

Lemma lower_char_idemp c : lower_char (lower_char c) = lower_char c.
Proof. apply lower_char_id. auto with ccb. Qed.

Lemma lower_idemp s : lower (lower s) = lower s.
Proof. induction s as [|c r IH]; simpl; [done|]. by rewrite lower_char_idemp, IH. Qed.

Lemma lower_length s : String.length (lower s) = String.length s.
Proof. induction s as [|c r IH]; simpl; congruence. Qed.

Lemma lower_truthy s : truthy (lower s) = truthy s.
Proof. by destruct s. Qed.

Lemma lower_forall_tail s : str_forall name_tail_char (lower s) = str_forall name_tail_char s.
Proof. induction s as [|c r IH]; simpl; [done|]. by rewrite lower_char_tail, IH. Qed.

Definition no_space (s : string) : bool := str_forall (λ c, negb (is_space c)) s.

Lemma rstrip_no_space s : no_space s = true → rstrip s = s.
Proof.
  unfold no_space. induction s as [|c r IH]; simpl; [done|].
  intros [Hc Hr]%andb_prop. rewrite IH by done.
  apply negb_true_iff in Hc. rewrite Hc. by destruct r.
Qed.

Lemma strip_no_space s : no_space s = true → strip s = s.
Proof.
  intros H. unfold strip.
  assert (lstrip s = s) as ->; [|by apply rstrip_no_space].
  unfold no_space in H. destruct s as [|c r]; simpl in *; [done|].
  apply andb_prop in H as [Hc _]. apply negb_true_iff in Hc. by rewrite Hc.
Qed.

Lemma tail_no_space s : str_forall name_tail_char s = true → no_space s = true.
Proof.
  unfold no_space. induction s as [|c r IH]; simpl; [done|].
  intros [Hc Hr]%andb_prop. rewrite IH by done. by rewrite (tail_not_space c Hc).
Qed.

(** [strip] leaves a string that starts and ends with a non-space. *)
Lemma rstrip_idemp s : rstrip (rstrip s) = rstrip s.
Proof.
  induction s as [|c r IH]; [done|]. cbn [rstrip].
  destruct (rstrip r) as [|c' r'] eqn:Hr.
  - destruct (is_space c) eqn:Hc; [done|]. simpl. by rewrite Hc.
  - cbn [rstrip] in *. destruct (rstrip r') as [|c'' r''].
    + destruct (is_space c'); by simplify_eq.
    + by simplify_eq.
Qed.

Lemma lstrip_head s c r : lstrip s = String c r → is_space c = false.
Proof.
  induction s as [|d t IH]; simpl; [done|].
  destruct (is_space d) eqn:Hd; [auto|]. intros ?. by simplify_eq.
Qed.

Lemma rstrip_head c r : is_space c = false → ∃ r', rstrip (String c r) = String c r'.
Proof. intros Hc. simpl. destruct (rstrip r); rewrite ?Hc; eauto. Qed.

Lemma strip_idemp s : strip (strip s) = strip s.
Proof.
  unfold strip. destruct (lstrip s) as [|c r] eqn:Hl; [done|].
  pose proof (lstrip_head _ _ _ Hl) as Hc.
  destruct (rstrip_head c r Hc) as [r' Hr]. rewrite Hr.
  cbn [lstrip]. rewrite Hc. rewrite <-Hr. apply rstrip_idemp.
Qed.

Lemma lstrip_lower s : lstrip (lower s) = lower (lstrip s).
Proof.
  induction s as [|c s IH]; [done|]. simpl. rewrite lower_char_space. by destruct (is_space c).
Qed.

Lemma rstrip_lower s : rstrip (lower s) = lower (rstrip s).
Proof.
  induction s as [|c s IH]; [done|]. simpl. rewrite IH, lower_char_space.
  destruct (rstrip s); [|done]. simpl. by destruct (is_space c).
Qed.

Lemma strip_lower s : strip (lower s) = lower (strip s).
Proof. unfold strip. by rewrite lstrip_lower, rstrip_lower. Qed.

Lemma strip_truthy_some s : truthy (strip s) = true → truthy s = true.
Proof. by destruct s. Qed.

(** ** Normal names *)

(** A name in the form the functions return. *)
Definition normal_name (n : string) : bool :=
  agent_name_pattern n && String.eqb (lower n) n && negb (mem_str n RESERVED_AGENT_NAMES).

Definition owner_name (n : string) : bool := normal_name n && negb (mem_str n NON_AGENT_ACTORS).

Lemma pattern_no_space v : agent_name_pattern v = true → no_space v = true.
Proof.
  intros H. apply tail_no_space. destruct v as [|c r]; [done|].
  unfold agent_name_pattern in H. simpl in *.
  repeat (apply andb_prop in H as [H ?]). rewrite (alpha_tail _ H). done.
Qed.

Lemma pattern_truthy v : agent_name_pattern v = true → truthy v = true.
Proof. by destruct v. Qed.

Lemma pattern_lower v : agent_name_pattern (lower v) = agent_name_pattern v.
Proof.
  destruct v as [|c r]; [done|]. unfold agent_name_pattern. simpl.
  by rewrite lower_char_alpha, lower_forall_tail, lower_length.
Qed.

Lemma normalize_agent_name_ok name n :
  normalize_agent_name name = Ok n →
  agent_name_pattern (strip name) = true ∧ n = lower (strip name) ∧ normal_name n = true.
Proof.
  unfold normalize_agent_name, raise_if.
  destruct (truthy (strip name)) eqn:Ht; [|done]. simpl.
  destruct (agent_name_pattern (strip name)) eqn:Hp; [|done]. simpl.
  destruct (mem_str (lower (strip name)) RESERVED_AGENT_NAMES) eqn:Hr; [done|]. simpl.
  intros [= <-]. split_and!; [done..|]. unfold normal_name.
  rewrite pattern_lower, Hp, lower_idemp, String.eqb_refl, Hr. done.
Qed.

Lemma normalize_agent_name_normal n : normal_name n = true → normalize_agent_name n = Ok n.
Proof.
  unfold normal_name. intros [[Hp Hl]%andb_prop Hr]%andb_prop.
  apply String.eqb_eq in Hl. apply negb_true_iff in Hr.
  unfold normalize_agent_name. rewrite (strip_no_space n) by by apply pattern_no_space.
  rewrite (pattern_truthy _ Hp), Hp, Hl, Hr. done.
Qed.

Lemma normal_name_facts n :
  normal_name n = true →
  strip n = n ∧ lower n = n ∧ truthy n = true ∧ mem_str n RESERVED_AGENT_NAMES = false.
Proof.
  unfold normal_name. intros [[Hp Hl]%andb_prop Hr]%andb_prop.
  apply String.eqb_eq in Hl. apply negb_true_iff in Hr.
  split_and!; try done; [by apply strip_no_space, pattern_no_space|by apply pattern_truthy].
Qed.

Lemma normalize_actor_name_normal n :
  normal_name n = true → normalize_actor_name (Some n) = Ok n.
Proof.
  intros Hn. destruct (normal_name_facts n Hn) as (Hs & Hl & Ht & Hr).
  unfold normalize_actor_name, stripped, str_or. rewrite Ht, Hs, Hl, Ht. simpl.
  destruct (String.eqb n CMD_ACTOR || mem_str n NON_MAILBOX_ACTORS); [done|].
  by apply normalize_agent_name_normal.
Qed.

Lemma normalize_owner_normal n :
  owner_name n = true → normalize_mailbox_owner_name (Some n) = Ok n.
Proof.
  unfold owner_name. intros [Hn Hm]%andb_prop. apply negb_true_iff in Hm.
  unfold normalize_mailbox_owner_name. rewrite normalize_actor_name_normal by done. simpl.
  by rewrite Hm.
Qed.

Lemma normalize_owner_ok o n :
  normalize_mailbox_owner_name o = Ok n → owner_name n = true.
Proof.
  unfold normalize_mailbox_owner_name, normalize_actor_name, raise_if.
  destruct (truthy (lower (stripped o))); [|done]. simpl.
  destruct (String.eqb (lower (stripped o)) CMD_ACTOR
            || mem_str (lower (stripped o)) NON_MAILBOX_ACTORS) eqn:Hb; simpl.
  - destruct (mem_str (lower (stripped o)) NON_AGENT_ACTORS) eqn:Hm; [done|].
    exfalso. change (mem_str (lower (stripped o)) NON_AGENT_ACTORS) with
      (String.eqb (lower (stripped o)) CMD_ACTOR
       || mem_str (lower (stripped o)) NON_MAILBOX_ACTORS) in Hm. congruence.
  - destruct (normalize_agent_name (lower (stripped o))) as [m|e] eqn:Hn; [|done]. simpl.
    destruct (mem_str m NON_AGENT_ACTORS) eqn:Hm; [done|]. simpl. intros [= <-].
    apply normalize_agent_name_ok in Hn as (_ & _ & Hn).
    unfold owner_name. by rewrite Hn, Hm.
Qed.

#[export] Hint Resolve normalize_agent_name_normal normalize_actor_name_normal
  normalize_owner_normal normalize_owner_ok : ccb.

Lemma owner_name_truthy n : owner_name n = true → truthy n = true.
Proof. unfold owner_name. intros [Hn _]%andb_prop. by apply normal_name_facts in Hn as (_ & _ & ? & _). Qed.

Lemma owner_name_normal n : owner_name n = true → normal_name n = true.
Proof. unfold owner_name. by intros [? _]%andb_prop. Qed.

#[export] Hint Resolve owner_name_truthy owner_name_normal : ccb.
