(* ===== verification/Text.v ===== *)
(** Strings: the laws of concatenation, of predicates on all characters, and of the
    scans the modelled code makes.

    Decimal text: [str(n)] of a non-negative integer is a run of digits without
    leading zero, and [int] reads it back. *)

From Stdlib Require Import Ascii String ZArith Lia.
From stdpp Require Import base list strings pretty.
From S2P Require Import Prelude PyData Names.

Lemma append_cons c a b : String.append (String c a) b = String c (String.append a b).
Proof. reflexivity. Qed.

Lemma append_nil_l (a : string) : String.append "" a = a.
Proof. reflexivity. Qed.

Lemma append_nil_r s : String.append s "" = s.
Proof. induction s as [|c s IH]; [done|]. by rewrite append_cons, IH. Qed.

Lemma append_assoc a b c : String.append (String.append a b) c = String.append a (String.append b c).
Proof. induction a as [|x a IH]; [done|]. by rewrite !append_cons, IH. Qed.

Lemma str_forall_app p a b : str_forall p (String.append a b) = str_forall p a && str_forall p b.
Proof.
  induction a as [|c a IH]; [done|].
  change (p c && str_forall p (String.append a b) = (p c && str_forall p a) && str_forall p b).
  by rewrite IH, andb_assoc.
Qed.

Lemma str_forall_mono (p q : ascii → bool) s :
  (∀ c, p c = true → q c = true) → str_forall p s = true → str_forall q s = true.
Proof. intros H. induction s as [|c s IH]; simpl; [done|]. intros [??]%andb_prop. by rewrite H, IH. Qed.

Lemma replace_char_id c r s : str_forall (λ d, negb (Ascii.eqb c d)) s = true → replace_char c r s = s.
Proof.
  induction s as [|d s IH]; simpl; [done|]. intros [Hd Hs]%andb_prop. apply negb_true_iff in Hd.
  by rewrite Hd, IH.
Qed.

Lemma rstrip_append x y : truthy y = true → rstrip y = y → rstrip (String.append x y) = String.append x y.
Proof.
  intros Ht Hy. induction x as [|c x IH]; [done|]. rewrite append_cons. cbn [rstrip]. rewrite IH.
  destruct (String.append x y) eqn:E; [|done].
  destruct x as [|d x]; [change (y = "") in E; by subst y|by rewrite append_cons in E].
Qed.

Lemma prefix_append pre s : String.prefix pre (String.append pre s) = true.
Proof.
  induction pre as [|c pre IH]; [by destruct s|]. rewrite append_cons. cbn [String.prefix].
  by destruct (ascii_dec c c).
Qed.

Lemma drop_append pre s : drop_str (String.length pre) (String.append pre s) = s.
Proof. induction pre as [|c pre IH]; [by destruct s|]. exact IH. Qed.

(** [s] cannot continue a run of the class [p]. *)
Definition stops (p : ascii → bool) (s : string) : bool :=
  match s with EmptyString => true | String c _ => negb (p c) end.

Lemma lstrip_head_no_space c r : is_space c = false → lstrip (String c r) = String c r.
Proof. intros H. cbn. by rewrite H. Qed.

Local Open Scope Z_scope.

Definition digits (s : string) : bool := truthy s && str_forall is_digit s.

Lemma digit_value_some c : is_digit c = true → ∃ d, digit_value c = Some d ∧ 0 <= d <= 9.
Proof.
  intros H. unfold digit_value. rewrite H. exists (code c - 48). split; [done|].
  unfold is_digit, in_range in H. lia.
Qed.

Lemma parse_digits_total s acc b :
  0 <= acc → str_forall is_digit s = true → b || truthy s = true →
  ∃ v, parse_digits acc b s = Some v ∧ acc <= v.
Proof.
  revert acc b. induction s as [|c r IH]; intros acc b Ha Hd Hb; cbn in *.
  - rewrite orb_false_r in Hb. subst. eauto with lia.
  - apply andb_true_iff in Hd as [Hc Hr]. destruct (digit_value_some c Hc) as (d & -> & Hd).
    destruct (IH (acc * 10 + d) true) as (v & -> & Hv); [lia|done|done|]. exists v. split; [done|lia].
Qed.

Lemma digit_no_space : ∀ c, is_digit c = true → is_space c = false.
Proof. by_ascii. Qed.

Lemma digits_strip s : digits s = true → strip s = s.
Proof.
  intros [_ H]%andb_true_iff. apply strip_no_space. unfold no_space.
  induction s as [|c r IH]; cbn in *; [done|].
  apply andb_true_iff in H as [Hc Hr]. by rewrite (digit_no_space c Hc), IH.
Qed.

Lemma parse_int_digits s : digits s = true → parse_int s = parse_digits 0 false s.
Proof.
  intros H. unfold parse_int. rewrite (digits_strip s H).
  destruct s as [|c r]; [done|].
  unfold digits in H. cbn in H. destruct (is_digit c) eqn:E; [|done].
  destruct c as [[] [] [] [] [] [] [] []]; done || discriminate E.
Qed.

Lemma parse_int_nonneg s : digits s = true → ∃ v, parse_int s = Some v ∧ 0 <= v.
Proof.
  intros H. rewrite (parse_int_digits s H). apply andb_true_iff in H as [Ht Hd].
  by apply parse_digits_total.
Qed.

(** A positive first digit makes a positive number. *)
Lemma parse_int_pos c r :
  in_range 49 57 c = true → str_forall is_digit r = true →
  ∃ v, parse_int (String c r) = Some v ∧ 1 <= v.
Proof.
  intros Hc Hr.
  assert (Hd : is_digit c = true) by (unfold is_digit, in_range in *; lia).
  rewrite parse_int_digits by (unfold digits; cbn; by rewrite Hd).
  cbn. unfold digit_value. rewrite Hd.
  destruct (parse_digits_total r (0 * 10 + (code c - 48)) true) as (v & -> & Hv);
    [unfold in_range in Hc; lia|done|done|].
  exists v. split; [done|]. unfold in_range in Hc. lia.
Qed.

Lemma pretty_N_char_digit (x : N) :
  (x < 10)%N → is_digit (pretty_N_char x) = true ∧ digit_value (pretty_N_char x) = Some (Z.of_N x).
Proof.
  intros H.
  assert (x = 0 ∨ x = 1 ∨ x = 2 ∨ x = 3 ∨ x = 4 ∨ x = 5 ∨ x = 6 ∨ x = 7 ∨ x = 8 ∨ x = 9)%N as E
    by lia.
  by destruct E as [->|[->|[->|[->|[->|[->|[->|[->|[->| ->]]]]]]]]].
Qed.

(** Reading [pretty_N_go x s] from a clear start reads [x], then [s]. *)
Lemma parse_digits_go (x : N) s b :
  (0 < x)%N → parse_digits 0 b (pretty_N_go x s) = parse_digits (Z.of_N x) true s.
Proof.
  revert s. induction (N.lt_wf_0 x) as [x _ IH]; intros s Hx.
  rewrite pretty_N_go_step by done.
  assert (Hm : (x mod 10 < 10)%N) by (apply N.mod_lt; lia).
  destruct (pretty_N_char_digit _ Hm) as [_ Hv].
  assert (Z.of_N (x `div` 10) * 10 + Z.of_N (x mod 10) = Z.of_N x) as E.
  { pose proof (N.div_mod x 10 ltac:(done)). lia. }
  destruct (decide (0 < x `div` 10)%N) as [Hq|Hq].
  - rewrite IH; [|by apply N.div_lt|done]. cbn [parse_digits]. by rewrite Hv, E.
  - assert ((x `div` 10)%N = 0%N) as Hz by lia. rewrite Hz in E |- *. rewrite pretty_N_go_0.
    cbn [parse_digits]. rewrite Hv. f_equal. lia.
Qed.

Lemma pretty_N_go_digits (x : N) s :
  str_forall is_digit (pretty_N_go x s) = str_forall is_digit s.
Proof.
  revert s. induction (N.lt_wf_0 x) as [x _ IH]; intros s.
  destruct (decide (0 < x)%N) as [Hx|Hx].
  - rewrite pretty_N_go_step by done. rewrite IH by by apply N.div_lt. cbn.
    by rewrite (proj1 (pretty_N_char_digit (x mod 10) ltac:(apply N.mod_lt; lia))).
  - by replace x with 0%N by lia.
Qed.

Lemma pretty_N_go_head (x : N) s :
  (0 < x)%N → ∃ c r, pretty_N_go x s = String c r ∧ in_range 49 57 c = true.
Proof.
  revert s. induction (N.lt_wf_0 x) as [x _ IH]; intros s Hx.
  rewrite pretty_N_go_step by done.
  destruct (decide (0 < x `div` 10)%N) as [Hq|Hq]; [by apply IH; [apply N.div_lt|]|].
  assert ((x `div` 10)%N = 0%N) as Hz by by apply N.le_0_r, N.nlt_ge.
  rewrite Hz, pretty_N_go_0. clear IH.
  eexists _, _. split; [done|].
  assert (Hm : (x mod 10 < 10)%N) by (apply N.mod_lt; lia).
  pose proof (N.div_mod x 10 ltac:(done)).
  assert (x mod 10 ≠ 0)%N by lia.
  destruct (pretty_N_char_digit _ Hm) as [Hd Hv].
  unfold digit_value in Hv. rewrite Hd in Hv. injection Hv as Hv.
  unfold is_digit, in_range in *. lia.
Qed.

Lemma pretty_pos_head n : 1 <= n →
  ∃ c r, pretty n = String c r ∧ in_range 49 57 c = true ∧ str_forall is_digit r = true.
Proof.
  intros H. destruct n as [|p|p]; [lia| |lia].
  destruct (pretty_N_go_head (N.pos p) "") as (c & r & E & Hc); [lia|].
  exists c, r. split; [|split]; [done|done|].
  pose proof (pretty_N_go_digits (N.pos p) "") as Hd. rewrite E in Hd. cbn in Hd.
  by apply andb_true_iff in Hd as [_ Hr].
Qed.

Lemma pretty_digits n : 0 <= n → digits (pretty n) = true.
Proof.
  intros H. destruct (decide (1 <= n)) as [Hn|Hn]; [|by replace n with 0 by lia].
  destruct (pretty_pos_head n Hn) as (c & r & -> & Hc & Hr). unfold digits. cbn. rewrite Hr.
  unfold is_digit, in_range in *. lia.
Qed.

Lemma parse_int_pretty n : 0 <= n → parse_int (pretty n) = Some n.
Proof.
  intros H. rewrite parse_int_digits by by apply pretty_digits.
  destruct n as [|p|p]; [done| |lia].
  change (parse_digits 0 false (pretty_N_go (N.pos p) "") = Some (Z.pos p)).
  by rewrite parse_digits_go.
Qed.
