(* ===== verification/Timestamps.v ===== *)
(** Timestamps.  The records carry ISO strings; the two places that do arithmetic on
    them are [parse_timestamp]/[format_timestamp] of
    [lib/mailbox_kernel/service_runtime/lease_expiry.py] and
    [parse_timestamp]/[seconds_between] of [lib/completion/models_runtime/utils.py].
    Both rest on [datetime] of the standard library, modelled here: the proleptic
    Gregorian ordinal of [datetime], [fromisoformat] with the grammar of Python 3.10
    (the oldest interpreter the project supports), [isoformat], and comparison and
    subtraction of aware and naive values.  Durations are whole microseconds. *)

From Stdlib Require Import Ascii String ZArith Lia.
From stdpp Require Import base list strings.
From S2P Require Import Prelude PyData Names.

Local Open Scope Z_scope.

(** ** The calendar *)

Definition is_leap (y : Z) : bool :=
  (y mod 4 =? 0) && (negb (y mod 100 =? 0) || (y mod 400 =? 0)).

Definition days_before_year (y : Z) : Z :=
  let y' := y - 1 in y' * 365 + y' / 4 - y' / 100 + y' / 400.

Definition days_in_month (y m : Z) : Z :=
  if (m =? 2) && is_leap y then 29
  else match m with
       | 2 => 28
       | 4 | 6 | 9 | 11 => 30
       | _ => 31
       end.

Definition days_before_month_std (m : Z) : Z :=
  match m with
  | 1 => 0 | 2 => 31 | 3 => 59 | 4 => 90 | 5 => 120 | 6 => 151
  | 7 => 181 | 8 => 212 | 9 => 243 | 10 => 273 | 11 => 304 | 12 => 334
  | _ => 0
  end.

Definition days_before_month (y m : Z) : Z :=
  days_before_month_std m + (if (2 <? m) && is_leap y then 1 else 0).

Definition ymd2ord (y m d : Z) : Z := days_before_year y + days_before_month y m + d.

(** Month and day of the day [n] (from 0) of a year. *)
Definition ord2md (leapyear : bool) (n : Z) : Z * Z :=
  let month := Z.shiftr (n + 50) 5 in
  let preceding := days_before_month_std month + (if (2 <? month) && leapyear then 1 else 0) in
  if n <? preceding then
    let month := month - 1 in
    let preceding :=
      preceding - (if (month =? 2) && leapyear then 29 else days_in_month 1 month) in
    (month, n - preceding + 1)
  else (month, n - preceding + 1).

(** The inverse within one cycle of 400 years, [n] counted from 0. *)
Definition ord2ymd_cycle (n : Z) : Z * Z * Z :=
  let n100 := n / 36524 in
  let n := n mod 36524 in
  let n4 := n / 1461 in
  let n := n mod 1461 in
  let n1 := n / 365 in
  let n := n mod 365 in
  let year := 1 + n100 * 100 + n4 * 4 + n1 in
  if (n1 =? 4) || (n100 =? 4) then (year - 1, 12, 31)
  else
    let '(m, d) := ord2md ((n1 =? 3) && (negb (n4 =? 24) || (n100 =? 3))) n in
    (year, m, d).

Definition ord2ymd (ordinal : Z) : Z * Z * Z :=
  let n := ordinal - 1 in
  let '(y, m, d) := ord2ymd_cycle (n mod 146097) in
  (y + 400 * (n / 146097), m, d).

(** ** Datetimes *)

Definition US_PER_S : Z := 1000000.
Definition US_PER_DAY : Z := 86400 * US_PER_S.

(** Wall-clock microseconds since 0001-01-01 (which counts as one day), and the UTC
    offset of an aware value. *)
Record datetime := Datetime { dt_local : Z; dt_offset : option Z }.

(** [datetime.min] and [datetime.max]. *)
Definition dt_min : Z := US_PER_DAY.
Definition dt_max : Z := US_PER_DAY * 3652060 - 1.
Definition in_datetime_range (us : Z) : bool := (dt_min <=? us) && (us <=? dt_max).

Definition instant (t : datetime) : Z :=
  dt_local t - match dt_offset t with Some o => o | None => 0 end.

(** [t.replace(tzinfo=timezone.utc)] for a naive [t]. *)
Definition assume_utc (t : datetime) : datetime :=
  match dt_offset t with Some _ => t | None => Datetime (dt_local t) (Some 0) end.

(** [t + timedelta(microseconds=d)] *)
Definition dt_add (t : datetime) (d : Z) : result datetime :=
  if in_datetime_range (dt_local t + d)
  then Ok (Datetime (dt_local t + d) (dt_offset t))
  else raise OverflowError "date value out of range".

(** [a < b] for aware values. *)
Definition dt_ltb (a b : datetime) : bool := instant a <? instant b.

(** [(a - b).total_seconds()], in microseconds. *)
Definition dt_sub (a b : datetime) : result Z :=
  match dt_offset a, dt_offset b with
  | Some _, Some _ | None, None => Ok (instant a - instant b)
  | _, _ => raise TypeError "can't subtract offset-naive and offset-aware datetimes"
  end.

(** ** [fromisoformat] *)

Definition take_digit (s : string) : option (Z * string) :=
  match s with
  | String c r => match digit_value c with Some d => Some (d, r) | None => None end
  | EmptyString => None
  end.

Definition take2 (s : string) : option (Z * string) :=
  match take_digit s with
  | Some (a, r) =>
      match take_digit r with Some (b, r') => Some (10 * a + b, r') | None => None end
  | None => None
  end.

Definition expect (c : ascii) (s : string) : option string :=
  match s with
  | String d r => if Ascii.eqb c d then Some r else None
  | EmptyString => None
  end.

Definition parse_date (s : string) : option (Z * Z * Z * string) :=
  '(c, s) ← take2 s; '(y, s) ← take2 s; s ← expect "-" s;
  '(m, s) ← take2 s; s ← expect "-" s; '(d, s) ← take2 s;
  Some (100 * c + y, m, d, s).

(** Three or six digits, read as microseconds, up to the end of the string. *)
Definition parse_fraction (s : string) : option Z :=
  '(a, s) ← take2 s; '(b, s) ← take_digit s;
  match s with
  | EmptyString => Some ((10 * a + b) * 1000)
  | _ => '(c, s) ← take2 s; '(d, s) ← take_digit s;
         match s with
         | EmptyString => Some ((10 * a + b) * 1000 + (10 * c + d))
         | _ => None
         end
  end.

(** [HH[:MM[:SS[.fff[fff]]]]], the whole string. *)
Definition parse_hms (s : string) : option (Z * Z * Z * Z) :=
  '(h, s) ← take2 s;
  match s with
  | EmptyString => Some (h, 0, 0, 0)
  | _ =>
      s ← expect ":" s; '(m, s) ← take2 s;
      match s with
      | EmptyString => Some (h, m, 0, 0)
      | _ =>
          s ← expect ":" s; '(sec, s) ← take2 s;
          match s with
          | EmptyString => Some (h, m, sec, 0)
          | _ => s ← expect "." s; f ← parse_fraction s; Some (h, m, sec, f)
          end
      end
  end.

(** The time part up to the sign of the offset, and what follows the sign. *)
Fixpoint split_offset (s : string) : string * option (bool * string) :=
  match s with
  | EmptyString => (EmptyString, None)
  | String c r =>
      if Ascii.eqb c "+" then (EmptyString, Some (false, r))
      else if Ascii.eqb c "-" then (EmptyString, Some (true, r))
      else let '(t, o) := split_offset r in (String c t, o)
  end.

Definition hms_us (t : Z * Z * Z * Z) : Z :=
  let '(h, m, s, us) := t in ((h * 60 + m) * 60 + s) * US_PER_S + us.

Definition valid_date (y m d : Z) : bool :=
  (1 <=? y) && (y <=? 9999) && (1 <=? m) && (m <=? 12) && (1 <=? d) && (d <=? days_in_month y m).

Definition valid_time (t : Z * Z * Z * Z) : bool :=
  let '(h, m, s, _) := t in (h <=? 23) && (m <=? 59) && (s <=? 59).

Definition parse_offset (o : option (bool * string)) : option (option Z) :=
  match o with
  | None => Some None
  | Some (neg, s) =>
      t ← parse_hms s;
      let us := hms_us t in
      if us <? US_PER_DAY then Some (Some (if neg : bool then - us else us)) else None
  end.

(** [datetime.fromisoformat(s)]; [None] is the [ValueError]. *)
Definition fromisoformat (s : string) : option datetime :=
  '(y, m, d, rest) ← parse_date s;
  if negb (valid_date y m d) then None
  else
    let day := ymd2ord y m d * US_PER_DAY in
    match rest with
    | EmptyString => Some (Datetime day None)
    | String _ tail =>
        let '(time, o) := split_offset tail in
        t ← parse_hms time;
        off ← parse_offset o;
        if valid_time t then Some (Datetime (day + hms_us t) off) else None
    end.

(** ** [isoformat] of a UTC value *)

Definition digit (d : Z) : ascii := ascii_of_N (48 + Z.to_N d).
Definition pad2 (z : Z) (k : string) : string :=
  String (digit (z / 10)) (String (digit (z mod 10)) k).

(** [value.astimezone(utc).isoformat()] up to the suffix that names the offset. *)
Definition isoformat_utc (us : Z) (suffix : string) : string :=
  let '(y, m, d) := ord2ymd (us / US_PER_DAY) in
  let r := us mod US_PER_DAY in
  let s := r / US_PER_S in
  let f := r mod US_PER_S in
  pad2 (y / 100) (pad2 (y mod 100) (String "-" (pad2 m (String "-" (pad2 d (String "T"
    (pad2 (s / 3600) (String ":" (pad2 (s / 60 mod 60) (String ":" (pad2 (s mod 60)
      (if f =? 0 then suffix
       else String "." (pad2 (f / 10000) (pad2 (f / 100 mod 100) (pad2 (f mod 100) suffix))))))))))))))).

(** [.replace('+00:00', 'Z')]: the suffix is the only place the text occurs. *)
Definition isoformat_z (us : Z) : string := isoformat_utc us "Z".

(** ** [lease_expiry.py] *)

Definition parse_timestamp (value : option string) : option datetime :=
  let text := stripped value in
  if negb (truthy text) then None
  else
    let text :=
      match last_char text with
      | Some c => if Ascii.eqb c "Z" then String.append (drop_last text) "+00:00" else text
      | None => text
      end in
    option_map assume_utc (fromisoformat text).

Definition format_timestamp (value : datetime) : result string :=
  if in_datetime_range (instant value) then Ok (isoformat_z (instant value))
  else raise OverflowError "date value out of range".

(** ** [completion/models_runtime/utils.py] *)

Definition completion_parse_timestamp (value : string) : result datetime :=
  match fromisoformat (replace_char "Z" "+00:00" value) with
  | Some t => Ok t
  | None => raise ValueError "Invalid isoformat string"
  end.

(** [seconds_between(start, end)], in microseconds. *)
Definition seconds_between (start finish : string) : result Z :=
  let! e := completion_parse_timestamp finish in
  let! s := completion_parse_timestamp start in
  dt_sub e s.

(** ** The calendar is exact

    [datetime] converts ordinals to dates and back.  The month computation is checked
    on the days of a common and of a leap year; the year computation is arithmetic. *)

Definition md_ok (leapyear : bool) (n : Z) : bool :=
  let '(m, d) := ord2md leapyear n in
  (days_before_month_std m + (if (2 <? m) && leapyear then 1 else 0) + d =? n + 1)
  && (1 <=? m) && (m <=? 12) && (1 <=? d)
  && (d <=? (if (m =? 2) && leapyear then 29 else days_in_month 1 m)).

Fixpoint check_md (leapyear : bool) (fuel : nat) (n : Z) : bool :=
  match fuel with
  | O => true
  | S k => md_ok leapyear n && check_md leapyear k (n + 1)
  end.

Lemma check_md_spec leapyear fuel n :
  check_md leapyear fuel n = true → ∀ i, n <= i < n + Z.of_nat fuel → md_ok leapyear i = true.
Proof.
  revert n. induction fuel as [|k IH]; intros n; simpl; [lia|].
  intros [Hn Hk]%andb_prop i Hi. destruct (decide (i = n)) as [->|]; [done|].
  apply (IH (n + 1)); [done|lia].
Qed.

Lemma ord2md_ok leapyear n : 0 <= n < 365 → md_ok leapyear n = true.
Proof.
  intros Hn. apply (check_md_spec leapyear 365 0); [|lia].
  destruct leapyear; vm_compute; done.
Qed.

Lemma days_before_month_nonneg y m : 0 <= days_before_month y m.
Proof.
  unfold days_before_month, days_before_month_std.
  destruct ((2 <? m) && is_leap y); repeat case_match; lia.
Qed.

Lemma is_leap_split a b c :
  0 <= a <= 3 → 0 <= b <= 24 → 0 <= c <= 3 →
  is_leap (1 + a * 100 + b * 4 + c) = (c =? 3) && (negb (b =? 24) || (a =? 3)).
Proof.
  intros Ha Hb Hc. unfold is_leap. apply eq_true_iff_eq.
  rewrite !andb_true_iff, !orb_true_iff, !negb_true_iff, !Z.eqb_eq, !Z.eqb_neq.
  Z.to_euclidean_division_equations. lia.
Qed.

Lemma days_before_year_split a b c :
  0 <= a <= 3 → 0 <= b <= 24 → 0 <= c <= 3 →
  days_before_year (1 + a * 100 + b * 4 + c) = 36524 * a + 1461 * b + 365 * c.
Proof.
  intros Ha Hb Hc. unfold days_before_year. Z.to_euclidean_division_equations. lia.
Qed.

Lemma days_in_month_common y m :
  days_in_month y m = if (m =? 2) && is_leap y then 29 else days_in_month 1 m.
Proof. unfold days_in_month. simpl. by destruct ((m =? 2) && is_leap y), (m =? 2). Qed.

Lemma ord2ymd_cycle_ok n :
  0 <= n < 146097 →
  let '(y, m, d) := ord2ymd_cycle n in
  ymd2ord y m d = n + 1 ∧ valid_date y m d = true ∧ y <= 400.
Proof.
  intros Hn. unfold ord2ymd_cycle. cbv zeta.
  set (a := n / 36524). set (r := n mod 36524). set (b := r / 1461).
  set (r' := r mod 1461). set (c := r' / 365). set (e := r' mod 365).
  assert (n = 36524 * a + r ∧ 0 <= r < 36524) as [En Hr]
    by (subst a r; split; [apply Z.div_mod|apply Z.mod_pos_bound]; lia).
  assert (r = 1461 * b + r' ∧ 0 <= r' < 1461) as [Er Hr']
    by (subst b r'; split; [apply Z.div_mod|apply Z.mod_pos_bound]; lia).
  assert (r' = 365 * c + e ∧ 0 <= e < 365) as [Er' He]
    by (subst c e; split; [apply Z.div_mod|apply Z.mod_pos_bound]; lia).
  clearbody a r b r' c e.
  destruct ((c =? 4) || (a =? 4)) eqn:Hlast.
  - (* the last day of a leap year *)
    rewrite orb_true_iff, !Z.eqb_eq in Hlast.
    assert (∃ a' b', 0 <= a' <= 3 ∧ 0 <= b' <= 24 ∧ (b' ≠ 24 ∨ a' = 3) ∧
      1 + a * 100 + b * 4 + c - 1 = 1 + a' * 100 + b' * 4 + 3 ∧
      n = 36524 * a' + 1461 * b' + 1460) as (a' & b' & Ha & Hb & Hex & -> & ->).
    { destruct Hlast as [-> | ->]; [exists a, b|exists 3, 24]; split_and!; lia. }
    assert (is_leap (1 + a' * 100 + b' * 4 + 3) = true) as Hleap.
    { rewrite is_leap_split by lia. simpl. rewrite orb_true_iff, negb_true_iff, Z.eqb_neq, Z.eqb_eq. done. }
    split_and!; [| |lia].
    + unfold ymd2ord, days_before_month. rewrite Hleap, days_before_year_split by lia. simpl. lia.
    + unfold valid_date, days_in_month. simpl. rewrite !andb_true_iff, !Z.leb_le. lia.
  - apply orb_false_iff in Hlast as [Hc Ha]. rewrite Z.eqb_neq in Hc, Ha.
    assert (0 <= a <= 3 ∧ 0 <= b <= 24 ∧ 0 <= c <= 3) as (Ha' & Hb' & Hc') by lia.
    rewrite <-is_leap_split by lia.
    pose proof (ord2md_ok (is_leap (1 + a * 100 + b * 4 + c)) e He) as Hmd. unfold md_ok in Hmd.
    destruct (ord2md _ e) as [m d].
    rewrite <-days_in_month_common, !andb_true_iff, Z.eqb_eq, !Z.leb_le in Hmd.
    split_and!; [| |lia].
    + unfold ymd2ord, days_before_month. rewrite days_before_year_split by lia. lia.
    + unfold valid_date. rewrite !andb_true_iff, !Z.leb_le. lia.
Qed.

Lemma is_leap_cycle y k : is_leap (y + 400 * k) = is_leap y.
Proof.
  unfold is_leap.
  replace ((y + 400 * k) mod 4) with (y mod 4)
    by (rewrite Z.add_mod, Z.mul_mod by lia; simpl; rewrite Z.add_0_r, Z.mod_mod by lia; done).
  replace ((y + 400 * k) mod 100) with (y mod 100)
    by (rewrite Z.add_mod, Z.mul_mod by lia; simpl; rewrite Z.add_0_r, Z.mod_mod by lia; done).
  replace ((y + 400 * k) mod 400) with (y mod 400)
    by (rewrite Z.add_mod, Z.mul_mod by lia; simpl; rewrite Z.add_0_r, Z.mod_mod by lia; done).
  done.
Qed.

Lemma ymd2ord_cycle y m d k : ymd2ord (y + 400 * k) m d = ymd2ord y m d + 146097 * k.
Proof.
  unfold ymd2ord, days_before_month. rewrite is_leap_cycle. unfold days_before_year.
  replace (y + 400 * k - 1) with (y - 1 + 400 * k) by lia.
  replace ((y - 1 + 400 * k) / 4) with ((y - 1) / 4 + 100 * k)
    by (replace (400 * k) with (100 * k * 4) by lia; rewrite Z.div_add by lia; lia).
  replace ((y - 1 + 400 * k) / 100) with ((y - 1) / 100 + 4 * k)
    by (replace (400 * k) with (4 * k * 100) by lia; rewrite Z.div_add by lia; lia).
  replace ((y - 1 + 400 * k) / 400) with ((y - 1) / 400 + k)
    by (replace (400 * k) with (k * 400) by lia; rewrite Z.div_add by lia; lia).
  lia.
Qed.

Lemma ord2ymd_exact o :
  1 <= o <= 3652059 →
  let '(y, m, d) := ord2ymd o in ymd2ord y m d = o ∧ valid_date y m d = true.
Proof.
  intros Ho. unfold ord2ymd.
  pose proof (Z.mod_pos_bound (o - 1) 146097 ltac:(lia)) as Hm.
  pose proof (Z.div_mod (o - 1) 146097 ltac:(lia)) as Hd.
  pose proof (ord2ymd_cycle_ok _ Hm) as H.
  destruct (ord2ymd_cycle ((o - 1) mod 146097)) as [[y m] d].
  destruct H as (H1 & H2 & H3).
  assert (0 <= (o - 1) / 146097 < 25) by (split; [apply Z.div_pos|apply Z.div_lt_upper_bound]; lia).
  split; [rewrite ymd2ord_cycle; lia|].
  unfold valid_date in *. unfold days_in_month in *. rewrite is_leap_cycle.
  assert (y + 400 * ((o - 1) / 146097) <= 9999).
  { destruct (decide ((o - 1) / 146097 = 24)) as [E|]; [|lia].
    (* the last cycle stops one day short of year 10000 *)
    destruct (decide (y = 400)) as [->|]; [|lia].
    pose proof (days_before_month_nonneg 400 m).
    unfold valid_date in H2. rewrite !andb_true_iff, ?Z.leb_le in H2.
    unfold ymd2ord in H1. change (days_before_year 400) with 145731 in H1. lia. }
  rewrite !andb_true_iff, ?Z.leb_le in *. lia.
Qed.

(** ** Reading back what is written *)

Lemma digit_value_digit d : 0 <= d < 10 → digit_value (digit d) = Some d.
Proof.
  intros Hd. assert (d = 0 ∨ d = 1 ∨ d = 2 ∨ d = 3 ∨ d = 4 ∨ d = 5 ∨ d = 6 ∨ d = 7 ∨ d = 8 ∨ d = 9)
    as H by lia. by destruct_or!; subst.
Qed.

Lemma digit_plain d : 0 <= d < 10 →
  is_space (digit d) = false ∧ Ascii.eqb (digit d) "+" = false ∧ Ascii.eqb (digit d) "-" = false.
Proof.
  intros Hd. assert (d = 0 ∨ d = 1 ∨ d = 2 ∨ d = 3 ∨ d = 4 ∨ d = 5 ∨ d = 6 ∨ d = 7 ∨ d = 8 ∨ d = 9)
    as H by lia. by destruct_or!; subst.
Qed.

Lemma tens_units z : 0 <= z < 100 → 0 <= z / 10 < 10 ∧ 0 <= z mod 10 < 10.
Proof. intros Hz. Z.to_euclidean_division_equations. lia. Qed.

Lemma take2_pad2 z k : 0 <= z < 100 → take2 (pad2 z k) = Some (z, k).
Proof.
  intros Hz. destruct (tens_units z Hz) as [H1 H2].
  unfold take2, pad2, take_digit. rewrite !digit_value_digit by done.
  do 2 f_equal. pose proof (Z.div_mod z 10). lia.
Qed.

Lemma split_offset_pad2 z k :
  0 <= z < 100 →
  split_offset (pad2 z k) = (pad2 z (split_offset k).1, (split_offset k).2).
Proof.
  intros Hz. destruct (tens_units z Hz) as [H1 H2].
  destruct (digit_plain _ H1) as (_ & E1 & E2). destruct (digit_plain _ H2) as (_ & E3 & E4).
  unfold pad2. cbn [split_offset]. rewrite E1, E2, E3, E4. by destruct (split_offset k).
Qed.

Lemma no_space_pad2 z k : 0 <= z < 100 → no_space (pad2 z k) = no_space k.
Proof.
  intros Hz. destruct (tens_units z Hz) as [H1 H2].
  destruct (digit_plain _ H1) as (E1 & _). destruct (digit_plain _ H2) as (E2 & _).
  unfold no_space, pad2. cbn [str_forall]. by rewrite E1, E2.
Qed.

Lemma parse_fraction_pad2 f :
  0 <= f < US_PER_S →
  parse_fraction (pad2 (f / 10000) (pad2 (f / 100 mod 100) (pad2 (f mod 100) EmptyString))) = Some f.
Proof.
  unfold US_PER_S. intros Hf.
  assert (0 <= f / 10000 < 100 ∧ 0 <= f / 100 mod 100 < 100 ∧ 0 <= f mod 100 < 100) as (Ha & Hb & Hc)
    by (Z.to_euclidean_division_equations; lia).
  destruct (tens_units _ Hb) as [Hb1 Hb2]. destruct (tens_units _ Hc) as [Hc1 Hc2].
  unfold parse_fraction. rewrite take2_pad2 by done. cbn [mbind option_bind].
  unfold pad2 at 1. cbn [take_digit]. rewrite digit_value_digit by done. cbn [mbind option_bind].
  unfold take2. cbn [take_digit]. rewrite digit_value_digit by done.
  unfold pad2. cbn [take_digit]. rewrite digit_value_digit by done. cbn [mbind option_bind].
  cbn [take_digit]. rewrite digit_value_digit by done. cbn [mbind option_bind].
  f_equal. Z.to_euclidean_division_equations. lia.
Qed.

Lemma parse_hms_pad2 h m sec f :
  0 <= h < 100 → 0 <= m < 100 → 0 <= sec < 100 → 0 <= f < US_PER_S →
  parse_hms (pad2 h (String ":" (pad2 m (String ":" (pad2 sec
    (if f =? 0 then EmptyString
     else String "." (pad2 (f / 10000) (pad2 (f / 100 mod 100) (pad2 (f mod 100) EmptyString))))))))) =
  Some (h, m, sec, f).
Proof.
  intros Hh Hm Hs Hf. unfold parse_hms.
  rewrite take2_pad2 by done. cbn [mbind option_bind expect Ascii.eqb Bool.eqb].
  rewrite take2_pad2 by done. cbn [mbind option_bind expect Ascii.eqb Bool.eqb].
  rewrite take2_pad2 by done. cbn [mbind option_bind].
  destruct (f =? 0) eqn:E; [by apply Z.eqb_eq in E as ->|].
  cbn [mbind option_bind expect Ascii.eqb Bool.eqb].
  by rewrite parse_fraction_pad2.
Qed.

(** The ranges of the fields [isoformat] prints. *)
Lemma iso_fields us :
  in_datetime_range us = true →
  ∃ y m d, ord2ymd (us / US_PER_DAY) = (y, m, d) ∧ valid_date y m d = true ∧
    ymd2ord y m d = us / US_PER_DAY ∧
    0 <= y / 100 < 100 ∧ 0 <= y mod 100 < 100 ∧ 0 <= m < 100 ∧ 0 <= d < 100 ∧
    100 * (y / 100) + y mod 100 = y.
Proof.
  unfold in_datetime_range, dt_min, dt_max. rewrite andb_true_iff, !Z.leb_le. intros Hus.
  assert (1 <= us / US_PER_DAY <= 3652059) as Ho.
  { unfold US_PER_DAY, US_PER_S in *. Z.to_euclidean_division_equations. lia. }
  pose proof (ord2ymd_exact _ Ho) as H.
  destruct (ord2ymd (us / US_PER_DAY)) as [[y m] d] eqn:E. destruct H as [H1 H2].
  exists y, m, d. split_and!; try done.
  all: unfold valid_date in H2; rewrite !andb_true_iff, !Z.leb_le in H2.
  all: assert (days_in_month y m <= 31) by (unfold days_in_month; repeat case_match; lia).
  all: clear -H2 H; Z.to_euclidean_division_equations; lia.
Qed.

Lemma iso_time us :
  let r := us mod US_PER_DAY in
  let s := r / US_PER_S in
  let f := r mod US_PER_S in
  0 <= s / 3600 < 24 ∧ 0 <= s / 60 mod 60 < 60 ∧ 0 <= s mod 60 < 60 ∧ 0 <= f < US_PER_S ∧
  hms_us (s / 3600, s / 60 mod 60, s mod 60, f) = r.
Proof.
  cbv zeta. unfold hms_us, US_PER_DAY, US_PER_S.
  pose proof (Z.mod_pos_bound us (86400 * 1000000) ltac:(lia)) as Hr.
  set (r := us mod (86400 * 1000000)) in *. clearbody r.
  Z.to_euclidean_division_equations. lia.
Qed.

Lemma fromisoformat_isoformat us :
  in_datetime_range us = true →
  fromisoformat (isoformat_utc us "+00:00") = Some (Datetime us (Some 0)).
Proof.
  intros Hus. destruct (iso_fields us Hus) as (y & m & d & E & Hv & Hord & Hy1 & Hy2 & Hm & Hd & Hy).
  destruct (iso_time us) as (Hh & Hmi & Hs & Hf & Hhms).
  unfold isoformat_utc. rewrite E. cbv zeta.
  set (r := us mod US_PER_DAY) in *. set (s := r / US_PER_S) in *. set (f := r mod US_PER_S) in *.
  unfold fromisoformat, parse_date.
  rewrite take2_pad2 by done. cbn [mbind option_bind].
  rewrite take2_pad2 by done. cbn [mbind option_bind expect Ascii.eqb Bool.eqb].
  rewrite take2_pad2 by done. cbn [mbind option_bind expect Ascii.eqb Bool.eqb].
  rewrite take2_pad2 by done. cbn [mbind option_bind].
  rewrite Hy, Hv. cbn [negb].
  assert (split_offset (pad2 (s / 3600) (String ":" (pad2 (s / 60 mod 60) (String ":" (pad2 (s mod 60)
    (if f =? 0 then "+00:00" else String "." (pad2 (f / 10000) (pad2 (f / 100 mod 100)
       (pad2 (f mod 100) "+00:00"))))))))) =
    (pad2 (s / 3600) (String ":" (pad2 (s / 60 mod 60) (String ":" (pad2 (s mod 60)
    (if f =? 0 then EmptyString else String "." (pad2 (f / 10000) (pad2 (f / 100 mod 100)
       (pad2 (f mod 100) EmptyString)))))))), Some (false, "00:00"))) as ->.
  { rewrite split_offset_pad2 by lia. cbn [split_offset Ascii.eqb Bool.eqb fst snd].
    rewrite split_offset_pad2 by lia. cbn [split_offset Ascii.eqb Bool.eqb fst snd].
    rewrite split_offset_pad2 by lia. cbn [split_offset Ascii.eqb Bool.eqb fst snd].
    destruct (f =? 0); [done|]. cbn [split_offset Ascii.eqb Bool.eqb fst snd].
    unfold US_PER_S in Hf.
    rewrite !split_offset_pad2 by (clear -Hf; Z.to_euclidean_division_equations; lia). done. }
  rewrite parse_hms_pad2 by lia. cbn [mbind option_bind].
  assert (parse_offset (Some (false, "00:00")) = Some (Some 0)) as -> by done.
  cbn [mbind option_bind]. rewrite Hhms, Hord.
  assert (valid_time (s / 3600, s / 60 mod 60, s mod 60, f) = true) as ->.
  { unfold valid_time. rewrite !andb_true_iff, !Z.leb_le. lia. }
  do 2 f_equal. subst r. pose proof (Z.div_mod us US_PER_DAY). unfold US_PER_DAY, US_PER_S in *. lia.
Qed.

Lemma isoformat_no_space us suffix :
  in_datetime_range us = true → no_space (isoformat_utc us suffix) = no_space suffix.
Proof.
  intros Hus. destruct (iso_fields us Hus) as (y & m & d & E & Hv & Hord & Hy1 & Hy2 & Hm & Hd & Hy).
  destruct (iso_time us) as (Hh & Hmi & Hs & Hf & Hhms).
  unfold isoformat_utc. rewrite E. cbv zeta.
  set (r := us mod US_PER_DAY) in *. set (s := r / US_PER_S) in *. set (f := r mod US_PER_S) in *.
  assert (∀ c k, is_space c = false → no_space (String c k) = no_space k) as Hc.
  { unfold no_space. intros c k H. cbn [str_forall]. by rewrite H. }
  repeat first [rewrite no_space_pad2 by lia | rewrite Hc by done].
  destruct (f =? 0); [done|]. unfold US_PER_S in Hf. rewrite Hc by done.
  by rewrite !no_space_pad2 by (clear -Hf; Z.to_euclidean_division_equations; lia).
Qed.

Lemma isoformat_suffix us :
  last_char (isoformat_z us) = Some "Z"%char ∧
  String.append (drop_last (isoformat_z us)) "+00:00" = isoformat_utc us "+00:00".
Proof.
  unfold isoformat_z, isoformat_utc.
  destruct (ord2ymd (us / US_PER_DAY)) as [[y m] d]. cbv zeta.
  destruct (us mod US_PER_DAY mod US_PER_S =? 0); split; reflexivity.
Qed.

(** Every timestamp the kernel prints reads back as the instant it came from. *)
Lemma parse_isoformat_z us :
  in_datetime_range us = true →
  parse_timestamp (Some (isoformat_z us)) = Some (Datetime us (Some 0)).
Proof.
  intros Hus. unfold parse_timestamp, stripped, str_or.
  assert (truthy (isoformat_z us) = true) as Ht.
  { unfold isoformat_z, isoformat_utc. by destruct (ord2ymd (us / US_PER_DAY)) as [[? ?] ?]. }
  rewrite Ht, strip_no_space by by apply isoformat_no_space. rewrite Ht. cbn [negb].
  destruct (isoformat_suffix us) as [-> ->]. cbn [Ascii.eqb Bool.eqb].
  by rewrite fromisoformat_isoformat.
Qed.

Lemma format_then_parse t s :
  format_timestamp t = Ok s → parse_timestamp (Some s) = Some (Datetime (instant t) (Some 0)).
Proof.
  unfold format_timestamp. destruct (in_datetime_range (instant t)) eqn:E; [|done].
  intros [= <-]. by apply parse_isoformat_z.
Qed.
