(* ===== verification/Storage.v ===== *)
(** The record stores.  A JSONL file ([lib/storage/jsonl_store.py]) is the list of the
    JSON values on its non-blank lines; a record class is a [Codec] between a typed
    record and the dictionary written for it.  The components above work on typed
    logs; the lemmas here say that reading a file of written records gives the typed
    log back, so the typed view loses nothing. *)

From Stdlib Require Import Ascii String ZArith Lia.
From stdpp Require Import base list sets strings.
From S2P Require Import Prelude PyData.

Local Open Scope Z_scope.

(** ** Record classes *)

(** [to_record], [from_record] ([cls( **fields )], so [__post_init__] included) and the
    records the constructor accepts as they are. *)
Class Codec (A : Type) := {
  to_record : A → pydict;
  from_record : pydict → result A;
  valid_record : A → Prop;
  from_to_record : ∀ a, valid_record a → from_record (to_record a) = Ok a;
}.

(** [_validate_record] of the codec modules. *)
Definition validate_record (schema : Z) (expected_type : string) (r : pydict) : result unit :=
  do! raise_if (match dget r "schema_version" with
                | VInt z => negb (z =? schema)
                | VBool b => negb ((if b then 1 else 0) =? schema)
                | _ => true
                end) ValueError "schema_version must be the current version" in
  raise_if (match dget r "record_type" with
            | VStr s => negb (String.eqb s expected_type)
            | _ => true
            end) ValueError
    (String.append "record_type must be " (repr_str expected_type)).

(** Evaluate a decoder on a dictionary with known keys. *)
Ltac codec_simpl :=
  repeat (progress (
    cbn [dget dget_or dindex dict_get validate_record raise_if negb py_int py_str fst snd
         String.eqb Ascii.eqb Bool.eqb Z.eqb Pos.eqb result_bind] in *;
    autorewrite with ccb in * )).

(** ** [JsonlStore] on the rows of a file *)

Abbreviation jsonl := (list pyval).

Definition expected_rows {A} : result A := raise ValueError "expected JSON object rows".

(** [append] with a serializer. *)
Definition jsonl_append (f : jsonl) (payload : pydict) : jsonl := f ++ [VDict payload].

Fixpoint jsonl_read_all {A} (loader : pydict → result A) (f : jsonl) : result (list A) :=
  match f with
  | [] => Ok []
  | VDict payload :: f' =>
      let! a := loader payload in
      let! rest := jsonl_read_all loader f' in
      Ok (a :: rest)
  | _ :: _ => expected_rows
  end.

(** [read_since]: rows after line [start_line], and the number of the last line.  Of a
    file that does not exist ([None]) the start line itself comes back. *)
Definition jsonl_read_since {A} (loader : pydict → result A) (file : option jsonl)
    (start_line : Z) : result (Z * list A) :=
  do! raise_if (start_line <? 0) ValueError "start_line cannot be negative" in
  match file with
  | None => Ok (start_line, [])
  | Some f =>
      let! rows := jsonl_read_all loader (drop (Z.to_nat start_line) f) in
      Ok (Z.of_nat (length f), rows)
  end.

(** [find_last]: the last row the predicate accepts, reading backwards; a row that is
    not an object stops the search with an error. *)
Fixpoint jsonl_find_last_rev {A} (loader : pydict → result A) (predicate : pydict → result bool)
    (rev_rows : jsonl) : result (option A) :=
  match rev_rows with
  | [] => Ok None
  | VDict payload :: rest =>
      let! b := predicate payload in
      if b then (let! a := loader payload in Ok (Some a))
      else jsonl_find_last_rev loader predicate rest
  | _ :: _ => expected_rows
  end.

Definition jsonl_find_last {A} (loader : pydict → result A) (predicate : pydict → result bool)
    (f : jsonl) : result (option A) :=
  jsonl_find_last_rev loader predicate (rev f).

(** [read_tail]: backwards until [limit] rows are loaded, then reversed. *)
Fixpoint jsonl_read_back {A} (loader : pydict → result A) (limit : nat) (rev_f : jsonl)
    : result (list A) :=
  match limit, rev_f with
  | S limit, v :: rest =>
      match v with
      | VDict d =>
          let! a := loader d in
          let! l := jsonl_read_back loader limit rest in
          Ok (a :: l)
      | _ => expected_rows
      end
  | _, _ => Ok []
  end.

Definition jsonl_read_tail {A} (loader : pydict → result A) (file : option jsonl) (limit : Z)
    : result (list A) :=
  do! raise_if (limit <? 0) ValueError "limit cannot be negative" in
  if limit =? 0 then Ok []
  else
    match file with
    | None => Ok []
    | Some f => let! l := jsonl_read_back loader (Z.to_nat limit) (rev f) in Ok (rev l)
    end.

(** ** Typed logs *)

(** The last [n] rows. *)
Definition tail_of {A} (n : nat) (l : list A) : list A := drop (length l - n) l.

Definition find_last {A} (p : A → bool) (l : list A) : option A := List.find p (rev l).

Section log_lemmas.
Context {A : Type}.
Implicit Types (p : A → bool) (l : list A) (x y : A).

Lemma find_last_nil p : find_last p [] = None.
Proof. done. Qed.

Lemma find_last_snoc p l x :
  find_last p (l ++ [x]) = if p x then Some x else find_last p l.
Proof. unfold find_last. rewrite rev_app_distr. simpl. by destruct (p x). Qed.

Lemma find_last_Some p l x : find_last p l = Some x → x ∈ l ∧ p x = true.
Proof.
  unfold find_last. intros H. apply List.find_some in H as [H1 H2].
  split; [|done]. apply list_elem_of_In. by rewrite in_rev.
Qed.

Lemma find_last_None p l : find_last p l = None → ∀ x, x ∈ l → p x = false.
Proof.
  unfold find_last. intros H x Hx. eapply List.find_none; [done|].
  rewrite <-in_rev. by apply list_elem_of_In.
Qed.

Lemma find_last_ext p q l : (∀ x, x ∈ l → p x = q x) → find_last p l = find_last q l.
Proof.
  induction l as [|x l IH] using rev_ind; intros H; [done|].
  rewrite !find_last_snoc, H, IH; [done|set_solver..].
Qed.
End log_lemmas.

(** ** The typed view is faithful *)

Section typed_view.
Context {A : Type} `{Codec A}.
Implicit Types l : list A.

Definition rows (l : list A) : jsonl := map (λ a, VDict (to_record a)) l.

Lemma jsonl_append_rows l a : jsonl_append (rows l) (to_record a) = rows (l ++ [a]).
Proof. unfold jsonl_append, rows. by rewrite map_app. Qed.

Lemma jsonl_read_all_rows l :
  Forall valid_record l → jsonl_read_all from_record (rows l) = Ok l.
Proof.
  induction 1 as [|a l Ha Hl IH]; simpl; [done|].
  by rewrite from_to_record, IH by done.
Qed.

Lemma jsonl_read_since_rows l n :
  Forall valid_record l → 0 <= n →
  jsonl_read_since from_record (Some (rows l)) n = Ok (Z.of_nat (length l), drop (Z.to_nat n) l).
Proof.
  intros Hl Hn. unfold jsonl_read_since, raise_if.
  assert ((n <? 0) = false) as -> by (apply Z.ltb_ge; lia). simpl.
  unfold rows. rewrite skipn_map. fold (rows (drop (Z.to_nat n) l)).
  rewrite jsonl_read_all_rows by by apply Forall_drop. simpl. by rewrite length_map.
Qed.

Lemma jsonl_read_back_rows n l :
  Forall valid_record l → jsonl_read_back from_record n (rows l) = Ok (take n l).
Proof.
  intros Hl. revert n. induction Hl as [|a l Ha _ IH]; intros [|n]; [done..|]. simpl.
  by rewrite from_to_record, IH by done.
Qed.

Lemma jsonl_read_tail_rows n l :
  Forall valid_record l → 0 <= n →
  jsonl_read_tail from_record (Some (rows l)) n = Ok (tail_of (Z.to_nat n) l).
Proof.
  intros Hl Hn. unfold jsonl_read_tail, raise_if, tail_of.
  assert ((n <? 0) = false) as -> by (apply Z.ltb_ge; lia). simpl.
  destruct (Z.eqb_spec n 0) as [->|Hz].
  { simpl. by rewrite Nat.sub_0_r, drop_all. }
  unfold rows. rewrite <-map_rev. fold (rows (rev l)). rewrite jsonl_read_back_rows.
  - simpl. f_equal. rewrite firstn_rev, rev_involutive. done.
  - rewrite Forall_forall in *. intros x Hx. apply Hl. by apply list_elem_of_In, in_rev, list_elem_of_In.
Qed.

Lemma jsonl_find_last_rows l (q : pydict → result bool) (p : A → bool) :
  Forall valid_record l →
  (∀ a, a ∈ l → q (to_record a) = Ok (p a)) →
  jsonl_find_last from_record q (rows l) = Ok (find_last p l).
Proof.
  intros Hl Hq. unfold jsonl_find_last, rows. rewrite <-map_rev.
  induction l as [|a l IH] using rev_ind; [done|].
  apply Forall_app in Hl as [Hl Ha]. rewrite Forall_singleton in Ha.
  rewrite rev_app_distr, find_last_snoc. simpl.
  rewrite Hq by set_solver. simpl. destruct (p a).
  - by rewrite from_to_record.
  - apply IH; [done|]. intros b Hb. apply Hq. set_solver.
Qed.
End typed_view.
