(* ===== verification/MailboxModels.v ===== *)
(** The mailbox data model: [lib/mailbox_kernel/model_enums.py], [models.py] and
    [model_codecs.py].  Enumerations, the three record classes with the checks of
    their [__post_init__], and the dictionaries they are stored as. *)

From Stdlib Require Import Ascii String ZArith Lia.
From stdpp Require Import base list sets strings.
From S2P Require Import Prelude PyData Names Storage.

Local Open Scope Z_scope.

(** ** [model_enums.py] *)

Definition SCHEMA_VERSION : Z := 1.

Inductive MailboxState := MB_IDLE | MB_DELIVERING | MB_BLOCKED | MB_RECOVERING | MB_DEGRADED.

Inductive InboundEventType :=
  | TASK_REQUEST | TASK_REPLY | COMPLETION_NOTICE | RETRY_SIGNAL | SYSTEM_SIGNAL
  | BARRIER_RELEASE.

Inductive InboundEventStatus :=
  | IE_CREATED | IE_QUEUED | IE_DELIVERING | IE_CONSUMED | IE_SUPERSEDED | IE_ABANDONED.

Inductive LeaseState := ACQUIRED | RELEASED | EXPIRED | ORPHANED.

#[export] Instance MailboxState_eq_dec : EqDecision MailboxState.
Proof. solve_decision. Defined.
#[export] Instance InboundEventType_eq_dec : EqDecision InboundEventType.
Proof. solve_decision. Defined.
#[export] Instance InboundEventStatus_eq_dec : EqDecision InboundEventStatus.
Proof. solve_decision. Defined.
#[export] Instance LeaseState_eq_dec : EqDecision LeaseState.
Proof. solve_decision. Defined.

Definition MailboxState_value (x : MailboxState) : string :=
  match x with
  | MB_IDLE => "idle" | MB_DELIVERING => "delivering" | MB_BLOCKED => "blocked"
  | MB_RECOVERING => "recovering" | MB_DEGRADED => "degraded"
  end.

Definition InboundEventType_value (x : InboundEventType) : string :=
  match x with
  | TASK_REQUEST => "task_request" | TASK_REPLY => "task_reply"
  | COMPLETION_NOTICE => "completion_notice" | RETRY_SIGNAL => "retry_signal"
  | SYSTEM_SIGNAL => "system_signal" | BARRIER_RELEASE => "barrier_release"
  end.

Definition InboundEventStatus_value (x : InboundEventStatus) : string :=
  match x with
  | IE_CREATED => "created" | IE_QUEUED => "queued" | IE_DELIVERING => "delivering"
  | IE_CONSUMED => "consumed" | IE_SUPERSEDED => "superseded" | IE_ABANDONED => "abandoned"
  end.

Definition LeaseState_value (x : LeaseState) : string :=
  match x with
  | ACQUIRED => "acquired" | RELEASED => "released" | EXPIRED => "expired"
  | ORPHANED => "orphaned"
  end.

(** [Enum(value)]: the member with that value, or [ValueError]. *)
Definition enum_of {A} (members : list A) (value : A → string) (cls : string) (s : string)
    : result A :=
  match List.find (λ x, String.eqb (value x) s) members with
  | Some x => Ok x
  | None => raise ValueError (String.append (repr_str s) (String.append " is not a valid " cls))
  end.

Definition MailboxState_of : string → result MailboxState :=
  enum_of [MB_IDLE; MB_DELIVERING; MB_BLOCKED; MB_RECOVERING; MB_DEGRADED]
    MailboxState_value "MailboxState".

Definition InboundEventType_of : string → result InboundEventType :=
  enum_of [TASK_REQUEST; TASK_REPLY; COMPLETION_NOTICE; RETRY_SIGNAL; SYSTEM_SIGNAL;
           BARRIER_RELEASE] InboundEventType_value "InboundEventType".

Definition InboundEventStatus_of : string → result InboundEventStatus :=
  enum_of [IE_CREATED; IE_QUEUED; IE_DELIVERING; IE_CONSUMED; IE_SUPERSEDED; IE_ABANDONED]
    InboundEventStatus_value "InboundEventStatus".

Definition LeaseState_of : string → result LeaseState :=
  enum_of [ACQUIRED; RELEASED; EXPIRED; ORPHANED] LeaseState_value "LeaseState".

(** ** [models.py] *)

Record MailboxRecord := MkMailboxRecord {
  mb_mailbox_id : string;
  mb_agent_name : string;
  mb_summary_version : Z;
  mb_summary_source : string;
  mb_summary_refreshed_at : string;
  mb_active_inbound_event_id : option string;
  mb_queue_depth : Z;
  mb_pending_reply_count : Z;
  mb_head_inbound_event_id : option string;
  mb_head_event_type : option string;
  mb_head_status : option string;
  mb_head_message_id : option string;
  mb_head_attempt_id : option string;
  mb_head_payload_ref : option string;
  mb_last_inbound_started_at : option string;
  mb_last_inbound_finished_at : option string;
  mb_mailbox_state : MailboxState;
  mb_lease_version : Z;
  mb_updated_at : string;
}.

Record InboundEventRecord := MkInboundEventRecord {
  ie_inbound_event_id : string;
  ie_agent_name : string;
  ie_event_type : InboundEventType;
  ie_message_id : string;
  ie_attempt_id : option string;
  ie_payload_ref : option string;
  ie_priority : Z;
  ie_status : InboundEventStatus;
  ie_created_at : string;
  ie_started_at : option string;
  ie_finished_at : option string;
}.

Record DeliveryLease := MkDeliveryLease {
  dl_agent_name : string;
  dl_inbound_event_id : string;
  dl_lease_version : Z;
  dl_acquired_at : string;
  dl_last_progress_at : option string;
  dl_expires_at : option string;
  dl_lease_state : LeaseState;
}.

#[export] Instance MailboxRecord_eq_dec : EqDecision MailboxRecord.
Proof. solve_decision. Defined.
#[export] Instance InboundEventRecord_eq_dec : EqDecision InboundEventRecord.
Proof. solve_decision. Defined.
#[export] Instance DeliveryLease_eq_dec : EqDecision DeliveryLease.
Proof. solve_decision. Defined.

(** ** [model_codecs.py]: the checks of [__post_init__]

    Each returns the record with its agent name normalised. *)

Definition normalize_mailbox_record (r : MailboxRecord) : result MailboxRecord :=
  do! raise_if (negb (truthy (mb_mailbox_id r))) ValueError "mailbox_id cannot be empty" in
  do! raise_if (negb (truthy (mb_agent_name r))) ValueError "agent_name cannot be empty" in
  do! raise_if (mb_summary_version r <? 0) ValueError "summary_version cannot be negative" in
  do! raise_if (blank (mb_summary_source r)) ValueError "summary_source cannot be empty" in
  do! raise_if (blank (mb_summary_refreshed_at r)) ValueError
        "summary_refreshed_at cannot be empty" in
  do! raise_if (mb_queue_depth r <? 0) ValueError "queue_depth cannot be negative" in
  do! raise_if (mb_pending_reply_count r <? 0) ValueError
        "pending_reply_count cannot be negative" in
  do! raise_if (mb_lease_version r <? 0) ValueError "lease_version cannot be negative" in
  let! name := normalize_mailbox_owner_name (Some (mb_agent_name r)) in
  Ok (MkMailboxRecord (mb_mailbox_id r) name (mb_summary_version r) (mb_summary_source r)
        (mb_summary_refreshed_at r) (mb_active_inbound_event_id r) (mb_queue_depth r)
        (mb_pending_reply_count r) (mb_head_inbound_event_id r) (mb_head_event_type r)
        (mb_head_status r) (mb_head_message_id r) (mb_head_attempt_id r)
        (mb_head_payload_ref r) (mb_last_inbound_started_at r) (mb_last_inbound_finished_at r)
        (mb_mailbox_state r) (mb_lease_version r) (mb_updated_at r)).

Definition normalize_inbound_event_record (r : InboundEventRecord) : result InboundEventRecord :=
  do! raise_if (negb (truthy (ie_inbound_event_id r))) ValueError
        "inbound_event_id cannot be empty" in
  do! raise_if (negb (truthy (ie_agent_name r))) ValueError "agent_name cannot be empty" in
  do! raise_if (negb (truthy (ie_message_id r))) ValueError "message_id cannot be empty" in
  do! raise_if (ie_priority r <? 0) ValueError "priority cannot be negative" in
  let! name := normalize_mailbox_owner_name (Some (ie_agent_name r)) in
  Ok (MkInboundEventRecord (ie_inbound_event_id r) name (ie_event_type r) (ie_message_id r)
        (ie_attempt_id r) (ie_payload_ref r) (ie_priority r) (ie_status r) (ie_created_at r)
        (ie_started_at r) (ie_finished_at r)).

Definition normalize_delivery_lease (r : DeliveryLease) : result DeliveryLease :=
  do! raise_if (negb (truthy (dl_agent_name r))) ValueError "agent_name cannot be empty" in
  do! raise_if (negb (truthy (dl_inbound_event_id r))) ValueError
        "inbound_event_id cannot be empty" in
  do! raise_if (dl_lease_version r <? 0) ValueError "lease_version cannot be negative" in
  let! name := normalize_mailbox_owner_name (Some (dl_agent_name r)) in
  Ok (MkDeliveryLease name (dl_inbound_event_id r) (dl_lease_version r) (dl_acquired_at r)
        (dl_last_progress_at r) (dl_expires_at r) (dl_lease_state r)).

(** ** [model_codecs.py]: dictionaries *)

Definition mailbox_to_record (r : MailboxRecord) : pydict :=
  [("schema_version", VInt SCHEMA_VERSION); ("record_type", VStr "mailbox_record");
   ("mailbox_id", VStr (mb_mailbox_id r)); ("agent_name", VStr (mb_agent_name r));
   ("summary_version", VInt (mb_summary_version r));
   ("summary_source", VStr (mb_summary_source r));
   ("summary_refreshed_at", VStr (mb_summary_refreshed_at r));
   ("active_inbound_event_id", of_opt_str (mb_active_inbound_event_id r));
   ("queue_depth", VInt (mb_queue_depth r));
   ("pending_reply_count", VInt (mb_pending_reply_count r));
   ("head_inbound_event_id", of_opt_str (mb_head_inbound_event_id r));
   ("head_event_type", of_opt_str (mb_head_event_type r));
   ("head_status", of_opt_str (mb_head_status r));
   ("head_message_id", of_opt_str (mb_head_message_id r));
   ("head_attempt_id", of_opt_str (mb_head_attempt_id r));
   ("head_payload_ref", of_opt_str (mb_head_payload_ref r));
   ("last_inbound_started_at", of_opt_str (mb_last_inbound_started_at r));
   ("last_inbound_finished_at", of_opt_str (mb_last_inbound_finished_at r));
   ("mailbox_state", VStr (MailboxState_value (mb_mailbox_state r)));
   ("lease_version", VInt (mb_lease_version r)); ("updated_at", VStr (mb_updated_at r))].

Definition mailbox_from_record (r : pydict) : result MailboxRecord :=
  do! validate_record SCHEMA_VERSION "mailbox_record" r in
  let! mailbox_id := dindex r "mailbox_id" in
  let! agent_name := dindex r "agent_name" in
  let! summary_version := py_int (dget_or r "summary_version" (VInt 0)) in
  let! active := as_opt_str (dget r "active_inbound_event_id") in
  let! queue_depth := py_int (dget_or r "queue_depth" (VInt 0)) in
  let! pending_reply_count := py_int (dget_or r "pending_reply_count" (VInt 0)) in
  let! head_id := as_opt_str (dget r "head_inbound_event_id") in
  let! head_type := as_opt_str (dget r "head_event_type") in
  let! head_status := as_opt_str (dget r "head_status") in
  let! head_message := as_opt_str (dget r "head_message_id") in
  let! head_attempt := as_opt_str (dget r "head_attempt_id") in
  let! head_payload := as_opt_str (dget r "head_payload_ref") in
  let! last_started := as_opt_str (dget r "last_inbound_started_at") in
  let! last_finished := as_opt_str (dget r "last_inbound_finished_at") in
  let! state := MailboxState_of (py_str (dget_or r "mailbox_state" (VStr "idle"))) in
  let! lease_version := py_int (dget_or r "lease_version" (VInt 0)) in
  Ok (MkMailboxRecord (py_str mailbox_id) (py_str agent_name) summary_version
        (py_str (py_or (dget r "summary_source") (VStr "legacy-load")))
        (py_str_or_empty (py_or (dget r "summary_refreshed_at") (dget r "updated_at")))
        active queue_depth pending_reply_count head_id head_type head_status head_message
        head_attempt head_payload last_started last_finished state lease_version
        (py_str_or_empty (dget r "updated_at"))).

Definition inbound_event_to_record (r : InboundEventRecord) : pydict :=
  [("schema_version", VInt SCHEMA_VERSION); ("record_type", VStr "inbound_event_record");
   ("inbound_event_id", VStr (ie_inbound_event_id r)); ("agent_name", VStr (ie_agent_name r));
   ("event_type", VStr (InboundEventType_value (ie_event_type r)));
   ("message_id", VStr (ie_message_id r)); ("attempt_id", of_opt_str (ie_attempt_id r));
   ("payload_ref", of_opt_str (ie_payload_ref r)); ("priority", VInt (ie_priority r));
   ("status", VStr (InboundEventStatus_value (ie_status r)));
   ("created_at", VStr (ie_created_at r)); ("started_at", of_opt_str (ie_started_at r));
   ("finished_at", of_opt_str (ie_finished_at r))].

Definition inbound_event_from_record (r : pydict) : result InboundEventRecord :=
  do! validate_record SCHEMA_VERSION "inbound_event_record" r in
  let! inbound_event_id := dindex r "inbound_event_id" in
  let! agent_name := dindex r "agent_name" in
  let! event_type_v := dindex r "event_type" in
  let! event_type := InboundEventType_of (py_str event_type_v) in
  let! message_id := dindex r "message_id" in
  let! attempt_id := as_opt_str (dget r "attempt_id") in
  let! payload_ref := as_opt_str (dget r "payload_ref") in
  let! priority := py_int (dget_or r "priority" (VInt 0)) in
  let! status := InboundEventStatus_of (py_str (dget_or r "status" (VStr "queued"))) in
  let! started_at := as_opt_str (dget r "started_at") in
  let! finished_at := as_opt_str (dget r "finished_at") in
  Ok (MkInboundEventRecord (py_str inbound_event_id) (py_str agent_name) event_type
        (py_str message_id) attempt_id payload_ref priority status
        (py_str_or_empty (dget r "created_at")) started_at finished_at).

Definition delivery_lease_to_record (r : DeliveryLease) : pydict :=
  [("schema_version", VInt SCHEMA_VERSION); ("record_type", VStr "delivery_lease");
   ("agent_name", VStr (dl_agent_name r)); ("inbound_event_id", VStr (dl_inbound_event_id r));
   ("lease_version", VInt (dl_lease_version r)); ("acquired_at", VStr (dl_acquired_at r));
   ("last_progress_at", of_opt_str (dl_last_progress_at r));
   ("expires_at", of_opt_str (dl_expires_at r));
   ("lease_state", VStr (LeaseState_value (dl_lease_state r)))].

Definition delivery_lease_from_record (r : pydict) : result DeliveryLease :=
  do! validate_record SCHEMA_VERSION "delivery_lease" r in
  let! agent_name := dindex r "agent_name" in
  let! inbound_event_id := dindex r "inbound_event_id" in
  let! lease_version := py_int (dget_or r "lease_version" (VInt 0)) in
  let! last_progress_at := as_opt_str (dget r "last_progress_at") in
  let! expires_at := as_opt_str (dget r "expires_at") in
  let! lease_state := LeaseState_of (py_str (dget_or r "lease_state" (VStr "acquired"))) in
  Ok (MkDeliveryLease (py_str agent_name) (py_str inbound_event_id) lease_version
        (py_str_or_empty (dget r "acquired_at")) last_progress_at expires_at lease_state).

(** [Cls.from_record]: decode, then construct. *)
Definition MailboxRecord_from_record (r : pydict) : result MailboxRecord :=
  let! m := mailbox_from_record r in normalize_mailbox_record m.

Definition InboundEventRecord_from_record (r : pydict) : result InboundEventRecord :=
  let! e := inbound_event_from_record r in normalize_inbound_event_record e.

Definition DeliveryLease_from_record (r : pydict) : result DeliveryLease :=
  let! l := delivery_lease_from_record r in normalize_delivery_lease l.

(** ** Valid records: what the constructors accept and leave as it is *)

Definition valid_mailbox (r : MailboxRecord) : Prop :=
  truthy (mb_mailbox_id r) = true ∧ owner_name (mb_agent_name r) = true ∧
  0 <= mb_summary_version r ∧ blank (mb_summary_source r) = false ∧
  blank (mb_summary_refreshed_at r) = false ∧ 0 <= mb_queue_depth r ∧
  0 <= mb_pending_reply_count r ∧ 0 <= mb_lease_version r.

Definition valid_inbound (r : InboundEventRecord) : Prop :=
  truthy (ie_inbound_event_id r) = true ∧ owner_name (ie_agent_name r) = true ∧
  truthy (ie_message_id r) = true ∧ 0 <= ie_priority r.

Definition valid_lease (r : DeliveryLease) : Prop :=
  owner_name (dl_agent_name r) = true ∧ truthy (dl_inbound_event_id r) = true ∧
  0 <= dl_lease_version r.

#[export] Instance valid_mailbox_dec r : Decision (valid_mailbox r).
Proof. unfold valid_mailbox. apply _. Defined.
#[export] Instance valid_inbound_dec r : Decision (valid_inbound r).
Proof. unfold valid_inbound. apply _. Defined.
#[export] Instance valid_lease_dec r : Decision (valid_lease r).
Proof. unfold valid_lease. apply _. Defined.

Lemma ltb_0_false z : 0 <= z → (z <? 0) = false.
Proof. intros. by apply Z.ltb_ge. Qed.

(** Discharge the guards of a constructor one by one. *)
Ltac pass_guards :=
  repeat match goal with
         | H : truthy ?s = true |- context [truthy ?s] => rewrite H
         | H : blank ?s = false |- context [blank ?s] => rewrite H
         | H : 0 <= ?z |- context [?z <? 0] => rewrite (ltb_0_false z H)
         | H : owner_name ?n = true |- context [truthy ?n] =>
             rewrite (owner_name_truthy n H)
         | H : owner_name ?n = true |- context [normalize_mailbox_owner_name (Some ?n)] =>
             rewrite (normalize_owner_normal n H)
         end.

Lemma normalize_mailbox_valid r : valid_mailbox r → normalize_mailbox_record r = Ok r.
Proof.
  intros (? & ? & ? & ? & ? & ? & ? & ?). unfold normalize_mailbox_record, raise_if.
  pass_guards. by destruct r.
Qed.

Lemma normalize_inbound_valid r : valid_inbound r → normalize_inbound_event_record r = Ok r.
Proof.
  intros (? & ? & ? & ?). unfold normalize_inbound_event_record, raise_if.
  pass_guards. by destruct r.
Qed.

Lemma normalize_lease_valid r : valid_lease r → normalize_delivery_lease r = Ok r.
Proof.
  intros (? & ? & ?). unfold normalize_delivery_lease, raise_if.
  pass_guards. by destruct r.
Qed.

#[export] Hint Resolve normalize_mailbox_valid normalize_inbound_valid normalize_lease_valid : ccb.

Lemma normalize_mailbox_ok r r' : normalize_mailbox_record r = Ok r' → valid_mailbox r'.
Proof.
  unfold normalize_mailbox_record. intros H. inv_guards H.
  apply result_bind_Ok in H as (n & Hn & [= <-]).
  apply normalize_owner_ok in Hn. unfold valid_mailbox. simpl.
  rewrite ?negb_false_iff, ?Z.ltb_ge in *. done.
Qed.

Lemma normalize_inbound_ok r r' : normalize_inbound_event_record r = Ok r' → valid_inbound r'.
Proof.
  unfold normalize_inbound_event_record. intros H. inv_guards H.
  apply result_bind_Ok in H as (n & Hn & [= <-]).
  apply normalize_owner_ok in Hn. unfold valid_inbound. simpl.
  rewrite ?negb_false_iff, ?Z.ltb_ge in *. done.
Qed.

Lemma normalize_lease_ok r r' : normalize_delivery_lease r = Ok r' → valid_lease r'.
Proof.
  unfold normalize_delivery_lease. intros H. inv_guards H.
  apply result_bind_Ok in H as (n & Hn & [= <-]).
  apply normalize_owner_ok in Hn. unfold valid_lease. simpl.
  rewrite ?negb_false_iff, ?Z.ltb_ge in *. done.
Qed.

(** ** The record classes are codecs *)

Lemma MailboxState_of_value x : MailboxState_of (MailboxState_value x) = Ok x.
Proof. by destruct x. Qed.
Lemma InboundEventType_of_value x : InboundEventType_of (InboundEventType_value x) = Ok x.
Proof. by destruct x. Qed.
Lemma InboundEventStatus_of_value x : InboundEventStatus_of (InboundEventStatus_value x) = Ok x.
Proof. by destruct x. Qed.
Lemma LeaseState_of_value x : LeaseState_of (LeaseState_value x) = Ok x.
Proof. by destruct x. Qed.

#[export] Hint Rewrite MailboxState_of_value InboundEventType_of_value
  InboundEventStatus_of_value LeaseState_of_value : ccb.


Lemma mailbox_record_roundtrip r :
  valid_mailbox r → MailboxRecord_from_record (mailbox_to_record r) = Ok r.
Proof.
  intros Hr. unfold MailboxRecord_from_record.
  assert (mailbox_from_record (mailbox_to_record r) = Ok r) as ->; [|by apply normalize_mailbox_valid].
  destruct Hr as (_ & _ & _ & Hs & Ha & _).
  unfold mailbox_from_record, mailbox_to_record. codec_simpl.
  rewrite !py_or_VStr by auto with ccb. codec_simpl. by destruct r.
Qed.

Lemma inbound_event_roundtrip r :
  valid_inbound r → InboundEventRecord_from_record (inbound_event_to_record r) = Ok r.
Proof.
  intros Hr. unfold InboundEventRecord_from_record.
  assert (inbound_event_from_record (inbound_event_to_record r) = Ok r) as ->;
    [|by apply normalize_inbound_valid].
  unfold inbound_event_from_record, inbound_event_to_record. codec_simpl. by destruct r.
Qed.

Lemma delivery_lease_roundtrip r :
  valid_lease r → DeliveryLease_from_record (delivery_lease_to_record r) = Ok r.
Proof.
  intros Hr. unfold DeliveryLease_from_record.
  assert (delivery_lease_from_record (delivery_lease_to_record r) = Ok r) as ->;
    [|by apply normalize_lease_valid].
  unfold delivery_lease_from_record, delivery_lease_to_record. codec_simpl. by destruct r.
Qed.

#[export] Instance MailboxRecord_codec : Codec MailboxRecord := {
  to_record := mailbox_to_record;
  from_record := MailboxRecord_from_record;
  valid_record := valid_mailbox;
  from_to_record := mailbox_record_roundtrip;
}.

#[export] Instance InboundEventRecord_codec : Codec InboundEventRecord := {
  to_record := inbound_event_to_record;
  from_record := InboundEventRecord_from_record;
  valid_record := valid_inbound;
  from_to_record := inbound_event_roundtrip;
}.

#[export] Instance DeliveryLease_codec : Codec DeliveryLease := {
  to_record := delivery_lease_to_record;
  from_record := DeliveryLease_from_record;
  valid_record := valid_lease;
  from_to_record := delivery_lease_roundtrip;
}.
