(* ===== verification/MailboxKernel.v ===== *)
(** The mailbox kernel: [lib/mailbox_kernel/store.py], [service.py] and
    [service_runtime/] (queries, summaries, leases, transitions).  One inbox log, at most
    one delivery lease and one summary record per agent; the operations append to the
    log, move the lease and keep the summary.  This file holds the operations; their
    invariants are in [MailboxInvariant] and their contract in [MailboxSpec]. *)

From Stdlib Require Import Ascii String ZArith Lia.
From stdpp Require Import base list sets gmap strings sorting.
From S2P Require Import Prelude PyData Names Timestamps Storage MailboxModels.

Local Open Scope Z_scope.

(** ** State

    The three stores, and the number of clock readings taken so far: [clock] of the
    service is an oracle, its successive readings a sequence. *)
Record kstate := KState {
  ks_inbox : gmap string (list InboundEventRecord);
  ks_leases : gmap string DeliveryLease;
  ks_mailboxes : gmap string MailboxRecord;
  ks_ticks : nat;
}.

Record kconfig := KConfig {
  kc_clock : nat → string;
  kc_lease_ttl : option Z;  (** [lease_ttl_seconds], in microseconds *)
}.

Definition kinit : kstate := KState ∅ ∅ ∅ 0.

Abbreviation KM := (M kstate).

(** ** [store.py] *)

Definition inbox_of (s : kstate) (agent : string) : list InboundEventRecord :=
  default [] (ks_inbox s !! agent).

Definition inbound_append (r : InboundEventRecord) : KM unit :=
  mmod (λ s, KState (<[ie_agent_name r := inbox_of s (ie_agent_name r) ++ [r]]> (ks_inbox s))
               (ks_leases s) (ks_mailboxes s) (ks_ticks s)).

Definition inbound_list_agent (agent : string) : KM (list InboundEventRecord) :=
  mget (λ s, inbox_of s agent).

(** [get_latest]: the predicate compares [payload.get('inbound_event_id') or '']. *)
Definition has_event_id (event_id : string) (r : InboundEventRecord) : bool :=
  String.eqb (ie_inbound_event_id r) event_id.

Definition inbound_get_latest (agent event_id : string) : KM (option InboundEventRecord) :=
  mget (λ s, find_last (has_event_id event_id) (inbox_of s agent)).

Definition has_attempt_id (attempt_id : string) (r : InboundEventRecord) : bool :=
  String.eqb (str_or (ie_attempt_id r) "") attempt_id.

Definition inbound_get_latest_for_attempt (agent attempt_id : string)
    : KM (option InboundEventRecord) :=
  mget (λ s, find_last (has_attempt_id attempt_id) (inbox_of s agent)).

Definition lease_load (agent : string) : KM (option DeliveryLease) :=
  mget (λ s, ks_leases s !! agent).

Definition lease_save (r : DeliveryLease) : KM unit :=
  mmod (λ s, KState (ks_inbox s) (<[dl_agent_name r := r]> (ks_leases s)) (ks_mailboxes s)
               (ks_ticks s)).

Definition lease_remove (agent : string) : KM unit :=
  mmod (λ s, KState (ks_inbox s) (delete agent (ks_leases s)) (ks_mailboxes s) (ks_ticks s)).

(** [sorted(directory.glob('*.json'))]: by file name. *)
Definition file_le (a b : string * DeliveryLease) : Prop :=
  String.le (String.append a.1 ".json") (String.append b.1 ".json").
#[export] Instance file_le_dec : RelDecision file_le.
Proof. unfold RelDecision, file_le. apply _. Defined.

Definition lease_list_all : KM (list DeliveryLease) :=
  mget (λ s, map snd (merge_sort file_le (map_to_list (ks_leases s)))).

Definition mailbox_load (agent : string) : KM (option MailboxRecord) :=
  mget (λ s, ks_mailboxes s !! agent).

Definition mailbox_save (r : MailboxRecord) : KM unit :=
  mmod (λ s, KState (ks_inbox s) (ks_leases s) (<[mb_agent_name r := r]> (ks_mailboxes s))
               (ks_ticks s)).

Definition compare_and_save (r : MailboxRecord) (expected_summary_version : option Z) : KM bool :=
  let* current := mailbox_load (mb_agent_name r) in
  let current_version := option_map mb_summary_version current in
  if decide (current_version ≠ expected_summary_version) then mret' false
  else do* mailbox_save r in mret' true.

(** ** [service.py]: the event classes of the service *)

Definition is_terminal (st : InboundEventStatus) : bool :=
  match st with IE_CONSUMED | IE_SUPERSEDED | IE_ABANDONED => true | _ => false end.

Definition is_claimable (st : InboundEventStatus) : bool :=
  match st with IE_CREATED | IE_QUEUED => true | _ => false end.

Definition is_reply (r : InboundEventRecord) : bool := bool_decide (ie_event_type r = TASK_REPLY).

Definition is_acquired (l : DeliveryLease) : bool := bool_decide (dl_lease_state l = ACQUIRED).

Definition normalize (agent_name : string) : KM string :=
  mlift (normalize_mailbox_owner_name (Some agent_name)).

(** ** [service_runtime/queries.py] *)

(** The loop of [latest_events]: a dictionary from id to the latest row and the ids in
    the order of their first row. *)
Fixpoint latest_loop (records : list InboundEventRecord)
    (latest : gmap string InboundEventRecord) (order : list string)
    : gmap string InboundEventRecord * list string :=
  match records with
  | [] => (latest, order)
  | r :: rest =>
      let id := ie_inbound_event_id r in
      let order' := match latest !! id with None => order ++ [id] | Some _ => order end in
      latest_loop rest (<[id := r]> latest) order'
  end.

Definition latest_of (records : list InboundEventRecord) : list InboundEventRecord :=
  let '(latest, order) := latest_loop records ∅ [] in
  omap (λ id, latest !! id) order.

Definition pending_of (records : list InboundEventRecord) : list InboundEventRecord :=
  List.filter (λ r, negb (is_terminal (ie_status r))) (latest_of records).

Definition type_matches (event_type : option InboundEventType) (r : InboundEventRecord) : bool :=
  match event_type with None => true | Some t => bool_decide (ie_event_type r = t) end.

Definition latest_events (agent_name : string) : KM (list InboundEventRecord) :=
  let* normalized := normalize agent_name in
  let* records := inbound_list_agent normalized in
  mret' (latest_of records).

Definition pending_events (agent_name : string) (event_type : option InboundEventType)
    : KM (list InboundEventRecord) :=
  let* events := latest_events agent_name in
  mret' (List.filter (λ r, negb (is_terminal (ie_status r)) && type_matches event_type r) events).

Definition head_pending_event (agent_name : string) : KM (option InboundEventRecord) :=
  let* events := pending_events agent_name None in
  mret' (hd_error events).

Definition peek_next (agent_name : string) (event_type : option InboundEventType)
    : KM (option InboundEventRecord) :=
  let* head := head_pending_event agent_name in
  mret' (match head with
         | None => None
         | Some h =>
             if negb (type_matches event_type h) then None
             else if negb (is_claimable (ie_status h)) then None
             else Some h
         end).

(** ** [service_runtime/summary.py] *)

Record SummaryHead := MkSummaryHead {
  sh_inbound_event_id : option string;
  sh_event_type : option string;
  sh_status : option string;
  sh_message_id : option string;
  sh_attempt_id : option string;
  sh_payload_ref : option string;
}.

#[export] Instance SummaryHead_eq_dec : EqDecision SummaryHead.
Proof. solve_decision. Defined.

Definition empty_head : SummaryHead := MkSummaryHead None None None None None None.

Definition summary_head_from_event (record : option InboundEventRecord) : SummaryHead :=
  match record with
  | None => empty_head
  | Some r =>
      MkSummaryHead (Some (ie_inbound_event_id r))
        (Some (InboundEventType_value (ie_event_type r)))
        (Some (InboundEventStatus_value (ie_status r)))
        (Some (ie_message_id r)) (ie_attempt_id r) (ie_payload_ref r)
  end.

Definition head_of_mailbox (m : MailboxRecord) : SummaryHead :=
  MkSummaryHead (mb_head_inbound_event_id m) (mb_head_event_type m) (mb_head_status m)
    (mb_head_message_id m) (mb_head_attempt_id m) (mb_head_payload_ref m).

Definition next_summary_version (prior : option MailboxRecord) : Z :=
  match prior with None => 1 | Some p => mb_summary_version p + 1 end.

(** [_summary_version_for_record]: the version moves only when the view does. *)
Definition summary_version_for_record (prior : option MailboxRecord)
    (queue_depth pending_reply_count : Z) (active : option string) (head : SummaryHead)
    (last_started last_finished : option string) (state : MailboxState) (lease_version : Z) : Z :=
  match prior with
  | None => 1
  | Some p =>
      if bool_decide (mb_active_inbound_event_id p = active)
         && (mb_queue_depth p =? queue_depth)
         && (mb_pending_reply_count p =? pending_reply_count)
         && bool_decide (mb_head_inbound_event_id p = sh_inbound_event_id head)
         && bool_decide (mb_head_event_type p = sh_event_type head)
         && bool_decide (mb_head_status p = sh_status head)
         && bool_decide (mb_head_message_id p = sh_message_id head)
         && bool_decide (mb_head_attempt_id p = sh_attempt_id head)
         && bool_decide (mb_head_payload_ref p = sh_payload_ref head)
         && bool_decide (mb_last_inbound_started_at p = last_started)
         && bool_decide (mb_last_inbound_finished_at p = last_finished)
         && bool_decide (mb_mailbox_state p = state)
         && (mb_lease_version p =? lease_version)
      then mb_summary_version p
      else next_summary_version prior
  end.

Definition derive_mailbox_state (has_active : bool) (queue_depth : Z) : MailboxState :=
  if has_active then MB_DELIVERING else if 0 <? queue_depth then MB_BLOCKED else MB_IDLE.

(** [candidate and (current is None or candidate > current)] *)
Definition latest_timestamp (current candidate : option string) : option string :=
  match candidate with
  | Some c =>
      if truthy c && match current with None => true | Some cur => str_gtb c cur end
      then candidate else current
  | None => current
  end.

Definition resolve_summary_head (agent_name : string) : KM SummaryHead :=
  let* head := head_pending_event agent_name in
  mret' (summary_head_from_event head).

(** The fields of the record [build_mailbox_summary_record] makes. *)
Definition summary_record (agent_name : string) (prior : option MailboxRecord)
    (lease : option DeliveryLease) (queue_depth pending_reply_count : Z) (active : option string)
    (last_started last_finished : option string) (updated_at summary_source : string)
    (head : SummaryHead) : MailboxRecord :=
  let mailbox_id :=
    match prior with Some p => mb_mailbox_id p | None => String.append "mbx_" agent_name end in
  let lease_version :=
    match lease with
    | Some l => dl_lease_version l
    | None => match prior with Some p => mb_lease_version p | None => 0 end
    end in
  let has_active :=
    match lease with
    | Some l => is_acquired l && truthy (dl_inbound_event_id l)
    | None => false
    end || opt_truthy active in
  let state := derive_mailbox_state has_active queue_depth in
  MkMailboxRecord mailbox_id agent_name
    (summary_version_for_record prior queue_depth pending_reply_count active head last_started
       last_finished state lease_version)
    summary_source updated_at active queue_depth pending_reply_count
    (sh_inbound_event_id head) (sh_event_type head) (sh_status head) (sh_message_id head)
    (sh_attempt_id head) (sh_payload_ref head) last_started last_finished state lease_version
    updated_at.

Definition build_mailbox_summary_record (agent_name : string) (prior : option MailboxRecord)
    (lease : option DeliveryLease) (queue_depth pending_reply_count : Z) (active : option string)
    (last_started last_finished : option string) (updated_at summary_source : string)
    (summary_head : option SummaryHead) : KM MailboxRecord :=
  let* head := match summary_head with
               | Some h => mret' h
               | None => resolve_summary_head agent_name
               end in
  mlift (normalize_mailbox_record
           (summary_record agent_name prior lease queue_depth pending_reply_count active
              last_started last_finished updated_at summary_source head)).

Definition save_summary_record (r : MailboxRecord) (expected_summary_version : option Z)
    : KM MailboxRecord :=
  let* saved := compare_and_save r expected_summary_version in
  if saved : bool then mret' r
  else
    let* current := mailbox_load (mb_agent_name r) in
    match current with
    | Some c => mret' c
    | None => do* mailbox_save r in mret' r
    end.

Section operations.
  Context (cfg : kconfig).

(** [service._clock()]: the next reading. *)
Definition clock : KM string :=
  λ s, (KState (ks_inbox s) (ks_leases s) (ks_mailboxes s) (S (ks_ticks s)),
        Ok (kc_clock cfg (ks_ticks s))).

(** [value or service._clock()] *)
Definition or_clock (value : option string) : KM string :=
  if opt_truthy value then mret' (str_or value "") else clock.

(** [apply_incremental_summary_update]; [None] for [active_inbound_event_id] is the
    default [Ellipsis]. *)
Definition apply_incremental_summary_update (agent_name : string)
    (queue_delta pending_reply_delta : Z) (active_inbound_event_id : option (option string))
    (last_started_at last_finished_at updated_at : option string) : KM MailboxRecord :=
  let* normalized := normalize agent_name in
  let* timestamp := or_clock updated_at in
  let* prior := mailbox_load normalized in
  let expected_summary_version := option_map mb_summary_version prior in
  let* lease := lease_load normalized in
  let queue_depth :=
    Z.max 0 (match prior with Some p => mb_queue_depth p | None => 0 end + queue_delta) in
  let pending_reply_count :=
    Z.max 0 (match prior with Some p => mb_pending_reply_count p | None => 0 end
             + pending_reply_delta) in
  let current_active :=
    match active_inbound_event_id with
    | Some a => a
    | None => match prior with Some p => mb_active_inbound_event_id p | None => None end
    end in
  let* record :=
    build_mailbox_summary_record normalized prior lease queue_depth pending_reply_count
      current_active
      (latest_timestamp
         match prior with Some p => mb_last_inbound_started_at p | None => None end last_started_at)
      (latest_timestamp
         match prior with Some p => mb_last_inbound_finished_at p | None => None end
         last_finished_at)
      timestamp "incremental-upsert" None in
  save_summary_record record expected_summary_version.

Definition apply_transition_summary_update (agent_name : string)
    (queue_depth pending_reply_count : Z) (active_inbound_event_id : option string)
    (last_started_at last_finished_at updated_at : option string) (summary_source : string)
    (summary_head : option SummaryHead) : KM MailboxRecord :=
  let* normalized := normalize agent_name in
  let* timestamp := or_clock updated_at in
  let* prior := mailbox_load normalized in
  let expected_summary_version := option_map mb_summary_version prior in
  let* lease := lease_load normalized in
  let* record :=
    build_mailbox_summary_record normalized prior lease (Z.max 0 queue_depth)
      (Z.max 0 pending_reply_count) active_inbound_event_id last_started_at last_finished_at
      timestamp summary_source summary_head in
  save_summary_record record expected_summary_version.

(** ** [service_runtime/mailbox.py] *)

Definition active_of_lease (lease : option DeliveryLease) : option string :=
  match lease with
  | Some l => if is_acquired l then or_none (dl_inbound_event_id l) else None
  | None => None
  end.

Definition activity_loop (events : list InboundEventRecord) (started finished : option string)
    : option string * option string :=
  foldl (λ '(st, fi) e, (latest_timestamp st (ie_started_at e), latest_timestamp fi (ie_finished_at e)))
    (started, finished) events.

Definition latest_activity (normalized : string) (prior : option MailboxRecord)
    : KM (option string * option string) :=
  let* events := latest_events normalized in
  mret' (activity_loop events
           match prior with Some p => mb_last_inbound_started_at p | None => None end
           match prior with Some p => mb_last_inbound_finished_at p | None => None end).

Definition count_replies (events : list InboundEventRecord) : Z :=
  Z.of_nat (length (List.filter is_reply events)).

(** [prior] is [None] for the default [Ellipsis]: load it. *)
Definition project_mailbox_summary (agent_name : string) (updated_at : option string)
    (prior : option (option MailboxRecord)) (summary_source : string) : KM MailboxRecord :=
  let* normalized := normalize agent_name in
  let* timestamp := or_clock updated_at in
  let* prior := match prior with Some p => mret' p | None => mailbox_load normalized end in
  let* lease := lease_load normalized in
  let* events := pending_events normalized None in
  let* activity := latest_activity normalized prior in
  build_mailbox_summary_record normalized prior lease (Z.of_nat (length events))
    (count_replies events) (active_of_lease lease) activity.1 activity.2 timestamp
    summary_source None.

Definition rebuild_mailbox_summary (agent_name : string) (updated_at : option string)
    : KM MailboxRecord :=
  let* normalized := normalize agent_name in
  let* prior := mailbox_load normalized in
  let expected_summary_version := option_map mb_summary_version prior in
  let* record := project_mailbox_summary normalized updated_at (Some prior) "history-refresh" in
  save_summary_record record expected_summary_version.

(** ** [service_runtime/transitions_runtime/leasing.py] *)

Definition next_lease_version (agent_name : string) : KM Z :=
  let* normalized := normalize agent_name in
  let* lease := lease_load normalized in
  match lease with
  | Some l => mret' (dl_lease_version l + 1)
  | None =>
      let* mailbox := mailbox_load normalized in
      match mailbox with
      | Some m => mret' (mb_lease_version m + 1)
      | None => mret' 1
      end
  end.

(** ** [service_runtime/lease_expiry.py] *)

Definition lease_ttl_seconds : option Z :=
  match kc_lease_ttl cfg with
  | Some ttl => if 0 <? ttl then Some ttl else None
  | None => None
  end.

Definition lease_expires_at_value (acquired_at : string) : result (option string) :=
  match lease_ttl_seconds with
  | None => Ok None
  | Some ttl =>
      match parse_timestamp (Some acquired_at) with
      | None => Ok None
      | Some base =>
          let! t := dt_add base ttl in
          let! text := format_timestamp t in
          Ok (Some text)
      end
  end.

Definition lease_deadline (lease : DeliveryLease) : result (option datetime) :=
  match parse_timestamp (dl_expires_at lease) with
  | Some explicit => Ok (Some explicit)
  | None =>
      match lease_ttl_seconds with
      | None => Ok None
      | Some ttl =>
          match match parse_timestamp (dl_last_progress_at lease) with
                | Some b => Some b
                | None => parse_timestamp (Some (dl_acquired_at lease))
                end with
          | None => Ok None
          | Some base => let! t := dt_add base ttl in Ok (Some t)
          end
      end
  end.

(** The loop of [expired_delivery_leases]. *)
Fixpoint expired_loop (reference : datetime) (leases : list DeliveryLease)
    : result (list DeliveryLease) :=
  match leases with
  | [] => Ok []
  | lease :: rest =>
      if negb (is_acquired lease) then expired_loop reference rest
      else
        let! deadline := lease_deadline lease in
        match deadline with
        | None => expired_loop reference rest
        | Some d =>
            if dt_ltb reference d then expired_loop reference rest
            else let! tail := expired_loop reference rest in Ok (lease :: tail)
        end
  end.

Definition expired_delivery_leases (now : option string) : KM (list DeliveryLease) :=
  let* timestamp := or_clock now in
  match parse_timestamp (Some timestamp) with
  | None => mret' []
  | Some reference =>
      let* leases := lease_list_all in
      mlift (expired_loop reference leases)
  end.

(** ** [service_runtime/transitions_runtime/claiming.py] *)

Definition refresh_none {A} (agent_name timestamp : string) : KM (option A) :=
  do* rebuild_mailbox_summary agent_name (Some timestamp) in mret' None.

Definition refresh_current {A} (agent_name : string) (current : A) (timestamp : string)
    : KM (option A) :=
  do* rebuild_mailbox_summary agent_name (Some timestamp) in mret' (Some current).

Definition load_claim_candidate (agent_name event_id : string) : KM (option InboundEventRecord) :=
  let* current := inbound_get_latest agent_name event_id in
  mret' (match current with
         | Some c => if is_terminal (ie_status c) then None else Some c
         | None => None
         end).

Definition has_conflicting_lease (agent_name event_id : string) : KM bool :=
  let* lease := lease_load agent_name in
  mret' (match lease with
         | Some l => is_acquired l && negb (String.eqb (dl_inbound_event_id l) event_id)
         | None => false
         end).

Definition is_claimable_head (agent_name : string) (current : InboundEventRecord) : KM bool :=
  if negb (is_claimable (ie_status current)) then mret' false
  else
    let* head := head_pending_event agent_name in
    mret' (match head with
           | Some h => String.eqb (ie_inbound_event_id h) (ie_inbound_event_id current)
           | None => false
           end).

(** [dataclasses.replace] on an inbound event; the constructor checks run again. *)
Definition ie_replace (r : InboundEventRecord) (payload_ref : option string)
    (status : InboundEventStatus) (started_at finished_at : option string)
    : InboundEventRecord :=
  MkInboundEventRecord (ie_inbound_event_id r) (ie_agent_name r) (ie_event_type r)
    (ie_message_id r) (ie_attempt_id r) payload_ref (ie_priority r) status (ie_created_at r)
    started_at finished_at.

Definition delivery_record (current : InboundEventRecord) (timestamp : string)
    : result InboundEventRecord :=
  normalize_inbound_event_record
    (ie_replace current (ie_payload_ref current) IE_DELIVERING
       (Some (str_or (ie_started_at current) timestamp)) None).

Definition delivery_lease (agent_name event_id timestamp : string) : KM DeliveryLease :=
  let* version := next_lease_version agent_name in
  let* expires_at := mlift (lease_expires_at_value timestamp) in
  mlift (normalize_delivery_lease
           (MkDeliveryLease agent_name event_id version timestamp (Some timestamp) expires_at
              ACQUIRED)).

Definition claim_current (agent_name : string) (current : InboundEventRecord) (timestamp : string)
    : KM (option InboundEventRecord) :=
  let* updated := mlift (delivery_record current timestamp) in
  do* inbound_append updated in
  let* lease := delivery_lease agent_name (ie_inbound_event_id current) timestamp in
  do* lease_save lease in
  let* prior := mailbox_load agent_name in
  match prior with
  | Some p =>
      if (mb_queue_depth p <=? 0)
         || negb (bool_decide (mb_head_inbound_event_id p = Some (ie_inbound_event_id current)))
      then do* rebuild_mailbox_summary agent_name (Some timestamp) in mret' (Some updated)
      else
        do* apply_transition_summary_update agent_name (mb_queue_depth p)
              (mb_pending_reply_count p) (Some (ie_inbound_event_id current))
              (latest_timestamp (mb_last_inbound_started_at p) (ie_started_at updated))
              (mb_last_inbound_finished_at p) (Some timestamp) "transition-claim"
              (Some (summary_head_from_event (Some updated))) in
        mret' (Some updated)
  | None => do* rebuild_mailbox_summary agent_name (Some timestamp) in mret' (Some updated)
  end.

Definition claim (agent_name event_id : string) (started_at : option string)
    : KM (option InboundEventRecord) :=
  let* normalized := normalize agent_name in
  let* timestamp := or_clock started_at in
  let* current := load_claim_candidate normalized event_id in
  match current with
  | None => refresh_none normalized timestamp
  | Some c =>
      let* conflict := has_conflicting_lease normalized event_id in
      if conflict : bool then refresh_none normalized timestamp
      else if bool_decide (ie_status c = IE_DELIVERING) then refresh_current normalized c timestamp
      else
        let* head := is_claimable_head normalized c in
        if negb head then refresh_none normalized timestamp
        else claim_current normalized c timestamp
  end.

Definition claim_next (agent_name : string) (event_type : option InboundEventType)
    (started_at : option string) : KM (option InboundEventRecord) :=
  let* next_event := peek_next agent_name event_type in
  match next_event with
  | None =>
      let* timestamp := or_clock started_at in
      do* rebuild_mailbox_summary agent_name (Some timestamp) in mret' None
  | Some e => claim agent_name (ie_inbound_event_id e) started_at
  end.

(** ** [service_runtime/transitions_runtime/terminal.py] *)

Definition refresh_and_return {A} (agent_name timestamp : string) (value : option A)
    : KM (option A) :=
  do* rebuild_mailbox_summary agent_name (Some timestamp) in mret' value.

Definition release_matching_lease (agent_name event_id : string) : KM unit :=
  let* lease := lease_load agent_name in
  match lease with
  | Some l =>
      if is_acquired l && String.eqb (dl_inbound_event_id l) event_id
      then lease_remove agent_name else mret' tt
  | None => mret' tt
  end.

Definition mark_terminal (agent_name event_id : string) (status : InboundEventStatus)
    (finished_at : option string) : KM (option InboundEventRecord) :=
  let* normalized := normalize agent_name in
  let* timestamp := or_clock finished_at in
  let* current := inbound_get_latest normalized event_id in
  match current with
  | None => refresh_and_return normalized timestamp None
  | Some c =>
      if is_terminal (ie_status c) then refresh_and_return normalized timestamp (Some c)
      else
        let* updated := mlift (normalize_inbound_event_record
              (ie_replace c (ie_payload_ref c) status (ie_started_at c) (Some timestamp))) in
        do* inbound_append updated in
        do* release_matching_lease normalized event_id in
        let* prior := mailbox_load normalized in
        match prior with
        | None => do* rebuild_mailbox_summary normalized (Some timestamp) in mret' (Some updated)
        | Some p =>
            if mb_queue_depth p <=? 0
            then do* rebuild_mailbox_summary normalized (Some timestamp) in mret' (Some updated)
            else
              let queue_depth := Z.max 0 (mb_queue_depth p - 1) in
              let pending_reply_count :=
                Z.max 0 (mb_pending_reply_count p - (if is_reply c then 1 else 0)) in
              let active :=
                if bool_decide (mb_active_inbound_event_id p = Some (ie_inbound_event_id c))
                then None else mb_active_inbound_event_id p in
              let finish (summary_head : SummaryHead) : KM (option InboundEventRecord) :=
                do* apply_transition_summary_update normalized queue_depth pending_reply_count
                      active (mb_last_inbound_started_at p)
                      (latest_timestamp (mb_last_inbound_finished_at p) (Some timestamp))
                      (Some timestamp) "transition-terminal" (Some summary_head) in
                mret' (Some updated) in
              if bool_decide (mb_head_inbound_event_id p = Some (ie_inbound_event_id c)) then
                if queue_depth =? 0 then finish (summary_head_from_event None)
                else if queue_depth =? 1 then
                  let* head := head_pending_event normalized in
                  finish (summary_head_from_event head)
                else
                  let* next_head := head_pending_event normalized in
                  match next_head with
                  | None =>
                      do* rebuild_mailbox_summary normalized (Some timestamp) in
                      mret' (Some updated)
                  | Some h => finish (summary_head_from_event (Some h))
                  end
              else finish (head_of_mailbox p)
        end
  end.

Definition consume agent_name event_id finished_at :=
  mark_terminal agent_name event_id IE_CONSUMED finished_at.
Definition abandon agent_name event_id finished_at :=
  mark_terminal agent_name event_id IE_ABANDONED finished_at.
Definition supersede agent_name event_id finished_at :=
  mark_terminal agent_name event_id IE_SUPERSEDED finished_at.

Definition rewrite_head (agent_name event_id : string) (payload_ref : option string)
    (status : InboundEventStatus) (updated_at : option string) (clear_progress : bool)
    : KM (option InboundEventRecord) :=
  let* normalized := normalize agent_name in
  let* timestamp := or_clock updated_at in
  let* current := inbound_get_latest normalized event_id in
  match match current with
        | Some c => if is_terminal (ie_status c) then None else Some c
        | None => None
        end with
  | None => do* rebuild_mailbox_summary normalized (Some timestamp) in mret' None
  | Some c =>
      let* updated := mlift (normalize_inbound_event_record
            (ie_replace c payload_ref status
               (if clear_progress then None else ie_started_at c)
               (if clear_progress then None else ie_finished_at c))) in
      do* inbound_append updated in
      do* release_matching_lease normalized event_id in
      let* prior := mailbox_load normalized in
      match prior with
      | None => do* rebuild_mailbox_summary normalized (Some timestamp) in mret' (Some updated)
      | Some p =>
          if negb (bool_decide (mb_head_inbound_event_id p = Some event_id))
             || (mb_queue_depth p <=? 0)
          then do* rebuild_mailbox_summary normalized (Some timestamp) in mret' (Some updated)
          else
            do* apply_transition_summary_update normalized (mb_queue_depth p)
                  (mb_pending_reply_count p)
                  (if bool_decide (mb_active_inbound_event_id p = Some event_id) then None
                   else mb_active_inbound_event_id p)
                  (mb_last_inbound_started_at p) (mb_last_inbound_finished_at p)
                  (Some timestamp) "transition-rewrite-head"
                  (Some (summary_head_from_event (Some updated))) in
            mret' (Some updated)
      end
  end.

(** [_ack_timestamp]: [finished_at or started_at or clock()] *)
Definition ack_timestamp (started_at finished_at : option string) : KM string :=
  if opt_truthy finished_at then mret' (str_or finished_at "") else or_clock started_at.

Definition head_matches_reply (head : option InboundEventRecord) (event_id : string) : bool :=
  match head with
  | Some h => String.eqb (ie_inbound_event_id h) event_id && is_reply h
  | None => false
  end.

Definition ack_reply (agent_name event_id : string) (started_at finished_at : option string)
    : KM (option InboundEventRecord) :=
  let* normalized := normalize agent_name in
  let* head := head_pending_event normalized in
  let* timestamp := ack_timestamp started_at finished_at in
  if negb (head_matches_reply head event_id) then refresh_and_return normalized timestamp None
  else
    let* current := inbound_get_latest normalized event_id in
    match current with
    | None => refresh_and_return normalized timestamp None
    | Some c =>
        if is_terminal (ie_status c) then refresh_and_return normalized timestamp (Some c)
        else if bool_decide (ie_status c = IE_DELIVERING) then
          mark_terminal normalized event_id IE_CONSUMED (Some (str_or finished_at timestamp))
        else
          let* claimed := claim normalized event_id (Some (str_or started_at timestamp)) in
          match claimed with
          | None => refresh_and_return normalized timestamp None
          | Some _ =>
              mark_terminal normalized event_id IE_CONSUMED (Some (str_or finished_at timestamp))
          end
    end.

(** [expire_lease] of [lease_expiry.py]: the lease is marked expired before the event
    is abandoned, so that the release of acquired leases leaves it for the trace. *)
Definition expire_lease (agent_name : string) (finished_at : option string)
    : KM (option InboundEventRecord) :=
  let* normalized := normalize agent_name in
  let* timestamp := or_clock finished_at in
  let* lease := lease_load normalized in
  match lease with
  | None => mret' None
  | Some l =>
      if negb (is_acquired l) then mret' None
      else
        let* current := inbound_get_latest normalized (dl_inbound_event_id l) in
        match match current with
              | Some c => if is_terminal (ie_status c) then None else Some c
              | None => None
              end with
        | None =>
            do* lease_remove normalized in
            do* rebuild_mailbox_summary normalized (Some timestamp) in mret' None
        | Some _ =>
            let* marked := mlift (normalize_delivery_lease
                  (MkDeliveryLease (dl_agent_name l) (dl_inbound_event_id l) (dl_lease_version l)
                     (dl_acquired_at l) (dl_last_progress_at l) (dl_expires_at l) EXPIRED)) in
            do* lease_save marked in
            mark_terminal normalized (dl_inbound_event_id l) IE_ABANDONED (Some timestamp)
        end
  end.

End operations.
