(* ===== verification/MailboxInvariant.v ===== *)
(** The inbox log.  Rows are only ever appended, the latest row of an event counts, and
    an event keeps the place of its first row: these lemmas say what [latest_of] and
    [pending_of] of [MailboxKernel] become when a row is appended.

    The invariant of the mailbox kernel: the summary record of an agent mirrors the
    agent's pending queue and lease.  The contents of one agent's stores are a [box];
    the rules below execute the kernel's operations on it, and every operation is shown
    to end normally, to touch one agent only and to leave a mirroring summary. *)

From Stdlib Require Import ZArith Lia.
From stdpp Require Import base list sets gmap strings.
From S2P Require Import Prelude PyData Names Timestamps Storage MailboxModels MailboxKernel.

Abbreviation eid := ie_inbound_event_id.

Definition replace_event (r x : InboundEventRecord) : InboundEventRecord :=
  if decide (eid x = eid r) then r else x.

Definition same_id (id : string) (x : InboundEventRecord) : bool := bool_decide (eid x = id).

Lemma omap_cons_Some {A B} (f : A → option B) x l y :
  f x = Some y → omap f (x :: l) = y :: omap f l.
Proof. intros H. cbn. by rewrite H. Qed.

(** ** The loop of [latest_events] *)

Record loop_inv (latest : gmap string InboundEventRecord) (order : list string) : Prop := {
  li_nodup : NoDup order;
  li_dom : ∀ id, id ∈ order ↔ is_Some (latest !! id);
  li_id : ∀ id r, latest !! id = Some r → eid r = id;
}.

Lemma latest_loop_app l1 l2 m o :
  latest_loop (l1 ++ l2) m o =
    let '(m', o') := latest_loop l1 m o in latest_loop l2 m' o'.
Proof. revert m o. induction l1 as [|r l1 IH]; intros m o; [done|]. simpl. apply IH. Qed.

Lemma loop_inv_step r m o :
  loop_inv m o →
  loop_inv (<[eid r := r]> m) (match m !! eid r with None => o ++ [eid r] | Some _ => o end).
Proof.
  intros [Hnd Hdom Hid]. split.
  - destruct (m !! eid r) eqn:E; [done|].
    apply NoDup_app. split_and!; [done| |apply NoDup_singleton].
    intros x Hx ->%list_elem_of_singleton. apply Hdom in Hx. rewrite E in Hx. by destruct Hx.
  - intros id. destruct (decide (id = eid r)) as [->|Hne].
    + rewrite lookup_insert_eq. split; [eauto|]. intros _.
      destruct (m !! eid r) eqn:E; [apply Hdom; eauto|].
      apply elem_of_app. right. by apply list_elem_of_singleton.
    + rewrite lookup_insert_ne by done. rewrite <-Hdom.
      destruct (m !! eid r); [done|]. rewrite elem_of_app, list_elem_of_singleton. tauto.
  - intros id x. destruct (decide (id = eid r)) as [->|Hne].
    + rewrite lookup_insert_eq. congruence.
    + rewrite lookup_insert_ne by done. apply Hid.
Qed.

Lemma loop_inv_run l m o :
  loop_inv m o → loop_inv (latest_loop l m o).1 (latest_loop l m o).2.
Proof.
  revert m o. induction l as [|r l IH]; intros m o H; [done|].
  simpl. by apply IH, loop_inv_step.
Qed.

Lemma loop_inv_empty : loop_inv ∅ [].
Proof.
  split; [apply NoDup_nil_2| |].
  - intros id. rewrite lookup_empty. split; [intros H; by apply elem_of_nil in H|by intros [? ?]].
  - intros id r. by rewrite lookup_empty.
Qed.

Lemma latest_loop_find l id :
  (latest_loop l ∅ []).1 !! id = find_last (has_event_id id) l.
Proof.
  induction l as [|r l IH] using rev_ind; [done|].
  rewrite latest_loop_app, find_last_snoc.
  destruct (latest_loop l ∅ []) as [m o]. simpl in *. unfold has_event_id at 1.
  destruct (String.eqb_spec (eid r) id) as [->|Hne].
  - by rewrite lookup_insert_eq.
  - by rewrite lookup_insert_ne.
Qed.

(** ** [latest_of] *)

Definition order_of (l : list InboundEventRecord) : list string := (latest_loop l ∅ []).2.

Lemma latest_of_order l :
  latest_of l = omap (λ id, find_last (has_event_id id) l) (order_of l).
Proof.
  unfold latest_of, order_of. pose proof (latest_loop_find l) as H.
  destruct (latest_loop l ∅ []) as [m o]. simpl in H |- *.
  apply list_omap_ext, Forall_Forall2_diag, Forall_forall. intros id _. apply H.
Qed.

Lemma order_of_nodup l : NoDup (order_of l).
Proof. apply (li_nodup _ _ (loop_inv_run l ∅ [] loop_inv_empty)). Qed.

Lemma elem_of_order l id : id ∈ order_of l ↔ is_Some (find_last (has_event_id id) l).
Proof.
  rewrite <-latest_loop_find. apply (li_dom _ _ (loop_inv_run l ∅ [] loop_inv_empty)).
Qed.

Lemma find_last_id l id r : find_last (has_event_id id) l = Some r → eid r = id.
Proof. intros [_ H]%find_last_Some. by apply String.eqb_eq in H. Qed.

Lemma latest_of_ids l : map eid (latest_of l) = order_of l.
Proof.
  rewrite latest_of_order.
  assert (∀ o, (∀ id, id ∈ o → is_Some (find_last (has_event_id id) l)) →
    map eid (omap (λ id, find_last (has_event_id id) l) o) = o) as H.
  { induction o as [|id o IH]; intros Ho; [done|].
    destruct (Ho id) as [r Hr]; [by left|]. rewrite (omap_cons_Some (λ id, find_last (has_event_id id) l) _ _ _ Hr). cbn [map].
    rewrite IH by (intros; apply Ho; by right). by rewrite (find_last_id _ _ _ Hr). }
  apply H. intros id. by rewrite elem_of_order.
Qed.

Lemma latest_of_nodup l : NoDup (map eid (latest_of l)).
Proof. rewrite latest_of_ids. apply order_of_nodup. Qed.

Lemma elem_of_latest l r : r ∈ latest_of l ↔ find_last (has_event_id (eid r)) l = Some r.
Proof.
  rewrite latest_of_order, list_elem_of_omap. split.
  - intros (id & _ & Hid). by rewrite (find_last_id _ _ _ Hid).
  - intros Hr. exists (eid r). split; [|done]. apply elem_of_order. eauto.
Qed.

Lemma order_of_snoc l r :
  order_of (l ++ [r]) =
    if decide (eid r ∈ order_of l) then order_of l else order_of l ++ [eid r].
Proof.
  pose proof (latest_loop_find l (eid r)) as Hf. pose proof (elem_of_order l (eid r)) as Ho.
  unfold order_of in *. rewrite latest_loop_app.
  destruct (latest_loop l ∅ []) as [m o]. simpl in *. rewrite <-Hf in Ho.
  destruct (m !! eid r) eqn:E; case_decide as Hd; try done.
  - exfalso. apply Hd, Ho. eauto.
  - apply Ho in Hd. by destruct Hd.
Qed.

(** A row of a known event takes the event's place. *)
Lemma latest_of_known l r c :
  find_last (has_event_id (eid r)) l = Some c →
  latest_of (l ++ [r]) = map (replace_event r) (latest_of l).
Proof.
  intros Hc. assert (eid r ∈ order_of l) as Hin by (apply elem_of_order; eauto).
  rewrite !latest_of_order, order_of_snoc, decide_True by done.
  pose proof (elem_of_order l) as Ho.
  assert (∀ o, (∀ id, id ∈ o → is_Some (find_last (has_event_id id) l)) →
    omap (λ id, find_last (has_event_id id) (l ++ [r])) o =
    map (replace_event r) (omap (λ id, find_last (has_event_id id) l) o)) as H.
  { induction o as [|id o IH]; intros Hall; [done|].
    destruct (Hall id) as [x Hx]; [by left|].
    rewrite (omap_cons_Some (λ id, find_last (has_event_id id) l) _ _ _ Hx). cbn [map].
    rewrite <-IH by (intros; apply Hall; by right). apply omap_cons_Some.
    rewrite find_last_snoc, Hx. unfold has_event_id at 1, replace_event.
    rewrite (find_last_id _ _ _ Hx).
    destruct (String.eqb_spec (eid r) id) as [->|Hne]; [by rewrite decide_True|].
    by rewrite decide_False by congruence. }
  apply H. intros id. by rewrite Ho.
Qed.

(** A row of a new event goes last. *)
Lemma latest_of_fresh l r :
  find_last (has_event_id (eid r)) l = None →
  latest_of (l ++ [r]) = latest_of l ++ [r].
Proof.
  intros Hf. assert (eid r ∉ order_of l) as Hin.
  { rewrite elem_of_order, Hf. intros [? ?]. done. }
  rewrite !latest_of_order, order_of_snoc, decide_False by done.
  rewrite omap_app. f_equal.
  - apply list_omap_ext, Forall_Forall2_diag, Forall_forall. intros id Hid.
    rewrite find_last_snoc. destruct (has_event_id id r) eqn:E; [|done].
    apply String.eqb_eq in E. by subst id.
  - assert (find_last (has_event_id (eid r)) (l ++ [r]) = Some r) as Hr.
    { rewrite find_last_snoc. unfold has_event_id at 1. by rewrite String.eqb_refl. }
    by rewrite (omap_cons_Some (λ id, find_last (has_event_id id) (l ++ [r])) _ _ _ Hr).
Qed.

(** ** [pending_of] *)

Definition is_pending (r : InboundEventRecord) : bool := negb (is_terminal (ie_status r)).

Lemma pending_of_filter l : pending_of l = List.filter is_pending (latest_of l).
Proof. done. Qed.

Lemma map_filter_nodup (p : InboundEventRecord → bool) l :
  NoDup (map eid l) → NoDup (map eid (List.filter p l)).
Proof.
  induction l as [|x l IH]; simpl; [done|]. intros [Hx Hl]%NoDup_cons.
  destruct (p x); simpl; [|auto]. apply NoDup_cons. split; [|auto].
  intros Hin. apply Hx. apply list_elem_of_fmap in Hin as (y & -> & Hy).
  apply list_elem_of_fmap. exists y. split; [done|].
  apply list_elem_of_In. apply list_elem_of_In, filter_In in Hy. tauto.
Qed.

Lemma pending_of_nodup l : NoDup (map eid (pending_of l)).
Proof. apply map_filter_nodup, latest_of_nodup. Qed.

Lemma elem_of_pending l r :
  r ∈ pending_of l ↔ find_last (has_event_id (eid r)) l = Some r ∧ is_pending r = true.
Proof.
  rewrite pending_of_filter, list_elem_of_In, filter_In, <-list_elem_of_In, elem_of_latest. done.
Qed.

Lemma pending_of_fresh l r :
  find_last (has_event_id (eid r)) l = None →
  pending_of (l ++ [r]) = pending_of l ++ (if is_pending r then [r] else []).
Proof.
  intros Hf. rewrite !pending_of_filter, latest_of_fresh, List.filter_app by done. simpl.
  by destruct (is_pending r).
Qed.

Lemma replace_event_eq r x : eid x = eid r → replace_event r x = r.
Proof. unfold replace_event. by intros ->; rewrite decide_True. Qed.

Lemma replace_event_ne r x : eid x ≠ eid r → replace_event r x = x.
Proof. unfold replace_event. intros ?. by rewrite decide_False. Qed.

Lemma same_id_eq id x : eid x = id → same_id id x = true.
Proof. apply bool_decide_true. Qed.

Lemma same_id_ne id x : eid x ≠ id → same_id id x = false.
Proof. apply bool_decide_false. Qed.

Lemma filter_replace r c xs :
  is_pending c = true → (∀ y, y ∈ xs → eid y = eid r → y = c) →
  List.filter is_pending (map (replace_event r) xs) =
    if is_pending r then map (replace_event r) (List.filter is_pending xs)
    else List.filter (λ x, negb (same_id (eid r) x)) (List.filter is_pending xs).
Proof.
  intros Hc. induction xs as [|x xs IH]; intros Hu; [by destruct (is_pending r)|].
  specialize (IH ltac:(intros; apply Hu; [by right|done])). cbn [map List.filter].
  destruct (decide (eid x = eid r)) as [Hid|Hid].
  - assert (is_pending x = true) as Hx by (rewrite (Hu x); [done|by left|done]).
    rewrite (replace_event_eq r x Hid), Hx.
    destruct (is_pending r) eqn:Hr; cbn [map List.filter].
    + by rewrite (replace_event_eq r x Hid), IH.
    + by rewrite (same_id_eq _ x Hid), IH.
  - rewrite (replace_event_ne r x Hid).
    destruct (is_pending x) eqn:Hx; [|done]. destruct (is_pending r) eqn:Hr; cbn [map List.filter].
    + by rewrite (replace_event_ne r x Hid), IH.
    + by rewrite (same_id_ne _ x Hid), IH.
Qed.

(** Rewriting a pending event keeps the queue; ending it removes it. *)
Lemma pending_of_known l r c :
  find_last (has_event_id (eid r)) l = Some c → is_pending c = true →
  pending_of (l ++ [r]) =
    if is_pending r then map (replace_event r) (pending_of l)
    else List.filter (λ x, negb (same_id (eid r) x)) (pending_of l).
Proof.
  intros Hc Hp. rewrite !pending_of_filter. rewrite (latest_of_known l r c) by done.
  apply (filter_replace r c); [done|]. intros y Hy Hid.
  apply elem_of_latest in Hy. rewrite Hid, Hc in Hy. congruence.
Qed.

(** ** Heads and counts of a queue without duplicate ids *)

Lemma count_replies_cons x l :
  count_replies (x :: l) = ((if is_reply x then 1 else 0) + count_replies l)%Z.
Proof. unfold count_replies. simpl. destruct (is_reply x); simpl; lia. Qed.

Lemma count_replies_nonneg l : (0 <= count_replies l)%Z.
Proof. unfold count_replies. lia. Qed.

Lemma count_replies_app l1 l2 : count_replies (l1 ++ l2) = (count_replies l1 + count_replies l2)%Z.
Proof. induction l1 as [|x l1 IH]; [done|]. simpl. rewrite !count_replies_cons, IH. lia. Qed.

Lemma remove_absent id l :
  id ∉ map eid l → List.filter (λ x, negb (same_id id x)) l = l.
Proof.
  induction l as [|x l IH]; simpl; [done|]. intros Hid.
  apply not_elem_of_cons in Hid as [Hx Hid]. rewrite same_id_ne by congruence. simpl.
  by rewrite IH.
Qed.

(** Removing the one event with its id. *)
Lemma remove_event l c :
  NoDup (map eid l) → c ∈ l →
  let l' := List.filter (λ x, negb (same_id (eid c) x)) l in
  (Z.of_nat (length l) = Z.of_nat (length l') + 1)%Z ∧
  count_replies l = (count_replies l' + (if is_reply c then 1 else 0))%Z ∧
  (option_map eid (hd_error l) ≠ Some (eid c) → hd_error l' = hd_error l).
Proof.
  cbv zeta. induction l as [|x l IH]; [set_solver|]. cbn [map].
  intros [Hx Hl]%NoDup_cons Hc. cbn [List.filter].
  destruct (decide (eid x = eid c)) as [Hid|Hid].
  - rewrite (same_id_eq _ x Hid). cbn [negb]. assert (x = c) as ->.
    { apply elem_of_cons in Hc as [->|Hc]; [done|]. exfalso. apply Hx. rewrite Hid.
      apply list_elem_of_fmap. eauto. }
    rewrite remove_absent by done. rewrite count_replies_cons. cbn [length hd_error option_map].
    split_and!; [lia|lia|done].
  - rewrite (same_id_ne _ x Hid). cbn [negb]. apply elem_of_cons in Hc as [->|Hc]; [done|].
    destruct (IH Hl Hc) as (H1 & H2 & _). rewrite !count_replies_cons. cbn [length hd_error].
    split_and!; [lia|lia|done].
Qed.

Lemma replace_absent r l : eid r ∉ map eid l → map (replace_event r) l = l.
Proof.
  induction l as [|x l IH]; simpl; [done|]. intros Hid.
  apply not_elem_of_cons in Hid as [Hx Hid]. rewrite replace_event_ne by congruence.
  by rewrite IH.
Qed.

(** Rewriting an event in place: same length, same number of replies when the type
    stays, and the head is the new row exactly when the head had its id. *)
Lemma replace_event_queue l r c :
  NoDup (map eid l) → c ∈ l → eid r = eid c → ie_event_type r = ie_event_type c →
  length (map (replace_event r) l) = length l ∧
  count_replies (map (replace_event r) l) = count_replies l ∧
  (option_map eid (hd_error l) = Some (eid c) → hd_error (map (replace_event r) l) = Some r) ∧
  (option_map eid (hd_error l) ≠ Some (eid c) →
     hd_error (map (replace_event r) l) = hd_error l).
Proof.
  intros Hnd Hc Hid Hty. split_and!.
  - apply length_map.
  - revert Hnd Hc. induction l as [|x l IH]; [done|]. cbn [map]. intros [Hx Hl]%NoDup_cons Hc.
    rewrite !count_replies_cons. destruct (decide (eid x = eid r)) as [Hxr|Hxr].
    + rewrite (replace_event_eq r x Hxr). assert (x = c) as ->.
      { apply elem_of_cons in Hc as [->|Hc]; [done|]. exfalso. apply Hx.
        rewrite Hxr, Hid. apply list_elem_of_fmap. eauto. }
      rewrite replace_absent by (by rewrite Hid). unfold is_reply. by rewrite Hty.
    + rewrite (replace_event_ne r x Hxr). rewrite IH; [done|done|]. apply elem_of_cons in Hc as [->|Hc]; [congruence|done].
  - destruct l as [|x l]; [done|]. simpl. intros [= Hx]. by rewrite replace_event_eq by congruence.
  - destruct l as [|x l]; [done|]. simpl. intros Hx. rewrite replace_event_ne; [done|]. intros E. apply Hx. congruence.
Qed.

Local Open Scope Z_scope.

(** ** Boxes *)

Record box := Box {
  bx_log : list InboundEventRecord;
  bx_lease : option DeliveryLease;
  bx_mailbox : option MailboxRecord;
}.

Definition box_of (s : kstate) (a : string) : box :=
  Box (inbox_of s a) (ks_leases s !! a) (ks_mailboxes s !! a).

(** From [s0] to [s] only the box of [a] changed, to [b]. *)
Definition at_box (a : string) (s0 s : kstate) (b : box) : Prop :=
  box_of s a = b ∧ ∀ a', a' ≠ a → box_of s a' = box_of s0 a'.

Lemma at_box_refl a s : at_box a s s (box_of s a).
Proof. done. Qed.

(** The records of a box are valid and carry the box's name. *)
Record box_ok (a : string) (b : box) : Prop := {
  bo_events : Forall (λ r, valid_inbound r ∧ ie_agent_name r = a) (bx_log b);
  bo_lease : ∀ l, bx_lease b = Some l → valid_lease l ∧ dl_agent_name l = a;
  bo_mailbox : ∀ m, bx_mailbox b = Some m → valid_mailbox m ∧ mb_agent_name m = a;
}.

Definition queue_of (b : box) : list InboundEventRecord := pending_of (bx_log b).

(** The record [m] mirrors the queue [q] and the lease [ls]. *)
Record mirrors (m : MailboxRecord) (q : list InboundEventRecord) (ls : option DeliveryLease)
    : Prop := {
  mi_depth : mb_queue_depth m = Z.of_nat (length q);
  mi_replies : mb_pending_reply_count m = count_replies q;
  mi_head : head_of_mailbox m = summary_head_from_event (hd_error q);
  mi_active : mb_active_inbound_event_id m = active_of_lease ls;
  mi_state : mb_mailbox_state m =
    derive_mailbox_state (opt_truthy (active_of_lease ls)) (Z.of_nat (length q));
  mi_version : ∀ l, ls = Some l → mb_lease_version m = dl_lease_version l;
}.

(** A box in step: a missing summary stands for an empty queue without a lease. *)
Definition synced (b : box) : Prop :=
  match bx_mailbox b with
  | Some m => mirrors m (queue_of b) (bx_lease b)
  | None => queue_of b = [] ∧ bx_lease b = None
  end.

Record box_inv (a : string) (b : box) : Prop := {
  bi_ok : box_ok a b;
  bi_synced : synced b;
}.

Lemma box_inv_empty a : box_inv a (Box [] None None).
Proof. by split; [split|]. Qed.

(** The version of the last lease handed out. *)
Definition lease_mark (b : box) : Z :=
  match bx_lease b with
  | Some l => dl_lease_version l
  | None => match bx_mailbox b with Some m => mb_lease_version m | None => 0 end
  end.

Lemma lease_mark_nonneg a b : box_ok a b → 0 <= lease_mark b.
Proof.
  intros [_ Hl Hm]. unfold lease_mark. destruct b as [log [l|] [m|]]; simpl in *; try lia.
  - by destruct (Hl l eq_refl) as [(_ & _ & ?) _].
  - by destruct (Hl l eq_refl) as [(_ & _ & ?) _].
  - by destruct (Hm m eq_refl) as [(_ & _ & _ & _ & _ & _ & _ & ?) _].
Qed.

Lemma valid_lease_active l : valid_lease l →
  active_of_lease (Some l) = if is_acquired l then Some (dl_inbound_event_id l) else None.
Proof.
  intros (_ & Ht & _). simpl. destruct (is_acquired l); [|done].
  unfold or_none. by rewrite Ht.
Qed.

(** ** Rules for the primitive operations *)

Section rules.
Context (cfg : kconfig) (a : string) (Ha : owner_name a = true).
Implicit Types (s : kstate) (E : exn → kstate → Prop).

Lemma wp_normalize s (Q : string → kstate → Prop) E : Q a s → wp (normalize a) Q E s.
Proof. intros H. unfold normalize. apply wp_lift. by rewrite (normalize_owner_normal a Ha). Qed.

Lemma wp_append r s0 s b Q E :
  at_box a s0 s b → ie_agent_name r = a →
  (∀ s', at_box a s0 s' (Box (bx_log b ++ [r]) (bx_lease b) (bx_mailbox b)) → Q tt s') →
  wp (inbound_append r) Q E s.
Proof.
  intros [<- Hf] Hr HQ. apply wp_mod, HQ. split.
  - unfold box_of, inbox_of. simpl. rewrite Hr. by rewrite lookup_insert_eq.
  - intros a' Ha'. rewrite <-(Hf a' Ha'). unfold box_of, inbox_of. simpl.
    rewrite Hr. by rewrite lookup_insert_ne.
Qed.

Lemma wp_get_latest id s0 s b (Q : option InboundEventRecord → kstate → Prop) E :
  at_box a s0 s b → Q (find_last (has_event_id id) (bx_log b)) s →
  wp (inbound_get_latest a id) Q E s.
Proof. intros [<- _] HQ. by apply wp_get. Qed.

Lemma wp_lease_load s0 s b (Q : option DeliveryLease → kstate → Prop) E :
  at_box a s0 s b → Q (bx_lease b) s → wp (lease_load a) Q E s.
Proof. intros [<- _] HQ. by apply wp_get. Qed.

Lemma wp_mailbox_load s0 s b (Q : option MailboxRecord → kstate → Prop) E :
  at_box a s0 s b → Q (bx_mailbox b) s → wp (mailbox_load a) Q E s.
Proof. intros [<- _] HQ. by apply wp_get. Qed.

Lemma wp_lease_save l s0 s b Q E :
  at_box a s0 s b → dl_agent_name l = a →
  (∀ s', at_box a s0 s' (Box (bx_log b) (Some l) (bx_mailbox b)) → Q tt s') →
  wp (lease_save l) Q E s.
Proof.
  intros [<- Hf] Hr HQ. apply wp_mod, HQ. split.
  - unfold box_of, inbox_of. simpl. rewrite Hr. by rewrite lookup_insert_eq.
  - intros a' Ha'. rewrite <-(Hf a' Ha'). unfold box_of, inbox_of. simpl.
    rewrite Hr. by rewrite lookup_insert_ne.
Qed.

Lemma wp_lease_remove s0 s b Q E :
  at_box a s0 s b →
  (∀ s', at_box a s0 s' (Box (bx_log b) None (bx_mailbox b)) → Q tt s') →
  wp (lease_remove a) Q E s.
Proof.
  intros [<- Hf] HQ. apply wp_mod, HQ. split.
  - unfold box_of, inbox_of. simpl. by rewrite lookup_delete_eq.
  - intros a' Ha'. rewrite <-(Hf a' Ha'). unfold box_of, inbox_of. simpl.
    by rewrite lookup_delete_ne.
Qed.

Lemma wp_mailbox_save m s0 s b Q E :
  at_box a s0 s b → mb_agent_name m = a →
  (∀ s', at_box a s0 s' (Box (bx_log b) (bx_lease b) (Some m)) → Q tt s') →
  wp (mailbox_save m) Q E s.
Proof.
  intros [<- Hf] Hr HQ. apply wp_mod, HQ. split.
  - unfold box_of, inbox_of. simpl. rewrite Hr. by rewrite lookup_insert_eq.
  - intros a' Ha'. rewrite <-(Hf a' Ha'). unfold box_of, inbox_of. simpl.
    rewrite Hr. by rewrite lookup_insert_ne.
Qed.

(** The value [value or service._clock()] takes in [s]. *)
Definition used_ts (value : option string) s : string :=
  if opt_truthy value then str_or value "" else kc_clock cfg (ks_ticks s).

Lemma wp_or_clock value s0 s b (Q : string → kstate → Prop) E :
  at_box a s0 s b → (∀ s', at_box a s0 s' b → Q (used_ts value s) s') →
  wp (or_clock cfg value) Q E s.
Proof.
  intros Hb HQ. unfold or_clock, used_ts in *. destruct (opt_truthy value).
  - apply wp_ret. by apply HQ.
  - unfold wp, clock. apply HQ. destruct Hb as [<- Hf]. split; [done|].
    intros a' Ha'. by rewrite <-(Hf a' Ha').
Qed.

Lemma wp_or_clock_some ts s (Q : string → kstate → Prop) E :
  blank ts = false → Q ts s → wp (or_clock cfg (Some ts)) Q E s.
Proof.
  intros Hts HQ. unfold or_clock. simpl. rewrite (blank_truthy ts Hts). by apply wp_ret.
Qed.

Lemma wp_latest_events s0 s b (Q : list InboundEventRecord → kstate → Prop) E :
  at_box a s0 s b → Q (latest_of (bx_log b)) s → wp (latest_events a) Q E s.
Proof.
  intros [<- _] HQ. unfold latest_events. apply wp_bind, wp_normalize, wp_bind, wp_get, wp_ret.
  done.
Qed.

Lemma wp_pending_events s0 s b (Q : list InboundEventRecord → kstate → Prop) E :
  at_box a s0 s b → Q (queue_of b) s → wp (pending_events a None) Q E s.
Proof.
  intros Hb HQ. unfold pending_events. eapply wp_bind, wp_latest_events, wp_ret; [done|].
  erewrite List.filter_ext; [exact HQ|]. intros r. simpl. by rewrite andb_true_r.
Qed.

Lemma wp_head_pending s0 s b (Q : option InboundEventRecord → kstate → Prop) E :
  at_box a s0 s b → Q (hd_error (queue_of b)) s → wp (head_pending_event a) Q E s.
Proof.
  intros Hb HQ. unfold head_pending_event. by eapply wp_bind, wp_pending_events, wp_ret.
Qed.

(** Saving against the version just read always succeeds. *)
Lemma wp_save_summary m s0 s b (Q : MailboxRecord → kstate → Prop) E :
  at_box a s0 s b → mb_agent_name m = a →
  (∀ s', at_box a s0 s' (Box (bx_log b) (bx_lease b) (Some m)) → Q m s') →
  wp (save_summary_record m (option_map mb_summary_version (bx_mailbox b))) Q E s.
Proof.
  intros Hb Hm HQ. unfold save_summary_record, compare_and_save. rewrite Hm.
  eapply wp_bind, wp_bind, wp_mailbox_load; [done|]. rewrite decide_False by tauto.
  eapply wp_bind, wp_mailbox_save; [done..|]. intros s' Hs'. apply wp_ret, wp_ret. eauto.
Qed.
End rules.

(** ** Summary records *)

Lemma summary_version_nonneg p qd prc act h ls lf st lv :
  (∀ m, p = Some m → valid_mailbox m) →
  0 <= summary_version_for_record p qd prc act h ls lf st lv.
Proof.
  intros Hp. destruct p as [m|]; simpl; [|lia].
  destruct (Hp m eq_refl) as (_ & _ & ? & _). case_match; lia.
Qed.

Lemma summary_record_valid a b qd prc act ls lf ts src h :
  owner_name a = true → box_ok a b → 0 <= qd → 0 <= prc → blank ts = false → blank src = false →
  valid_mailbox (summary_record a (bx_mailbox b) (bx_lease b) qd prc act ls lf ts src h).
Proof.
  intros Ha Hb ? ? ? ?. pose proof (lease_mark_nonneg a b Hb) as Hlm. destruct Hb as [_ Hl Hm].
  unfold valid_mailbox. simpl. split_and!; try done.
  - destruct (bx_mailbox b) as [m|]; [|done]. by destruct (Hm m eq_refl) as [[? _] _].
  - apply summary_version_nonneg. intros m E. by destruct (Hm m E).
Qed.

(** A record built from the queue and the lease of a box mirrors them. *)
Lemma summary_record_mirrors a mb ls q prc act st fi ts src h :
  (∀ l, ls = Some l → valid_lease l) →
  prc = count_replies q → act = active_of_lease ls → h = summary_head_from_event (hd_error q) →
  mirrors (summary_record a mb ls (Z.of_nat (length q)) prc act st fi ts src h) q ls.
Proof.
  intros Hl -> -> ->. split; try done.
  - simpl. by destruct (hd_error q).
  - cbn [summary_record mb_mailbox_state]. f_equal. destruct ls as [l|]; [|done].
    rewrite valid_lease_active by auto. destruct (Hl l eq_refl) as (_ & Ht & _).
    destruct (is_acquired l); simpl; by rewrite ?Ht.
  - by intros l ->.
Qed.

Section summaries.
Context (cfg : kconfig) (a : string) (Ha : owner_name a = true).
Implicit Types (s : kstate) (E : exn → kstate → Prop).

Lemma wp_build_summary qd prc act st fi ts src h s0 s b (Q : MailboxRecord → kstate → Prop) E :
  at_box a s0 s b → box_ok a b → 0 <= qd → 0 <= prc → blank ts = false → blank src = false →
  Q (summary_record a (bx_mailbox b) (bx_lease b) qd prc act st fi ts src
       match h with Some h => h | None => summary_head_from_event (hd_error (queue_of b)) end) s →
  wp (build_mailbox_summary_record a (bx_mailbox b) (bx_lease b) qd prc act st fi ts src h) Q E s.
Proof.
  intros Hb Hok ? ? ? ? HQ. unfold build_mailbox_summary_record. apply wp_bind. destruct h as [h|].
  - apply wp_ret, wp_lift. rewrite normalize_mailbox_valid; [done|].
    by apply summary_record_valid.
  - unfold resolve_summary_head. eapply wp_bind, wp_head_pending, wp_ret, wp_lift; [done..|].
    rewrite normalize_mailbox_valid; [done|]. by apply summary_record_valid.
Qed.

Lemma wp_transition qd prc act st fi ts src h s0 s b (Q : MailboxRecord → kstate → Prop) E :
  at_box a s0 s b → box_ok a b → 0 <= qd → 0 <= prc → blank ts = false → blank src = false →
  (∀ s' m, m = summary_record a (bx_mailbox b) (bx_lease b) qd prc act st fi ts src h →
     at_box a s0 s' (Box (bx_log b) (bx_lease b) (Some m)) → Q m s') →
  wp (apply_transition_summary_update cfg a qd prc act st fi (Some ts) src (Some h)) Q E s.
Proof.
  intros Hb Hok ? ? ? ? HQ. unfold apply_transition_summary_update.
  apply wp_bind, wp_normalize; [done|]. apply wp_bind, wp_or_clock_some; [done|].
  eapply wp_bind, wp_mailbox_load; [done|]. eapply wp_bind, wp_lease_load; [done|].
  rewrite !Z.max_r by done.
  eapply wp_bind, wp_build_summary; [done..|]. eapply wp_save_summary; [done..|]. eauto.
Qed.

Lemma wp_incremental dq dr act st fi ts s0 s b qd prc (Q : MailboxRecord → kstate → Prop) E :
  at_box a s0 s b → box_ok a b → blank ts = false →
  qd = Z.max 0 (match bx_mailbox b with Some p => mb_queue_depth p | None => 0 end + dq) →
  prc = Z.max 0 (match bx_mailbox b with Some p => mb_pending_reply_count p | None => 0 end + dr) →
  (∀ s' m st' fi', m = summary_record a (bx_mailbox b) (bx_lease b) qd prc
        match act with
        | Some x => x
        | None => match bx_mailbox b with Some p => mb_active_inbound_event_id p | None => None end
        end st' fi' ts "incremental-upsert" (summary_head_from_event (hd_error (queue_of b))) →
     at_box a s0 s' (Box (bx_log b) (bx_lease b) (Some m)) → Q m s') →
  wp (apply_incremental_summary_update cfg a dq dr act st fi (Some ts)) Q E s.
Proof.
  intros Hb Hok ? Hqd Hprc HQ. unfold apply_incremental_summary_update.
  apply wp_bind, wp_normalize; [done|]. apply wp_bind, wp_or_clock_some; [done|].
  eapply wp_bind, wp_mailbox_load; [done|]. eapply wp_bind, wp_lease_load; [done|].
  rewrite <-Hqd, <-Hprc.
  eapply wp_bind, wp_build_summary; [done|done|lia|lia|done..|].
  eapply wp_save_summary; [done..|]. eauto.
Qed.

(** A rebuild brings any box of valid records in step, whatever its summary said. *)
Lemma wp_rebuild ts s0 s b (Q : MailboxRecord → kstate → Prop) E :
  at_box a s0 s b → box_ok a b → blank ts = false →
  (∀ s' m, at_box a s0 s' (Box (bx_log b) (bx_lease b) (Some m)) →
     box_inv a (Box (bx_log b) (bx_lease b) (Some m)) →
     lease_mark (Box (bx_log b) (bx_lease b) (Some m)) = lease_mark b → Q m s') →
  wp (rebuild_mailbox_summary cfg a (Some ts)) Q E s.
Proof.
  intros Hb Hok Hts HQ. unfold rebuild_mailbox_summary, project_mailbox_summary.
  apply wp_bind, wp_normalize; [done|]. eapply wp_bind, wp_mailbox_load; [done|].
  apply wp_bind, wp_bind, wp_normalize; [done|]. apply wp_bind, wp_or_clock_some; [done|].
  apply wp_bind, wp_ret. eapply wp_bind, wp_lease_load; [done|].
  eapply wp_bind, wp_pending_events; [done..|].
  apply wp_bind. unfold latest_activity. eapply wp_bind, wp_latest_events; [done..|]. apply wp_ret.
  pose proof (count_replies_nonneg (queue_of b)).
  eapply wp_build_summary; [done|done|lia|done|done|done|].
  eapply wp_save_summary; [done..|]. intros s' Hs'. apply HQ; [done| |].
  - split.
    + destruct Hok as [Hev Hl Hm]. split; simpl; [done|done|]. intros m [= <-]. split; [|done].
      apply (summary_record_valid a b); [done|split; done|lia|done..].
    + unfold synced. simpl. apply summary_record_mirrors; try done.
      intros l Hl. by apply (bo_lease a b).
  - unfold lease_mark. simpl. by destruct (bx_lease b).
Qed.
End summaries.
