(* ===== verification/MailboxOps.v ===== *)
(** The operations of the mailbox kernel on a box in step: each ends normally, appends
    exactly the rows it should, moves the lease as it should, touches one agent only, and
    leaves the box in step.  The rules have the form of [wp]; the properties built from
    them are in [MailboxSpec] and [MailboxProps]. *)

From Stdlib Require Import ZArith Lia.
From stdpp Require Import base list sets gmap strings.
From S2P Require Import Prelude PyData Names Timestamps Storage MailboxModels MailboxKernel MailboxInvariant.

Local Open Scope Z_scope.

(** The lease left by [release_matching_lease]. *)
Definition released (id : string) (ls : option DeliveryLease) : option DeliveryLease :=
  match ls with
  | Some l => if is_acquired l && String.eqb (dl_inbound_event_id l) id then None else Some l
  | None => None
  end.

(** The rows the transitions append. *)
Definition terminal_row (c : InboundEventRecord) (st : InboundEventStatus) (ts : string) :=
  ie_replace c (ie_payload_ref c) st (ie_started_at c) (Some ts).

Definition delivering_row (c : InboundEventRecord) (ts : string) :=
  ie_replace c (ie_payload_ref c) IE_DELIVERING (Some (str_or (ie_started_at c) ts)) None.

Definition rewritten_row (c : InboundEventRecord) (payload : option string)
    (st : InboundEventStatus) (clear : bool) :=
  ie_replace c payload st (if clear then None else ie_started_at c)
    (if clear then None else ie_finished_at c).

Lemma ie_replace_valid c p st sa fa a :
  valid_inbound c ∧ ie_agent_name c = a →
  valid_inbound (ie_replace c p st sa fa) ∧ ie_agent_name (ie_replace c p st sa fa) = a.
Proof. done. Qed.

(** What an operation that ends the lease of [id] needs of the summary: it mirrors the
    box, save perhaps that it still shows [id] as active. *)
Definition in_step (id : string) (b : box) : Prop :=
  match bx_mailbox b with
  | None => bx_lease b = None
  | Some m =>
      mb_queue_depth m = Z.of_nat (length (queue_of b)) ∧
      mb_pending_reply_count m = count_replies (queue_of b) ∧
      head_of_mailbox m = summary_head_from_event (hd_error (queue_of b)) ∧
      (if bool_decide (mb_active_inbound_event_id m = Some id) then None
       else mb_active_inbound_event_id m) = active_of_lease (released id (bx_lease b)) ∧
      (∀ l, bx_lease b = Some l → mb_lease_version m = dl_lease_version l)
  end.

Lemma released_ok id a b l mb :
  box_ok a b → bx_log b = l → bx_mailbox b = mb → box_ok a (Box l (released id (bx_lease b)) mb).
Proof.
  intros [He Hl Hm] <- <-. split; simpl; [done| |done]. intros x Hx. apply Hl.
  unfold released in Hx. destruct (bx_lease b); [|done]. by case_match.
Qed.

Lemma append_ok a b r ls :
  box_ok a b → valid_inbound r ∧ ie_agent_name r = a →
  (∀ l, ls = Some l → valid_lease l ∧ dl_agent_name l = a) →
  box_ok a (Box (bx_log b ++ [r]) ls (bx_mailbox b)).
Proof.
  intros [He Hl Hm] Hr Hls. split; simpl; [|done|done].
  apply Forall_app. split; [done|]. by apply Forall_singleton.
Qed.

Lemma released_keeps id a b :
  box_ok a b → ∀ l, released id (bx_lease b) = Some l → valid_lease l ∧ dl_agent_name l = a.
Proof.
  intros [_ Hl _] l. unfold released. destruct (bx_lease b) as [x|]; [|done].
  case_match; [done|]. intros [= <-]. by apply Hl.
Qed.

Lemma released_mark id b l' :
  in_step id b → lease_mark (Box l' (released id (bx_lease b)) (bx_mailbox b)) = lease_mark b.
Proof.
  unfold in_step, lease_mark, released. destruct b as [log [l|] [m|]]; simpl; try done.
  intros (_ & _ & _ & _ & Hv). specialize (Hv l eq_refl). by destruct (is_acquired l && String.eqb _ _).
Qed.

Lemma synced_in_step id a b : box_inv a b → in_step id b.
Proof.
  intros [Hok Hs]. unfold in_step, synced in *. destruct (bx_mailbox b) as [m|]; [|by destruct Hs].
  destruct Hs as [Hd Hr Hh Hact _ Hv]. split_and!; try done. rewrite Hact.
  pose proof (bo_lease _ _ Hok) as Hl. destruct (bx_lease b) as [l|]; [|done].
  destruct (Hl l eq_refl) as [Hval _]. cbn [released].
  rewrite (valid_lease_active l Hval). destruct (is_acquired l) eqn:Hacq; cbn [andb].
  - destruct (String.eqb_spec (dl_inbound_event_id l) id) as [->|Hne].
    + by rewrite bool_decide_true.
    + rewrite bool_decide_false by congruence. by rewrite (valid_lease_active l Hval), Hacq.
  - by rewrite (valid_lease_active l Hval), Hacq.
Qed.

(** Leaving a box in step with a summary just written. *)
Lemma transition_inv a b q prc act st fi ts src h :
  owner_name a = true → box_ok a b → blank ts = false → blank src = false →
  q = queue_of b → prc = count_replies q → act = active_of_lease (bx_lease b) →
  h = summary_head_from_event (hd_error q) →
  box_inv a (Box (bx_log b) (bx_lease b)
    (Some (summary_record a (bx_mailbox b) (bx_lease b) (Z.of_nat (length q)) prc act st fi ts src h))).
Proof.
  intros Ha Hok Hts Hsrc -> -> -> ->. pose proof (count_replies_nonneg (queue_of b)). split.
  - split; simpl; [apply Hok|apply Hok|]. intros m [= <-]. split; [|done].
    apply (summary_record_valid a b); [done|done|lia|done..].
  - unfold synced. simpl. apply summary_record_mirrors; try done.
    intros l Hl. by apply (bo_lease a b).
Qed.

Lemma summary_record_mark a mb ls l qd prc act st fi ts src h :
  lease_mark (Box l ls (Some (summary_record a mb ls qd prc act st fi ts src h)))
    = lease_mark (Box l ls mb).
Proof. unfold lease_mark. simpl. by destruct ls. Qed.

Lemma head_of_mailbox_id m r :
  head_of_mailbox m = summary_head_from_event r →
  mb_head_inbound_event_id m = option_map eid r.
Proof. intros H. apply (f_equal sh_inbound_event_id) in H. simpl in H. by destruct r. Qed.

Section ops.
Context (cfg : kconfig) (a : string) (Ha : owner_name a = true) (E : exn → kstate → Prop).
Implicit Types (s : kstate).

Lemma wp_release id s0 s b (Q : unit → kstate → Prop) :
  at_box a s0 s b →
  (∀ s', at_box a s0 s' (Box (bx_log b) (released id (bx_lease b)) (bx_mailbox b)) → Q tt s') →
  wp (release_matching_lease a id) Q E s.
Proof.
  intros Hb HQ. unfold release_matching_lease. eapply wp_bind, wp_lease_load; [done|].
  unfold released in HQ. assert (b = Box (bx_log b) (bx_lease b) (bx_mailbox b)) as Eb by (by destruct b).
  destruct (bx_lease b) as [l|] eqn:El.
  - destruct (_ && _); [by eapply wp_lease_remove|]. apply wp_ret, HQ. by rewrite <-Eb.
  - apply wp_ret, HQ. by rewrite <-Eb.
Qed.

Lemma wp_refresh {A} (v : option A) ts s0 s b (Q : option A → kstate → Prop) :
  at_box a s0 s b → box_ok a b → blank ts = false →
  (∀ s' m, at_box a s0 s' (Box (bx_log b) (bx_lease b) (Some m)) →
     box_inv a (Box (bx_log b) (bx_lease b) (Some m)) →
     lease_mark (Box (bx_log b) (bx_lease b) (Some m)) = lease_mark b → Q v s') →
  wp (do* rebuild_mailbox_summary cfg a (Some ts) in mret' v) Q E s.
Proof.
  intros Hb Hok Hts HQ. eapply wp_bind, wp_rebuild; [done..|]. intros s' m H1 H2 H3.
  apply wp_ret. eauto.
Qed.

(** A transition computed from the box leaves it in step. *)
Lemma wp_transition_inv qd prc act st fi ts src h s0 s b (Q : MailboxRecord → kstate → Prop) :
  at_box a s0 s b → box_ok a b → blank ts = false → blank src = false →
  qd = Z.of_nat (length (queue_of b)) → prc = count_replies (queue_of b) →
  act = active_of_lease (bx_lease b) → h = summary_head_from_event (hd_error (queue_of b)) →
  (∀ s' m, at_box a s0 s' (Box (bx_log b) (bx_lease b) (Some m)) →
     box_inv a (Box (bx_log b) (bx_lease b) (Some m)) →
     lease_mark (Box (bx_log b) (bx_lease b) (Some m)) = lease_mark b → Q m s') →
  wp (apply_transition_summary_update cfg a qd prc act st fi (Some ts) src (Some h)) Q E s.
Proof.
  intros Hb Hok ? ? -> -> -> -> HQ.
  eapply wp_transition; [done|done|done|lia|apply count_replies_nonneg|done|done|].
  intros s' m Em Hs'. apply (HQ s' m Hs'); rewrite Em.
  - by apply transition_inv.
  - by rewrite summary_record_mark.
Qed.

(** *** [mark_terminal] *)

(** The box between the release of the lease and the summary update. *)
Lemma terminal_box id st ts b c :
  box_ok a b → is_terminal st = true →
  find_last (has_event_id id) (bx_log b) = Some c → is_pending c = true →
  let u := terminal_row c st ts in
  let b1 := Box (bx_log b ++ [u]) (released id (bx_lease b)) (bx_mailbox b) in
  eid c = id ∧ (valid_inbound u ∧ ie_agent_name u = a) ∧ box_ok a b1 ∧
  Z.of_nat (length (queue_of b)) = Z.of_nat (length (queue_of b1)) + 1 ∧
  count_replies (queue_of b) = count_replies (queue_of b1) + (if is_reply c then 1 else 0) ∧
  (option_map eid (hd_error (queue_of b)) ≠ Some id →
   hd_error (queue_of b1) = hd_error (queue_of b)).
Proof.
  intros Hok Hst Hc Hp u b1. pose proof (find_last_id _ _ _ Hc) as Hid.
  assert (valid_inbound u ∧ ie_agent_name u = a) as Hvu.
  { apply ie_replace_valid. apply find_last_Some in Hc as [Hin _].
    pose proof (bo_events _ _ Hok) as Hev. rewrite Forall_forall in Hev. by apply Hev. }
  assert (queue_of b1 = List.filter (λ x, negb (same_id id x)) (queue_of b)) as Hq1.
  { assert (is_pending u = false) as Hup by (unfold is_pending; simpl; by rewrite Hst).
    unfold queue_of. cbn [bx_log b1].
    rewrite (pending_of_known _ u c), Hup; [|by simpl; rewrite Hid|done].
    change (eid u) with (eid c). by rewrite Hid. }
  assert (c ∈ queue_of b) as Hin by (apply elem_of_pending; by rewrite Hid).
  pose proof (remove_event (queue_of b) c (pending_of_nodup _) Hin) as Hrem.
  rewrite Hid in Hrem. cbv zeta in Hrem. rewrite <-Hq1 in Hrem.
  split_and!; try apply Hrem; [done|apply Hvu|apply Hvu|].
  apply append_ok; [done|done|by apply released_keeps].
Qed.

Lemma wp_mark_terminal id st fin ts s0 s b c (Q : option InboundEventRecord → kstate → Prop) :
  at_box a s0 s b → box_ok a b → in_step id b → used_ts cfg fin s = ts → blank ts = false →
  is_terminal st = true →
  find_last (has_event_id id) (bx_log b) = Some c → is_pending c = true →
  (∀ s' m,
     let b' := Box (bx_log b ++ [terminal_row c st ts]) (released id (bx_lease b)) (Some m) in
     at_box a s0 s' b' → box_inv a b' → lease_mark b' = lease_mark b →
     Q (Some (terminal_row c st ts)) s') →
  wp (mark_terminal cfg a id st fin) Q E s.
Proof.
  intros Hb0 Hok Hstep Hu Hts Hst Hc Hp HQ.
  destruct (terminal_box id st ts b c Hok Hst Hc Hp) as (Hid & Hvu & Hok1 & Hlen & Hcnt & Hhd).
  pose proof (released_mark id b (bx_log b ++ [terminal_row c st ts]) Hstep) as Hmark.
  unfold mark_terminal. apply wp_bind, wp_normalize; [done|].
  eapply wp_bind, wp_or_clock; [done|]. intros s' Hb. rewrite Hu.
  eapply wp_bind, wp_get_latest; [done|]. rewrite Hc. unfold is_pending in Hp. apply negb_true_iff in Hp. rewrite Hp.
  apply wp_bind, wp_lift.
  change (ie_replace c (ie_payload_ref c) st (ie_started_at c) (Some ts)) with (terminal_row c st ts).
  set (u := terminal_row c st ts) in *. rewrite (normalize_inbound_valid u) by apply Hvu.
  eapply wp_bind, wp_append; [done|apply Hvu|]. intros s1 Hs1.
  eapply wp_bind, wp_release; [done|]. intros s2 Hs2. cbn [bx_log bx_lease bx_mailbox] in Hs2.
  set (b1 := Box (bx_log b ++ [u]) (released id (bx_lease b)) (bx_mailbox b)) in *.
  eapply wp_bind, wp_mailbox_load; [done|].
  assert (∀ s' m, at_box a s0 s' (Box (bx_log b1) (bx_lease b1) (Some m)) →
     box_inv a (Box (bx_log b1) (bx_lease b1) (Some m)) →
     lease_mark (Box (bx_log b1) (bx_lease b1) (Some m)) = lease_mark b1 → Q (Some u) s') as HQ'.
  { intros s3 m H1 H2 H3. eapply HQ; [done..|]. by etrans. }
  cbn [bx_mailbox b1]. unfold in_step in Hstep. destruct (bx_mailbox b) as [p|] eqn:Emb;
    [|by eapply wp_refresh].
  destruct Hstep as (Hd & Hr & Hh & Hact & Hv).
  destruct (mb_queue_depth p <=? 0) eqn:Hpos; [by eapply wp_refresh|].
  pose proof (count_replies_nonneg (queue_of b1)).
  assert (Z.max 0 (mb_queue_depth p - 1) = Z.of_nat (length (queue_of b1))) as -> by lia.
  assert (Z.max 0 (mb_pending_reply_count p - (if is_reply c then 1 else 0))
    = count_replies (queue_of b1)) as -> by lia.
  rewrite Hid, Hact, (head_of_mailbox_id _ _ Hh). clear Hact.
  case_bool_decide as Hhead.
  - destruct (Z.eqb_spec (Z.of_nat (length (queue_of b1))) 0) as [H0|H0].
    { eapply wp_bind, wp_transition_inv; try done.
      destruct (queue_of b1); [done|]. simpl in H0. lia. }
    destruct (Z.of_nat (length (queue_of b1)) =? 1); (eapply wp_bind, wp_head_pending; [done..|]).
    + eapply wp_bind, wp_transition_inv; done.
    + destruct (hd_error (queue_of b1)) eqn:Eh; [|by eapply wp_refresh].
      eapply wp_bind, wp_transition_inv; try done. by rewrite Eh.
  - eapply wp_bind, wp_transition_inv; try done. rewrite Hh, Hhd; done.
Qed.
(** Ending an event that is unknown or already ended only refreshes the summary. *)
Lemma wp_mark_terminal_absent id st fin ts s0 s b (Q : option InboundEventRecord → kstate → Prop) :
  at_box a s0 s b → box_ok a b → used_ts cfg fin s = ts → blank ts = false →
  (∀ c, find_last (has_event_id id) (bx_log b) = Some c → is_pending c = false) →
  (∀ s' m, let b' := Box (bx_log b) (bx_lease b) (Some m) in
     at_box a s0 s' b' → box_inv a b' → lease_mark b' = lease_mark b →
     Q (find_last (has_event_id id) (bx_log b)) s') →
  wp (mark_terminal cfg a id st fin) Q E s.
Proof.
  intros Hb0 Hok Hu Hts Hc HQ. unfold mark_terminal. apply wp_bind, wp_normalize; [done|].
  eapply wp_bind, wp_or_clock; [done|]. intros s' Hb. rewrite Hu.
  eapply wp_bind, wp_get_latest; [done|]. destruct (find_last _ _) as [c|].
  - specialize (Hc c eq_refl). unfold is_pending in Hc. apply negb_false_iff in Hc.
    rewrite Hc. by eapply wp_refresh.
  - by eapply wp_refresh.
Qed.

(** *** [claim] *)

Definition new_lease id ts expires b : DeliveryLease :=
  MkDeliveryLease a id (lease_mark b + 1) ts (Some ts) expires ACQUIRED.

Lemma wp_delivery_lease id ts expires s0 s b (Q : DeliveryLease → kstate → Prop) :
  at_box a s0 s b → box_ok a b → truthy id = true → lease_expires_at_value cfg ts = Ok expires →
  Q (new_lease id ts expires b) s → wp (delivery_lease cfg a id ts) Q E s.
Proof.
  intros Hb Hok Hid He HQ. pose proof (lease_mark_nonneg a b Hok) as Hn.
  assert (valid_lease (new_lease id ts expires b)) as Hv by (split_and!; simpl; [done..|lia]).
  unfold delivery_lease. apply wp_bind. unfold next_lease_version.
  apply wp_bind, wp_normalize; [done|]. eapply wp_bind, wp_lease_load; [done|].
  assert (wp (let* expires_at := mlift (lease_expires_at_value cfg ts) in
    mlift (normalize_delivery_lease (MkDeliveryLease a id (lease_mark b + 1) ts (Some ts)
      expires_at ACQUIRED))) Q E s) as Hrest.
  { apply wp_bind, wp_lift. rewrite He. apply wp_lift.
    change (MkDeliveryLease _ _ _ _ _ _ _) with (new_lease id ts expires b).
    by rewrite (normalize_lease_valid _ Hv). }
  unfold lease_mark in Hrest. destruct (bx_lease b); [by apply wp_ret|].
  eapply wp_bind, wp_mailbox_load; [done|]. destruct (bx_mailbox b); by apply wp_ret.
Qed.

(** Rewriting a pending event: the queue keeps its length and its replies, and the head
    is the new row when the event was the head. *)
Lemma pending_rewrite id b c u ls :
  box_ok a b → find_last (has_event_id id) (bx_log b) = Some c → is_pending c = true →
  is_pending u = true → eid u = eid c → ie_event_type u = ie_event_type c →
  let b1 := Box (bx_log b ++ [u]) ls (bx_mailbox b) in
  length (queue_of b1) = length (queue_of b) ∧
  count_replies (queue_of b1) = count_replies (queue_of b) ∧
  (option_map eid (hd_error (queue_of b)) = Some id → hd_error (queue_of b1) = Some u) ∧
  (option_map eid (hd_error (queue_of b)) ≠ Some id →
     hd_error (queue_of b1) = hd_error (queue_of b)).
Proof.
  intros Hok Hc Hp Hpu Hidu Hty b1. pose proof (find_last_id _ _ _ Hc) as Hid.
  assert (queue_of b1 = map (replace_event u) (queue_of b)) as ->.
  { unfold queue_of. cbn [bx_log b1]. by rewrite (pending_of_known _ u c), Hpu; rewrite ?Hidu, ?Hid. }
  rewrite <-Hid. apply replace_event_queue; [apply pending_of_nodup| |done|done].
  apply elem_of_pending. by rewrite Hid.
Qed.

Lemma wp_claim_current c ts expires s0 s b (Q : option InboundEventRecord → kstate → Prop) :
  at_box a s0 s b → box_inv a b → blank ts = false →
  lease_expires_at_value cfg ts = Ok expires →
  hd_error (queue_of b) = Some c →
  (∀ s' m,
     let b' := Box (bx_log b ++ [delivering_row c ts]) (Some (new_lease (eid c) ts expires b))
                 (Some m) in
     at_box a s0 s' b' → box_inv a b' → lease_mark b' = lease_mark b + 1 →
     Q (Some (delivering_row c ts)) s') →
  wp (claim_current cfg a c ts) Q E s.
Proof.
  intros Hb [Hok Hsync] Hts Hexp Hhd HQ. set (u := delivering_row c ts) in *.
  assert (c ∈ queue_of b) as Hin by (destruct (queue_of b); simplify_eq/=; by left).
  apply elem_of_pending in Hin as [Hc Hp].
  assert (valid_inbound u ∧ ie_agent_name u = a) as Hvu.
  { apply ie_replace_valid. apply find_last_Some in Hc as [Hin _].
    pose proof (bo_events _ _ Hok) as Hev. rewrite Forall_forall in Hev. by apply Hev. }
  destruct (pending_rewrite (eid c) b c u (Some (new_lease (eid c) ts expires b)))
    as (Hlen & Hcnt & Hh & _); [done..|]. specialize (Hh ltac:(by rewrite Hhd)).
  assert (valid_lease (new_lease (eid c) ts expires b)) as Hvl.
  { pose proof (lease_mark_nonneg a b Hok). split_and!; simpl; [done|apply Hvu|lia]. }
  set (l := new_lease (eid c) ts expires b) in *.
  set (b2 := Box (bx_log b ++ [u]) (Some l) (bx_mailbox b)) in *.
  assert (box_ok a b2) as Hok2 by (apply append_ok; [done|done|by intros ? [= <-]]).
  unfold claim_current. apply wp_bind, wp_lift. unfold delivery_record.
  change (ie_replace c _ _ _ _) with u. rewrite (normalize_inbound_valid u) by apply Hvu.
  eapply wp_bind, wp_append; [done|apply Hvu|]. intros s1 Hs1.
  eapply wp_bind, wp_delivery_lease; [done| |apply Hvu|done|].
  { apply append_ok; [done|done|apply Hok]. }
  change (new_lease _ _ _ _) with l.
  eapply wp_bind, wp_lease_save; [done|done|]. intros s2 Hs2. cbn [bx_log bx_mailbox] in Hs2.
  fold b2 in Hs2. eapply wp_bind, wp_mailbox_load; [done|].
  assert (∀ s' m, at_box a s0 s' (Box (bx_log b2) (bx_lease b2) (Some m)) →
     box_inv a (Box (bx_log b2) (bx_lease b2) (Some m)) → Q (Some u) s') as HQ'.
  { intros s' m H1 H2. apply (HQ s' m H1 H2). done. }
  cbn [bx_mailbox b2]. unfold synced in Hsync. destruct (bx_mailbox b) as [p|] eqn:Emb;
    [|eapply wp_refresh; naive_solver].
  case_match; [eapply wp_refresh; naive_solver|].
  eapply wp_bind, wp_transition_inv; try done.
  - rewrite Hlen. apply Hsync.
  - rewrite Hcnt. apply Hsync.
  - cbn [bx_lease b2]. rewrite (valid_lease_active l Hvl). done.
  - by rewrite Hh.
Qed.
End ops.
