(* ===== verification/MailboxSpec.v ===== *)
(** The contract of the mailbox kernel.  A mailbox is a log of rows, a lease and the
    version of the last lease; there is no summary record.  Every operation of
    [MailboxKernel] refines its function here: it ends without an exception, returns what
    the function returns, moves one agent's stores as the function says, touches no other
    agent, and leaves the stored summary mirroring the result. *)

From Stdlib Require Import ZArith Lia.
From stdpp Require Import base list sets gmap strings.
From S2P Require Import Prelude PyData Names Timestamps Storage MailboxModels MailboxKernel MailboxInvariant MailboxOps.

Local Open Scope Z_scope.

Record mailbox := Mailbox {
  q_log : list InboundEventRecord;
  q_lease : option DeliveryLease;
  q_mark : Z;
}.

Definition q_pending (q : mailbox) : list InboundEventRecord := pending_of (q_log q).
Definition q_head (q : mailbox) : option InboundEventRecord := hd_error (q_pending q).
Definition q_latest (id : string) (q : mailbox) : option InboundEventRecord :=
  find_last (has_event_id id) (q_log q).

(** The mailbox a box stores. *)
Definition abstract (b : box) : mailbox := Mailbox (bx_log b) (bx_lease b) (lease_mark b).

Definition spec_enqueue (r : InboundEventRecord) (q : mailbox) : mailbox :=
  Mailbox (q_log q ++ [r]) (q_lease q) (q_mark q).

Definition spec_end (id : string) (st : InboundEventStatus) (ts : string) (q : mailbox)
    : option InboundEventRecord * mailbox :=
  match q_latest id q with
  | Some c =>
      if is_pending c
      then (Some (terminal_row c st ts),
            Mailbox (q_log q ++ [terminal_row c st ts]) (released id (q_lease q)) (q_mark q))
      else (Some c, q)
  | None => (None, q)
  end.

Definition lease_held_by_other (id : string) (q : mailbox) : bool :=
  match q_lease q with
  | Some l => is_acquired l && negb (String.eqb (dl_inbound_event_id l) id)
  | None => false
  end.

Definition is_head (id : string) (q : mailbox) : bool :=
  match q_head q with Some h => String.eqb (eid h) id | None => false end.

Definition spec_claim (a id ts : string) (expires : option string) (q : mailbox)
    : option InboundEventRecord * mailbox :=
  match q_latest id q with
  | Some c =>
      if negb (is_pending c) then (None, q)
      else if lease_held_by_other id q then (None, q)
      else if bool_decide (ie_status c = IE_DELIVERING) then (Some c, q)
      else if negb (is_claimable (ie_status c) && is_head id q) then (None, q)
      else
        let lease := MkDeliveryLease a id (q_mark q + 1) ts (Some ts) expires ACQUIRED in
        (Some (delivering_row c ts),
         Mailbox (q_log q ++ [delivering_row c ts]) (Some lease) (q_mark q + 1))
  | None => (None, q)
  end.

Definition spec_claim_next (a ts : string) (expires : option string)
    (event_type : option InboundEventType) (q : mailbox) : option InboundEventRecord * mailbox :=
  match q_head q with
  | Some h =>
      if type_matches event_type h && is_claimable (ie_status h)
      then spec_claim a (eid h) ts expires q else (None, q)
  | None => (None, q)
  end.

Definition spec_rewrite (id : string) (payload : option string) (st : InboundEventStatus)
    (clear : bool) (q : mailbox) : option InboundEventRecord * mailbox :=
  match q_latest id q with
  | Some c =>
      if is_pending c
      then (Some (rewritten_row c payload st clear),
            Mailbox (q_log q ++ [rewritten_row c payload st clear]) (released id (q_lease q))
              (q_mark q))
      else (None, q)
  | None => (None, q)
  end.

Definition spec_ack (a id ts_claim ts_end : string) (expires : option string) (q : mailbox)
    : option InboundEventRecord * mailbox :=
  if negb (head_matches_reply (q_head q) id) then (None, q)
  else
    match q_head q with
    | Some h =>
        if bool_decide (ie_status h = IE_DELIVERING) then spec_end id IE_CONSUMED ts_end q
        else
          match spec_claim a id ts_claim expires q with
          | (Some _, q') => spec_end id IE_CONSUMED ts_end q'
          | (None, q') => (None, q')
          end
    | None => (None, q)
    end.

Definition expired_lease (l : DeliveryLease) : DeliveryLease :=
  MkDeliveryLease (dl_agent_name l) (dl_inbound_event_id l) (dl_lease_version l)
    (dl_acquired_at l) (dl_last_progress_at l) (dl_expires_at l) EXPIRED.

Definition spec_expire (ts : string) (q : mailbox) : option InboundEventRecord * mailbox :=
  match q_lease q with
  | Some l =>
      if negb (is_acquired l) then (None, q)
      else
        match q_latest (dl_inbound_event_id l) q with
        | Some c =>
            if is_pending c
            then spec_end (dl_inbound_event_id l) IE_ABANDONED ts
                   (Mailbox (q_log q) (Some (expired_lease l)) (q_mark q))
            else (None, Mailbox (q_log q) None (q_mark q))
        | None => (None, Mailbox (q_log q) None (q_mark q))
        end
  | None => (None, q)
  end.

(** [refines a m f s]: run in [s], [m] does to the mailbox of [a] what [f] says. *)
Definition refines {A} (a : string) (m : M kstate A) (f : mailbox → A * mailbox) (s : kstate)
    : Prop :=
  wp m (λ v s', ∃ b', at_box a s s' b' ∧ box_inv a b' ∧ f (abstract (box_of s a)) = (v, abstract b'))
    (λ _ _, False) s.

Section refinement.
Context (cfg : kconfig) (a : string) (Ha : owner_name a = true).
Implicit Types (s : kstate).

Lemma abstract_refreshed b m :
  lease_mark (Box (bx_log b) (bx_lease b) (Some m)) = lease_mark b →
  abstract (Box (bx_log b) (bx_lease b) (Some m)) = abstract b.
Proof. unfold abstract. by intros ->. Qed.

(** A refresh changes nothing of the mailbox. *)
Lemma refresh_refines {A} (f : mailbox → option A * mailbox) (v : option A) ts s s1 b :
  at_box a s s1 b → box_ok a b → blank ts = false →
  f (abstract (box_of s a)) = (v, abstract b) →
  wp (do* rebuild_mailbox_summary cfg a (Some ts) in mret' v)
    (λ v s', ∃ b', at_box a s s' b' ∧ box_inv a b' ∧ f (abstract (box_of s a)) = (v, abstract b'))
    (λ _ _, False) s1.
Proof.
  intros Hat Hok Hts Hf. eapply wp_refresh; [done..|]. intros s' m H1 H2 H3.
  eexists. split_and!; [done|done|]. by rewrite (abstract_refreshed b m H3).
Qed.

Lemma mark_terminal_refines_from id st fin ts f s s1 b :
  at_box a s s1 b → box_ok a b → in_step id b → used_ts cfg fin s1 = ts → blank ts = false →
  is_terminal st = true → f (abstract (box_of s a)) = spec_end id st ts (abstract b) →
  wp (mark_terminal cfg a id st fin)
    (λ v s', ∃ b', at_box a s s' b' ∧ box_inv a b' ∧ f (abstract (box_of s a)) = (v, abstract b'))
    (λ _ _, False) s1.
Proof.
  intros Hat Hok Hstep Hu Hts Hst Hf. unfold spec_end, q_latest in Hf. simpl in Hf.
  destruct (find_last (has_event_id id) (bx_log b)) as [c|] eqn:Hc;
    [destruct (is_pending c) eqn:Hp|].
  - eapply wp_mark_terminal; [done..|]. intros s' m b' Hat' Hinv' Hmark.
    exists b'. split_and!; [done|done|]. rewrite Hf. unfold abstract. by rewrite Hmark.
  - eapply wp_mark_terminal_absent; [done..| |]; [rewrite Hc; by intros ? [= <-]|].
    intros s' m b' Hat' Hinv' Hmark. exists b'. split_and!; [done|done|].
    assert (abstract b' = abstract b) as -> by by apply abstract_refreshed. by rewrite Hc.
  - eapply wp_mark_terminal_absent; [done..| |]; [by rewrite Hc|].
    intros s' m b' Hat' Hinv' Hmark. exists b'. split_and!; [done|done|].
    assert (abstract b' = abstract b) as -> by by apply abstract_refreshed. by rewrite Hc.
Qed.

Lemma mark_terminal_refines id st fin s :
  box_inv a (box_of s a) → blank (used_ts cfg fin s) = false → is_terminal st = true →
  refines a (mark_terminal cfg a id st fin) (spec_end id st (used_ts cfg fin s)) s.
Proof.
  intros Hinv Hts Hst. eapply mark_terminal_refines_from; try done; [apply Hinv|].
  by eapply synced_in_step.
Qed.

Lemma used_ts_some ts s : blank ts = false → used_ts cfg (Some ts) s = ts.
Proof. intros H. unfold used_ts. simpl. by rewrite (blank_truthy ts H). Qed.

(** *** [claim] *)
Lemma claim_refines_from id st ts expires f s s1 b :
  at_box a s s1 b → box_inv a b → used_ts cfg st s1 = ts → blank ts = false →
  lease_expires_at_value cfg ts = Ok expires →
  f (abstract (box_of s a)) = spec_claim a id ts expires (abstract b) →
  wp (claim cfg a id st)
    (λ v s', ∃ b', at_box a s s' b' ∧ box_inv a b' ∧ f (abstract (box_of s a)) = (v, abstract b'))
    (λ _ _, False) s1.
Proof.
  intros Hat0 Hinv Hu Hts Hexp Hf. pose proof (bi_ok _ _ Hinv) as Hok.
  unfold claim. apply wp_bind, wp_normalize; [done|].
  eapply wp_bind, wp_or_clock; [done|]. intros s2 Hat. rewrite Hu.
  apply wp_bind. unfold load_claim_candidate. eapply wp_bind, wp_get_latest, wp_ret; [done|].
  unfold spec_claim, q_latest in Hf. simpl in Hf.
  destruct (find_last (has_event_id id) (bx_log b)) as [c|] eqn:Hc; [|by eapply refresh_refines].
  pose proof (find_last_id _ _ _ Hc) as Hid. unfold is_pending in Hf. rewrite negb_involutive in Hf.
  destruct (is_terminal (ie_status c)) eqn:Hp; [by eapply refresh_refines|].
  apply wp_bind. unfold has_conflicting_lease. eapply wp_bind, wp_lease_load, wp_ret; [done|].
  unfold lease_held_by_other in Hf. simpl in Hf. case_match; [by eapply refresh_refines|].
  case_bool_decide; [by eapply refresh_refines|].
  apply wp_bind. unfold is_claimable_head.
  destruct (is_claimable (ie_status c)) eqn:Hcl; [|apply wp_ret; by eapply refresh_refines].
  eapply wp_bind, wp_head_pending, wp_ret; [done..|].
  unfold is_head, q_head, q_pending in Hf. simpl in Hf.
  change (pending_of (bx_log b)) with (queue_of b) in Hf. rewrite Hid.
  destruct (hd_error (queue_of b)) as [h|] eqn:Eh; [|by eapply refresh_refines].
  destruct (String.eqb_spec (eid h) id) as [Eid|Eid]; [|by eapply refresh_refines].
  assert (h = c) as ->.
  { assert (h ∈ queue_of b) as Hin by (destruct (queue_of b); simplify_eq/=; by left).
    apply elem_of_pending in Hin as [Hin _]. rewrite Eid, Hc in Hin. congruence. }
  eapply wp_claim_current; [done..|]. intros s' m b' Hat' Hinv' Hmark.
  exists b'. split_and!; [done|done|]. rewrite Hf. unfold abstract. rewrite Hmark. simpl.
  unfold new_lease. by rewrite Hid.
Qed.

Lemma claim_refines id st expires s :
  box_inv a (box_of s a) → blank (used_ts cfg st s) = false →
  lease_expires_at_value cfg (used_ts cfg st s) = Ok expires →
  refines a (claim cfg a id st) (spec_claim a id (used_ts cfg st s) expires) s.
Proof. intros. by eapply claim_refines_from. Qed.

Lemma wp_peek_next ty s0 s b (Q : option InboundEventRecord → kstate → Prop) E :
  at_box a s0 s b →
  Q (match hd_error (queue_of b) with
     | Some h => if type_matches ty h && is_claimable (ie_status h) then Some h else None
     | None => None
     end) s → wp (peek_next a ty) Q E s.
Proof.
  intros Hat HQ. unfold peek_next. eapply wp_bind, wp_head_pending, wp_ret; [done..|].
  destruct (hd_error (queue_of b)) as [h|]; [|done].
  by destruct (type_matches ty h), (is_claimable (ie_status h)).
Qed.

Lemma claim_next_refines ty st expires s :
  box_inv a (box_of s a) → blank (used_ts cfg st s) = false →
  lease_expires_at_value cfg (used_ts cfg st s) = Ok expires →
  refines a (claim_next cfg a ty st) (spec_claim_next a (used_ts cfg st s) expires ty) s.
Proof.
  intros Hinv Hts Hexp. set (f := spec_claim_next _ _ _ _).
  assert (f = spec_claim_next a (used_ts cfg st s) expires ty) as Ef by done. clearbody f.
  unfold refines, claim_next. eapply wp_bind, wp_peek_next; [apply at_box_refl|].
  assert (f (abstract (box_of s a)) =
    spec_claim_next a (used_ts cfg st s) expires ty (abstract (box_of s a))) as Hf by by rewrite Ef.
  unfold spec_claim_next, q_head, q_pending in Hf. cbn [abstract q_log] in Hf.
  change (pending_of (bx_log (box_of s a))) with (queue_of (box_of s a)) in Hf.
  assert (f (abstract (box_of s a)) = (None, abstract (box_of s a)) →
    wp (let* timestamp := or_clock cfg st in
        do* rebuild_mailbox_summary cfg a (Some timestamp) in mret' None)
    (λ v s', ∃ b', at_box a s s' b' ∧ box_inv a b' ∧ f (abstract (box_of s a)) = (v, abstract b'))
    (λ _ _, False) s) as Hnone.
  { intros ?. eapply wp_bind, wp_or_clock; [apply at_box_refl|]. intros s1 Hat.
    eapply refresh_refines; [done|apply Hinv|done|done]. }
  destruct (hd_error (queue_of (box_of s a))) as [h|]; [|by apply Hnone].
  destruct (_ && _); [|by apply Hnone].
  by eapply claim_refines_from.
Qed.

(** *** [rewrite_head] *)
Lemma rewrite_head_refines id payload st upd clear s :
  box_inv a (box_of s a) → blank (used_ts cfg upd s) = false → is_terminal st = false →
  refines a (rewrite_head cfg a id payload st upd clear) (spec_rewrite id payload st clear) s.
Proof.
  intros Hinv Hts Hst. pose proof (bi_ok _ _ Hinv) as Hok. set (b := box_of s a) in *.
  unfold refines, rewrite_head. apply wp_bind, wp_normalize; [done|].
  eapply wp_bind, wp_or_clock; [apply at_box_refl|]. intros s1 Hat.
  eapply wp_bind, wp_get_latest; [done|]. fold b in Hat |- *.
  assert (spec_rewrite id payload st clear (abstract b) =
          spec_rewrite id payload st clear (abstract b)) as Hf by done.
  unfold spec_rewrite at 2, q_latest in Hf. cbn [abstract q_log q_lease q_mark] in Hf.
  destruct (find_last (has_event_id id) (bx_log b)) as [c|] eqn:Hc; [|by eapply refresh_refines].
  unfold is_pending in Hf.
  destruct (is_terminal (ie_status c)) eqn:Hp; [by eapply refresh_refines|]. cbn [negb] in Hf.
  pose proof (find_last_id _ _ _ Hc) as Hid. set (u := rewritten_row c payload st clear) in *.
  assert (valid_inbound u ∧ ie_agent_name u = a) as Hvu.
  { apply ie_replace_valid. apply find_last_Some in Hc as [Hin _].
    pose proof (bo_events _ _ Hok) as Hev. rewrite Forall_forall in Hev. by apply Hev. }
  apply wp_bind, wp_lift. change (ie_replace c _ _ _ _) with u.
  rewrite (normalize_inbound_valid u) by apply Hvu.
  eapply wp_bind, wp_append; [done|apply Hvu|]. intros s2 Hs2.
  eapply wp_bind, wp_release; [done|]. intros s3 Hs3. cbn [bx_log bx_lease bx_mailbox] in Hs3.
  pose proof (synced_in_step id a b Hinv) as Hstep.
  destruct (pending_rewrite a id b c u (released id (bx_lease b))) as (Hlen & Hcnt & Hhd & _);
    [done|done|unfold is_pending; by rewrite Hp|unfold is_pending; simpl; by rewrite Hst|done|done|].
  set (b1 := Box (bx_log b ++ [u]) (released id (bx_lease b)) (bx_mailbox b)) in *.
  assert (box_ok a b1) as Hok1 by (apply append_ok; [done|done|by apply released_keeps]).
  assert (spec_rewrite id payload st clear (abstract b) = (Some u, abstract b1)) as Hf1.
  { rewrite Hf. unfold abstract at 1. by rewrite <-(released_mark id b (bx_log b ++ [u]) Hstep). }
  eapply wp_bind, wp_mailbox_load; [done|]. cbn [bx_mailbox b1].
  unfold in_step in Hstep. destruct (bx_mailbox b) as [p|] eqn:Emb; [|by eapply refresh_refines].
  destruct Hstep as (Hd & Hr & Hh & Hact & _). rewrite Hact, (head_of_mailbox_id _ _ Hh).
  destruct (_ || _) eqn:Hcond; [by eapply refresh_refines|].
  apply orb_false_iff in Hcond as [Hhead%negb_false_iff%bool_decide_eq_true _].
  eapply wp_bind, wp_transition_inv; [done|done|done|done|done| | |done| |].
  - by rewrite Hlen.
  - by rewrite Hcnt.
  - by rewrite (Hhd Hhead).
  - intros s' m H1 H2 H3. apply wp_ret. eexists. split_and!; [done|done|].
    rewrite Hf1. by rewrite (abstract_refreshed b1 m H3).
Qed.

(** *** [ack_reply] *)

Lemma wp_ack_timestamp st fin s0 s b (Q : string → kstate → Prop) E :
  at_box a s0 s b →
  (∀ s', at_box a s0 s' b → Q (used_ts cfg (if opt_truthy fin then fin else st) s) s') →
  wp (ack_timestamp cfg st fin) Q E s.
Proof.
  intros Hat HQ. unfold ack_timestamp. destruct (opt_truthy fin) eqn:Ef.
  - apply wp_ret. specialize (HQ s Hat). unfold used_ts in HQ. by rewrite Ef in HQ.
  - by eapply wp_or_clock.
Qed.

Lemma ack_reply_refines id st fin expires s :
  let ts := used_ts cfg (if opt_truthy fin then fin else st) s in
  box_inv a (box_of s a) → blank ts = false → blank (str_or st ts) = false →
  blank (str_or fin ts) = false → lease_expires_at_value cfg (str_or st ts) = Ok expires →
  refines a (ack_reply cfg a id st fin) (spec_ack a id (str_or st ts) (str_or fin ts) expires) s.
Proof.
  intros ts Hinv Hts Htc Hte Hexp. pose proof (bi_ok _ _ Hinv) as Hok. set (b := box_of s a) in *.
  set (f := spec_ack a id (str_or st ts) (str_or fin ts) expires).
  unfold refines, ack_reply. apply wp_bind, wp_normalize; [done|].
  eapply wp_bind, wp_head_pending; [done|apply at_box_refl|].
  eapply wp_bind, wp_ack_timestamp; [apply at_box_refl|]. fold ts. fold b. intros s1 Hat.
  assert (f (abstract b) = spec_ack a id (str_or st ts) (str_or fin ts) expires (abstract b)) as Hf by done.
  unfold spec_ack in Hf. change (q_head (abstract b)) with (hd_error (queue_of b)) in Hf.
  destruct (head_matches_reply (hd_error (queue_of b)) id) eqn:Hm; [|by eapply refresh_refines].
  destruct (hd_error (queue_of b)) as [h|] eqn:Eh; [|done]. cbn [negb] in Hf |- *.
  unfold head_matches_reply in Hm. apply andb_true_iff in Hm as [Hid%String.eqb_eq _].
  assert (h ∈ queue_of b) as Hin by (destruct (queue_of b); simplify_eq/=; by left).
  apply elem_of_pending in Hin as [Hl Hp]. rewrite Hid in Hl.
  eapply wp_bind, wp_get_latest; [done|]. rewrite Hl. unfold is_pending in Hp.
  apply negb_true_iff in Hp. rewrite Hp. case_bool_decide.
  { eapply (mark_terminal_refines_from id _ _ (str_or fin ts)); try done;
      [by eapply synced_in_step|by apply used_ts_some]. }
  eapply wp_bind, wp_mono.
  { eapply (claim_refines_from id _ _ _ (spec_claim a id (str_or st ts) expires));
      [done|done|by apply used_ts_some|done|done|done]. }
  2: done.
  intros v s2 (b2 & Hat2 & Hinv2 & Hcl). fold b in Hcl. rewrite Hcl in Hf. destruct v as [v|].
  - eapply (mark_terminal_refines_from id _ _ (str_or fin ts)); try done;
      [apply Hinv2|by eapply synced_in_step|by apply used_ts_some].
  - eapply refresh_refines; [done|apply Hinv2|done|done].
Qed.

(** *** [expire_lease] *)
Lemma expire_lease_refines fin s :
  box_inv a (box_of s a) → blank (used_ts cfg fin s) = false →
  refines a (expire_lease cfg a fin) (spec_expire (used_ts cfg fin s)) s.
Proof.
  intros Hinv Hts. pose proof (bi_ok _ _ Hinv) as Hok. set (b := box_of s a) in *.
  set (ts := used_ts cfg fin s) in *. set (f := spec_expire ts).
  unfold refines, expire_lease. apply wp_bind, wp_normalize; [done|].
  eapply wp_bind, wp_or_clock; [apply at_box_refl|]. fold b. fold ts. intros s1 Hat.
  assert (f (abstract b) = spec_expire ts (abstract b)) as Hf by done.
  unfold spec_expire, q_latest in Hf. cbn [abstract q_log q_lease q_mark] in Hf.
  eapply wp_bind, wp_lease_load; [done|].
  fold b. destruct (bx_lease b) as [l|] eqn:El; [|apply wp_ret; by exists b].
  destruct (is_acquired l) eqn:Hacq; [|apply wp_ret; by exists b]. cbn [negb] in Hf |- *.
  eapply wp_bind, wp_get_latest; [done|]. fold b. set (id := dl_inbound_event_id l) in *.
  assert (f (abstract b) = (None, Mailbox (bx_log b) None (lease_mark b)) →
    wp (do* lease_remove a in do* rebuild_mailbox_summary cfg a (Some ts) in mret' None)
    (λ v s', ∃ b', at_box a s s' b' ∧ box_inv a b' ∧ f (abstract (box_of s a)) = (v, abstract b'))
    (λ _ _, False) s1) as Horphan.
  { intros Hf0. eapply wp_bind, wp_lease_remove; [done|]. intros s2 Hat2.
    eapply refresh_refines; [done|split; [apply Hok|done|apply Hok]|done|]. fold b. rewrite Hf0.
    pose proof (synced_in_step id a b Hinv) as Hst. apply (released_mark id b (bx_log b)) in Hst.
    rewrite El in Hst. cbn [released] in Hst. rewrite Hacq, String.eqb_refl in Hst. cbn [andb] in Hst.
    unfold abstract. by rewrite Hst. }
  destruct (find_last (has_event_id id) (bx_log b)) as [c|] eqn:Hc; [|by apply Horphan].
  unfold is_pending in Hf. destruct (is_terminal (ie_status c)) eqn:Hp; [by apply Horphan|].
  destruct (bo_lease _ _ Hok l El) as [Hvl Hln].
  apply wp_bind, wp_lift. change (MkDeliveryLease _ _ _ _ _ _ _) with (expired_lease l).
  rewrite (normalize_lease_valid (expired_lease l)) by done.
  eapply wp_bind, wp_lease_save; [done|done|]. intros s2 Hat2.
  set (b2 := Box (bx_log b) (Some (expired_lease l)) (bx_mailbox b)) in *.
  eapply mark_terminal_refines_from; [done| | |by apply used_ts_some|done|done|].
  - split; [apply Hok|by intros ? [= <-]|apply Hok].
  - pose proof (bi_synced _ _ Hinv) as Hsync. unfold synced, in_step in *. cbn [bx_mailbox b2].
    change (box_of s a) with b. rewrite El in Hsync. destruct (bx_mailbox b) as [p|]; [|by destruct Hsync].
    destruct Hsync as [Hd Hr Hh Hact _ Hv]. split_and!; [done..| |].
    + rewrite Hact, (valid_lease_active l Hvl), Hacq. by rewrite bool_decide_true.
    + intros ? [= <-]. exact (Hv l eq_refl).
  - fold b. rewrite Hf. cbn [negb]. unfold abstract, lease_mark. cbn [bx_lease b2]. by rewrite El.
Qed.

(** *** Enqueueing: the row and the increment of the summary that goes with it. *)
Definition enqueue (r : InboundEventRecord) (updated_at : option string) : M kstate unit :=
  do* inbound_append r in
  do* apply_incremental_summary_update cfg (ie_agent_name r) 1 (if is_reply r then 1 else 0)
        None None None updated_at in
  mret' tt.

Lemma enqueue_refines r ts s :
  box_inv a (box_of s a) → blank ts = false → valid_inbound r → ie_agent_name r = a →
  is_pending r = true → q_latest (eid r) (abstract (box_of s a)) = None →
  refines a (enqueue r (Some ts)) (λ q, (tt, spec_enqueue r q)) s.
Proof.
  intros [Hok Hsync] Hts Hr Hra Hp Hfresh. set (b := box_of s a) in *.
  unfold refines, enqueue. eapply wp_bind, wp_append; [apply at_box_refl|done|]. fold b.
  intros s1 Hat. rewrite Hra. set (b1 := Box _ _ _) in Hat.
  assert (box_ok a b1) as Hok1 by (apply append_ok; [done|done|apply Hok]).
  assert (queue_of b1 = queue_of b ++ [r]) as Hq.
  { unfold queue_of. cbn [bx_log b1]. rewrite pending_of_fresh by done. by rewrite Hp. }
  pose proof (count_replies_nonneg (queue_of b1)) as Hn.
  assert (count_replies (queue_of b1) = count_replies (queue_of b) + (if is_reply r then 1 else 0)) as Hc.
  { rewrite Hq, count_replies_app, count_replies_cons. simpl. unfold count_replies at 2. simpl. lia. }
  assert (Z.of_nat (length (queue_of b1)) = Z.of_nat (length (queue_of b)) + 1) as Hl.
  { rewrite Hq, length_app. simpl. lia. }
  unfold synced in Hsync.
  eapply wp_bind, (wp_incremental cfg a Ha _ _ _ _ _ _ _ _ _ (Z.of_nat (length (queue_of b1)))
    (count_replies (queue_of b1))); [done|done|done| | |].
  - cbn [bx_mailbox b1]. destruct (bx_mailbox b) as [p|].
    + rewrite (mi_depth _ _ _ Hsync). lia.
    + destruct Hsync as [Hq0 _]. rewrite Hq0 in Hl. simpl in Hl. lia.
  - cbn [bx_mailbox b1]. destruct (bx_mailbox b) as [p|].
    + rewrite (mi_replies _ _ _ Hsync). lia.
    + destruct Hsync as [Hq0 _]. rewrite Hq0 in Hc. simpl in Hc.
      change (count_replies []) with 0 in Hc. lia.
  - intros s' m sa fa Em Hat'. apply wp_ret. eexists. split_and!; [exact Hat'| |].
    + rewrite Em. apply transition_inv; [done|done|done|done|done|done| |done].
      cbn [bx_mailbox bx_lease b1]. destruct (bx_mailbox b) as [p|]; [apply Hsync|].
      destruct Hsync as [_ ->]. done.
    + f_equal. unfold spec_enqueue, abstract. cbn [q_log q_lease q_mark]. f_equal.
      rewrite Em, summary_record_mark. done.
Qed.
End refinement.

(** ** The calls of the service on an existing mailbox, and their contracts *)

Inductive service_call :=
  | CallClaim (id : string) (started : option string)
  | CallClaimNext (event_type : option InboundEventType) (started : option string)
  | CallMarkTerminal (id : string) (status : InboundEventStatus) (finished : option string)
  | CallAckReply (id : string) (started finished : option string)
  | CallExpireLease (finished : option string)
  | CallRewriteHead (id : string) (payload : option string) (status : InboundEventStatus)
      (updated : option string) (clear : bool).

Definition run_call (cfg : kconfig) (a : string) (c : service_call)
    : KM (option InboundEventRecord) :=
  match c with
  | CallClaim id st => claim cfg a id st
  | CallClaimNext ty st => claim_next cfg a ty st
  | CallMarkTerminal id st fin => mark_terminal cfg a id st fin
  | CallAckReply id st fin => ack_reply cfg a id st fin
  | CallExpireLease fin => expire_lease cfg a fin
  | CallRewriteHead id payload st upd clear => rewrite_head cfg a id payload st upd clear
  end.

(** The time a call works with: its argument, or the clock's next value. *)
Definition call_time (cfg : kconfig) (c : service_call) (s : kstate) : string :=
  match c with
  | CallClaim _ st | CallClaimNext _ st => used_ts cfg st s
  | CallMarkTerminal _ _ fin | CallExpireLease fin => used_ts cfg fin s
  | CallAckReply _ st fin => used_ts cfg (if opt_truthy fin then fin else st) s
  | CallRewriteHead _ _ _ upd _ => used_ts cfg upd s
  end.

(** The start of the lease a call may take. *)
Definition lease_start (c : service_call) (ts : string) : option string :=
  match c with
  | CallClaim _ _ | CallClaimNext _ _ => Some ts
  | CallAckReply _ st _ => Some (str_or st ts)
  | _ => None
  end.

(** The arguments the callers pass: times that are not blank, an end status that is
    terminal, a rewritten status that is not, and a lease start whose end can be
    computed. *)
Definition call_ok (cfg : kconfig) (c : service_call) (expires : option string) (s : kstate) : Prop :=
  let ts := call_time cfg c s in
  blank ts = false ∧
  match lease_start c ts with Some t => lease_expires_at_value cfg t = Ok expires | None => True end ∧
  match c with
  | CallMarkTerminal _ st _ => is_terminal st = true
  | CallRewriteHead _ _ st _ _ => is_terminal st = false
  | CallAckReply _ st fin => blank (str_or st ts) = false ∧ blank (str_or fin ts) = false
  | _ => True
  end.

Definition contract (a : string) (c : service_call) (ts : string) (expires : option string)
    : mailbox → option InboundEventRecord * mailbox :=
  match c with
  | CallClaim id _ => spec_claim a id ts expires
  | CallClaimNext ty _ => spec_claim_next a ts expires ty
  | CallMarkTerminal id st _ => spec_end id st ts
  | CallAckReply id st fin => spec_ack a id (str_or st ts) (str_or fin ts) expires
  | CallExpireLease _ => spec_expire ts
  | CallRewriteHead id payload st _ clear => spec_rewrite id payload st clear
  end.
