(* ===== verification/MailboxDiscipline.v ===== *)
(** How a mailbox evolves.  A step relation collects the operations of [MailboxSpec]; by
    rule induction every mailbox reached from the empty one delivers at most one event,
    the head of its queue, and to the holder of an acquired lease on it. *)

From Stdlib Require Import ZArith Lia.
From stdpp Require Import base list sets gmap strings relations.
From S2P Require Import Prelude PyData Names Timestamps Storage MailboxModels MailboxKernel MailboxInvariant MailboxOps MailboxSpec.

Local Open Scope Z_scope.

Definition q_ids (q : mailbox) : list string := map eid (q_pending q).

(** One operation on the mailbox of [a]. *)
Inductive step (a : string) (q : mailbox) : mailbox → Prop :=
  | step_enqueue r :
      q_latest (eid r) q = None → is_claimable (ie_status r) = true →
      step a q (spec_enqueue r q)
  | step_record_done r :
      q_latest (eid r) q = None → is_terminal (ie_status r) = true →
      step a q (spec_enqueue r q)
  | step_end id st ts : is_terminal st = true → step a q (spec_end id st ts q).2
  | step_claim id ts e : step a q (spec_claim a id ts e q).2
  | step_rewrite id p st c : is_claimable st = true → step a q (spec_rewrite id p st c q).2
  | step_expire ts : step a q (spec_expire ts q).2.

Definition holds (id : string) (l : option DeliveryLease) : Prop :=
  ∃ x, l = Some x ∧ is_acquired x = true ∧ dl_inbound_event_id x = id.

Record disciplined (q : mailbox) : Prop := {
  d_delivering : ∀ r, r ∈ q_pending q → ie_status r = IE_DELIVERING →
    q_head q = Some r ∧ holds (eid r) (q_lease q);
  d_lease : ∀ id, holds id (q_lease q) →
    ∃ h, q_head q = Some h ∧ eid h = id ∧ ie_status h = IE_DELIVERING;
}.

Definition q_empty : mailbox := Mailbox [] None 0.

Lemma disciplined_empty : disciplined q_empty.
Proof.
  split.
  - intros r Hr. by apply elem_of_nil in Hr.
  - by intros id (x & ? & _).
Qed.

Lemma claimable_facts st :
  is_claimable st = true → is_terminal st = false ∧ st ≠ IE_DELIVERING.
Proof. by destruct st. Qed.

Lemma head_in q h : q_head q = Some h → h ∈ q_pending q.
Proof. unfold q_head. destruct (q_pending q); intros [= ->]. by left. Qed.

Lemma pending_latest q r :
  r ∈ q_pending q ↔ q_latest (eid r) q = Some r ∧ is_pending r = true.
Proof. apply elem_of_pending. Qed.

(** Two pending rows of one event are the same row. *)
Lemma pending_same q r1 r2 :
  r1 ∈ q_pending q → r2 ∈ q_pending q → eid r1 = eid r2 → r1 = r2.
Proof.
  intros [H1 _]%pending_latest [H2 _]%pending_latest E. rewrite E in H1. congruence.
Qed.

Lemma released_holds id id' ls :
  holds id' (released id ls) ↔ holds id' ls ∧ id' ≠ id.
Proof.
  unfold holds, released. destruct ls as [l|]; [|split; [by intros (? & ? & _)|by intros [(? & ? & _) _]]].
  destruct (is_acquired l && String.eqb (dl_inbound_event_id l) id) eqn:E.
  - apply andb_true_iff in E as [_ <-%String.eqb_eq]. split; [by intros (? & ? & _)|].
    by intros [(x & [= <-] & _ & <-) ?].
  - split; [|by intros [? _]]. intros (x & [= <-] & Ha & <-). split; [by exists l|].
    intros Heq. by rewrite Ha, Heq, String.eqb_refl in E.
Qed.

(** *** The queue of each operation's result *)

Lemma pending_enqueue r q :
  q_latest (eid r) q = None →
  q_pending (spec_enqueue r q) = q_pending q ++ (if is_pending r then [r] else []).
Proof. apply pending_of_fresh. Qed.

Lemma pending_append_known u c q ls mk :
  q_latest (eid u) q = Some c → is_pending c = true →
  q_pending (Mailbox (q_log q ++ [u]) ls mk) =
    if is_pending u then map (replace_event u) (q_pending q)
    else List.filter (λ x, negb (same_id (eid u) x)) (q_pending q).
Proof. apply pending_of_known. Qed.

Lemma elem_of_removed id l x :
  x ∈ List.filter (λ x, negb (same_id id x)) l ↔ x ∈ l ∧ eid x ≠ id.
Proof.
  rewrite list_elem_of_In, filter_In, <-list_elem_of_In, negb_true_iff. unfold same_id.
  by rewrite bool_decide_eq_false.
Qed.

Lemma elem_of_replaced u l x :
  x ∈ map (replace_event u) l → x = u ∨ (x ∈ l ∧ eid x ≠ eid u).
Proof.
  intros (y & -> & Hy)%list_elem_of_fmap. unfold replace_event.
  case_decide; [by left|by right].
Qed.

Lemma hd_removed id l h :
  hd_error l = Some h → eid h ≠ id →
  hd_error (List.filter (λ x, negb (same_id id x)) l) = Some h.
Proof. destruct l; simpl; [done|]. intros [= ->] Hne. by rewrite same_id_ne. Qed.

Lemma hd_replaced u l h :
  hd_error l = Some h → eid h ≠ eid u → hd_error (map (replace_event u) l) = Some h.
Proof. destruct l; simpl; [done|]. intros [= ->] Hne. by rewrite replace_event_ne. Qed.

(** *** The discipline is kept *)

Lemma enqueue_disciplined r q :
  q_latest (eid r) q = None → ie_status r ≠ IE_DELIVERING →
  disciplined q → disciplined (spec_enqueue r q).
Proof.
  intros Hf Hst [Hd Hl].
  assert (∀ h, q_head q = Some h → q_head (spec_enqueue r q) = Some h) as Hh.
  { intros h. unfold q_head. rewrite pending_enqueue by done. by destruct (q_pending q). }
  split.
  - intros x. rewrite pending_enqueue by done. intros Hx Hxs.
    assert (x ∈ q_pending q) as Hin.
    { apply elem_of_app in Hx as [Hx|Hx]; [done|]. destruct (is_pending r).
      - apply list_elem_of_singleton in Hx as ->. done.
      - by apply elem_of_nil in Hx. }
    destruct (Hd x Hin Hxs). split; [by apply Hh|done].
  - intros id Hid. destruct (Hl id Hid) as (h & ? & ?). exists h. split; [by apply Hh|done].
Qed.

(** Ending an event, with the lease [ls] kept for others. *)
Lemma end_disciplined id c st ts q ls ls' :
  q_latest id q = Some c → is_pending c = true → is_terminal st = true →
  disciplined (Mailbox (q_log q) ls (q_mark q)) →
  (∀ id', holds id' ls' ↔ holds id' ls ∧ id' ≠ id) →
  disciplined (Mailbox (q_log q ++ [terminal_row c st ts]) ls' (q_mark q)).
Proof.
  intros Hc Hp Hst [Hd Hl] Hls. pose proof (find_last_id _ _ _ Hc) as Hid.
  set (u := terminal_row c st ts).
  assert (q_pending (Mailbox (q_log q ++ [u]) ls' (q_mark q)) =
    List.filter (λ x, negb (same_id id x)) (q_pending q)) as Hq.
  { rewrite (pending_append_known u c); [|simpl; by rewrite Hid|done].
    unfold is_pending. simpl. rewrite Hst. simpl. by rewrite Hid. }
  split.
  - intros x. unfold q_head. rewrite Hq. intros [Hx Hne]%elem_of_removed Hs.
    destruct (Hd x Hx Hs) as [Hh Hx']. split; [by apply hd_removed|]. by apply Hls.
  - intros id' [Hh Hne]%Hls. destruct (Hl id' Hh) as (h & Hhd & <- & Hs). exists h.
    split; [|done]. unfold q_head. rewrite Hq. by apply hd_removed.
Qed.

Lemma spec_end_disciplined id st ts q :
  is_terminal st = true → disciplined q → disciplined (spec_end id st ts q).2.
Proof.
  intros Hst Hq. unfold spec_end. destruct (q_latest id q) as [c|] eqn:Hc; [|done].
  destruct (is_pending c) eqn:Hp; [|done]. apply (end_disciplined id c st ts q (q_lease q)); try done.
  - by destruct q.
  - intros id'. apply released_holds.
Qed.

Lemma spec_claim_disciplined a id ts e q :
  disciplined q → disciplined (spec_claim a id ts e q).2.
Proof.
  intros Hq. unfold spec_claim. destruct (q_latest id q) as [c|] eqn:Hc; [|done].
  destruct (is_pending c) eqn:Hp; [|done]. cbn [negb].
  destruct (lease_held_by_other id q); [done|]. case_bool_decide; [done|].
  destruct (is_claimable (ie_status c)) eqn:Hcl; [|done].
  destruct (is_head id q) eqn:Hh; [|done]. simpl. destruct Hq as [Hd Hl].
  pose proof (find_last_id _ _ _ Hc) as Hid. set (u := delivering_row c ts).
  assert (q_head q = Some c) as Hhd.
  { unfold is_head in Hh. destruct (q_head q) as [h|] eqn:E; [|done].
    apply String.eqb_eq in Hh. f_equal. apply (pending_same q); [by apply head_in| |congruence].
    apply pending_latest. by rewrite Hid. }
  match goal with |- disciplined ?q' => set (q1 := q') end.
  assert (q_pending q1 = map (replace_event u) (q_pending q)) as Hq1.
  { unfold q1. rewrite (pending_append_known u c); [done|simpl; by rewrite Hid|done]. }
  assert (q_head q1 = Some u) as Hhu.
  { unfold q_head in Hhd |- *. rewrite Hq1. destruct (q_pending q); [done|].
    simplify_eq/=. by rewrite replace_event_eq. }
  split.
  - intros x. rewrite Hq1. intros [->|[Hx Hne]]%elem_of_replaced Hs.
    + split; [done|]. unfold q1. simpl. rewrite Hid. eexists. done.
    + destruct (Hd x Hx Hs) as [Hx' _]. exfalso. apply Hne. by simplify_eq.
  - intros id' (l & [= <-] & _ & Hl'). simpl in Hl'. exists u. split_and!; [done|simpl; congruence|done].
Qed.

Lemma spec_rewrite_disciplined id p st cl q :
  is_claimable st = true → disciplined q → disciplined (spec_rewrite id p st cl q).2.
Proof.
  intros [Hst Hnd]%claimable_facts [Hd Hl]. unfold spec_rewrite.
  destruct (q_latest id q) as [c|] eqn:Hc; [|done]. destruct (is_pending c) eqn:Hp; [|done].
  pose proof (find_last_id _ _ _ Hc) as Hid. set (u := rewritten_row c p st cl). simpl.
  match goal with |- disciplined ?q' => set (q1 := q') end.
  assert (q_pending q1 = map (replace_event u) (q_pending q)) as Hq1.
  { unfold q1. rewrite (pending_append_known u c); [|simpl; by rewrite Hid|done].
    unfold is_pending at 1. simpl. by rewrite Hst. }
  split.
  - intros x. unfold q_head. rewrite Hq1. intros [->|[Hx Hne]]%elem_of_replaced Hs; [done|].
    destruct (Hd x Hx Hs) as [Hh Hho]. split; [by apply hd_replaced|].
    apply released_holds. split; [done|]. simpl in Hne. congruence.
  - intros id' [Hh Hne]%released_holds. destruct (Hl id' Hh) as (h & Hhd & <- & Hs).
    exists h. split; [|done]. unfold q_head. rewrite Hq1. apply hd_replaced; [done|].
    simpl. congruence.
Qed.

Lemma spec_expire_disciplined ts q : disciplined q → disciplined (spec_expire ts q).2.
Proof.
  intros Hq. unfold spec_expire. destruct (q_lease q) as [l|] eqn:El; [|done].
  destruct (is_acquired l) eqn:Hacq; [|done]. cbn [negb]. pose proof Hq as [Hd Hl].
  destruct (Hl (dl_inbound_event_id l)) as (h & Hh & Hid & Hs); [by exists l|].
  pose proof (proj1 (pending_latest q h) (head_in q h Hh)) as [Hc Hp]. rewrite Hid in Hc.
  rewrite Hc, Hp. unfold spec_end, q_latest in *. cbn [q_log]. rewrite Hc, Hp. cbn [snd].
  apply (end_disciplined (dl_inbound_event_id l) h _ ts q (q_lease q)); try done.
  intros id'. rewrite El. unfold holds. cbn [q_lease released expired_lease]. split.
  - by intros (x & [= <-] & ? & _).
  - by intros [(x & [= <-] & _ & <-) ?].
Qed.

Lemma step_disciplined a q q' : step a q q' → disciplined q → disciplined q'.
Proof.
  intros []; eauto using spec_end_disciplined, spec_claim_disciplined, spec_rewrite_disciplined,
    spec_expire_disciplined.
  - intros. apply enqueue_disciplined; [done|by apply claimable_facts|done].
  - intros. apply enqueue_disciplined; [done|by intros E; rewrite E in *|done].
Qed.

(** *** Order: an operation ends events or adds one at the back *)

Lemma map_id_replaced u l : map eid (map (replace_event u) l) = map eid l.
Proof.
  rewrite map_map. apply map_ext. intros x. unfold replace_event. by case_decide.
Qed.

Lemma map_id_removed id l :
  map eid (List.filter (λ x, negb (same_id id x)) l) `sublist_of` map eid l.
Proof.
  induction l as [|x l IH]; simpl; [constructor|]. case_match; simpl; by constructor.
Qed.

Definition queue_moves (q q' : mailbox) : Prop :=
  q_ids q' `sublist_of` q_ids q ∨ ∃ id, q_ids q' = q_ids q ++ [id].

Lemma queue_moves_refl q : queue_moves q q.
Proof. by left. Qed.

Lemma lease_moves q ls mk : queue_moves q (Mailbox (q_log q) ls mk).
Proof. by left. Qed.

Lemma append_known_ids u c q ls mk :
  q_latest (eid u) q = Some c → is_pending c = true →
  q_ids (Mailbox (q_log q ++ [u]) ls mk) `sublist_of` q_ids q.
Proof.
  intros Hc Hp. unfold q_ids. rewrite (pending_append_known u c) by done.
  destruct (is_pending u); [by rewrite map_id_replaced|apply map_id_removed].
Qed.

Lemma enqueue_moves r q : q_latest (eid r) q = None → queue_moves q (spec_enqueue r q).
Proof.
  intros Hf. unfold queue_moves, q_ids. rewrite pending_enqueue, map_app by done.
  destruct (is_pending r); [right; by eexists|left]. by rewrite app_nil_r.
Qed.

Lemma append_moves id u c q ls mk :
  q_latest id q = Some c → is_pending c = true → eid u = eid c →
  queue_moves q (Mailbox (q_log q ++ [u]) ls mk).
Proof.
  intros Hc Hp Hid. left. apply (append_known_ids u c); [|done].
  by rewrite Hid, (find_last_id _ _ _ Hc).
Qed.

Lemma step_moves a q q' : step a q q' → queue_moves q q'.
Proof.
  intros [| |id st ts|id ts e|id p st cl|ts]; [by apply enqueue_moves..| | | |].
  - unfold spec_end. destruct (q_latest id q) as [c|] eqn:Hc; [|apply queue_moves_refl].
    destruct (is_pending c) eqn:Hp; [|apply queue_moves_refl]. by apply (append_moves id _ c).
  - unfold spec_claim. destruct (q_latest id q) as [c|] eqn:Hc; [|apply queue_moves_refl].
    destruct (is_pending c) eqn:Hp; [|apply queue_moves_refl].
    simpl. repeat case_match; try apply queue_moves_refl. by apply (append_moves id _ c).
  - unfold spec_rewrite. destruct (q_latest id q) as [c|] eqn:Hc; [|apply queue_moves_refl].
    destruct (is_pending c) eqn:Hp; [|apply queue_moves_refl]. by apply (append_moves id _ c).
  - unfold spec_expire. destruct (q_lease q) as [l|]; [|apply queue_moves_refl].
    case_match; [apply queue_moves_refl|]. unfold spec_end, q_latest. simpl.
    destruct (find_last _ _) as [c|] eqn:Hc; [|apply lease_moves].
    destruct (is_pending c) eqn:Hp; [|apply lease_moves]. rewrite ?Hc, ?Hp.
    by apply (append_moves (dl_inbound_event_id l) _ c).
Qed.

(** *** Fencing: lease versions only grow *)

Definition mark_bounds (q : mailbox) : Prop :=
  ∀ l, q_lease q = Some l → dl_lease_version l ≤ q_mark q.

(** From [q] to [q'], a lease that was not there carries a new version. *)
Definition fenced (q q' : mailbox) : Prop :=
  q_mark q ≤ q_mark q' ∧
  ∀ l, q_lease q' = Some l → is_acquired l = true → q_lease q ≠ Some l →
    q_mark q < dl_lease_version l.

Lemma released_some id ls l : released id ls = Some l → ls = Some l.
Proof. unfold released. destruct ls; [|done]. by case_match. Qed.

Lemma step_fenced a q q' : step a q q' → fenced q q'.
Proof.
  unfold fenced. intros []; simpl; try (split; [lia|congruence]).
  - unfold spec_end. repeat case_match; simpl; (split; [lia|]); try congruence.
    intros l ?%released_some; congruence.
  - unfold spec_claim. repeat case_match; simpl; (split; [lia|]); try congruence.
    intros l [= <-] _ _. simpl. lia.
  - unfold spec_rewrite. repeat case_match; simpl; (split; [lia|]); try congruence.
    intros l ?%released_some; congruence.
  - unfold spec_expire, spec_end. repeat case_match; simpl; (split; [lia|]); try congruence;
      by intros x [= <-].
Qed.

Lemma step_mark_bounds a q q' : step a q q' → mark_bounds q → mark_bounds q'.
Proof.
  unfold mark_bounds. intros []; simpl; try done; intros Hq.
  - unfold spec_end. repeat case_match; simpl; try done. intros l ?%released_some. by apply Hq.
  - unfold spec_claim. repeat case_match; simpl; try done. by intros l [= <-].
  - unfold spec_rewrite. repeat case_match; simpl; try done. intros l ?%released_some. by apply Hq.
  - unfold spec_expire, spec_end. repeat case_match; simpl; try done; intros x Hx; simplify_eq/=; by apply Hq.
Qed.

Lemma steps_mark a q q' : rtc (step a) q q' → q_mark q ≤ q_mark q'.
Proof.
  induction 1 as [|q1 q2 q3 H _ IH]; [lia|]. apply step_fenced in H as [H _]. lia.
Qed.

(** *** The log only grows *)

Lemma step_log a q q' : step a q q' → q_log q `prefix_of` q_log q'.
Proof.
  intros []; simpl; try apply prefix_app_r; try done.
  - unfold spec_end. repeat case_match; simpl; try done; by apply prefix_app_r.
  - unfold spec_claim. repeat case_match; simpl; try done; by apply prefix_app_r.
  - unfold spec_rewrite. repeat case_match; simpl; try done; by apply prefix_app_r.
  - unfold spec_expire, spec_end. repeat case_match; simpl; try done; by apply prefix_app_r.
Qed.

Lemma steps_log a q q' : rtc (step a) q q' → q_log q `prefix_of` q_log q'.
Proof. induction 1; [done|]. etrans; [by eapply step_log|done]. Qed.

Lemma order_of_prefix l1 l2 : l1 `prefix_of` l2 → order_of l1 `prefix_of` order_of l2.
Proof.
  intros [k ->]. induction k as [|r k IH] using rev_ind; [by rewrite app_nil_r|].
  rewrite app_assoc, order_of_snoc. case_decide; [done|]. by apply prefix_app_r.
Qed.

Lemma prefix_sublist {A} (l1 l2 : list A) : l1 `prefix_of` l2 → l1 `sublist_of` l2.
Proof. intros [k ->]. by apply sublist_inserts_r. Qed.

Lemma q_ids_order q : q_ids q `sublist_of` order_of (q_log q).
Proof.
  rewrite <-latest_of_ids. unfold q_ids, q_pending. rewrite pending_of_filter.
  induction (latest_of (q_log q)) as [|x l IH]; simpl; [constructor|].
  destruct (is_pending x); simpl; by constructor.
Qed.

Lemma pair_sublist_cons {A} (x y z : A) l :
  [x; y] `sublist_of` z :: l → (x = z ∧ y ∈ l) ∨ [x; y] `sublist_of` l.
Proof.
  intros H. inversion H; subst; [left|by right]. split; [done|].
  by apply singleton_sublist_l.
Qed.

Lemma pair_sublist_antisym {A} (x y : A) l :
  NoDup l → [x; y] `sublist_of` l → [y; x] `sublist_of` l → False.
Proof.
  induction l as [|z l IH]; intros Hnd H1 H2; [by inversion H1|].
  apply NoDup_cons in Hnd as [Hz Hnd].
  assert (∀ u v, [u; v] `sublist_of` l → u ∈ l ∧ v ∈ l) as Hel.
  { intros u v Huv. split; (eapply elem_of_sublist; [|exact Huv]).
    - by left.
    - right. by left. }
  apply pair_sublist_cons in H1 as [[-> ?]|H1], H2 as [[-> ?]|H2]; try done.
  - apply Hz. by apply (Hel _ _ H2).
  - apply Hz. by apply (Hel _ _ H1).
  - eauto.
Qed.

Lemma pair_sublist_total {A} (x y : A) l :
  x ≠ y → x ∈ l → y ∈ l → [x; y] `sublist_of` l ∨ [y; x] `sublist_of` l.
Proof.
  intros Hne. induction l as [|z l IH]; intros Hx Hy; [by apply elem_of_nil in Hx|].
  apply elem_of_cons in Hx as [->|Hx], Hy as [->|Hy]; try done.
  - left. by apply sublist_skip, singleton_sublist_l.
  - right. by apply sublist_skip, singleton_sublist_l.
  - destruct (IH Hx Hy); [left|right]; by apply sublist_cons.
Qed.

(** Two pending events never overtake one another. *)
Lemma steps_fifo a q q' x y :
  rtc (step a) q q' → [x; y] `sublist_of` q_ids q → x ∈ q_ids q' → y ∈ q_ids q' →
  [x; y] `sublist_of` q_ids q'.
Proof.
  intros Hs Hxy Hx Hy.
  assert ([x; y] `sublist_of` order_of (q_log q')) as H1.
  { etrans; [exact Hxy|]. etrans; [apply q_ids_order|].
    apply prefix_sublist, order_of_prefix. by eapply steps_log. }
  pose proof (order_of_nodup (q_log q')) as Hnd.
  destruct (decide (x = y)) as [->|Hne].
  { exfalso. eapply pair_sublist_antisym; [done|exact H1|exact H1]. }
  destruct (pair_sublist_total x y (q_ids q') Hne Hx Hy) as [|H2]; [done|]. exfalso.
  eapply pair_sublist_antisym; [done|exact H1|]. etrans; [exact H2|apply q_ids_order].
Qed.

Lemma steps_fenced a q q' : rtc (step a) q q' → fenced q q'.
Proof.
  induction 1 as [q|q1 q2 q3 H12 _ [Hm Hl]]; [split; [lia|congruence]|].
  apply step_fenced in H12 as [Hm' Hl']. split; [lia|]. intros l H3 Ha H1.
  destruct (decide (q_lease q2 = Some l)) as [E|E].
  - by apply Hl'.
  - specialize (Hl l H3 Ha E). lia.
Qed.
