(* ===== verification/MailboxReach.v ===== *)
(** Runs of the kernel.  [kstep] is one call of the kernel service by anybody, for any
    agent; along every run each agent's mailbox moves by the steps of [MailboxDiscipline]
    and stays in step with its summary.  [drain] is the consumer's loop. *)

From Stdlib Require Import ZArith Lia.
From stdpp Require Import base list sets gmap strings relations.
From S2P Require Import Prelude PyData Names Timestamps Storage MailboxModels MailboxKernel MailboxInvariant MailboxOps MailboxSpec MailboxDiscipline.

Local Open Scope Z_scope.

Definition mailbox_of (s : kstate) (a : string) : mailbox := abstract (box_of s a).

Section runs.
Context (cfg : kconfig).

(** A time argument that denotes a time: given and not blank, or left to the clock. *)
Definition time_ok (s : kstate) (o : option string) : Prop := blank (used_ts cfg o s) = false.

Definition lease_time_ok (ts : string) : Prop := is_ok (lease_expires_at_value cfg ts) = true.

Definition fresh (s : kstate) (r : InboundEventRecord) : Prop :=
  owner_name (ie_agent_name r) = true ∧ valid_inbound r ∧
  q_latest (eid r) (mailbox_of s (ie_agent_name r)) = None.

Inductive kstep (s : kstate) : kstate → Prop :=
  | k_enqueue r ts :
      fresh s r → is_claimable (ie_status r) = true → blank ts = false →
      kstep s (enqueue cfg r (Some ts) s).1
  | k_notice r :
      fresh s r → is_terminal (ie_status r) = true → kstep s (inbound_append r s).1
  | k_end a id st fin :
      owner_name a = true → time_ok s fin → is_terminal st = true →
      kstep s (mark_terminal cfg a id st fin s).1
  | k_claim a id st :
      owner_name a = true → time_ok s st → lease_time_ok (used_ts cfg st s) →
      kstep s (claim cfg a id st s).1
  | k_claim_next a ty st :
      owner_name a = true → time_ok s st → lease_time_ok (used_ts cfg st s) →
      kstep s (claim_next cfg a ty st s).1
  | k_rewrite a id p st upd clear :
      owner_name a = true → time_ok s upd → is_claimable st = true →
      kstep s (rewrite_head cfg a id p st upd clear s).1
  | k_ack a id st fin :
      let ts := used_ts cfg (if opt_truthy fin then fin else st) s in
      owner_name a = true → blank ts = false → blank (str_or st ts) = false →
      blank (str_or fin ts) = false → lease_time_ok (str_or st ts) →
      kstep s (ack_reply cfg a id st fin s).1
  | k_expire a fin :
      owner_name a = true → time_ok s fin → kstep s (expire_lease cfg a fin s).1.

Definition kernel_inv (s : kstate) : Prop :=
  ∀ a, owner_name a = true → box_inv a (box_of s a) ∧ rtc (step a) q_empty (mailbox_of s a).

Lemma kernel_inv_init : kernel_inv kinit.
Proof.
  intros a _. unfold mailbox_of, box_of, inbox_of, kinit. simpl. rewrite !lookup_empty.
  split; [apply box_inv_empty|apply rtc_refl].
Qed.

Lemma refines_run {A} a (m : M kstate A) f s :
  refines a m f s → ∃ s' v b', m s = (s', Ok v) ∧ at_box a s s' b' ∧ box_inv a b' ∧
    f (mailbox_of s a) = (v, abstract b').
Proof.
  unfold refines, wp. destruct (m s) as [s' [v|e]]; [|done].
  intros (b' & H1 & H2 & H3). by exists s', v, b'.
Qed.

(** From [s] to [s'] every mailbox moves by steps and ends in step. *)
Definition kernel_moves (s s' : kstate) : Prop :=
  ∀ a, owner_name a = true →
    box_inv a (box_of s' a) ∧ rtc (step a) (mailbox_of s a) (mailbox_of s' a).

Lemma kernel_moves_inv s s' : kernel_moves s s' → kernel_inv s → kernel_inv s'.
Proof.
  intros Hm Hk a Ha. destruct (Hm a Ha). split; [done|]. etrans; [by apply Hk|done].
Qed.

(** An operation that refines steps of one mailbox moves the kernel by steps. *)
Lemma refines_moves {A} a (m : M kstate A) f s :
  refines a m f s → rtc (step a) (mailbox_of s a) (f (mailbox_of s a)).2 →
  kernel_inv s → kernel_moves s (m s).1.
Proof.
  intros (s' & v & b' & Hm & [Hb Hframe] & Hinv & Hf)%refines_run Hstep Hk a' Ha'.
  rewrite Hm. simpl. unfold mailbox_of at 2. destruct (decide (a' = a)) as [->|Hne].
  - rewrite Hb. split; [done|]. by rewrite Hf in Hstep.
  - rewrite (Hframe a' Hne). split; [by apply Hk|]. apply rtc_refl.
Qed.

Lemma spec_claim_next_steps a ts e ty q : rtc (step a) q (spec_claim_next a ts e ty q).2.
Proof.
  unfold spec_claim_next. destruct (q_head q) as [h|]; [|apply rtc_refl].
  case_match; [|apply rtc_refl]. apply rtc_once. constructor.
Qed.

Lemma spec_ack_steps a id tc te e q : rtc (step a) q (spec_ack a id tc te e q).2.
Proof.
  unfold spec_ack. case_match; [apply rtc_refl|]. destruct (q_head q); [|apply rtc_refl].
  case_match; [by apply rtc_once; constructor|].
  pose proof (MailboxDiscipline.step_claim a q id tc e) as H1.
  destruct (spec_claim a id tc e q) as [[v|] q']; simpl in *.
  - eapply rtc_l; [done|]. apply rtc_once. by constructor.
  - by apply rtc_once.
Qed.

Lemma notice_moves r s :
  fresh s r → is_terminal (ie_status r) = true → kernel_inv s →
  kernel_moves s (inbound_append r s).1.
Proof.
  intros (Ha & Hv & Hf) Ht. set (a := ie_agent_name r) in *.
  intros Hk. apply (refines_moves a _ (λ q, (tt, spec_enqueue r q))); [| |done].
  - destruct (Hk a Ha) as [[Hok Hsync] _].
    eapply wp_append; [apply at_box_refl|done|]. intros s' Hat. eexists. split_and!; [done| |].
    + split; [apply append_ok; [done|done|apply Hok]|]. unfold synced, queue_of in *. simpl in *.
      rewrite pending_of_fresh by done. unfold is_pending. rewrite Ht. by rewrite app_nil_r.
    + f_equal.
  - apply rtc_once. by apply step_record_done.
Qed.

Lemma is_ok_some {A} (r : result A) : is_ok r = true → ∃ v, r = Ok v.
Proof. destruct r; [eauto|done]. Qed.

Lemma kstep_moves s s' : kstep s s' → kernel_inv s → kernel_moves s s'.
Proof.
  intros H Hk. destruct H as [r ts (Ha & Hv & Hf) Hst Hts|r Hf Hst|a id st fin Ha Ht Hst
    |a id st Ha Ht [e He]%is_ok_some|a ty st Ha Ht [e He]%is_ok_some|a id p st upd clear Ha Ht Hst
    |a id st fin ts Ha Ht Htc Hte [e He]%is_ok_some|a fin Ha Ht].
  - eapply refines_moves; [eapply enqueue_refines; try done| |done]; [by apply Hk| |].
    { unfold is_pending. by apply claimable_facts in Hst as [-> _]. }
    apply rtc_once. by apply step_enqueue.
  - by apply notice_moves.
  - eapply refines_moves; [apply mark_terminal_refines; [done|by apply Hk|done..]| |done].
    apply rtc_once. by constructor.
  - eapply refines_moves; [eapply claim_refines; [done|by apply Hk|done..]| |done].
    apply rtc_once. constructor.
  - eapply refines_moves; [eapply claim_next_refines; [done|by apply Hk|done..]| |done].
    apply spec_claim_next_steps.
  - eapply refines_moves; [eapply rewrite_head_refines; [done|by apply Hk|done|]| |done].
    { by apply claimable_facts in Hst as [? _]. }
    apply rtc_once. by constructor.
  - eapply refines_moves; [eapply ack_reply_refines; [done|by apply Hk|done..]| |done].
    apply spec_ack_steps.
  - eapply refines_moves; [eapply expire_lease_refines; [done|by apply Hk|done]| |done].
    apply rtc_once. constructor.
Qed.

Lemma run_moves s s' :
  rtc kstep s s' → kernel_inv s → kernel_inv s' ∧
  ∀ a, owner_name a = true → rtc (step a) (mailbox_of s a) (mailbox_of s' a).
Proof.
  induction 1 as [s|s1 s2 s3 H _ IH]; intros Hk.
  - split; [done|]. intros. apply rtc_refl.
  - pose proof (kstep_moves _ _ H Hk) as Hm.
    destruct (IH (kernel_moves_inv _ _ Hm Hk)) as [Hk3 H3]. split; [done|].
    intros a Ha. etrans; [by apply Hm|by apply H3].
Qed.

Lemma reachable_inv s : rtc kstep kinit s → kernel_inv s.
Proof. intros H. by destruct (run_moves _ _ H kernel_inv_init). Qed.

Lemma steps_disciplined a q : rtc (step a) q_empty q → disciplined q.
Proof.
  intros H. assert (∀ q1 q2, rtc (step a) q1 q2 → disciplined q1 → disciplined q2) as Hr.
  { induction 1; eauto using step_disciplined. }
  eapply Hr; [done|apply disciplined_empty].
Qed.

(** ** The consumer's loop: claim the next event and consume it, [n] times. *)
Fixpoint drain (n : nat) (a ts : string) : M kstate (list string) :=
  match n with
  | O => mret' []
  | S n =>
      let* e := claim_next cfg a None (Some ts) in
      match e with
      | None => mret' []
      | Some e =>
          do* consume cfg a (eid e) (Some ts) in
          let* rest := drain n a ts in
          mret' (eid e :: rest)
      end
  end.

Definition nobody_holds (q : mailbox) : Prop :=
  ∀ l, q_lease q = Some l → is_acquired l = false.

Definition all_waiting (q : mailbox) : Prop :=
  ∀ r, r ∈ q_pending q → is_claimable (ie_status r) = true.

(** One round on the mailbox: the head is claimed, then gone. *)
Lemma drain_round a ts e q h rest :
  nobody_holds q → all_waiting q → q_pending q = h :: rest →
  ∃ q1 q2, spec_claim_next a ts e None q = (Some (delivering_row h ts), q1) ∧
    (∃ r, spec_end (eid h) IE_CONSUMED ts q1 = (Some r, q2)) ∧
    q_pending q2 = rest ∧ nobody_holds q2.
Proof.
  intros Hno Hall Hq. assert (h ∈ q_pending q) as Hin by (rewrite Hq; by left).
  pose proof (Hall h Hin) as Hcl. pose proof (proj1 (pending_latest q h) Hin) as [Hl Hp].
  pose proof (pending_of_nodup (q_log q)) as Hnd. change (pending_of (q_log q)) with (q_pending q) in Hnd.
  rewrite Hq in Hnd. apply NoDup_cons in Hnd as [Hh _].
  set (u := delivering_row h ts). set (l := MkDeliveryLease a (eid h) (q_mark q + 1) ts (Some ts) e ACQUIRED).
  set (q1 := Mailbox (q_log q ++ [u]) (Some l) (q_mark q + 1)).
  assert (q_pending q1 = u :: rest) as Hq1.
  { unfold q1. rewrite (pending_append_known u h) by done. unfold is_pending. cbn [u ie_status].
    simpl. rewrite Hq. simpl. rewrite replace_event_eq by done. f_equal.
    apply replace_absent. done. }
  assert (q_latest (eid h) q1 = Some u) as Hl1.
  { assert (u ∈ q_pending q1) as Hu by (rewrite Hq1; by left). apply pending_latest in Hu as [Hu _]. exact Hu. }
  eexists q1, _. split_and!.
  - unfold spec_claim_next, q_head. rewrite Hq. simpl. rewrite Hcl. unfold spec_claim.
    rewrite Hl, Hp. simpl. unfold lease_held_by_other, is_head, q_head. rewrite Hq. simpl.
    rewrite String.eqb_refl, Hcl.
    assert (match q_lease q with Some l0 => is_acquired l0 && negb (String.eqb (dl_inbound_event_id l0) (eid h)) | None => false end = false) as ->.
    { destruct (q_lease q) as [x|] eqn:E; [|done]. by rewrite (Hno x E). }
    rewrite bool_decide_false by (by destruct (ie_status h)). done.
  - unfold spec_end. rewrite Hl1. eexists. reflexivity.
  - set (w := terminal_row u IE_CONSUMED ts).
    change (q_pending (Mailbox (q_log q1 ++ [w]) (released (eid h) (q_lease q1)) (q_mark q1)) = rest).
    rewrite (pending_append_known w u) by done. unfold is_pending. simpl.
    rewrite Hq1. simpl. rewrite same_id_eq by done. simpl.
    by apply remove_absent.
  - intros x. simpl. by rewrite String.eqb_refl.
Qed.

Lemma drain_all a ts e n s :
  owner_name a = true → blank ts = false → lease_expires_at_value cfg ts = Ok e →
  box_inv a (box_of s a) → nobody_holds (mailbox_of s a) → all_waiting (mailbox_of s a) →
  length (q_pending (mailbox_of s a)) = n →
  ∃ s', drain n a ts s = (s', Ok (q_ids (mailbox_of s a))) ∧
    q_pending (mailbox_of s' a) = [] ∧ box_inv a (box_of s' a) ∧
    nobody_holds (mailbox_of s' a) ∧ (∀ a', a' ≠ a → box_of s' a' = box_of s a').
Proof.
  intros Ha Hts He. revert s. induction n as [|n IH]; intros s Hinv Hno Hall Hlen.
  { exists s. unfold q_ids. apply nil_length_inv in Hlen. by rewrite Hlen. }
  destruct (q_pending (mailbox_of s a)) as [|h rest] eqn:Hq; [done|]. injection Hlen as Hlen.
  destruct (drain_round a ts e _ h rest Hno Hall Hq) as (q1 & q2 & H1 & (r & H2) & H3 & H4).
  assert (∀ s, used_ts cfg (Some ts) s = ts) as Hu by (intros; by apply used_ts_some).
  destruct (refines_run a (claim_next cfg a None (Some ts)) _ s
    ltac:(eapply claim_next_refines; [done|done|by rewrite Hu|by rewrite Hu]))
    as (s1 & v1 & b1 & Hr1 & [Hb1 Hf1] & Hi1 & Hs1).
  rewrite Hu, H1 in Hs1. injection Hs1 as <- Hq1.
  destruct (refines_run a (consume cfg a (eid h) (Some ts)) _ s1
    ltac:(eapply mark_terminal_refines; [done|by rewrite Hb1|by rewrite Hu|done]))
    as (s2 & v2 & b2 & Hr2 & [Hb2 Hf2] & Hi2 & Hs2).
  unfold mailbox_of in Hs2. rewrite Hu, Hb1, <-Hq1, H2 in Hs2. injection Hs2 as <- Hq2.
  assert (mailbox_of s2 a = q2) as Em by (unfold mailbox_of; by rewrite Hb2).
  destruct (IH s2) as (s3 & Hr3 & H5 & H6 & H7 & H8).
  - by rewrite Hb2.
  - by rewrite Em.
  - rewrite Em. intros x Hx. apply Hall. rewrite Hq. right. by rewrite <-H3.
  - by rewrite Em, H3.
  - exists s3. split_and!; [|done|done|done|].
    + cbn [drain]. rewrite (mbind_ok _ _ _ _ _ Hr1). cbn [eid ie_inbound_event_id delivering_row ie_replace].
      rewrite (mbind_ok _ _ _ _ _ Hr2), (mbind_ok _ _ _ _ _ Hr3). unfold mret'. f_equal. f_equal.
      unfold q_ids. rewrite Em, H3, Hq. done.
    + intros a' Hne. rewrite H8, Hf2, Hf1 by done. done.
Qed.
End runs.
