(* ===== verification/MailboxProps.v ===== *)
(** The properties of the mailbox kernel, each with a concrete run it applies to. *)

From Stdlib Require Import ZArith Lia.
From stdpp Require Import base list sets gmap strings relations sorting.
From S2P Require Import Prelude PyData Names Timestamps Storage MailboxModels MailboxKernel MailboxInvariant MailboxOps MailboxSpec MailboxDiscipline MailboxReach.

Local Open Scope Z_scope.

(** ** A concrete kernel: two events for the agent [coder], leases of a minute *)

Module Sample.
Definition noon : string := "2024-05-01T12:00:00Z".
Definition cfg : kconfig := KConfig (λ _, noon) (Some 60000000).
Definition event (id : string) (ty : InboundEventType) : InboundEventRecord :=
  MkInboundEventRecord id "coder" ty "msg_1" (Some "att_1") (Some "job:j1") 100 IE_QUEUED
    noon None None.
Definition one : kstate := (enqueue cfg (event "iev_1" TASK_REQUEST) (Some noon) kinit).1.
Definition two : kstate := (enqueue cfg (event "iev_2" TASK_REPLY) (Some noon) one).1.
Definition claimed : kstate := (claim cfg "coder" "iev_1" (Some noon) two).1.

Definition consumed : kstate := (mark_terminal cfg "coder" "iev_1" IE_CONSUMED (Some noon) claimed).1.
Definition reclaimed : kstate := (claim cfg "coder" "iev_2" (Some noon) consumed).1.

Lemma coder_owner : owner_name "coder" = true.
Proof. vm_compute. reflexivity. Qed.

Lemma expires_ok : lease_expires_at_value cfg noon = Ok (Some "2024-05-01T12:01:00Z").
Proof. vm_compute. reflexivity. Qed.

Lemma fresh_at s id ty :
  truthy id = true → q_latest id (mailbox_of s "coder") = None → fresh s (event id ty).
Proof. intros Hid Hl. split_and!; [apply coder_owner| |done]. split_and!; done. Qed.

Lemma reach_one : kstep cfg kinit one.
Proof. apply k_enqueue; [|done|done]. by apply fresh_at. Qed.

Lemma reach_two : kstep cfg one two.
Proof. apply k_enqueue; [|done|done]. by apply fresh_at; [|vm_compute]. Qed.

Lemma reach_claimed : kstep cfg two claimed.
Proof.
  apply k_claim; [apply coder_owner|done|]. unfold lease_time_ok.
  change (used_ts cfg (Some noon) two) with noon. by rewrite expires_ok.
Qed.

Lemma run_claimed : rtc (kstep cfg) kinit claimed.
Proof. eauto using rtc_l, rtc_refl, reach_one, reach_two, reach_claimed. Qed.

Lemma run_two : rtc (kstep cfg) kinit two.
Proof. eauto using rtc_l, rtc_refl, reach_one, reach_two. Qed.

Lemma reach_consumed : kstep cfg claimed consumed.
Proof. apply k_end; [apply coder_owner|done|done]. Qed.

Lemma reach_reclaimed : kstep cfg consumed reclaimed.
Proof.
  apply k_claim; [apply coder_owner|done|]. unfold lease_time_ok.
  change (used_ts cfg (Some noon) consumed) with noon. by rewrite expires_ok.
Qed.

Lemma inv_two : box_inv "coder" (box_of two "coder").
Proof. apply (reachable_inv cfg two run_two "coder" coder_owner). Qed.

Lemma inv_claimed : box_inv "coder" (box_of claimed "coder").
Proof. apply (reachable_inv cfg claimed run_claimed "coder" coder_owner). Qed.
End Sample.

(** ** Runs *)

(** C1: along every run of the kernel from empty stores, the summary record of an agent
    equals what a scan of its log and lease gives: the depth is the number of pending
    events, the reply count the number of pending replies, the head fields those of the
    first pending event, the active event that of the acquired lease. *)
Theorem reachable_summary_exact (cfg : kconfig) (s : kstate) (a : string) (m : MailboxRecord) :
  rtc (kstep cfg) kinit s → owner_name a = true → ks_mailboxes s !! a = Some m →
  mb_queue_depth m = Z.of_nat (length (pending_of (inbox_of s a))) ∧
  mb_pending_reply_count m = count_replies (pending_of (inbox_of s a)) ∧
  head_of_mailbox m = summary_head_from_event (hd_error (pending_of (inbox_of s a))) ∧
  mb_active_inbound_event_id m = active_of_lease (ks_leases s !! a) ∧
  mb_mailbox_state m =
    derive_mailbox_state (opt_truthy (active_of_lease (ks_leases s !! a)))
      (Z.of_nat (length (pending_of (inbox_of s a)))).
Proof.
  intros Hr Ha Hm. destruct (reachable_inv cfg s Hr a Ha) as [[_ Hs] _].
  unfold synced in Hs. cbn [bx_mailbox box_of] in Hs. rewrite Hm in Hs. by destruct Hs.
Qed.

Lemma reachable_summary_exact_witness :
  ∃ m, ks_mailboxes Sample.claimed !! "coder" = Some m ∧
    mb_queue_depth m = Z.of_nat (length (pending_of (inbox_of Sample.claimed "coder"))).
Proof.
  destruct (ks_mailboxes Sample.claimed !! "coder") as [m|] eqn:Hm; [|vm_compute in Hm; discriminate].
  exists m. split; [reflexivity|].
  apply (reachable_summary_exact Sample.cfg Sample.claimed "coder" m Sample.run_claimed
           Sample.coder_owner Hm).
Defined.

(** C2: along every run at most one event of an agent is being delivered: it is the head
    of the queue, and the agent's lease is acquired and names it. *)
Theorem reachable_single_delivery (cfg : kconfig) (s : kstate) (a : string)
    (r : InboundEventRecord) :
  rtc (kstep cfg) kinit s → owner_name a = true →
  r ∈ pending_of (inbox_of s a) → ie_status r = IE_DELIVERING →
  hd_error (pending_of (inbox_of s a)) = Some r ∧
  ∃ l, ks_leases s !! a = Some l ∧ is_acquired l = true ∧
    dl_inbound_event_id l = ie_inbound_event_id r.
Proof.
  intros Hr Ha Hin Hst. destruct (reachable_inv cfg s Hr a Ha) as [_ Hsteps].
  apply steps_disciplined in Hsteps as [Hd _]. by apply Hd.
Qed.

Lemma reachable_single_delivery_witness :
  ∃ r, hd_error (pending_of (inbox_of Sample.claimed "coder")) = Some r ∧
    ∃ l, ks_leases Sample.claimed !! "coder" = Some l ∧ is_acquired l = true ∧
      dl_inbound_event_id l = ie_inbound_event_id r.
Proof.
  assert (∃ r rest, pending_of (inbox_of Sample.claimed "coder") = r :: rest ∧
    ie_status r = IE_DELIVERING) as (r & rest & Hp & Hst).
  { eexists _, _. split; [vm_compute; reflexivity|reflexivity]. }
  exists r. apply (reachable_single_delivery Sample.cfg Sample.claimed "coder" r
    Sample.run_claimed Sample.coder_owner); [|exact Hst].
  rewrite Hp. by left.
Defined.



(** C4: two pending events of an agent never overtake one another: along every run, if
    [x] was before [y] in the queue and both are still pending, [x] is still before [y]. *)
Theorem run_keeps_order (cfg : kconfig) (s s' : kstate) (a x y : string) :
  rtc (kstep cfg) kinit s → rtc (kstep cfg) s s' → owner_name a = true →
  let ids s := map ie_inbound_event_id (pending_of (inbox_of s a)) in
  [x; y] `sublist_of` ids s → x ∈ ids s' → y ∈ ids s' → [x; y] `sublist_of` ids s'.
Proof.
  intros H1 H2 Ha. apply (steps_fifo a (mailbox_of s a) (mailbox_of s' a)).
  apply (run_moves cfg s s' H2); [by apply (reachable_inv cfg)|done].
Qed.

Lemma run_keeps_order_witness :
  ["iev_1"; "iev_2"] `sublist_of`
    map ie_inbound_event_id (pending_of (inbox_of Sample.claimed "coder")).
Proof.
  assert (map ie_inbound_event_id (pending_of (inbox_of Sample.two "coder")) = ["iev_1"; "iev_2"]) as E2
    by (vm_compute; reflexivity).
  assert (map ie_inbound_event_id (pending_of (inbox_of Sample.claimed "coder")) = ["iev_1"; "iev_2"]) as E3
    by (vm_compute; reflexivity).
  apply (run_keeps_order Sample.cfg Sample.two Sample.claimed "coder" "iev_1" "iev_2" Sample.run_two).
  - apply rtc_once, Sample.reach_claimed.
  - apply Sample.coder_owner.
  - rewrite E2. reflexivity.
  - rewrite E3. by left.
  - rewrite E3. right. by left.
Defined.

(** C5: lease versions fence: along a run, a lease that is acquired later than another
    carries a strictly greater version. *)
Theorem lease_versions_fence (cfg : kconfig) (s1 s2 s3 : kstate) (a : string)
    (l1 l3 : DeliveryLease) :
  rtc (kstep cfg) kinit s1 → rtc (kstep cfg) s1 s2 → kstep cfg s2 s3 → owner_name a = true →
  ks_leases s1 !! a = Some l1 →
  ks_leases s3 !! a = Some l3 → is_acquired l3 = true → ks_leases s2 !! a ≠ Some l3 →
  dl_lease_version l1 < dl_lease_version l3.
Proof.
  intros H1 H12 H23 Ha Hl1 Hl3 Hacq Hnew.
  destruct (run_moves cfg s1 s2 H12 (reachable_inv cfg s1 H1)) as [Hk2 Hs12].
  destruct (kstep_moves cfg s2 s3 H23 Hk2 a Ha) as [_ Hs23].
  pose proof (steps_mark a _ _ (Hs12 a Ha)) as Hmark.
  assert (q_mark (mailbox_of s1 a) = dl_lease_version l1) as <-.
  { unfold mailbox_of, abstract, lease_mark, box_of. simpl. by rewrite Hl1. }
  pose proof (steps_fenced a _ _ Hs23) as [_ Hf]. specialize (Hf l3 Hl3 Hacq Hnew). lia.
Qed.

Lemma lease_versions_fence_witness : 1 < 2.
Proof.
  assert (ks_leases Sample.claimed !! "coder" = Some (MkDeliveryLease "coder" "iev_1" 1 Sample.noon
    (Some Sample.noon) (Some "2024-05-01T12:01:00Z") ACQUIRED)) as H1 by (vm_compute; reflexivity).
  assert (ks_leases Sample.reclaimed !! "coder" = Some (MkDeliveryLease "coder" "iev_2" 2 Sample.noon
    (Some Sample.noon) (Some "2024-05-01T12:01:00Z") ACQUIRED)) as H2 by (vm_compute; reflexivity).
  assert (ks_leases Sample.consumed !! "coder" = None) as H3 by (vm_compute; reflexivity).
  apply (lease_versions_fence Sample.cfg Sample.claimed Sample.consumed Sample.reclaimed "coder"
    _ _ Sample.run_claimed (rtc_once _ _ Sample.reach_consumed) Sample.reach_reclaimed
    Sample.coder_owner H1 H2); [reflexivity|]. rewrite H3. discriminate.
Defined.

(** ** Refinement *)

(** C6: every call of the service on a mailbox refines its contract on the abstract mailbox
    (the log of events, the lease, the lease mark), on every branch, without raising, and
    leaves other agents alone: [claim] and [claim_next] deliver the head under a fresh
    lease with the next version; [mark_terminal] gives a pending event exactly one terminal
    row and releases its lease; [ack_reply] consumes only a reply at the head, claiming it
    first when needed; [expire_lease] abandons the event of an acquired lease;
    [rewrite_head] keeps the event's place with a new payload and status.  The stored
    summary is in step with log and lease afterwards. *)
Theorem service_implements_contract (cfg : kconfig) (a : string) (c : service_call)
    (expires : option string) (s : kstate) :
  owner_name a = true → box_inv a (box_of s a) → call_ok cfg c expires s →
  refines a (run_call cfg a c) (contract a c (call_time cfg c s) expires) s.
Proof.
  intros Ha Hinv (Hts & Hex & Hc). destruct c; cbn [call_time lease_start] in Hts, Hex, Hc |- *.
  - by apply claim_refines.
  - by apply claim_next_refines.
  - by apply mark_terminal_refines.
  - destruct Hc. by apply ack_reply_refines.
  - by apply expire_lease_refines.
  - by apply rewrite_head_refines.
Qed.

Lemma service_implements_contract_witness :
  refines "coder" (ack_reply Sample.cfg "coder" "iev_2" None None)
    (spec_ack "coder" "iev_2" Sample.noon Sample.noon (Some "2024-05-01T12:01:00Z")) Sample.two ∧
  refines "coder" (mark_terminal Sample.cfg "coder" "iev_1" IE_CONSUMED (Some Sample.noon))
    (spec_end "iev_1" IE_CONSUMED Sample.noon) Sample.claimed.
Proof.
  split.
  - apply (service_implements_contract Sample.cfg "coder" (CallAckReply "iev_2" None None)
      (Some "2024-05-01T12:01:00Z") Sample.two Sample.coder_owner Sample.inv_two).
    split; [reflexivity|]. split; [apply Sample.expires_ok|split; reflexivity].
  - apply (service_implements_contract Sample.cfg "coder"
      (CallMarkTerminal "iev_1" IE_CONSUMED (Some Sample.noon)) None Sample.claimed
      Sample.coder_owner Sample.inv_claimed).
    split; [reflexivity|]. split; [exact I|reflexivity].
Defined.

(** ** Summaries and leases *)

(** A rebuild heals: from any box of valid records, whatever the stored summary says
    or if there is none, it stores a summary that mirrors the log and the lease, and
    changes nothing else. *)
Theorem rebuild_heals (cfg : kconfig) (a ts : string) (s : kstate) :
  owner_name a = true → box_ok a (box_of s a) → blank ts = false →
  ∃ s' m, rebuild_mailbox_summary cfg a (Some ts) s = (s', Ok m) ∧
    box_of s' a = Box (inbox_of s a) (ks_leases s !! a) (Some m) ∧
    (∀ a', a' ≠ a → box_of s' a' = box_of s a') ∧
    mirrors m (pending_of (inbox_of s a)) (ks_leases s !! a).
Proof.
  intros Ha Hok Hts.
  assert (wp (rebuild_mailbox_summary cfg a (Some ts))
    (λ m s', at_box a s s' (Box (inbox_of s a) (ks_leases s !! a) (Some m)) ∧
             mirrors m (pending_of (inbox_of s a)) (ks_leases s !! a)) (λ _ _, False) s) as H.
  { eapply wp_rebuild; [done|apply at_box_refl|done|done|]. intros s' m H1 [_ H2] _. done. }
  unfold wp in H. destruct (rebuild_mailbox_summary cfg a (Some ts) s) as [s' [m|e]]; [|done].
  destruct H as [[H1 H2] H3]. by exists s', m.
Qed.

(** A box whose summary is wrong in every counter. *)
Module Damaged.
Definition lie : MailboxRecord :=
  MkMailboxRecord "mbx_coder" "coder" 7 "legacy-load" Sample.noon (Some "iev_9") 41 12 (Some "iev_9")
    None None None None None None None MB_DEGRADED 3 Sample.noon.
Definition state : kstate :=
  KState (ks_inbox Sample.two) ∅ {["coder" := lie]} 0.
End Damaged.

Lemma rebuild_heals_witness :
  ∃ s' m, rebuild_mailbox_summary Sample.cfg "coder" (Some Sample.noon) Damaged.state = (s', Ok m) ∧
    mirrors m (pending_of (inbox_of Damaged.state "coder")) None.
Proof.
  destruct (rebuild_heals Sample.cfg "coder" Sample.noon Damaged.state Sample.coder_owner)
    as (s' & m & H1 & _ & _ & H2).
  - split.
    + apply (bo_events _ _ (bi_ok _ _ Sample.inv_two)).
    + intros l Hl. vm_compute in Hl. discriminate.
    + intros m Hm. vm_compute in Hm. injection Hm as <-. split; [|reflexivity].
      split_and!; first [reflexivity|simpl; lia].
  - reflexivity.
  - exists s', m. split; [exact H1|exact H2].
Defined.

(** the compare-and-save of a summary: a writer whose expected version is not the
    stored one changes nothing and is given the stored record; otherwise its record is
    stored; a record that is missing altogether is written. *)
Lemma save_summary_no_lost_update (r : MailboxRecord) (expected : option Z) (s : kstate) :
  let stored := ks_mailboxes s !! mb_agent_name r in
  save_summary_record r expected s =
    match stored with
    | Some current =>
        if decide (Some (mb_summary_version current) = expected)
        then ((mailbox_save r s).1, Ok r) else (s, Ok current)
    | None => ((mailbox_save r s).1, Ok r)
    end.
Proof.
  cbv zeta. unfold save_summary_record, compare_and_save, mbind', mailbox_load, mget, mret'.
  destruct (ks_mailboxes s !! mb_agent_name r) as [c|] eqn:E; simpl.
  - repeat case_decide; try tauto. by rewrite E.
  - case_decide; [by rewrite E|done].
Qed.

Definition lease_overdue (cfg : kconfig) (reference : datetime) (l : DeliveryLease) : bool :=
  is_acquired l &&
  match lease_deadline cfg l with Ok (Some d) => negb (dt_ltb reference d) | _ => false end.

Lemma expired_loop_filter cfg reference ls :
  (∀ l, l ∈ ls → is_acquired l = true → is_ok (lease_deadline cfg l) = true) →
  expired_loop cfg reference ls = Ok (List.filter (lease_overdue cfg reference) ls).
Proof.
  induction ls as [|l ls IH]; intros Hall; [done|].
  assert (expired_loop cfg reference ls = Ok (List.filter (lease_overdue cfg reference) ls)) as E.
  { apply IH. intros. apply Hall; [by right|done]. }
  simpl. unfold lease_overdue at 1. destruct (is_acquired l) eqn:Ha; simpl; [|done].
  specialize (Hall l ltac:(by left) Ha). destruct (lease_deadline cfg l) as [[d|]|]; simpl; try done.
  rewrite E. by destruct (dt_ltb reference d).
Qed.

(** the sweep reports exactly the acquired leases whose deadline is not after the
    given time, in the order of their files, and changes nothing. *)
Lemma expired_leases_exact (cfg : kconfig) (now : string) (reference : datetime) (s : kstate) :
  truthy now = true → parse_timestamp (Some now) = Some reference →
  (∀ a l, ks_leases s !! a = Some l → is_ok (lease_deadline cfg l) = true) →
  expired_delivery_leases cfg (Some now) s =
    (s, Ok (List.filter (lease_overdue cfg reference)
              (map snd (merge_sort file_le (map_to_list (ks_leases s)))))).
Proof.
  intros Hn Hp Hall. unfold expired_delivery_leases, or_clock. simpl. rewrite Hn.
  unfold mbind', mret', str_or. simpl. rewrite ?Hn, Hp. unfold lease_list_all, mget, mlift.
  rewrite expired_loop_filter; [done|].
  intros l (kl & -> & Hin)%list_elem_of_fmap _. rewrite merge_sort_Permutation in Hin.
  destruct kl as [k l']. apply elem_of_map_to_list in Hin. by apply (Hall k).
Qed.

(** The end of a lease is exact: with a positive lifetime and a readable start it is
    printed so that it reads back as the very instant start plus lifetime, to the
    microsecond and in UTC; when that instant or its local time leaves the years 1 to
    9999, [OverflowError] is raised and nothing is printed. *)
Theorem lease_expiry_exact (cfg : kconfig) (ts : string) (base : datetime) (ttl : Z) :
  parse_timestamp (Some ts) = Some base → kc_lease_ttl cfg = Some ttl → 0 < ttl →
  let ends := instant base + ttl in
  if in_datetime_range (dt_local base + ttl) && in_datetime_range ends
  then ∃ text, lease_expires_at_value cfg ts = Ok (Some text) ∧
         parse_timestamp (Some text) = Some (Datetime ends (Some 0))
  else lease_expires_at_value cfg ts = raise OverflowError "date value out of range".
Proof.
  intros Hp Ht Hpos. cbv zeta. unfold lease_expires_at_value, lease_ttl_seconds. rewrite Ht.
  assert ((0 <? ttl) = true) as -> by lia. rewrite Hp. unfold dt_add.
  destruct (in_datetime_range (dt_local base + ttl)); [|done]. cbn [result_bind andb].
  assert (instant (Datetime (dt_local base + ttl) (dt_offset base)) = instant base + ttl) as E.
  { unfold instant. simpl. lia. }
  destruct (format_timestamp _) as [text|e] eqn:Ef.
  - pose proof (format_then_parse _ _ Ef) as H. unfold format_timestamp in Ef. rewrite E in *.
    destruct (in_datetime_range (instant base + ttl)); [|done]. by exists text.
  - unfold format_timestamp in Ef. rewrite E in Ef.
    destruct (in_datetime_range (instant base + ttl)); [done|]. by injection Ef as <-.
Qed.

Lemma lease_expiry_exact_witness :
  lease_expires_at_value Sample.cfg "9999-12-31T23:59:30Z" = raise OverflowError "date value out of range" ∧
  ∃ text, lease_expires_at_value Sample.cfg "2024-02-28T23:59:30Z" = Ok (Some text) ∧
    parse_timestamp (Some text) = parse_timestamp (Some "2024-02-29T00:00:30Z").
Proof.
  split.
  - assert (∃ b, parse_timestamp (Some "9999-12-31T23:59:30Z") = Some b ∧
      in_datetime_range (dt_local b + 60000000) && in_datetime_range (instant b + 60000000) = false) as (b & Hb & Hr).
    { exists (default (Datetime 0 None) (parse_timestamp (Some "9999-12-31T23:59:30Z"))).
      split; vm_compute; reflexivity. }
    pose proof (lease_expiry_exact Sample.cfg "9999-12-31T23:59:30Z" b 60000000 Hb eq_refl eq_refl) as H.
    cbv zeta in H. rewrite Hr in H. exact H.
  - assert (∃ b, parse_timestamp (Some "2024-02-28T23:59:30Z") = Some b ∧
      in_datetime_range (dt_local b + 60000000) && in_datetime_range (instant b + 60000000) = true ∧
      Some (Datetime (instant b + 60000000) (Some 0)) = parse_timestamp (Some "2024-02-29T00:00:30Z")) as (b & Hb & Hr & Hs).
    { exists (default (Datetime 0 None) (parse_timestamp (Some "2024-02-28T23:59:30Z"))).
      split; [|split]; vm_compute; reflexivity. }
    pose proof (lease_expiry_exact Sample.cfg "2024-02-28T23:59:30Z" b 60000000 Hb eq_refl eq_refl) as H.
    cbv zeta in H. rewrite Hr in H. destruct H as (text & H1 & H2). exists text. split; [exact H1|].
    rewrite H2. exact Hs.
Defined.
