(* ===== verification/Sha256.v ===== *)
(** SHA-256 ([hashlib.sha256] as [fingerprint_text] uses it), on byte strings: 32-bit
    words as [Z] reduced modulo [2^32] after every addition. *)

From Stdlib Require Import Ascii String ZArith Lia.
From stdpp Require Import base list strings.
From S2P Require Import Prelude PyData.

Local Open Scope Z_scope.

Definition w32 (z : Z) : Z := Z.land z 0xffffffff.
Definition rotr (n x : Z) : Z := Z.lor (Z.shiftr x n) (w32 (Z.shiftl x (32 - n))).

(** The constants are computed as FIPS 180-4 defines them: the first 32 bits of the
    fractional parts of the square roots of the first 8 primes and of the cube roots of
    the first 64. *)
Definition is_prime (n : nat) : bool :=
  (2 <=? n)%nat && forallb (λ d, negb (Nat.modulo n d =? 0)%nat) (seq 2 (n - 2)).

Definition first_primes : list Z := map Z.of_nat (List.filter is_prime (seq 0 312)).

(** The integer part of the cube root of [n], one binary digit per unit of fuel. *)
Fixpoint cube_root (fuel : nat) (n r : Z) : Z :=
  match fuel with
  | O => r
  | S fuel =>
      let r' := r + Z.shiftl 1 (Z.of_nat fuel) in
      cube_root fuel n (if r' * r' * r' <=? n then r' else r)
  end.

Definition sha_init : list Z :=
  Eval vm_compute in map (λ p, w32 (Z.sqrt (Z.shiftl p 64))) (take 8 first_primes).

Definition sha_k : list Z :=
  Eval vm_compute in map (λ p, w32 (cube_root 40 (Z.shiftl p 96) 0)) first_primes.

(** The 16 words of a block followed by the 48 derived ones; the list is kept reversed. *)
Fixpoint sha_schedule (n : nat) (rev_w : list Z) : list Z :=
  match n with
  | O => rev rev_w
  | S n =>
      let at_ k := nth k rev_w 0 in
      let x := at_ 14%nat in
      let y := at_ 1%nat in
      let s0 := Z.lxor (Z.lxor (rotr 7 x) (rotr 18 x)) (Z.shiftr x 3) in
      let s1 := Z.lxor (Z.lxor (rotr 17 y) (rotr 19 y)) (Z.shiftr y 10) in
      sha_schedule n (w32 (at_ 15%nat + s0 + at_ 6%nat + s1) :: rev_w)
  end.

Definition sha_round (st : list Z) (kw : Z * Z) : list Z :=
  match st with
  | [a; b; c; d; e; f; g; h] =>
      let s1 := Z.lxor (Z.lxor (rotr 6 e) (rotr 11 e)) (rotr 25 e) in
      let ch := Z.lxor (Z.land e f) (Z.land (Z.lxor e 0xffffffff) g) in
      let t1 := h + s1 + ch + kw.1 + kw.2 in
      let s0 := Z.lxor (Z.lxor (rotr 2 a) (rotr 13 a)) (rotr 22 a) in
      let maj := Z.lxor (Z.lxor (Z.land a b) (Z.land a c)) (Z.land b c) in
      [w32 (t1 + s0 + maj); a; b; c; w32 (d + t1); e; f; g]
  | _ => st
  end.

Definition sha_block (st block : list Z) : list Z :=
  let w := sha_schedule 48 (rev block) in
  zip_with (λ x y, w32 (x + y)) st (foldl sha_round st (zip sha_k w)).

Fixpoint bytes_of (s : string) : list Z :=
  match s with EmptyString => [] | String c r => code c :: bytes_of r end.

(** The message followed by a one bit, zeros, and its length in bits. *)
Definition sha_pad (bytes : list Z) : list Z :=
  let len := Z.of_nat (length bytes) in
  let zeros := (55 - len) mod 64 in
  bytes ++ [0x80] ++ replicate (Z.to_nat zeros) 0
    ++ map (λ i, Z.land (Z.shiftr (8 * len) (8 * i)) 0xff) [7; 6; 5; 4; 3; 2; 1; 0].

Fixpoint words_of (bytes : list Z) : list Z :=
  match bytes with
  | a :: b :: c :: d :: r =>
      Z.lor (Z.lor (Z.shiftl a 24) (Z.shiftl b 16)) (Z.lor (Z.shiftl c 8) d) :: words_of r
  | _ => []
  end.

Fixpoint sha_blocks (fuel : nat) (st words : list Z) : list Z :=
  match fuel, words with
  | S fuel, _ :: _ => sha_blocks fuel (sha_block st (take 16 words)) (drop 16 words)
  | _, _ => st
  end.

Definition hex_word (w : Z) : string :=
  String.concat "" (map (λ i, hex_digit (Z.land (Z.shiftr w (4 * i)) 15)) [7; 6; 5; 4; 3; 2; 1; 0]).

(** [sha256(data).hexdigest()]; the padded message has one block per 16 words, so its
    length bounds the number of blocks. *)
Definition sha256_hex (data : string) : string :=
  let words := words_of (sha_pad (bytes_of data)) in
  String.concat "" (map hex_word (sha_blocks (length words) sha_init words)).

(** *** A digest is never the empty string *)

Lemma sha_round_length st kw : length st = 8%nat → length (sha_round st kw) = 8%nat.
Proof. intros H. do 9 (destruct st as [|? st]; try done). Qed.

Lemma sha_rounds_length kws st : length st = 8%nat → length (foldl sha_round st kws) = 8%nat.
Proof.
  revert st. induction kws as [|kw kws IH]; intros st H; [done|]. simpl.
  by apply IH, sha_round_length.
Qed.

Lemma sha_blocks_length fuel st words :
  length st = 8%nat → length (sha_blocks fuel st words) = 8%nat.
Proof.
  revert st words. induction fuel as [|fuel IH]; intros st words H; [done|].
  destruct words as [|w words]; [done|]. cbn [sha_blocks]. apply IH.
  unfold sha_block. rewrite length_zip_with, sha_rounds_length by done. lia.
Qed.

Lemma truthy_append a b : truthy a = true → truthy (String.append a b) = true.
Proof. by destruct a. Qed.

Lemma truthy_concat a l : truthy a = true → truthy (String.concat "" (a :: l)) = true.
Proof. intros H. destruct l; simpl; [done|]. by apply truthy_append. Qed.

Lemma hex_digit_truthy n : truthy (hex_digit (Z.land n 15)) = true.
Proof.
  assert (0 <= Z.land n 15 < 16) as H.
  { change 15 with (Z.ones 4). rewrite Z.land_ones by lia. apply Z.mod_pos_bound. lia. }
  unfold hex_digit. destruct (Z.to_nat (Z.land n 15)) as [|k] eqn:E; [done|].
  do 15 (destruct k as [|k]; [done|]). lia.
Qed.

Lemma sha256_hex_truthy s : truthy (sha256_hex s) = true.
Proof.
  unfold sha256_hex. set (ws := sha_blocks _ _ _).
  assert (length ws = 8%nat) as H by by apply sha_blocks_length.
  destruct ws as [|w ws]; [done|]. apply truthy_concat. unfold hex_word. cbn [map].
  apply truthy_concat, hex_digit_truthy.
Qed.
