(* ===== verification/CompletionModels.v ===== *)
(** The completion records: [lib/completion/models_runtime/] and the snapshot codec of
    [lib/completion/snapshot_store.py].  Durations are in microseconds; the [float]
    fields of a request context stay out of the dictionaries. *)

From Stdlib Require Import Ascii String ZArith Lia.
From stdpp Require Import base list sets strings.
From S2P Require Import Prelude PyData Names Timestamps Storage MailboxModels Sha256.

Local Open Scope Z_scope.

Definition COMPLETION_SCHEMA : Z := 2.

(** ** Enumerations *)

Inductive CompletionStatus := CS_COMPLETED | CS_CANCELLED | CS_FAILED | CS_INCOMPLETE.

Inductive CompletionConfidence := EXACT | OBSERVED | DEGRADED.

Inductive CompletionFamily :=
  | PROTOCOL_TURN | STRUCTURED_RESULT | SESSION_BOUNDARY | ANCHORED_SESSION_STABILITY
  | TERMINAL_TEXT_QUIET.

Inductive CompletionSourceKind :=
  | SRC_PROTOCOL_EVENT_STREAM | SRC_STRUCTURED_RESULT_STREAM | SRC_SESSION_EVENT_LOG
  | SRC_SESSION_SNAPSHOT | SRC_TERMINAL_TEXT.

Inductive SelectorFamily := SEL_FINAL_MESSAGE | SEL_STRUCTURED_RESULT | SEL_SESSION_REPLY.

Inductive CompletionItemKind :=
  | ANCHOR_SEEN | ASSISTANT_CHUNK | ASSISTANT_FINAL | TOOL_CALL | TOOL_RESULT | RESULT
  | TURN_BOUNDARY | TURN_ABORTED | CANCEL_INFO | ERROR | PANE_DEAD | SESSION_SNAPSHOT
  | SESSION_MUTATION | SESSION_ROTATE.

Inductive ReplyCandidateKind :=
  | LAST_AGENT_MESSAGE | FINAL_ANSWER | RC_ASSISTANT_FINAL | ASSISTANT_CHUNK_MERGED
  | SESSION_REPLY | FALLBACK_TEXT.

Inductive RuntimeMode := PANE_BACKED | PTY_BACKED | HEADLESS.

#[export] Instance CompletionStatus_eq_dec : EqDecision CompletionStatus.
Proof. solve_decision. Defined.
#[export] Instance CompletionConfidence_eq_dec : EqDecision CompletionConfidence.
Proof. solve_decision. Defined.
#[export] Instance CompletionFamily_eq_dec : EqDecision CompletionFamily.
Proof. solve_decision. Defined.
#[export] Instance CompletionSourceKind_eq_dec : EqDecision CompletionSourceKind.
Proof. solve_decision. Defined.
#[export] Instance SelectorFamily_eq_dec : EqDecision SelectorFamily.
Proof. solve_decision. Defined.
#[export] Instance CompletionItemKind_eq_dec : EqDecision CompletionItemKind.
Proof. solve_decision. Defined.
#[export] Instance ReplyCandidateKind_eq_dec : EqDecision ReplyCandidateKind.
Proof. solve_decision. Defined.
#[export] Instance RuntimeMode_eq_dec : EqDecision RuntimeMode.
Proof. solve_decision. Defined.

Definition CompletionStatus_value (x : CompletionStatus) : string :=
  match x with
  | CS_COMPLETED => "completed" | CS_CANCELLED => "cancelled"
  | CS_FAILED => "failed" | CS_INCOMPLETE => "incomplete"
  end.

Definition CompletionConfidence_value (x : CompletionConfidence) : string :=
  match x with EXACT => "exact" | OBSERVED => "observed" | DEGRADED => "degraded" end.

Definition CompletionFamily_value (x : CompletionFamily) : string :=
  match x with
  | PROTOCOL_TURN => "protocol_turn" | STRUCTURED_RESULT => "structured_result"
  | SESSION_BOUNDARY => "session_boundary"
  | ANCHORED_SESSION_STABILITY => "anchored_session_stability"
  | TERMINAL_TEXT_QUIET => "terminal_text_quiet"
  end.

Definition CompletionSourceKind_value (x : CompletionSourceKind) : string :=
  match x with
  | SRC_PROTOCOL_EVENT_STREAM => "protocol_event_stream"
  | SRC_STRUCTURED_RESULT_STREAM => "structured_result_stream"
  | SRC_SESSION_EVENT_LOG => "session_event_log"
  | SRC_SESSION_SNAPSHOT => "session_snapshot"
  | SRC_TERMINAL_TEXT => "terminal_text"
  end.

Definition RuntimeMode_value (x : RuntimeMode) : string :=
  match x with
  | PANE_BACKED => "pane-backed" | PTY_BACKED => "pty-backed" | HEADLESS => "headless"
  end.

Definition CompletionStatus_of : string → result CompletionStatus :=
  enum_of [CS_COMPLETED; CS_CANCELLED; CS_FAILED; CS_INCOMPLETE] CompletionStatus_value
    "CompletionStatus".
Definition CompletionConfidence_of : string → result CompletionConfidence :=
  enum_of [EXACT; OBSERVED; DEGRADED] CompletionConfidence_value "CompletionConfidence".
Definition CompletionFamily_of : string → result CompletionFamily :=
  enum_of [PROTOCOL_TURN; STRUCTURED_RESULT; SESSION_BOUNDARY; ANCHORED_SESSION_STABILITY;
           TERMINAL_TEXT_QUIET] CompletionFamily_value "CompletionFamily".
Definition CompletionSourceKind_of : string → result CompletionSourceKind :=
  enum_of [SRC_PROTOCOL_EVENT_STREAM; SRC_STRUCTURED_RESULT_STREAM; SRC_SESSION_EVENT_LOG;
           SRC_SESSION_SNAPSHOT; SRC_TERMINAL_TEXT] CompletionSourceKind_value
    "CompletionSourceKind".

Definition REPLY_PRIORITY (k : ReplyCandidateKind) : Z :=
  match k with
  | LAST_AGENT_MESSAGE => 2 | FINAL_ANSWER => 3 | RC_ASSISTANT_FINAL => 4
  | ASSISTANT_CHUNK_MERGED => 5 | SESSION_REPLY => 6 | FALLBACK_TEXT => 7
  end.

(** ** Records *)

Record CompletionCursor := MkCursor {
  cc_source_kind : CompletionSourceKind;
  cc_opaque_cursor : option string;
  cc_session_path : option string;
  cc_offset : option Z;
  cc_line_no : option Z;
  cc_event_seq : option Z;
  cc_updated_at : option string;
}.

Record CompletionItem := MkItem {
  ci_kind : CompletionItemKind;
  ci_timestamp : string;
  ci_cursor : CompletionCursor;
  ci_provider : string;
  ci_agent_name : string;
  ci_req_id : string;
  ci_payload : pydict;
}.

Record ReplyCandidate := MkCandidate {
  rc_kind : ReplyCandidateKind;
  rc_text : string;
  rc_timestamp : string;
  rc_provider_turn_ref : option string;
  rc_priority : option Z;
  rc_cursor : option CompletionCursor;
}.

Record CompletionRequestContext := MkRequest {
  rq_req_id : string;
  rq_agent_name : string;
  rq_provider : string;
  rq_timeout : Z;         (** [timeout_s], in microseconds *)
  rq_anchor_text : option string;
  rq_poll_interval : Z;   (** [poll_interval_s], in microseconds *)
}.

Record CompletionState := MkState {
  st_anchor_seen : bool;
  st_reply_started : bool;
  st_reply_stable : bool;
  st_tool_active : bool;
  st_subagent_activity_seen : bool;
  st_last_reply_hash : option string;
  st_last_reply_at : option string;
  st_stable_since : option string;
  st_provider_turn_ref : option string;
  st_latest_cursor : option CompletionCursor;
  st_terminal : bool;
}.

Record CompletionDecision := MkDecision {
  cd_terminal : bool;
  cd_status : CompletionStatus;
  cd_reason : option string;
  cd_confidence : option CompletionConfidence;
  cd_reply : string;
  cd_anchor_seen : bool;
  cd_reply_started : bool;
  cd_reply_stable : bool;
  cd_provider_turn_ref : option string;
  cd_source_cursor : option CompletionCursor;
  cd_finished_at : option string;
  cd_diagnostics : pydict;
}.

Record CompletionSnapshot := MkSnapshot {
  cp_job_id : string;
  cp_agent_name : string;
  cp_profile_family : CompletionFamily;
  cp_state : CompletionState;
  cp_latest_decision : CompletionDecision;
  cp_latest_reply_preview : string;
  cp_updated_at : string;
}.

(** ** Constructors: [__post_init__] *)

Definition opt_neg (o : option Z) : bool := match o with Some z => z <? 0 | None => false end.

Definition new_cursor (c : CompletionCursor) : result CompletionCursor :=
  do! raise_if (opt_neg (cc_offset c)) CompletionValidationError "offset cannot be negative" in
  do! raise_if (opt_neg (cc_line_no c)) CompletionValidationError "line_no cannot be negative" in
  do! raise_if (opt_neg (cc_event_seq c)) CompletionValidationError
        "event_seq cannot be negative" in
  Ok c.

(** [(provider or '').strip().lower()], not empty. *)
Definition norm_provider (provider : string) : result string :=
  let p := lower (strip provider) in
  do! raise_if (negb (truthy p)) CompletionValidationError "provider cannot be empty" in
  Ok p.

Definition new_item (i : CompletionItem) : result CompletionItem :=
  do! raise_if (negb (truthy (ci_timestamp i))) CompletionValidationError
        "timestamp cannot be empty" in
  let! provider := norm_provider (ci_provider i) in
  let! agent := normalize_agent_name (ci_agent_name i) in
  do! raise_if (blank (ci_req_id i)) CompletionValidationError "req_id cannot be empty" in
  Ok (MkItem (ci_kind i) (ci_timestamp i) (ci_cursor i) provider agent (ci_req_id i)
        (ci_payload i)).

Definition new_candidate (c : ReplyCandidate) : result ReplyCandidate :=
  let text := strip (rc_text c) in
  do! raise_if (negb (truthy text)) CompletionValidationError
        "reply candidate text cannot be empty" in
  do! raise_if (negb (truthy (rc_timestamp c))) CompletionValidationError
        "reply candidate timestamp cannot be empty" in
  Ok (MkCandidate (rc_kind c) text (rc_timestamp c) (rc_provider_turn_ref c)
        (Some match rc_priority c with Some p => p | None => REPLY_PRIORITY (rc_kind c) end)
        (rc_cursor c)).

Definition new_request (r : CompletionRequestContext) : result CompletionRequestContext :=
  do! raise_if (blank (rq_req_id r)) CompletionValidationError "req_id cannot be empty" in
  let! agent := normalize_agent_name (rq_agent_name r) in
  let! provider := norm_provider (rq_provider r) in
  do! raise_if (rq_timeout r <=? 0) CompletionValidationError "timeout_s must be positive" in
  do! raise_if (rq_poll_interval r <=? 0) CompletionValidationError
        "poll_interval_s must be positive" in
  Ok (MkRequest (rq_req_id r) agent provider (rq_timeout r) (rq_anchor_text r)
        (rq_poll_interval r)).

Definition is_none {A} (o : option A) : bool := match o with None => true | Some _ => false end.

Definition new_decision (d : CompletionDecision) : result CompletionDecision :=
  if cd_terminal d then
    do! raise_if (is_none (cd_reason d)) CompletionValidationError
          "terminal decisions require reason" in
    do! raise_if (is_none (cd_confidence d)) CompletionValidationError
          "terminal decisions require confidence" in
    do! raise_if (is_none (cd_finished_at d)) CompletionValidationError
          "terminal decisions require finished_at" in
    Ok d
  else
    do! raise_if (negb (bool_decide (cd_status d = CS_INCOMPLETE))) CompletionValidationError
          "non-terminal decisions must use status=incomplete" in
    do! raise_if (negb (is_none (cd_reason d)) || negb (is_none (cd_confidence d))
                  || negb (is_none (cd_finished_at d))) CompletionValidationError
          "non-terminal decisions cannot set reason/confidence/finished_at" in
    Ok d.

Definition pending_decision (cursor : option CompletionCursor) : CompletionDecision :=
  MkDecision false CS_INCOMPLETE None None "" false false false None cursor None [].

(** [with_reply]: [replace(self, reply=reply or self.reply)] *)
Definition with_reply (d : CompletionDecision) (reply : string) : result CompletionDecision :=
  new_decision
    (MkDecision (cd_terminal d) (cd_status d) (cd_reason d) (cd_confidence d)
       (if truthy reply then reply else cd_reply d) (cd_anchor_seen d) (cd_reply_started d)
       (cd_reply_stable d) (cd_provider_turn_ref d) (cd_source_cursor d) (cd_finished_at d)
       (cd_diagnostics d)).

Definition new_snapshot (s : CompletionSnapshot) : result CompletionSnapshot :=
  do! raise_if (blank (cp_job_id s)) CompletionValidationError "job_id cannot be empty" in
  let! agent := normalize_agent_name (cp_agent_name s) in
  do! raise_if (negb (truthy (cp_updated_at s))) CompletionValidationError
        "updated_at cannot be empty" in
  Ok (MkSnapshot (cp_job_id s) agent (cp_profile_family s) (cp_state s) (cp_latest_decision s)
        (cp_latest_reply_preview s) (cp_updated_at s)).

Definition initial_state (cursor : option CompletionCursor) : CompletionState :=
  MkState false false false false false None None None None cursor false.

(** ** Dictionaries: [to_record] *)

Definition of_opt_int (o : option Z) : pyval := match o with Some z => VInt z | None => VNone end.

Definition cursor_to_record (c : CompletionCursor) : pydict :=
  [("schema_version", VInt COMPLETION_SCHEMA); ("record_type", VStr "completion_cursor");
   ("source_kind", VStr (CompletionSourceKind_value (cc_source_kind c)));
   ("opaque_cursor", of_opt_str (cc_opaque_cursor c));
   ("session_path", of_opt_str (cc_session_path c));
   ("offset", of_opt_int (cc_offset c)); ("line_no", of_opt_int (cc_line_no c));
   ("event_seq", of_opt_int (cc_event_seq c)); ("updated_at", of_opt_str (cc_updated_at c))].

Definition opt_cursor_to_record (c : option CompletionCursor) : pyval :=
  match c with Some c => VDict (cursor_to_record c) | None => VNone end.

Definition state_to_record (s : CompletionState) : pydict :=
  [("schema_version", VInt COMPLETION_SCHEMA); ("record_type", VStr "completion_state");
   ("anchor_seen", VBool (st_anchor_seen s)); ("reply_started", VBool (st_reply_started s));
   ("reply_stable", VBool (st_reply_stable s)); ("tool_active", VBool (st_tool_active s));
   ("subagent_activity_seen", VBool (st_subagent_activity_seen s));
   ("last_reply_hash", of_opt_str (st_last_reply_hash s));
   ("last_reply_at", of_opt_str (st_last_reply_at s));
   ("stable_since", of_opt_str (st_stable_since s));
   ("provider_turn_ref", of_opt_str (st_provider_turn_ref s));
   ("latest_cursor", opt_cursor_to_record (st_latest_cursor s));
   ("terminal", VBool (st_terminal s))].

Definition decision_to_record (d : CompletionDecision) : pydict :=
  [("schema_version", VInt COMPLETION_SCHEMA); ("record_type", VStr "completion_decision");
   ("terminal", VBool (cd_terminal d)); ("status", VStr (CompletionStatus_value (cd_status d)));
   ("reason", of_opt_str (cd_reason d));
   ("confidence", of_opt_str (option_map CompletionConfidence_value (cd_confidence d)));
   ("reply", VStr (cd_reply d)); ("anchor_seen", VBool (cd_anchor_seen d));
   ("reply_started", VBool (cd_reply_started d)); ("reply_stable", VBool (cd_reply_stable d));
   ("provider_turn_ref", of_opt_str (cd_provider_turn_ref d));
   ("source_cursor", opt_cursor_to_record (cd_source_cursor d));
   ("finished_at", of_opt_str (cd_finished_at d)); ("diagnostics", VDict (cd_diagnostics d))].

Definition snapshot_to_record (s : CompletionSnapshot) : pydict :=
  [("schema_version", VInt COMPLETION_SCHEMA); ("record_type", VStr "completion_snapshot");
   ("job_id", VStr (cp_job_id s)); ("agent_name", VStr (cp_agent_name s));
   ("profile_family", VStr (CompletionFamily_value (cp_profile_family s)));
   ("state", VDict (state_to_record (cp_state s)));
   ("latest_decision", VDict (decision_to_record (cp_latest_decision s)));
   ("latest_reply_preview", VStr (cp_latest_reply_preview s));
   ("updated_at", VStr (cp_updated_at s))].

(** ** Dictionaries: [snapshot_store.py] *)

Definition as_str (v : pyval) : result string :=
  match v with VStr s => Ok s | _ => raise Unmodelled "expected str" end.

Definition as_opt_int (v : pyval) : result (option Z) :=
  match v with
  | VNone => Ok None
  | VInt z => Ok (Some z)
  | _ => raise Unmodelled "expected int or None"
  end.

(** [dict(v)] and the use of [v] as a record. *)
Definition as_dict (v : pyval) : result pydict :=
  match v with VDict d => Ok d | _ => raise TypeError "expected a mapping" end.

Definition cursor_from_record (v : pyval) : result (option CompletionCursor) :=
  match v with
  | VNone => Ok None
  | _ =>
      let! r := as_dict v in
      do! validate_record COMPLETION_SCHEMA "completion_cursor" r in
      let! kind_v := dindex r "source_kind" in
      let! kind_s := as_str kind_v in
      let! kind := CompletionSourceKind_of kind_s in
      let! opaque := as_opt_str (dget r "opaque_cursor") in
      let! path := as_opt_str (dget r "session_path") in
      let! offset := as_opt_int (dget r "offset") in
      let! line_no := as_opt_int (dget r "line_no") in
      let! event_seq := as_opt_int (dget r "event_seq") in
      let! updated_at := as_opt_str (dget r "updated_at") in
      let! c := new_cursor (MkCursor kind opaque path offset line_no event_seq updated_at) in
      Ok (Some c)
  end.

Definition state_from_record (v : pyval) : result CompletionState :=
  let! r := as_dict v in
  do! validate_record COMPLETION_SCHEMA "completion_state" r in
  let! hash := as_opt_str (dget r "last_reply_hash") in
  let! reply_at := as_opt_str (dget r "last_reply_at") in
  let! since := as_opt_str (dget r "stable_since") in
  let! turn_ref := as_opt_str (dget r "provider_turn_ref") in
  let! cursor := cursor_from_record (dget r "latest_cursor") in
  let flag k := py_truthy (dget_or r k (VBool false)) in
  Ok (MkState (flag "anchor_seen") (flag "reply_started") (flag "reply_stable")
        (flag "tool_active") (flag "subagent_activity_seen") hash reply_at since turn_ref cursor
        (flag "terminal")).

Definition confidence_from (v : pyval) : result (option CompletionConfidence) :=
  match v with
  | VNone => Ok None
  | _ => let! s := as_str v in let! c := CompletionConfidence_of s in Ok (Some c)
  end.

Definition decision_from_record (v : pyval) : result CompletionDecision :=
  let! r := as_dict v in
  do! validate_record COMPLETION_SCHEMA "completion_decision" r in
  let! terminal := dindex r "terminal" in
  let! status_v := dindex r "status" in
  let! status_s := as_str status_v in
  let! status := CompletionStatus_of status_s in
  let! reason := as_opt_str (dget r "reason") in
  let! confidence := confidence_from (dget r "confidence") in
  let! reply := as_str (dget_or r "reply" (VStr "")) in
  let! turn_ref := as_opt_str (dget r "provider_turn_ref") in
  let! cursor := cursor_from_record (dget r "source_cursor") in
  let! finished_at := as_opt_str (dget r "finished_at") in
  let! diagnostics := as_dict (dget_or r "diagnostics" (VDict [])) in
  let flag k := py_truthy (dget_or r k (VBool false)) in
  new_decision
    (MkDecision (py_truthy terminal) status reason confidence reply (flag "anchor_seen")
       (flag "reply_started") (flag "reply_stable") turn_ref cursor finished_at diagnostics).

Definition completion_snapshot_from_record (r : pydict) : result CompletionSnapshot :=
  do! validate_record COMPLETION_SCHEMA "completion_snapshot" r in
  let! job_v := dindex r "job_id" in
  let! job_id := as_str job_v in
  let! agent_v := dindex r "agent_name" in
  let! agent := as_str agent_v in
  let! family_v := dindex r "profile_family" in
  let! family_s := as_str family_v in
  let! family := CompletionFamily_of family_s in
  let! state_v := dindex r "state" in
  let! state := state_from_record state_v in
  let! decision_v := dindex r "latest_decision" in
  let! decision := decision_from_record decision_v in
  let! preview := as_str (dget_or r "latest_reply_preview" (VStr "")) in
  let! updated_v := dindex r "updated_at" in
  let! updated := as_str updated_v in
  new_snapshot (MkSnapshot job_id agent family state decision preview updated).

(** ** [utils.py] *)

Fixpoint first_non_empty (payload : pydict) (keys : list string) : option string :=
  match keys with
  | [] => None
  | k :: rest =>
      match nonblank_str (dget payload k) with
      | Some s => Some s
      | None => first_non_empty payload rest
      end
  end.

(** [digest.update(str(part).encode()); digest.update(b'\x1f')] for each part. *)
Definition fingerprint_text (parts : list pyval) : string :=
  sha256_hex (String.concat "" (map (λ p, String.append (py_str p) (String (ascii_of_nat 31) "")) parts)).
Arguments fingerprint_text : simpl never.

Definition candidate_of (item : CompletionItem) (kind : ReplyCandidateKind) (keys : list string)
    : result (list ReplyCandidate) :=
  match first_non_empty (ci_payload item) keys with
  | Some text =>
      let! c := new_candidate
                  (MkCandidate kind text (ci_timestamp item)
                     (first_non_empty (ci_payload item)
                        ["turn_id"; "provider_turn_ref"; "message_id"; "session_id"])
                     None (Some (ci_cursor item))) in
      Ok [c]
  | None => Ok []
  end.

Definition reply_candidates_from_item (item : CompletionItem) : result (list ReplyCandidate) :=
  let! explicit_last := candidate_of item LAST_AGENT_MESSAGE ["last_agent_message"] in
  let! by_kind :=
    match ci_kind item with
    | RESULT => candidate_of item FINAL_ANSWER ["reply"; "result_text"; "final_answer"; "text"]
    | ASSISTANT_FINAL => candidate_of item RC_ASSISTANT_FINAL ["text"; "reply"]
    | ASSISTANT_CHUNK =>
        candidate_of item ASSISTANT_CHUNK_MERGED ["merged_text"; "text"; "reply"]
    | SESSION_SNAPSHOT | SESSION_MUTATION =>
        candidate_of item SESSION_REPLY ["reply"; "content"; "text"]
    | _ => Ok []
    end in
  let! fallback := candidate_of item FALLBACK_TEXT ["fallback_text"] in
  Ok (explicit_last ++ by_kind ++ fallback).

(** ** Valid records and round trips *)

Definition valid_cursor (c : CompletionCursor) : Prop :=
  opt_neg (cc_offset c) = false ∧ opt_neg (cc_line_no c) = false ∧ opt_neg (cc_event_seq c) = false.

Definition valid_opt_cursor (c : option CompletionCursor) : Prop :=
  match c with Some c => valid_cursor c | None => True end.

(** The shape [__post_init__] enforces. *)
Definition valid_decision (d : CompletionDecision) : Prop :=
  if cd_terminal d
  then is_none (cd_reason d) = false ∧ is_none (cd_confidence d) = false ∧
       is_none (cd_finished_at d) = false
  else cd_status d = CS_INCOMPLETE ∧ cd_reason d = None ∧ cd_confidence d = None ∧
       cd_finished_at d = None.

Definition valid_snapshot (s : CompletionSnapshot) : Prop :=
  blank (cp_job_id s) = false ∧ normal_name (cp_agent_name s) = true ∧
  truthy (cp_updated_at s) = true ∧ valid_opt_cursor (st_latest_cursor (cp_state s)) ∧
  valid_decision (cp_latest_decision s) ∧ valid_opt_cursor (cd_source_cursor (cp_latest_decision s)).

Lemma new_cursor_valid c : valid_cursor c → new_cursor c = Ok c.
Proof. intros (H1 & H2 & H3). unfold new_cursor, raise_if. by rewrite H1, H2, H3. Qed.

Lemma new_decision_valid d : valid_decision d → new_decision d = Ok d.
Proof.
  unfold valid_decision, new_decision, raise_if. destruct (cd_terminal d).
  - intros (-> & -> & ->). done.
  - intros (-> & -> & -> & ->). done.
Qed.

Lemma new_decision_ok d d' : new_decision d = Ok d' → d' = d ∧ valid_decision d.
Proof.
  unfold valid_decision, new_decision. destruct (cd_terminal d); intros H; inv_guards H; simplify_eq.
  - done.
  - apply orb_false_iff in G0 as [[G1 G2]%orb_false_iff G3].
    apply negb_false_iff in G1, G2, G3. apply negb_false_iff, bool_decide_eq_true in G.
    destruct (cd_reason d'), (cd_confidence d'), (cd_finished_at d'); done.
Qed.

Lemma as_opt_int_of o : as_opt_int (of_opt_int o) = Ok o.
Proof. by destruct o. Qed.

Lemma CompletionStatus_of_value x : CompletionStatus_of (CompletionStatus_value x) = Ok x.
Proof. by destruct x. Qed.
Lemma CompletionConfidence_of_value x : CompletionConfidence_of (CompletionConfidence_value x) = Ok x.
Proof. by destruct x. Qed.
Lemma confidence_from_value o :
  confidence_from (of_opt_str (option_map CompletionConfidence_value o)) = Ok o.
Proof. destruct o as [c|]; [|done]. simpl. by rewrite CompletionConfidence_of_value. Qed.
Lemma CompletionFamily_of_value x : CompletionFamily_of (CompletionFamily_value x) = Ok x.
Proof. by destruct x. Qed.
Lemma CompletionSourceKind_of_value x : CompletionSourceKind_of (CompletionSourceKind_value x) = Ok x.
Proof. by destruct x. Qed.

#[export] Hint Rewrite as_opt_int_of CompletionStatus_of_value CompletionConfidence_of_value
  confidence_from_value CompletionFamily_of_value CompletionSourceKind_of_value : ccb.

Lemma cursor_roundtrip c :
  valid_opt_cursor c → cursor_from_record (opt_cursor_to_record c) = Ok c.
Proof.
  destruct c as [c|]; [|done]. simpl. intros Hc.
  unfold cursor_from_record, cursor_to_record. cbn [as_dict result_bind as_str].
  codec_simpl. cbn [as_str result_bind]. codec_simpl.
  rewrite new_cursor_valid by by destruct c. by destruct c.
Qed.

Lemma state_roundtrip s :
  valid_opt_cursor (st_latest_cursor s) → state_from_record (VDict (state_to_record s)) = Ok s.
Proof.
  intros Hc. unfold state_from_record, state_to_record. cbn [as_dict result_bind].
  codec_simpl. rewrite (cursor_roundtrip _ Hc). cbn [result_bind py_truthy]. by destruct s.
Qed.

Lemma decision_roundtrip d :
  valid_decision d → valid_opt_cursor (cd_source_cursor d) →
  decision_from_record (VDict (decision_to_record d)) = Ok d.
Proof.
  intros Hd Hc. unfold decision_from_record, decision_to_record. cbn [as_dict result_bind].
  codec_simpl. cbn [as_str result_bind]. codec_simpl.
  cbn [result_bind]. codec_simpl. rewrite (cursor_roundtrip _ Hc). cbn [result_bind as_dict py_truthy].
  codec_simpl. apply new_decision_valid in Hd. by destruct d.
Qed.

Lemma completion_snapshot_roundtrip s :
  valid_snapshot s → completion_snapshot_from_record (snapshot_to_record s) = Ok s.
Proof.
  intros (Hj & Ha & Hu & Hc & Hd & Hdc).
  unfold completion_snapshot_from_record, snapshot_to_record. codec_simpl. cbn [as_str result_bind].
  codec_simpl. rewrite (state_roundtrip _ Hc). cbn [result_bind].
  codec_simpl. rewrite (decision_roundtrip _ Hd Hdc). cbn [result_bind]. codec_simpl.
  cbn [as_str result_bind]. unfold new_snapshot, raise_if. simpl.
  rewrite Hj, Hu. simpl. rewrite (normalize_agent_name_normal _ Ha). by destruct s.
Qed.

#[export] Instance CompletionSnapshot_codec : Codec CompletionSnapshot := {
  to_record := snapshot_to_record;
  from_record := completion_snapshot_from_record;
  valid_record := valid_snapshot;
  from_to_record := completion_snapshot_roundtrip;
}.

Lemma fingerprint_text_truthy parts : truthy (fingerprint_text parts) = true.
Proof. apply sha256_hex_truthy. Qed.
