(* ===== verification/Detectors.v ===== *)
(** The completion detectors: [lib/completion/detectors/].  A detector holds the request
    it is bound to, a mutable state and the latest decision; the five families share the
    base class and differ in [ingest], [tick] and [finalize_timeout]. *)

From Stdlib Require Import Ascii String ZArith Lia.
From stdpp Require Import base list sets strings.
From S2P Require Import Prelude PyData Names Timestamps Storage MailboxModels Sha256 CompletionModels.

Local Open Scope Z_scope.

Record detector := MkDetector {
  dt_family : CompletionFamily;
  dt_settle_window : Z;   (** [_settle_window_s], in microseconds *)
  dt_request_ctx : option CompletionRequestContext;
  dt_state : CompletionState;
  dt_decision : CompletionDecision;
}.

(** [AnchoredSessionStabilityDetector()]: two seconds. *)
Definition DEFAULT_SETTLE_WINDOW : Z := 2000000.

Definition new_detector (family : CompletionFamily) : detector :=
  MkDetector family DEFAULT_SETTLE_WINDOW None (initial_state None) (pending_decision None).

Abbreviation DM := (M detector).

(** ** [base.py] *)

Definition set_state (f : CompletionState → CompletionState) : DM unit :=
  mmod (λ d, MkDetector (dt_family d) (dt_settle_window d) (dt_request_ctx d) (f (dt_state d))
               (dt_decision d)).

Definition set_decision (v : CompletionDecision) : DM unit :=
  mmod (λ d, MkDetector (dt_family d) (dt_settle_window d) (dt_request_ctx d) (dt_state d) v).

Definition bind (request_ctx : CompletionRequestContext) (baseline : CompletionCursor) : DM unit :=
  mmod (λ d, MkDetector (dt_family d) (dt_settle_window d) (Some request_ctx)
               (initial_state (Some baseline)) (pending_decision (Some baseline))).

Definition require_bound : DM unit :=
  let* ctx := mget dt_request_ctx in
  match ctx with
  | None => mraise CompletionValidationError "detector must be bound before use"
  | Some _ => mret' tt
  end.

Definition st_set_cursor (c : CompletionCursor) (s : CompletionState) : CompletionState :=
  MkState (st_anchor_seen s) (st_reply_started s) (st_reply_stable s) (st_tool_active s)
    (st_subagent_activity_seen s) (st_last_reply_hash s) (st_last_reply_at s) (st_stable_since s)
    (st_provider_turn_ref s) (Some c) (st_terminal s).

Definition st_set_anchor (b : bool) (s : CompletionState) : CompletionState :=
  MkState b (st_reply_started s) (st_reply_stable s) (st_tool_active s)
    (st_subagent_activity_seen s) (st_last_reply_hash s) (st_last_reply_at s) (st_stable_since s)
    (st_provider_turn_ref s) (st_latest_cursor s) (st_terminal s).

Definition st_set_tool (b : bool) (s : CompletionState) : CompletionState :=
  MkState (st_anchor_seen s) (st_reply_started s) (st_reply_stable s) b
    (st_subagent_activity_seen s) (st_last_reply_hash s) (st_last_reply_at s) (st_stable_since s)
    (st_provider_turn_ref s) (st_latest_cursor s) (st_terminal s).

Definition st_rotate (s : CompletionState) : CompletionState :=
  MkState false false false false (st_subagent_activity_seen s) None None None
    (st_provider_turn_ref s) (st_latest_cursor s) (st_terminal s).

Definition st_set_subagent (s : CompletionState) : CompletionState :=
  MkState (st_anchor_seen s) (st_reply_started s) (st_reply_stable s) (st_tool_active s)
    true (st_last_reply_hash s) (st_last_reply_at s) (st_stable_since s)
    (st_provider_turn_ref s) (st_latest_cursor s) (st_terminal s).

Definition st_set_turn_ref (r : string) (s : CompletionState) : CompletionState :=
  MkState (st_anchor_seen s) (st_reply_started s) (st_reply_stable s) (st_tool_active s)
    (st_subagent_activity_seen s) (st_last_reply_hash s) (st_last_reply_at s) (st_stable_since s)
    (Some r) (st_latest_cursor s) (st_terminal s).

Definition st_set_reply (hash at_ : string) (stable : bool) (s : CompletionState)
    : CompletionState :=
  MkState (st_anchor_seen s) true stable (st_tool_active s)
    (st_subagent_activity_seen s) (Some hash) (Some at_) (st_stable_since s)
    (st_provider_turn_ref s) (st_latest_cursor s) (st_terminal s).

Definition st_set_since (t : string) (s : CompletionState) : CompletionState :=
  MkState (st_anchor_seen s) (st_reply_started s) (st_reply_stable s) (st_tool_active s)
    (st_subagent_activity_seen s) (st_last_reply_hash s) (st_last_reply_at s) (Some t)
    (st_provider_turn_ref s) (st_latest_cursor s) (st_terminal s).

Definition st_set_stable (s : CompletionState) : CompletionState :=
  MkState (st_anchor_seen s) (st_reply_started s) true (st_tool_active s)
    (st_subagent_activity_seen s) (st_last_reply_hash s) (st_last_reply_at s) (st_stable_since s)
    (st_provider_turn_ref s) (st_latest_cursor s) (st_terminal s).

Definition st_set_terminal (s : CompletionState) : CompletionState :=
  MkState (st_anchor_seen s) (st_reply_started s) (st_reply_stable s) (st_tool_active s)
    (st_subagent_activity_seen s) (st_last_reply_hash s) (st_last_reply_at s) (st_stable_since s)
    (st_provider_turn_ref s) (st_latest_cursor s) true.

Definition sync_cursor (cursor : option CompletionCursor) : DM unit :=
  match cursor with
  | Some c => set_state (st_set_cursor c)
  | None => mret' tt
  end.

(** The state after [_consume_common_item]. *)
Definition common_item_state (item : CompletionItem) (s : CompletionState) : CompletionState :=
  let s := st_set_cursor (ci_cursor item) s in
  let s := match ci_kind item with
           | ANCHOR_SEEN => st_set_anchor true s
           | TOOL_CALL => st_set_tool true s
           | TOOL_RESULT => st_set_tool false s
           | SESSION_ROTATE => st_rotate s
           | _ => s
           end in
  let s := match first_non_empty (ci_payload item) ["subagent_id"; "subagent_name"] with
           | Some _ => st_set_subagent s
           | None => s
           end in
  match first_non_empty (ci_payload item)
          ["turn_id"; "provider_turn_ref"; "message_id"; "provider_session_id"; "session_id"] with
  | Some r => st_set_turn_ref r s
  | None => s
  end.

Definition consume_common_item (item : CompletionItem) : DM unit :=
  set_state (common_item_state item).

Definition record_reply (item : CompletionItem) (text : string) (stable : bool)
    (fingerprint : option string) : DM unit :=
  let message := strip text in
  if negb (truthy message) then mret' tt
  else
    set_state (st_set_reply (str_or fingerprint (fingerprint_text [VStr message]))
                 (ci_timestamp item) stable).

Definition terminal_diagnostics_from_item (item : CompletionItem) : pydict :=
  foldl dpop (ci_payload item)
    ["reply"; "content"; "final_answer"; "result_text"; "last_agent_message"].

Definition set_terminal (status : CompletionStatus) (reason : string)
    (confidence : CompletionConfidence) (finished_at reply : string) (diagnostics : pydict)
    : DM unit :=
  do* set_state st_set_terminal in
  let* s := mget dt_state in
  let* decision := mlift (new_decision
        (MkDecision true status (Some reason) (Some confidence) reply (st_anchor_seen s)
           (st_reply_started s) (st_reply_stable s) (st_provider_turn_ref s)
           (st_latest_cursor s) (Some finished_at) diagnostics)) in
  set_decision decision.

Definition set_pending : DM unit :=
  let* s := mget dt_state in
  let* decision := mlift (new_decision
        (MkDecision false CS_INCOMPLETE None None "" (st_anchor_seen s) (st_reply_started s)
           (st_reply_stable s) (st_provider_turn_ref s) (st_latest_cursor s) None [])) in
  set_decision decision.

Definition terminal_status_from_abort (item : CompletionItem) : CompletionStatus :=
  let raw_status := lower (strip (py_str_or_empty (dget (ci_payload item) "status"))) in
  match CompletionStatus_of raw_status with
  | Ok st => st
  | Err _ =>
      let reason := lower (strip (py_str_or_empty (dget (ci_payload item) "reason"))) in
      if str_contains "cancel" reason || str_contains "abort" reason
      then CS_CANCELLED else CS_FAILED
  end.

Definition base_tick (now : string) (cursor : option CompletionCursor) : DM unit :=
  sync_cursor cursor.

Definition base_finalize_timeout (now : string) (cursor : option CompletionCursor) : DM unit :=
  let* d := mget dt_decision in
  if cd_terminal d then mret' tt
  else
    do* sync_cursor cursor in
    set_terminal CS_INCOMPLETE "timeout" DEGRADED now "" [].

(** [first_non_empty(item.payload, *keys) or default] *)
Definition payload_or (item : CompletionItem) (keys : list string) (d : string) : string :=
  str_or (first_non_empty (ci_payload item) keys) d.

(** [diagnostics.setdefault] of the empty-boundary reports. *)
Definition empty_boundary_diagnostics (item : CompletionItem) (default_reason diagnosis : string)
    : pydict :=
  let d := terminal_diagnostics_from_item item in
  let d := dsetdefault d "provider_terminal_reason"
             (VStr (payload_or item ["reason"; "completion_reason"] default_reason)) in
  let d := dsetdefault d "empty_reply" (VBool true) in
  let d := dsetdefault d "error_type" (VStr "empty_provider_reply") in
  let d := dsetdefault d "message" (VStr diagnosis) in
  dsetdefault d "diagnosis" (VStr diagnosis).

(** ** [protocol_turn.py] *)
Module ProtocolTurn.

Definition record_transcript_reply (item : CompletionItem) : DM unit :=
  match first_non_empty (ci_payload item)
          ["last_agent_message"; "final_answer"; "reply"; "result_text"; "text"] with
  | Some text => record_reply item text false None
  | None => mret' tt
  end.

Definition empty_diagnostics (item : CompletionItem) : pydict :=
  empty_boundary_diagnostics item "task_complete"
    "Provider protocol reported task_complete without assistant reply text; inspect the protocol session log, pane state, and authentication/API output.".

Definition complete_from_boundary (item : CompletionItem) : DM unit :=
  let reply := payload_or item ["last_agent_message"; "final_answer"; "reply"; "text"] "" in
  let complete :=
    set_terminal CS_COMPLETED (payload_or item ["reason"; "completion_reason"] "task_complete")
      EXACT (ci_timestamp item) reply [] in
  if truthy reply then do* record_reply item reply true None in complete
  else
    let* s := mget dt_state in
    if py_truthy (dget (ci_payload item) "empty_final_message") || negb (st_reply_started s)
    then set_terminal CS_INCOMPLETE "task_complete_empty_reply" EXACT (ci_timestamp item) ""
           (empty_diagnostics item)
    else complete.

Definition complete_from_abort (item : CompletionItem) : DM unit :=
  let reply := payload_or item ["last_agent_message"; "reply"; "text"] "" in
  do* (if truthy reply then record_reply item reply true None else mret' tt) in
  set_terminal (terminal_status_from_abort item) (payload_or item ["reason"] "turn_aborted") EXACT
    (ci_timestamp item) reply (terminal_diagnostics_from_item item).

Definition fail_terminal (item : CompletionItem) (reason : string) : DM unit :=
  set_terminal CS_FAILED reason DEGRADED (ci_timestamp item) ""
    (terminal_diagnostics_from_item item).

Definition ingest (item : CompletionItem) : DM unit :=
  do* require_bound in
  do* consume_common_item item in
  match ci_kind item with
  | ASSISTANT_CHUNK | ASSISTANT_FINAL | RESULT =>
      do* record_transcript_reply item in set_pending
  | TURN_BOUNDARY => complete_from_boundary item
  | TURN_ABORTED => complete_from_abort item
  | ERROR => fail_terminal item (payload_or item ["reason"; "error"] "transport_error")
  | PANE_DEAD => fail_terminal item (payload_or item ["reason"] "pane_dead")
  | _ => set_pending
  end.
End ProtocolTurn.

(** ** [session_boundary.py] *)
Module SessionBoundary.

Definition empty_diagnostics (item : CompletionItem) : pydict :=
  empty_boundary_diagnostics item "turn_duration"
    "Provider session boundary reported completion without assistant reply text; inspect the provider session log, pane state, and authentication/API output.".

Definition ingest (item : CompletionItem) : DM unit :=
  do* require_bound in
  do* consume_common_item item in
  match ci_kind item with
  | ASSISTANT_CHUNK | ASSISTANT_FINAL =>
      do* match first_non_empty (ci_payload item) ["text"; "reply"; "last_agent_message"] with
          | Some text => record_reply item text false None
          | None => mret' tt
          end in
      set_pending
  | TURN_BOUNDARY =>
      let reply := payload_or item ["last_agent_message"; "reply"; "text"] "" in
      let complete :=
        set_terminal CS_COMPLETED (payload_or item ["reason"; "completion_reason"] "turn_duration")
          OBSERVED (ci_timestamp item) reply [] in
      if truthy reply then do* record_reply item reply true None in complete
      else
        let* s := mget dt_state in
        if negb (st_reply_started s)
        then set_terminal CS_INCOMPLETE "task_complete_empty_reply" OBSERVED (ci_timestamp item) ""
               (empty_diagnostics item)
        else complete
  | ERROR =>
      set_terminal CS_FAILED (payload_or item ["reason"; "error"] "api_error") OBSERVED
        (ci_timestamp item) "" (terminal_diagnostics_from_item item)
  | PANE_DEAD =>
      set_terminal CS_FAILED (payload_or item ["reason"] "pane_dead") DEGRADED
        (ci_timestamp item) "" (terminal_diagnostics_from_item item)
  | _ => set_pending
  end.
End SessionBoundary.

(** ** [structured_result.py] *)
Module StructuredResult.

Definition record_stream_reply (item : CompletionItem) : DM unit :=
  match first_non_empty (ci_payload item) ["reply"; "final_answer"; "text"] with
  | Some text => record_reply item text false None
  | None => mret' tt
  end.

Definition complete_from_result (item : CompletionItem) : DM unit :=
  let reply := payload_or item ["reply"; "result_text"; "final_answer"; "text"] "" in
  do* (if truthy reply then record_reply item reply true None else mret' tt) in
  set_terminal CS_COMPLETED (payload_or item ["reason"; "completion_reason"] "stream_result") EXACT
    (ci_timestamp item) reply [].

Definition terminal_from_item (item : CompletionItem) (status : CompletionStatus) (reason : string)
    (confidence : CompletionConfidence) : DM unit :=
  set_terminal status reason confidence (ci_timestamp item) "" (terminal_diagnostics_from_item item).

Definition ingest (item : CompletionItem) : DM unit :=
  do* require_bound in
  do* consume_common_item item in
  match ci_kind item with
  | ASSISTANT_CHUNK | ASSISTANT_FINAL => do* record_stream_reply item in set_pending
  | RESULT => complete_from_result item
  | CANCEL_INFO =>
      terminal_from_item item CS_CANCELLED (payload_or item ["reason"] "cancel_info") EXACT
  | TURN_ABORTED =>
      terminal_from_item item (terminal_status_from_abort item)
        (payload_or item ["reason"] "turn_aborted") EXACT
  | ERROR =>
      terminal_from_item item CS_FAILED (payload_or item ["reason"; "error"] "transport_error") EXACT
  | PANE_DEAD =>
      terminal_from_item item CS_FAILED (payload_or item ["reason"] "pane_dead") DEGRADED
  | _ => set_pending
  end.
End StructuredResult.

(** ** [terminal_text_quiet.py] *)
Module TerminalTextQuiet.

Definition ingest (item : CompletionItem) : DM unit :=
  do* require_bound in
  do* consume_common_item item in
  match ci_kind item with
  | ASSISTANT_CHUNK | ASSISTANT_FINAL | RESULT =>
      let reply := first_non_empty (ci_payload item)
                     ["reply"; "result_text"; "final_answer"; "text"] in
      do* match reply with Some text => record_reply item text false None | None => mret' tt end in
      if py_truthy (py_or (dget (ci_payload item) "done_marker") (dget (ci_payload item) "ccb_done"))
      then set_terminal CS_COMPLETED "terminal_done_marker" DEGRADED (ci_timestamp item)
             (str_or reply "") []
      else set_pending
  | CANCEL_INFO =>
      set_terminal CS_CANCELLED (payload_or item ["reason"] "cancel_info") DEGRADED
        (ci_timestamp item) "" []
  | ERROR =>
      set_terminal CS_FAILED (payload_or item ["reason"; "error"] "transport_error") DEGRADED
        (ci_timestamp item) "" []
  | PANE_DEAD =>
      set_terminal CS_FAILED (payload_or item ["reason"] "pane_dead") DEGRADED
        (ci_timestamp item) "" []
  | _ => set_pending
  end.

Definition finalize_timeout (now : string) (cursor : option CompletionCursor) : DM unit :=
  do* require_bound in
  let* d := mget dt_decision in
  if cd_terminal d then mret' tt
  else
    do* sync_cursor cursor in
    let* s := mget dt_state in
    if st_reply_started s
    then set_terminal CS_COMPLETED "terminal_quiet" DEGRADED now "" []
    else base_finalize_timeout now cursor.
End TerminalTextQuiet.

(** ** [anchored_session_stability.py] *)
Module AnchoredStability.

(** [int(raw) > 0], or [bool(raw)] when [int] raises. *)
Definition tool_calls_active (raw : pyval) : bool :=
  match py_int raw with Ok z => 0 <? z | Err _ => py_truthy raw end.

Definition reply_fingerprint (item : CompletionItem) (reply : string) : string :=
  fingerprint_text
    [VStr (payload_or item ["message_id"] ""); VStr reply;
     dget (ci_payload item) "message_count"; dget (ci_payload item) "last_updated"].

Definition observe_tools (item : CompletionItem) : DM unit :=
  match dget (ci_payload item) "tool_call_count" with
  | VNone => mret' tt
  | raw => set_state (st_set_tool (tool_calls_active raw))
  end.

Definition observe_reply (item : CompletionItem) (reply : string) : DM unit :=
  let fingerprint := reply_fingerprint item reply in
  let* s := mget dt_state in
  if bool_decide (st_last_reply_hash s ≠ Some fingerprint) then
    do* record_reply item reply false (Some fingerprint) in
    set_state (st_set_since (ci_timestamp item))
  else mret' tt.

Definition ingest (item : CompletionItem) : DM unit :=
  do* require_bound in
  do* consume_common_item item in
  match ci_kind item with
  | CANCEL_INFO =>
      set_terminal CS_CANCELLED (payload_or item ["reason"] "cancel_info") OBSERVED
        (ci_timestamp item) "" []
  | SESSION_SNAPSHOT | SESSION_MUTATION =>
      do* observe_tools item in
      match first_non_empty (ci_payload item) ["reply"; "content"; "text"] with
      | Some reply => do* observe_reply item reply in set_pending
      | None => set_pending
      end
  | ERROR =>
      set_terminal CS_FAILED (payload_or item ["reason"; "error"] "session_corrupt") OBSERVED
        (ci_timestamp item) "" []
  | PANE_DEAD =>
      set_terminal CS_FAILED (payload_or item ["reason"] "pane_dead") DEGRADED
        (ci_timestamp item) "" []
  | _ => set_pending
  end.

Definition tick (now : string) (cursor : option CompletionCursor) : DM unit :=
  do* base_tick now cursor in
  let* d := mget (λ d, d) in
  let s := dt_state d in
  if cd_terminal (dt_decision d) then mret' tt
  else
    match st_stable_since s with
    | None => mret' tt
    | Some since =>
        if negb (st_reply_started s) then mret' tt
        else if st_tool_active s then set_pending
        else
          let* elapsed := mlift (seconds_between since now) in
          if dt_settle_window d <=? elapsed then
            do* set_state st_set_stable in
            set_terminal CS_COMPLETED "session_reply_stable" OBSERVED now "" []
          else set_pending
    end.

Definition finalize_timeout (now : string) (cursor : option CompletionCursor) : DM unit :=
  do* require_bound in
  let* d := mget dt_decision in
  if cd_terminal d then mret' tt
  else do* sync_cursor cursor in base_finalize_timeout now cursor.
End AnchoredStability.

(** ** The methods, by family *)

Definition ingest (item : CompletionItem) : DM unit :=
  let* family := mget dt_family in
  match family with
  | PROTOCOL_TURN => ProtocolTurn.ingest item
  | STRUCTURED_RESULT => StructuredResult.ingest item
  | SESSION_BOUNDARY => SessionBoundary.ingest item
  | ANCHORED_SESSION_STABILITY => AnchoredStability.ingest item
  | TERMINAL_TEXT_QUIET => TerminalTextQuiet.ingest item
  end.

Definition tick (now : string) (cursor : option CompletionCursor) : DM unit :=
  let* family := mget dt_family in
  match family with
  | ANCHORED_SESSION_STABILITY => AnchoredStability.tick now cursor
  | _ => base_tick now cursor
  end.

Definition finalize_timeout (now : string) (cursor : option CompletionCursor) : DM unit :=
  let* family := mget dt_family in
  match family with
  | ANCHORED_SESSION_STABILITY => AnchoredStability.finalize_timeout now cursor
  | TERMINAL_TEXT_QUIET => TerminalTextQuiet.finalize_timeout now cursor
  | _ => base_finalize_timeout now cursor
  end.
