(* ===== verification/DetectorLemmas.v ===== *)
(** What the detectors keep.  Every [ingest] on a bound detector ends normally in a valid
    decision that mirrors the state; ticks and timeouts never touch a terminal decision;
    the anchored detector's settle window starts at the last change of the reply. *)

From Stdlib Require Import Ascii String ZArith Lia.
From stdpp Require Import base list sets strings relations.
From S2P Require Import Prelude PyData Names Timestamps Storage MailboxModels Sha256 CompletionModels Detectors.

Local Open Scope Z_scope.

(** The decision says what the state says. *)
Record coherent (d : detector) : Prop := {
  co_anchor : cd_anchor_seen (dt_decision d) = st_anchor_seen (dt_state d);
  co_started : cd_reply_started (dt_decision d) = st_reply_started (dt_state d);
  co_stable : cd_reply_stable (dt_decision d) = st_reply_stable (dt_state d);
  co_turn : cd_provider_turn_ref (dt_decision d) = st_provider_turn_ref (dt_state d);
  co_cursor : cd_source_cursor (dt_decision d) = st_latest_cursor (dt_state d);
}.

Definition same_binding (d d' : detector) : Prop :=
  dt_family d' = dt_family d ∧ dt_settle_window d' = dt_settle_window d ∧
  dt_request_ctx d' = dt_request_ctx d.

(** Updates of the state only. *)
Definition prepares (m : DM unit) : Prop :=
  ∀ d, wp m (λ _ d', same_binding d d' ∧ dt_decision d' = dt_decision d) (λ _ _, False) d.

(** Ends in a fresh decision. *)
Definition settles (m : DM unit) : Prop :=
  ∀ d, wp m (λ _ d', same_binding d d' ∧ valid_decision (dt_decision d') ∧ coherent d' ∧
                     (cd_terminal (dt_decision d') = true → st_terminal (dt_state d') = true))
         (λ _ _, False) d.

Create HintDb det.

Lemma prepares_ret : prepares (mret' tt).
Proof. by intros d. Qed.
Lemma prepares_set_state f : prepares (set_state f).
Proof. by intros d. Qed.
Lemma prepares_record_reply item text stable fp : prepares (record_reply item text stable fp).
Proof.
  intros d. unfold record_reply. destruct (negb _); [apply prepares_ret|apply prepares_set_state].
Qed.
Lemma prepares_bind m k : prepares m → prepares k → prepares (do* m in k).
Proof.
  intros Hm Hk d. apply wp_bind. eapply wp_mono; [apply Hm| |done].
  intros [] d1 [(H1 & H2 & H3) H4]. eapply wp_mono; [apply Hk| |done].
  intros [] d2 [(H5 & H6 & H7) H8]. split; [split_and!; congruence|congruence].
Qed.
Lemma settles_set_terminal st r c f reply diag : settles (set_terminal st r c f reply diag).
Proof. by intros d. Qed.
Lemma settles_set_pending : settles set_pending.
Proof. by intros d. Qed.
Lemma settles_bind m k : prepares m → settles k → settles (do* m in k).
Proof.
  intros Hm Hk d. apply wp_bind. eapply wp_mono; [apply Hm| |done].
  intros [] d1 [(H1 & H2 & H3) H4]. eapply wp_mono; [apply Hk| |done].
  intros [] d2 [(H5 & H6 & H7) H8]. split; [|done].
  split_and!; congruence.
Qed.
Lemma settles_get {A} (f : detector → A) k : (∀ x, settles (k x)) → settles (let* x := mget f in k x).
Proof. intros Hk d. apply wp_bind, wp_get, Hk. Qed.
Lemma prepares_get {A} (f : detector → A) k : (∀ x, prepares (k x)) → prepares (let* x := mget f in k x).
Proof. intros Hk d. apply wp_bind, wp_get, Hk. Qed.

#[export] Hint Resolve prepares_ret prepares_set_state prepares_record_reply settles_set_terminal
  settles_set_pending : det.

(** Walk through a method: binds, conditionals and matches, down to the leaves above. *)
Ltac det_step :=
  match goal with
  | |- settles (mbind' (mget _) _) => apply settles_get; intros
  | |- prepares (mbind' (mget _) _) => apply prepares_get; intros
  | |- settles (mbind' _ _) => apply settles_bind
  | |- prepares (mbind' _ _) => apply prepares_bind
  | |- settles (match ?x with _ => _ end) => destruct x
  | |- prepares (match ?x with _ => _ end) => destruct x
  end.
Ltac det_solve := repeat det_step; eauto with det.

Lemma settles_complete_from_boundary item : settles (ProtocolTurn.complete_from_boundary item).
Proof. unfold ProtocolTurn.complete_from_boundary. cbv zeta. det_solve. Qed.
Lemma settles_complete_from_abort item : settles (ProtocolTurn.complete_from_abort item).
Proof. unfold ProtocolTurn.complete_from_abort. cbv zeta. det_solve. Qed.
Lemma settles_complete_from_result item : settles (StructuredResult.complete_from_result item).
Proof. unfold StructuredResult.complete_from_result. cbv zeta. det_solve. Qed.
Lemma prepares_transcript item : prepares (ProtocolTurn.record_transcript_reply item).
Proof. unfold ProtocolTurn.record_transcript_reply. det_solve. Qed.
Lemma prepares_stream item : prepares (StructuredResult.record_stream_reply item).
Proof. unfold StructuredResult.record_stream_reply. det_solve. Qed.
Lemma prepares_tools item : prepares (AnchoredStability.observe_tools item).
Proof. unfold AnchoredStability.observe_tools. det_solve. Qed.
Lemma prepares_observe_reply item r : prepares (AnchoredStability.observe_reply item r).
Proof. unfold AnchoredStability.observe_reply. cbv zeta. det_solve. Qed.
Lemma prepares_common item : prepares (consume_common_item item).
Proof. apply prepares_set_state. Qed.

#[export] Hint Resolve settles_complete_from_boundary settles_complete_from_abort
  settles_complete_from_result prepares_transcript prepares_stream prepares_tools
  prepares_observe_reply prepares_common : det.

(** A bound detector passes [_require_bound]. *)
Definition bound (d : detector) : Prop := is_Some (dt_request_ctx d).

Lemma wp_require_bound k d (Q : unit → detector → Prop) E :
  bound d → wp k Q E d → wp (do* require_bound in k) Q E d.
Proof.
  intros [ctx Hctx] HQ. unfold require_bound. apply wp_bind, wp_bind, wp_get.
  rewrite Hctx. by apply wp_ret.
Qed.

Lemma ingest_settles item d :
  bound d →
  wp (ingest item)
    (λ _ d', same_binding d d' ∧ valid_decision (dt_decision d') ∧ coherent d' ∧
             (cd_terminal (dt_decision d') = true → st_terminal (dt_state d') = true))
    (λ _ _, False) d.
Proof.
  intros Hb. unfold ingest. apply wp_bind, wp_get.
  destruct (dt_family d); apply wp_require_bound; try done;
    match goal with |- wp ?m _ _ d => enough (settles m) as H by apply H end;
    unfold ProtocolTurn.fail_terminal, StructuredResult.terminal_from_item; det_solve.
Qed.

Lemma ingest_unbound item d :
  dt_request_ctx d = None →
  ingest item d = (d, Err (Exn CompletionValidationError "detector must be bound before use")).
Proof.
  intros H. destruct d as [fam w ctx st dec]. simpl in H. subst ctx. by destruct fam.
Qed.

(** *** Timeouts *)

Lemma finalize_terminal now cursor d :
  bound d → cd_terminal (dt_decision d) = true → finalize_timeout now cursor d = (d, Ok tt).
Proof.
  destruct d as [fam w ctx st dec]. intros [c Hc] Ht. simpl in *. subst ctx.
  destruct fam;
    unfold finalize_timeout, AnchoredStability.finalize_timeout, TerminalTextQuiet.finalize_timeout,
      base_finalize_timeout, require_bound, mbind', mget, mret'; simpl; by rewrite Ht.
Qed.

(** The status a timeout gives. *)
Definition timeout_status (d : detector) : CompletionStatus :=
  match dt_family d with
  | TERMINAL_TEXT_QUIET => if st_reply_started (dt_state d) then CS_COMPLETED else CS_INCOMPLETE
  | _ => CS_INCOMPLETE
  end.

Lemma finalize_ends now cursor d :
  bound d → cd_terminal (dt_decision d) = false →
  ∃ d', finalize_timeout now cursor d = (d', Ok tt) ∧ same_binding d d' ∧
    cd_terminal (dt_decision d') = true ∧ cd_status (dt_decision d') = timeout_status d ∧
    cd_confidence (dt_decision d') = Some DEGRADED ∧ cd_finished_at (dt_decision d') = Some now ∧
    valid_decision (dt_decision d').
Proof.
  destruct d as [fam w ctx st dec]. intros [c Hc] Ht. simpl in *. subst ctx.
  destruct fam, cursor;
    unfold finalize_timeout, AnchoredStability.finalize_timeout, TerminalTextQuiet.finalize_timeout,
      base_finalize_timeout, require_bound, sync_cursor, set_state, mmod, mbind', mget, mret',
      timeout_status; simpl; rewrite ?Ht; simpl; rewrite ?Ht; simpl;
    try (destruct (st_reply_started st) eqn:Hs; simpl; rewrite ?Ht; simpl);
    eexists; split_and!; try done; by rewrite ?Hs.
Qed.

(** *** The settle window of the anchored detector *)

(** The last change of the reply: its fingerprint and time.  A rotation forgets it, an
    unchanged reply keeps it. *)
Definition change_of (acc : option (string * string)) (i : CompletionItem)
    : option (string * string) :=
  match ci_kind i with
  | SESSION_ROTATE => None
  | SESSION_SNAPSHOT | SESSION_MUTATION =>
      match first_non_empty (ci_payload i) ["reply"; "content"; "text"] with
      | Some reply =>
          let fp := AnchoredStability.reply_fingerprint i reply in
          if bool_decide (option_map fst acc ≠ Some fp) then Some (fp, ci_timestamp i) else acc
      | None => acc
      end
  | _ => acc
  end.

Definition reply_view (s : CompletionState) : option string * option string * bool :=
  (st_last_reply_hash s, st_stable_since s, st_reply_started s).

Definition view_of_change (acc : option (string * string)) : option string * option string * bool :=
  (option_map fst acc, option_map snd acc, negb (is_none acc)).

(** Leaves the reply view and the binding alone, and ends normally. *)
Definition keeps_view (m : DM unit) : Prop :=
  ∀ d, wp m (λ _ d', same_binding d d' ∧ reply_view (dt_state d') = reply_view (dt_state d))
         (λ _ _, False) d.

Lemma keeps_set_terminal st r c f reply diag : keeps_view (set_terminal st r c f reply diag).
Proof. by intros d. Qed.
Lemma keeps_set_pending : keeps_view set_pending.
Proof. by intros d. Qed.
Lemma keeps_tools i : keeps_view (AnchoredStability.observe_tools i).
Proof. intros d. unfold AnchoredStability.observe_tools. by destruct (dget _ _). Qed.

Lemma common_item_view i s :
  reply_view (common_item_state i s) =
    if bool_decide (ci_kind i = SESSION_ROTATE) then (None, None, false) else reply_view s.
Proof.
  unfold common_item_state. cbv zeta.
  destruct (first_non_empty _ ["subagent_id"; "subagent_name"]),
    (first_non_empty _ ["turn_id"; "provider_turn_ref"; "message_id"; "provider_session_id"; "session_id"]);
    by destruct (ci_kind i).
Qed.

Lemma first_non_empty_truthy p ks r : first_non_empty p ks = Some r → truthy (strip r) = true.
Proof.
  induction ks as [|k ks IH]; simpl; [done|]. unfold nonblank_str at 1.
  destruct (dget p k); auto. destruct (truthy (strip s)) eqn:E; [|auto].
  intros [= <-]. by rewrite strip_idemp.
Qed.

Definition follows (acc : option (string * string)) (d : detector) : Prop :=
  dt_family d = ANCHORED_SESSION_STABILITY ∧ bound d ∧ reply_view (dt_state d) = view_of_change acc.

Lemma keeps_follows m acc d (Q : unit → detector → Prop) E :
  keeps_view m → follows acc d → (∀ d', follows acc d' → Q tt d') → wp m Q E d.
Proof.
  intros Hm (Hf & Hb & Hv) HQ. eapply wp_mono; [apply Hm| |done].
  intros [] d' [(H1 & _ & H3) H4]. apply HQ. split_and!; [congruence|unfold bound; by rewrite H3|congruence].
Qed.

Lemma anchored_ingest_follows i acc d :
  follows acc d → wp (AnchoredStability.ingest i) (λ _ d', follows (change_of acc i) d') (λ _ _, False) d.
Proof.
  intros (Hf & Hb & Hv). unfold AnchoredStability.ingest. apply wp_require_bound; [done|].
  apply wp_bind. unfold consume_common_item, set_state. apply wp_mod.
  match goal with |- wp _ _ _ ?d1 => set (d1' := d1) end.
  pose proof (common_item_view i (dt_state d)) as Hc.
  assert (ci_kind i ≠ SESSION_ROTATE → follows acc d1') as Hsame.
  { intros Hk. rewrite bool_decide_false in Hc by done. split_and!; [done|done|]. simpl. congruence. }
  assert (ci_kind i = SESSION_ROTATE → follows None d1') as Hrot.
  { intros Hk. rewrite bool_decide_true in Hc by done. done. }
  clearbody d1'. unfold change_of.
  destruct (ci_kind i) eqn:Hk;
    try (eapply keeps_follows; [apply keeps_set_pending|by apply Hsame|done]);
    try (eapply keeps_follows; [apply keeps_set_terminal|by apply Hsame|done]);
    try (eapply keeps_follows; [apply keeps_set_pending|by apply Hrot|done]).
  all: specialize (Hsame ltac:(done)); clear Hrot Hc.
  all: eapply wp_bind, keeps_follows; [apply keeps_tools|done|]; intros d2 H2.
  all: destruct (first_non_empty _ _) as [reply|] eqn:Hr;
    [|by eapply keeps_follows; [apply keeps_set_pending|done|]].
  all: apply wp_bind; unfold AnchoredStability.observe_reply; apply wp_bind, wp_get.
  all: assert (st_last_reply_hash (dt_state d2) = option_map fst acc) as ->
    by (destruct H2 as (_ & _ & H2); by injection H2).
  all: case_bool_decide;
    [|by apply wp_ret; eapply keeps_follows; [apply keeps_set_pending|done|]].
  all: unfold record_reply; rewrite (first_non_empty_truthy _ _ _ Hr); cbn [negb].
  all: apply wp_bind, wp_mod, wp_mod; eapply keeps_follows; [apply keeps_set_pending| |done].
  all: destruct H2 as (H3 & H4 & _); split_and!; [done|done|].
  all: unfold reply_view; simpl; unfold AnchoredStability.reply_fingerprint, view_of_change; simpl.
  all: by rewrite fingerprint_text_truthy.
Qed.

(** A detector fed with items, with ticks in between. *)
Inductive observed (d : detector) : list CompletionItem → detector → Prop :=
  | obs_nil : observed d [] d
  | obs_ingest items i d1 d2 :
      observed d items d1 → ingest i d1 = (d2, Ok tt) → observed d (items ++ [i]) d2
  | obs_tick items now c d1 d2 :
      observed d items d1 → tick now c d1 = (d2, Ok tt) → observed d items d2.

Lemma wp_result {A} (m : DM A) Q E d d' v : wp m Q E d → m d = (d', Ok v) → Q v d'.
Proof. unfold wp. intros H Hm. by rewrite Hm in H. Qed.

Lemma follows_ingest i acc d d' :
  follows acc d → ingest i d = (d', Ok tt) → follows (change_of acc i) d'.
Proof.
  intros Hf Hi. assert (AnchoredStability.ingest i d = (d', Ok tt)) as Hi'.
  { destruct Hf as [Hf _]. unfold ingest in Hi. by rewrite (mbind_ok _ _ d d (dt_family d) eq_refl), Hf in Hi. }
  apply (wp_result _ _ _ _ _ _ (anchored_ingest_follows i acc d Hf) Hi').
Qed.

Definition with_cursor (c : option CompletionCursor) (d : detector) : detector :=
  match c with
  | Some c => MkDetector (dt_family d) (dt_settle_window d) (dt_request_ctx d)
                (st_set_cursor c (dt_state d)) (dt_decision d)
  | None => d
  end.

Lemma with_cursor_follows c acc d : follows acc d → follows acc (with_cursor c d).
Proof. by destruct c. Qed.

(** A tick, by the last change of the reply. *)
Lemma anchored_tick now c acc d :
  follows acc d →
  tick now c d =
    let d1 := with_cursor c d in
    if cd_terminal (dt_decision d) then (d1, Ok tt)
    else match acc with
         | None => (d1, Ok tt)
         | Some (_, since) =>
             if st_tool_active (dt_state d) then set_pending d1
             else match seconds_between since now with
                  | Err e => (d1, Err e)
                  | Ok elapsed =>
                      if dt_settle_window d <=? elapsed
                      then (do* set_state st_set_stable in
                            set_terminal CS_COMPLETED "session_reply_stable" OBSERVED now "" []) d1
                      else set_pending d1
                  end
         end.
Proof.
  intros (Hf & _ & Hv). unfold tick. rewrite (mbind_ok _ _ d d (dt_family d) eq_refl), Hf.
  unfold AnchoredStability.tick, base_tick.
  assert (sync_cursor c d = (with_cursor c d, Ok tt)) as Hc by by destruct c.
  rewrite (mbind_ok _ _ _ _ _ Hc).
  set (d1 := with_cursor c d).
  rewrite (mbind_ok (mget (λ d, d)) _ d1 d1 d1 eq_refl). cbv zeta.
  assert (dt_decision d1 = dt_decision d ∧ dt_settle_window d1 = dt_settle_window d ∧
    st_tool_active (dt_state d1) = st_tool_active (dt_state d) ∧
    reply_view (dt_state d1) = view_of_change acc) as (-> & -> & -> & Hv1) by by destruct c.
  destruct (cd_terminal (dt_decision d)); [done|].
  unfold reply_view, view_of_change in Hv1. destruct acc as [[fp since]|]; simpl in Hv1;
    injection Hv1 as _ -> Hst; [|done]. rewrite Hst. cbn [negb].
  destruct (st_tool_active (dt_state d)); [done|].
  unfold mlift. unfold mbind' at 1. destruct (seconds_between since now) as [e|e]; [|done].
  by case_match.
Qed.

Lemma anchored_tick_follows now c acc d d' :
  follows acc d → tick now c d = (d', Ok tt) → follows acc d'.
Proof.
  intros Hf. rewrite (anchored_tick now c acc d Hf). pose proof (with_cursor_follows c acc d Hf) as Hf1.
  cbv zeta. set (d1 := with_cursor c d) in *. clearbody d1.
  assert (set_pending d1 = (d', Ok tt) → follows acc d') as Hp.
  { intros H. eapply (keeps_follows set_pending acc d1 (λ _ d', follows acc d') (λ _ _, False)) in Hf1;
      [|apply keeps_set_pending|done]. by apply (wp_result _ _ _ _ _ _ Hf1) in H. }
  repeat case_match; try done; try (by intros [= <-]).
Qed.

Lemma observed_follows d items d' :
  follows None d → observed d items d' → follows (foldl change_of None items) d'.
Proof.
  intros Hf H. induction H as [|items i d1 d2 _ IH Hi|items now c d1 d2 _ IH Ht]; [done| |].
  - rewrite foldl_app. simpl. by eapply follows_ingest.
  - by eapply anchored_tick_follows.
Qed.
