(* ===== verification/Jobs.v ===== *)
(** Jobs: [lib/ccbd/api_models_runtime/] (envelopes, job, submission and event records,
    receipts) and the job store of [lib/jobs/store.py] over its JSONL files, with the
    growing-window query of recent jobs. *)

From Stdlib Require Import Ascii String ZArith Lia.
From stdpp Require Import base list sets strings gmap sorting.
From S2P Require Import Prelude PyData Names Storage MailboxModels CompletionModels.

Local Open Scope Z_scope.

Definition JOB_SCHEMA : Z := 2.

Inductive JobStatus :=
  | JS_ACCEPTED | JS_QUEUED | JS_RUNNING | JS_COMPLETED | JS_CANCELLED | JS_FAILED | JS_INCOMPLETE.
Inductive DeliveryScope := SINGLE | BROADCAST.
Inductive TargetKind := TARGET_AGENT.

#[export] Instance JobStatus_eq_dec : EqDecision JobStatus.
Proof. solve_decision. Defined.
#[export] Instance DeliveryScope_eq_dec : EqDecision DeliveryScope.
Proof. solve_decision. Defined.

Definition JobStatus_value (x : JobStatus) : string :=
  match x with
  | JS_ACCEPTED => "accepted" | JS_QUEUED => "queued" | JS_RUNNING => "running"
  | JS_COMPLETED => "completed" | JS_CANCELLED => "cancelled" | JS_FAILED => "failed"
  | JS_INCOMPLETE => "incomplete"
  end.
Definition DeliveryScope_value (x : DeliveryScope) : string :=
  match x with SINGLE => "single" | BROADCAST => "broadcast" end.
Definition TargetKind_value (x : TargetKind) : string := "agent".

Definition JobStatus_of : string → result JobStatus :=
  enum_of [JS_ACCEPTED; JS_QUEUED; JS_RUNNING; JS_COMPLETED; JS_CANCELLED; JS_FAILED; JS_INCOMPLETE]
    JobStatus_value "JobStatus".
Definition DeliveryScope_of : string → result DeliveryScope :=
  enum_of [SINGLE; BROADCAST] DeliveryScope_value "DeliveryScope".
Definition TargetKind_of : string → result TargetKind :=
  enum_of [TARGET_AGENT] TargetKind_value "TargetKind".

Lemma JobStatus_of_value x : JobStatus_of (JobStatus_value x) = Ok x.
Proof. by destruct x. Qed.
Lemma DeliveryScope_of_value x : DeliveryScope_of (DeliveryScope_value x) = Ok x.
Proof. by destruct x. Qed.
Lemma TargetKind_of_value x : TargetKind_of (TargetKind_value x) = Ok x.
Proof. by destruct x. Qed.
#[export] Hint Rewrite JobStatus_of_value DeliveryScope_of_value TargetKind_of_value : ccb.

Definition job_terminal (s : JobStatus) : bool :=
  match s with JS_COMPLETED | JS_CANCELLED | JS_FAILED | JS_INCOMPLETE => true | _ => false end.

(** ** Records *)

Record MessageEnvelope := MkEnvelope {
  me_project_id : string;
  me_to_agent : string;
  me_from_actor : string;
  me_body : string;
  me_task_id : option string;
  me_reply_to : option string;
  me_message_type : string;
  me_delivery_scope : DeliveryScope;
  me_silence_on_success : bool;
  me_route_options : pydict;
  me_body_artifact : option pydict;
}.

Record JobRecord := MkJob {
  jr_job_id : string;
  jr_submission_id : option string;
  jr_agent_name : string;
  jr_provider : string;
  jr_request : MessageEnvelope;
  jr_status : JobStatus;
  jr_terminal_decision : option pydict;
  jr_cancel_requested_at : option string;
  jr_created_at : string;
  jr_updated_at : string;
  jr_workspace_path : option string;
  jr_target_kind : TargetKind;
  jr_target_name : string;
  jr_provider_instance : option string;
  jr_provider_options : pydict;
}.

Record SubmissionRecord := MkSubmission {
  sr_submission_id : string;
  sr_project_id : string;
  sr_from_actor : string;
  sr_target_scope : string;
  sr_task_id : option string;
  sr_job_ids : list string;
  sr_created_at : string;
  sr_updated_at : string;
}.

Record JobEvent := MkJobEvent {
  je_event_id : string;
  je_job_id : string;
  je_agent_name : string;
  je_type : string;
  je_payload : pydict;
  je_timestamp : string;
  je_target_kind : TargetKind;
  je_target_name : string;
}.

Definition new_envelope (m : MessageEnvelope) : result MessageEnvelope :=
  do! raise_if (negb (truthy (me_project_id m))) ValueError "project_id cannot be empty" in
  do! raise_if (negb (truthy (me_to_agent m))) ValueError "to_agent cannot be empty" in
  do! raise_if (negb (truthy (me_from_actor m))) ValueError "from_actor cannot be empty" in
  do! raise_if (blank (me_body m)) ValueError "body cannot be empty" in
  let! to_agent := if String.eqb (lower (strip (me_to_agent m))) "all" then Ok "all"
                   else normalize_agent_name (me_to_agent m) in
  let! from_actor := normalize_actor_name (Some (me_from_actor m)) in
  do! raise_if (String.eqb to_agent "all" && bool_decide (me_delivery_scope m ≠ BROADCAST))
        ValueError "to_agent=all requires delivery_scope=broadcast" in
  do! raise_if (negb (String.eqb to_agent "all") && bool_decide (me_delivery_scope m ≠ SINGLE))
        ValueError "single target requires delivery_scope=single" in
  Ok (MkEnvelope (me_project_id m) to_agent from_actor (me_body m) (me_task_id m) (me_reply_to m)
        (me_message_type m) (me_delivery_scope m) (me_silence_on_success m) (me_route_options m)
        (me_body_artifact m)).

(** [target_name or agent_name] *)
Definition or_str (a b : string) : string := if truthy a then a else b.

Definition new_job (j : JobRecord) : result JobRecord :=
  do! raise_if (negb (truthy (jr_job_id j))) ValueError "job_id cannot be empty" in
  let! agent := normalize_agent_name (or_str (jr_target_name j) (jr_agent_name j)) in
  do! raise_if (job_terminal (jr_status j) && is_none (jr_terminal_decision j)) ValueError
        "terminal_decision is required for terminal job states" in
  Ok (MkJob (jr_job_id j) (jr_submission_id j) agent (jr_provider j) (jr_request j) (jr_status j)
        (jr_terminal_decision j) (jr_cancel_requested_at j) (jr_created_at j) (jr_updated_at j)
        (jr_workspace_path j) (jr_target_kind j) agent None (jr_provider_options j)).

Definition new_submission (s : SubmissionRecord) : result SubmissionRecord :=
  do! raise_if (negb (truthy (sr_submission_id s))) ValueError "submission_id cannot be empty" in
  do! raise_if (negb (truthy (sr_project_id s))) ValueError "project_id cannot be empty" in
  let! actor := normalize_actor_name (Some (sr_from_actor s)) in
  Ok (MkSubmission (sr_submission_id s) (sr_project_id s) actor (sr_target_scope s) (sr_task_id s)
        (sr_job_ids s) (sr_created_at s) (sr_updated_at s)).

Definition new_job_event (e : JobEvent) : result JobEvent :=
  do! raise_if (negb (truthy (je_event_id e))) ValueError "event_id cannot be empty" in
  do! raise_if (negb (truthy (je_job_id e))) ValueError "job_id cannot be empty" in
  do! raise_if (negb (truthy (je_type e))) ValueError "type cannot be empty" in
  let! agent := normalize_agent_name (or_str (je_target_name e) (je_agent_name e)) in
  Ok (MkJobEvent (je_event_id e) (je_job_id e) agent (je_type e) (je_payload e) (je_timestamp e)
        (je_target_kind e) agent).

(** ** Dictionaries *)

Definition opt_dict (d : option pydict) : pyval :=
  match d with Some d => VDict d | None => VNone end.

Definition envelope_to_record (m : MessageEnvelope) : pydict :=
  [("project_id", VStr (me_project_id m)); ("to_agent", VStr (me_to_agent m));
   ("from_actor", VStr (me_from_actor m)); ("body", VStr (me_body m));
   ("task_id", of_opt_str (me_task_id m)); ("reply_to", of_opt_str (me_reply_to m));
   ("message_type", VStr (me_message_type m));
   ("delivery_scope", VStr (DeliveryScope_value (me_delivery_scope m)));
   ("silence_on_success", VBool (me_silence_on_success m));
   ("route_options", VDict (me_route_options m));
   ("body_artifact", match me_body_artifact m with Some (e :: d) => VDict (e :: d) | _ => VNone end)].

Definition job_to_record (j : JobRecord) : pydict :=
  [("schema_version", VInt JOB_SCHEMA); ("record_type", VStr "job_record");
   ("job_id", VStr (jr_job_id j)); ("submission_id", of_opt_str (jr_submission_id j));
   ("agent_name", VStr (jr_agent_name j));
   ("target_kind", VStr (TargetKind_value (jr_target_kind j)));
   ("target_name", VStr (jr_target_name j)); ("provider", VStr (jr_provider j));
   ("provider_instance", of_opt_str (jr_provider_instance j));
   ("provider_options", VDict (jr_provider_options j));
   ("request", VDict (envelope_to_record (jr_request j)));
   ("status", VStr (JobStatus_value (jr_status j)));
   ("terminal_decision", opt_dict (jr_terminal_decision j));
   ("cancel_requested_at", of_opt_str (jr_cancel_requested_at j));
   ("created_at", VStr (jr_created_at j)); ("updated_at", VStr (jr_updated_at j));
   ("workspace_path", of_opt_str (jr_workspace_path j))].

Definition submission_to_record (s : SubmissionRecord) : pydict :=
  [("schema_version", VInt JOB_SCHEMA); ("record_type", VStr "submission_record");
   ("submission_id", VStr (sr_submission_id s)); ("project_id", VStr (sr_project_id s));
   ("from_actor", VStr (sr_from_actor s)); ("target_scope", VStr (sr_target_scope s));
   ("task_id", of_opt_str (sr_task_id s)); ("job_ids", VList (map VStr (sr_job_ids s)));
   ("created_at", VStr (sr_created_at s)); ("updated_at", VStr (sr_updated_at s))].

Definition job_event_to_record (e : JobEvent) : pydict :=
  [("schema_version", VInt JOB_SCHEMA); ("record_type", VStr "job_event");
   ("event_id", VStr (je_event_id e)); ("job_id", VStr (je_job_id e));
   ("agent_name", VStr (je_agent_name e));
   ("target_kind", VStr (TargetKind_value (je_target_kind e)));
   ("target_name", VStr (je_target_name e)); ("type", VStr (je_type e));
   ("payload", VDict (je_payload e)); ("timestamp", VStr (je_timestamp e))].

(** ** [jobs/store.py]: decoders *)

Definition str_at (r : pydict) (k : string) : result string :=
  let! v := dindex r k in as_str v.

Definition opt_dict_of (v : pyval) : result (option pydict) :=
  match v with
  | VNone => Ok None
  | VDict d => Ok (Some d)
  | _ => raise Unmodelled "expected dict or None"
  end.

Definition message_envelope_from_record (r : pydict) : result MessageEnvelope :=
  let! project_id := str_at r "project_id" in
  let! to_agent := str_at r "to_agent" in
  let! from_actor := str_at r "from_actor" in
  let! body := str_at r "body" in
  let! task_id := as_opt_str (dget r "task_id") in
  let! reply_to := as_opt_str (dget r "reply_to") in
  let! message_type := str_at r "message_type" in
  let! scope_s := str_at r "delivery_scope" in
  let! scope := DeliveryScope_of scope_s in
  let! route_options := py_dict_or_empty (dget r "route_options") in
  new_envelope
    (MkEnvelope project_id to_agent from_actor body task_id reply_to message_type scope
       (py_truthy (dget_or r "silence_on_success" (VBool false))) route_options
       match dget r "body_artifact" with VDict d => Some d | _ => None end).

Definition job_record_from_record (r : pydict) : result JobRecord :=
  do! validate_record JOB_SCHEMA "job_record" r in
  let! job_id := str_at r "job_id" in
  let! submission_id := as_opt_str (dget r "submission_id") in
  let! agent_name := as_str (dget_or r "agent_name" (VStr "")) in
  let! provider := str_at r "provider" in
  let! request_v := dindex r "request" in
  let! request_d := as_dict request_v in
  let! request := message_envelope_from_record request_d in
  let! status_s := str_at r "status" in
  let! status := JobStatus_of status_s in
  let! decision := opt_dict_of (dget r "terminal_decision") in
  let! cancel := as_opt_str (dget r "cancel_requested_at") in
  let! created := str_at r "created_at" in
  let! updated := str_at r "updated_at" in
  let! workspace := as_opt_str (dget r "workspace_path") in
  let! kind_s := as_str (dget_or r "target_kind" (VStr (TargetKind_value TARGET_AGENT))) in
  let! target_name := as_str (dget_or r "target_name" (dget_or r "agent_name" (VStr ""))) in
  let! instance := as_opt_str (dget r "provider_instance") in
  let! options := py_dict_or_empty (dget r "provider_options") in
  do! raise_if (negb (truthy job_id)) ValueError "job_id cannot be empty" in
  let! kind := TargetKind_of kind_s in
  new_job (MkJob job_id submission_id agent_name provider request status decision cancel created
             updated workspace kind target_name instance options).

Fixpoint strs_of (l : list pyval) : result (list string) :=
  match l with
  | [] => Ok []
  | v :: l' => let! s := as_str v in let! r := strs_of l' in Ok (s :: r)
  end.

Definition submission_record_from_record (r : pydict) : result SubmissionRecord :=
  do! validate_record JOB_SCHEMA "submission_record" r in
  let! submission_id := str_at r "submission_id" in
  let! project_id := str_at r "project_id" in
  let! from_actor := str_at r "from_actor" in
  let! target_scope := str_at r "target_scope" in
  let! task_id := as_opt_str (dget r "task_id") in
  let! job_ids := match dget_or r "job_ids" (VList []) with
                  | VList l => strs_of l
                  | _ => raise TypeError "list() argument must be iterable"
                  end in
  let! created := as_str (dget_or r "created_at" (VStr "")) in
  let! updated := as_str (dget_or r "updated_at" (VStr "")) in
  new_submission (MkSubmission submission_id project_id from_actor target_scope task_id job_ids
                    created updated).

Definition job_event_from_record (r : pydict) : result JobEvent :=
  do! validate_record JOB_SCHEMA "job_event" r in
  let! event_id := str_at r "event_id" in
  let! job_id := str_at r "job_id" in
  let! agent_name := as_str (dget_or r "agent_name" (VStr "")) in
  let! kind_s := as_str (dget_or r "target_kind" (VStr (TargetKind_value TARGET_AGENT))) in
  let! target_name := as_str (dget_or r "target_name" (dget_or r "agent_name" (VStr ""))) in
  let! type := str_at r "type" in
  let! payload := as_dict (dget_or r "payload" (VDict [])) in
  let! timestamp := str_at r "timestamp" in
  do! raise_if (negb (truthy event_id)) ValueError "event_id cannot be empty" in
  do! raise_if (negb (truthy job_id)) ValueError "job_id cannot be empty" in
  do! raise_if (negb (truthy type)) ValueError "type cannot be empty" in
  let! kind := TargetKind_of kind_s in
  new_job_event (MkJobEvent event_id job_id agent_name type payload timestamp kind target_name).

(** ** Valid records and round trips *)

(** Evaluate these decoders on a dictionary just written. *)
Ltac job_simpl :=
  repeat (progress (codec_simpl;
    cbn [as_str as_dict py_truthy py_dict_or_empty opt_dict_of result_bind negb raise_if])).

Definition valid_envelope (m : MessageEnvelope) : Prop :=
  new_envelope m = Ok m ∧ me_body_artifact m ≠ Some [].
Definition valid_job (j : JobRecord) : Prop := new_job j = Ok j ∧ valid_envelope (jr_request j).
Definition valid_submission (s : SubmissionRecord) : Prop := new_submission s = Ok s.
Definition valid_job_event (e : JobEvent) : Prop := new_job_event e = Ok e.

Lemma envelope_roundtrip m :
  valid_envelope m → message_envelope_from_record (envelope_to_record m) = Ok m.
Proof.
  intros [Hm Ha]. unfold message_envelope_from_record, envelope_to_record, str_at.
  job_simpl. destruct m as [pid to fr body tid rt ty sc sil ro ba]. simpl in *.
  destruct ba as [[|e d]|]; [done|exact Hm..].
Qed.

Lemma opt_dict_of_dict d : opt_dict_of (opt_dict d) = Ok d.
Proof. by destruct d. Qed.

Lemma valid_job_id j : new_job j = Ok j → truthy (jr_job_id j) = true.
Proof. unfold new_job. intros H. inv_guards H. by apply negb_false_iff in G. Qed.

Lemma job_roundtrip j : valid_job j → job_record_from_record (job_to_record j) = Ok j.
Proof.
  intros [Hj Hr]. unfold job_record_from_record, job_to_record, str_at.
  job_simpl. rewrite (envelope_roundtrip _ Hr). job_simpl. rewrite opt_dict_of_dict. job_simpl.
  rewrite (valid_job_id j Hj). job_simpl. by destruct j.
Qed.

Lemma strs_of_map l : strs_of (map VStr l) = Ok l.
Proof. induction l as [|s l IH]; simpl; [done|]. by rewrite IH. Qed.

Lemma submission_roundtrip s :
  valid_submission s → submission_record_from_record (submission_to_record s) = Ok s.
Proof.
  intros Hs. unfold submission_record_from_record, submission_to_record, str_at.
  job_simpl. rewrite strs_of_map. job_simpl. by destruct s.
Qed.

Lemma valid_job_event_ids e :
  new_job_event e = Ok e →
  truthy (je_event_id e) = true ∧ truthy (je_job_id e) = true ∧ truthy (je_type e) = true.
Proof.
  unfold new_job_event. intros H. inv_guards H. by rewrite !negb_false_iff in *.
Qed.

Lemma job_event_roundtrip e :
  valid_job_event e → job_event_from_record (job_event_to_record e) = Ok e.
Proof.
  intros He. destruct (valid_job_event_ids e He) as (H1 & H2 & H3).
  unfold job_event_from_record, job_event_to_record, str_at.
  job_simpl. rewrite H1, H2, H3. job_simpl. by destruct e.
Qed.

#[export] Instance JobRecord_codec : Codec JobRecord := {
  to_record := job_to_record; from_record := job_record_from_record;
  valid_record := valid_job; from_to_record := job_roundtrip }.
#[export] Instance SubmissionRecord_codec : Codec SubmissionRecord := {
  to_record := submission_to_record; from_record := submission_record_from_record;
  valid_record := valid_submission; from_to_record := submission_roundtrip }.
#[export] Instance JobEvent_codec : Codec JobEvent := {
  to_record := job_event_to_record; from_record := job_event_from_record;
  valid_record := valid_job_event; from_to_record := job_event_roundtrip }.
