(* ===== verification/Api.v ===== *)
(** The rest of the daemon's API records: receipts ([receipts.py]) and the RPC envelopes
    ([rpc.py]). *)

From Stdlib Require Import Ascii String ZArith Lia.
From stdpp Require Import base list strings.
From S2P Require Import Prelude PyData Names Storage MailboxModels CompletionModels Jobs.

Local Open Scope Z_scope.

Definition API_VERSION : Z := 2.

(** ** Receipts *)

Record AcceptedJobReceipt := MkAccepted {
  ar_job_id : string;
  ar_agent_name : string;
  ar_status : JobStatus;
  ar_accepted_at : string;
  ar_target_kind : TargetKind;
  ar_target_name : string;
  ar_provider_instance : option string;
}.

Record CancelReceipt := MkCancel {
  cr_job_id : string;
  cr_agent_name : string;
  cr_status : JobStatus;
  cr_cancelled_at : string;
  cr_target_kind : TargetKind;
  cr_target_name : string;
  cr_provider_instance : option string;
}.

Record SubmitReceipt := MkSubmit {
  su_accepted_at : string;
  su_jobs : list AcceptedJobReceipt;
  su_submission_id : option string;
}.

(** [status in {ACCEPTED, QUEUED, RUNNING}] *)
Definition job_live (s : JobStatus) : bool :=
  match s with JS_ACCEPTED | JS_QUEUED | JS_RUNNING => true | _ => false end.

(** The constructor's branch for agents; [TargetKind] has no other member. *)
Definition new_accepted (a : AcceptedJobReceipt) : result AcceptedJobReceipt :=
  do! raise_if (negb (truthy (ar_job_id a))) ValueError "job_id cannot be empty" in
  let! agent := normalize_agent_name (or_str (ar_target_name a) (ar_agent_name a)) in
  do! raise_if (negb (job_live (ar_status a))) ValueError
        "accepted receipt status must be accepted, queued, or running" in
  do! raise_if (negb (truthy (ar_accepted_at a))) ValueError "accepted_at cannot be empty" in
  Ok (MkAccepted (ar_job_id a) agent (ar_status a) (ar_accepted_at a) (ar_target_kind a) agent None).

Definition new_cancel (c : CancelReceipt) : result CancelReceipt :=
  do! raise_if (negb (truthy (cr_job_id c))) ValueError "job_id cannot be empty" in
  let! agent := normalize_agent_name (or_str (cr_target_name c) (cr_agent_name c)) in
  do! raise_if (bool_decide (cr_status c ≠ JS_CANCELLED)) ValueError
        "cancel receipt status must be cancelled" in
  do! raise_if (negb (truthy (cr_cancelled_at c))) ValueError "cancelled_at cannot be empty" in
  Ok (MkCancel (cr_job_id c) agent (cr_status c) (cr_cancelled_at c) (cr_target_kind c) agent None).

Definition new_submit (s : SubmitReceipt) : result SubmitReceipt :=
  do! raise_if (negb (truthy (su_accepted_at s))) ValueError "accepted_at cannot be empty" in
  do! raise_if (bool_decide (su_jobs s = [])) ValueError "jobs cannot be empty" in
  do! raise_if (is_none (su_submission_id s) && bool_decide (length (su_jobs s) ≠ 1%nat)) ValueError
        "single submit receipt requires exactly one job" in
  Ok s.

Definition is_broadcast (s : SubmitReceipt) : bool := negb (is_none (su_submission_id s)).

(** The fields of a receipt up to its time. *)
Definition receipt_fields (job_id agent_name : string) (kind : TargetKind) (target_name : string)
    (instance : option string) (status : JobStatus) : pydict :=
  [("job_id", VStr job_id); ("agent_name", VStr agent_name);
   ("target_kind", VStr (TargetKind_value kind)); ("target_name", VStr target_name);
   ("provider_instance", of_opt_str instance); ("status", VStr (JobStatus_value status))].

Definition accepted_to_record (a : AcceptedJobReceipt) : pydict :=
  receipt_fields (ar_job_id a) (ar_agent_name a) (ar_target_kind a) (ar_target_name a)
    (ar_provider_instance a) (ar_status a) ++ [("accepted_at", VStr (ar_accepted_at a))].

Definition cancel_to_record (c : CancelReceipt) : pydict :=
  receipt_fields (cr_job_id c) (cr_agent_name c) (cr_target_kind c) (cr_target_name c)
    (cr_provider_instance c) (cr_status c) ++ [("cancelled_at", VStr (cr_cancelled_at c))].

(** [self.jobs[0]] of a receipt without jobs, which the constructor excludes, is an
    [IndexError]; here it is the empty dictionary. *)
Definition submit_to_record (s : SubmitReceipt) : pydict :=
  match su_submission_id s, su_jobs s with
  | None, j :: _ =>
      receipt_fields (ar_job_id j) (ar_agent_name j) (ar_target_kind j) (ar_target_name j)
        (ar_provider_instance j) (ar_status j) ++ [("accepted_at", VStr (su_accepted_at s))]
  | None, [] => []
  | Some id, jobs =>
      [("submission_id", VStr id); ("accepted_at", VStr (su_accepted_at s));
       ("jobs", VList (map (λ j, VDict (accepted_to_record j)) jobs))]
  end.

(** ** RPC envelopes *)

Record RpcRequest := MkRpcRequest {
  rpc_op : string;
  rpc_request : pydict;
  rpc_version : Z;
}.

Record RpcResponse := MkRpcResponse {
  rsp_ok : bool;
  rsp_payload : pydict;
  rsp_error : option string;
  rsp_version : Z;
}.

Definition new_rpc_request (r : RpcRequest) : result RpcRequest :=
  do! raise_if (negb (rpc_version r =? API_VERSION)) ValueError "api_version must be 2" in
  do! raise_if (blank (rpc_op r)) ValueError "op cannot be empty" in
  Ok r.

Definition rpc_request_to_record (r : RpcRequest) : pydict :=
  [("api_version", VInt (rpc_version r)); ("op", VStr (rpc_op r)); ("request", VDict (rpc_request r))].

Definition require_api_version (r : pydict) : result Z :=
  match dget r "api_version" with
  | VInt z => if z =? API_VERSION then Ok z else raise ValueError "unsupported api_version"
  | _ => raise ValueError "unsupported api_version"
  end.

Definition rpc_request_from_record (r : pydict) : result RpcRequest :=
  let! version := require_api_version r in
  match dget_or r "request" (VDict []) with
  | VDict payload => new_rpc_request (MkRpcRequest (py_str_or_empty (dget r "op")) payload version)
  | _ => raise ValueError "request must be an object"
  end.

Definition new_rpc_response (r : RpcResponse) : result RpcResponse :=
  do! raise_if (negb (rsp_version r =? API_VERSION)) ValueError "api_version must be 2" in
  do! raise_if (negb (rsp_ok r) && negb (truthy (stripped (rsp_error r)))) ValueError
        "error response requires a message" in
  Ok r.

Definition rpc_success (payload : pydict) : result RpcResponse :=
  new_rpc_response (MkRpcResponse true payload None API_VERSION).
Definition rpc_failure (error : string) (payload : pydict) : result RpcResponse :=
  new_rpc_response (MkRpcResponse false payload (Some error) API_VERSION).

Definition rpc_response_to_record (r : RpcResponse) : pydict :=
  let record := [("api_version", VInt (rsp_version r)); ("ok", VBool (rsp_ok r))] in
  if rsp_ok r then dupdate record (rsp_payload r)
  else dset record "error" (of_opt_str (rsp_error r)).

Definition rpc_response_from_record (r : pydict) : result RpcResponse :=
  let! version := require_api_version r in
  if py_truthy (dget r "ok")
  then new_rpc_response (MkRpcResponse true (dpop (dpop r "api_version") "ok") None version)
  else new_rpc_response (MkRpcResponse false [] (Some (py_str_or_empty (dget r "error"))) version).

(** ** Lemmas *)

(** A Python dictionary has each key once. *)
Definition dict_ok (d : pydict) : Prop := NoDup (map fst d).

Lemma dset_fresh d k v : k ∉ map fst d → dset d k v = d ++ [(k, v)].
Proof.
  induction d as [|[k' v'] d IH]; simpl; intros H; [done|].
  apply not_elem_of_cons in H as [Hne Hd]. apply String.eqb_neq in Hne as ->. by rewrite IH.
Qed.

Lemma dupdate_fresh d u :
  dict_ok u → (∀ k, k ∈ map fst u → k ∉ map fst d) → dupdate d u = d ++ u.
Proof.
  unfold dupdate, dict_ok. revert d. induction u as [|[k v] u IH]; intros d Hu Hd; simpl in *.
  { by rewrite app_nil_r. }
  apply NoDup_cons in Hu as [Hk Hu]. rewrite dset_fresh by (apply Hd; left).
  rewrite IH; [by rewrite <-app_assoc|done|]. intros k' Hk'. rewrite map_app, not_elem_of_app.
  split; [by apply Hd; right|]. simpl. rewrite list_elem_of_singleton. by intros ->.
Qed.

Lemma new_accepted_ok a a' : new_accepted a = Ok a' → new_accepted a' = Ok a'.
Proof.
  unfold new_accepted. intros H. inv_guards H. apply result_bind_Ok in H as (n & Hn & H).
  inv_guards H. injection H as <-. cbn. rewrite G, G0, G1. unfold or_str.
  pose proof (normalize_agent_name_ok _ _ Hn) as (_ & _ & Hok).
  destruct (normal_name_facts _ Hok) as (_ & _ & -> & _).
  by rewrite (normalize_agent_name_normal n) by done.
Qed.

(** A normalised agent name stays as it is. *)
Lemma normalize_agent_name_again name n :
  normalize_agent_name name = Ok n → truthy n = true ∧ normalize_agent_name n = Ok n.
Proof.
  intros Hn. pose proof (normalize_agent_name_ok _ _ Hn) as (_ & _ & Hok).
  destruct (normal_name_facts _ Hok) as (_ & _ & Ht & _).
  split; [done|]. by apply normalize_agent_name_normal.
Qed.

Lemma normalize_actor_name_again o n :
  normalize_actor_name o = Ok n → normalize_actor_name (Some n) = Ok n.
Proof.
  unfold normalize_actor_name at 1, raise_if. generalize (lower (stripped o)). intros v.
  destruct (truthy v); [|done]. simpl.
  destruct (String.eqb v CMD_ACTOR || mem_str v NON_MAILBOX_ACTORS) eqn:Hb; simpl.
  - intros [= <-]. change (mem_str v NON_AGENT_ACTORS = true) in Hb. apply mem_str_spec in Hb.
    unfold NON_AGENT_ACTORS, NON_MAILBOX_ACTORS in Hb.
    repeat (apply elem_of_cons in Hb as [->|Hb]; [reflexivity|]). by apply elem_of_nil in Hb.
  - intros Hn. apply normalize_agent_name_ok in Hn as (_ & _ & Hn). by apply normalize_actor_name_normal.
Qed.

Lemma new_envelope_again m m' : new_envelope m = Ok m' → new_envelope m' = Ok m'.
Proof.
  unfold new_envelope. intros H. inv_guards H.
  apply result_bind_Ok in H as (a & Ha & H). apply result_bind_Ok in H as (b & Hb & H).
  inv_guards H. injection H as <-.
  cbn [me_project_id me_to_agent me_from_actor me_body me_delivery_scope].
  assert (truthy b = true) as ->.
  { unfold normalize_actor_name, raise_if in Hb. destruct (truthy (lower _)) eqn:E; [|done]. simpl in Hb.
    case_match; [by injection Hb as <-|]. by apply normalize_agent_name_again in Hb as [? _]. }
  rewrite (normalize_actor_name_again _ _ Hb).
  assert (truthy a = true ∧
    (if String.eqb (lower (strip a)) "all" then Ok "all" else normalize_agent_name a) = Ok a) as [-> ->].
  { case_match; [by injection Ha as <-|]. pose proof Ha as Hok.
    apply normalize_agent_name_again in Ha as [Ht Ha]. split; [done|]. rewrite Ha.
    apply normalize_agent_name_ok in Hok as (_ & _ & (Hs & Hl & _ & Hr)%normal_name_facts).
    rewrite Hs, Hl. destruct (String.eqb_spec a "all") as [->|]; done. }
  rewrite G, G2. cbn [negb raise_if result_bind]. by rewrite G3, G4.
Qed.

Lemma new_job_again j j' : new_job j = Ok j' → new_job j' = Ok j' ∧ jr_request j' = jr_request j.
Proof.
  unfold new_job. intros H. inv_guards H. apply result_bind_Ok in H as (n & Hn & H).
  inv_guards H. injection H as <-. cbn.
  apply normalize_agent_name_again in Hn as [Ht Hn]. unfold or_str. by rewrite G, Ht, Hn, G0.
Qed.

(** Whatever [job_record_from_record] returns went through both constructors. *)
Lemma decoded_job_valid r j :
  job_record_from_record r = Ok j → me_body_artifact (jr_request j) ≠ Some [] → valid_job j.
Proof.
  unfold job_record_from_record. intros H Hb.
  inv_binds H.
  apply new_job_again in H as [Hj Hq]. split; [done|]. split; [|done]. rewrite Hq. simpl.
  match goal with Hm : message_envelope_from_record _ = Ok _ |- _ => revert Hm end.
  unfold message_envelope_from_record. intros Hm.
  inv_binds Hm. by eapply new_envelope_again.
Qed.

Lemma valid_job_facts j :
  new_job j = Ok j →
  normal_name (jr_agent_name j) = true ∧ jr_target_name j = jr_agent_name j ∧
  (job_terminal (jr_status j) = true → is_Some (jr_terminal_decision j)).
Proof.
  unfold new_job. intros H. inv_guards H. apply result_bind_Ok in H as (n & Hn & H). inv_guards H.
  injection H as H. rewrite <-H. cbn. apply normalize_agent_name_ok in Hn as (_ & _ & Hn).
  split_and!; [done..|]. intros Ht. rewrite Ht in G0. by destruct (jr_terminal_decision j).
Qed.

Lemma dpop_fresh d k : k ∉ map fst d → dpop d k = d.
Proof.
  induction d as [|[k' v] d IH]; simpl; intros H; [done|].
  apply not_elem_of_cons in H as [Hne Hd]. apply String.eqb_neq in Hne as ->. by rewrite IH.
Qed.

(** A success is read as it was sent when its payload leaves the envelope's keys alone. *)
Lemma rpc_success_read payload :
  dict_ok payload → "ok" ∉ map fst payload → "api_version" ∉ map fst payload →
  let r := MkRpcResponse true payload None API_VERSION in
  rpc_response_from_record (rpc_response_to_record r) = Ok r.
Proof.
  intros Hd Hok Hv r. unfold rpc_response_to_record. cbn [r rsp_ok rsp_payload rsp_version].
  rewrite dupdate_fresh; [|done|].
  - unfold rpc_response_from_record. done.
  - intros k Hk. simpl. rewrite !not_elem_of_cons. split_and!; [by intros ->..|apply not_elem_of_nil].
Qed.

Lemma new_failure error payload :
  blank error = false →
  new_rpc_response (MkRpcResponse false payload (Some error) API_VERSION)
    = Ok (MkRpcResponse false payload (Some error) API_VERSION).
Proof.
  intros Hb. unfold new_rpc_response, stripped. cbn [rsp_version rsp_ok rsp_error].
  rewrite truthy_or by (by apply blank_truthy). unfold blank in Hb. by rewrite Hb.
Qed.

Lemma rpc_failure_read error payload :
  blank error = false →
  rpc_response_from_record (rpc_response_to_record (MkRpcResponse false payload (Some error) API_VERSION))
    = Ok (MkRpcResponse false [] (Some error) API_VERSION).
Proof.
  intros Hb. unfold rpc_response_from_record, rpc_response_to_record. simpl.
  change (py_str_or_empty _) with (py_str_or_empty (VStr error)). rewrite py_str_or_empty_VStr.
  by apply new_failure.
Qed.
