(* ===== verification/JobStore.v ===== *)
(** The job store: [lib/jobs/store.py] on typed logs (the rows of [Jobs] round-trip, so
    a file of written rows is its typed log), and the receipts of
    [lib/ccbd/api_models_runtime/receipts.py].  The switches that hand the tail reads to
    a helper binary are off, so the Python paths run.

    The properties of jobs, their store and the RPC envelopes, each with a witness. *)

From Stdlib Require Import Ascii String ZArith Lia Sorted.
From stdpp Require Import base list sets strings gmap sorting.
From S2P Require Import Prelude PyData Names Storage MailboxModels CompletionModels Jobs Api.

Local Open Scope Z_scope.

Record jstate := JState {
  js_jobs : gmap string (list JobRecord);
  js_events : gmap string (list JobEvent);
  js_submissions : list SubmissionRecord;
}.

Abbreviation JM := (M jstate).

Definition jobs_of (s : jstate) (agent : string) : list JobRecord := default [] (js_jobs s !! agent).
Definition events_of (s : jstate) (agent : string) : list JobEvent :=
  default [] (js_events s !! agent).

(** Paths go through [agent_dir], which normalises the name. *)
Definition job_append (r : JobRecord) : JM unit :=
  let* name := mlift (normalize_agent_name (jr_target_name r)) in
  mmod (λ s, JState (<[name := jobs_of s name ++ [r]]> (js_jobs s)) (js_events s)
               (js_submissions s)).

Definition list_target (target_name : string) : JM (list JobRecord) :=
  let* name := mlift (normalize_agent_name target_name) in mget (λ s, jobs_of s name).

Definition list_agent (agent_name : string) : JM (list JobRecord) := list_target agent_name.

Definition list_target_tail (target_name : string) (limit : Z) : JM (list JobRecord) :=
  let* name := mlift (normalize_agent_name target_name) in
  do* mlift (raise_if (limit <? 0) ValueError "limit cannot be negative") in
  mget (λ s, tail_of (Z.to_nat limit) (jobs_of s name)).

Definition list_agent_tail (agent_name : string) (limit : Z) : JM (list JobRecord) :=
  list_target_tail agent_name limit.

Definition get_latest_target (target_name job_id : string) : JM (option JobRecord) :=
  let* name := mlift (normalize_agent_name target_name) in
  mget (λ s, find_last (λ r, String.eqb (jr_job_id r) job_id) (jobs_of s name)).

Definition job_event_append (e : JobEvent) : JM unit :=
  let* name := mlift (normalize_agent_name (je_target_name e)) in
  mmod (λ s, JState (js_jobs s) (<[name := events_of s name ++ [e]]> (js_events s))
               (js_submissions s)).

Definition job_events_read_since (target_name : string) (start_line : Z)
    : JM (Z * list JobEvent) :=
  let* name := mlift (normalize_agent_name target_name) in
  do* mlift (raise_if (start_line <? 0) ValueError "start_line cannot be negative") in
  mget (λ s, match js_events s !! name with
             | None => (start_line, [])
             | Some l => (Z.of_nat (length l), drop (Z.to_nat start_line) l)
             end).

Definition submission_append (r : SubmissionRecord) : JM unit :=
  mmod (λ s, JState (js_jobs s) (js_events s) (js_submissions s ++ [r])).

Definition submission_list_all : JM (list SubmissionRecord) := mget js_submissions.

Definition submission_get_latest (submission_id : string) : JM (option SubmissionRecord) :=
  mget (λ s, find_last (λ r, String.eqb (sr_submission_id r) submission_id) (js_submissions s)).

(** ** Summaries *)

Record ProjectViewMessageSummary := MkMessageSummary {
  pm_project_id : string;
  pm_to_agent : string;
  pm_from_actor : string;
  pm_body : string;
  pm_task_id : option string;
  pm_reply_to : option string;
  pm_message_type : string;
  pm_delivery_scope : string;
  pm_silence_on_success : bool;
  pm_route_options : pydict;
  pm_body_artifact : option pydict;
}.

Record ProjectViewJobSummary := MkJobSummary {
  pj_job_id : string;
  pj_agent_name : string;
  pj_provider : string;
  pj_request : ProjectViewMessageSummary;
  pj_status : JobStatus;
  pj_terminal_decision : option pydict;
  pj_created_at : string;
  pj_updated_at : string;
  pj_target_kind : TargetKind;
  pj_target_name : string;
  pj_provider_options : pydict;
}.

Definition job_summary_from_job (r : JobRecord) : ProjectViewJobSummary :=
  let m := jr_request r in
  MkJobSummary (jr_job_id r) (jr_agent_name r) (jr_provider r)
    (MkMessageSummary (me_project_id m) (me_to_agent m) (me_from_actor m) (me_body m) (me_task_id m)
       (me_reply_to m) (me_message_type m) (DeliveryScope_value (me_delivery_scope m))
       (me_silence_on_success m) (me_route_options m) (me_body_artifact m))
    (jr_status r) (jr_terminal_decision r) (jr_created_at r) (jr_updated_at r) (jr_target_kind r)
    (jr_target_name r) (jr_provider_options r).

(** [str(v) if v is not None else None] *)
Definition opt_py_str (v : pyval) : option string :=
  match v with VNone => None | _ => Some (py_str v) end.

Definition dict_only (v : pyval) : option pydict :=
  match v with VDict d => Some d | _ => None end.

Definition job_summary_from_record (r : pydict) : result ProjectViewJobSummary :=
  let request := default [] (dict_only (dget r "request")) in
  let! route_options := py_dict_or_empty (dget request "route_options") in
  let! status := JobStatus_of (py_str_or_empty (dget r "status")) in
  let! kind := TargetKind_of (py_str (py_or (dget r "target_kind")
                                        (VStr (TargetKind_value TARGET_AGENT)))) in
  let! options := py_dict_or_empty (dget r "provider_options") in
  Ok (MkJobSummary (py_str_or_empty (dget r "job_id")) (py_str_or_empty (dget r "agent_name"))
        (py_str_or_empty (dget r "provider"))
        (MkMessageSummary (py_str_or_empty (dget request "project_id"))
           (py_str_or_empty (dget request "to_agent")) (py_str_or_empty (dget request "from_actor"))
           (py_str_or_empty (dget request "body")) (opt_py_str (dget request "task_id"))
           (opt_py_str (dget request "reply_to")) (py_str_or_empty (dget request "message_type"))
           (py_str_or_empty (dget request "delivery_scope"))
           (py_truthy (dget_or request "silence_on_success" (VBool false))) route_options
           (dict_only (dget request "body_artifact")))
        status (dict_only (dget r "terminal_decision")) (py_str_or_empty (dget r "created_at"))
        (py_str_or_empty (dget r "updated_at")) kind
        (py_str (py_or (dget r "target_name") (py_or (dget r "agent_name") (VStr "")))) options).

(** ** Recent jobs *)

(** [d[key] = v] on a dictionary of records. *)
Fixpoint assoc_set {A} (key : string) (v : A) (d : list (string * A)) : list (string * A) :=
  match d with
  | [] => [(key, v)]
  | (k, w) :: d' => if String.eqb key k then (k, v) :: d' else (k, w) :: assoc_set key v d'
  end.

(** The loop over [list_agent_tail]: the latest record of each job. *)
Definition latest_by_job (records : list JobRecord) : list JobRecord :=
  map snd (foldl (λ d r, assoc_set (jr_job_id r) r d) [] records).

(** [sort(key=updated_at, reverse=True)]: stable, so an equal key goes after. *)
Fixpoint insert_desc (x : ProjectViewJobSummary) (l : list ProjectViewJobSummary)
    : list ProjectViewJobSummary :=
  match l with
  | [] => [x]
  | y :: l' => if str_gtb (pj_updated_at x) (pj_updated_at y) then x :: l else y :: insert_desc x l'
  end.

Definition sort_desc (l : list ProjectViewJobSummary) : list ProjectViewJobSummary :=
  foldl (λ acc x, insert_desc x acc) [] l.

Fixpoint recent_of_agents (agent_names : list string) (per_agent_limit : Z)
    (statuses : list JobStatus) : JM (list ProjectViewJobSummary) :=
  match agent_names with
  | [] => mret' []
  | a :: rest =>
      let* records := list_agent_tail a per_agent_limit in
      let kept := List.filter (λ r, bool_decide (jr_status r ∈ statuses)) (latest_by_job records) in
      let* more := recent_of_agents rest per_agent_limit statuses in
      mret' (map job_summary_from_job kept ++ more)
  end.

Definition recent_jobs_python (agent_names : list string) (per_agent_limit result_limit : Z)
    (statuses : list JobStatus) : JM (list ProjectViewJobSummary) :=
  let* jobs := recent_of_agents agent_names per_agent_limit statuses in
  mret' (take (Z.to_nat result_limit) (sort_desc jobs)).

(** The widening loop.  Each round widens the window by at least one, so the gap to
    [per_agent_limit] bounds the rounds. *)
Fixpoint recent_jobs_loop (fuel : nat) (agent_names : list string)
    (current_limit per_agent_limit result_limit : Z) (statuses : list JobStatus)
    : JM (option (list ProjectViewJobSummary)) :=
  match fuel with
  | O => mret' None
  | S fuel =>
      let* jobs := recent_jobs_python agent_names current_limit result_limit statuses in
      if (result_limit <=? Z.of_nat (length jobs)) || (per_agent_limit <=? current_limit)
      then mret' (Some jobs)
      else
        recent_jobs_loop fuel agent_names
          (Z.min per_agent_limit (Z.max (current_limit + 1) (current_limit * 2)))
          per_agent_limit result_limit statuses
  end.

(** [PROJECT_VIEW_RECENT_JOB_STATUS_VALUES]; statuses no [JobStatus] has select nothing. *)
Definition RECENT_JOB_STATUSES : list JobStatus :=
  [JS_COMPLETED; JS_CANCELLED; JS_FAILED; JS_INCOMPLETE].

Definition status_values (statuses : option (list string)) : list JobStatus :=
  match statuses with
  | None | Some [] => RECENT_JOB_STATUSES
  | Some l => List.filter (λ st, mem_str (JobStatus_value st) l)
                [JS_ACCEPTED; JS_QUEUED; JS_RUNNING; JS_COMPLETED; JS_CANCELLED; JS_FAILED; JS_INCOMPLETE]
  end.

Definition initial_window (per_agent_limit : Z) (initial : option Z) : Z :=
  let w := match initial with None => per_agent_limit | Some i => Z.min i per_agent_limit end in
  if w <=? 0 then Z.min per_agent_limit 1 else w.

Definition opt_negative (o : option Z) : bool := match o with Some z => z <? 0 | None => false end.

Definition list_project_view_recent_jobs (agent_names : list string)
    (per_agent_limit result_limit : Z) (statuses : option (list string)) (initial : option Z)
    : JM (option (list ProjectViewJobSummary)) :=
  do* mlift (raise_if (per_agent_limit <? 0) ValueError "per_agent_limit cannot be negative") in
  do* mlift (raise_if (result_limit <? 0) ValueError "result_limit cannot be negative") in
  do* mlift (raise_if (opt_negative initial) ValueError
               "per_agent_initial_limit cannot be negative") in
  if bool_decide (agent_names = []) || (per_agent_limit <=? 0) || (result_limit <=? 0)
  then mret' (Some [])
  else
    let window := initial_window per_agent_limit initial in
    recent_jobs_loop (S (Z.to_nat (per_agent_limit - window))) agent_names window per_agent_limit
      result_limit (status_values statuses).

(** ** Lemmas *)

Lemma str_gtb_le x y : str_gtb x y = true → String.le y x.
Proof.
  intros H. destruct (decide (String.le y x)) as [|Hn]; [done|]. exfalso.
  assert (String.le x y) as Hle by by destruct (total String.le x y).
  apply str_gtb_false in Hle. congruence.
Qed.

Definition newer (x y : ProjectViewJobSummary) : Prop :=
  String.le (pj_updated_at y) (pj_updated_at x).

Lemma insert_desc_sorted x l : Sorted newer l → Sorted newer (insert_desc x l).
Proof.
  induction l as [|y l IH]; intros Hl; simpl; [by repeat constructor|].
  destruct (str_gtb (pj_updated_at x) (pj_updated_at y)) eqn:E.
  - constructor; [done|]. constructor. by apply str_gtb_le.
  - apply Sorted_inv in Hl as [Hl Hy]. constructor; [by apply IH|].
    destruct l as [|z l]; simpl; [constructor; by apply str_gtb_false|].
    case_match; constructor; [by apply str_gtb_false|]. by apply HdRel_inv in Hy.
Qed.

Lemma sort_desc_sorted l : Sorted newer (sort_desc l).
Proof.
  unfold sort_desc. assert (Sorted newer []) as H by constructor. revert H.
  generalize (@nil ProjectViewJobSummary). induction l as [|x l IH]; intros acc H; [done|].
  simpl. by apply IH, insert_desc_sorted.
Qed.

Lemma insert_desc_perm x l : insert_desc x l ≡ₚ x :: l.
Proof.
  induction l as [|y l IH]; simpl; [done|]. case_match; [done|]. rewrite IH. constructor.
Qed.

Lemma sort_desc_perm l : sort_desc l ≡ₚ l.
Proof.
  unfold sort_desc. enough (∀ acc, foldl (λ acc x, insert_desc x acc) acc l ≡ₚ acc ++ l) as H by apply H.
  induction l as [|x l IH]; intros acc; simpl; [by rewrite app_nil_r|].
  rewrite IH, insert_desc_perm. by rewrite <-Permutation_middle.
Qed.

Lemma sorted_take n l : Sorted newer l → Sorted newer (take n l).
Proof.
  revert n. induction l as [|x l IH]; intros [|n] H; try by constructor. simpl.
  apply Sorted_inv in H as [H Hx]. constructor; [by apply IH|].
  destruct n, l; simpl; constructor. by apply HdRel_inv in Hx.
Qed.

Definition names_ok (names : list string) : Prop :=
  Forall (λ a, is_ok (normalize_agent_name a) = true) names.

Lemma recent_of_agents_run names n sts s :
  names_ok names → 0 <= n →
  ∃ js, recent_of_agents names n sts s = (s, Ok js) ∧ Forall (λ j, pj_status j ∈ sts) js.
Proof.
  intros Hn Hl. induction Hn as [|a names Ha _ (js & IH & Hjs)]; [by exists []|].
  destruct (normalize_agent_name a) as [name|] eqn:En; [|done].
  set (kept := List.filter (λ r, bool_decide (jr_status r ∈ sts))
                 (latest_by_job (tail_of (Z.to_nat n) (jobs_of s name)))).
  exists (map job_summary_from_job kept ++ js). split.
  - simpl. unfold list_agent_tail, list_target_tail, mbind', mlift, mget, mret', raise_if.
    assert ((n <? 0) = false) as -> by (apply Z.ltb_ge; lia). rewrite En. simpl.
    by rewrite IH.
  - apply Forall_app. split; [|done]. apply Forall_forall. intros j Hj.
    apply list_elem_of_fmap in Hj as (r & -> & Hr). simpl.
    apply list_elem_of_In, filter_In in Hr as [_ Hr]. by apply bool_decide_eq_true in Hr.
Qed.

Lemma recent_jobs_python_run names n k sts s :
  names_ok names → 0 <= n → 0 <= k →
  ∃ js, recent_jobs_python names n k sts s = (s, Ok js) ∧ Z.of_nat (length js) <= k ∧
    Sorted newer js ∧ Forall (λ j, pj_status j ∈ sts) js.
Proof.
  intros Hn Hl Hk. destruct (recent_of_agents_run names n sts s Hn Hl) as (js & Hjs & Hst).
  exists (take (Z.to_nat k) (sort_desc js)). split_and!.
  - unfold recent_jobs_python. by rewrite (mbind_ok _ _ _ _ _ Hjs).
  - rewrite length_take. lia.
  - apply sorted_take, sort_desc_sorted.
  - apply Forall_take. by rewrite sort_desc_perm.
Qed.

Lemma recent_jobs_loop_run fuel names cur per k sts s :
  names_ok names → 0 <= cur → 0 <= k → (Z.to_nat (per - cur) < fuel)%nat →
  ∃ js, recent_jobs_loop fuel names cur per k sts s = (s, Ok (Some js)) ∧
    Z.of_nat (length js) <= k ∧ Sorted newer js ∧ Forall (λ j, pj_status j ∈ sts) js ∧
    (Z.of_nat (length js) < k →
     ∃ n, per <= n ∧ n <= Z.max cur per ∧ recent_jobs_python names n k sts s = (s, Ok js)).
Proof.
  intros Hn. revert cur. induction fuel as [|fuel IH]; intros cur Hc Hk Hf; [lia|].
  destruct (recent_jobs_python_run names cur k sts s Hn Hc Hk) as (js & Hjs & Hlen & Hs & Hst).
  cbn [recent_jobs_loop]. rewrite (mbind_ok _ _ _ _ _ Hjs).
  destruct (Z.leb_spec k (Z.of_nat (length js))) as [Hfull|Hfull]; simpl.
  { exists js. split_and!; [done..|lia]. }
  destruct (Z.leb_spec per cur) as [Hend|Hend].
  { exists js. split_and!; [done..|]. intros _. exists cur. split_and!; [lia|lia|done]. }
  destruct (IH (Z.min per (Z.max (cur + 1) (cur * 2)))) as (js' & H1 & H2 & H3 & H4 & H5);
    [lia..|]. exists js'. split_and!; [done..|].
  intros Hk'. destruct (H5 Hk') as (n & Hn1 & Hn2 & Hn3). exists n. split_and!; [lia|lia|done].
Qed.

(** *** The two ways to a summary agree *)

Lemma opt_py_str_of o : opt_py_str (of_opt_str o) = o.
Proof. by destruct o. Qed.

Lemma dict_only_opt d : dict_only (opt_dict d) = d.
Proof. by destruct d. Qed.

Lemma new_job_targets j : new_job j = Ok j → truthy (jr_target_name j) = true.
Proof.
  unfold new_job. intros H. inv_guards H. apply result_bind_Ok in H as (a & Ha & H).
  inv_guards H. injection H as H. apply (f_equal jr_target_name) in H. simpl in H. rewrite <-H.
  apply normalize_agent_name_ok in Ha as (_ & _ & Ha). by apply normal_name_facts in Ha as (_ & _ & ? & _).
Qed.

Lemma job_summaries_agree j :
  valid_job j → job_summary_from_record (job_to_record j) = Ok (job_summary_from_job j).
Proof.
  intros [Hj [_ Hb]]. pose proof (new_job_targets j Hj) as Ht.
  unfold job_summary_from_record, job_to_record. job_simpl. cbn [dict_only default from_option id].
  unfold envelope_to_record. job_simpl.
  unfold py_or. cbn [py_truthy]. job_simpl.
  assert (truthy (TargetKind_value (jr_target_kind j)) = true) as -> by done. job_simpl.
  rewrite Ht, !opt_py_str_of, dict_only_opt. unfold job_summary_from_job.
  assert (dict_only match me_body_artifact (jr_request j) with
    | Some (e :: d) => VDict (e :: d) | _ => VNone end = me_body_artifact (jr_request j)) as ->.
  { by destruct (me_body_artifact (jr_request j)) as [[|e d]|]. }
  done.
Qed.

Module JSample.
Definition envelope : MessageEnvelope :=
  MkEnvelope "proj" "Coder" "User" "do it" None None "ask" SINGLE false [] None.
Definition job (id : string) (st : JobStatus) (at_ : string) : JobRecord :=
  MkJob id None "coder" "codex" (MkEnvelope "proj" "coder" "user" "do it" None None "ask" SINGLE false [] None)
    st (Some []) None "2024-05-01T12:00:00Z" at_ None TARGET_AGENT "coder" None [].
Definition store : jstate :=
  JState {["coder" := [job "job_1" JS_RUNNING "2024-05-01T12:00:00Z";
                       job "job_1" JS_COMPLETED "2024-05-01T12:05:00Z";
                       job "job_2" JS_FAILED "2024-05-01T12:03:00Z"]]} ∅ [].
End JSample.

(** A decoded job is canonical: whatever dictionary it was read from, its agent name
    is normalised and equal to its target name, a terminal status has a decision, and
    writing it and reading it again gives the same job.  (An empty [body_artifact] is the
    one value that is written as [null].) *)
Theorem job_decoding_stable (r : pydict) (j : JobRecord) :
  job_record_from_record r = Ok j → me_body_artifact (jr_request j) ≠ Some [] →
  job_record_from_record (job_to_record j) = Ok j ∧
  normal_name (jr_agent_name j) = true ∧ jr_target_name j = jr_agent_name j ∧
  (job_terminal (jr_status j) = true → is_Some (jr_terminal_decision j)).
Proof.
  intros H Hb. apply decoded_job_valid in H as Hv; [|done].
  split; [by apply job_roundtrip|]. by apply valid_job_facts, Hv.
Qed.

Lemma job_decoding_stable_witness :
  ∃ j, job_record_from_record (dset (job_to_record (JSample.job "job_1" JS_FAILED "2024-05-01T12:00:00Z"))
         "target_name" (VStr " Coder ")) = Ok j ∧
    job_record_from_record (job_to_record j) = Ok j ∧ jr_target_name j = "coder".
Proof.
  eexists. split; [reflexivity|].
  destruct (job_decoding_stable (dset (job_to_record (JSample.job "job_1" JS_FAILED "2024-05-01T12:00:00Z"))
    "target_name" (VStr " Coder ")) _ eq_refl) as (H & _ & H2 & _); [discriminate|].
  split; [exact H|exact H2].
Defined.

(** C17: the project view's recent jobs: for positive limits the widening loop ends within
    its rounds; the answer is newest first, no longer than asked, has only the statuses
    asked for; and an answer shorter than asked is what one scan of the full window gives. *)
Theorem recent_jobs_complete (names : list string) (per limit : Z) (statuses : option (list string))
    (initial : option Z) (s : jstate) :
  names_ok names → names ≠ [] → 0 < per → 0 < limit → opt_negative initial = false →
  ∃ js, list_project_view_recent_jobs names per limit statuses initial s = (s, Ok (Some js)) ∧
    Z.of_nat (length js) <= limit ∧ Sorted newer js ∧
    Forall (λ j, pj_status j ∈ status_values statuses) js ∧
    (Z.of_nat (length js) < limit →
     recent_jobs_python names per limit (status_values statuses) s = (s, Ok js)).
Proof.
  intros Hn Hne Hp Hl Hi. assert (0 < initial_window per initial <= per) as [Hw1 Hw2].
  { unfold initial_window. destruct initial as [i|]; case_match; simpl in *; lia. }
  destruct (recent_jobs_loop_run (S (Z.to_nat (per - initial_window per initial))) names
    (initial_window per initial) per limit (status_values statuses) s)
    as (js & H1 & H2 & H3 & H4 & H5); [done|lia..|].
  exists js. split_and!; [|done..|].
  - unfold list_project_view_recent_jobs. rewrite Hi, bool_decide_eq_false_2 by done.
    assert ((per <? 0) = false) as -> by lia. assert ((limit <? 0) = false) as -> by lia.
    assert ((per <=? 0) = false) as -> by lia. by assert ((limit <=? 0) = false) as -> by lia.
  - intros H. destruct (H5 H) as (n & Hn1 & Hn2 & Hrun). by assert (n = per) as -> by lia.
Qed.

Lemma recent_jobs_complete_witness :
  ∃ js, list_project_view_recent_jobs ["coder"] 10 5 None (Some 1) JSample.store =
          (JSample.store, Ok (Some js)) ∧ Sorted newer js ∧ map pj_job_id js = ["job_1"; "job_2"].
Proof.
  destruct (recent_jobs_complete ["coder"] 10 5 None (Some 1) JSample.store)
    as (js & H1 & _ & H2 & _); [repeat constructor|done|done|done|done|].
  exists js. split; [exact H1|]. split; [exact H2|].
  assert (E : match (list_project_view_recent_jobs ["coder"] 10 5 None (Some 1) JSample.store).2 with
    | Ok (Some js) => map pj_job_id js | _ => [] end = ["job_1"; "job_2"]) by (vm_compute; reflexivity).
  rewrite H1 in E. exact E.
Defined.

(** the project view shows the same summary of a job whether it was made from the
    record in memory or from the dictionary in the job's file. *)
Lemma job_summary_same_from_file (j : JobRecord) :
  valid_job j → job_summary_from_record (job_to_record j) = Ok (job_summary_from_job j).
Proof. apply job_summaries_agree. Qed.

(** RPC responses survive the wire: a success whose payload does not use the
    envelope's own keys, and a failure with its message (the payload of a failure is not
    sent), are read back as they were; a success whose payload says [ok: false] and gives
    no error is refused by the reader. *)
Theorem rpc_response_roundtrip (payload : pydict) (error : string) :
  (dict_ok payload → "ok" ∉ map fst payload → "api_version" ∉ map fst payload →
   ∃ r, rpc_success payload = Ok r ∧ rpc_response_from_record (rpc_response_to_record r) = Ok r) ∧
  (blank error = false →
   ∃ r r', rpc_failure error payload = Ok r ∧
     rpc_response_from_record (rpc_response_to_record r) = Ok r' ∧
     rsp_ok r' = false ∧ rsp_error r' = Some error) ∧
  (∃ r, rpc_success [("ok", VBool false)] = Ok r ∧
     is_ok (rpc_response_from_record (rpc_response_to_record r)) = false).
Proof.
  split_and!.
  - intros Hd Hok Hv. eexists. split; [reflexivity|]. by apply rpc_success_read.
  - intros Hb. eexists _, _. split; [by apply new_failure|].
    split; [by apply rpc_failure_read|done].
  - eexists. split; reflexivity.
Qed.

Lemma rpc_response_roundtrip_witness :
  ∃ r, rpc_success [("job_id", VStr "job_1")] = Ok r ∧
    rpc_response_from_record (rpc_response_to_record r) = Ok r.
Proof.
  apply (proj1 (rpc_response_roundtrip [("job_id", VStr "job_1")] "no")).
  - apply NoDup_singleton.
  - simpl. rewrite list_elem_of_singleton. discriminate.
  - simpl. rewrite list_elem_of_singleton. discriminate.
Defined.
