(* ===== verification/Heartbeat.v ===== *)
(** The heartbeat engine: [lib/heartbeat/models.py], [engine_runtime.py] and [store.py].
    Durations are whole microseconds.  A directory of state files is a finite map from
    (subject directory, file stem).

    The daemon's job heartbeat, [lib/ccbd/services/job_heartbeat.py] and
    [job_heartbeat_runtime/]: each running job is watched, a job that stays silent is
    noticed, and ended when the configuration sets a limit.  The dispatcher is the
    interface [DispatcherOps]. *)

From Stdlib Require Import Ascii String ZArith Lia.
From stdpp Require Import base gmap list strings sorting pretty.
From S2P Require Import Prelude PyData Names Timestamps Storage MailboxModels CompletionModels Jobs.

Local Open Scope Z_scope.

(** ** [models.py] *)

Definition HEARTBEAT_SCHEMA : Z := 1.

Inductive HeartbeatAction := HB_IDLE | HB_RESET | HB_ENTER | HB_REPEAT.

#[export] Instance HeartbeatAction_eq_dec : EqDecision HeartbeatAction.
Proof. solve_decision. Defined.

Definition HeartbeatAction_value (x : HeartbeatAction) : string :=
  match x with
  | HB_IDLE => "idle" | HB_RESET => "reset" | HB_ENTER => "enter" | HB_REPEAT => "repeat"
  end.

Record HeartbeatPolicy := MkPolicy {
  hp_silence_start_after : Z;
  hp_repeat_interval : Z;
  hp_max_notice_count : option Z;
}.

Definition new_policy (p : HeartbeatPolicy) : result HeartbeatPolicy :=
  do! raise_if (hp_silence_start_after p <? 0) ValueError
        "silence_start_after_s cannot be negative" in
  do! raise_if (hp_repeat_interval p <=? 0) ValueError "repeat_interval_s must be positive" in
  do! raise_if (match hp_max_notice_count p with Some n => n <=? 0 | None => false end) ValueError
        "max_notice_count must be positive when set" in
  Ok p.

Record HeartbeatState := MkHeartbeat {
  hs_subject_kind : string;
  hs_subject_id : string;
  hs_owner : string;
  hs_last_progress_at : string;
  hs_last_notice_at : option string;
  hs_heartbeat_started_at : option string;
  hs_notice_count : Z;
  hs_updated_at : string;
}.

Definition new_heartbeat (s : HeartbeatState) : result HeartbeatState :=
  do! raise_if (blank (hs_subject_kind s)) ValueError "subject_kind cannot be empty" in
  do! raise_if (blank (hs_subject_id s)) ValueError "subject_id cannot be empty" in
  do! raise_if (blank (hs_owner s)) ValueError "owner cannot be empty" in
  do! raise_if (blank (hs_last_progress_at s)) ValueError "last_progress_at cannot be empty" in
  do! raise_if (hs_notice_count s <? 0) ValueError "notice_count cannot be negative" in
  do! raise_if (blank (hs_updated_at s)) ValueError "updated_at cannot be empty" in
  Ok s.

Definition heartbeat_to_record (s : HeartbeatState) : pydict :=
  [("schema_version", VInt HEARTBEAT_SCHEMA); ("record_type", VStr "heartbeat_state");
   ("subject_kind", VStr (hs_subject_kind s)); ("subject_id", VStr (hs_subject_id s));
   ("owner", VStr (hs_owner s)); ("last_progress_at", VStr (hs_last_progress_at s));
   ("last_notice_at", of_opt_str (hs_last_notice_at s));
   ("heartbeat_started_at", of_opt_str (hs_heartbeat_started_at s));
   ("notice_count", VInt (hs_notice_count s)); ("updated_at", VStr (hs_updated_at s))].

(** [str(record.get(k) or '').strip() or None] *)
Definition opt_stripped (v : pyval) : option string := or_none (strip (py_str_or_empty v)).

Definition heartbeat_from_record (r : pydict) : result HeartbeatState :=
  do! validate_record HEARTBEAT_SCHEMA "heartbeat_state" r in
  let! subject_kind := py_str_at r "subject_kind" in
  let! subject_id := py_str_at r "subject_id" in
  let! owner := py_str_at r "owner" in
  let! last_progress_at := py_str_at r "last_progress_at" in
  let last_notice_at := opt_stripped (dget r "last_notice_at") in
  let started_at := opt_stripped (dget r "heartbeat_started_at") in
  let! notice_count := py_int (dget_or r "notice_count" (VInt 0)) in
  let! updated_at := py_str_at r "updated_at" in
  new_heartbeat (MkHeartbeat subject_kind subject_id owner last_progress_at last_notice_at started_at
                   notice_count updated_at).

Record HeartbeatDecision := MkHeartbeatDecision {
  hd_action : HeartbeatAction;
  hd_subject_kind : string;
  hd_subject_id : string;
  hd_owner : string;
  hd_last_progress_at : string;
  hd_last_notice_at : option string;
  hd_silence : Z;
  hd_notice_count : Z;
}.

Definition notice_due (d : HeartbeatDecision) : bool :=
  match hd_action d with HB_ENTER | HB_REPEAT => true | _ => false end.

(** ** [engine_runtime.py] *)

Definition progress_timestamp (observed now : string) : result string :=
  let progress_at := str_or (or_none (strip observed)) (strip now) in
  do! raise_if (negb (truthy progress_at)) ValueError "observed_last_progress_at cannot be empty" in
  Ok progress_at.

Definition current_state (state : option HeartbeatState) (subject_kind subject_id owner progress_at now : string)
    : result HeartbeatState :=
  match state with
  | Some s => Ok s
  | None => new_heartbeat (MkHeartbeat subject_kind subject_id owner progress_at None None 0 now)
  end.

Definition state_with_subject (s : HeartbeatState) (subject_kind subject_id owner : string)
    : result HeartbeatState :=
  new_heartbeat (MkHeartbeat subject_kind subject_id owner (hs_last_progress_at s) (hs_last_notice_at s)
                   (hs_heartbeat_started_at s) (hs_notice_count s) (hs_updated_at s)).

Definition heartbeat_active (s : HeartbeatState) : bool :=
  (0 <? hs_notice_count s) || negb (is_none (hs_last_notice_at s)).

Definition reset_state (s : HeartbeatState) (progress_at now : string) : result HeartbeatState :=
  new_heartbeat (MkHeartbeat (hs_subject_kind s) (hs_subject_id s) (hs_owner s) progress_at None None 0 now).

(** [replace(base, last_progress_at=progress_at)] *)
Definition progressed_state (s : HeartbeatState) (progress_at : string) : result HeartbeatState :=
  new_heartbeat (MkHeartbeat (hs_subject_kind s) (hs_subject_id s) (hs_owner s) progress_at
                   (hs_last_notice_at s) (hs_heartbeat_started_at s) (hs_notice_count s) (hs_updated_at s)).

Definition noticed_state (s : HeartbeatState) (count : Z) (now : string) : result HeartbeatState :=
  new_heartbeat (MkHeartbeat (hs_subject_kind s) (hs_subject_id s) (hs_owner s) (hs_last_progress_at s)
                   (Some now) (Some (str_or (hs_heartbeat_started_at s) now)) count now).

Definition enter_state (s : HeartbeatState) (now : string) : result HeartbeatState := noticed_state s 1 now.
Definition repeat_state (s : HeartbeatState) (now : string) : result HeartbeatState :=
  noticed_state s (hs_notice_count s + 1) now.

(** [max(0.0, seconds_between(start, now))], zero where the times cannot be read. *)
Definition elapsed_or_zero (start now : string) : Z :=
  match seconds_between start now with Ok e => Z.max 0 e | Err _ => 0 end.

Definition silence_seconds (progress_at now : string) : Z := elapsed_or_zero progress_at now.

Definition should_enter_heartbeat (s : HeartbeatState) : bool :=
  is_none (hs_last_notice_at s) || (hs_notice_count s <=? 0).

Definition notice_limit_reached (s : HeartbeatState) (p : HeartbeatPolicy) : bool :=
  match hp_max_notice_count p with None => false | Some n => n <=? hs_notice_count s end.

Definition since_last_notice_seconds (s : HeartbeatState) (now : string) : Z :=
  match hs_last_notice_at s with None => 0 | Some t => elapsed_or_zero t now end.

Definition repeat_interval_not_elapsed (s : HeartbeatState) (p : HeartbeatPolicy) (now : string) : bool :=
  since_last_notice_seconds s now <? hp_repeat_interval p.

Definition heartbeat_decision (action : HeartbeatAction) (s : HeartbeatState) (silence : Z)
    : HeartbeatDecision :=
  MkHeartbeatDecision action (hs_subject_kind s) (hs_subject_id s) (hs_owner s) (hs_last_progress_at s)
    (hs_last_notice_at s) silence (hs_notice_count s).

Definition progress_advanced (observed recorded : string) : bool :=
  if String.eqb observed recorded then false
  else match seconds_between recorded observed with Ok e => 0 <? e | Err _ => true end.

Definition evaluate_heartbeat (policy : HeartbeatPolicy) (subject_kind subject_id owner : string)
    (observed now : string) (state : option HeartbeatState)
    : result (HeartbeatState * HeartbeatDecision) :=
  let! progress_at := progress_timestamp observed now in
  let! current := current_state state subject_kind subject_id owner progress_at now in
  let! base := state_with_subject current subject_kind subject_id owner in
  if progress_advanced progress_at (hs_last_progress_at current) && heartbeat_active current then
    let! next := reset_state base progress_at now in
    Ok (next, heartbeat_decision HB_RESET next 0)
  else
    let! base := progressed_state base progress_at in
    let silence := silence_seconds progress_at now in
    if silence <? hp_silence_start_after policy then Ok (base, heartbeat_decision HB_IDLE base silence)
    else if should_enter_heartbeat base then
      let! next := enter_state base now in Ok (next, heartbeat_decision HB_ENTER next silence)
    else if notice_limit_reached base policy then Ok (base, heartbeat_decision HB_IDLE base silence)
    else if repeat_interval_not_elapsed base policy now
    then Ok (base, heartbeat_decision HB_IDLE base silence)
    else let! next := repeat_state base now in Ok (next, heartbeat_decision HB_REPEAT next silence).

(** ** [store.py] *)

(** [normalized_segment] of [storage/path_helpers.py]: runs of characters outside
    [a-z0-9._-] become a dash, dashes and dots at the ends go. *)
Definition segment_char (c : ascii) : bool :=
  is_lower c || is_digit c || Ascii.eqb c "." || Ascii.eqb c "_" || Ascii.eqb c "-".

Fixpoint dash_runs (in_run : bool) (s : string) : string :=
  match s with
  | EmptyString => EmptyString
  | String c r =>
      if segment_char c then String c (dash_runs false r)
      else if in_run then dash_runs true r else String "-" (dash_runs true r)
  end.

Definition dash_or_dot (c : ascii) : bool := Ascii.eqb c "-" || Ascii.eqb c ".".

Fixpoint ltrim (p : ascii → bool) (s : string) : string :=
  match s with String c r => if p c then ltrim p r else s | EmptyString => EmptyString end.

Fixpoint rtrim (p : ascii → bool) (s : string) : string :=
  match s with
  | EmptyString => EmptyString
  | String c r =>
      match rtrim p r with
      | EmptyString => if p c then EmptyString else String c EmptyString
      | r' => String c r'
      end
  end.

Definition normalized_segment (value label : string) : result string :=
  let normalized := rtrim dash_or_dot (ltrim dash_or_dot (dash_runs false (lower (strip value)))) in
  do! raise_if (negb (truthy normalized)) ValueError (String.append label " cannot be empty") in
  Ok normalized.

Definition hb_store : Type := gmap (string * string) HeartbeatState.

Definition heartbeat_subject_path (subject_kind subject_id : string) : result (string * string) :=
  let! id := normalized_segment subject_id "subject_id" in
  let! kind := normalized_segment subject_kind "subject_kind" in
  Ok (kind, id).

Definition heartbeat_load (subject_kind subject_id : string) : M hb_store (option HeartbeatState) :=
  let* path := mlift (heartbeat_subject_path subject_kind subject_id) in
  mget (λ s : hb_store, s !! path).

Definition heartbeat_save (state : HeartbeatState) : M hb_store unit :=
  let* path := mlift (heartbeat_subject_path (hs_subject_kind state) (hs_subject_id state)) in
  mmod (λ s : hb_store, <[path := state]> s).

Definition heartbeat_remove (subject_kind subject_id : string) : M hb_store unit :=
  let* path := mlift (heartbeat_subject_path subject_kind subject_id) in
  mmod (λ s : hb_store, delete path s).

(** [list_all(subject_kind)]: the states of one directory, by file name. *)
Definition state_file_le (a b : (string * string) * HeartbeatState) : Prop :=
  String.le (String.append a.1.2 ".json") (String.append b.1.2 ".json").
#[export] Instance state_file_le_dec : RelDecision state_file_le.
Proof. unfold RelDecision, state_file_le. apply _. Defined.

Definition heartbeat_list_kind (subject_kind : string) : M hb_store (list HeartbeatState) :=
  let* kind := mlift (normalized_segment subject_kind "subject_kind") in
  mget (λ s : hb_store, map snd (merge_sort state_file_le
                          (List.filter (λ e, String.eqb e.1.1 kind) (map_to_list s)))).

(** ** Valid states *)

Definition valid_heartbeat (s : HeartbeatState) : Prop := new_heartbeat s = Ok s.

Lemma new_heartbeat_valid s s' : new_heartbeat s = Ok s' → s' = s ∧ valid_heartbeat s.
Proof.
  unfold valid_heartbeat. intros H. split; [|].
  - unfold new_heartbeat in H. inv_guards H. by injection H.
  - rewrite H. f_equal. unfold new_heartbeat in H. inv_guards H. by injection H.
Qed.

Definition heartbeat_fields (s : HeartbeatState) : Prop :=
  blank (hs_subject_kind s) = false ∧ blank (hs_subject_id s) = false ∧ blank (hs_owner s) = false ∧
  blank (hs_last_progress_at s) = false ∧ 0 <= hs_notice_count s ∧ blank (hs_updated_at s) = false.

Lemma valid_heartbeat_fields s : valid_heartbeat s ↔ heartbeat_fields s.
Proof.
  unfold valid_heartbeat, heartbeat_fields, new_heartbeat. split.
  - intros H. inv_guards H. repeat split; try done. by apply Z.ltb_ge.
  - intros (-> & -> & -> & -> & Hc & ->). apply Z.ltb_ge in Hc as ->. done.
Qed.

Lemma new_heartbeat_ok s : heartbeat_fields s → new_heartbeat s = Ok s.
Proof. apply valid_heartbeat_fields. Qed.

(** A state file holds stripped times. *)
Definition stripped_time (o : option string) : Prop :=
  match o with Some t => strip t = t ∧ truthy t = true | None => True end.

Lemma opt_stripped_of o : stripped_time o → opt_stripped (of_opt_str o) = o.
Proof.
  unfold opt_stripped. destruct o as [t|]; simpl; [|done]. intros [Hs Ht].
  change (of_opt_str (Some t)) with (VStr t). rewrite py_str_or_empty_VStr, Hs. unfold or_none. by rewrite Ht.
Qed.

Lemma heartbeat_roundtrip s :
  valid_heartbeat s → stripped_time (hs_last_notice_at s) → stripped_time (hs_heartbeat_started_at s) →
  heartbeat_from_record (heartbeat_to_record s) = Ok s.
Proof.
  intros Hv H1 H2. unfold heartbeat_from_record, heartbeat_to_record, py_str_at. codec_simpl.
  cbn [py_str py_int result_bind]. rewrite !opt_stripped_of by done. by destruct s.
Qed.

(** What the heartbeat uses of a dispatcher.  [d_active_items] is the job ids of
    [dispatcher._state.active_items()], [d_agents] the configured agents. *)
Class DispatcherOps (D : Type) := {
  d_active_items : D → list string;
  d_get : string → D → option JobRecord;
  d_get_snapshot : string → D → option CompletionSnapshot;
  d_agents : D → list string;
  d_append_event : JobRecord → string → pydict → string → M D unit;
  d_complete : string → CompletionDecision → M D unit;
}.

Record hb_config := HbConfig {
  hc_policy : HeartbeatPolicy;
  hc_subject_kind : string;
  hc_terminal_notice_count : option Z;
  hc_clock : nat → string;             (** successive readings of [service._clock] *)
  hc_seconds_value : Z → pyval;        (** [round(seconds, 3)] as a JSON number *)
}.

(** [JobHeartbeatService.__init__] *)
Definition new_hb_config (policy : HeartbeatPolicy) (subject_kind : string) (terminal : option Z)
    (clock : nat → string) (seconds_value : Z → pyval) : hb_config :=
  HbConfig policy
    (str_or (or_none (strip (str_or (or_none subject_kind) "job_progress"))) "job_progress")
    (match terminal with Some n => if 0 <? n then Some n else None | None => None end)
    clock seconds_value.

Record hb_service {D : Type} := HbService {
  hb_files : hb_store;
  hb_ticks : nat;
  hb_dispatcher : D;
}.
Arguments hb_service D : clear implicits.

Record HeartbeatTickContext := MkTickContext {
  tx_snapshot : option CompletionSnapshot;
  tx_observed : string;
  tx_now : string;
  tx_next_state : HeartbeatState;
  tx_decision : HeartbeatDecision;
}.

(** ** [common.py] *)

Definition snapshot_preview (s : option CompletionSnapshot) : string :=
  match s with None => "" | Some s => strip (cp_latest_reply_preview s) end.

Definition snapshot_is_terminal (s : option CompletionSnapshot) : bool :=
  match s with
  | None => false
  | Some s => st_terminal (cp_state s) || cd_terminal (cp_latest_decision s)
  end.

Definition heartbeat_timeout_body (job : JobRecord) (d : HeartbeatDecision) : string :=
  String.concat ""
    ["Task stopped after "; pretty (hd_notice_count d); " no-progress heartbeat intervals for ";
     jr_agent_name job; " (job="; jr_job_id job; "). The target agent accepted the task but ";
     "produced no reliable progress or completion signal. Before sending another ";
     "large task, send a small communication test to this agent first."].

Definition heartbeat_timeout_decision (cfg : hb_config) (job : JobRecord) (d : HeartbeatDecision)
    (snapshot : option CompletionSnapshot) (finished_at : string) : result CompletionDecision :=
  let prior := option_map cp_state snapshot in
  let flag f := match prior with Some s => f s | None => false end in
  new_decision
    (MkDecision true CS_INCOMPLETE (Some "heartbeat_timeout") (Some DEGRADED)
       (heartbeat_timeout_body job d) (flag st_anchor_seen) (flag st_reply_started)
       (flag st_reply_stable)
       (Some (str_or (prior ≫= st_provider_turn_ref) (jr_job_id job)))
       (prior ≫= st_latest_cursor) (Some finished_at)
       [("heartbeat_timeout", VBool true); ("heartbeat_notice_count", VInt (hd_notice_count d));
        ("heartbeat_silence_seconds", hc_seconds_value cfg (hd_silence d));
        ("last_progress_at", VStr (hd_last_progress_at d))]).

Definition heartbeat_diagnostics (cfg : hb_config) (job : JobRecord) (d : HeartbeatDecision)
    (snapshot : option CompletionSnapshot) (mailbox_target : option string) : pydict :=
  let payload :=
    [("notice", VBool true); ("notice_kind", VStr "heartbeat");
     ("heartbeat_subject_kind", VStr (hc_subject_kind cfg));
     ("heartbeat_action", VStr (HeartbeatAction_value (hd_action d)));
     ("heartbeat_notice_count", VInt (hd_notice_count d));
     ("heartbeat_silence_seconds", hc_seconds_value cfg (hd_silence d));
     ("last_progress_at", VStr (hd_last_progress_at d)); ("job_id", VStr (jr_job_id job));
     ("task_id", of_opt_str (or_none (stripped (me_task_id (jr_request job)))));
     ("caller_actor", VStr (me_from_actor (jr_request job)));
     ("caller_mailbox", of_opt_str mailbox_target)] in
  let preview := snapshot_preview snapshot in
  if truthy preview then dset payload "reply_preview" (VStr preview) else payload.

(** ** [tracking.py] *)

Definition should_track_heartbeat_job (job : option JobRecord) : bool :=
  match job with
  | None => false
  | Some j =>
      bool_decide (jr_status j = JS_RUNNING)
      && String.eqb (lower (strip (me_message_type (jr_request j)))) "ask"
  end.

Section service.
Context {D : Type} `{!DispatcherOps D} (cfg : hb_config).
Abbreviation HM := (M (hb_service D)).

Definition on_files {A} (m : M hb_store A) : HM A :=
  λ s, let '(f, r) := m (hb_files s) in (HbService D f (hb_ticks s) (hb_dispatcher s), r).

Definition on_dispatcher {A} (m : M D A) : HM A :=
  λ s, let '(d, r) := m (hb_dispatcher s) in (HbService D (hb_files s) (hb_ticks s) d, r).

Definition hb_clock : HM string :=
  λ s, (HbService D (hb_files s) (S (hb_ticks s)) (hb_dispatcher s), Ok (hc_clock cfg (hb_ticks s))).

(** ** [tick.py] *)

Definition observed_progress (snapshot : option CompletionSnapshot) (job : JobRecord) : string :=
  match snapshot with
  | Some s => if truthy (strip (cp_updated_at s)) then strip (cp_updated_at s) else strip (jr_updated_at job)
  | None => strip (jr_updated_at job)
  end.

Definition build_heartbeat_tick_context (job : JobRecord) : HM (option HeartbeatTickContext) :=
  let* snapshot := mget (λ s, d_get_snapshot (jr_job_id job) (hb_dispatcher s)) in
  if snapshot_is_terminal snapshot then
    do* on_files (heartbeat_remove (hc_subject_kind cfg) (jr_job_id job)) in mret' None
  else
    let observed := observed_progress snapshot job in
    if negb (truthy observed) then mret' None
    else
      let* prior := on_files (heartbeat_load (hc_subject_kind cfg) (jr_job_id job)) in
      let* now := hb_clock in
      let* e := mlift (evaluate_heartbeat (hc_policy cfg) (hc_subject_kind cfg) (jr_job_id job)
                         (jr_agent_name job) observed now prior) in
      mret' (Some (MkTickContext snapshot observed now e.1 e.2)).

Definition handle_reset_heartbeat (job : JobRecord) (c : HeartbeatTickContext) : HM bool :=
  let d := tx_decision c in
  do* on_files (heartbeat_save (tx_next_state c)) in
  do* on_dispatcher (d_append_event job "job_heartbeat_reset"
        [("subject_kind", VStr (hc_subject_kind cfg));
         ("action", VStr (HeartbeatAction_value (hd_action d)));
         ("notice_count", VInt (hd_notice_count d));
         ("last_progress_at", VStr (hd_last_progress_at d))] (tx_now c)) in
  mret' true.

Definition heartbeat_timeout_due (c : HeartbeatTickContext) : bool :=
  match hc_terminal_notice_count cfg with
  | None => false
  | Some limit => limit <=? hd_notice_count (tx_decision c)
  end.

(** [normalize_mailbox_target(job.request.from_actor, known_targets=...)] *)
Definition caller_mailbox (job : JobRecord) : HM (option string) :=
  let* agents := mget (λ s, d_agents (hb_dispatcher s)) in
  let* known := mlift (known_mailbox_targets agents) in
  mret' (normalize_mailbox_target (Some (me_from_actor (jr_request job))) known).

Definition record_internal_heartbeat (job : JobRecord) (c : HeartbeatTickContext) : HM bool :=
  let* target := caller_mailbox job in
  let diagnostics := heartbeat_diagnostics cfg job (tx_decision c) (tx_snapshot c) target in
  do* on_files (heartbeat_save (tx_next_state c)) in
  do* on_dispatcher (d_append_event job "job_heartbeat_observed" diagnostics (tx_now c)) in
  mret' true.

Definition terminalize_heartbeat_timeout (job : JobRecord) (c : HeartbeatTickContext) : HM bool :=
  let* target := caller_mailbox job in
  let diagnostics := heartbeat_diagnostics cfg job (tx_decision c) (tx_snapshot c) target in
  do* on_files (heartbeat_save (tx_next_state c)) in
  do* on_dispatcher (d_append_event job "job_heartbeat_timeout" diagnostics (tx_now c)) in
  let* decision := mlift (heartbeat_timeout_decision cfg job (tx_decision c) (tx_snapshot c) (tx_now c)) in
  do* on_dispatcher (d_complete (jr_job_id job) decision) in
  do* on_files (heartbeat_remove (hc_subject_kind cfg) (jr_job_id job)) in
  mret' false.

Definition tick_job_heartbeat (job : JobRecord) : HM bool :=
  let* context := build_heartbeat_tick_context job in
  match context with
  | None => mret' false
  | Some c =>
      if bool_decide (hd_action (tx_decision c) = HB_RESET) then handle_reset_heartbeat job c
      else if negb (notice_due (tx_decision c)) then mret' true
      else if heartbeat_timeout_due c then terminalize_heartbeat_timeout job c
      else record_internal_heartbeat job c
  end.

(** ** [job_heartbeat.py] *)

Fixpoint tick_jobs (ids : list string) (active : list string) : HM (list string) :=
  match ids with
  | [] => mret' active
  | id :: rest =>
      let* job := mget (λ s, d_get id (hb_dispatcher s)) in
      match job with
      | Some j =>
          if should_track_heartbeat_job (Some j) then
            let* kept := tick_job_heartbeat j in
            tick_jobs rest (if kept : bool then active ++ [jr_job_id j] else active)
          else tick_jobs rest active
      | None => tick_jobs rest active
      end
  end.

Fixpoint remove_inactive (states : list HeartbeatState) (active : list string) : HM unit :=
  match states with
  | [] => mret' tt
  | st :: rest =>
      if mem_str (hs_subject_id st) active then remove_inactive rest active
      else
        do* on_files (heartbeat_remove (hs_subject_kind st) (hs_subject_id st)) in
        remove_inactive rest active
  end.

Definition cleanup_inactive_heartbeats (active : list string) : HM unit :=
  let* states := on_files (heartbeat_list_kind (hc_subject_kind cfg)) in
  remove_inactive states active.

(** The set of active ids is a list; the answer is the set, sorted. *)
Definition heartbeat_service_tick : HM (list string) :=
  let* ids := mget (λ s, d_active_items (hb_dispatcher s)) in
  let* active := tick_jobs ids [] in
  do* cleanup_inactive_heartbeats active in
  mret' (merge_sort String.le (remove_dups active)).
End service.
