(* ===== verification/HeartbeatLemmas.v ===== *)
(** Lemmas on the heartbeat: the engine's outcomes, runs of ticks, and what a tick of the
    daemon's service does to the state files. *)

From Stdlib Require Import Ascii String ZArith Lia.
From stdpp Require Import base gmap list strings sorting.
From S2P Require Import Prelude PyData Names Timestamps Storage MailboxModels CompletionModels Jobs Heartbeat.

Local Open Scope Z_scope.

(** ** The engine *)

Lemma blank_strip s : blank (strip s) = blank s.
Proof. unfold blank. by rewrite strip_idemp. Qed.

Lemma progress_timestamp_ok obs now :
  blank now = false → ∃ p, progress_timestamp obs now = Ok p ∧ blank p = false.
Proof.
  intros Hn. unfold progress_timestamp, or_none.
  destruct (truthy (strip obs)) eqn:E; simpl; rewrite ?E; simpl.
  - exists (strip obs). split; [done|]. by rewrite blank_strip; unfold blank; rewrite E.
  - exists (strip now). assert (truthy (strip now) = true) as -> by (by apply negb_false_iff in Hn).
    split; [done|]. by rewrite blank_strip.
Qed.

(** What a tick starts from: the stored state or a fresh one. *)
Definition start_state (prior : option HeartbeatState) (kind id owner progress now : string)
    : HeartbeatState :=
  match prior with
  | Some s => s
  | None => MkHeartbeat kind id owner progress None None 0 now
  end.

(** The state with the subject and the progress of this tick. *)
Definition ticked (s : HeartbeatState) (kind id owner progress : string) : HeartbeatState :=
  MkHeartbeat kind id owner progress (hs_last_notice_at s) (hs_heartbeat_started_at s)
    (hs_notice_count s) (hs_updated_at s).

Definition noticed (s : HeartbeatState) (count : Z) (now : string) : HeartbeatState :=
  MkHeartbeat (hs_subject_kind s) (hs_subject_id s) (hs_owner s) (hs_last_progress_at s) (Some now)
    (Some (str_or (hs_heartbeat_started_at s) now)) count now.

(** The action of the decision procedure, on values. *)
Definition heartbeat_action (p : HeartbeatPolicy) (s : HeartbeatState) (progress now : string)
    : HeartbeatAction :=
  if progress_advanced progress (hs_last_progress_at s) && heartbeat_active s then HB_RESET
  else if silence_seconds progress now <? hp_silence_start_after p then HB_IDLE
  else if should_enter_heartbeat s then HB_ENTER
  else if notice_limit_reached s p || repeat_interval_not_elapsed s p now then HB_IDLE
  else HB_REPEAT.

Definition heartbeat_next (a : HeartbeatAction) (s : HeartbeatState) (kind id owner progress now : string)
    : HeartbeatState :=
  match a with
  | HB_IDLE => ticked s kind id owner progress
  | HB_RESET => MkHeartbeat kind id owner progress None None 0 now
  | HB_ENTER => noticed (ticked s kind id owner progress) 1 now
  | HB_REPEAT => noticed (ticked s kind id owner progress) (hs_notice_count s + 1) now
  end.

Definition subject_ok (kind id owner : string) : Prop :=
  blank kind = false ∧ blank id = false ∧ blank owner = false.

Lemma evaluate_run p kind id owner obs now prior :
  subject_ok kind id owner → blank now = false → (∀ s, prior = Some s → valid_heartbeat s) →
  ∃ progress, progress_timestamp obs now = Ok progress ∧
    let s := start_state prior kind id owner progress now in
    let a := heartbeat_action p s progress now in
    let next := heartbeat_next a s kind id owner progress now in
    evaluate_heartbeat p kind id owner obs now prior =
      Ok (next, heartbeat_decision a next
                  (match a with HB_RESET => 0 | _ => silence_seconds progress now end)) ∧
    valid_heartbeat s ∧ valid_heartbeat next.
Proof.
  intros (Hk & Hi & Ho) Hn Hp. destruct (progress_timestamp_ok obs now Hn) as (progress & Hpr & Hb).
  exists progress. split; [done|]. cbv zeta. set (s := start_state prior kind id owner progress now).
  assert (heartbeat_fields s) as Hs.
  { unfold s. destruct prior as [st|]; simpl; [by apply valid_heartbeat_fields, Hp|].
    by repeat split. }
  assert (current_state prior kind id owner progress now = Ok s) as Hc.
  { unfold s. destruct prior as [st|]; simpl; [done|]. apply new_heartbeat_ok. by repeat split. }
  destruct Hs as (H1 & H2 & H3 & H4 & H5 & H6).
  unfold evaluate_heartbeat. rewrite Hpr. cbn [result_bind]. rewrite Hc. cbn [result_bind].
  unfold state_with_subject. rewrite new_heartbeat_ok by by repeat split. cbn [result_bind].
  unfold heartbeat_action.
  destruct (progress_advanced progress (hs_last_progress_at s) && heartbeat_active s) eqn:Ea.
  - unfold reset_state. rewrite new_heartbeat_ok by by repeat split. cbn [result_bind].
    split_and!; [done| |]; apply valid_heartbeat_fields; by repeat split.
  - unfold progressed_state. cbn [hs_subject_kind hs_subject_id hs_owner hs_last_notice_at
      hs_heartbeat_started_at hs_notice_count hs_updated_at].
    fold (ticked s kind id owner progress).
    assert (heartbeat_fields (ticked s kind id owner progress)) as Ht by by repeat split.
    rewrite new_heartbeat_ok by done. cbn [result_bind].
    assert (∀ n, 0 <= n → noticed_state (ticked s kind id owner progress) n now
                            = Ok (noticed (ticked s kind id owner progress) n now)) as Hnot.
    { intros n Hn0. unfold noticed_state. apply new_heartbeat_ok. by repeat split. }
    assert (∀ n, 0 <= n → valid_heartbeat (noticed (ticked s kind id owner progress) n now)) as Hval.
    { intros n Hn0. apply valid_heartbeat_fields. by repeat split. }
    change (should_enter_heartbeat (ticked _ _ _ _ _)) with (should_enter_heartbeat s).
    change (notice_limit_reached (ticked _ _ _ _ _) p) with (notice_limit_reached s p).
    change (repeat_interval_not_elapsed (ticked _ _ _ _ _) p now) with (repeat_interval_not_elapsed s p now).
    assert (valid_heartbeat s) by (by apply valid_heartbeat_fields; repeat split).
    apply valid_heartbeat_fields in Ht.
    destruct (silence_seconds progress now <? hp_silence_start_after p); [done|].
    destruct (should_enter_heartbeat s).
    { unfold enter_state. rewrite Hnot by lia. cbn [result_bind]. split_and!; [done|done|]. apply Hval. lia. }
    destruct (notice_limit_reached s p); [done|]. cbn [orb].
    destruct (repeat_interval_not_elapsed s p now); [done|].
    unfold repeat_state. change (hs_notice_count (ticked _ _ _ _ _)) with (hs_notice_count s).
    rewrite Hnot by lia. cbn [result_bind]. split_and!; [done|done|]. apply Hval. lia.
Qed.

(** ** Runs of ticks on one subject

    The service keeps the state of a tick that resets or notices, and drops that of an
    idle one. *)
Definition heartbeat_keep (prior : option HeartbeatState) (next : HeartbeatState) (d : HeartbeatDecision)
    : option HeartbeatState :=
  if bool_decide (hd_action d = HB_RESET) || notice_due d then Some next else prior.

(** The ticks, each with the observed progress and the time; the decisions newest first. *)
Fixpoint heartbeat_run (p : HeartbeatPolicy) (kind id owner : string) (ticks : list (string * string))
    (st : option HeartbeatState) (hist : list HeartbeatDecision)
    : result (option HeartbeatState * list HeartbeatDecision) :=
  match ticks with
  | [] => Ok (st, hist)
  | (obs, now) :: rest =>
      let! e := evaluate_heartbeat p kind id owner obs now st in
      heartbeat_run p kind id owner rest (heartbeat_keep st e.1 e.2) (e.2 :: hist)
  end.

(** Notices since the last reset, and the time of the latest of them. *)
Fixpoint notices_since (hist : list HeartbeatDecision) : Z :=
  match hist with
  | [] => 0
  | d :: r => match hd_action d with
              | HB_RESET => 0
              | HB_IDLE => notices_since r
              | _ => 1 + notices_since r
              end
  end.

Fixpoint latest_notice (hist : list HeartbeatDecision) : option string :=
  match hist with
  | [] => None
  | d :: r => match hd_action d with
              | HB_RESET => None
              | HB_IDLE => latest_notice r
              | _ => hd_last_notice_at d
              end
  end.

(** Every notice after the first since a reset keeps the interval and the limit. *)
Fixpoint well_spaced (p : HeartbeatPolicy) (hist : list HeartbeatDecision) : Prop :=
  match hist with
  | [] => True
  | d :: r =>
      well_spaced p r ∧
      (notice_due d = true →
       hp_silence_start_after p <= hd_silence d ∧ is_Some (hd_last_notice_at d) ∧
       (notices_since r = 0 ∨
        ∃ t t' e, latest_notice r = Some t ∧ hd_last_notice_at d = Some t' ∧
          seconds_between t t' = Ok e ∧ hp_repeat_interval p <= e))
  end.

Definition run_inv (p : HeartbeatPolicy) (st : option HeartbeatState) (hist : list HeartbeatDecision) : Prop :=
  0 <= notices_since hist ∧ (latest_notice hist = None → notices_since hist = 0) ∧
  well_spaced p hist ∧
  (∀ n, hp_max_notice_count p = Some n → notices_since hist <= n) ∧
  match st with
  | None => notices_since hist = 0 ∧ latest_notice hist = None
  | Some s => valid_heartbeat s ∧ hs_notice_count s = notices_since hist ∧
              hs_last_notice_at s = latest_notice hist
  end.

Lemma elapsed_positive t now b :
  0 < b → (elapsed_or_zero t now <? b) = false → ∃ e, seconds_between t now = Ok e ∧ b <= e.
Proof.
  intros Hb H. apply Z.ltb_ge in H. unfold elapsed_or_zero in H.
  destruct (seconds_between t now) as [e|]; [|lia]. exists e. split; [done|lia].
Qed.

Lemma run_inv_step p kind id owner obs now st hist :
  subject_ok kind id owner → blank now = false → new_policy p = Ok p → run_inv p st hist →
  ∃ next d, evaluate_heartbeat p kind id owner obs now st = Ok (next, d) ∧
    run_inv p (heartbeat_keep st next d) (d :: hist).
Proof.
  intros Hs Hn Hp (H0 & Hl & Hw & Hm & Hst).
  assert (0 < hp_repeat_interval p ∧ ∀ n, hp_max_notice_count p = Some n → 1 <= n) as [Hint Hmax].
  { unfold new_policy in Hp. inv_guards Hp. split; [by apply Z.leb_gt|].
    intros n Hn'. rewrite Hn' in G1. apply Z.leb_gt in G1. lia. }
  destruct (evaluate_run p kind id owner obs now st Hs Hn) as (progress & _ & He & Hv & Hv').
  { intros s ->. by destruct Hst. }
  set (s := start_state st kind id owner progress now) in *.
  assert (hs_notice_count s = notices_since hist ∧ hs_last_notice_at s = latest_notice hist) as [Ec El].
  { unfold s. destruct st as [s0|]; simpl; [by destruct Hst as (_ & ? & ?)|]. by destruct Hst as [-> ->]. }
  eexists _, _. split; [exact He|].
  assert (keep : ∀ d, hd_action d = HB_IDLE → run_inv p st (d :: hist)).
  { intros d Hd. unfold run_inv. cbn [notices_since latest_notice well_spaced]. rewrite Hd.
    split_and!; try done. unfold notice_due. by rewrite Hd. }
  revert He Hv'. unfold heartbeat_action.
  destruct (progress_advanced progress (hs_last_progress_at s) && heartbeat_active s).
  { intros _ Hv'. unfold run_inv, heartbeat_keep. simpl. split_and!; try done. intros n Hn'.
    specialize (Hmax n Hn'). lia. }
  destruct (silence_seconds progress now <? hp_silence_start_after p) eqn:Esil.
  { intros _ _. unfold heartbeat_keep. simpl. by apply keep. }
  apply Z.ltb_ge in Esil. unfold should_enter_heartbeat. rewrite Ec, El.
  destruct (is_none (latest_notice hist) || (notices_since hist <=? 0)) eqn:Een.
  { intros _ Hv'. assert (notices_since hist = 0) as Hz.
    { apply orb_prop in Een as [Een|Een]; [|lia]. apply Hl. by destruct (latest_notice hist). }
    unfold run_inv, heartbeat_keep. simpl. split_and!; try done; try lia.
    - intros _. split; [done|]. split; [by eexists|by left].
    - intros n Hn'. specialize (Hmax n Hn'). lia. }
  apply orb_false_iff in Een as [Een1 Een2]. apply Z.leb_gt in Een2.
  destruct (latest_notice hist) as [t|] eqn:Elat; [|done].
  destruct (notice_limit_reached s p || repeat_interval_not_elapsed s p now) eqn:Erep.
  { intros _ _. unfold heartbeat_keep. simpl. by apply keep. }
  apply orb_false_iff in Erep as [Elim Erep].
  unfold repeat_interval_not_elapsed, since_last_notice_seconds in Erep. rewrite El in Erep.
  destruct (elapsed_positive t now _ Hint Erep) as (e & He & Hge).
  intros _ Hv'. unfold run_inv, heartbeat_keep. simpl. rewrite Ec in *. split_and!; try done; try lia.
  - intros _. split; [done|]. split; [by eexists|right]. by exists t, now, e.
  - intros n Hn'. unfold notice_limit_reached in Elim. rewrite Hn', Ec in Elim. apply Z.leb_gt in Elim. lia.
  - cbn [heartbeat_next] in Hv'. by rewrite Ec in Hv'.
Qed.

Lemma heartbeat_run_inv p kind id owner ticks st hist :
  subject_ok kind id owner → Forall (λ t, blank t.2 = false) ticks → new_policy p = Ok p →
  run_inv p st hist →
  ∃ st' hist', heartbeat_run p kind id owner ticks st hist = Ok (st', hist') ∧ run_inv p st' hist'.
Proof.
  intros Hs Ht Hp. revert st hist. induction Ht as [|[obs now] ticks Hn Ht IH]; intros st hist Hi; simpl.
  { by exists st, hist. }
  destruct (run_inv_step p kind id owner obs now st hist Hs Hn Hp Hi) as (next & d & -> & Hi').
  cbn [result_bind fst snd]. by apply IH.
Qed.

(** ** The service

    What the tick needs of a dispatcher: its calls do not raise, its jobs have canonical
    agent names and ids that name a file, its agents are well named. *)
Definition good_job (j : JobRecord) : Prop :=
  normal_name (jr_agent_name j) = true ∧ is_ok (normalized_segment (jr_job_id j) "subject_id") = true.

Class DispatcherLaws (D : Type) `{DispatcherOps D} := {
  law_get : ∀ id (d : D) j, d_get id d = Some j → good_job j;
  law_append : ∀ j k p t (d : D), ∃ d', d_append_event j k p t d = (d', Ok tt);
  law_complete : ∀ id v (d : D), ∃ d', d_complete id v d = (d', Ok tt);
  law_agents : ∀ d : D, is_ok (known_mailbox_targets (d_agents d)) = true;
}.

Definition hb_config_ok (cfg : hb_config) : Prop :=
  is_ok (normalized_segment (hc_subject_kind cfg) "subject_kind") = true ∧
  ∀ n, blank (hc_clock cfg n) = false.

(** Every file holds a valid state, under its own name. *)
Definition store_ok (f : hb_store) : Prop :=
  ∀ path st, f !! path = Some st →
    heartbeat_subject_path (hs_subject_kind st) (hs_subject_id st) = Ok path ∧ valid_heartbeat st.

Lemma ltrim_truthy p s : truthy (ltrim p s) = true → truthy s = true.
Proof. by destruct s. Qed.

Lemma rtrim_truthy p s : truthy (rtrim p s) = true → truthy s = true.
Proof. by destruct s. Qed.

Lemma segment_nonblank s label : is_ok (normalized_segment s label) = true → blank s = false.
Proof.
  unfold normalized_segment. set (n := rtrim _ _). destruct (truthy n) eqn:E; [|done]. intros _.
  apply rtrim_truthy, ltrim_truthy in E. unfold blank. destruct (strip s); [done|done].
Qed.

Lemma normalized_segment_label s l l' :
  is_ok (normalized_segment s l) = true → normalized_segment s l = normalized_segment s l'.
Proof. unfold normalized_segment. by destruct (truthy _). Qed.

Lemma store_ok_insert f path st :
  store_ok f → heartbeat_subject_path (hs_subject_kind st) (hs_subject_id st) = Ok path →
  valid_heartbeat st → store_ok (<[path := st]> f).
Proof.
  intros Hf Hp Hv q s Hq. apply lookup_insert_Some in Hq as [[-> ->]|[_ Hq]]; [done|by apply Hf].
Qed.

Lemma store_ok_delete f path : store_ok f → store_ok (delete path f).
Proof. intros Hf q s Hq. apply lookup_delete_Some in Hq as [_ Hq]. by apply Hf. Qed.

Lemma store_delete_insert (f : hb_store) path st : delete path (<[path := st]> f) = delete path f.
Proof. apply delete_insert_eq. Qed.

Section service.
Context {D : Type} `{!DispatcherOps D, !DispatcherLaws D} (cfg : hb_config) (Hcfg : hb_config_ok cfg).

Definition job_path (j : JobRecord) : string * string :=
  match heartbeat_subject_path (hc_subject_kind cfg) (jr_job_id j) with Ok p => p | Err _ => ("", "") end.

Lemma job_path_ok j :
  good_job j → heartbeat_subject_path (hc_subject_kind cfg) (jr_job_id j) = Ok (job_path j).
Proof.
  intros [_ Hj]. destruct Hcfg as [Hk _]. unfold job_path, heartbeat_subject_path.
  destruct (normalized_segment (jr_job_id j) "subject_id"); [|done].
  by destruct (normalized_segment (hc_subject_kind cfg) "subject_kind").
Qed.

Lemma job_subject_ok j : good_job j → subject_ok (hc_subject_kind cfg) (jr_job_id j) (jr_agent_name j).
Proof.
  intros [Hn Hj]. destruct Hcfg as [Hk _]. split_and!; [by eapply segment_nonblank..|].
  destruct (normal_name_facts _ Hn) as (Hs & _ & Ht & _). unfold blank. by rewrite Hs, Ht.
Qed.

(** What a tick of a job does to the files and answers: the evaluation of its own file. *)
Definition job_tick_spec (j : JobRecord) (s s' : hb_service D) (b : bool) : Prop :=
  let path := job_path j in
  let snapshot := d_get_snapshot (jr_job_id j) (hb_dispatcher s) in
  let observed := observed_progress snapshot j in
  if snapshot_is_terminal snapshot then b = false ∧ hb_files s' = delete path (hb_files s)
  else if negb (truthy observed) then b = false ∧ hb_files s' = hb_files s
  else
    ∃ next d,
      evaluate_heartbeat (hc_policy cfg) (hc_subject_kind cfg) (jr_job_id j) (jr_agent_name j) observed
        (hc_clock cfg (hb_ticks s)) (hb_files s !! path) = Ok (next, d) ∧
      if notice_due d
         && match hc_terminal_notice_count cfg with Some n => n <=? hd_notice_count d | None => false end
      then b = false ∧ hb_files s' = delete path (hb_files s)
      else b = true ∧
           hb_files s' = match heartbeat_keep None next d with
                         | Some st => <[path := st]> (hb_files s)
                         | None => hb_files s
                         end.

Lemma evaluate_subject p kind id owner obs now prior next d :
  subject_ok kind id owner → blank now = false → (∀ s, prior = Some s → valid_heartbeat s) →
  evaluate_heartbeat p kind id owner obs now prior = Ok (next, d) →
  hs_subject_kind next = kind ∧ hs_subject_id next = id ∧ valid_heartbeat next ∧
  (hd_action d = HB_RESET → notice_due d = false).
Proof.
  intros Hs Hn Hp He. destruct (evaluate_run p kind id owner obs now prior Hs Hn Hp)
    as (progress & _ & He' & _ & Hv). rewrite He in He'. injection He' as -> ->.
  split_and!; [by destruct (heartbeat_action _ _ _ _)..|done|].
  unfold notice_due. cbn [hd_action heartbeat_decision]. by intros ->.
Qed.

(** *** Running the service *)

Lemma wp_files {A} (m : M hb_store A) Q E (s : hb_service D) :
  wp m (λ a f, Q a (HbService D f (hb_ticks s) (hb_dispatcher s)))
    (λ e f, E e (HbService D f (hb_ticks s) (hb_dispatcher s))) (hb_files s) →
  wp (on_files m) Q E s.
Proof. unfold wp, on_files. by destruct (m (hb_files s)) as [f [a|e]]. Qed.

Lemma wp_append_event j k p t Q E (s : hb_service D) :
  (∀ d, Q tt (HbService D (hb_files s) (hb_ticks s) d)) →
  wp (on_dispatcher (d_append_event j k p t)) Q E s.
Proof. intros H. unfold wp, on_dispatcher. by destruct (law_append j k p t (hb_dispatcher s)) as (d & ->). Qed.

Lemma wp_complete id v Q E (s : hb_service D) :
  (∀ d, Q tt (HbService D (hb_files s) (hb_ticks s) d)) →
  wp (on_dispatcher (d_complete id v)) Q E s.
Proof. intros H. unfold wp, on_dispatcher. by destruct (law_complete id v (hb_dispatcher s)) as (d & ->). Qed.

Lemma wp_caller_mailbox j Q E (s : hb_service D) :
  (∀ t, Q t s) → wp (caller_mailbox j) Q E s.
Proof.
  intros H. unfold caller_mailbox. apply wp_bind, wp_get, wp_bind, wp_lift. pose proof (law_agents (hb_dispatcher s)) as Ha.
  destruct (known_mailbox_targets _); [|done]. apply wp_ret, H.
Qed.

Lemma wp_hb_save st path Q E (f : hb_store) :
  heartbeat_subject_path (hs_subject_kind st) (hs_subject_id st) = Ok path →
  Q tt (<[path := st]> f) → wp (heartbeat_save st) Q E f.
Proof. intros Hp H. unfold heartbeat_save. apply wp_bind, wp_lift. by rewrite Hp. Qed.

Lemma wp_hb_remove kind id path Q E (f : hb_store) :
  heartbeat_subject_path kind id = Ok path → Q tt (delete path f) → wp (heartbeat_remove kind id) Q E f.
Proof. intros Hp H. unfold heartbeat_remove. apply wp_bind, wp_lift. by rewrite Hp. Qed.

Lemma wp_hb_load kind id path Q E (f : hb_store) :
  heartbeat_subject_path kind id = Ok path → Q (f !! path) f → wp (heartbeat_load kind id) Q E f.
Proof. intros Hp H. unfold heartbeat_load. apply wp_bind, wp_lift. by rewrite Hp. Qed.

(** What the three handlers do with the context of a tick. *)
Lemma wp_handle_reset j c Q E (s : hb_service D) path :
  heartbeat_subject_path (hs_subject_kind (tx_next_state c)) (hs_subject_id (tx_next_state c)) = Ok path →
  (∀ d, Q true (HbService D (<[path := tx_next_state c]> (hb_files s)) (hb_ticks s) d)) →
  wp (handle_reset_heartbeat cfg j c) Q E s.
Proof.
  intros Hp HQ. unfold handle_reset_heartbeat. apply wp_bind, wp_files.
  eapply wp_hb_save; [exact Hp|]. apply wp_bind, wp_append_event. intros d. apply wp_ret, HQ.
Qed.

Lemma wp_record_internal j c Q E (s : hb_service D) path :
  heartbeat_subject_path (hs_subject_kind (tx_next_state c)) (hs_subject_id (tx_next_state c)) = Ok path →
  (∀ d, Q true (HbService D (<[path := tx_next_state c]> (hb_files s)) (hb_ticks s) d)) →
  wp (record_internal_heartbeat cfg j c) Q E s.
Proof.
  intros Hp HQ. unfold record_internal_heartbeat. apply wp_bind, wp_caller_mailbox. intros t.
  apply wp_bind, wp_files. eapply wp_hb_save; [exact Hp|]. apply wp_bind, wp_append_event.
  intros d. apply wp_ret, HQ.
Qed.

Lemma wp_terminalize j c Q E (s : hb_service D) path :
  good_job j → path = job_path j →
  heartbeat_subject_path (hs_subject_kind (tx_next_state c)) (hs_subject_id (tx_next_state c)) = Ok path →
  (∀ d, Q false (HbService D (delete path (hb_files s)) (hb_ticks s) d)) →
  wp (terminalize_heartbeat_timeout cfg j c) Q E s.
Proof.
  intros Hj -> Hp HQ. unfold terminalize_heartbeat_timeout. apply wp_bind, wp_caller_mailbox. intros t.
  apply wp_bind, wp_files. eapply wp_hb_save; [exact Hp|]. apply wp_bind, wp_append_event. intros d1.
  apply wp_bind, wp_lift. cbn [heartbeat_timeout_decision new_decision cd_terminal].
  apply wp_bind, wp_complete. intros d2. apply wp_bind, wp_files.
  eapply wp_hb_remove; [by apply job_path_ok|]. apply wp_ret. cbn [hb_files hb_ticks].
  rewrite store_delete_insert. apply HQ.
Qed.

Lemma tick_job_run j (s : hb_service D) :
  good_job j → store_ok (hb_files s) →
  ∃ s' b, tick_job_heartbeat cfg j s = (s', Ok b) ∧ job_tick_spec j s s' b ∧ store_ok (hb_files s').
Proof.
  intros Hj Hf. pose proof (job_path_ok j Hj) as Hpath.
  assert (wp (tick_job_heartbeat cfg j) (λ b s', job_tick_spec j s s' b ∧ store_ok (hb_files s'))
    (λ _ _, False) s) as H.
  2: { unfold wp in H. destruct (tick_job_heartbeat cfg j s) as [s' [b|e]]; [|done].
       exists s', b. by destruct H. }
  unfold tick_job_heartbeat, build_heartbeat_tick_context, job_tick_spec.
  apply wp_bind, wp_bind, wp_get.
  destruct (snapshot_is_terminal (d_get_snapshot (jr_job_id j) (hb_dispatcher s))) eqn:Eterm.
  { apply wp_bind, wp_files. eapply wp_hb_remove; [exact Hpath|]. apply wp_ret, wp_ret.
    split; [done|]. by apply store_ok_delete. }
  destruct (truthy (observed_progress _ j)); cbn [negb]; [|by apply wp_ret, wp_ret].
  apply wp_bind, wp_files. eapply wp_hb_load; [exact Hpath|]. apply wp_bind.
  unfold hb_clock, wp at 1. cbn [hb_files hb_ticks hb_dispatcher].
  set (obs := observed_progress _ j). set (now := hc_clock cfg (hb_ticks s)).
  assert (blank now = false) as Hnow by apply Hcfg.
  assert (∀ st, hb_files s !! job_path j = Some st → valid_heartbeat st) as Hprior.
  { intros st Hst. by apply Hf in Hst as [_ Hv]. }
  destruct (evaluate_run (hc_policy cfg) _ _ _ obs now (hb_files s !! job_path j) (job_subject_ok j Hj)
    Hnow Hprior) as (progress & _ & He & _ & _).
  set (next := heartbeat_next _ _ _ _ _ _ _) in He. set (d := heartbeat_decision _ _ _) in He.
  destruct (evaluate_subject _ _ _ _ obs now _ next d (job_subject_ok j Hj) Hnow Hprior He)
    as (Hk & Hi & Hv & Hr).
  clearbody next d. apply wp_bind, wp_lift. rewrite He. apply wp_ret. cbn [fst snd].
  assert (heartbeat_subject_path (hs_subject_kind next) (hs_subject_id next) = Ok (job_path j)) as Hnp
    by by rewrite Hk, Hi.
  assert (store_ok (<[job_path j := next]> (hb_files s))) by by apply store_ok_insert.
  unfold heartbeat_timeout_due. cbn [tx_decision].
  destruct (bool_decide (hd_action d = HB_RESET)) eqn:Er.
  { apply bool_decide_eq_true in Er as Er'. eapply wp_handle_reset; [exact Hnp|]. intros d'.
    split; [|done]. exists next, d. split; [done|]. unfold heartbeat_keep. rewrite (Hr Er'), Er. done. }
  destruct (notice_due d) eqn:Ed; cbn [negb].
  2: { apply wp_ret. split; [|done]. exists next, d. split; [done|]. unfold heartbeat_keep. by rewrite Ed, Er. }
  destruct (match hc_terminal_notice_count cfg with Some n => n <=? hd_notice_count d | None => false end) eqn:El.
  - eapply wp_terminalize; [done|done|exact Hnp|]. intros d'. split; [|by apply store_ok_delete].
    exists next, d. split; [done|]. by rewrite Ed, El.
  - eapply wp_record_internal; [exact Hnp|]. intros d'. split; [|done].
    exists next, d. split; [done|]. rewrite Ed, El. unfold heartbeat_keep. by rewrite Er, Ed.
Qed.

Lemma tick_jobs_run ids active (s : hb_service D) :
  store_ok (hb_files s) →
  ∃ s' active', tick_jobs cfg ids active s = (s', Ok active') ∧ store_ok (hb_files s').
Proof.
  revert active s. induction ids as [|id ids IH]; intros active s Hs; [by exists s, active|].
  cbn [tick_jobs]. unfold mbind' at 1, mget.
  destruct (d_get id (hb_dispatcher s)) as [j|] eqn:Ej; [|by apply IH].
  destruct (should_track_heartbeat_job (Some j)); [|by apply IH].
  destruct (tick_job_run j s) as (s1 & b & Hrun & _ & Hs1); [by eapply law_get|done|].
  rewrite (mbind_ok _ _ _ _ _ Hrun). by apply IH.
Qed.

(** Removing states leaves a file alone unless it holds one of them and it is inactive. *)
Lemma remove_inactive_run states active (s : hb_service D) :
  store_ok (hb_files s) →
  Forall (λ st, is_ok (heartbeat_subject_path (hs_subject_kind st) (hs_subject_id st)) = true) states →
  ∃ s', remove_inactive states active s = (s', Ok tt) ∧ store_ok (hb_files s') ∧
    ∀ path st, hb_files s' !! path = Some st →
      hb_files s !! path = Some st ∧ (st ∈ states → hs_subject_id st ∈ active).
Proof.
  intros Hs Hall. revert s Hs. induction Hall as [|x states Hx _ IH]; intros s Hs; simpl.
  { exists s. split_and!; [done|done|]. intros path st Hst. split; [done|]. by intros ?%elem_of_nil. }
  destruct (mem_str (hs_subject_id x) active) eqn:Em.
  - destruct (IH s Hs) as (s' & Hrun & Hs' & Hl). exists s'. split_and!; [done|done|].
    intros path st Hst. destruct (Hl path st Hst) as [H1 H2]. split; [done|].
    intros [->|Hin]%elem_of_cons; [by apply mem_str_spec|by apply H2].
  - destruct (heartbeat_subject_path (hs_subject_kind x) (hs_subject_id x)) as [p|] eqn:Ep; [|done].
    set (s1 := HbService D (delete p (hb_files s)) (hb_ticks s) (hb_dispatcher s)).
    assert (on_files (heartbeat_remove (hs_subject_kind x) (hs_subject_id x)) s = (s1, Ok tt)) as Hrm.
    { unfold on_files, heartbeat_remove, mbind', mlift, mmod. by rewrite Ep. }
    rewrite (mbind_ok _ _ _ _ _ Hrm).
    destruct (IH s1) as (s' & Hrun & Hs' & Hl); [by apply store_ok_delete|].
    exists s'. split_and!; [done|done|]. intros path st Hst. destruct (Hl path st Hst) as [H1 H2].
    cbn [s1 hb_files] in H1. apply lookup_delete_Some in H1 as [Hne H1]. split; [done|].
    intros [->|Hin]%elem_of_cons; [|by apply H2]. apply Hs in H1 as [H1 _]. congruence.
Qed.

Lemma heartbeat_tick_run kind (s : hb_service D) :
  normalized_segment (hc_subject_kind cfg) "subject_kind" = Ok kind → store_ok (hb_files s) →
  ∃ s' ids, heartbeat_service_tick cfg s = (s', Ok ids) ∧ store_ok (hb_files s') ∧
    Sorted String.le ids ∧ NoDup ids ∧
    ∀ path st, hb_files s' !! path = Some st → path.1 = kind → hs_subject_id st ∈ ids.
Proof.
  intros Hkind Hs. unfold heartbeat_service_tick. unfold mbind' at 1, mget.
  destruct (tick_jobs_run (d_active_items (hb_dispatcher s)) [] s Hs) as (s1 & active & Hrun & Hs1).
  rewrite (mbind_ok _ _ _ _ _ Hrun). unfold cleanup_inactive_heartbeats.
  set (states := map snd (merge_sort state_file_le
                   (List.filter (λ e, String.eqb e.1.1 kind) (map_to_list (hb_files s1))))).
  assert (on_files (heartbeat_list_kind (hc_subject_kind cfg)) s1 = (s1, Ok states)) as Hlist.
  { unfold on_files, heartbeat_list_kind, mbind', mlift, mget. rewrite Hkind. by destruct s1. }
  assert (∀ st, st ∈ states ↔ ∃ path, hb_files s1 !! path = Some st ∧ path.1 = kind) as Hin.
  { intros st. unfold states. rewrite list_elem_of_fmap. split.
    - intros ([path st'] & -> & H). rewrite merge_sort_Permutation in H.
      apply list_elem_of_In, filter_In in H as [H Hk]. apply String.eqb_eq in Hk.
      exists path. split; [|done]. by apply elem_of_map_to_list, list_elem_of_In.
    - intros (path & H & Hk). exists (path, st). split; [done|]. rewrite merge_sort_Permutation.
      apply list_elem_of_In, filter_In. split; [|by apply String.eqb_eq].
      by apply list_elem_of_In, elem_of_map_to_list. }
  destruct (remove_inactive_run states active s1 Hs1) as (s2 & Hrm & Hs2 & Hl).
  { apply Forall_forall. intros st (path & H & _)%Hin. apply Hs1 in H as [H _]. by rewrite H. }
  assert (heartbeat_ok : mbind' (on_files (heartbeat_list_kind (hc_subject_kind cfg)))
    (λ sts, remove_inactive sts active) s1 = (s2, Ok tt)) by by rewrite (mbind_ok _ _ _ _ _ Hlist).
  rewrite (mbind_ok _ _ _ _ _ heartbeat_ok). eexists s2, _. split; [done|]. split_and!; [done| | |].
  - apply Sorted_merge_sort. apply _.
  - rewrite merge_sort_Permutation. apply NoDup_remove_dups.
  - intros path st Hst Hk. rewrite merge_sort_Permutation, elem_of_remove_dups.
    destruct (Hl path st Hst) as [H1 H2]. apply H2, Hin. by exists path.
Qed.
End service.
