(* ===== verification/HeartbeatProps.v ===== *)
(** The properties of the heartbeat, each with a witness. *)

From Stdlib Require Import Ascii String ZArith Lia Sorted.
From stdpp Require Import base gmap list strings sorting.
From S2P Require Import Prelude PyData Names Timestamps Storage MailboxModels CompletionModels Jobs Heartbeat HeartbeatLemmas.

Local Open Scope Z_scope.

Module HSample.
Definition policy : HeartbeatPolicy := MkPolicy 600000000 300000000 (Some 3).
Definition job : JobRecord :=
  MkJob "job_1" None "coder" "codex"
    (MkEnvelope "proj" "coder" "user" "do it" None None "ask" SINGLE false [] None)
    JS_RUNNING None None "2024-05-01T12:00:00Z" "2024-05-01T12:00:00Z" None TARGET_AGENT "coder" None [].
Definition cfg : hb_config :=
  new_hb_config policy "job_progress" None (λ _, "2024-05-01T12:30:00Z") (λ us, VInt (us / 1000)).
(** A dispatcher that runs one job and logs the events. *)
#[global] Instance log_dispatcher : DispatcherOps (list string) := {
  d_active_items _ := ["job_1"];
  d_get id _ := if String.eqb id "job_1" then Some job else None;
  d_get_snapshot _ _ := None;
  d_agents _ := ["coder"];
  d_append_event _ kind _ _ := mmod (λ log, kind :: log);
  d_complete _ _ := mmod (λ log, "complete" :: log);
}.
#[global] Instance log_laws : DispatcherLaws (list string).
Proof.
  split.
  - intros id d j. simpl. destruct (String.eqb id "job_1"); intros [= <-]. by split.
  - intros. by eexists.
  - intros. by eexists.
  - done.
Qed.
Definition start : hb_service (list string) :=
  HbService (list string) {[("job_progress", "job_9") := MkHeartbeat "job_progress" "job_9" "coder"
    "2024-05-01T11:00:00Z" None None 0 "2024-05-01T11:00:00Z"]} 0 [].
Lemma start_ok : store_ok (hb_files start).
Proof. intros path st H. simpl in H. apply lookup_singleton_Some in H as [<- <-]. by split. Qed.
Lemma cfg_ok : hb_config_ok cfg.
Proof. by split. Qed.
End HSample.

(** When a notice is due: exactly when the subject did not just make progress after a
    notice, has been silent for the threshold, and was either never noticed, or is below
    its limit with its interval past.  The evaluation never fails on valid input, leaves a
    valid state, and progress after a notice clears the count. *)
Theorem notice_due_iff (p : HeartbeatPolicy) (kind id owner observed now : string)
    (s : HeartbeatState) :
  subject_ok kind id owner → blank now = false → valid_heartbeat s →
  ∃ progress next d, progress_timestamp observed now = Ok progress ∧
    evaluate_heartbeat p kind id owner observed now (Some s) = Ok (next, d) ∧ valid_heartbeat next ∧
    let advanced := progress_advanced progress (hs_last_progress_at s) && heartbeat_active s in
    (hd_action d = HB_RESET ↔ advanced = true) ∧
    (advanced = true → hs_notice_count next = 0 ∧ hs_last_notice_at next = None) ∧
    (notice_due d = true ↔
       advanced = false ∧ hp_silence_start_after p <= silence_seconds progress now ∧
       (should_enter_heartbeat s = true ∨
        notice_limit_reached s p = false ∧
        hp_repeat_interval p <= since_last_notice_seconds s now)).
Proof.
  intros Hs Hn Hv. destruct (evaluate_run p kind id owner observed now (Some s) Hs Hn)
    as (progress & Hp & He & _ & Hv'); [by intros ? [= <-]|].
  eexists progress, _, _. split; [done|]. split; [exact He|]. split; [exact Hv'|]. cbv zeta.
  clear He Hv'. cbn [start_state]. unfold heartbeat_action, notice_due, repeat_interval_not_elapsed.
  destruct (progress_advanced progress (hs_last_progress_at s) && heartbeat_active s).
  { simpl. naive_solver. }
  destruct (Z.ltb_spec (silence_seconds progress now) (hp_silence_start_after p)).
  { simpl. split_and!; [done|done|]. split; [done|]. intros (_ & ? & _). lia. }
  destruct (should_enter_heartbeat s); [simpl; naive_solver|].
  destruct (notice_limit_reached s p); [simpl; naive_solver|]. cbn [orb].
  destruct (Z.ltb_spec (since_last_notice_seconds s now) (hp_repeat_interval p)); simpl.
  - split_and!; [done|done|]. split; [done|]. intros (_ & _ & [?|[_ ?]]); [done|lia].
  - split_and!; [done|done|]. split; [|done]. intros _. split_and!; [done|done|by right].
Qed.

Lemma notice_due_iff_witness :
  let s := MkHeartbeat "job_progress" "job_1" "coder" "2024-05-01T12:00:00Z"
             (Some "2024-05-01T12:10:00Z") None 1 "2024-05-01T12:10:00Z" in
  ∃ next d, evaluate_heartbeat HSample.policy "job_progress" "job_1" "coder" "2024-05-01T12:00:00Z"
      "2024-05-01T12:15:00Z" (Some s) = Ok (next, d) ∧ notice_due d = true ∧ hs_notice_count next = 2.
Proof.
  intros s. destruct (notice_due_iff HSample.policy "job_progress" "job_1" "coder"
    "2024-05-01T12:00:00Z" "2024-05-01T12:15:00Z" s) as (pr & next & d & Hp & He & _ & _ & _ & Hiff);
    [by repeat split|done|done|].
  assert (pr = "2024-05-01T12:00:00Z") as -> by (by injection Hp as <-).
  exists next, d. split; [exact He|]. split.
  - apply Hiff. split; [reflexivity|]. split; [vm_compute; discriminate|]. right.
    split; [reflexivity|vm_compute; discriminate].
  - assert (E : match evaluate_heartbeat HSample.policy "job_progress" "job_1" "coder"
      "2024-05-01T12:00:00Z" "2024-05-01T12:15:00Z" (Some s) with
      | Ok (n, _) => hs_notice_count n | Err _ => 0 end = 2) by (vm_compute; reflexivity).
    rewrite He in E. exact E.
Defined.





(** A tick of the service ends normally, answers the tracked jobs in order and once
    each, and leaves no heartbeat file of its kind behind for any other job. *)
Theorem service_tick_cleans {D : Type} `{!DispatcherOps D, !DispatcherLaws D} (cfg : hb_config)
    (kind : string) (s : hb_service D) :
  hb_config_ok cfg → normalized_segment (hc_subject_kind cfg) "subject_kind" = Ok kind →
  store_ok (hb_files s) →
  ∃ s' ids, heartbeat_service_tick cfg s = (s', Ok ids) ∧ store_ok (hb_files s') ∧
    Sorted String.le ids ∧ NoDup ids ∧
    ∀ path st, hb_files s' !! path = Some st → path.1 = kind → hs_subject_id st ∈ ids.
Proof. intros Hc. by apply heartbeat_tick_run. Qed.

Lemma service_tick_cleans_witness :
  ∃ s', heartbeat_service_tick HSample.cfg HSample.start = (s', Ok ["job_1"]) ∧
    ∀ path st, hb_files s' !! path = Some st → path.1 = "job_progress" → hs_subject_id st ∈ ["job_1"].
Proof.
  destruct (service_tick_cleans HSample.cfg "job_progress" HSample.start HSample.cfg_ok)
    as (s' & ids & Hrun & _ & _ & _ & Hids); [reflexivity|exact HSample.start_ok|].
  assert (E : match (heartbeat_service_tick HSample.cfg HSample.start).2 with
    | Ok l => l | Err _ => [] end = ["job_1"]) by (vm_compute; reflexivity).
  rewrite Hrun in E. cbn [snd] in E. subst ids. exists s'. split; [exact Hrun|exact Hids].
Defined.
