(* ===== verification/BureauModels.v ===== *)
(** The message bureau's records: [lib/message_bureau/model_enums.py], [models.py],
    [model_codecs.py], the record of [callback_edges.py], and the payload references of
    [reply_payloads.py].  Each record has its constructor's normalisation, its dictionary
    and a round trip. *)

From Stdlib Require Import Ascii String ZArith Lia.
From stdpp Require Import base list strings.
From S2P Require Import Prelude PyData Names Storage MailboxModels CompletionModels Jobs Api.

Local Open Scope Z_scope.

(** ** Enums *)

Definition BUREAU_SCHEMA : Z := 1.

Inductive MessageState :=
  | MS_CREATED | MS_QUEUED | MS_DISPATCHING | MS_RUNNING | MS_PARTIALLY_REPLIED | MS_COMPLETED
  | MS_INCOMPLETE | MS_FAILED | MS_CANCELLED | MS_DEAD_LETTER.

Inductive AttemptState :=
  | AT_PENDING | AT_DELIVERING | AT_RUNNING | AT_WAITING_COMPLETION | AT_REPLY_READY | AT_STALLED
  | AT_RUNTIME_DEAD | AT_FAILED | AT_INCOMPLETE | AT_CANCELLED | AT_SUPERSEDED | AT_DEAD_LETTER
  | AT_COMPLETED.

Inductive ReplyTerminalStatus := RT_COMPLETED | RT_INCOMPLETE | RT_FAILED | RT_CANCELLED.

Inductive CallbackEdgeState :=
  | CE_PENDING | CE_CHILD_COMPLETED | CE_CONTINUATION_SUBMITTED | CE_DONE | CE_FAILED | CE_TIMED_OUT.

#[export] Instance MessageState_eq_dec : EqDecision MessageState.
Proof. solve_decision. Defined.
#[export] Instance AttemptState_eq_dec : EqDecision AttemptState.
Proof. solve_decision. Defined.
#[export] Instance ReplyTerminalStatus_eq_dec : EqDecision ReplyTerminalStatus.
Proof. solve_decision. Defined.
#[export] Instance CallbackEdgeState_eq_dec : EqDecision CallbackEdgeState.
Proof. solve_decision. Defined.

Definition MessageState_value (x : MessageState) : string :=
  match x with
  | MS_CREATED => "created" | MS_QUEUED => "queued" | MS_DISPATCHING => "dispatching"
  | MS_RUNNING => "running" | MS_PARTIALLY_REPLIED => "partially_replied"
  | MS_COMPLETED => "completed" | MS_INCOMPLETE => "incomplete" | MS_FAILED => "failed"
  | MS_CANCELLED => "cancelled" | MS_DEAD_LETTER => "dead_letter"
  end.

Definition AttemptState_value (x : AttemptState) : string :=
  match x with
  | AT_PENDING => "pending" | AT_DELIVERING => "delivering" | AT_RUNNING => "running"
  | AT_WAITING_COMPLETION => "waiting_completion" | AT_REPLY_READY => "reply_ready"
  | AT_STALLED => "stalled" | AT_RUNTIME_DEAD => "runtime_dead" | AT_FAILED => "failed"
  | AT_INCOMPLETE => "incomplete" | AT_CANCELLED => "cancelled" | AT_SUPERSEDED => "superseded"
  | AT_DEAD_LETTER => "dead_letter" | AT_COMPLETED => "completed"
  end.

Definition ReplyTerminalStatus_value (x : ReplyTerminalStatus) : string :=
  match x with
  | RT_COMPLETED => "completed" | RT_INCOMPLETE => "incomplete" | RT_FAILED => "failed"
  | RT_CANCELLED => "cancelled"
  end.

Definition CallbackEdgeState_value (x : CallbackEdgeState) : string :=
  match x with
  | CE_PENDING => "pending" | CE_CHILD_COMPLETED => "child_completed"
  | CE_CONTINUATION_SUBMITTED => "continuation_submitted" | CE_DONE => "done"
  | CE_FAILED => "failed" | CE_TIMED_OUT => "timed_out"
  end.

Definition MessageState_of : string → result MessageState :=
  enum_of [MS_CREATED; MS_QUEUED; MS_DISPATCHING; MS_RUNNING; MS_PARTIALLY_REPLIED; MS_COMPLETED;
           MS_INCOMPLETE; MS_FAILED; MS_CANCELLED; MS_DEAD_LETTER] MessageState_value "MessageState".
Definition AttemptState_of : string → result AttemptState :=
  enum_of [AT_PENDING; AT_DELIVERING; AT_RUNNING; AT_WAITING_COMPLETION; AT_REPLY_READY; AT_STALLED;
           AT_RUNTIME_DEAD; AT_FAILED; AT_INCOMPLETE; AT_CANCELLED; AT_SUPERSEDED; AT_DEAD_LETTER;
           AT_COMPLETED] AttemptState_value "AttemptState".
Definition ReplyTerminalStatus_of : string → result ReplyTerminalStatus :=
  enum_of [RT_COMPLETED; RT_INCOMPLETE; RT_FAILED; RT_CANCELLED] ReplyTerminalStatus_value
    "ReplyTerminalStatus".
Definition CallbackEdgeState_of : string → result CallbackEdgeState :=
  enum_of [CE_PENDING; CE_CHILD_COMPLETED; CE_CONTINUATION_SUBMITTED; CE_DONE; CE_FAILED; CE_TIMED_OUT]
    CallbackEdgeState_value "CallbackEdgeState".

Lemma MessageState_of_value x : MessageState_of (MessageState_value x) = Ok x.
Proof. by destruct x. Qed.
Lemma AttemptState_of_value x : AttemptState_of (AttemptState_value x) = Ok x.
Proof. by destruct x. Qed.
Lemma ReplyTerminalStatus_of_value x : ReplyTerminalStatus_of (ReplyTerminalStatus_value x) = Ok x.
Proof. by destruct x. Qed.
Lemma CallbackEdgeState_of_value x : CallbackEdgeState_of (CallbackEdgeState_value x) = Ok x.
Proof. by destruct x. Qed.
#[export] Hint Rewrite MessageState_of_value AttemptState_of_value ReplyTerminalStatus_of_value
  CallbackEdgeState_of_value : ccb.

(** ** Records *)

Record MessageRecord := MkMessage {
  ms_message_id : string;
  ms_origin_message_id : option string;
  ms_from_actor : string;
  ms_target_scope : string;
  ms_target_agents : list string;
  ms_message_class : string;
  ms_reply_policy : pydict;
  ms_retry_policy : pydict;
  ms_priority : Z;
  ms_payload_ref : option string;
  ms_submission_id : option string;
  ms_created_at : string;
  ms_updated_at : string;
  ms_state : MessageState;
}.

Record AttemptRecord := MkAttempt {
  at_attempt_id : string;
  at_message_id : string;
  at_agent_name : string;
  at_provider : string;
  at_job_id : string;
  at_retry_index : Z;
  at_health_snapshot_ref : option string;
  at_started_at : string;
  at_updated_at : string;
  at_state : AttemptState;
}.

Record ReplyRecord := MkReply {
  rp_reply_id : string;
  rp_message_id : string;
  rp_attempt_id : string;
  rp_agent_name : string;
  rp_terminal_status : ReplyTerminalStatus;
  rp_reply : string;
  rp_reply_artifact : option pydict;
  rp_diagnostics : pydict;
  rp_finished_at : string;
}.

Record CallbackEdgeRecord := MkEdge {
  ce_edge_id : string;
  ce_parent_job_id : string;
  ce_parent_message_id : string;
  ce_parent_agent : string;
  ce_child_job_id : string;
  ce_child_message_id : string;
  ce_callback_target_agent : string;
  ce_original_caller : string;
  ce_original_task_id : option string;
  ce_state : CallbackEdgeState;
  ce_child_reply_id : option string;
  ce_child_status : option string;
  ce_continuation_job_id : option string;
  ce_continuation_message_id : option string;
  ce_timeout_at : option string;
  ce_created_at : string;
  ce_updated_at : string;
  ce_diagnostics : pydict;
}.

(** ** Constructors *)

Definition require_value (field_name value : string) : result unit :=
  raise_if (negb (truthy value)) ValueError (String.append field_name " cannot be empty").

Definition require_agents (target_agents : list string) : result unit :=
  raise_if (bool_decide (target_agents = [])) ValueError "target_agents cannot be empty".

Fixpoint normalize_agents (l : list string) : result (list string) :=
  match l with
  | [] => Ok []
  | a :: r => let! n := normalize_agent_name a in let! ns := normalize_agents r in Ok (n :: ns)
  end.

Definition normalize_message_record (m : MessageRecord) : result MessageRecord :=
  do! require_value "message_id" (ms_message_id m) in
  do! require_value "from_actor" (ms_from_actor m) in
  do! require_value "target_scope" (ms_target_scope m) in
  do! require_agents (ms_target_agents m) in
  do! require_value "message_class" (ms_message_class m) in
  do! raise_if (ms_priority m <? 0) ValueError "priority cannot be negative" in
  let! from_actor := normalize_actor_name (Some (ms_from_actor m)) in
  let! target_agents := normalize_agents (ms_target_agents m) in
  Ok (MkMessage (ms_message_id m) (ms_origin_message_id m) from_actor (ms_target_scope m) target_agents
        (ms_message_class m) (ms_reply_policy m) (ms_retry_policy m) (ms_priority m) (ms_payload_ref m)
        (ms_submission_id m) (ms_created_at m) (ms_updated_at m) (ms_state m)).

Definition normalize_attempt_record (a : AttemptRecord) : result AttemptRecord :=
  do! require_value "attempt_id" (at_attempt_id a) in
  do! require_value "message_id" (at_message_id a) in
  do! require_value "agent_name" (at_agent_name a) in
  do! require_value "provider" (at_provider a) in
  do! require_value "job_id" (at_job_id a) in
  do! raise_if (at_retry_index a <? 0) ValueError "retry_index cannot be negative" in
  let! agent := normalize_agent_name (at_agent_name a) in
  Ok (MkAttempt (at_attempt_id a) (at_message_id a) agent (at_provider a) (at_job_id a)
        (at_retry_index a) (at_health_snapshot_ref a) (at_started_at a) (at_updated_at a) (at_state a)).

Definition normalize_reply_record (r : ReplyRecord) : result ReplyRecord :=
  do! require_value "reply_id" (rp_reply_id r) in
  do! require_value "message_id" (rp_message_id r) in
  do! require_value "attempt_id" (rp_attempt_id r) in
  do! require_value "agent_name" (rp_agent_name r) in
  let! agent := normalize_agent_name (rp_agent_name r) in
  Ok (MkReply (rp_reply_id r) (rp_message_id r) (rp_attempt_id r) agent (rp_terminal_status r)
        (rp_reply r) (rp_reply_artifact r) (rp_diagnostics r) (rp_finished_at r)).

Definition new_edge (e : CallbackEdgeRecord) : result CallbackEdgeRecord :=
  do! require_value "edge_id" (ce_edge_id e) in
  do! require_value "parent_job_id" (ce_parent_job_id e) in
  do! require_value "parent_message_id" (ce_parent_message_id e) in
  do! require_value "child_job_id" (ce_child_job_id e) in
  do! require_value "child_message_id" (ce_child_message_id e) in
  Ok e.

(** ** Dictionaries *)

Definition message_to_record (m : MessageRecord) : pydict :=
  [("schema_version", VInt BUREAU_SCHEMA); ("record_type", VStr "message_record");
   ("message_id", VStr (ms_message_id m)); ("origin_message_id", of_opt_str (ms_origin_message_id m));
   ("from_actor", VStr (ms_from_actor m)); ("target_scope", VStr (ms_target_scope m));
   ("target_agents", VList (map VStr (ms_target_agents m)));
   ("message_class", VStr (ms_message_class m)); ("reply_policy", VDict (ms_reply_policy m));
   ("retry_policy", VDict (ms_retry_policy m)); ("priority", VInt (ms_priority m));
   ("payload_ref", of_opt_str (ms_payload_ref m)); ("submission_id", of_opt_str (ms_submission_id m));
   ("created_at", VStr (ms_created_at m)); ("updated_at", VStr (ms_updated_at m));
   ("message_state", VStr (MessageState_value (ms_state m)))].

Definition attempt_to_record (a : AttemptRecord) : pydict :=
  [("schema_version", VInt BUREAU_SCHEMA); ("record_type", VStr "attempt_record");
   ("attempt_id", VStr (at_attempt_id a)); ("message_id", VStr (at_message_id a));
   ("agent_name", VStr (at_agent_name a)); ("provider", VStr (at_provider a));
   ("job_id", VStr (at_job_id a)); ("retry_index", VInt (at_retry_index a));
   ("health_snapshot_ref", of_opt_str (at_health_snapshot_ref a));
   ("started_at", VStr (at_started_at a)); ("updated_at", VStr (at_updated_at a));
   ("attempt_state", VStr (AttemptState_value (at_state a)))].

(** [dict(d) if d else None] *)
Definition dict_if_any (d : option pydict) : pyval :=
  match d with Some (e :: r) => VDict (e :: r) | _ => VNone end.

Definition reply_to_record (r : ReplyRecord) : pydict :=
  [("schema_version", VInt BUREAU_SCHEMA); ("record_type", VStr "reply_record");
   ("reply_id", VStr (rp_reply_id r)); ("message_id", VStr (rp_message_id r));
   ("attempt_id", VStr (rp_attempt_id r)); ("agent_name", VStr (rp_agent_name r));
   ("terminal_status", VStr (ReplyTerminalStatus_value (rp_terminal_status r)));
   ("reply", VStr (rp_reply r)); ("reply_artifact", dict_if_any (rp_reply_artifact r));
   ("diagnostics", VDict (rp_diagnostics r)); ("finished_at", VStr (rp_finished_at r))].

Definition edge_to_record (e : CallbackEdgeRecord) : pydict :=
  [("schema_version", VInt BUREAU_SCHEMA); ("record_type", VStr "callback_edge");
   ("edge_id", VStr (ce_edge_id e)); ("parent_job_id", VStr (ce_parent_job_id e));
   ("parent_message_id", VStr (ce_parent_message_id e)); ("parent_agent", VStr (ce_parent_agent e));
   ("child_job_id", VStr (ce_child_job_id e)); ("child_message_id", VStr (ce_child_message_id e));
   ("callback_target_agent", VStr (ce_callback_target_agent e));
   ("original_caller", VStr (ce_original_caller e));
   ("original_task_id", of_opt_str (ce_original_task_id e));
   ("state", VStr (CallbackEdgeState_value (ce_state e)));
   ("child_reply_id", of_opt_str (ce_child_reply_id e)); ("child_status", of_opt_str (ce_child_status e));
   ("continuation_job_id", of_opt_str (ce_continuation_job_id e));
   ("continuation_message_id", of_opt_str (ce_continuation_message_id e));
   ("timeout_at", of_opt_str (ce_timeout_at e)); ("created_at", VStr (ce_created_at e));
   ("updated_at", VStr (ce_updated_at e)); ("diagnostics", VDict (ce_diagnostics e))].

(** ** Decoders *)

Definition message_from_record (r : pydict) : result MessageRecord :=
  do! validate_record BUREAU_SCHEMA "message_record" r in
  let! message_id := py_str_at r "message_id" in
  let! origin := as_opt_str (dget r "origin_message_id") in
  let! from_actor := py_str_at r "from_actor" in
  let! target_scope := py_str_at r "target_scope" in
  let! agents := match py_or (dget r "target_agents") (VList []) with
                 | VList l => strs_of l
                 | _ => raise Unmodelled "expected a list of names"
                 end in
  let message_class := py_str (py_or (dget r "message_class") (VStr "task_request")) in
  let! reply_policy := py_dict_or_empty (dget r "reply_policy") in
  let! retry_policy := py_dict_or_empty (dget r "retry_policy") in
  let! priority := py_int (dget_or r "priority" (VInt 100)) in
  let! payload_ref := as_opt_str (dget r "payload_ref") in
  let! submission_id := as_opt_str (dget r "submission_id") in
  let created_at := py_str_or_empty (dget r "created_at") in
  let updated_at := py_str_or_empty (dget r "updated_at") in
  let! state := MessageState_of (py_str (dget_or r "message_state" (VStr (MessageState_value MS_CREATED)))) in
  Ok (MkMessage message_id origin from_actor target_scope agents message_class reply_policy retry_policy
        priority payload_ref submission_id created_at updated_at state).

Definition attempt_from_record (r : pydict) : result AttemptRecord :=
  do! validate_record BUREAU_SCHEMA "attempt_record" r in
  let! attempt_id := py_str_at r "attempt_id" in
  let! message_id := py_str_at r "message_id" in
  let! agent_name := py_str_at r "agent_name" in
  let! provider := py_str_at r "provider" in
  let! job_id := py_str_at r "job_id" in
  let! retry_index := py_int (dget_or r "retry_index" (VInt 0)) in
  let! health := as_opt_str (dget r "health_snapshot_ref") in
  let started_at := py_str_or_empty (dget r "started_at") in
  let updated_at := py_str_or_empty (dget r "updated_at") in
  let! state := AttemptState_of (py_str (dget_or r "attempt_state" (VStr (AttemptState_value AT_PENDING)))) in
  Ok (MkAttempt attempt_id message_id agent_name provider job_id retry_index health started_at updated_at
        state).

Definition reply_from_record (r : pydict) : result ReplyRecord :=
  do! validate_record BUREAU_SCHEMA "reply_record" r in
  let! reply_id := py_str_at r "reply_id" in
  let! message_id := py_str_at r "message_id" in
  let! attempt_id := py_str_at r "attempt_id" in
  let! agent_name := py_str_at r "agent_name" in
  let! status := ReplyTerminalStatus_of
                   (py_str (dget_or r "terminal_status" (VStr (ReplyTerminalStatus_value RT_COMPLETED)))) in
  let reply := py_str_or_empty (dget r "reply") in
  let artifact := match dget r "reply_artifact" with VDict d => Some d | _ => None end in
  let! diagnostics := py_dict_or_empty (dget r "diagnostics") in
  let finished_at := py_str_or_empty (dget r "finished_at") in
  Ok (MkReply reply_id message_id attempt_id agent_name status reply artifact diagnostics finished_at).

(** [Cls.from_record]: decode, then construct. *)
Definition MessageRecord_from_record (r : pydict) : result MessageRecord :=
  let! m := message_from_record r in normalize_message_record m.
Definition AttemptRecord_from_record (r : pydict) : result AttemptRecord :=
  let! a := attempt_from_record r in normalize_attempt_record a.
Definition ReplyRecord_from_record (r : pydict) : result ReplyRecord :=
  let! p := reply_from_record r in normalize_reply_record p.

Definition edge_from_record (r : pydict) : result CallbackEdgeRecord :=
  let! schema := py_int (py_or (dget r "schema_version") (VInt 0)) in
  do! raise_if (negb (schema =? BUREAU_SCHEMA)) ValueError "schema_version must be 1" in
  do! raise_if (match dget r "record_type" with
                | VStr s => negb (String.eqb s "callback_edge")
                | _ => true
                end) ValueError "record_type must be 'callback_edge'" in
  let! edge_id := py_str_at r "edge_id" in
  let! parent_job_id := py_str_at r "parent_job_id" in
  let! parent_message_id := py_str_at r "parent_message_id" in
  let! parent_agent := py_str_at r "parent_agent" in
  let! child_job_id := py_str_at r "child_job_id" in
  let! child_message_id := py_str_at r "child_message_id" in
  let! target := py_str_at r "callback_target_agent" in
  let! caller := py_str_at r "original_caller" in
  let! task_id := as_opt_str (dget r "original_task_id") in
  let! state_s := as_str (dget_or r "state" (VStr (CallbackEdgeState_value CE_PENDING))) in
  let! state := CallbackEdgeState_of state_s in
  let! child_reply_id := as_opt_str (dget r "child_reply_id") in
  let! child_status := as_opt_str (dget r "child_status") in
  let! cont_job := as_opt_str (dget r "continuation_job_id") in
  let! cont_message := as_opt_str (dget r "continuation_message_id") in
  let! timeout_at := as_opt_str (dget r "timeout_at") in
  let created_at := py_str_or_empty (dget r "created_at") in
  let updated_at := py_str_or_empty (dget r "updated_at") in
  let! diagnostics := py_dict_or_empty (dget r "diagnostics") in
  new_edge (MkEdge edge_id parent_job_id parent_message_id parent_agent child_job_id child_message_id
              target caller task_id state child_reply_id child_status cont_job cont_message timeout_at
              created_at updated_at diagnostics).

(** ** Valid records and round trips *)

Definition valid_message (m : MessageRecord) : Prop := normalize_message_record m = Ok m.
Definition valid_attempt (a : AttemptRecord) : Prop := normalize_attempt_record a = Ok a.
Definition valid_reply (r : ReplyRecord) : Prop :=
  normalize_reply_record r = Ok r ∧ rp_reply_artifact r ≠ Some [].
Definition valid_edge (e : CallbackEdgeRecord) : Prop := new_edge e = Ok e.

Lemma require_value_Ok {B} name v (f : unit → result B) b :
  result_bind (require_value name v) f = Ok b → truthy v = true ∧ f tt = Ok b.
Proof. unfold require_value. intros H. apply raise_if_Ok in H as [H ?]. by apply negb_false_iff in H. Qed.

Lemma normalize_agents_ok l l' :
  normalize_agents l = Ok l' →
  Forall (λ n, normal_name n = true) l' ∧ normalize_agents l' = Ok l' ∧ (l = [] ↔ l' = []).
Proof.
  revert l'. induction l as [|a l IH]; intros l' H; simpl in H.
  { injection H as <-. by split_and!. }
  inv_binds H. injection H as <-. rename select (normalize_agents l = _) into Hl.
  apply IH in Hl as (Hf & Hn & _). rename select (normalize_agent_name a = _) into Ha.
  pose proof (normalize_agent_name_ok _ _ Ha) as (_ & _ & Hok).
  apply normalize_agent_name_again in Ha as [_ Ha].
  split_and!; [by constructor| |done]. simpl. by rewrite Ha, Hn.
Qed.

(** The text of a record's class or state is never empty. *)
Lemma message_facts m :
  valid_message m → truthy (ms_message_class m) = true ∧ truthy (ms_message_id m) = true.
Proof.
  unfold valid_message, normalize_message_record. intros H.
  apply require_value_Ok in H as [H1 H]. apply require_value_Ok in H as [_ H].
  apply require_value_Ok in H as [_ H]. apply result_bind_Ok in H as (? & _ & H).
  by apply require_value_Ok in H as [H2 _].
Qed.

Lemma message_roundtrip m : valid_message m → MessageRecord_from_record (message_to_record m) = Ok m.
Proof.
  intros Hv. destruct (message_facts m Hv) as [Hc _].
  unfold MessageRecord_from_record, message_from_record, message_to_record, py_str_at. job_simpl.
  rewrite py_or_VStr by done. unfold py_or. destruct (ms_target_agents m) as [|a l] eqn:El; simpl map.
  - exfalso. unfold valid_message, normalize_message_record in Hv. rewrite El in Hv.
    do 3 apply require_value_Ok in Hv as [_ Hv]. done.
  - cbn [py_truthy strs_of as_str result_bind]. rewrite strs_of_map. job_simpl.
    cbn [py_str]. rewrite <-El. rewrite ?MessageState_of_value. cbn [result_bind]. by destruct m.
Qed.

Lemma attempt_roundtrip a : valid_attempt a → AttemptRecord_from_record (attempt_to_record a) = Ok a.
Proof.
  intros Hv. unfold AttemptRecord_from_record, attempt_from_record, attempt_to_record, py_str_at.
  job_simpl. cbn [py_str]. rewrite ?AttemptState_of_value. cbn [result_bind]. by destruct a.
Qed.

Lemma reply_roundtrip r : valid_reply r → ReplyRecord_from_record (reply_to_record r) = Ok r.
Proof.
  intros [Hv Ha]. unfold ReplyRecord_from_record, reply_from_record, reply_to_record, py_str_at.
  job_simpl. cbn [py_str]. rewrite ?ReplyTerminalStatus_of_value. job_simpl.
  assert (match dict_if_any (rp_reply_artifact r) with VDict d => Some d | _ => None end
          = rp_reply_artifact r) as ->.
  { by destruct (rp_reply_artifact r) as [[|e d]|]. }
  by destruct r.
Qed.

Lemma edge_roundtrip e : valid_edge e → edge_from_record (edge_to_record e) = Ok e.
Proof.
  intros Hv. unfold edge_from_record, edge_to_record, py_str_at, py_or. job_simpl. by destruct e.
Qed.

#[export] Instance MessageRecord_codec : Codec MessageRecord := {
  to_record := message_to_record; from_record := MessageRecord_from_record;
  valid_record := valid_message; from_to_record := message_roundtrip }.
#[export] Instance AttemptRecord_codec : Codec AttemptRecord := {
  to_record := attempt_to_record; from_record := AttemptRecord_from_record;
  valid_record := valid_attempt; from_to_record := attempt_roundtrip }.
#[export] Instance ReplyRecord_codec : Codec ReplyRecord := {
  to_record := reply_to_record; from_record := ReplyRecord_from_record;
  valid_record := valid_reply; from_to_record := reply_roundtrip }.
#[export] Instance CallbackEdgeRecord_codec : Codec CallbackEdgeRecord := {
  to_record := edge_to_record; from_record := edge_from_record;
  valid_record := valid_edge; from_to_record := edge_roundtrip }.
