(* ===== verification/BureauState.v ===== *)
(** The message bureau's stores and shared pieces: payload references
    ([reply_payloads.py]), reply metadata ([reply_metadata.py]), the stores of [store.py]
    and of [callback_edges.py], the message state of [facade_state.py] and the common
    helpers of [facade_recording_common.py]. *)

From Stdlib Require Import Ascii String ZArith Lia.
From stdpp Require Import base gmap list strings.
From S2P Require Import Prelude PyData Names Timestamps Storage MailboxModels MailboxKernel CompletionModels Jobs Api JobStore BureauModels.

Local Open Scope Z_scope.

(** ** [reply_payloads.py] *)

Definition REPLY_PREFIX : string := "reply:".
Definition DELIVERY_PREFIX : string := "delivery:".

Definition compose_reply_payload (reply_id : string) (delivery_job_id : option string) : result string :=
  let reply_id := strip reply_id in
  do! raise_if (negb (truthy reply_id)) ValueError "reply_id cannot be empty" in
  let first := String.append REPLY_PREFIX reply_id in
  let delivery := stripped delivery_job_id in
  Ok (if truthy delivery then join_space [first; String.append DELIVERY_PREFIX delivery]
      else join_space [first]).

Fixpoint token_value (pre : string) (tokens : list string) : option string :=
  match tokens with
  | [] => None
  | t :: rest =>
      if String.prefix pre t then or_none (strip (drop_str (String.length pre) t)) else token_value pre rest
  end.

Definition value_for_prefix (payload_ref : option string) (pre : string) : option string :=
  let text := stripped payload_ref in
  if negb (truthy text) then None else token_value pre (split_ws (replace_char ";" " " text)).

Definition reply_id_from_payload (payload_ref : option string) : option string :=
  value_for_prefix payload_ref REPLY_PREFIX.
Definition delivery_job_id_from_payload (payload_ref : option string) : option string :=
  value_for_prefix payload_ref DELIVERY_PREFIX.

(** ** [reply_metadata.py], on reply records *)

Definition reply_notice_kind (r : ReplyRecord) : option string :=
  or_none (lower (strip (py_str_or_empty (dget (rp_diagnostics r) "notice_kind")))).

Definition reply_notice (r : ReplyRecord) : bool :=
  py_truthy (dget (rp_diagnostics r) "notice") || negb (is_none (reply_notice_kind r)).

Definition reply_last_progress_at (r : ReplyRecord) : option string :=
  or_none (strip (py_str_or_empty (dget (rp_diagnostics r) "last_progress_at"))).

(** ** [callback_edges.py]: the store with its cache

    The file is its rows.  [os.stat] identifies an append-only file by its size, so a
    signature is the number of rows, or nothing before the first. *)
Record edge_store := EdgeStore {
  es_rows : list CallbackEdgeRecord;
  es_latest_by_id : option (list (string * CallbackEdgeRecord));
  es_cache_signature : option nat;
}.

Definition no_edges : edge_store := EdgeStore [] None None.

Definition path_signature (s : edge_store) : option nat :=
  match es_rows s with [] => None | _ => Some (length (es_rows s)) end.

(** The dictionary of the latest record by id, in order of first appearance. *)
Definition latest_edges (rows : list CallbackEdgeRecord) : list (string * CallbackEdgeRecord) :=
  foldl (λ d e, assoc_set (ce_edge_id e) e d) [] rows.

Definition edge_append (e : CallbackEdgeRecord) (s : edge_store) : edge_store :=
  let signature_before := path_signature s in
  let rows := es_rows s ++ [e] in
  match es_latest_by_id s with
  | Some latest =>
      if decide (signature_before = es_cache_signature s)
      then EdgeStore rows (Some (assoc_set (ce_edge_id e) e latest)) (path_signature (EdgeStore rows None None))
      else EdgeStore rows None None
  | None => EdgeStore rows None None
  end.

(** Another process appends to the file. *)
Definition foreign_append (e : CallbackEdgeRecord) (s : edge_store) : edge_store :=
  EdgeStore (es_rows s ++ [e]) (es_latest_by_id s) (es_cache_signature s).

(** [_latest_records_locked]: the cache when the signature is the cached one, else a scan. *)
Definition latest_records (s : edge_store) : edge_store * list (string * CallbackEdgeRecord) :=
  match es_latest_by_id s with
  | Some latest =>
      if decide (path_signature s = es_cache_signature s) then (s, latest)
      else (EdgeStore (es_rows s) (Some (latest_edges (es_rows s))) (path_signature s), latest_edges (es_rows s))
  | None => (EdgeStore (es_rows s) (Some (latest_edges (es_rows s))) (path_signature s), latest_edges (es_rows s))
  end.

(** ** State *)

Record bstate := BState {
  bs_kernel : kstate;
  bs_messages : list MessageRecord;
  bs_attempts : list AttemptRecord;
  bs_replies : list ReplyRecord;
  bs_edges : edge_store;
  bs_ids : nat;                     (** identifiers drawn so far *)
}.

(** [bc_hex] is the successive values of [uuid4().hex[:12]]; [bc_spill] is
    [maybe_spill_text(layout, text, kind, owner_id, prefix, now)] of
    [storage/text_artifacts.py]. *)
Record bconfig := BConfig {
  bc_kernel : kconfig;
  bc_known_mailboxes : list string;
  bc_hex : nat → string;
  bc_spill : string → string → string → string → string → result (string * option pydict);
}.

Abbreviation BM := (M bstate).

Definition on_kernel {A} (m : M kstate A) : BM A :=
  λ s, let '(k, r) := m (bs_kernel s) in
       (BState k (bs_messages s) (bs_attempts s) (bs_replies s) (bs_edges s) (bs_ids s), r).

Definition on_edges {A} (f : edge_store → edge_store * A) : BM A :=
  λ s, let '(e, a) := f (bs_edges s) in
       (BState (bs_kernel s) (bs_messages s) (bs_attempts s) (bs_replies s) e (bs_ids s), Ok a).

(** ** [store.py] *)

Definition message_append (m : MessageRecord) : BM unit :=
  mmod (λ s, BState (bs_kernel s) (bs_messages s ++ [m]) (bs_attempts s) (bs_replies s) (bs_edges s) (bs_ids s)).

Definition message_get_latest (message_id : string) : BM (option MessageRecord) :=
  mget (λ s, find_last (λ m, String.eqb (ms_message_id m) message_id) (bs_messages s)).

Definition list_submission (submission_id : string) : BM (list MessageRecord) :=
  mget (λ s, List.filter (λ m, bool_decide (ms_submission_id m = Some submission_id)) (bs_messages s)).

Definition attempt_append (a : AttemptRecord) : BM unit :=
  mmod (λ s, BState (bs_kernel s) (bs_messages s) (bs_attempts s ++ [a]) (bs_replies s) (bs_edges s) (bs_ids s)).

Definition attempt_get_latest (attempt_id : string) : BM (option AttemptRecord) :=
  mget (λ s, find_last (λ a, String.eqb (at_attempt_id a) attempt_id) (bs_attempts s)).

Definition has_job (job_id : string) (a : AttemptRecord) : bool := String.eqb (at_job_id a) job_id.

Definition attempt_by_job_id (job_id : string) : BM (option AttemptRecord) :=
  mget (λ s, find_last (has_job job_id) (bs_attempts s)).

Definition attempt_by_message_id (message_id : string) (exclude_job_id : option string)
    : BM (option AttemptRecord) :=
  let excluded := stripped exclude_job_id in
  mget (λ s, find_last (λ a, String.eqb (at_message_id a) message_id
                             && (negb (truthy excluded) || negb (String.eqb (at_job_id a) excluded)))
               (bs_attempts s)).

Definition attempt_by_message_agent (message_id agent_name : string) : BM (option AttemptRecord) :=
  let* normalized := mlift (normalize_agent_name agent_name) in
  mget (λ s, find_last (λ a, String.eqb (at_message_id a) message_id
                             && String.eqb (at_agent_name a) normalized) (bs_attempts s)).

Definition attempts_of_message (message_id : string) (l : list AttemptRecord) : list AttemptRecord :=
  List.filter (λ a, String.eqb (at_message_id a) message_id) l.

Definition attempt_list_message (message_id : string) : BM (list AttemptRecord) :=
  mget (λ s, attempts_of_message message_id (bs_attempts s)).

Definition attempt_list_agent (agent_name : string) : BM (list AttemptRecord) :=
  let* normalized := mlift (normalize_agent_name agent_name) in
  mget (λ s, List.filter (λ a, String.eqb (at_agent_name a) normalized) (bs_attempts s)).

Definition reply_append (r : ReplyRecord) : BM unit :=
  mmod (λ s, BState (bs_kernel s) (bs_messages s) (bs_attempts s) (bs_replies s ++ [r]) (bs_edges s) (bs_ids s)).

Definition reply_get_latest (reply_id : string) : BM (option ReplyRecord) :=
  mget (λ s, find_last (λ r, String.eqb (rp_reply_id r) reply_id) (bs_replies s)).

Definition replies_of_message (message_id : string) (l : list ReplyRecord) : list ReplyRecord :=
  List.filter (λ r, String.eqb (rp_message_id r) message_id) l.

Definition reply_list_message (message_id : string) : BM (list ReplyRecord) :=
  mget (λ s, replies_of_message message_id (bs_replies s)).

(** ** [facade_state.py] *)

Definition attempt_terminal (st : AttemptState) : bool :=
  match st with
  | AT_COMPLETED | AT_INCOMPLETE | AT_FAILED | AT_CANCELLED | AT_SUPERSEDED | AT_DEAD_LETTER => true
  | _ => false
  end.

Definition resolve_origin_message_id (reply_to : option string) : BM (option string) :=
  let key := stripped reply_to in
  if negb (truthy key) then mret' None
  else
    let* a := attempt_get_latest key in
    match a with
    | Some a => mret' (Some (at_message_id a))
    | None =>
        let* a := attempt_by_job_id key in
        match a with
        | Some a => mret' (Some (at_message_id a))
        | None =>
            let* m := message_get_latest key in
            mret' (option_map ms_message_id m)
        end
    end.

Definition set_message_state (message_id : string) (next_state : MessageState) (updated_at : string)
    : BM unit :=
  let* current := message_get_latest message_id in
  match current with
  | None => mret' tt
  | Some m =>
      if decide (ms_state m = next_state) then mret' tt
      else
        let* m' := mlift (normalize_message_record
                     (MkMessage (ms_message_id m) (ms_origin_message_id m) (ms_from_actor m)
                        (ms_target_scope m) (ms_target_agents m) (ms_message_class m) (ms_reply_policy m)
                        (ms_retry_policy m) (ms_priority m) (ms_payload_ref m) (ms_submission_id m)
                        (ms_created_at m) updated_at next_state)) in
        message_append m'
  end.

(** The latest record of each attempt, in order of first appearance. *)
Definition latest_attempts (l : list AttemptRecord) : list AttemptRecord :=
  map snd (foldl (λ d a, assoc_set (at_attempt_id a) a d) [] l).

Definition latest_attempts_for_message (message_id : string) : BM (list AttemptRecord) :=
  let* l := attempt_list_message message_id in mret' (latest_attempts l).

Definition terminal_replies (replies : list ReplyRecord) : list ReplyRecord :=
  let terminal := List.filter (λ r, negb (py_truthy (dget (rp_diagnostics r) "notice"))) replies in
  match terminal with [] => replies | _ => terminal end.

Definition next_retry_index (message_id agent_name : string) : BM Z :=
  let* normalized := mlift (normalize_agent_name agent_name) in
  let* l := attempt_list_message message_id in
  mret' (foldl (λ latest a, if String.eqb (at_agent_name a) normalized
                            then Z.max latest (at_retry_index a) else latest) (-1) l + 1).

(** [(single,) = statuses]: the one member of a set given by a list. *)
Definition single_of {A} `{EqDecision A} (l : list A) : option A :=
  match l with
  | [] => None
  | x :: r => if forallb (λ y, bool_decide (y = x)) r then Some x else None
  end.

Definition has_status {A} `{EqDecision A} (x : A) (l : list A) : bool :=
  existsb (λ y, bool_decide (y = x)) l.

Definition reply_terminal_state (statuses : list ReplyTerminalStatus) : MessageState :=
  if bool_decide (statuses = []) then MS_INCOMPLETE
  else
    match single_of statuses with
    | Some RT_COMPLETED => MS_COMPLETED
    | Some RT_CANCELLED => MS_CANCELLED
    | Some RT_FAILED => MS_FAILED
    | Some RT_INCOMPLETE => MS_INCOMPLETE
    | None =>
        if has_status RT_FAILED statuses then MS_FAILED
        else if has_status RT_INCOMPLETE statuses then MS_INCOMPLETE
        else MS_COMPLETED
    end.

Definition attempt_terminal_state (statuses : list AttemptState) : MessageState :=
  if bool_decide (statuses = []) then MS_INCOMPLETE
  else
    match single_of statuses with
    | Some AT_COMPLETED => MS_COMPLETED
    | Some AT_CANCELLED => MS_CANCELLED
    | Some AT_FAILED => MS_FAILED
    | Some _ => MS_INCOMPLETE
    | None =>
        if has_status AT_FAILED statuses then MS_FAILED
        else if has_status AT_INCOMPLETE statuses then MS_INCOMPLETE
        else MS_COMPLETED
    end.

Definition active_attempts (attempts : list AttemptRecord) : list AttemptRecord :=
  List.filter (λ a, negb (attempt_terminal (at_state a))) attempts.

Definition next_message_state (attempts : list AttemptRecord) (replies : list ReplyRecord) : MessageState :=
  match active_attempts attempts with
  | _ :: _ => match replies with [] => MS_RUNNING | _ => MS_PARTIALLY_REPLIED end
  | [] =>
      match map rp_terminal_status (terminal_replies replies) with
      | [] => attempt_terminal_state (map at_state attempts)
      | statuses => reply_terminal_state statuses
      end
  end.

Definition refresh_message_state (message_id updated_at : string) : BM unit :=
  let* message := message_get_latest message_id in
  match message with
  | None => mret' tt
  | Some _ =>
      let* attempts := latest_attempts_for_message message_id in
      match attempts with
      | [] => mret' tt
      | _ =>
          let* replies := reply_list_message message_id in
          set_message_state message_id (next_message_state attempts replies) updated_at
      end
  end.

(** ** [facade_recording_common.py] *)

Definition job_id_from_payload_ref (payload_ref : option string) : option string :=
  let text := stripped payload_ref in
  if String.prefix "job:" text then or_none (strip (drop_str 4 text)) else None.

Definition attempt_state_for_status (st : JobStatus) : AttemptState :=
  match st with
  | JS_COMPLETED => AT_COMPLETED | JS_FAILED => AT_FAILED | JS_INCOMPLETE => AT_INCOMPLETE
  | JS_CANCELLED => AT_CANCELLED | _ => AT_INCOMPLETE
  end.

Definition reply_status_for_job (st : JobStatus) : ReplyTerminalStatus :=
  match st with
  | JS_COMPLETED => RT_COMPLETED | JS_FAILED => RT_FAILED | JS_INCOMPLETE => RT_INCOMPLETE
  | JS_CANCELLED => RT_CANCELLED | _ => RT_INCOMPLETE
  end.

Definition delivered_reply_text (job : JobRecord) (d : CompletionDecision) : string :=
  if negb (bool_decide (jr_status job = JS_COMPLETED)) then cd_reply d
  else if negb (me_silence_on_success (jr_request job)) then cd_reply d
  else
    let task_id := stripped (me_task_id (jr_request job)) in
    join_space
      (["CCB_COMPLETE"; String.append "from=" (jr_agent_name job);
        String.append "status=" (JobStatus_value (jr_status job)); String.append "job=" (jr_job_id job)]
       ++ (if truthy task_id then [String.append "task=" task_id] else [])
       ++ ["result=hidden"]).
