(* ===== verification/Bureau.v ===== *)
(** The message bureau facade: [facade_recording_submission.py],
    [facade_recording_terminal_attempts.py], [facade_recording_terminal_replies.py],
    [retry_lineage.py] and the callback edges of [facade.py], on the state of
    [BureauState] with the mailbox kernel inside. *)

From Stdlib Require Import Ascii String ZArith Lia.
From stdpp Require Import base gmap list strings.
From S2P Require Import Prelude PyData Names Timestamps Storage MailboxModels MailboxKernel CompletionModels Jobs Api JobStore BureauModels BureauState.

Local Open Scope Z_scope.

Section facade.
Context (cfg : bconfig).

(** [f'{prefix}_{uuid4().hex[:12]}'] *)
Definition new_id (pre : string) : BM string :=
  λ s, (BState (bs_kernel s) (bs_messages s) (bs_attempts s) (bs_replies s) (bs_edges s) (S (bs_ids s)),
        Ok (String.append pre (String.append "_" (bc_hex cfg (bs_ids s))))).

Definition mailbox_actor (actor : string) : option string :=
  normalize_mailbox_target (Some actor) (bc_known_mailboxes cfg).

(** Construct an inbound event and append it. *)
Definition append_inbound (e : InboundEventRecord) : BM unit :=
  let* e' := mlift (normalize_inbound_event_record e) in on_kernel (inbound_append e').

Definition append_attempt (a : AttemptRecord) : BM unit :=
  let* a' := mlift (normalize_attempt_record a) in attempt_append a'.

Definition bump_summary (agent_name : string) (reply_delta : Z) (updated_at : string) : BM unit :=
  do* on_kernel (apply_incremental_summary_update (bc_kernel cfg) agent_name 1 reply_delta None None None
                   (Some updated_at)) in
  mret' tt.

Definition rebuild_summary (agent_name updated_at : string) : BM unit :=
  do* on_kernel (rebuild_mailbox_summary (bc_kernel cfg) agent_name (Some updated_at)) in mret' tt.

(** ** [facade_recording_submission.py] *)

Definition job_payload (job : JobRecord) : string := String.append "job:" (jr_job_id job).

Definition request_event (event_id message_id attempt_id created_at : string) (job : JobRecord)
    : InboundEventRecord :=
  MkInboundEventRecord event_id (jr_agent_name job) TASK_REQUEST message_id (Some attempt_id)
    (Some (job_payload job)) 100 IE_QUEUED created_at None None.

Definition pending_attempt (attempt_id message_id accepted_at : string) (retry_index : Z) (job : JobRecord)
    : AttemptRecord :=
  MkAttempt attempt_id message_id (jr_agent_name job) (jr_provider job) (jr_job_id job) retry_index None
    accepted_at accepted_at AT_PENDING.

(** An attempt, its request in the agent's mailbox, and the summary. *)
Definition admit_job (message_id accepted_at : string) (retry_index : Z) (job : JobRecord) : BM string :=
  let* attempt_id := new_id "att" in
  do* append_attempt (pending_attempt attempt_id message_id accepted_at retry_index job) in
  let* event_id := new_id "iev" in
  do* append_inbound (request_event event_id message_id attempt_id accepted_at job) in
  do* bump_summary (jr_agent_name job) 0 accepted_at in
  mret' attempt_id.

Fixpoint admit_jobs (message_id accepted_at : string) (jobs : list JobRecord) : BM unit :=
  match jobs with
  | [] => mret' tt
  | j :: rest =>
      do* admit_job message_id accepted_at 0 j in
      admit_jobs message_id accepted_at rest
  end.

Definition submission_message (message_id : string) (origin : option string) (request : MessageEnvelope)
    (jobs : list JobRecord) (submission_id : option string) (accepted_at : string) : MessageRecord :=
  MkMessage message_id origin (me_from_actor request) (DeliveryScope_value (me_delivery_scope request))
    (map jr_agent_name jobs) (me_message_type request)
    [("mode", VStr (if (1 <? length jobs)%nat then "all" else "single"));
     ("expected_reply_count", VInt (Z.of_nat (length jobs)));
     ("silence_on_success", VBool (me_silence_on_success request))]
    [("mode", VStr "auto"); ("max_attempts", VInt 3);
     ("retryable_reasons", VList [VStr "api_error"; VStr "transport_error"]);
     ("retry_runtime_when_resume_supported", VBool true);
     ("retryable_runtime_reasons", VList [VStr "pane_dead"; VStr "pane_unavailable"])]
    100 None submission_id accepted_at accepted_at MS_QUEUED.

Definition record_submission (request : MessageEnvelope) (jobs : list JobRecord)
    (submission_id : option string) (accepted_at : string) (origin_message_id : option string)
    : BM (option string) :=
  if bool_decide (length jobs = 0%nat) then mret' None
  else
    let* message_id := new_id "msg" in
    let* origin := (if opt_truthy origin_message_id then mret' origin_message_id
                    else resolve_origin_message_id (me_reply_to request)) in
    let* m := mlift (normalize_message_record
                (submission_message message_id origin request jobs submission_id accepted_at)) in
    do* message_append m in
    do* admit_jobs message_id accepted_at jobs in
    mret' (Some message_id).

Definition claimable_request_job_ids (agent_name : string) : BM (list string) :=
  let* event := on_kernel (peek_next agent_name (Some TASK_REQUEST)) in
  mret' match event with
        | None => []
        | Some e => match job_id_from_payload_ref (ie_payload_ref e) with Some id => [id] | None => [] end
        end.

Definition record_retry_attempt (message_id : string) (job : JobRecord) (accepted_at : string) : BM string :=
  let* message := message_get_latest message_id in
  match message with
  | None => mraise ValueError (String.append "message not found: " message_id)
  | Some _ =>
      let* existing := attempt_by_job_id (jr_job_id job) in
      match existing with
      | Some a =>
          if negb (String.eqb (at_message_id a) message_id) then
            mraise ValueError (String.concat "" ["retry job "; jr_job_id job; " is already bound to message ";
                                                 at_message_id a])
          else if negb (bool_decide (at_state a = AT_PENDING)) then mret' (at_attempt_id a)
          else
            let* inbound := on_kernel (inbound_get_latest_for_attempt (jr_agent_name job) (at_attempt_id a)) in
            do* (match inbound with
                 | Some _ => mret' tt
                 | None =>
                     let* event_id := new_id "iev" in
                     append_inbound
                       (request_event event_id message_id (at_attempt_id a)
                          (if truthy (at_started_at a) then at_started_at a else accepted_at) job)
                 end) in
            do* rebuild_summary (jr_agent_name job) accepted_at in
            do* set_message_state message_id MS_QUEUED accepted_at in
            mret' (at_attempt_id a)
      | None =>
          let* retry_index := next_retry_index message_id (jr_agent_name job) in
          let* attempt_id := admit_job message_id accepted_at retry_index job in
          do* set_message_state message_id MS_QUEUED accepted_at in
          mret' attempt_id
      end
  end.

(** ** [facade_recording_terminal_attempts.py] *)

Definition at_replace (a : AttemptRecord) (started_at updated_at : string) (st : AttemptState)
    : AttemptRecord :=
  MkAttempt (at_attempt_id a) (at_message_id a) (at_agent_name a) (at_provider a) (at_job_id a)
    (at_retry_index a) (at_health_snapshot_ref a) started_at updated_at st.

Definition resolve_inbound_for_attempt_start (job : JobRecord) (attempt_id : string)
    : BM (option InboundEventRecord) :=
  let by_attempt := on_kernel (inbound_get_latest_for_attempt (jr_agent_name job) attempt_id) in
  if String.eqb (lower (strip (me_message_type (jr_request job)))) "reply_delivery"
     || py_truthy (dget (jr_provider_options job) "reply_delivery")
  then
    let event_id := strip (py_str_or_empty (dget (jr_provider_options job) "reply_delivery_inbound_event_id")) in
    if truthy event_id then
      let* inbound := on_kernel (inbound_get_latest (jr_agent_name job) event_id) in
      match inbound with Some e => mret' (Some e) | None => by_attempt end
    else by_attempt
  else by_attempt.

Definition mark_attempt_started (job : JobRecord) (started_at : string) : BM unit :=
  let* attempt := attempt_by_job_id (jr_job_id job) in
  match attempt with
  | None => mret' tt
  | Some a =>
      do* append_attempt (at_replace a (if truthy (at_started_at a) then at_started_at a else started_at)
                            started_at AT_RUNNING) in
      let* inbound := resolve_inbound_for_attempt_start job (at_attempt_id a) in
      let* mailbox_updated :=
        (match inbound with
         | Some e =>
             if is_terminal (ie_status e) then mret' false
             else if bool_decide (ie_status e = IE_DELIVERING) then mret' true
             else
               do* on_kernel (claim (bc_kernel cfg) (jr_agent_name job) (ie_inbound_event_id e) (Some started_at)) in
               mret' true
         | None => mret' false
         end) in
      do* set_message_state (at_message_id a) MS_RUNNING started_at in
      if mailbox_updated : bool then mret' tt else rebuild_summary (jr_agent_name job) started_at
  end.

Definition record_attempt_terminal (job : JobRecord) (finished_at : string) : BM unit :=
  let* attempt := attempt_by_job_id (jr_job_id job) in
  match attempt with
  | None => mret' tt
  | Some a =>
      do* append_attempt (at_replace a (at_started_at a) finished_at (attempt_state_for_status (jr_status job))) in
      let* inbound := on_kernel (inbound_get_latest_for_attempt (jr_agent_name job) (at_attempt_id a)) in
      do* (match inbound with
           | Some e =>
               if is_terminal (ie_status e) then rebuild_summary (jr_agent_name job) finished_at
               else
                 let unclaimed := bool_decide (ie_status e = IE_CREATED) || bool_decide (ie_status e = IE_QUEUED) in
                 do* on_kernel
                       (if unclaimed && bool_decide (jr_status job = JS_CANCELLED)
                        then abandon (bc_kernel cfg) (jr_agent_name job) (ie_inbound_event_id e) (Some finished_at)
                        else consume (bc_kernel cfg) (jr_agent_name job) (ie_inbound_event_id e) (Some finished_at)) in
                 mret' tt
           | None => rebuild_summary (jr_agent_name job) finished_at
           end) in
      refresh_message_state (at_message_id a) finished_at
  end.

(** ** [facade_recording_terminal_replies.py] *)

Definition reply_event (event_id mailbox message_id attempt_id payload created_at : string)
    : InboundEventRecord :=
  MkInboundEventRecord event_id mailbox TASK_REPLY message_id (Some attempt_id) (Some payload) 10
    IE_QUEUED created_at None None.

Definition queue_reply_delivery (caller_mailbox message_id attempt_id reply_id finished_at : string)
    : BM unit :=
  let* event_id := new_id "iev" in
  let* payload := mlift (compose_reply_payload reply_id None) in
  do* append_inbound (reply_event event_id caller_mailbox message_id attempt_id payload finished_at) in
  bump_summary caller_mailbox 1 finished_at.

Definition record_consumed_completion_notice
    (caller_mailbox message_id attempt_id reply_id finished_at : string) : BM unit :=
  let* event_id := new_id "iev" in
  let* payload := mlift (compose_reply_payload reply_id None) in
  append_inbound
    (MkInboundEventRecord event_id caller_mailbox COMPLETION_NOTICE message_id (Some attempt_id)
       (Some payload) 10 IE_CONSUMED finished_at (Some finished_at) (Some finished_at)).

Definition reply_artifact_from_decision (d : CompletionDecision) : option pydict :=
  dict_only (dget (cd_diagnostics d) "reply_artifact").

Definition append_reply (r : ReplyRecord) : BM unit :=
  let* r' := mlift (normalize_reply_record r) in reply_append r'.

Definition reply_diagnostics (job : JobRecord) (d : CompletionDecision) (empty_cancel : bool) : pydict :=
  let base :=
    [("reason", of_opt_str (cd_reason d)); ("status", VStr (JobStatus_value (jr_status job)));
     ("provider_turn_ref", of_opt_str (cd_provider_turn_ref d));
     ("decision_diagnostics", VDict (cd_diagnostics d));
     ("silence_on_success", VBool (me_silence_on_success (jr_request job)))] in
  let notice_kind := strip (py_str_or_empty (dget (cd_diagnostics d) "notice_kind")) in
  if empty_cancel then
    dupdate base [("notice", VBool true); ("notice_kind", VStr "cancelled");
                  ("delivery_mode", VStr "auto_consumed_control_notice")]
  else if truthy notice_kind then
    dupdate base [("notice", VBool true); ("notice_kind", VStr notice_kind);
                  ("delivery_mode", VStr "caller_notice")]
  else base.

Definition empty_cancel_notice (job : JobRecord) (d : CompletionDecision) : bool :=
  bool_decide (jr_status job = JS_CANCELLED) && blank (delivered_reply_text job d)
  && is_none (reply_artifact_from_decision d).

Definition record_reply (job : JobRecord) (d : CompletionDecision) (finished_at : string)
    (deliver_to_caller : bool) : BM (option string) :=
  let* attempt := attempt_by_job_id (jr_job_id job) in
  match attempt with
  | None => mret' None
  | Some a =>
      let empty_cancel := empty_cancel_notice job d in
      let* reply_id := new_id "rep" in
      do* append_reply
            (MkReply reply_id (at_message_id a) (at_attempt_id a) (jr_agent_name job)
               (reply_status_for_job (jr_status job)) (delivered_reply_text job d)
               (reply_artifact_from_decision d) (reply_diagnostics job d empty_cancel) finished_at) in
      do* (match (if deliver_to_caller then mailbox_actor (me_from_actor (jr_request job)) else None) with
           | None => mret' tt
           | Some mailbox =>
               if empty_cancel
               then record_consumed_completion_notice mailbox (at_message_id a) (at_attempt_id a) reply_id finished_at
               else queue_reply_delivery mailbox (at_message_id a) (at_attempt_id a) reply_id finished_at
           end) in
      do* refresh_message_state (at_message_id a) finished_at in
      mret' (Some reply_id)
  end.

Definition record_notice (job : JobRecord) (reply : string) (diagnostics : option pydict)
    (finished_at : string) (terminal_status : ReplyTerminalStatus) (deliver_to_actor : option string)
    : BM (option string) :=
  let* attempt := attempt_by_job_id (jr_job_id job) in
  match attempt with
  | None => mret' None
  | Some a =>
      let* reply_id := new_id "rep" in
      let payload := dsetdefault (default [] diagnostics) "status" (VStr (JobStatus_value (jr_status job))) in
      let payload := dsetdefault payload "notice" (VBool true) in
      let* spilled := mlift (bc_spill cfg reply "notice-reply"
                        (String.append (jr_job_id job) (String.append "-" reply_id))
                        (String.concat "" ["CCB notice reply for job "; jr_job_id job;
                           " is larger than 4 KiB and was stored as an artifact."]) finished_at) in
      do* append_reply
            (MkReply reply_id (at_message_id a) (at_attempt_id a) (jr_agent_name job) terminal_status
               spilled.1 spilled.2 payload finished_at) in
      do* (match mailbox_actor (default (me_from_actor (jr_request job)) deliver_to_actor) with
           | None => mret' tt
           | Some mailbox =>
               queue_reply_delivery mailbox (at_message_id a) (at_attempt_id a) reply_id finished_at
           end) in
      do* refresh_message_state (at_message_id a) finished_at in
      mret' (Some reply_id)
  end.

Definition record_terminal (job : JobRecord) (d : CompletionDecision) (finished_at : string)
    (deliver_to_caller record_reply_enabled : bool) : BM (option string) :=
  do* record_attempt_terminal job finished_at in
  if negb record_reply_enabled then mret' None else record_reply job d finished_at deliver_to_caller.
End facade.

(** ** [retry_lineage.py] *)

Record RetrySuccessorEdge := MkRetryEdge {
  re_message_id : string;
  re_source_attempt_id : string;
  re_successor_attempt_id : string;
  re_retry_source_job_id : string;
  re_retry_successor_job_id : string;
  re_retry_index : Z;
}.

Definition terminal_non_success (st : AttemptState) : bool :=
  match st with
  | AT_INCOMPLETE | AT_FAILED | AT_CANCELLED | AT_SUPERSEDED | AT_DEAD_LETTER => true
  | _ => false
  end.

Definition count_str (a : string) (l : list string) : nat := length (List.filter (String.eqb a) l).

(** An error of the record layer becomes [RetryLineageError]. *)
Definition or_lineage {A} (msg : string) (r : result A) : result A :=
  match r with Ok a => Ok a | Err _ => raise RetryLineageError msg end.

Definition authoritative_retry_successor (source_job_id : string) : BM (option RetrySuccessorEdge) :=
  let* source := attempt_by_job_id source_job_id in
  match source with
  | None => mraise RetryLineageError "retry source attempt authority missing"
  | Some src =>
      let* message := message_get_latest (at_message_id src) in
      match message with
      | None => mraise RetryLineageError "retry source message authority missing"
      | Some m =>
          let malformed := "retry source message target authority malformed" in
          let* source_agent := mlift (or_lineage malformed (normalize_agent_name (at_agent_name src))) in
          let* targets := mlift (or_lineage malformed (normalize_agents (ms_target_agents m))) in
          do* mlift (raise_if (negb (count_str source_agent targets =? 1)%nat) RetryLineageError
                       "retry source agent is not uniquely authorized by message targets") in
          do* mlift (raise_if (negb (terminal_non_success (at_state src))) RetryLineageError
                       "retry source attempt is not terminal non-success") in
          let* l := attempt_list_message (at_message_id src) in
          let candidates :=
            List.filter (λ a, String.eqb (at_agent_name a) source_agent
                              && (at_retry_index a =? at_retry_index src + 1)) (latest_attempts l) in
          match candidates with
          | [] => mret' None
          | [succ] =>
              let* max_attempts := mlift (py_int (py_or (dget (ms_retry_policy m) "max_attempts") (VInt 1))) in
              do* mlift (raise_if ((max_attempts <? 1) || (max_attempts <=? at_retry_index succ))
                           RetryLineageError "retry successor exceeds message retry policy") in
              do* mlift (raise_if (String.eqb (at_job_id succ) (at_job_id src)) RetryLineageError
                           "retry successor job matches source job") in
              mret' (Some (MkRetryEdge (at_message_id src) (at_attempt_id src) (at_attempt_id succ)
                             (at_job_id src) (at_job_id succ) (at_retry_index succ)))
          | _ => mraise RetryLineageError "retry successor attempt authority ambiguous"
          end
      end
  end.

(** ** Callback edges: [CallbackEdgeStore] and the facade's operations *)

Definition edge_list_latest : BM (list CallbackEdgeRecord) :=
  on_edges (λ s, let '(s', d) := latest_records s in (s', map snd d)).

Definition callback_edge (edge_id : string) : BM (option CallbackEdgeRecord) :=
  on_edges (λ s, let '(s', d) := latest_records s in
                 (s', option_map snd (List.find (λ e, String.eqb e.1 edge_id) d))).

Definition record_callback_edge (e : CallbackEdgeRecord) : BM unit :=
  on_edges (λ s, (edge_append e s, tt)).

Definition callback_edge_for_child_job (child_job_id : string) : BM (option CallbackEdgeRecord) :=
  let* l := edge_list_latest in
  mret' (List.find (λ e, String.eqb (ce_child_job_id e) child_job_id) l).

Definition callback_edge_for_child_message (child_message_id : string) : BM (option CallbackEdgeRecord) :=
  let* l := edge_list_latest in
  mret' (List.find (λ e, String.eqb (ce_child_message_id e) child_message_id) l).

Definition callback_edge_for_parent_job (parent_job_id : string) : BM (option CallbackEdgeRecord) :=
  let* l := edge_list_latest in
  mret' (List.find (λ e, String.eqb (ce_parent_job_id e) parent_job_id) l).

Definition get_latest_continuation_for_edge (edge_id : string) : BM (option CallbackEdgeRecord) :=
  mget (λ s, find_last (λ e, String.eqb (ce_edge_id e) edge_id && truthy (stripped (ce_continuation_job_id e)))
               (es_rows (bs_edges s))).

(** [changes] is the [replace] of the caller. *)
Definition update_callback_edge (e : CallbackEdgeRecord) (changes : CallbackEdgeRecord → CallbackEdgeRecord)
    : BM CallbackEdgeRecord :=
  let* updated := mlift (new_edge (changes e)) in
  do* record_callback_edge updated in
  mret' updated.

Definition edge_pending (e : CallbackEdgeRecord) : bool :=
  match ce_state e with CE_PENDING | CE_CHILD_COMPLETED => true | _ => false end.

Definition pending_callback_edges : BM (list CallbackEdgeRecord) :=
  let* l := edge_list_latest in mret' (List.filter edge_pending l).
