(* ===== verification/BureauView.v ===== *)
(** Lemmas on the bureau that do not involve the mailbox kernel: payload references, the
    state of a message, the cache of callback edges, retry lineage.

    What the bureau's state says, without the mailbox summaries: a mailbox per agent as in
    [MailboxSpec], the logs of messages, attempts and replies, and the number of
    identifiers drawn.  The rules below execute the facade's building blocks on such a
    view; the operations made of them are in [BureauSpec]. *)

From Stdlib Require Import Ascii String ZArith Lia.
From stdpp Require Import base gmap list strings relations.
From S2P Require Import Prelude PyData Names Text Timestamps Storage MailboxModels MailboxKernel MailboxInvariant MailboxOps MailboxSpec MailboxDiscipline MailboxReach CompletionModels Jobs Api JobStore BureauModels BureauState Bureau.

Local Open Scope Z_scope.

(** ** Payload references *)

(** An identifier in a payload: not empty, without white space or semicolons. *)
Definition plain (s : string) : bool :=
  truthy s && str_forall (λ c, negb (is_space c) && negb (Ascii.eqb ";" c)) s.

Lemma plain_no_space s : plain s = true → no_space s = true.
Proof.
  unfold plain. intros [_ H]%andb_prop. revert H. apply str_forall_mono. by intros c [? _]%andb_prop.
Qed.

Lemma plain_truthy s : plain s = true → truthy s = true.
Proof. unfold plain. by intros [? _]%andb_prop. Qed.

Lemma plain_append a b : plain a = true → plain b = true → plain (String.append a b) = true.
Proof.
  unfold plain. intros [Ha1 Ha2]%andb_prop [_ Hb]%andb_prop. rewrite str_forall_app, Ha2, Hb.
  by destruct a.
Qed.

Lemma plain_semicolon s : plain s = true → str_forall (λ d, negb (Ascii.eqb ";" d)) s = true.
Proof.
  unfold plain. intros [_ H]%andb_prop. revert H. apply str_forall_mono. by intros c [_ ?]%andb_prop.
Qed.

Lemma split_word cur w rest :
  no_space w = true → split_ws_go cur (String.append w rest) = split_ws_go (String.append cur w) rest.
Proof.
  revert cur. induction w as [|c w IH]; intros cur H; [by rewrite append_nil_r|].
  rewrite append_cons. cbn [split_ws_go].
  unfold no_space in H. simpl in H. apply andb_prop in H as [Hc Hw]. apply negb_true_iff in Hc.
  rewrite Hc, IH by done. by rewrite append_assoc.
Qed.

Lemma join_cons w v l :
  join_space (w :: v :: l) = String.append w (String " " (join_space (v :: l))).
Proof. reflexivity. Qed.

Lemma split_words l : Forall (λ w, plain w = true) l → split_ws (join_space l) = l.
Proof.
  unfold split_ws. induction 1 as [|w l Hw Hl IH]; [done|].
  pose proof (plain_no_space w Hw) as Hn. pose proof (plain_truthy w Hw) as Ht.
  destruct l as [|v l].
  - change (join_space [w]) with w. rewrite <-(append_nil_r w) at 1. rewrite split_word by done.
    change (String.append "" w) with w. cbn [split_ws_go]. by rewrite Ht.
  - rewrite join_cons, split_word by done. change (String.append "" w) with w. cbn [split_ws_go].
    change (is_space " ") with true. cbv iota. by rewrite Ht, IH.
Qed.

Lemma lstrip_word w rest :
  plain w = true → lstrip (String.append w rest) = String.append w rest.
Proof.
  intros Hw. pose proof (plain_no_space w Hw) as Hn. destruct w as [|c w]; [done|].
  unfold no_space in Hn. cbn [str_forall] in Hn. apply andb_prop in Hn as [Hc _].
  apply negb_true_iff in Hc. rewrite append_cons. cbn [lstrip]. by rewrite Hc.
Qed.

Lemma join_truthy w l : plain w = true → truthy (join_space (w :: l)) = true.
Proof. intros H. apply plain_truthy in H. by destruct w, l. Qed.

Lemma rstrip_join w l : Forall (λ w, plain w = true) (w :: l) → rstrip (join_space (w :: l)) = join_space (w :: l).
Proof.
  revert w. induction l as [|v l IH]; intros w H.
  - apply Forall_cons in H as [H _]. exact (rstrip_no_space w (plain_no_space w H)).
  - apply Forall_cons in H as [Hw H]. rewrite join_cons. apply rstrip_append; [done|].
    cbn [rstrip]. rewrite IH by done. apply Forall_cons in H as [Hv _].
    generalize (join_truthy v l Hv). by destruct (join_space (v :: l)).
Qed.

Lemma strip_words w l :
  Forall (λ w, plain w = true) (w :: l) → strip (join_space (w :: l)) = join_space (w :: l).
Proof.
  intros H. unfold strip. apply Forall_cons in H as H'. destruct H' as [Hw _].
  assert (lstrip (join_space (w :: l)) = join_space (w :: l)) as ->; [|by apply rstrip_join].
  destruct l as [|v l]; [|by apply lstrip_word].
  change (join_space [w]) with w. rewrite <-(append_nil_r w). by apply lstrip_word.
Qed.

Lemma join_semicolon l :
  Forall (λ w, plain w = true) l → str_forall (λ d, negb (Ascii.eqb ";" d)) (join_space l) = true.
Proof.
  induction 1 as [|w l Hw Hl IH]; [done|]. destruct l as [|v l]; [by apply plain_semicolon|].
  rewrite join_cons, str_forall_app. rewrite plain_semicolon by done. cbn [str_forall andb]. exact IH.
Qed.

Lemma value_of_tokens w l pre :
  Forall (λ w, plain w = true) (w :: l) →
  value_for_prefix (Some (join_space (w :: l))) pre = token_value pre (w :: l).
Proof.
  intros H. apply Forall_cons in H as H'. destruct H' as [Hw _].
  pose proof (join_truthy w l Hw) as Ht. unfold value_for_prefix, stripped, str_or.
  rewrite Ht, (strip_words w l H), Ht. cbn [negb].
  rewrite replace_char_id by by apply join_semicolon. by rewrite split_words.
Qed.

Lemma token_found pre v l : plain v = true → token_value pre (String.append pre v :: l) = Some v.
Proof.
  intros Hv. cbn [token_value]. rewrite prefix_append, drop_append.
  rewrite strip_no_space by by apply plain_no_space. unfold or_none. by rewrite plain_truthy.
Qed.

Lemma token_skip pre t l : String.prefix pre t = false → token_value pre (t :: l) = token_value pre l.
Proof. intros H. cbn [token_value]. by rewrite H. Qed.

Lemma payload_parse reply_id delivery :
  plain reply_id = true → (∀ d, delivery = Some d → plain d = true) →
  ∃ p, compose_reply_payload reply_id delivery = Ok p ∧ reply_id_from_payload (Some p) = Some reply_id ∧
    delivery_job_id_from_payload (Some p) = delivery.
Proof.
  intros Hr Hd. pose proof (plain_no_space _ Hr) as Hrn. unfold compose_reply_payload.
  rewrite (strip_no_space reply_id) by done. rewrite (plain_truthy _ Hr). cbn [negb raise_if result_bind].
  assert (plain (String.append REPLY_PREFIX reply_id) = true) as Hp by by apply plain_append.
  unfold reply_id_from_payload, delivery_job_id_from_payload.
  destruct delivery as [d|].
  - specialize (Hd d eq_refl). unfold stripped. rewrite truthy_or by by apply plain_truthy.
    rewrite (strip_no_space d) by by apply plain_no_space. rewrite (plain_truthy d) by done.
    assert (plain (String.append DELIVERY_PREFIX d) = true) as Hp' by by apply plain_append.
    eexists. split; [reflexivity|]. rewrite !value_of_tokens by by repeat constructor.
    rewrite token_found by done. split; [done|]. rewrite token_skip by done. by apply token_found.
  - exists (join_space [String.append REPLY_PREFIX reply_id]). split; [reflexivity|]. rewrite !value_of_tokens by by repeat constructor.
    rewrite token_found by done. split; [done|]. by rewrite token_skip.
Qed.

(** ** The state of a message *)

Lemma single_of_spec {A} `{EqDecision A} (l : list A) x :
  single_of l = Some x ↔ l ≠ [] ∧ ∀ y, y ∈ l → y = x.
Proof.
  destruct l as [|z l]; [by split; [|intros [? _]]|]. simpl.
  destruct (forallb (λ y, bool_decide (y = z)) l) eqn:E.
  - rewrite forallb_forall in E. split.
    + intros [= <-]. split; [done|]. intros y [->|Hy]%elem_of_cons; [done|].
      apply list_elem_of_In, E in Hy. by apply bool_decide_eq_true in Hy.
    + intros [_ H]. f_equal. apply H. by left.
  - split; [done|]. intros [_ H]. exfalso. assert (z = x) as <- by (apply H; by left).
    assert (forallb (λ y, bool_decide (y = z)) l = true); [|congruence].
    apply forallb_forall. intros y Hy. apply bool_decide_eq_true, H. right. by apply list_elem_of_In.
Qed.

Lemma has_status_spec {A} `{EqDecision A} (x : A) l : has_status x l = true ↔ x ∈ l.
Proof.
  unfold has_status. rewrite existsb_exists. split.
  - intros (y & Hy & E). apply bool_decide_eq_true in E as ->. by apply list_elem_of_In.
  - intros H. exists x. split; [by apply list_elem_of_In|by apply bool_decide_eq_true].
Qed.

Lemma has_status_false {A} `{EqDecision A} (x : A) l : has_status x l = false ↔ x ∉ l.
Proof. rewrite <-has_status_spec. by destruct (has_status x l). Qed.

(** Statuses of which all are the same, or which contain two different ones. *)
Lemma statuses_cases {A} `{EqDecision A} (l : list A) :
  l ≠ [] → (∃ x, single_of l = Some x ∧ ∀ y, (y ∈ l ↔ y = x)) ∨ single_of l = None.
Proof.
  intros Hne. destruct (single_of l) as [x|] eqn:E; [left|by right].
  exists x. split; [done|]. apply single_of_spec in E as [_ H]. intros y. split; [apply H|].
  intros ->. destruct l as [|z l]; [done|]. rewrite <-(H z) by by left. by left.
Qed.

Lemma single_mixed {A} `{EqDecision A} (l : list A) x :
  l ≠ [] → single_of l = None → (∀ y, y ∈ l → y = x) → False.
Proof. intros Hne Hn Hx. assert (single_of l = Some x) by (by apply single_of_spec). congruence. Qed.

Lemma reply_state_spec l :
  l ≠ [] →
  (reply_terminal_state l = MS_FAILED ↔ RT_FAILED ∈ l) ∧
  (reply_terminal_state l = MS_INCOMPLETE ↔ RT_INCOMPLETE ∈ l ∧ RT_FAILED ∉ l) ∧
  (reply_terminal_state l = MS_CANCELLED ↔ (∀ y, y ∈ l → y = RT_CANCELLED)) ∧
  (reply_terminal_state l = MS_COMPLETED ↔ RT_COMPLETED ∈ l ∧ (RT_FAILED ∉ l) ∧ RT_INCOMPLETE ∉ l).
Proof.
  intros Hne. unfold reply_terminal_state. rewrite bool_decide_eq_false_2 by done.
  destruct (statuses_cases l Hne) as [(x & -> & Hx)|Hn].
  { rewrite !Hx. setoid_rewrite Hx. destruct x; split_and!; split; try done; try by intros ? ->.
    all: try by intros [? ?]. all: try by intros (? & ? & ?).
    all: intros H; by specialize (H _ eq_refl). }
  rewrite Hn. assert (Hmix : ∀ x, ¬ (∀ y, y ∈ l → y = x)) by (intros x Hx; by apply (single_mixed l x)).
  pose proof (Hmix RT_CANCELLED) as Hmix'.
  destruct (has_status RT_FAILED l) eqn:Ef; [apply has_status_spec in Ef|apply has_status_false in Ef].
  { naive_solver. }
  destruct (has_status RT_INCOMPLETE l) eqn:Ei; [apply has_status_spec in Ei|apply has_status_false in Ei].
  { naive_solver. }
  assert (RT_COMPLETED ∈ l).
  { destruct (decide (RT_COMPLETED ∈ l)) as [|Hc]; [done|]. destruct Hmix'. intros y Hy. by destruct y. }
  naive_solver.
Qed.

Lemma attempt_state_spec l :
  l ≠ [] →
  (attempt_terminal_state l = MS_FAILED ↔ AT_FAILED ∈ l) ∧
  (attempt_terminal_state l = MS_CANCELLED ↔ (∀ y, y ∈ l → y = AT_CANCELLED)) ∧
  ((∀ y, y ∈ l → y = AT_COMPLETED) → attempt_terminal_state l = MS_COMPLETED).
Proof.
  intros Hne. unfold attempt_terminal_state. rewrite bool_decide_eq_false_2 by done.
  destruct (statuses_cases l Hne) as [(x & -> & Hx)|Hn].
  { rewrite !Hx. setoid_rewrite Hx. destruct x; split_and!; try split; try done; try by intros ? ->.
    all: intros H; by specialize (H _ eq_refl). }
  rewrite Hn. assert (Hmix : ∀ x, ¬ (∀ y, y ∈ l → y = x)) by (intros x Hx; by apply (single_mixed l x)).
  destruct (has_status AT_FAILED l) eqn:Ef; [apply has_status_spec in Ef|apply has_status_false in Ef].
  { split_and!; try split; try done; intros H; by destruct (Hmix _ H). }
  destruct (has_status AT_INCOMPLETE l); split_and!; try split; try done; intros H; by destruct (Hmix _ H).
Qed.

(** ** The cache of callback edges *)

Definition signature_of (n : nat) : option nat := match n with O => None | _ => Some n end.

Lemma path_signature_of s : path_signature s = signature_of (length (es_rows s)).
Proof. unfold path_signature. by destruct (es_rows s). Qed.

Lemma signature_of_inj n m : signature_of n = signature_of m → n = m.
Proof. destruct n, m; intros H; simpl in H; congruence. Qed.

(** What is cached is the scan of the rows the signature stands for. *)
Definition cache_ok (s : edge_store) : Prop :=
  match es_latest_by_id s with
  | None => True
  | Some d => ∃ n, n ≤ length (es_rows s) ∧ es_cache_signature s = signature_of n ∧
                   d = latest_edges (take n (es_rows s))
  end%nat.

Lemma latest_edges_snoc rows e :
  latest_edges (rows ++ [e]) = assoc_set (ce_edge_id e) e (latest_edges rows).
Proof. unfold latest_edges. by rewrite foldl_app. Qed.

Lemma cache_append e s : cache_ok s → cache_ok (edge_append e s) ∧ es_rows (edge_append e s) = es_rows s ++ [e].
Proof.
  unfold cache_ok, edge_append. destruct (es_latest_by_id s) as [d|] eqn:Ed; [|by intros _].
  intros (n & Hn & Hs & Hd). case_decide as Hc; [|by split]. split; [|done]. simpl.
  rewrite path_signature_of, Hs in Hc. apply signature_of_inj in Hc as <-.
  exists (length (es_rows s ++ [e])). split; [done|]. split; [by rewrite path_signature_of|].
  rewrite firstn_all in *. by rewrite latest_edges_snoc, Hd.
Qed.

Lemma cache_foreign e s :
  cache_ok s → cache_ok (foreign_append e s) ∧ es_rows (foreign_append e s) = es_rows s ++ [e].
Proof.
  unfold cache_ok, foreign_append. simpl. destruct (es_latest_by_id s) as [d|] eqn:Ed; [|done].
  intros (n & Hn & Hs & Hd). split; [|done]. exists n. rewrite length_app. split; [lia|]. split; [done|].
  by rewrite take_app_le.
Qed.

Lemma cache_read s :
  cache_ok s →
  cache_ok (latest_records s).1 ∧ es_rows (latest_records s).1 = es_rows s ∧
  (latest_records s).2 = latest_edges (es_rows s).
Proof.
  assert (fresh : cache_ok (EdgeStore (es_rows s) (Some (latest_edges (es_rows s))) (path_signature s))).
  { exists (length (es_rows s)). simpl. split; [done|]. split; [apply path_signature_of|].
    by rewrite firstn_all. }
  unfold latest_records. intros Hok. destruct (es_latest_by_id s) as [d|] eqn:Ed; [|done].
  case_decide as Hc; [|done]. simpl. split; [done|]. split; [done|].
  unfold cache_ok in Hok. rewrite Ed in Hok. destruct Hok as (n & Hn & Hs & ->).
  rewrite path_signature_of, Hs in Hc. apply signature_of_inj in Hc as <-. by rewrite firstn_all.
Qed.

(** The dictionary maps an id to its last row. *)
Definition edge_at (id : string) (d : list (string * CallbackEdgeRecord)) : option CallbackEdgeRecord :=
  option_map snd (List.find (λ e, String.eqb e.1 id) d).

Lemma assoc_set_get id k e d :
  edge_at id (assoc_set k e d) = if String.eqb k id then Some e else edge_at id d.
Proof.
  unfold edge_at. induction d as [|[k' e'] d IH]; simpl; [by case_match|].
  destruct (String.eqb_spec k k') as [->|Hne]; simpl.
  - by destruct (String.eqb k' id).
  - destruct (String.eqb_spec k' id) as [->|Hne']; [|exact IH].
    simpl. by apply String.eqb_neq in Hne as ->.
Qed.

Lemma latest_edges_find id rows :
  edge_at id (latest_edges rows) = find_last (λ e, String.eqb (ce_edge_id e) id) rows.
Proof.
  induction rows as [|e rows IH] using rev_ind; [done|].
  by rewrite latest_edges_snoc, assoc_set_get, find_last_snoc, IH.
Qed.

(** One use of the edge store. *)
Inductive edge_op :=
  | EdgeAppend (e : CallbackEdgeRecord)
  | EdgeForeign (e : CallbackEdgeRecord)
  | EdgeRead.

Definition run_edge_op (o : edge_op) (s : edge_store) : edge_store :=
  match o with
  | EdgeAppend e => edge_append e s
  | EdgeForeign e => foreign_append e s
  | EdgeRead => (latest_records s).1
  end.

Definition appended (ops : list edge_op) : list CallbackEdgeRecord :=
  omap (λ o, match o with EdgeAppend e | EdgeForeign e => Some e | EdgeRead => None end) ops.

Lemma edge_ops_run ops :
  let s := foldl (λ s o, run_edge_op o s) no_edges ops in cache_ok s ∧ es_rows s = appended ops.
Proof.
  cbv zeta. induction ops as [|o ops [Hok Hrows]] using rev_ind; [done|].
  rewrite foldl_app. unfold appended in *. rewrite omap_app. simpl. rewrite <-Hrows.
  destruct o as [e|e|]; simpl.
  - by apply cache_append.
  - by apply cache_foreign.
  - destruct (cache_read _ Hok) as (H1 & H2 & _). split; [done|]. by rewrite H2, app_nil_r.
Qed.

Lemma active_spec attempts :
  existsb (λ a, negb (attempt_terminal (at_state a))) attempts =
    match active_attempts attempts with [] => false | _ => true end.
Proof.
  unfold active_attempts. induction attempts as [|a l IH]; [done|]. simpl.
  by destruct (attempt_terminal (at_state a)).
Qed.

Lemma terminal_replies_nonempty replies : replies ≠ [] → terminal_replies replies ≠ [].
Proof. unfold terminal_replies. by case_match. Qed.

(** The candidates of a retry. *)
Lemma candidates_spec agent idx l x :
  x ∈ List.filter (λ a, String.eqb (at_agent_name a) agent && (at_retry_index a =? idx + 1)) l ↔
  x ∈ l ∧ at_agent_name x = agent ∧ at_retry_index x = idx + 1.
Proof.
  rewrite list_elem_of_In, filter_In, <-list_elem_of_In, andb_true_iff, String.eqb_eq, Z.eqb_eq. done.
Qed.

Record bview := BView {
  v_mail : string → mailbox;
  v_messages : list MessageRecord;
  v_attempts : list AttemptRecord;
  v_replies : list ReplyRecord;
  v_ids : nat;
}.

(** The state [s] shows the view [v]: every owner's box is in step and holds its mailbox. *)
Record sees (s : bstate) (v : bview) : Prop := {
  se_kernel : kernel_inv (bs_kernel s);
  se_mail : ∀ a, owner_name a = true → mailbox_of (bs_kernel s) a = v_mail v a;
  se_messages : bs_messages s = v_messages v;
  se_attempts : bs_attempts s = v_attempts v;
  se_replies : bs_replies s = v_replies v;
  se_ids : bs_ids s = v_ids v;
}.

Definition view_of (s : bstate) : bview :=
  BView (mailbox_of (bs_kernel s)) (bs_messages s) (bs_attempts s) (bs_replies s) (bs_ids s).

Lemma sees_view s : kernel_inv (bs_kernel s) → sees s (view_of s).
Proof. by split. Qed.

(** ** Changes of a view *)

Definition set_mail (a : string) (q : mailbox) (v : bview) : bview :=
  BView (λ x, if decide (x = a) then q else v_mail v x) (v_messages v) (v_attempts v) (v_replies v) (v_ids v).
Definition add_message (m : MessageRecord) (v : bview) : bview :=
  BView (v_mail v) (v_messages v ++ [m]) (v_attempts v) (v_replies v) (v_ids v).
Definition add_attempt (a : AttemptRecord) (v : bview) : bview :=
  BView (v_mail v) (v_messages v) (v_attempts v ++ [a]) (v_replies v) (v_ids v).
Definition add_reply (r : ReplyRecord) (v : bview) : bview :=
  BView (v_mail v) (v_messages v) (v_attempts v) (v_replies v ++ [r]) (v_ids v).
Definition draw (v : bview) : bview :=
  BView (v_mail v) (v_messages v) (v_attempts v) (v_replies v) (S (v_ids v)).

(** A row for the mailbox it names. *)
Definition deliver (r : InboundEventRecord) (v : bview) : bview :=
  set_mail (ie_agent_name r) (spec_enqueue r (v_mail v (ie_agent_name r))) v.

Definition with_kernel (k : kstate) (s : bstate) : bstate :=
  BState k (bs_messages s) (bs_attempts s) (bs_replies s) (bs_edges s) (bs_ids s).

Definition no_error (e : exn) (s : bstate) : Prop := False.

(** ** Rules *)

(** Two computations of which the second needs the state of the first. *)
Lemma wp_bind2 {S A B C} (m : M S A) (m2 : M S B) (k : B → M S C) Q E (s : S) :
  wp m (λ _ s1, wp m2 (λ x s2, wp (k x) Q E s2) E s1) E s → wp (do* m in mbind' m2 k) Q E s.
Proof. unfold wp, mbind'. destruct (m s) as [s1 [a|e]]; [|done]. by destruct (m2 s1) as [s2 [b|e]]. Qed.

Section rules.
Context (cfg : bconfig).
Implicit Types (s : bstate) (v : bview).

Definition id_at (pre : string) (n : nat) : string := String.append pre (String.append "_" (bc_hex cfg n)).

Lemma wp_new_id pre s v (Q : string → bstate → Prop) E :
  sees s v → (∀ s', sees s' (draw v) → Q (id_at pre (v_ids v)) s') → wp (new_id cfg pre) Q E s.
Proof.
  intros Hs HQ. unfold wp, new_id. rewrite (se_ids _ _ Hs). apply HQ. destruct Hs. by split.
Qed.

Lemma wp_message_append m s v (Q : unit → bstate → Prop) E :
  sees s v → (∀ s', sees s' (add_message m v) → Q tt s') → wp (message_append m) Q E s.
Proof. intros [] HQ. apply wp_mod, HQ. split; simpl; by f_equal. Qed.

Lemma wp_attempt_append a s v (Q : unit → bstate → Prop) E :
  sees s v → (∀ s', sees s' (add_attempt a v) → Q tt s') → wp (attempt_append a) Q E s.
Proof. intros [] HQ. apply wp_mod, HQ. split; simpl; by f_equal. Qed.

Lemma wp_reply_append r s v (Q : unit → bstate → Prop) E :
  sees s v → (∀ s', sees s' (add_reply r v) → Q tt s') → wp (reply_append r) Q E s.
Proof. intros [] HQ. apply wp_mod, HQ. split; simpl; by f_equal. Qed.

Lemma wp_append_attempt a s v (Q : unit → bstate → Prop) E :
  sees s v → valid_attempt a → (∀ s', sees s' (add_attempt a v) → Q tt s') →
  wp (append_attempt a) Q E s.
Proof.
  intros Hs Ha HQ. unfold append_attempt. apply wp_bind, wp_lift. rewrite Ha.
  by eapply wp_attempt_append.
Qed.

Lemma wp_append_reply r s v (Q : unit → bstate → Prop) E :
  sees s v → normalize_reply_record r = Ok r → (∀ s', sees s' (add_reply r v) → Q tt s') →
  wp (append_reply r) Q E s.
Proof.
  intros Hs Hr HQ. unfold append_reply. apply wp_bind, wp_lift. rewrite Hr.
  by eapply wp_reply_append.
Qed.

(** *** Calls of the kernel service *)

Lemma with_kernel_sees k s v :
  sees s v → kernel_inv k → (∀ a, owner_name a = true → mailbox_of k a = mailbox_of (bs_kernel s) a) →
  sees (with_kernel k s) v.
Proof. intros [] Hk Hm. split; simpl; [done| |done..]. intros a Ha. rewrite Hm by done. auto. Qed.

Lemma set_mail_sees a q k s v :
  sees s v → kernel_inv k → mailbox_of k a = q →
  (∀ x, x ≠ a → box_of k x = box_of (bs_kernel s) x) → sees (with_kernel k s) (set_mail a q v).
Proof.
  intros [] Hk Hq Hf. split; simpl; [done| |done..]. intros x Hx. case_decide; [by subst|].
  rewrite <-se_mail0 by done. unfold mailbox_of. by rewrite Hf.
Qed.

Lemma on_kernel_run {A} (m : M kstate A) s k' r :
  m (bs_kernel s) = (k', r) → on_kernel m s = (with_kernel k' s, r).
Proof. unfold on_kernel. by intros ->. Qed.

Lemma wp_on_kernel {A} (m : M kstate A) (Q : A → bstate → Prop) (E : exn → bstate → Prop) s :
  wp m (λ x k, Q x (with_kernel k s)) (λ e k, E e (with_kernel k s)) (bs_kernel s) →
  wp (on_kernel m) Q E s.
Proof. unfold wp, on_kernel. by destruct (m (bs_kernel s)) as [k [x|e]]. Qed.

(** A call that refines [f], a sequence of steps of the mailbox of [a]. *)
Lemma wp_call {A} a (m : M kstate A) f s v (Q : A → bstate → Prop) E :
  sees s v → owner_name a = true → refines a m f (bs_kernel s) →
  rtc (step a) (v_mail v a) (f (v_mail v a)).2 →
  (∀ s', sees s' (set_mail a (f (v_mail v a)).2 v) → Q (f (v_mail v a)).1 s') →
  wp (on_kernel m) Q E s.
Proof.
  intros Hs Ha Href Hsteps HQ. rewrite <-(se_mail _ _ Hs a Ha) in *.
  pose proof (refines_moves a m f (bs_kernel s) Href Hsteps (se_kernel _ _ Hs)) as Hmv.
  apply refines_run in Href as (k' & x & b' & Hm & [Hb Hf] & Hinv & E').
  rewrite E' in HQ. unfold wp. rewrite (on_kernel_run m s k' (Ok x) Hm). apply HQ.
  apply set_mail_sees; [done| |by unfold mailbox_of; rewrite Hb|done].
  apply (kernel_moves_inv (bs_kernel s)); [by rewrite Hm in Hmv|apply Hs].
Qed.

(** A call that leaves the mailboxes as they are. *)
Lemma wp_quiet {A} a (m : M kstate A) s v (Q : A → bstate → Prop) E P :
  sees s v → owner_name a = true →
  wp m (λ x k, P x ∧ ∃ b', at_box a (bs_kernel s) k b' ∧ box_inv a b' ∧
          abstract b' = mailbox_of (bs_kernel s) a) (λ _ _, False) (bs_kernel s) →
  (∀ x s', sees s' v → P x → Q x s') → wp (on_kernel m) Q E s.
Proof.
  intros Hs Ha Hm HQ. apply wp_on_kernel. eapply wp_mono; [exact Hm| |done].
  intros x k [HP (b' & [Hb Hf] & Hinv & Hab)]. apply HQ; [|done].
  assert (Hmail : ∀ y, mailbox_of k y = mailbox_of (bs_kernel s) y).
  { intros y. unfold mailbox_of in *. destruct (decide (y = a)) as [->|?]; [by rewrite Hb|by rewrite Hf]. }
  apply with_kernel_sees; [done| |intros; apply Hmail]. intros y Hy. rewrite Hmail.
  destruct (se_kernel _ _ Hs y Hy). split; [|done].
  destruct (decide (y = a)) as [->|?]; [by rewrite Hb|by rewrite Hf].
Qed.

Lemma wp_rebuild_summary a ts s v (Q : unit → bstate → Prop) E :
  sees s v → owner_name a = true → blank ts = false →
  (∀ s', sees s' v → Q tt s') → wp (rebuild_summary cfg a ts) Q E s.
Proof.
  intros Hs Ha Hts HQ. unfold rebuild_summary. apply wp_bind.
  eapply (wp_quiet a _ s v _ _ (λ _, True)); [done|done| |].
  - destruct (se_kernel _ _ Hs a Ha) as [[Hok _] _].
    eapply wp_rebuild; [done|apply at_box_refl|done|done|]. intros k m H1 H2 H3.
    split; [done|]. eexists. split_and!; [done|done|]. by apply (abstract_refreshed (box_of (bs_kernel s) a)).
  - intros _ s' Hs' _. apply wp_ret. by apply HQ.
Qed.

Lemma wp_inbox_get {A} a (f : list InboundEventRecord → A) s v (Q : A → bstate → Prop) E :
  sees s v → owner_name a = true → Q (f (q_log (v_mail v a))) s →
  wp (on_kernel (mget (λ k, f (inbox_of k a)))) Q E s.
Proof.
  intros Hs Ha HQ. apply wp_on_kernel, wp_get. rewrite <-(se_mail _ _ Hs a Ha) in HQ. by destruct s.
Qed.

(** *** Arrivals *)

Definition absent (r : InboundEventRecord) v : Prop :=
  q_latest (eid r) (v_mail v (ie_agent_name r)) = None.

Lemma absent_fresh r s v :
  sees s v → valid_inbound r → absent r v → fresh (bs_kernel s) r.
Proof.
  intros Hs Hr Hf. split_and!; [apply Hr|done|]. rewrite (se_mail _ _ Hs); [done|apply Hr].
Qed.

Lemma wp_append_inbound r s (Q : unit → bstate → Prop) E :
  valid_inbound r → Q tt (with_kernel (inbound_append r (bs_kernel s)).1 s) →
  wp (append_inbound r) Q E s.
Proof.
  intros Hr HQ. unfold append_inbound. apply wp_bind, wp_lift. rewrite normalize_inbound_valid by done.
  by apply wp_on_kernel, wp_mod.
Qed.

(** A waiting row and the increment of the summary. *)
Lemma wp_arrive r d ts s v (Q : unit → bstate → Prop) E :
  sees s v → valid_inbound r → absent r v → is_claimable (ie_status r) = true → blank ts = false →
  d = (if is_reply r then 1 else 0) → (∀ s', sees s' (deliver r v) → Q tt s') →
  wp (append_inbound r) (λ _ s1, wp (bump_summary cfg (ie_agent_name r) d ts) Q E s1) E s.
Proof.
  intros Hs Hr Hab Hcl Hts -> HQ. apply wp_append_inbound; [done|].
  unfold absent in Hab. set (a := ie_agent_name r) in *. assert (owner_name a = true) as Ha by apply Hr.
  assert (is_pending r = true) as Hp by by (unfold is_pending; apply claimable_facts in Hcl as [-> _]).
  destruct (se_kernel _ _ Hs a Ha) as [Hinv _]. rewrite <-(se_mail _ _ Hs a Ha) in Hab.
  pose proof (enqueue_refines (bc_kernel cfg) a Ha r ts (bs_kernel s) Hinv Hts Hr eq_refl Hp Hab) as Href.
  pose proof (refines_moves a _ _ _ Href (rtc_once _ _ (step_enqueue a _ r Hab Hcl)) (se_kernel _ _ Hs)) as Hmv.
  apply refines_run in Href as (k' & x & b' & Hm & [Hb Hf] & Hinv' & Habs%(f_equal snd)).
  rewrite Hm in Hmv. unfold enqueue in Hm. rewrite (mbind_ok _ _ _ (inbound_append r (bs_kernel s)).1 tt) in Hm by done.
  unfold bump_summary. apply wp_bind, wp_on_kernel. unfold wp.
  cbn [bs_kernel with_kernel]. unfold mbind' in Hm. fold a in Hm |- *.
  destruct (apply_incremental_summary_update _ a 1 _ _ _ _ _ _) as [k2 [m2|e2]]; [|done].
  injection Hm as ->. apply HQ. unfold deliver. fold a.
  apply (set_mail_sees a _ k' s v); [done| | |done].
  - by apply (kernel_moves_inv _ _ Hmv), Hs.
  - rewrite <-(se_mail _ _ Hs a Ha). unfold mailbox_of. by rewrite Hb.
Qed.

(** A waiting row and a rebuild. *)
Lemma wp_arrive_rebuild r ts s v (Q : unit → bstate → Prop) E :
  sees s v → valid_inbound r → absent r v → is_claimable (ie_status r) = true → blank ts = false →
  (∀ s', sees s' (deliver r v) → Q tt s') →
  wp (append_inbound r) (λ _ s1, wp (rebuild_summary cfg (ie_agent_name r) ts) Q E s1) E s.
Proof.
  intros Hs Hr Hab Hcl Hts HQ. apply wp_append_inbound; [done|].
  unfold absent in Hab. set (a := ie_agent_name r) in *. assert (owner_name a = true) as Ha by apply Hr.
  pose proof (se_kernel _ _ Hs) as Hk. destruct (Hk a Ha) as [[Hok _] _].
  rewrite <-(se_mail _ _ Hs a Ha) in Hab.
  assert (Href : refines a (do* inbound_append r in do* rebuild_mailbox_summary (bc_kernel cfg) a (Some ts) in mret' tt)
     (λ q, (tt, spec_enqueue r q)) (bs_kernel s)).
  { eapply wp_bind, wp_append; [apply at_box_refl|done|]. intros k1 Hat1. apply wp_bind.
    eapply wp_rebuild; [done|done|apply append_ok; [done|done|apply Hok]|done|].
    intros k2 m H1 H2 H3. apply wp_ret. eexists. split_and!; [done|done|]. f_equal.
    unfold abstract. rewrite H3. done. }
  pose proof (refines_moves a _ _ _ Href (rtc_once _ _ (step_enqueue a _ r Hab Hcl)) Hk) as Hmv.
  apply refines_run in Href as (k' & x & b' & Hm & [Hb Hf] & Hinv' & Habs%(f_equal snd)).
  rewrite Hm in Hmv. rewrite (mbind_ok _ _ _ (inbound_append r (bs_kernel s)).1 tt) in Hm by done.
  unfold rebuild_summary. apply wp_bind, wp_on_kernel. unfold wp.
  cbn [bs_kernel with_kernel]. unfold mbind' in Hm. fold a in Hm |- *.
  destruct (rebuild_mailbox_summary _ a _ _) as [k2 [m2|e2]]; [|done].
  injection Hm as ->. apply HQ. unfold deliver. fold a.
  apply (set_mail_sees a _ k' s v); [done| | |done].
  - by apply (kernel_moves_inv _ _ Hmv).
  - rewrite <-(se_mail _ _ Hs a Ha). unfold mailbox_of. by rewrite Hb.
Qed.

(** A row that has ended when it arrives. *)
Lemma wp_arrive_ended r s v (Q : unit → bstate → Prop) E :
  sees s v → valid_inbound r → absent r v → is_terminal (ie_status r) = true →
  (∀ s', sees s' (deliver r v) → Q tt s') → wp (append_inbound r) Q E s.
Proof.
  intros Hs Hr Hab Hst HQ. apply wp_append_inbound; [done|].
  pose proof (notice_moves r (bs_kernel s) (absent_fresh r s v Hs Hr Hab) Hst (se_kernel _ _ Hs)) as Hmv.
  apply HQ. unfold deliver.
  apply set_mail_sees; [done|by apply (kernel_moves_inv _ _ Hmv), Hs| |].
  - rewrite <-(se_mail _ _ Hs) by apply Hr.
    unfold mailbox_of, abstract, spec_enqueue, lease_mark, box_of, inbox_of. simpl. by rewrite lookup_insert_eq.
  - intros y Hy. unfold box_of, inbox_of. simpl. by rewrite lookup_insert_ne.
Qed.
End rules.
