(* ===== verification/BureauSpec.v ===== *)
(** The facade's operations on views: each operation of [Bureau] ends normally on a valid
    view and valid arguments, and moves the view as the function here says.  The functions
    say nothing of summaries, boxes or clocks. *)

From Stdlib Require Import Ascii String ZArith Lia.
From stdpp Require Import base gmap list strings relations.
From S2P Require Import Prelude PyData Names Text Timestamps Storage MailboxModels MailboxKernel MailboxInvariant MailboxOps MailboxSpec MailboxDiscipline MailboxReach CompletionModels Jobs Api JobStore BureauModels BureauState Bureau BureauView.

Local Open Scope Z_scope.

(** ** Valid records *)

Lemma bind_id {A B} (m : result A) (f : A → result B) a b :
  m = Ok a → f a = Ok b → result_bind m f = Ok b.
Proof. by intros ->. Qed.

Lemma raise_if_go {B} b k msg (f : unit → result B) v :
  b = false → f tt = v → result_bind (raise_if b k msg) f = v.
Proof. by intros ->. Qed.

(** What the constructor of an attempt requires. *)
Lemma valid_attempt_iff a :
  valid_attempt a ↔ truthy (at_attempt_id a) = true ∧ truthy (at_message_id a) = true ∧
    truthy (at_provider a) = true ∧ truthy (at_job_id a) = true ∧ 0 <= at_retry_index a ∧
    normal_name (at_agent_name a) = true.
Proof.
  unfold valid_attempt, normalize_attempt_record. split.
  - intros H. apply require_value_Ok in H as [H1 H]. apply require_value_Ok in H as [H2 H].
    apply require_value_Ok in H as [_ H]. apply require_value_Ok in H as [H3 H].
    apply require_value_Ok in H as [H4 H]. apply raise_if_Ok in H as [H5 H].
    apply result_bind_Ok in H as (n & Hn & H). apply normalize_agent_name_ok in Hn as (_ & _ & Hn).
    apply Z.ltb_ge in H5. split_and!; try done. injection H as H. by rewrite <-H.
  - intros (H1 & H2 & H3 & H4 & H5 & Hn). destruct (normal_name_facts _ Hn) as (_ & _ & Ht & _).
    unfold require_value. rewrite H1, H2, H3, H4, Ht, (ltb_0_false _ H5). simpl.
    rewrite normalize_agent_name_normal by done. by destruct a.
Qed.

Lemma at_replace_valid a st up s : valid_attempt a → valid_attempt (at_replace a st up s).
Proof. by rewrite !valid_attempt_iff. Qed.

Definition ms_set (m : MessageRecord) (updated_at : string) (st : MessageState) : MessageRecord :=
  MkMessage (ms_message_id m) (ms_origin_message_id m) (ms_from_actor m) (ms_target_scope m)
    (ms_target_agents m) (ms_message_class m) (ms_reply_policy m) (ms_retry_policy m) (ms_priority m)
    (ms_payload_ref m) (ms_submission_id m) (ms_created_at m) updated_at st.

Lemma ms_set_valid m ts st : valid_message m → valid_message (ms_set m ts st).
Proof.
  unfold valid_message, normalize_message_record. cbn [ms_set ms_message_id ms_from_actor
    ms_target_scope ms_target_agents ms_message_class ms_priority]. intros H.
  destruct (require_value "message_id" _); [|done]. destruct (require_value "from_actor" _); [|done].
  destruct (require_value "target_scope" _); [|done]. destruct (require_agents _); [|done].
  destruct (require_value "message_class" _); [|done]. destruct (raise_if _ _ _); [|done].
  cbn [result_bind] in *.
  destruct (normalize_actor_name _) as [x|]; [|done]. destruct (normalize_agents _) as [l|]; [|done].
  cbn [result_bind] in *. injection H as H. unfold ms_set. rewrite <-H. done.
Qed.

Lemma find_last_Forall {A} (P : A → Prop) p l x : Forall P l → find_last p l = Some x → P x.
Proof. intros Hl [Hin _]%find_last_Some. rewrite Forall_forall in Hl. by apply Hl. Qed.

(** ** Valid views *)

(** The identifiers drawn are tokens, and never repeat. *)
Record ids_ok (cfg : bconfig) : Prop := {
  io_inj : ∀ n m, bc_hex cfg n = bc_hex cfg m → n = m;
  io_plain : ∀ n, plain (bc_hex cfg n) = true;
}.

Definition attempt_ok (a : AttemptRecord) : Prop :=
  valid_attempt a ∧ owner_name (at_agent_name a) = true.

Record view_ok (cfg : bconfig) (v : bview) : Prop := {
  vo_messages : Forall valid_message (v_messages v);
  vo_attempts : Forall attempt_ok (v_attempts v);
  vo_fresh : ∀ n a, (v_ids v <= n)%nat → q_latest (id_at cfg "iev" n) (v_mail v a) = None;
}.

(** A job the bureau can take: well formed, for an agent with a mailbox. *)
Record job_ok (j : JobRecord) : Prop := {
  jo_valid : valid_job j;
  jo_owner : owner_name (jr_agent_name j) = true;
  jo_provider : truthy (jr_provider j) = true;
}.

Lemma job_ok_id j : job_ok j → truthy (jr_job_id j) = true.
Proof. intros [[H _] _ _]. by apply valid_job_id. Qed.

(** Every id of [q'] is an id of [q]. *)
Definition no_new (q q' : mailbox) : Prop := ∀ id, q_latest id q = None → q_latest id q' = None.

Lemma no_new_append id0 q u c ls mk :
  q_latest id0 q = Some c → eid u = eid c → no_new q (Mailbox (q_log q ++ [u]) ls mk).
Proof.
  intros Hc Hu id Hid. rewrite (find_last_id _ _ _ Hc) in Hu. subst id0. unfold q_latest in *. cbn [q_log]. rewrite find_last_snoc.
  unfold has_event_id at 1. destruct (String.eqb_spec (eid u) id) as [Heq|]; [by rewrite Heq in Hc; congruence|done].
Qed.

Lemma no_new_end id st ts q : no_new q (spec_end id st ts q).2.
Proof.
  unfold spec_end. destruct (q_latest id q) as [c|] eqn:Hc; [|by intros ?]. destruct (is_pending c); [|by intros ?].
  by apply (no_new_append id q _ c).
Qed.

Lemma no_new_claim a id ts e q : no_new q (spec_claim a id ts e q).2.
Proof.
  unfold spec_claim. destruct (q_latest id q) as [c|] eqn:Hc; [|by intros ?]. simpl. repeat case_match; try by intros ?.
  by apply (no_new_append id q _ c).
Qed.

Lemma no_new_trans q1 q2 q3 : no_new q1 q2 → no_new q2 q3 → no_new q1 q3.
Proof. unfold no_new. eauto. Qed.

Lemma no_new_claim_next a ts e ty q : no_new q (spec_claim_next a ts e ty q).2.
Proof. unfold spec_claim_next. repeat case_match; try by intros ?. apply no_new_claim. Qed.

Lemma no_new_rewrite id p st c q : no_new q (spec_rewrite id p st c q).2.
Proof.
  unfold spec_rewrite. destruct (q_latest id q) as [x|] eqn:Hc; [|by intros ?]. destruct (is_pending x); [|by intros ?].
  by apply (no_new_append id q _ x).
Qed.

Lemma no_new_ack a id tc te e q : no_new q (spec_ack a id tc te e q).2.
Proof.
  unfold spec_ack. case_match; [by intros ?|]. destruct (q_head q); [|by intros ?]. case_match; [apply no_new_end|].
  pose proof (no_new_claim a id tc e q) as H1. destruct (spec_claim a id tc e q) as [[x|] q']; [|exact H1].
  eapply no_new_trans; [exact H1|apply no_new_end].
Qed.

Lemma no_new_expire ts q : no_new q (spec_expire ts q).2.
Proof.
  unfold spec_expire. destruct (q_lease q) as [l|]; [|by intros ?]. case_match; [by intros ?|].
  destruct (q_latest (dl_inbound_event_id l) q) as [c|] eqn:Hc; [|by intros id].
  case_match; [|by intros id].
  apply (no_new_end _ _ _ (Mailbox (q_log q) (Some (expired_lease l)) (q_mark q))).
Qed.

Section views.
Context (cfg : bconfig) (Hids : ids_ok cfg).
Implicit Types (v : bview).

Lemma append_inj p a b : String.append p a = String.append p b → a = b.
Proof. induction p as [|c p IH]; [done|]. rewrite !append_cons. intros [= ?]. auto. Qed.

Lemma id_at_inj pre n m : id_at cfg pre n = id_at cfg pre m → n = m.
Proof. intros H. by apply (io_inj cfg Hids), (append_inj "_"), (append_inj pre). Qed.

Lemma id_at_plain pre n : plain pre = true → plain (id_at cfg pre n) = true.
Proof. intros H. apply plain_append; [done|]. apply plain_append; [done|]. apply Hids. Qed.

Lemma id_at_truthy pre n : plain pre = true → truthy (id_at cfg pre n) = true.
Proof. intros H. by apply plain_truthy, id_at_plain. Qed.

Lemma view_draw v : view_ok cfg v → view_ok cfg (draw v).
Proof. intros [H1 H2 H3]. split; simpl; [done|done|]. intros n a ?. apply H3. lia. Qed.

Lemma view_message_ok m v : valid_message m → view_ok cfg v → view_ok cfg (add_message m v).
Proof. intros ? []. split; simpl; [|done|done]. by apply Forall_app_2, Forall_singleton. Qed.

Lemma view_attempt_ok a v : attempt_ok a → view_ok cfg v → view_ok cfg (add_attempt a v).
Proof. intros ? []. split; simpl; [done| |done]. by apply Forall_app_2, Forall_singleton. Qed.

Lemma view_reply_ok r v : view_ok cfg v → view_ok cfg (add_reply r v).
Proof. by intros []. Qed.

Lemma view_set_mail a q v : no_new (v_mail v a) q → view_ok cfg v → view_ok cfg (set_mail a q v).
Proof.
  intros Hq []. split; simpl; [done|done|]. intros n x Hn. case_decide; [subst; by apply Hq, vo_fresh0|].
  by apply vo_fresh0.
Qed.

(** The event of an id just drawn. *)
Lemma new_event r v :
  view_ok cfg v → eid r = id_at cfg "iev" (v_ids v) →
  absent r (draw v) ∧ view_ok cfg (deliver r (draw v)).
Proof.
  intros Hv Hr. pose proof (vo_fresh cfg v Hv) as Hf. split.
  { unfold absent. rewrite Hr. by apply Hf. }
  apply view_draw in Hv. destruct Hv. split; simpl; [done|done|]. intros n x Hn. simpl in *.
  case_decide as Hx; [|by apply vo_fresh0]. subst x. unfold q_latest, spec_enqueue. cbn [q_log].
  rewrite find_last_snoc. unfold has_event_id at 1. rewrite Hr.
  destruct (String.eqb_spec (id_at cfg "iev" (v_ids v)) (id_at cfg "iev" n)) as [E|]; [|by apply vo_fresh0].
  apply id_at_inj in E. lia.
Qed.

(** ** Submission *)

(** A job's attempt and its request, under the identifiers [n] and [n + 1]. *)
Definition admitted_attempt (n : nat) (message_id ts : string) (idx : Z) (j : JobRecord) : AttemptRecord :=
  pending_attempt (id_at cfg "att" n) message_id ts idx j.
Definition admitted_request (n : nat) (message_id ts : string) (j : JobRecord) : InboundEventRecord :=
  request_event (id_at cfg "iev" (S n)) message_id (id_at cfg "att" n) ts j.

Definition admit_view (message_id ts : string) (idx : Z) (j : JobRecord) (v : bview) : bview :=
  deliver (admitted_request (v_ids v) message_id ts j)
    (draw (add_attempt (admitted_attempt (v_ids v) message_id ts idx j) (draw v))).

Definition admit_all (message_id ts : string) (jobs : list JobRecord) (v : bview) : bview :=
  foldl (λ v j, admit_view message_id ts 0 j v) v jobs.

Lemma request_valid id mid att ts j :
  truthy id = true → truthy mid = true → job_ok j → valid_inbound (request_event id mid att ts j).
Proof. intros ?? [_ ? _]. by split_and!. Qed.

Lemma pending_attempt_ok att mid ts idx j :
  truthy att = true → truthy mid = true → 0 <= idx → job_ok j →
  attempt_ok (pending_attempt att mid ts idx j).
Proof.
  intros ??? Hj. pose proof (job_ok_id j Hj). destruct Hj as [_ ? ?].
  split; [|done]. apply valid_attempt_iff. split_and!; auto with ccb.
Qed.

Lemma wp_admit mid ts idx j s v (Q : string → bstate → Prop) :
  sees s v → view_ok cfg v → job_ok j → truthy mid = true → 0 <= idx → blank ts = false →
  (∀ s', sees s' (admit_view mid ts idx j v) → view_ok cfg (admit_view mid ts idx j v) →
     Q (id_at cfg "att" (v_ids v)) s') →
  wp (admit_job cfg mid ts idx j) Q no_error s.
Proof.
  intros Hs Hv Hj Hmid Hidx Hts HQ. unfold admit_job.
  eapply wp_bind, wp_new_id; [done|]. intros s1 Hs1. fold (admitted_attempt (v_ids v) mid ts idx j).
  assert (attempt_ok (admitted_attempt (v_ids v) mid ts idx j)) as Ha.
  { apply pending_attempt_ok; [by apply id_at_truthy|done..]. }
  eapply wp_bind, wp_append_attempt; [done|apply Ha|]. intros s2 Hs2.
  eapply wp_bind, wp_new_id; [done|]. intros s3 Hs3. cbn [v_ids add_attempt draw] in Hs3 |- *.
  fold (admitted_request (v_ids v) mid ts j).
  destruct (new_event (admitted_request (v_ids v) mid ts j)
    (add_attempt (admitted_attempt (v_ids v) mid ts idx j) (draw v))) as [Hab Hv'];
    [by apply view_attempt_ok, view_draw|done|].
  change (jr_agent_name j) with (ie_agent_name (admitted_request (v_ids v) mid ts j)).
  apply wp_bind2. eapply (wp_arrive cfg _ 0 ts s3); try done.
  - apply request_valid; [by apply id_at_truthy|done..].
  - intros s4 Hs4. apply wp_ret. by apply HQ.
Qed.

Lemma wp_admit_jobs mid ts jobs s v (Q : unit → bstate → Prop) :
  sees s v → view_ok cfg v → Forall job_ok jobs → truthy mid = true → blank ts = false →
  (∀ s', sees s' (admit_all mid ts jobs v) → view_ok cfg (admit_all mid ts jobs v) → Q tt s') →
  wp (admit_jobs cfg mid ts jobs) Q no_error s.
Proof.
  revert s v. induction jobs as [|j jobs IH]; intros s v Hs Hv Hj Hm Ht HQ; [by apply wp_ret, HQ|].
  apply Forall_cons in Hj as [Hj Hjs]. cbn [admit_jobs]. eapply wp_bind, wp_admit; [done..|].
  intros s1 Hs1 Hv1. by eapply IH.
Qed.

(** The message of a submission: its targets are the jobs' agents, it waits. *)
Lemma normalize_owners l : Forall (λ n, owner_name n = true) l → normalize_agents l = Ok l.
Proof.
  induction 1 as [|n l Hn Hl IH]; [done|]. simpl. rewrite normalize_agent_name_normal by auto with ccb.
  by rewrite IH.
Qed.

Record request_ok (r : MessageEnvelope) : Prop := {
  ro_valid : valid_envelope r;
  ro_type : truthy (me_message_type r) = true;
}.

Lemma submission_message_valid mid o r jobs sid ts :
  truthy mid = true → request_ok r → Forall job_ok jobs → jobs ≠ [] →
  valid_message (submission_message mid o r jobs sid ts).
Proof.
  intros Hm [[Hr _] Ht] Hj Hne. unfold new_envelope in Hr.
  apply raise_if_Ok in Hr as [_ Hr]. apply raise_if_Ok in Hr as [_ Hr].
  apply raise_if_Ok in Hr as [Hf%negb_false_iff Hr]. apply raise_if_Ok in Hr as [_ Hr].
  apply result_bind_Ok in Hr as (to & _ & Hr). apply result_bind_Ok in Hr as (fa & Hfa & Hr).
  apply raise_if_Ok in Hr as [_ Hr]. apply raise_if_Ok in Hr as [_ Hr].
  assert (fa = me_from_actor r) as -> by (injection Hr as Hr; by rewrite <-Hr).
  unfold valid_message, normalize_message_record, submission_message. simpl.
  unfold require_value, require_agents. rewrite Hm, Hf, Ht. simpl.
  rewrite bool_decide_eq_false_2 by (by destruct jobs). simpl. rewrite Hfa. simpl.
  rewrite normalize_owners; [by destruct (me_delivery_scope r)|].
  apply Forall_map. eapply Forall_impl; [exact Hj|]. by intros j [].
Qed.

(** The message a submission answers. *)
Definition origin_of (reply_to : option string) (v : bview) : option string :=
  let key := stripped reply_to in
  if negb (truthy key) then None
  else
    match find_last (λ a, String.eqb (at_attempt_id a) key) (v_attempts v) with
    | Some a => Some (at_message_id a)
    | None =>
        match find_last (has_job key) (v_attempts v) with
        | Some a => Some (at_message_id a)
        | None => option_map ms_message_id (find_last (λ m, String.eqb (ms_message_id m) key) (v_messages v))
        end
    end.

Lemma wp_resolve_origin reply_to s v (Q : option string → bstate → Prop) E :
  sees s v → Q (origin_of reply_to v) s → wp (resolve_origin_message_id reply_to) Q E s.
Proof.
  intros [_ _ Hm Hat _ _] HQ. unfold resolve_origin_message_id, origin_of in *.
  destruct (truthy (stripped reply_to)); [|by apply wp_ret]. cbn [negb] in *.
  apply wp_bind, wp_get. rewrite Hat. destruct (find_last _ (v_attempts v)); [by apply wp_ret|].
  apply wp_bind, wp_get. rewrite Hat. destruct (find_last _ (v_attempts v)); [by apply wp_ret|].
  apply wp_bind, wp_get, wp_ret. by rewrite Hm.
Qed.

Definition submitted_message (r : MessageEnvelope) (jobs : list JobRecord) (sid : option string)
    (ts : string) (origin : option string) (v : bview) : MessageRecord :=
  submission_message (id_at cfg "msg" (v_ids v))
    (if opt_truthy origin then origin else origin_of (me_reply_to r) v) r jobs sid ts.

Definition submit_view (r : MessageEnvelope) (jobs : list JobRecord) (sid : option string) (ts : string)
    (origin : option string) (v : bview) : bview :=
  admit_all (id_at cfg "msg" (v_ids v)) ts jobs
    (add_message (submitted_message r jobs sid ts origin v) (draw v)).

Lemma wp_record_submission r jobs sid ts origin s v (Q : option string → bstate → Prop) :
  sees s v → view_ok cfg v → request_ok r → Forall job_ok jobs → jobs ≠ [] → blank ts = false →
  (∀ s', sees s' (submit_view r jobs sid ts origin v) → view_ok cfg (submit_view r jobs sid ts origin v) →
     Q (Some (id_at cfg "msg" (v_ids v))) s') →
  wp (record_submission cfg r jobs sid ts origin) Q no_error s.
Proof.
  intros Hs Hv Hr Hj Hne Hts HQ. unfold record_submission.
  rewrite bool_decide_eq_false_2 by (by destruct jobs).
  eapply wp_bind, wp_new_id; [done|]. intros s1 Hs1. apply wp_bind.
  eapply (wp_mono _ (λ o s', sees s' (draw v) ∧
    o = if opt_truthy origin then origin else origin_of (me_reply_to r) v) _ no_error); [| |done].
  { destruct (opt_truthy origin); [by apply wp_ret|]. by eapply wp_resolve_origin. }
  intros o s2 [Hs2 ->]. fold (submitted_message r jobs sid ts origin v).
  assert (truthy (id_at cfg "msg" (v_ids v)) = true) as Hm by by apply id_at_truthy.
  assert (valid_message (submitted_message r jobs sid ts origin v)) as Hmv by by apply submission_message_valid.
  apply wp_bind, wp_lift. rewrite Hmv.
  eapply wp_bind, wp_message_append; [done|]. intros s3 Hs3.
  eapply wp_bind, wp_admit_jobs; [done|by apply view_message_ok, view_draw|done..|].
  intros s4 Hs4 Hv4. apply wp_ret. by apply HQ.
Qed.

(** ** Message state *)

Definition latest_message (mid : string) (v : bview) : option MessageRecord :=
  find_last (λ m, String.eqb (ms_message_id m) mid) (v_messages v).

Definition message_view (mid : string) (st : MessageState) (ts : string) (v : bview) : bview :=
  match latest_message mid v with
  | Some m => if decide (ms_state m = st) then v else add_message (ms_set m ts st) v
  | None => v
  end.

Definition refreshed_view (mid ts : string) (v : bview) : bview :=
  match latest_attempts (attempts_of_message mid (v_attempts v)) with
  | [] => v
  | l => message_view mid (next_message_state l (replies_of_message mid (v_replies v))) ts v
  end.

Lemma message_view_ok mid st ts v : view_ok cfg v → view_ok cfg (message_view mid st ts v).
Proof.
  intros Hv. unfold message_view, latest_message. destruct (find_last _ _) as [m|] eqn:Em; [|done].
  case_decide; [done|]. apply view_message_ok; [|done]. apply ms_set_valid.
  by eapply find_last_Forall; [apply Hv|].
Qed.

Lemma refreshed_view_ok mid ts v : view_ok cfg v → view_ok cfg (refreshed_view mid ts v).
Proof. intros Hv. unfold refreshed_view. case_match; [done|]. by apply message_view_ok. Qed.

Lemma message_view_none mid st ts v : latest_message mid v = None → message_view mid st ts v = v.
Proof. unfold message_view. by intros ->. Qed.

Lemma wp_set_message_state mid st ts s v (Q : unit → bstate → Prop) E :
  sees s v → view_ok cfg v → (∀ s', sees s' (message_view mid st ts v) → Q tt s') →
  wp (set_message_state mid st ts) Q E s.
Proof.
  intros Hs Hv HQ. unfold set_message_state. apply wp_bind, wp_get. rewrite (se_messages _ _ Hs).
  unfold message_view, latest_message in HQ. destruct (find_last _ _) as [m|] eqn:Em; [|by apply wp_ret, HQ].
  case_decide; [by apply wp_ret, HQ|]. apply wp_bind, wp_lift. fold (ms_set m ts st).
  rewrite (ms_set_valid m ts st); [by eapply wp_message_append|].
  by eapply find_last_Forall; [apply Hv|].
Qed.

Lemma wp_refresh_message_state mid ts s v (Q : unit → bstate → Prop) E :
  sees s v → view_ok cfg v → (∀ s', sees s' (refreshed_view mid ts v) → Q tt s') →
  wp (refresh_message_state mid ts) Q E s.
Proof.
  intros Hs Hv HQ. unfold refresh_message_state. apply wp_bind, wp_get. rewrite (se_messages _ _ Hs).
  fold (latest_message mid v). destruct (latest_message mid v) as [m|] eqn:Em.
  - apply wp_bind, wp_bind, wp_get, wp_ret. rewrite (se_attempts _ _ Hs). unfold refreshed_view in HQ.
    destruct (latest_attempts _) as [|a l]; [by apply wp_ret, HQ|].
    apply wp_bind, wp_get. rewrite (se_replies _ _ Hs). by eapply wp_set_message_state.
  - apply wp_ret, HQ. unfold refreshed_view. case_match; [done|]. by rewrite message_view_none.
Qed.

(** ** Retries *)

Definition retry_index (mid agent : string) (v : bview) : Z :=
  foldl (λ latest a, if String.eqb (at_agent_name a) agent then Z.max latest (at_retry_index a) else latest)
    (-1) (attempts_of_message mid (v_attempts v)) + 1.

Lemma retry_index_nonneg mid agent v : 0 <= retry_index mid agent v.
Proof.
  unfold retry_index. generalize (attempts_of_message mid (v_attempts v)) as l.
  assert (H : ∀ l z, -1 <= z → -1 <= foldl (λ latest a, if String.eqb (at_agent_name a) agent
    then Z.max latest (at_retry_index a) else latest) z l).
  { induction l as [|a l IH]; intros z Hz; [done|]. simpl. apply IH. case_match; lia. }
  intros l. specialize (H l (-1)). lia.
Qed.

Definition event_of_attempt (agent att : string) (v : bview) : option InboundEventRecord :=
  find_last (has_attempt_id att) (q_log (v_mail v agent)).

(** A retry whose attempt is stored already: its request is repaired if it is missing. *)
Definition replay_view (mid ts : string) (j : JobRecord) (a : AttemptRecord) (v : bview) : bview :=
  if decide (at_state a = AT_PENDING) then
    message_view mid MS_QUEUED ts
      match event_of_attempt (jr_agent_name j) (at_attempt_id a) v with
      | Some _ => v
      | None =>
          deliver (request_event (id_at cfg "iev" (v_ids v)) mid (at_attempt_id a)
                     (if truthy (at_started_at a) then at_started_at a else ts) j) (draw v)
      end
  else v.

Definition retry_view (mid ts : string) (j : JobRecord) (v : bview) : string * bview :=
  match find_last (has_job (jr_job_id j)) (v_attempts v) with
  | Some a => (at_attempt_id a, replay_view mid ts j a v)
  | None => (id_at cfg "att" (v_ids v),
             message_view mid MS_QUEUED ts (admit_view mid ts (retry_index mid (jr_agent_name j) v) j v))
  end.

Lemma wp_event_of_attempt agent att s v (Q : option InboundEventRecord → bstate → Prop) E :
  sees s v → owner_name agent = true → Q (event_of_attempt agent att v) s →
  wp (on_kernel (inbound_get_latest_for_attempt agent att)) Q E s.
Proof. intros Hs Ha HQ. by apply (wp_inbox_get agent (find_last (has_attempt_id att)) s v). Qed.

Lemma message_id_truthy mid v m : view_ok cfg v → latest_message mid v = Some m → truthy mid = true.
Proof.
  intros Hv Hm. pose proof Hm as [_ Hid]%find_last_Some. apply String.eqb_eq in Hid as <-.
  apply message_facts. by eapply find_last_Forall; [apply Hv|].
Qed.

Lemma wp_record_retry mid j ts s v m (Q : string → bstate → Prop) :
  sees s v → view_ok cfg v → job_ok j → blank ts = false → latest_message mid v = Some m →
  (∀ a, find_last (has_job (jr_job_id j)) (v_attempts v) = Some a → at_message_id a = mid) →
  (∀ s', sees s' (retry_view mid ts j v).2 → view_ok cfg (retry_view mid ts j v).2 →
     Q (retry_view mid ts j v).1 s') →
  wp (record_retry_attempt cfg mid j ts) Q no_error s.
Proof.
  intros Hs Hv Hj Hts Hm Hbound HQ. pose proof (message_id_truthy mid v m Hv Hm) as Ht.
  pose proof (jo_owner j Hj) as Ho. unfold record_retry_attempt.
  apply wp_bind, wp_get. rewrite (se_messages _ _ Hs). unfold latest_message in Hm. rewrite Hm.
  apply wp_bind, wp_get. rewrite (se_attempts _ _ Hs). unfold retry_view in HQ.
  destruct (find_last _ (v_attempts v)) as [a|] eqn:Ea.
  - rewrite (Hbound a eq_refl), String.eqb_refl. cbn [negb fst snd] in *. unfold replay_view in HQ.
    destruct (decide (at_state a = AT_PENDING)) as [Hst|Hst].
    2: { rewrite bool_decide_eq_false_2 by done. by apply wp_ret, HQ. }
    rewrite bool_decide_eq_true_2 by done. cbn [negb].
    eapply wp_bind, wp_event_of_attempt; [done|done|].
    destruct (event_of_attempt (jr_agent_name j) (at_attempt_id a) v) as [e|].
    + apply wp_bind, wp_ret. eapply wp_bind, wp_rebuild_summary; [done..|]. intros s1 Hs1.
      eapply wp_bind, wp_set_message_state; [done..|]. intros s2 Hs2. apply wp_ret, HQ; [done|].
      by apply message_view_ok.
    + match type of HQ with context [request_event ?i ?m ?t ?c j] => set (r := request_event i m t c j) in * end.
      destruct (new_event r v) as [Hab Hv']; [done|done|].
      apply wp_bind2. eapply wp_bind, wp_new_id; [done|]. intros s1 Hs1. fold r.
      change (jr_agent_name j) with (ie_agent_name r).
      eapply (wp_arrive_rebuild cfg r ts s1); try done.
      intros s2 Hs2. eapply wp_bind, wp_set_message_state; [done..|]. intros s3 Hs3. apply wp_ret, HQ; [done|].
      by apply message_view_ok.
  - apply wp_bind. unfold next_retry_index. apply wp_bind, wp_lift.
    rewrite normalize_agent_name_normal by auto with ccb. apply wp_bind, wp_get, wp_ret.
    rewrite (se_attempts _ _ Hs). fold (retry_index mid (jr_agent_name j) v).
    eapply wp_bind, wp_admit; [done..|apply retry_index_nonneg|done|]. intros s1 Hs1 Hv1.
    eapply wp_bind, wp_set_message_state; [done..|]. intros s2 Hs2. apply wp_ret, HQ; [done|].
    by apply message_view_ok.
Qed.

(** A retry of a job that belongs to another message is refused, and changes nothing. *)
Lemma retry_refused mid j ts s v a :
  sees s v → find_last (has_job (jr_job_id j)) (v_attempts v) = Some a → at_message_id a ≠ mid →
  ∃ msg, record_retry_attempt cfg mid j ts s = (s, raise ValueError msg).
Proof.
  intros Hs Ha Hne. unfold record_retry_attempt, mbind', message_get_latest, attempt_by_job_id, mget.
  destruct (find_last _ (bs_messages s)); [|by eexists]. rewrite (se_attempts _ _ Hs), Ha.
  apply String.eqb_neq in Hne. rewrite Hne. by eexists.
Qed.


(** ** Attempts that start and end *)

Definition start_event (j : JobRecord) (att : string) (v : bview) : option InboundEventRecord :=
  let by_attempt := event_of_attempt (jr_agent_name j) att v in
  if String.eqb (lower (strip (me_message_type (jr_request j)))) "reply_delivery"
     || py_truthy (dget (jr_provider_options j) "reply_delivery")
  then
    let event_id := strip (py_str_or_empty (dget (jr_provider_options j) "reply_delivery_inbound_event_id")) in
    if truthy event_id then
      match q_latest event_id (v_mail v (jr_agent_name j)) with Some e => Some e | None => by_attempt end
    else by_attempt
  else by_attempt.

Definition claimed_view (agent ts : string) (expires : option string) (e : option InboundEventRecord)
    (v : bview) : bview :=
  match e with
  | Some e =>
      if is_terminal (ie_status e) || bool_decide (ie_status e = IE_DELIVERING) then v
      else set_mail agent (spec_claim agent (eid e) ts expires (v_mail v agent)).2 v
  | None => v
  end.

Definition started_attempt (a : AttemptRecord) (ts : string) : AttemptRecord :=
  at_replace a (if truthy (at_started_at a) then at_started_at a else ts) ts AT_RUNNING.

Definition started_view (j : JobRecord) (ts : string) (expires : option string) (v : bview) : bview :=
  match find_last (has_job (jr_job_id j)) (v_attempts v) with
  | None => v
  | Some a =>
      let v1 := add_attempt (started_attempt a ts) v in
      message_view (at_message_id a) MS_RUNNING ts
        (claimed_view (jr_agent_name j) ts expires (start_event j (at_attempt_id a) v1) v1)
  end.

Definition ended_view (agent ts : string) (cancelled : bool) (e : option InboundEventRecord) (v : bview)
    : bview :=
  match e with
  | Some e =>
      if is_terminal (ie_status e) then v
      else
        let st := if is_claimable (ie_status e) && cancelled then IE_ABANDONED else IE_CONSUMED in
        set_mail agent (spec_end (eid e) st ts (v_mail v agent)).2 v
  | None => v
  end.

Definition ended_attempt (j : JobRecord) (a : AttemptRecord) (ts : string) : AttemptRecord :=
  at_replace a (at_started_at a) ts (attempt_state_for_status (jr_status j)).

Definition terminal_view (j : JobRecord) (ts : string) (v : bview) : bview :=
  match find_last (has_job (jr_job_id j)) (v_attempts v) with
  | None => v
  | Some a =>
      refreshed_view (at_message_id a) ts
        (ended_view (jr_agent_name j) ts (bool_decide (jr_status j = JS_CANCELLED))
           (event_of_attempt (jr_agent_name j) (at_attempt_id a) v) (add_attempt (ended_attempt j a ts) v))
  end.

Lemma claimed_view_ok agent ts ex e v : view_ok cfg v → view_ok cfg (claimed_view agent ts ex e v).
Proof.
  intros Hv. unfold claimed_view. destruct e as [e|]; [|done]. case_match; [done|].
  apply view_set_mail; [apply no_new_claim|done].
Qed.

Lemma ended_view_ok agent ts c e v : view_ok cfg v → view_ok cfg (ended_view agent ts c e v).
Proof.
  intros Hv. unfold ended_view. destruct e as [e|]; [|done]. case_match; [done|].
  apply view_set_mail; [apply no_new_end|done].
Qed.

Lemma replaced_attempt_ok v j a st up x :
  view_ok cfg v → find_last (has_job j) (v_attempts v) = Some a → attempt_ok (at_replace a st up x).
Proof.
  intros Hv Ha. assert (attempt_ok a) as [H1 H2] by (by eapply find_last_Forall; [apply Hv|]).
  split; [by apply at_replace_valid|done].
Qed.

Lemma wp_resolve_inbound j att s v (Q : option InboundEventRecord → bstate → Prop) E :
  sees s v → job_ok j → Q (start_event j att v) s → wp (resolve_inbound_for_attempt_start j att) Q E s.
Proof.
  intros Hs Hj HQ. pose proof (jo_owner j Hj) as Ho. unfold resolve_inbound_for_attempt_start, start_event in *.
  destruct (_ || _); [|by eapply wp_event_of_attempt].
  destruct (truthy (strip _)); [|by eapply wp_event_of_attempt].
  apply wp_bind. eapply (wp_inbox_get (jr_agent_name j)
    (find_last (has_event_id (strip (py_str_or_empty (dget (jr_provider_options j) "reply_delivery_inbound_event_id")))))); [done|done|].
  fold (q_latest (strip (py_str_or_empty (dget (jr_provider_options j) "reply_delivery_inbound_event_id")))
    (v_mail v (jr_agent_name j))).
  destruct (q_latest _ _); [by apply wp_ret|by eapply wp_event_of_attempt].
Qed.

Lemma used_ts_given kc ts s : blank ts = false → used_ts kc (Some ts) s = ts.
Proof. intros H. unfold used_ts. simpl. by rewrite (blank_truthy ts H). Qed.

Lemma wp_mark_started j ts ex s v (Q : unit → bstate → Prop) :
  sees s v → view_ok cfg v → job_ok j → blank ts = false →
  lease_expires_at_value (bc_kernel cfg) ts = Ok ex →
  (∀ s', sees s' (started_view j ts ex v) → view_ok cfg (started_view j ts ex v) → Q tt s') →
  wp (mark_attempt_started cfg j ts) Q no_error s.
Proof.
  intros Hs Hv Hj Hts Hex HQ. pose proof (jo_owner j Hj) as Ho. unfold mark_attempt_started.
  apply wp_bind, wp_get. rewrite (se_attempts _ _ Hs). unfold started_view in HQ.
  destruct (find_last _ (v_attempts v)) as [a|] eqn:Ea; [|by apply wp_ret, HQ].
  fold (started_attempt a ts). set (v1 := add_attempt (started_attempt a ts) v) in *.
  pose proof (replaced_attempt_ok v _ a (if truthy (at_started_at a) then at_started_at a else ts) ts
    AT_RUNNING Hv Ea) as Ha1. fold (started_attempt a ts) in Ha1.
  pose proof (view_attempt_ok _ _ Ha1 Hv) as Hv1. fold v1 in Hv1.
  eapply wp_bind, wp_append_attempt; [done|apply Ha1|]. intros s1 Hs1. fold v1 in Hs1.
  eapply wp_bind, wp_resolve_inbound; [done|done|].
  set (e := start_event j (at_attempt_id a) v1) in *.
  set (v2 := claimed_view (jr_agent_name j) ts ex e v1) in *.
  assert (view_ok cfg v2) as Hv2 by by apply claimed_view_ok.
  apply wp_bind. eapply (wp_mono _ (λ _ s2, sees s2 v2) _ no_error); [| |done].
  - unfold v2, claimed_view. destruct e as [e|]; [|by apply wp_ret].
    destruct (is_terminal (ie_status e)); [by apply wp_ret|]. cbn [orb].
    case_bool_decide; [by apply wp_ret|]. apply wp_bind.
    eapply (wp_call (jr_agent_name j) _ (spec_claim (jr_agent_name j) (eid e) ts ex)); [done|done| | |].
    + rewrite <-(used_ts_given (bc_kernel cfg) ts (bs_kernel s1) Hts) at 2.
      apply claim_refines; [done|by apply (se_kernel _ _ Hs1)|by rewrite used_ts_given|by rewrite used_ts_given].
    + apply rtc_once, step_claim.
    + intros s2 Hs2. by apply wp_ret.
  - intros b s2 Hs2. eapply wp_bind, wp_set_message_state; [done..|]. intros s3 Hs3.
    destruct b; [apply wp_ret, HQ; [done|by apply message_view_ok]|].
    eapply wp_rebuild_summary; [done..|]. intros s4 Hs4. apply HQ; [done|by apply message_view_ok].
Qed.

Lemma claimable_cases e :
  bool_decide (ie_status e = IE_CREATED) || bool_decide (ie_status e = IE_QUEUED) = is_claimable (ie_status e).
Proof. by destruct (ie_status e). Qed.

Lemma wp_record_attempt_terminal j ts s v (Q : unit → bstate → Prop) :
  sees s v → view_ok cfg v → job_ok j → blank ts = false →
  (∀ s', sees s' (terminal_view j ts v) → view_ok cfg (terminal_view j ts v) → Q tt s') →
  wp (record_attempt_terminal cfg j ts) Q no_error s.
Proof.
  intros Hs Hv Hj Hts HQ. pose proof (jo_owner j Hj) as Ho. unfold record_attempt_terminal.
  apply wp_bind, wp_get. rewrite (se_attempts _ _ Hs). unfold terminal_view in HQ.
  destruct (find_last _ (v_attempts v)) as [a|] eqn:Ea; [|by apply wp_ret, HQ].
  fold (ended_attempt j a ts). set (v1 := add_attempt (ended_attempt j a ts) v) in *.
  pose proof (replaced_attempt_ok v _ a (at_started_at a) ts (attempt_state_for_status (jr_status j)) Hv Ea) as Ha1.
  fold (ended_attempt j a ts) in Ha1.
  pose proof (view_attempt_ok _ _ Ha1 Hv) as Hv1. fold v1 in Hv1.
  eapply wp_bind, wp_append_attempt; [done|apply Ha1|]. intros s1 Hs1. fold v1 in Hs1.
  eapply wp_bind, wp_event_of_attempt; [done|done|].
  change (event_of_attempt (jr_agent_name j) (at_attempt_id a) v1)
    with (event_of_attempt (jr_agent_name j) (at_attempt_id a) v).
  set (e := event_of_attempt (jr_agent_name j) (at_attempt_id a) v) in *.
  set (v2 := ended_view _ _ _ e v1) in *. assert (view_ok cfg v2) as Hv2 by by apply ended_view_ok.
  apply wp_bind. eapply (wp_mono _ (λ _ s2, sees s2 v2) _ no_error); [| |done].
  - unfold v2, ended_view. destruct e as [e|]; [|by eapply wp_rebuild_summary].
    destruct (is_terminal (ie_status e)); [by eapply wp_rebuild_summary|]. apply wp_bind.
    rewrite claimable_cases.
    set (st := if is_claimable (ie_status e) && bool_decide (jr_status j = JS_CANCELLED) then IE_ABANDONED else IE_CONSUMED).
    assert (is_terminal st = true) as Hst by (unfold st; by destruct (_ && _)).
    assert ((if is_claimable (ie_status e) && bool_decide (jr_status j = JS_CANCELLED)
      then abandon (bc_kernel cfg) (jr_agent_name j) (eid e) (Some ts)
      else consume (bc_kernel cfg) (jr_agent_name j) (eid e) (Some ts)) =
      mark_terminal (bc_kernel cfg) (jr_agent_name j) (eid e) st (Some ts)) as ->
      by (unfold st; by destruct (_ && _)).
    eapply (wp_call (jr_agent_name j) _ (spec_end (eid e) st ts)); [done|done| | |].
    + rewrite <-(used_ts_given (bc_kernel cfg) ts (bs_kernel s1) Hts) at 2.
      apply mark_terminal_refines; [done|by apply (se_kernel _ _ Hs1)|by rewrite used_ts_given|done].
    + apply rtc_once. by constructor.
    + intros s2 Hs2. by apply wp_ret.
  - intros _ s2 Hs2. eapply wp_refresh_message_state; [done..|]. intros s3 Hs3.
    apply HQ; [done|by apply refreshed_view_ok].
Qed.


(** ** Replies and notices *)

Definition reply_ref (rid : string) : string := String.append REPLY_PREFIX rid.

Lemma compose_plain rid : plain rid = true → compose_reply_payload rid None = Ok (reply_ref rid).
Proof.
  intros H. unfold compose_reply_payload. rewrite (strip_no_space rid) by by apply plain_no_space.
  by rewrite (plain_truthy _ H).
Qed.

Definition delivery_view (mailbox mid att rid ts : string) (v : bview) : bview :=
  deliver (reply_event (id_at cfg "iev" (v_ids v)) mailbox mid att (reply_ref rid) ts) (draw v).

Definition notice_event (event_id mailbox mid att rid ts : string) : InboundEventRecord :=
  MkInboundEventRecord event_id mailbox COMPLETION_NOTICE mid (Some att) (Some (reply_ref rid)) 10
    IE_CONSUMED ts (Some ts) (Some ts).

Definition consumed_notice_view (mailbox mid att rid ts : string) (v : bview) : bview :=
  deliver (notice_event (id_at cfg "iev" (v_ids v)) mailbox mid att rid ts) (draw v).

Definition made_reply (j : JobRecord) (d : CompletionDecision) (a : AttemptRecord) (rid ts : string)
    : ReplyRecord :=
  MkReply rid (at_message_id a) (at_attempt_id a) (jr_agent_name j) (reply_status_for_job (jr_status j))
    (delivered_reply_text j d) (reply_artifact_from_decision d)
    (reply_diagnostics j d (empty_cancel_notice j d)) ts.

Definition reply_view (j : JobRecord) (d : CompletionDecision) (ts : string) (to_caller : bool) (v : bview)
    : option string * bview :=
  match find_last (has_job (jr_job_id j)) (v_attempts v) with
  | None => (None, v)
  | Some a =>
      let rid := id_at cfg "rep" (v_ids v) in
      let v1 := add_reply (made_reply j d a rid ts) (draw v) in
      (Some rid, refreshed_view (at_message_id a) ts
        match (if to_caller then mailbox_actor cfg (me_from_actor (jr_request j)) else None) with
        | None => v1
        | Some mailbox =>
            (if empty_cancel_notice j d then consumed_notice_view else delivery_view)
              mailbox (at_message_id a) (at_attempt_id a) rid ts v1
        end)
  end.

Definition spill_name (j : JobRecord) (rid : string) : string :=
  String.append (jr_job_id j) (String.append "-" rid).
Definition spill_title (j : JobRecord) : string :=
  String.concat "" ["CCB notice reply for job "; jr_job_id j;
                    " is larger than 4 KiB and was stored as an artifact."].

Definition made_notice (j : JobRecord) (a : AttemptRecord) (sp : string * option pydict)
    (diagnostics : option pydict) (rid ts : string) (st : ReplyTerminalStatus) : ReplyRecord :=
  MkReply rid (at_message_id a) (at_attempt_id a) (jr_agent_name j) st sp.1 sp.2
    (dsetdefault (dsetdefault (default [] diagnostics) "status" (VStr (JobStatus_value (jr_status j))))
       "notice" (VBool true)) ts.

Definition notice_view (j : JobRecord) (sp : string * option pydict) (diagnostics : option pydict)
    (ts : string) (st : ReplyTerminalStatus) (to : option string) (v : bview) : option string * bview :=
  match find_last (has_job (jr_job_id j)) (v_attempts v) with
  | None => (None, v)
  | Some a =>
      let rid := id_at cfg "rep" (v_ids v) in
      let v1 := add_reply (made_notice j a sp diagnostics rid ts st) (draw v) in
      (Some rid, refreshed_view (at_message_id a) ts
        match mailbox_actor cfg (default (me_from_actor (jr_request j)) to) with
        | None => v1
        | Some mailbox => delivery_view mailbox (at_message_id a) (at_attempt_id a) rid ts v1
        end)
  end.

Lemma mailbox_actor_owner x m : mailbox_actor cfg x = Some m → owner_name m = true.
Proof.
  unfold mailbox_actor, normalize_mailbox_target. destruct (truthy _); [|done]. cbn [negb].
  destruct (normalize_mailbox_owner_name _) as [n|] eqn:En; [|done]. case_match; [|done].
  intros [= <-]. by eapply normalize_owner_ok.
Qed.

Lemma reply_made_ok rid mid att agent st t art dg ts :
  truthy rid = true → truthy mid = true → truthy att = true → owner_name agent = true →
  normalize_reply_record (MkReply rid mid att agent st t art dg ts) = Ok (MkReply rid mid att agent st t art dg ts).
Proof.
  intros H1 H2 H3 Ho. unfold normalize_reply_record, require_value. simpl.
  rewrite H1, H2, H3, (owner_name_truthy _ Ho). simpl. by rewrite normalize_agent_name_normal by auto with ccb.
Qed.

Lemma delivery_ok mb mid att rid ts v :
  view_ok cfg v →
  absent (reply_event (id_at cfg "iev" (v_ids v)) mb mid att (reply_ref rid) ts) (draw v) ∧
  view_ok cfg (delivery_view mb mid att rid ts v).
Proof. intros Hv. by apply new_event. Qed.

Lemma notice_ok mb mid att rid ts v :
  view_ok cfg v →
  absent (notice_event (id_at cfg "iev" (v_ids v)) mb mid att rid ts) (draw v) ∧
  view_ok cfg (consumed_notice_view mb mid att rid ts v).
Proof. intros Hv. by apply new_event. Qed.

Lemma wp_queue_delivery mb mid att rid ts s v (Q : unit → bstate → Prop) :
  sees s v → view_ok cfg v → owner_name mb = true → truthy mid = true → plain rid = true →
  blank ts = false → (∀ s', sees s' (delivery_view mb mid att rid ts v) → Q tt s') →
  wp (queue_reply_delivery cfg mb mid att rid ts) Q no_error s.
Proof.
  intros Hs Hv Hmb Hmid Hrid Hts HQ. unfold queue_reply_delivery.
  eapply wp_bind, wp_new_id; [done|]. intros s1 Hs1. apply wp_bind, wp_lift. rewrite compose_plain by done.
  set (r := reply_event (id_at cfg "iev" (v_ids v)) mb mid att (reply_ref rid) ts).
  destruct (delivery_ok mb mid att rid ts v Hv) as [Hab _]. fold r in Hab.
  apply wp_bind. change mb with (ie_agent_name r).
  eapply (wp_arrive cfg r 1 ts s1 (draw v)); try done.
Qed.

Lemma wp_consumed_notice mb mid att rid ts s v (Q : unit → bstate → Prop) :
  sees s v → view_ok cfg v → owner_name mb = true → truthy mid = true → plain rid = true →
  (∀ s', sees s' (consumed_notice_view mb mid att rid ts v) → Q tt s') →
  wp (record_consumed_completion_notice cfg mb mid att rid ts) Q no_error s.
Proof.
  intros Hs Hv Hmb Hmid Hrid HQ. unfold record_consumed_completion_notice.
  eapply wp_bind, wp_new_id; [done|]. intros s1 Hs1. apply wp_bind, wp_lift. rewrite compose_plain by done.
  fold (notice_event (id_at cfg "iev" (v_ids v)) mb mid att rid ts).
  destruct (notice_ok mb mid att rid ts v Hv) as [Hab _]. by eapply wp_arrive_ended.
Qed.

Lemma attempt_facts v j a :
  view_ok cfg v → find_last (has_job j) (v_attempts v) = Some a →
  truthy (at_message_id a) = true ∧ truthy (at_attempt_id a) = true.
Proof.
  intros Hv Ha. assert (attempt_ok a) as [Hok _] by (by eapply find_last_Forall; [apply Hv|]).
  apply valid_attempt_iff in Hok. tauto.
Qed.

Lemma wp_record_reply j d ts to_caller s v (Q : option string → bstate → Prop) :
  sees s v → view_ok cfg v → job_ok j → blank ts = false →
  (∀ s', sees s' (reply_view j d ts to_caller v).2 → view_ok cfg (reply_view j d ts to_caller v).2 →
     Q (reply_view j d ts to_caller v).1 s') →
  wp (record_reply cfg j d ts to_caller) Q no_error s.
Proof.
  intros Hs Hv Hj Hts HQ. pose proof (jo_owner j Hj) as Ho. unfold record_reply.
  apply wp_bind, wp_get. rewrite (se_attempts _ _ Hs). unfold reply_view in HQ.
  destruct (find_last _ (v_attempts v)) as [a|] eqn:Ea; [|by apply wp_ret, HQ]. cbn [fst snd] in HQ.
  destruct (attempt_facts v _ a Hv Ea) as [Hmid Hatt].
  eapply wp_bind, wp_new_id; [done|]. intros s1 Hs1. set (rid := id_at cfg "rep" (v_ids v)) in *.
  assert (plain rid = true) as Hrid by by apply id_at_plain.
  fold (made_reply j d a rid ts). set (v1 := add_reply (made_reply j d a rid ts) (draw v)) in *.
  assert (view_ok cfg v1) as Hv1 by by apply view_reply_ok, view_draw.
  eapply wp_bind, wp_append_reply; [done|apply reply_made_ok; try done|]. intros s2 Hs2. fold v1 in Hs2.
  match type of HQ with ∀ s', sees s' (refreshed_view _ _ ?x) → _ => set (v2 := x) in * end.
  apply wp_bind. eapply (wp_mono _ (λ _ s3, sees s3 v2 ∧ view_ok cfg v2) _ no_error); [| |done].
  - unfold v2. destruct (if to_caller then _ else None) as [mb|] eqn:Emb; [|by apply wp_ret].
    assert (owner_name mb = true) as Hmb by (destruct to_caller; [by eapply mailbox_actor_owner|done]).
    destruct (empty_cancel_notice j d).
    + eapply wp_consumed_notice; [done..|]. intros s3 Hs3. split; [done|]. by apply notice_ok.
    + eapply wp_queue_delivery; [done..|]. intros s3 Hs3. split; [done|]. by apply delivery_ok.
  - intros _ s3 [Hs3 Hv3]. eapply wp_bind, wp_refresh_message_state; [done..|]. intros s4 Hs4.
    apply wp_ret, HQ; [done|by apply refreshed_view_ok].
Qed.

Lemma wp_record_notice j reply sp dg ts st to s v (Q : option string → bstate → Prop) :
  sees s v → view_ok cfg v → job_ok j → blank ts = false →
  bc_spill cfg reply "notice-reply" (spill_name j (id_at cfg "rep" (v_ids v))) (spill_title j) ts = Ok sp →
  (∀ s', sees s' (notice_view j sp dg ts st to v).2 → view_ok cfg (notice_view j sp dg ts st to v).2 →
     Q (notice_view j sp dg ts st to v).1 s') →
  wp (record_notice cfg j reply dg ts st to) Q no_error s.
Proof.
  intros Hs Hv Hj Hts Hsp HQ. pose proof (jo_owner j Hj) as Ho. unfold record_notice.
  apply wp_bind, wp_get. rewrite (se_attempts _ _ Hs). unfold notice_view in HQ.
  destruct (find_last _ (v_attempts v)) as [a|] eqn:Ea; [|by apply wp_ret, HQ]. cbn [fst snd] in HQ.
  destruct (attempt_facts v _ a Hv Ea) as [Hmid Hatt].
  eapply wp_bind, wp_new_id; [done|]. intros s1 Hs1. set (rid := id_at cfg "rep" (v_ids v)) in *.
  assert (plain rid = true) as Hrid by by apply id_at_plain.
  apply wp_bind, wp_lift. fold (spill_name j rid) (spill_title j). rewrite Hsp.
  fold (made_notice j a sp dg rid ts st). set (v1 := add_reply (made_notice j a sp dg rid ts st) (draw v)) in *.
  assert (view_ok cfg v1) as Hv1 by by apply view_reply_ok, view_draw.
  eapply wp_bind, wp_append_reply; [done|apply reply_made_ok; try done|]. intros s2 Hs2. fold v1 in Hs2.
  match type of HQ with ∀ s', sees s' (refreshed_view _ _ ?x) → _ => set (v2 := x) in * end.
  apply wp_bind. eapply (wp_mono _ (λ _ s3, sees s3 v2 ∧ view_ok cfg v2) _ no_error); [| |done].
  - unfold v2. destruct (mailbox_actor _ _) as [mb|] eqn:Emb; [|by apply wp_ret].
    apply mailbox_actor_owner in Emb.
    eapply wp_queue_delivery; [done..|]. intros s3 Hs3. split; [done|]. by apply delivery_ok.
  - intros _ s3 [Hs3 Hv3]. eapply wp_bind, wp_refresh_message_state; [done..|]. intros s4 Hs4.
    apply wp_ret, HQ; [done|by apply refreshed_view_ok].
Qed.

Definition finished_view (j : JobRecord) (d : CompletionDecision) (ts : string) (to_caller reply : bool)
    (v : bview) : option string * bview :=
  if reply then reply_view j d ts to_caller (terminal_view j ts v) else (None, terminal_view j ts v).

Lemma wp_record_terminal j d ts to_caller reply s v (Q : option string → bstate → Prop) :
  sees s v → view_ok cfg v → job_ok j → blank ts = false →
  (∀ s', sees s' (finished_view j d ts to_caller reply v).2 →
     view_ok cfg (finished_view j d ts to_caller reply v).2 →
     Q (finished_view j d ts to_caller reply v).1 s') →
  wp (record_terminal cfg j d ts to_caller reply) Q no_error s.
Proof.
  intros Hs Hv Hj Hts HQ. unfold record_terminal. eapply wp_bind, wp_record_attempt_terminal; [done..|].
  intros s1 Hs1 Hv1. unfold finished_view in HQ. destruct reply; cbn [negb]; [|by apply wp_ret, HQ].
  by eapply wp_record_reply.
Qed.
End views.
