(* ===== verification/BureauReach.v ===== *)
(** Runs of the bureau: any sequence of facade operations and mailbox calls, from empty
    stores.  Along every run the views stay valid, and every attempt has an event in its
    agent's mailbox. *)

From Stdlib Require Import Ascii String ZArith Lia.
From stdpp Require Import base gmap list strings relations.
From S2P Require Import Prelude PyData Names Timestamps Storage MailboxModels MailboxKernel MailboxInvariant MailboxOps MailboxSpec MailboxDiscipline MailboxReach CompletionModels Jobs Api JobStore BureauModels BureauState Bureau BureauView BureauSpec.

Local Open Scope Z_scope.

Definition binit : bstate := BState kinit [] [] [] no_edges 0.

(** One call from outside: of the facade, or of the mailbox service it shares. *)
Inductive facade_op :=
  | Submit (request : MessageEnvelope) (jobs : list JobRecord) (submission_id : option string)
      (ts : string) (origin : option string)
  | Retry (message_id : string) (job : JobRecord) (ts : string)
  | Start (job : JobRecord) (ts : string)
  | Terminal (job : JobRecord) (decision : CompletionDecision) (ts : string) (to_caller reply : bool)
  | Notice (job : JobRecord) (reply : string) (diagnostics : option pydict) (ts : string)
      (status : ReplyTerminalStatus) (to : option string)
  | Callback (edge : CallbackEdgeRecord)
  | Claim (agent event_id ts : string)
  | ClaimNext (agent : string) (event_type : option InboundEventType) (ts : string)
  | Ack (agent event_id ts : string)
  | EndEvent (agent event_id : string) (status : InboundEventStatus) (ts : string)
  | Requeue (agent event_id : string) (payload : option string) (status : InboundEventStatus)
      (clear : bool) (ts : string)
  | Expire (agent ts : string).

Section runs.
Context (cfg : bconfig).

Definition ignore {A} (m : BM A) : BM unit := do* m in mret' tt.

Definition exec (op : facade_op) : BM unit :=
  let kc := bc_kernel cfg in
  match op with
  | Submit r jobs sid ts o => ignore (record_submission cfg r jobs sid ts o)
  | Retry mid j ts => ignore (record_retry_attempt cfg mid j ts)
  | Start j ts => mark_attempt_started cfg j ts
  | Terminal j d ts c r => ignore (record_terminal cfg j d ts c r)
  | Notice j reply dg ts st to => ignore (record_notice cfg j reply dg ts st to)
  | Callback e => record_callback_edge e
  | Claim a id ts => ignore (on_kernel (claim kc a id (Some ts)))
  | ClaimNext a ty ts => ignore (on_kernel (claim_next kc a ty (Some ts)))
  | Ack a id ts => ignore (on_kernel (ack_reply kc a id (Some ts) (Some ts)))
  | EndEvent a id st ts => ignore (on_kernel (mark_terminal kc a id st (Some ts)))
  | Requeue a id p st c ts => ignore (on_kernel (rewrite_head kc a id p st (Some ts) c))
  | Expire a ts => ignore (on_kernel (expire_lease kc a (Some ts)))
  end.

(** A time that is a text, from which a lease's end can be computed. *)
Definition time_given (ts : string) : Prop :=
  blank ts = false ∧ is_ok (lease_expires_at_value (bc_kernel cfg) ts) = true.

(** Arguments a caller may give. *)
Definition op_ok (op : facade_op) : Prop :=
  match op with
  | Submit r jobs _ ts _ => request_ok r ∧ Forall job_ok jobs ∧ time_given ts
  | Retry _ j ts | Start j ts | Terminal j _ ts _ _ | Notice j _ _ ts _ _ => job_ok j ∧ time_given ts
  | Callback _ => True
  | Claim a _ ts | ClaimNext a _ ts | Ack a _ ts | Expire a ts => owner_name a = true ∧ time_given ts
  | EndEvent a _ st ts => owner_name a = true ∧ is_terminal st = true ∧ time_given ts
  | Requeue a _ _ st _ ts => owner_name a = true ∧ is_claimable st = true ∧ time_given ts
  end.

Definition run_ops (ops : list facade_op) (s : bstate) : bstate :=
  foldl (λ s op, (exec op s).1) s ops.

(** ** What every run keeps *)

Definition has_event (v : bview) (a : AttemptRecord) : Prop :=
  ∃ e, event_of_attempt (at_agent_name a) (at_attempt_id a) v = Some e.

Definition backed (v : bview) : Prop := ∀ a, a ∈ v_attempts v → has_event v a.

Record bureau_inv (s : bstate) (v : bview) : Prop := {
  bu_sees : sees s v;
  bu_ok : view_ok cfg v;
  bu_backed : backed v;
}.

(** Mailboxes only grow, and attempts that appear have an event. *)
Record extends (v v' : bview) : Prop := {
  ex_log : ∀ a, q_log (v_mail v a) `prefix_of` q_log (v_mail v' a);
  ex_attempts : ∀ x, x ∈ v_attempts v' →
    has_event v' x ∨ ∃ y, y ∈ v_attempts v ∧ at_agent_name x = at_agent_name y ∧ at_attempt_id x = at_attempt_id y;
}.

Lemma find_last_grows {A} (p : A → bool) l l' x :
  l `prefix_of` l' → find_last p l = Some x → ∃ y, find_last p l' = Some y.
Proof.
  intros [k ->] H. induction k as [|z k IH] using rev_ind; [rewrite app_nil_r; eauto|].
  rewrite app_assoc, find_last_snoc. case_match; eauto.
Qed.

Lemma extends_backed v v' : extends v v' → backed v → backed v'.
Proof.
  intros [Hl Ha] Hb x Hx. destruct (Ha x Hx) as [|(y & Hy & E1 & E2)]; [done|].
  destruct (Hb y Hy) as [e He]. unfold has_event, event_of_attempt in *. rewrite E1, E2.
  eapply find_last_grows; [apply Hl|exact He].
Qed.

Lemma extends_refl v : extends v v.
Proof. split; [done|]. right. by exists x. Qed.

Lemma has_event_grows v v' x :
  (∀ a, q_log (v_mail v a) `prefix_of` q_log (v_mail v' a)) → has_event v x → has_event v' x.
Proof. intros Hl [e He]. unfold has_event, event_of_attempt in *. eapply find_last_grows; [apply Hl|exact He]. Qed.

Lemma extends_trans v1 v2 v3 : extends v1 v2 → extends v2 v3 → extends v1 v3.
Proof.
  intros [L1 A1] [L2 A2]. split; [intros a; etrans; [apply L1|apply L2]|]. intros x Hx.
  destruct (A2 x Hx) as [|(y & Hy & E1 & E2)]; [by left|].
  destruct (A1 y Hy) as [Hy'|(z & Hz & E3 & E4)].
  - left. apply (has_event_grows _ _ _ L2) in Hy' as [e He]. exists e. by rewrite E1, E2.
  - right. exists z. split; [done|]. split; congruence.
Qed.

(** *** Each change extends *)

Lemma extends_draw v : extends v (draw v).
Proof. split; [done|]. right. by exists x. Qed.
Lemma extends_message m v : extends v (add_message m v).
Proof. split; [done|]. right. by exists x. Qed.
Lemma extends_reply r v : extends v (add_reply r v).
Proof. split; [done|]. right. by exists x. Qed.

Lemma extends_mail a q v : q_log (v_mail v a) `prefix_of` q_log q → extends v (set_mail a q v).
Proof.
  intros Hq. split; [|right; by exists x]. intros x. simpl. case_decide; [by subst|done].
Qed.

Lemma extends_deliver r v : extends v (deliver r v).
Proof. apply extends_mail. by apply prefix_app_r. Qed.

Lemma extends_replace a st up x v : a ∈ v_attempts v → extends v (add_attempt (at_replace a st up x) v).
Proof.
  intros Ha. split; [done|]. simpl. intros y [Hy| ->%list_elem_of_singleton]%elem_of_app; right; eauto.
Qed.

Lemma extends_admit mid ts idx j v : extends v (admit_view cfg mid ts idx j v).
Proof.
  unfold admit_view. split.
  - intros a. exact (ex_log _ _ (extends_deliver _ (draw (add_attempt _ (draw v)))) a).
  - simpl. intros x [Hx| ->%list_elem_of_singleton]%elem_of_app; [right; eauto|left].
    eexists. unfold event_of_attempt. simpl. rewrite decide_True by done. unfold spec_enqueue. cbn [q_log].
    rewrite find_last_snoc.
    assert (has_attempt_id (id_at cfg "att" (v_ids v)) (admitted_request cfg (v_ids v) mid ts j) = true) as ->
      by exact (String.eqb_refl (id_at cfg "att" (v_ids v))). done.
Qed.

Lemma extends_admit_all mid ts jobs v : extends v (admit_all cfg mid ts jobs v).
Proof.
  revert v. induction jobs as [|j jobs IH]; intros v; [apply extends_refl|].
  eapply extends_trans; [apply extends_admit|apply IH].
Qed.

Lemma extends_message_view mid st ts v : extends v (message_view mid st ts v).
Proof.
  unfold message_view. destruct (latest_message mid v); [|apply extends_refl].
  case_decide; [apply extends_refl|apply extends_message].
Qed.

Lemma extends_refreshed mid ts v : extends v (refreshed_view mid ts v).
Proof. unfold refreshed_view. case_match; [apply extends_refl|apply extends_message_view]. Qed.

Lemma extends_submit r jobs sid ts o v : extends v (submit_view cfg r jobs sid ts o v).
Proof.
  eapply extends_trans; [apply extends_draw|]. eapply extends_trans; [apply extends_message|].
  apply extends_admit_all.
Qed.

Lemma extends_retry mid ts j v : extends v (retry_view cfg mid ts j v).2.
Proof.
  unfold retry_view, replay_view. destruct (find_last _ _) as [a|]; simpl.
  - case_decide; [|apply extends_refl]. eapply extends_trans; [|apply extends_message_view].
    destruct (event_of_attempt _ _ _); [apply extends_refl|].
    eapply extends_trans; [apply extends_draw|apply extends_deliver].
  - eapply extends_trans; [apply extends_admit|apply extends_message_view].
Qed.

Lemma extends_started j ts ex v : extends v (started_view j ts ex v).
Proof.
  unfold started_view. destruct (find_last _ _) as [a|] eqn:Ea; [|apply extends_refl].
  apply find_last_Some in Ea as [Hin _].
  eapply extends_trans; [by apply extends_replace|]. eapply extends_trans; [|apply extends_message_view].
  unfold claimed_view. destruct (start_event _ _ _) as [e|]; [|apply extends_refl].
  destruct (_ || _); [apply extends_refl|]. apply extends_mail. by eapply step_log, step_claim.
Qed.

Lemma extends_terminal j ts v : extends v (terminal_view j ts v).
Proof.
  unfold terminal_view. destruct (find_last _ _) as [a|] eqn:Ea; [|apply extends_refl].
  apply find_last_Some in Ea as [Hin _].
  eapply extends_trans; [by apply extends_replace|]. eapply extends_trans; [|apply extends_refreshed].
  unfold ended_view. destruct (event_of_attempt _ _ _) as [e|]; [|apply extends_refl].
  destruct (is_terminal _); [apply extends_refl|]. apply extends_mail. eapply (step_log (jr_agent_name j)), step_end.
  by destruct (_ && _).
Qed.

Lemma extends_arrival (r : nat → InboundEventRecord) v : extends v (deliver (r (v_ids v)) (draw v)).
Proof. eapply extends_trans; [apply extends_draw|apply extends_deliver]. Qed.

Lemma extends_reply_view j d ts c v : extends v (reply_view cfg j d ts c v).2.
Proof.
  unfold reply_view. destruct (find_last _ _) as [a|]; [|apply extends_refl]. cbn [snd].
  eapply extends_trans; [|apply extends_refreshed].
  eapply extends_trans; [apply extends_draw|]. eapply extends_trans; [apply extends_reply|].
  destruct (if c then _ else None) as [mb|]; [|apply extends_refl].
  destruct (empty_cancel_notice j d); (eapply extends_trans; [apply extends_draw|apply extends_deliver]).
Qed.

Lemma extends_notice_view j sp dg ts st to v : extends v (notice_view cfg j sp dg ts st to v).2.
Proof.
  unfold notice_view. destruct (find_last _ _) as [a|]; [|apply extends_refl]. cbn [snd].
  eapply extends_trans; [|apply extends_refreshed].
  eapply extends_trans; [apply extends_draw|]. eapply extends_trans; [apply extends_reply|].
  destruct (mailbox_actor _ _) as [mb|]; [|apply extends_refl].
  eapply extends_trans; [apply extends_draw|apply extends_deliver].
Qed.

Lemma extends_finished j d ts c r v : extends v (finished_view cfg j d ts c r v).2.
Proof.
  unfold finished_view. destruct r; [|apply extends_terminal].
  eapply extends_trans; [apply extends_terminal|apply extends_reply_view].
Qed.

(** ** Every call keeps the invariant *)

Context (Hids : ids_ok cfg).

(** Calls that may end in an exception: a retry the facade refuses, a notice whose text
    cannot be stored. *)
Definition may_refuse (op : facade_op) : bool :=
  match op with Retry _ _ _ | Notice _ _ _ _ _ _ => true | _ => false end.

Definition keeps (v : bview) (s' : bstate) : Prop := ∃ v', bureau_inv s' v' ∧ extends v v'.

Lemma keeps_view s' v v' : backed v → sees s' v' → view_ok cfg v' → extends v v' → keeps v s'.
Proof. intros Hb Hs Hv He. exists v'. split; [|done]. split; [done|done|]. by eapply extends_backed. Qed.

Lemma wp_ignore {A} (m : BM A) Q E s : wp m (λ _ s', Q tt s') E s → wp (ignore m) Q E s.
Proof. intros H. apply wp_bind. eapply wp_mono; [exact H| |done]. by intros x s' ?; apply wp_ret. Qed.

Lemma wp_service {A} a (m : KM A) f s v (Q : unit → bstate → Prop) E :
  bureau_inv s v → owner_name a = true → refines a m f (bs_kernel s) →
  rtc (step a) (v_mail v a) (f (v_mail v a)).2 → no_new (v_mail v a) (f (v_mail v a)).2 →
  (∀ s', keeps v s' → Q tt s') → wp (ignore (on_kernel m)) Q E s.
Proof.
  intros [Hs Hv Hb] Ha Href Hst Hn HQ. eapply wp_ignore, wp_call; [done|done|done|done|].
  intros s' Hs'. apply HQ. eapply keeps_view; [done|done|by apply view_set_mail|].
  apply extends_mail. by eapply steps_log.
Qed.

Lemma time_given_ok ts : time_given ts →
  blank ts = false ∧ ∃ ex, lease_expires_at_value (bc_kernel cfg) ts = Ok ex.
Proof. intros [H1 H2]. split; [done|]. by apply is_ok_some. Qed.

Lemma exec_service op s v :
  bureau_inv s v → op_ok op →
  match op with Claim _ _ _ | ClaimNext _ _ _ | Ack _ _ _ | EndEvent _ _ _ _ | Requeue _ _ _ _ _ _ | Expire _ _ => True | _ => False end →
  wp (exec op) (λ _ s', keeps v s') no_error s.
Proof.
  intros Hi Hok Hop. pose proof (bu_sees _ _ Hi) as Hs. pose proof (se_kernel _ _ Hs) as Hk.
  pose proof (λ ts H, used_ts_given (bc_kernel cfg) ts (bs_kernel s) H) as Hu.
  destruct op as [| | | | | |a id ts|a ty ts|a id ts|a id st ts|a id p st c ts|a ts]; try done; cbn [op_ok exec] in *.
  - destruct Hok as (Ha & [Ht [ex He]]%time_given_ok).
    eapply (wp_service a _ (spec_claim a id ts ex)); [done|done| | |apply no_new_claim|done].
    + rewrite <-(Hu ts Ht) at 2. apply claim_refines; rewrite ?Hu by done; [done|by apply Hk|done|done].
    + apply rtc_once, step_claim.
  - destruct Hok as (Ha & [Ht [ex He]]%time_given_ok).
    eapply (wp_service a _ (spec_claim_next a ts ex ty)); [done|done| | |apply no_new_claim_next|done].
    + rewrite <-(Hu ts Ht) at 2. apply claim_next_refines; rewrite ?Hu by done; [done|by apply Hk|done|done].
    + apply spec_claim_next_steps.
  - destruct Hok as (Ha & [Ht [ex He]]%time_given_ok). pose proof (blank_truthy _ Ht) as Htt.
    assert (∀ d, str_or (Some ts) d = ts) as Hor by (intros; by apply truthy_or).
    eapply (wp_service a _ (spec_ack a id ts ts ex)); [done|done| | |apply no_new_ack|done].
    + pose proof (ack_reply_refines (bc_kernel cfg) a Ha id (Some ts) (Some ts) ex (bs_kernel s)) as H.
      cbv zeta in H. rewrite !Hor in H. apply H; [by apply Hk| |done|done|done].
      change (opt_truthy (Some ts)) with (truthy ts). by rewrite Htt, Hu.
    + apply spec_ack_steps.
  - destruct Hok as (Ha & Hst & [Ht _]).
    eapply (wp_service a _ (spec_end id st ts)); [done|done| | |apply no_new_end|done].
    + rewrite <-(Hu ts Ht) at 2. apply mark_terminal_refines; rewrite ?Hu by done; [done|by apply Hk|done|done].
    + apply rtc_once. by constructor.
  - destruct Hok as (Ha & Hst & [Ht _]).
    eapply (wp_service a _ (spec_rewrite id p st c)); [done|done| | |apply no_new_rewrite|done].
    + apply rewrite_head_refines; rewrite ?Hu by done; [done|by apply Hk|done|].
      by apply claimable_facts in Hst as [? _].
    + apply rtc_once. by constructor.
  - destruct Hok as (Ha & [Ht _]).
    eapply (wp_service a _ (spec_expire ts)); [done|done| | |apply no_new_expire|done].
    + rewrite <-(Hu ts Ht) at 2. apply expire_lease_refines; rewrite ?Hu by done; [done|by apply Hk|done].
    + apply rtc_once, step_expire.
Qed.

Lemma wp_retry_any mid j ts s v (Q : string → bstate → Prop) (E : exn → bstate → Prop) :
  sees s v → view_ok cfg v → job_ok j → blank ts = false →
  (∀ s', sees s' (retry_view cfg mid ts j v).2 → view_ok cfg (retry_view cfg mid ts j v).2 →
     Q (retry_view cfg mid ts j v).1 s') →
  (∀ e, E e s) → wp (record_retry_attempt cfg mid j ts) Q E s.
Proof.
  intros Hs Hv Hj Hts HQ HE. destruct (latest_message mid v) as [m|] eqn:Em.
  - assert (Hgo : (∀ a, find_last (has_job (jr_job_id j)) (v_attempts v) = Some a → at_message_id a = mid) →
      wp (record_retry_attempt cfg mid j ts) Q E s).
    { intros Hb. eapply wp_mono; [by eapply wp_record_retry|done|by intros ? ? []]. }
    destruct (find_last (has_job (jr_job_id j)) (v_attempts v)) as [a|] eqn:Ea; [|by apply Hgo].
    destruct (decide (at_message_id a = mid)); [apply Hgo; by intros ? [= <-]|].
    destruct (retry_refused cfg mid j ts s v a) as [msg Hm]; [done..|]. unfold wp. rewrite Hm. apply HE.
  - unfold record_retry_attempt. apply wp_bind, wp_get. rewrite (se_messages _ _ Hs).
    fold (latest_message mid v). rewrite Em. by apply wp_raise.
Qed.

Lemma wp_notice_any j reply dg ts st to s v (E : exn → bstate → Prop) :
  bureau_inv s v → job_ok j → blank ts = false → (∀ e s', keeps v s' → E e s') →
  wp (record_notice cfg j reply dg ts st to) (λ _ s', keeps v s') E s.
Proof.
  intros [Hs Hv Hb] Hj Hts HE.
  destruct (bc_spill cfg reply "notice-reply" (spill_name j (id_at cfg "rep" (v_ids v))) (spill_title j) ts)
    as [sp|e] eqn:Hsp.
  - eapply (wp_mono _ (λ _ s', keeps v s') _ no_error); [|done|by intros ? ? []].
    eapply wp_record_notice; [done..|]. intros s' Hs' Hv'. eapply keeps_view; [done..|]. apply extends_notice_view.
  - unfold record_notice. apply wp_bind, wp_get. rewrite (se_attempts _ _ Hs).
    destruct (find_last _ (v_attempts v)) as [a|]; [|apply wp_ret; by eapply keeps_view, extends_refl].
    eapply wp_bind, wp_new_id; [done|]. intros s1 Hs1. apply wp_bind, wp_lift.
    fold (spill_name j (id_at cfg "rep" (v_ids v))) (spill_title j). rewrite Hsp. apply HE.
    eapply keeps_view; [done|done|by apply view_draw|apply extends_draw].
Qed.

Lemma exec_keeps op s v :
  bureau_inv s v → op_ok op →
  wp (exec op) (λ _ s', keeps v s') (λ _ s', may_refuse op = true ∧ keeps v s') s.
Proof.
  intros Hi Hok. destruct Hi as [Hs Hv Hb] eqn:Ei. clear Ei.
  destruct op; try (eapply wp_mono; [by apply exec_service|done|by intros ? ? []]); cbn [exec op_ok may_refuse] in *.
  - destruct Hok as (Hr & Hj & Ht & _). apply wp_ignore. destruct jobs as [|j0 jobs].
    { unfold record_submission. simpl. apply wp_ret. eapply keeps_view; [done..|apply extends_refl]. }
    eapply (wp_mono _ (λ _ s', keeps v s') _ no_error); [|done|by intros ? ? []].
    eapply wp_record_submission; [done..|]. intros s' Hs' Hv'. eapply keeps_view; [done..|apply extends_submit].
  - destruct Hok as (Hj & Ht & _). eapply wp_ignore, wp_retry_any; [done..| |].
    + intros s' Hs' Hv'. eapply keeps_view; [done..|apply extends_retry].
    + intros e. split; [done|]. eapply keeps_view; [done..|apply extends_refl].
  - destruct Hok as (Hj & [Ht [ex He]]%time_given_ok).
    eapply (wp_mono _ (λ _ s', keeps v s') _ no_error); [|done|by intros ? ? []].
    eapply wp_mark_started; [done..|]. intros s' Hs' Hv'. eapply keeps_view; [done..|apply extends_started].
  - destruct Hok as (Hj & Ht & _). apply wp_ignore.
    eapply (wp_mono _ (λ _ s', keeps v s') _ no_error); [|done|by intros ? ? []].
    eapply wp_record_terminal; [done..|]. intros s' Hs' Hv'. eapply keeps_view; [done..|apply extends_finished].
  - destruct Hok as (Hj & Ht & _). apply wp_ignore. eapply wp_notice_any; [done..|]. by intros e s' ?.
  - unfold wp, record_callback_edge, on_edges. exists v. split; [|apply extends_refl].
    split; [|done|done]. by destruct Hs.
Qed.

Lemma run_keeps ops s v :
  bureau_inv s v → Forall op_ok ops → ∃ v', bureau_inv (run_ops ops s) v' ∧ extends v v'.
Proof.
  revert s v. induction ops as [|op ops IH]; intros s v Hi Hops.
  { exists v. split; [done|apply extends_refl]. }
  apply Forall_cons in Hops as [Hop Hops]. pose proof (exec_keeps op s v Hi Hop) as H. unfold wp in H.
  simpl. assert (keeps v (exec op s).1) as (v1 & Hi1 & He1).
  { destruct (exec op s) as [s1 [a|e]]; [done|by destruct H]. }
  destruct (IH _ _ Hi1 Hops) as (v2 & Hi2 & He2). exists v2. split; [done|by eapply extends_trans].
Qed.

Lemma binit_inv : bureau_inv binit (view_of binit).
Proof.
  split.
  - apply sees_view, kernel_inv_init.
  - split; simpl; [constructor|constructor|]. intros n a _. unfold q_latest, mailbox_of, box_of, inbox_of. simpl.
    by rewrite lookup_empty.
  - intros a Ha. by apply elem_of_nil in Ha.
Qed.
End runs.
