(* ===== verification/BureauOutcomes.v ===== *)
(** What the views of [BureauSpec] come to: the queue a submission leaves, the idempotence
    of a retry, the event and the message state an ended attempt leaves. *)

From Stdlib Require Import Ascii String ZArith Lia.
From stdpp Require Import base gmap list strings relations.
From S2P Require Import Prelude PyData Names Timestamps Storage MailboxModels MailboxKernel MailboxInvariant MailboxOps MailboxSpec MailboxDiscipline MailboxReach CompletionModels Jobs Api JobStore BureauModels BureauState Bureau BureauView BureauSpec BureauReach.

Local Open Scope Z_scope.

Section outcomes.
Context (cfg : bconfig) (Hids : ids_ok cfg).
Implicit Types (v : bview).

(** ** Submissions *)

Fixpoint submitted_attempts (n : nat) (mid ts : string) (jobs : list JobRecord) : list AttemptRecord :=
  match jobs with
  | [] => []
  | j :: rest => admitted_attempt cfg n mid ts 0 j :: submitted_attempts (S (S n)) mid ts rest
  end.

Fixpoint submitted_requests (n : nat) (mid ts : string) (jobs : list JobRecord) : list InboundEventRecord :=
  match jobs with
  | [] => []
  | j :: rest => admitted_request cfg n mid ts j :: submitted_requests (S (S n)) mid ts rest
  end.

Definition for_agent (a : string) (r : InboundEventRecord) : bool := String.eqb (ie_agent_name r) a.

Lemma admit_view_ok mid ts j v :
  view_ok cfg v → job_ok j → truthy mid = true →
  absent (admitted_request cfg (v_ids v) mid ts j)
    (draw (add_attempt (admitted_attempt cfg (v_ids v) mid ts 0 j) (draw v))) ∧
  view_ok cfg (admit_view cfg mid ts 0 j v).
Proof.
  intros Hv Hj Hm. apply (new_event cfg Hids); [|done]. apply view_attempt_ok; [|by apply view_draw].
  by apply pending_attempt_ok.
Qed.

Lemma admit_all_closed mid ts jobs v :
  view_ok cfg v → Forall job_ok jobs → truthy mid = true →
  let v' := admit_all cfg mid ts jobs v in
  v_messages v' = v_messages v ∧ v_replies v' = v_replies v ∧
  v_attempts v' = v_attempts v ++ submitted_attempts (v_ids v) mid ts jobs ∧
  ∀ a, q_pending (v_mail v' a) =
         q_pending (v_mail v a) ++ List.filter (for_agent a) (submitted_requests (v_ids v) mid ts jobs) ∧
       q_lease (v_mail v' a) = q_lease (v_mail v a).
Proof.
  cbv zeta. revert v. induction jobs as [|j jobs IH]; intros v Hv Hj Hm.
  { simpl. split_and!; [done..|by rewrite app_nil_r|]. intros a. by rewrite app_nil_r. }
  apply Forall_cons in Hj as [Hj Hjs]. destruct (admit_view_ok mid ts j v Hv Hj Hm) as [Hab Hv1].
  change (admit_all cfg mid ts (j :: jobs) v) with (admit_all cfg mid ts jobs (admit_view cfg mid ts 0 j v)).
  destruct (IH (admit_view cfg mid ts 0 j v) Hv1 Hjs Hm) as (-> & -> & -> & Hq).
  split_and!; [done|done|by simpl; rewrite <-app_assoc|]. intros a. destruct (Hq a) as [Hp Hl].
  rewrite Hp, Hl. cbn [submitted_requests List.filter].
  change (v_ids (admit_view cfg mid ts 0 j v)) with (S (S (v_ids v))).
  set (r := admitted_request cfg (v_ids v) mid ts j) in *. unfold absent in Hab.
  assert (v_mail (admit_view cfg mid ts 0 j v) a =
    if for_agent a r then spec_enqueue r (v_mail v a) else v_mail v a) as ->.
  { unfold for_agent. destruct (String.eqb_spec (ie_agent_name r) a) as [<-|Hne].
    - simpl. by rewrite decide_True.
    - simpl. by rewrite decide_False by (intros ->; by apply Hne). }
  destruct (for_agent a r) eqn:Ea; [|done]. apply String.eqb_eq in Ea. rewrite Ea in Hab.
  split; [|done]. rewrite pending_enqueue by exact Hab. by rewrite <-app_assoc.
Qed.

(** ** Retries *)

Lemma latest_message_view mid st ts v m :
  latest_message mid v = Some m →
  ∃ m', latest_message mid (message_view mid st ts v) = Some m' ∧ ms_state m' = st.
Proof.
  intros Hm. unfold message_view. rewrite Hm. case_decide as Hst; [eauto|].
  unfold latest_message in *. simpl. rewrite find_last_snoc.
  apply find_last_Some in Hm as [_ Hid]. change (ms_message_id (ms_set m ts st)) with (ms_message_id m).
  rewrite Hid. by eexists.
Qed.

Lemma message_view_again mid st ts v m :
  latest_message mid v = Some m → ms_state m = st → message_view mid st ts v = v.
Proof. intros Hm Hst. unfold message_view. rewrite Hm. by rewrite decide_True. Qed.

Lemma message_view_mail mid st ts v :
  v_mail (message_view mid st ts v) = v_mail v ∧ v_attempts (message_view mid st ts v) = v_attempts v ∧
  v_replies (message_view mid st ts v) = v_replies v.
Proof. unfold message_view. destruct (latest_message mid v); [|done]. by case_decide. Qed.

Lemma event_delivered r v agent att :
  ie_agent_name r = agent → ie_attempt_id r = Some att → truthy att = true →
  event_of_attempt agent att (deliver r v) = Some r.
Proof.
  intros <- Ha Ht. unfold event_of_attempt. simpl. rewrite decide_True by done. unfold spec_enqueue. cbn [q_log].
  rewrite find_last_snoc. unfold has_attempt_id at 1. rewrite Ha, truthy_or by done. by rewrite String.eqb_refl.
Qed.

(** A second retry finds everything done. *)
Lemma retry_view_again mid ts ts' j v m :
  view_ok cfg v → latest_message mid v = Some m →
  retry_view cfg mid ts' j (retry_view cfg mid ts j v).2 = retry_view cfg mid ts j v.
Proof.
  intros Hv Hm. unfold retry_view.
  destruct (find_last (has_job (jr_job_id j)) (v_attempts v)) as [a|] eqn:Ea; cbn [fst snd].
  - destruct (attempt_facts cfg v _ a Hv Ea) as [_ Hatt]. unfold replay_view.
    destruct (decide (at_state a = AT_PENDING)) as [Hst|Hst].
    2: { rewrite Ea. by rewrite decide_False. }
    match goal with |- context [message_view mid MS_QUEUED ts ?x] => set (v1 := x) end.
    assert (∃ e, event_of_attempt (jr_agent_name j) (at_attempt_id a) v1 = Some e) as [e He].
    { unfold v1. destruct (event_of_attempt _ _ v) as [e|] eqn:Ee; [eauto|]. eexists. by apply event_delivered. }
    assert (latest_message mid v1 = Some m ∧ v_attempts v1 = v_attempts v) as [Hm1 Ha1].
    { unfold v1. by destruct (event_of_attempt _ _ v). }
    destruct (latest_message_view mid MS_QUEUED ts v1 m Hm1) as (m' & Hm' & Hst').
    destruct (message_view_mail mid MS_QUEUED ts v1) as (E1 & E2 & _).
    rewrite E2, Ha1, Ea, decide_True by done. unfold event_of_attempt in He |- *. rewrite E1, He.
    by rewrite (message_view_again _ _ _ _ m').
  - set (v1 := admit_view cfg mid ts (retry_index mid (jr_agent_name j) v) j v).
    destruct (latest_message_view mid MS_QUEUED ts v1 m Hm) as (m' & Hm' & Hst').
    destruct (message_view_mail mid MS_QUEUED ts v1) as (E1 & E2 & _).
    rewrite E2. unfold v1 at 1. cbn [admit_view deliver set_mail v_attempts draw add_attempt].
    rewrite find_last_snoc.
    assert (has_job (jr_job_id j) (admitted_attempt cfg (v_ids v) mid ts (retry_index mid (jr_agent_name j) v) j)
      = true) as -> by apply String.eqb_refl.
    change (at_attempt_id (admitted_attempt cfg (v_ids v) mid ts (retry_index mid (jr_agent_name j) v) j))
      with (id_at cfg "att" (v_ids v)).
    f_equal. unfold replay_view. rewrite decide_True by done.
    assert (event_of_attempt (jr_agent_name j) (id_at cfg "att" (v_ids v)) (message_view mid MS_QUEUED ts v1)
      = Some (admitted_request cfg (v_ids v) mid ts j)) as He.
    { unfold event_of_attempt. rewrite E1. apply (event_delivered (admitted_request cfg (v_ids v) mid ts j)); done. }
    change (at_attempt_id (admitted_attempt cfg (v_ids v) mid ts (retry_index mid (jr_agent_name j) v) j))
      with (id_at cfg "att" (v_ids v)).
    rewrite He. by apply (message_view_again _ _ _ _ m').
Qed.

(** ** Rows of one event *)

Definition rows_agree (q : mailbox) : Prop :=
  ∀ r1 r2, r1 ∈ q_log q → r2 ∈ q_log q → eid r1 = eid r2 → ie_attempt_id r1 = ie_attempt_id r2.

Lemma rows_agree_new r q :
  rows_agree q → q_latest (eid r) q = None → rows_agree (spec_enqueue r q).
Proof.
  intros Hq Hf. assert (∀ x, x ∈ q_log q → eid x ≠ eid r) as Hx.
  { intros x Hin E. pose proof (find_last_None _ _ Hf x Hin) as Hx. unfold has_event_id in Hx.
    by rewrite E, String.eqb_refl in Hx. }
  unfold rows_agree, spec_enqueue. cbn [q_log]. intros r1 r2.
  intros [H1| ->%list_elem_of_singleton]%elem_of_app [H2| ->%list_elem_of_singleton]%elem_of_app E; try done.
  - by apply Hq.
  - by destruct (Hx _ H1).
  - by destruct (Hx _ H2).
Qed.

Lemma rows_agree_again q u c ls mk :
  rows_agree q → c ∈ q_log q → eid u = eid c → ie_attempt_id u = ie_attempt_id c →
  rows_agree (Mailbox (q_log q ++ [u]) ls mk).
Proof.
  intros Hq Hc He Ha. unfold rows_agree. cbn [q_log]. intros r1 r2.
  intros [H1| ->%list_elem_of_singleton]%elem_of_app [H2| ->%list_elem_of_singleton]%elem_of_app E; try done.
  - by apply Hq.
  - rewrite Ha. apply Hq; [done|done|]. congruence.
  - rewrite Ha. apply Hq; [done|done|]. congruence.
Qed.

Lemma latest_in id q c : q_latest id q = Some c → c ∈ q_log q.
Proof. intros H. by apply find_last_Some in H as [? _]. Qed.

Lemma step_rows_agree a q q' : step a q q' → rows_agree q → rows_agree q'.
Proof.
  intros [r Hf _|r Hf _|id st ts _|id ts e|id p st c _|ts] Hq; [by apply rows_agree_new..| | | |].
  - unfold spec_end. destruct (q_latest id q) as [x|] eqn:Hx; [|done]. destruct (is_pending x); [|done].
    eapply rows_agree_again; [done|by eapply latest_in|done..].
  - unfold spec_claim. destruct (q_latest id q) as [x|] eqn:Hx; [|done]. simpl. repeat case_match; try done.
    eapply rows_agree_again; [done|by eapply latest_in|done..].
  - unfold spec_rewrite. destruct (q_latest id q) as [x|] eqn:Hx; [|done]. destruct (is_pending x); [|done].
    eapply rows_agree_again; [done|by eapply latest_in|done..].
  - unfold spec_expire, spec_end, q_latest. destruct (q_lease q) as [l|]; [|done]. case_match; [done|]. cbn [q_log].
    destruct (find_last _ _) as [x|] eqn:Hx; [|done]. destruct (is_pending x) eqn:Hp; [|done].
    rewrite ?Hx, ?Hp. eapply rows_agree_again; [done|by apply find_last_Some in Hx as [? _]|done..].
Qed.

Lemma reachable_rows_agree a q : rtc (step a) q_empty q → rows_agree q.
Proof.
  intros H. assert (∀ q1 q2, rtc (step a) q1 q2 → rows_agree q1 → rows_agree q2) as Hr.
  { induction 1; eauto using step_rows_agree. }
  eapply Hr; [done|]. intros r1 r2 H1. by apply elem_of_nil in H1.
Qed.

Lemma find_last_finer {A} (p p2 : A → bool) l e :
  find_last p l = Some e → p2 e = true → (∀ x, x ∈ l → p2 x = true → p x = true) → find_last p2 l = Some e.
Proof.
  induction l as [|x l IH] using rev_ind; [done|]. rewrite !find_last_snoc. intros H He Hf.
  destruct (p x) eqn:Hp.
  - injection H as ->. by rewrite He.
  - assert (p2 x = false) as ->.
    { destruct (p2 x) eqn:E; [|done]. rewrite (Hf x) in Hp; [done| |done]. apply elem_of_app. right. by left. }
    apply IH; [done|done|]. intros y Hy. apply Hf. apply elem_of_app. by left.
Qed.

(** The last row of an attempt is the last row of its event. *)
Lemma attempt_row_latest att q e :
  rows_agree q → find_last (has_attempt_id att) (q_log q) = Some e → q_latest (eid e) q = Some e.
Proof.
  unfold q_latest. intros Hq He. pose proof He as [Hin Hatt]%find_last_Some.
  eapply find_last_finer; [exact He|apply String.eqb_refl|]. intros x Hx Hid. apply String.eqb_eq in Hid.
  unfold has_attempt_id in *. by rewrite (Hq x e).
Qed.

(** What a retry that succeeded must have found. *)
Lemma retry_succeeds mid j ts s s1 v att :
  sees s v → view_ok cfg v → job_ok j → blank ts = false →
  record_retry_attempt cfg mid j ts s = (s1, Ok att) →
  ∃ m, latest_message mid v = Some m ∧
    (∀ a, find_last (has_job (jr_job_id j)) (v_attempts v) = Some a → at_message_id a = mid) ∧
    sees s1 (retry_view cfg mid ts j v).2 ∧ view_ok cfg (retry_view cfg mid ts j v).2 ∧
    att = (retry_view cfg mid ts j v).1.
Proof.
  intros Hs Hv Hj Ht Hrun. destruct (latest_message mid v) as [m|] eqn:Em.
  2: { exfalso. revert Hrun. unfold record_retry_attempt, mbind' at 1, message_get_latest, mget.
       rewrite (se_messages _ _ Hs). fold (latest_message mid v). by rewrite Em. }
  assert (Hbound : ∀ a, find_last (has_job (jr_job_id j)) (v_attempts v) = Some a → at_message_id a = mid).
  { intros a Ha. destruct (decide (at_message_id a = mid)) as [|Hne]; [done|].
    destruct (retry_refused cfg mid j ts s v a) as [msg Hr]; [done..|]. by rewrite Hr in Hrun. }
  assert (H : wp (record_retry_attempt cfg mid j ts) (λ x s', sees s' (retry_view cfg mid ts j v).2 ∧
    view_ok cfg (retry_view cfg mid ts j v).2 ∧ x = (retry_view cfg mid ts j v).1) no_error s)
    by (eapply wp_record_retry; eauto).
  unfold wp in H. rewrite Hrun in H. exists m. split; [done|]. by split.
Qed.

(** The message and the attempt after a retry. *)
Lemma retry_view_facts mid ts j v m :
  view_ok cfg v → latest_message mid v = Some m →
  (∀ a, find_last (has_job (jr_job_id j)) (v_attempts v) = Some a → at_message_id a = mid) →
  ∃ m' a, latest_message mid (retry_view cfg mid ts j v).2 = Some m' ∧
    find_last (has_job (jr_job_id j)) (v_attempts (retry_view cfg mid ts j v).2) = Some a ∧
    at_attempt_id a = (retry_view cfg mid ts j v).1 ∧ at_message_id a = mid.
Proof.
  intros Hv Hm Hbound. unfold retry_view.
  destruct (find_last (has_job (jr_job_id j)) (v_attempts v)) as [a|] eqn:Ea; cbn [fst snd].
  - unfold replay_view. case_decide; [|by exists m, a; rewrite Hm, Ea; auto].
    match goal with |- context [message_view mid MS_QUEUED ts ?x] => set (v1 := x) end.
    assert (latest_message mid v1 = Some m ∧ v_attempts v1 = v_attempts v) as [Hm1 Ha1].
    { unfold v1. by destruct (event_of_attempt _ _ v). }
    destruct (latest_message_view mid MS_QUEUED ts v1 m Hm1) as (m' & Hm' & _).
    destruct (message_view_mail mid MS_QUEUED ts v1) as (_ & E2 & _).
    exists m', a. rewrite E2, Ha1. auto.
  - set (v1 := admit_view cfg mid ts (retry_index mid (jr_agent_name j) v) j v).
    destruct (latest_message_view mid MS_QUEUED ts v1 m Hm) as (m' & Hm' & Hst').
    destruct (message_view_mail mid MS_QUEUED ts v1) as (E1 & E2 & _).
    exists m', (admitted_attempt cfg (v_ids v) mid ts (retry_index mid (jr_agent_name j) v) j).
    rewrite E2. unfold v1 at 2. cbn [admit_view deliver set_mail v_attempts draw add_attempt].
    rewrite find_last_snoc.
    assert (has_job (jr_job_id j) (admitted_attempt cfg (v_ids v) mid ts (retry_index mid (jr_agent_name j) v) j)
      = true) as -> by apply String.eqb_refl. done.
Qed.

(** ** An ended attempt *)

Definition terminal_rows (j : JobRecord) (ts : string) (event : option InboundEventRecord)
    : list InboundEventRecord :=
  match event with
  | Some e =>
      if is_pending e
      then [terminal_row e (if is_claimable (ie_status e) && bool_decide (jr_status j = JS_CANCELLED)
                            then IE_ABANDONED else IE_CONSUMED) ts]
      else []
  | None => []
  end.

Lemma assoc_set_nonempty k a (d : list (string * AttemptRecord)) : assoc_set k a d ≠ [].
Proof. destruct d as [|[k' b] d]; simpl; [done|]. by case_match. Qed.

Lemma latest_attempts_snoc l a : latest_attempts (l ++ [a]) ≠ [].
Proof.
  unfold latest_attempts. rewrite foldl_app. simpl. intros H%map_eq_nil. by apply assoc_set_nonempty in H.
Qed.

Lemma ended_view_facts j ts v c e :
  rows_agree (v_mail v (jr_agent_name j)) → c = bool_decide (jr_status j = JS_CANCELLED) →
  (∀ x, e = Some x → q_latest (eid x) (v_mail v (jr_agent_name j)) = Some x) →
  let v' := ended_view (jr_agent_name j) ts c e v in
  q_log (v_mail v' (jr_agent_name j)) = q_log (v_mail v (jr_agent_name j)) ++ terminal_rows j ts e ∧
  (∀ x, e = Some x → is_pending x = true →
     q_lease (v_mail v' (jr_agent_name j)) = released (eid x) (q_lease (v_mail v (jr_agent_name j)))) ∧
  (∀ x, x ≠ jr_agent_name j → v_mail v' x = v_mail v x) ∧
  v_attempts v' = v_attempts v ∧ v_replies v' = v_replies v ∧ v_messages v' = v_messages v.
Proof.
  intros Hrows -> Hlat. cbv zeta. unfold ended_view, terminal_rows.
  destruct e as [e|]; [|split_and!; try done; by rewrite app_nil_r].
  unfold is_pending. destruct (is_terminal (ie_status e)) eqn:Et; cbn [negb].
  { split_and!; try done; [by rewrite app_nil_r|]. intros x [= <-]. by rewrite Et. }
  unfold spec_end. rewrite (Hlat e eq_refl). unfold is_pending. rewrite Et. simpl.
  rewrite decide_True by done. split_and!; try done.
  - intros x [= <-] _. done.
  - intros x Hne. by rewrite decide_False.
Qed.

Lemma terminal_view_facts j ts v a :
  find_last (has_job (jr_job_id j)) (v_attempts v) = Some a → rows_agree (v_mail v (jr_agent_name j)) →
  let v' := terminal_view j ts v in
  let e := event_of_attempt (jr_agent_name j) (at_attempt_id a) v in
  v_attempts v' = v_attempts v ++ [ended_attempt j a ts] ∧ v_replies v' = v_replies v ∧
  q_log (v_mail v' (jr_agent_name j)) = q_log (v_mail v (jr_agent_name j)) ++ terminal_rows j ts e ∧
  (∀ x, e = Some x → is_pending x = true →
     q_lease (v_mail v' (jr_agent_name j)) = released (eid x) (q_lease (v_mail v (jr_agent_name j)))) ∧
  (∀ x, x ≠ jr_agent_name j → v_mail v' x = v_mail v x) ∧
  (∀ m, latest_message (at_message_id a) v' = Some m →
     ms_state m = next_message_state
       (latest_attempts (attempts_of_message (at_message_id a) (v_attempts v ++ [ended_attempt j a ts])))
       (replies_of_message (at_message_id a) (v_replies v))).
Proof.
  intros Ha Hrows. cbv zeta. unfold terminal_view. rewrite Ha.
  set (e := event_of_attempt (jr_agent_name j) (at_attempt_id a) v).
  set (v1 := add_attempt (ended_attempt j a ts) v).
  destruct (ended_view_facts j ts v1 (bool_decide (jr_status j = JS_CANCELLED)) e) as (E1 & E2 & E3 & E4 & E5 & E6);
    [done|done|intros x Hx; by eapply attempt_row_latest|].
  set (v2 := ended_view _ _ _ e v1) in *. set (mid := at_message_id a).
  set (ats := attempts_of_message mid (v_attempts v ++ [ended_attempt j a ts])).
  assert (attempts_of_message mid (v_attempts v2) = ats) as Hats by by rewrite E4.
  assert (latest_attempts ats ≠ []) as Hne.
  { unfold ats, attempts_of_message. rewrite List.filter_app. simpl. unfold mid. rewrite String.eqb_refl.
    apply latest_attempts_snoc. }
  unfold refreshed_view. rewrite Hats, E5. destruct (latest_attempts ats) as [|x l]; [done|].
  set (st := next_message_state (x :: l) _).
  destruct (message_view_mail mid st ts v2) as (M1 & M2 & M3). rewrite M1, M2, M3, E4, E5.
  split_and!; [done|done|exact E1|exact E2|exact E3|]. intros m Hm.
  destruct (latest_message mid v2) as [m0|] eqn:Em.
  - destruct (latest_message_view mid st ts v2 m0 Em) as (m' & Hm' & Hst). congruence.
  - rewrite (message_view_none _ _ _ _ Em), Em in Hm. done.
Qed.
End outcomes.
