(* ===== verification/BureauProps.v ===== *)
(** The properties of the message bureau, each with a concrete state it applies to. *)

From Stdlib Require Import Ascii String ZArith Lia.
From stdpp Require Import base gmap list strings relations.
From S2P Require Import Prelude PyData Names Timestamps Storage MailboxModels MailboxKernel MailboxInvariant MailboxOps MailboxSpec MailboxDiscipline MailboxReach CompletionModels Jobs Api JobStore BureauModels BureauState Bureau BureauView BureauSpec BureauReach BureauOutcomes.

Local Open Scope Z_scope.

(** ** A concrete bureau: identifiers [a], [aa], ..., two jobs for [coder] *)

Module BSample.
Fixpoint tally (n : nat) : string := match n with O => "a" | S n => String "a" (tally n) end.
Definition noon : string := "2024-05-01T12:00:00Z".
Definition later : string := "2024-05-01T12:30:00Z".
Definition cfg : bconfig :=
  BConfig (KConfig (λ _, noon) (Some 60000000)) ["coder"; "boss"] tally (λ text _ _ _ _, Ok (text, None)).
Definition envelope : MessageEnvelope :=
  MkEnvelope "proj" "coder" "boss" "do it" None None "ask" SINGLE false [] None.
Definition job (id : string) (st : JobStatus) : JobRecord :=
  MkJob id None "coder" "codex" envelope st (Some []) None noon noon None TARGET_AGENT "coder" None [].
Definition jobs : list JobRecord := [job "job_1" JS_ACCEPTED; job "job_2" JS_ACCEPTED].
Definition decision : CompletionDecision :=
  MkDecision true CS_COMPLETED (Some "task_complete") None "done" true true true None None (Some noon) [].

Lemma tally_inj n m : tally n = tally m → n = m.
Proof.
  revert m. induction n as [|n IH]; intros [|m]; simpl; try done.
  - by destruct m.
  - by destruct n.
  - intros [= H]. by rewrite (IH m).
Qed.

Lemma ids : ids_ok cfg.
Proof.
  split; [exact tally_inj|]. intros n. cbn [cfg bc_hex]. unfold plain. apply andb_true_iff.
  split; [by destruct n|]. induction n as [|n IH]; [done|]. cbn [tally str_forall]. by rewrite IH.
Qed.

Lemma job_fine id st : truthy id = true → job_ok (job id st).
Proof.
  intros Hid. split; [|vm_compute; reflexivity|vm_compute; reflexivity].
  split; [|split; [vm_compute; reflexivity|discriminate]].
  unfold new_job, job. cbn [jr_job_id jr_status jr_target_name jr_agent_name jr_terminal_decision].
  rewrite Hid. by destruct st.
Qed.

Definition submit : facade_op := Submit envelope jobs None noon None.
Definition start : facade_op := Start (job "job_1" JS_RUNNING) noon.
Definition finish : facade_op := Terminal (job "job_1" JS_COMPLETED) decision later true true.

Lemma noon_fine : time_given cfg noon.
Proof. split; vm_compute; reflexivity. Qed.
Lemma later_fine : time_given cfg later.
Proof. split; vm_compute; reflexivity. Qed.

Lemma submit_fine : op_ok cfg submit.
Proof.
  split; [split; [split; [vm_compute; reflexivity|discriminate]|reflexivity]|]. split; [|exact noon_fine].
  repeat (apply Forall_cons; split; [by apply job_fine|]). by apply Forall_nil.
Qed.

Lemma start_fine : op_ok cfg start.
Proof. split; [by apply job_fine|exact noon_fine]. Qed.

Lemma finish_fine : op_ok cfg finish.
Proof. split; [by apply job_fine|exact later_fine]. Qed.

Lemma start_ops : Forall (op_ok cfg) [submit; start].
Proof. apply Forall_cons. split; [exact submit_fine|]. apply Forall_cons. split; [exact start_fine|by apply Forall_nil]. Qed.

Definition submitted : bstate := run_ops cfg [submit] binit.
Definition started : bstate := run_ops cfg [submit; start] binit.
Definition finished : bstate := run_ops cfg [submit; start; finish] binit.
End BSample.

Lemma run_result {S A} (p : S * result A) r : p.2 = r → ∃ s, p = (s, r).
Proof. destruct p as [s x]. intros <-. by exists s. Qed.

Lemma started_inv : ∃ v, bureau_inv BSample.cfg BSample.started v.
Proof.
  destruct (run_keeps BSample.cfg BSample.ids [BSample.submit; BSample.start] binit _ (binit_inv BSample.cfg)
    BSample.start_ops) as (v & Hi & _). exists v. exact Hi.
Qed.

(** ** Runs *)

(** C23: after any sequence of facade and mailbox calls with well-formed arguments, from
    empty stores: every stored summary mirrors its agent's queue and lease; at most one
    event per agent is being delivered, the head of the queue, under the agent's lease; no
    attempt is lost, each has an event in its agent's log; stored messages and attempts
    are valid; and any further call ends without an exception, save a retry or a notice. *)
Theorem bureau_runs_consistent (cfg : bconfig) (ops : list facade_op) :
  ids_ok cfg → Forall (op_ok cfg) ops →
  let s := run_ops cfg ops binit in let k := bs_kernel s in
  (∀ a m, owner_name a = true → ks_mailboxes k !! a = Some m →
     mirrors m (pending_of (inbox_of k a)) (ks_leases k !! a)) ∧
  (∀ a r, owner_name a = true → r ∈ pending_of (inbox_of k a) → ie_status r = IE_DELIVERING →
     hd_error (pending_of (inbox_of k a)) = Some r ∧
     ∃ l, ks_leases k !! a = Some l ∧ is_acquired l = true ∧ dl_inbound_event_id l = ie_inbound_event_id r) ∧
  (∀ x, x ∈ bs_attempts s →
     ∃ e, find_last (has_attempt_id (at_attempt_id x)) (inbox_of k (at_agent_name x)) = Some e) ∧
  Forall valid_message (bs_messages s) ∧ Forall valid_attempt (bs_attempts s) ∧
  (∀ op, op_ok cfg op → may_refuse op = false → is_ok (exec cfg op s).2 = true).
Proof.
  intros Hids Hops. destruct (run_keeps cfg Hids ops binit _ (binit_inv cfg) Hops) as (v & Hi & _).
  cbv zeta. pose proof Hi as [Hs Hv Hb]. pose proof (se_kernel _ _ Hs) as Hk. split_and!.
  - intros a m Ha Hm. destruct (Hk a Ha) as [[_ Hsync] _]. unfold synced in Hsync.
    cbn [bx_mailbox box_of] in Hsync. by rewrite Hm in Hsync.
  - intros a r Ha Hr Hst. destruct (Hk a Ha) as [_ Hsteps].
    apply steps_disciplined in Hsteps as [Hd _]. by apply Hd.
  - intros x Hx. rewrite (se_attempts _ _ Hs) in Hx. destruct (Hb x Hx) as [e He]. exists e.
    pose proof (vo_attempts _ _ Hv) as Hat. rewrite Forall_forall in Hat. destruct (Hat x Hx) as [_ Ho].
    unfold event_of_attempt in He. by rewrite <-(se_mail _ _ Hs) in He.
  - rewrite (se_messages _ _ Hs). apply Hv.
  - rewrite (se_attempts _ _ Hs). eapply Forall_impl; [apply Hv|]. by intros x [].
  - intros op Hop Hr. pose proof (exec_keeps cfg Hids op _ v Hi Hop) as H. unfold wp in H.
    destruct (exec cfg op _) as [s' [u|e]]; [done|]. destruct H as [H _]. congruence.
Qed.

Lemma bureau_runs_consistent_witness :
  ∃ m, ks_mailboxes (bs_kernel BSample.started) !! "coder" = Some m ∧ mb_queue_depth m = 2.
Proof.
  unfold BSample.started.
  destruct (bureau_runs_consistent BSample.cfg [BSample.submit; BSample.start] BSample.ids BSample.start_ops) as (H & _).
  set (s := run_ops BSample.cfg [BSample.submit; BSample.start] binit) in *. cbv zeta in H.
  assert (is_Some (ks_mailboxes (bs_kernel s) !! "coder")) as [m Hm] by (vm_compute; by eexists).
  exists m. split; [exact Hm|].
  assert (owner_name "coder" = true) as Ho by (vm_compute; reflexivity).
  assert (length (pending_of (inbox_of (bs_kernel s) "coder")) = 2%nat) as Hl by (vm_compute; reflexivity).
  pose proof (mi_depth _ _ _ (H "coder" m Ho Hm)) as Hd. rewrite Hl in Hd. exact Hd.
Defined.

(** C24: a submission of jobs stores one queued message, one pending attempt per job in the
    jobs' order, and puts one request per job at the back of its agent's queue, in the
    jobs' order; what was queued and leased before stays, the replies too. *)
Theorem submission_enqueues (cfg : bconfig) (r : MessageEnvelope) (jobs : list JobRecord)
    (sid : option string) (ts : string) (origin : option string) (s : bstate) (v : bview) :
  ids_ok cfg → bureau_inv cfg s v → op_ok cfg (Submit r jobs sid ts origin) → jobs ≠ [] →
  let mid := id_at cfg "msg" (bs_ids s) in
  ∃ s' o, record_submission cfg r jobs sid ts origin s = (s', Ok (Some mid)) ∧
    bs_messages s' = bs_messages s ++ [submission_message mid o r jobs sid ts] ∧
    bs_attempts s' = bs_attempts s ++ submitted_attempts cfg (S (bs_ids s)) mid ts jobs ∧
    bs_replies s' = bs_replies s ∧
    ∀ a, owner_name a = true →
      pending_of (inbox_of (bs_kernel s') a) =
        pending_of (inbox_of (bs_kernel s) a) ++
        List.filter (for_agent a) (submitted_requests cfg (S (bs_ids s)) mid ts jobs) ∧
      ks_leases (bs_kernel s') !! a = ks_leases (bs_kernel s) !! a.
Proof.
  intros Hids [Hs Hv Hb] (Hr & Hj & Ht & _) Hne. cbv zeta. rewrite (se_ids _ _ Hs).
  assert (H : wp (record_submission cfg r jobs sid ts origin)
    (λ x s', x = Some (id_at cfg "msg" (v_ids v)) ∧ sees s' (submit_view cfg r jobs sid ts origin v))
    no_error s) by by eapply wp_record_submission.
  unfold wp in H. destruct (record_submission cfg r jobs sid ts origin s) as [s' [x|e]]; [|done].
  destruct H as [-> Hs']. set (mid := id_at cfg "msg" (v_ids v)) in *.
  set (v1 := add_message (submitted_message cfg r jobs sid ts origin v) (draw v)) in *.
  destruct (admit_all_closed cfg Hids mid ts jobs v1) as (E1 & E2 & E3 & E4).
  - apply view_message_ok; [|by apply view_draw]. apply submission_message_valid; [|done..].
    by apply id_at_truthy.
  - done.
  - by apply id_at_truthy.
  - exists s', (if opt_truthy origin then origin else origin_of (me_reply_to r) v).
    change (submit_view cfg r jobs sid ts origin v) with (admit_all cfg mid ts jobs v1) in Hs'.
    rewrite (se_messages _ _ Hs'), (se_attempts _ _ Hs'), (se_replies _ _ Hs'), E1, E2, E3.
    rewrite (se_messages _ _ Hs), (se_attempts _ _ Hs), (se_replies _ _ Hs). split_and!; [done..|].
    intros a Ha. specialize (E4 a). rewrite <-(se_mail _ _ Hs' a Ha) in E4.
    change (v_mail v1 a) with (v_mail v a) in E4. by rewrite <-(se_mail _ _ Hs a Ha) in E4.
Qed.

Lemma submission_enqueues_witness :
  ∃ s' o, record_submission BSample.cfg BSample.envelope BSample.jobs None BSample.noon None binit =
      (s', Ok (Some "msg_a")) ∧
    bs_messages s' = [submission_message "msg_a" o BSample.envelope BSample.jobs None BSample.noon] ∧
    map ie_payload_ref (pending_of (inbox_of (bs_kernel s') "coder")) = [Some "job:job_1"; Some "job:job_2"].
Proof.
  destruct (submission_enqueues BSample.cfg BSample.envelope BSample.jobs None BSample.noon None binit
    (view_of binit) BSample.ids (binit_inv BSample.cfg) BSample.submit_fine) as (s' & o & H2 & H3 & _ & _ & H4); [discriminate|].
  exists s', o. split; [exact H2|]. split; [exact H3|].
  rewrite (proj1 (H4 "coder" ltac:(vm_compute; reflexivity))). vm_compute. reflexivity.
Defined.



(** C26: ending an attempt: the attempt gets one more row with the state of the job, and
    nothing else of the attempts changes; the last row of its event, when it is pending,
    is ended once, as abandoned if it was still waiting and the job was cancelled and as
    consumed otherwise, and its lease is released; an event that has ended keeps its rows;
    the message's state becomes the one computed from its attempts and replies. *)
Theorem attempt_terminal_outcome (cfg : bconfig) (j : JobRecord) (ts : string) (s : bstate) (v : bview)
    (a : AttemptRecord) :
  ids_ok cfg → bureau_inv cfg s v → job_ok j → blank ts = false →
  find_last (has_job (jr_job_id j)) (bs_attempts s) = Some a →
  let agent := jr_agent_name j in
  let event := find_last (has_attempt_id (at_attempt_id a)) (inbox_of (bs_kernel s) agent) in
  ∃ s', record_attempt_terminal cfg j ts s = (s', Ok tt) ∧
    bs_attempts s' = bs_attempts s ++ [ended_attempt j a ts] ∧ bs_replies s' = bs_replies s ∧
    inbox_of (bs_kernel s') agent = inbox_of (bs_kernel s) agent ++
      match event with
      | Some e =>
          if is_pending e
          then [terminal_row e (if is_claimable (ie_status e) && bool_decide (jr_status j = JS_CANCELLED)
                                then IE_ABANDONED else IE_CONSUMED) ts]
          else []
      | None => []
      end ∧
    (∀ x, owner_name x = true → x ≠ agent → inbox_of (bs_kernel s') x = inbox_of (bs_kernel s) x) ∧
    (∀ e, event = Some e → is_pending e = true →
       ks_leases (bs_kernel s') !! agent = released (eid e) (ks_leases (bs_kernel s) !! agent)) ∧
    (∀ m, find_last (λ m, String.eqb (ms_message_id m) (at_message_id a)) (bs_messages s') = Some m →
       ms_state m = next_message_state
         (latest_attempts (attempts_of_message (at_message_id a) (bs_attempts s')))
         (replies_of_message (at_message_id a) (bs_replies s'))).
Proof.
  intros Hids [Hs Hv Hb] Hj Ht Ha. cbv zeta. pose proof (jo_owner j Hj) as Ho.
  assert (H : wp (record_attempt_terminal cfg j ts) (λ _ s', sees s' (terminal_view j ts v)) no_error s)
    by by eapply wp_record_attempt_terminal.
  unfold wp in H. destruct (record_attempt_terminal cfg j ts s) as [s' [[]|e]]; [|done].
  exists s'. split; [done|]. rewrite (se_attempts _ _ Hs) in Ha.
  assert (rows_agree (v_mail v (jr_agent_name j))) as Hrows.
  { rewrite <-(se_mail _ _ Hs _ Ho). eapply reachable_rows_agree. by apply (se_kernel _ _ Hs). }
  destruct (terminal_view_facts j ts v a Ha Hrows) as (E1 & E2 & E3 & E4 & E5 & E6).
  rewrite (se_attempts _ _ H), (se_replies _ _ H), (se_messages _ _ H), E1, E2, (se_attempts _ _ Hs), (se_replies _ _ Hs).
  pose proof (se_mail _ _ H _ Ho) as Hmail. pose proof (se_mail _ _ Hs _ Ho) as Hmail0.
  assert (Hev : event_of_attempt (jr_agent_name j) (at_attempt_id a) v =
    find_last (has_attempt_id (at_attempt_id a)) (inbox_of (bs_kernel s) (jr_agent_name j))).
  { unfold event_of_attempt. by rewrite <-Hmail0. }
  rewrite Hev in *. split_and!; [done|done| | | |exact E6].
  - change (q_log (mailbox_of (bs_kernel s') (jr_agent_name j)) =
      q_log (mailbox_of (bs_kernel s) (jr_agent_name j)) ++ terminal_rows j ts
        (find_last (has_attempt_id (at_attempt_id a)) (inbox_of (bs_kernel s) (jr_agent_name j)))).
    by rewrite Hmail, Hmail0, E3.
  - intros x Hx Hne. specialize (E5 x Hne). rewrite <-(se_mail _ _ H x Hx), <-(se_mail _ _ Hs x Hx) in E5.
    exact (f_equal q_log E5).
  - intros e He Hp. change (q_lease (mailbox_of (bs_kernel s') (jr_agent_name j)) =
      released (eid e) (q_lease (mailbox_of (bs_kernel s) (jr_agent_name j)))).
    rewrite Hmail, Hmail0. by apply E4.
Qed.

Lemma attempt_terminal_outcome_witness :
  ∃ s', record_attempt_terminal BSample.cfg (BSample.job "job_1" JS_COMPLETED) BSample.later BSample.started =
      (s', Ok tt) ∧
    ks_leases (bs_kernel s') !! "coder" = None.
Proof.
  destruct started_inv as [v Hi].
  assert (∃ a e, find_last (has_job "job_1") (bs_attempts BSample.started) = Some a ∧
    find_last (has_attempt_id (at_attempt_id a)) (inbox_of (bs_kernel BSample.started) "coder") = Some e ∧
    is_pending e = true ∧ released (eid e) (ks_leases (bs_kernel BSample.started) !! "coder") = None)
    as (a & e & Ha & He & Hp & Hr).
  { eexists _, _. split; [vm_compute; reflexivity|]. split; [vm_compute; reflexivity|]. split; vm_compute; reflexivity. }
  assert (job_ok (BSample.job "job_1" JS_COMPLETED)) as Hj by (apply BSample.job_fine; reflexivity).
  destruct (attempt_terminal_outcome BSample.cfg (BSample.job "job_1" JS_COMPLETED) BSample.later BSample.started v a
    BSample.ids Hi Hj eq_refl Ha) as (s' & H1 & _ & _ & _ & _ & H2 & _).
  exists s'. split; [exact H1|]. rewrite <-Hr. exact (H2 e He Hp).
Defined.

(** ** The state of a message *)

(** The state computed for a message: running or partially replied while an attempt
    is active, the latter once there is a reply.  When all have ended, the replies that
    are not notices decide, or all of them if there is no other: failed if one failed,
    else incomplete if one is incomplete, cancelled when all are cancelled, else completed.
    Without replies the attempts decide: failed if one failed, cancelled when all are
    cancelled, completed when all are completed.  A superseded attempt next to a
    dead-lettered one counts as completed. *)
Theorem message_state_exact (attempts : list AttemptRecord) (replies : list ReplyRecord) :
  attempts ≠ [] →
  let st := next_message_state attempts replies in
  let active := existsb (λ a, negb (attempt_terminal (at_state a))) attempts in
  let rs := map rp_terminal_status (terminal_replies replies) in
  let sts := map at_state attempts in
  (active = true → st = if decide (replies = []) then MS_RUNNING else MS_PARTIALLY_REPLIED) ∧
  (active = false → replies ≠ [] →
     (st = MS_FAILED ↔ RT_FAILED ∈ rs) ∧
     (st = MS_INCOMPLETE ↔ RT_INCOMPLETE ∈ rs ∧ RT_FAILED ∉ rs) ∧
     (st = MS_CANCELLED ↔ ∀ y, y ∈ rs → y = RT_CANCELLED) ∧
     (st = MS_COMPLETED ↔ RT_COMPLETED ∈ rs ∧ (RT_FAILED ∉ rs) ∧ (RT_INCOMPLETE ∉ rs))) ∧
  (active = false → replies = [] →
     (st = MS_FAILED ↔ AT_FAILED ∈ sts) ∧ (st = MS_CANCELLED ↔ ∀ y, y ∈ sts → y = AT_CANCELLED) ∧
     ((∀ y, y ∈ sts → y = AT_COMPLETED) → st = MS_COMPLETED)) ∧
  attempt_terminal_state [AT_SUPERSEDED; AT_DEAD_LETTER] = MS_COMPLETED.
Proof.
  intros Hne. cbv zeta. rewrite (active_spec attempts). unfold next_message_state.
  split_and!; [| | |done].
  - destruct (active_attempts attempts); [done|]. intros _. by destruct replies.
  - destruct (active_attempts attempts); [|done]. intros _ Hr.
    pose proof (terminal_replies_nonempty replies Hr) as Hrs.
    assert (map rp_terminal_status (terminal_replies replies) ≠ []) as Hm by (by destruct (terminal_replies replies)).
    destruct (map rp_terminal_status (terminal_replies replies)) eqn:E; [done|]. rewrite <-E in *.
    by apply reply_state_spec.
  - destruct (active_attempts attempts); [|done]. intros _ ->. apply attempt_state_spec. by destruct attempts.
Qed.

Lemma message_state_exact_witness :
  let a st := MkAttempt "att_a" "msg_a" "coder" "codex" "job_1" 0 None BSample.noon BSample.noon st in
  next_message_state [a AT_CANCELLED; a AT_FAILED] [] = MS_FAILED.
Proof.
  cbv zeta.
  match goal with |- next_message_state ?l [] = _ => destruct (message_state_exact l [] ltac:(discriminate))
    as (_ & _ & H & _) end.
  apply (H eq_refl eq_refl). right. left.
Defined.

(** ** Retry lineage *)

(** C28: the successor of an ended job is found only on full authority, and asking changes
    nothing: an edge is given only when the source attempt is terminal without success,
    its agent is a target of its message exactly once, and exactly one latest attempt of
    that agent has the next retry index; that index is below the policy's bound and the
    job is another one.  No edge means there is no such attempt.  Everything else raises
    [RetryLineageError], unless the policy's bound is not a number. *)
Theorem retry_lineage_sound (id : string) (s : bstate) :
  let '(s', r) := authoritative_retry_successor id s in
  let source := find_last (has_job id) (bs_attempts s) in
  let after (src x : AttemptRecord) :=
    normalize_agent_name (at_agent_name src) = Ok (at_agent_name x) ∧
    at_retry_index x = at_retry_index src + 1 in
  let peers (src : AttemptRecord) := latest_attempts (attempts_of_message (at_message_id src) (bs_attempts s)) in
  s' = s ∧
  match r with
  | Ok (Some e) =>
      ∃ src m succ agents bound,
        source = Some src ∧ terminal_non_success (at_state src) = true ∧
        find_last (λ m, String.eqb (ms_message_id m) (at_message_id src)) (bs_messages s) = Some m ∧
        normalize_agents (ms_target_agents m) = Ok agents ∧ count_str (at_agent_name succ) agents = 1%nat ∧
        succ ∈ peers src ∧ after src succ ∧ (∀ x, x ∈ peers src → after src x → x = succ) ∧
        py_int (py_or (dget (ms_retry_policy m) "max_attempts") (VInt 1)) = Ok bound ∧
        at_retry_index succ < bound ∧ at_job_id succ ≠ at_job_id src ∧
        e = MkRetryEdge (at_message_id src) (at_attempt_id src) (at_attempt_id succ) (at_job_id src)
              (at_job_id succ) (at_retry_index succ)
  | Ok None =>
      ∃ src, source = Some src ∧ terminal_non_success (at_state src) = true ∧
        ∀ x, x ∈ peers src → ¬ after src x
  | Err e =>
      exn_class e = RetryLineageError ∨
      ∃ m, m ∈ bs_messages s ∧ is_ok (py_int (py_or (dget (ms_retry_policy m) "max_attempts") (VInt 1))) = false
  end.
Proof.
  unfold authoritative_retry_successor, attempt_by_job_id, message_get_latest, attempt_list_message,
    mbind', mget, mlift, mret', mraise.
  destruct (find_last (has_job id) (bs_attempts s)) as [src|] eqn:Es; [|by split; [|left]].
  destruct (find_last _ (bs_messages s)) as [m|] eqn:Em; [|by split; [|left]].
  destruct (normalize_agent_name (at_agent_name src)) as [agent|] eqn:Ea; [|by split; [|left]].
  destruct (normalize_agents (ms_target_agents m)) as [targets|] eqn:Et; [|by split; [|left]].
  cbn [or_lineage]. destruct (count_str agent targets =? 1)%nat eqn:Ec; [|by split; [|left]].
  apply Nat.eqb_eq in Ec. cbn [negb raise_if].
  destruct (terminal_non_success (at_state src)) eqn:Ests; [|by split; [|left]]. cbn [negb raise_if].
  set (peers := latest_attempts (attempts_of_message (at_message_id src) (bs_attempts s))).
  pose proof (candidates_spec agent (at_retry_index src) peers) as Hc.
  destruct (List.filter _ peers) as [|succ [|x l]] eqn:Ef; [| |by split; [|left]].
  - split; [done|]. exists src. split_and!; [done|done|]. intros x Hx [H1 H2].
    assert (x ∈ @nil AttemptRecord) as Hn by (apply Hc; split_and!; [done|congruence|done]).
    by apply elem_of_nil in Hn.
  - destruct (proj1 (Hc succ)) as (Hin & Hag & Hidx); [by left|].
    destruct (py_int _) as [bound|e] eqn:Eb.
    2: { split; [done|]. right. exists m. apply find_last_Some in Em as [Em _]. split; [done|]. by rewrite Eb. }
    destruct ((bound <? 1) || (bound <=? at_retry_index succ)) eqn:Eo; [by split; [|left]|]. cbn [raise_if].
    apply orb_false_iff in Eo as [_ Eo%Z.leb_gt].
    destruct (String.eqb_spec (at_job_id succ) (at_job_id src)); [by split; [|left]|]. cbn [raise_if].
    split; [done|]. exists src, m, succ, targets, bound. rewrite Hag in *. split_and!; try done.
    + intros x Hx [H1 H2]. assert (x ∈ [succ]) as Hn by (apply Hc; split_and!; [done|congruence|done]).
      by apply list_elem_of_singleton in Hn.
Qed.

(** ** Callback edges *)


(** What the bureau writes it reads back: valid messages, attempts, replies and edges
    are decoded from their dictionaries as they were, and a reply reference gives back the
    reply and the delivery job it was made of. *)
Theorem bureau_data_roundtrip (m : MessageRecord) (a : AttemptRecord) (r : ReplyRecord)
    (e : CallbackEdgeRecord) (reply_id : string) (delivery : option string) :
  (valid_message m → MessageRecord_from_record (message_to_record m) = Ok m) ∧
  (valid_attempt a → AttemptRecord_from_record (attempt_to_record a) = Ok a) ∧
  (valid_reply r → ReplyRecord_from_record (reply_to_record r) = Ok r) ∧
  (valid_edge e → edge_from_record (edge_to_record e) = Ok e) ∧
  (plain reply_id = true → (∀ d, delivery = Some d → plain d = true) →
   ∃ p, compose_reply_payload reply_id delivery = Ok p ∧ reply_id_from_payload (Some p) = Some reply_id ∧
     delivery_job_id_from_payload (Some p) = delivery).
Proof.
  split_and!; [apply message_roundtrip|apply attempt_roundtrip|apply reply_roundtrip|apply edge_roundtrip|].
  apply payload_parse.
Qed.

Lemma bureau_data_roundtrip_witness :
  let m := submission_message "msg_a" None BSample.envelope BSample.jobs None BSample.noon in
  MessageRecord_from_record (message_to_record m) = Ok m ∧
  reply_id_from_payload (Some "reply:rep_1 delivery:job_9") = Some "rep_1" ∧
  delivery_job_id_from_payload (Some "reply:rep_1 delivery:job_9") = Some "job_9".
Proof.
  cbv zeta. set (m := submission_message "msg_a" None BSample.envelope BSample.jobs None BSample.noon).
  set (a := pending_attempt "att_a" "msg_a" BSample.noon 0 (BSample.job "job_1" JS_QUEUED)).
  set (r := MkReply "rep_1" "msg_a" "att_a" "coder" RT_COMPLETED "ok" None [] BSample.noon).
  set (e := MkEdge "e1" "job_1" "msg_a" "boss" "job_2" "msg_b" "boss" "user" None CE_PENDING None None None
    None None BSample.noon BSample.noon []).
  destruct (bureau_data_roundtrip m a r e "rep_1" (Some "job_9")) as (H1 & _ & _ & _ & H2).
  split; [apply H1; reflexivity|].
  destruct H2 as (p & Hp & H3 & H4); [reflexivity|by intros d [= <-]|].
  assert (p = "reply:rep_1 delivery:job_9") as -> by (vm_compute in Hp; injection Hp as Hp; exact (eq_sym Hp)).
  split; [exact H3|exact H4].
Defined.
