(* ===== verification/Completion.v ===== *)
(** Reply selection, provider manifests and the two drivers of a detector:
    [lib/completion/selectors/], [profiles.py], [registry.py], [tracker.py],
    [orchestration.py], and [lib/provider_core/manifests.py], [catalog.py]. *)

From Stdlib Require Import Ascii String ZArith Lia.
From stdpp Require Import base list sets strings sorting gmap.
From S2P Require Import Prelude PyData Names Timestamps Storage MailboxModels Sha256 CompletionModels Detectors Jobs.

Local Open Scope Z_scope.

(** ** [selectors/base.py]; the three families add nothing to the base class *)

Record selector := MkSelector {
  sl_candidates : list (Z * ReplyCandidate);
  sl_sequence : Z;
}.

Definition new_selector : selector := MkSelector [] 0.

Definition ingest_candidate (c : ReplyCandidate) (s : selector) : selector :=
  MkSelector (sl_candidates s ++ [(sl_sequence s, c)]) (sl_sequence s + 1).

Definition selector_reset (s : selector) : selector := MkSelector [] (sl_sequence s).

(** [(priority or 999, -sequence)] *)
Definition candidate_key (e : Z * ReplyCandidate) : Z * Z :=
  (match rc_priority e.2 with Some p => if p =? 0 then 999 else p | None => 999 end, - e.1).

Definition key_le (a b : Z * ReplyCandidate) : Prop :=
  (candidate_key a).1 < (candidate_key b).1 ∨
  ((candidate_key a).1 = (candidate_key b).1 ∧ (candidate_key a).2 <= (candidate_key b).2).

#[export] Instance key_le_dec : RelDecision key_le.
Proof. unfold RelDecision, key_le. apply _. Defined.

Definition best_candidate (s : selector) : option ReplyCandidate :=
  match sl_candidates s with
  | [] => None
  | _ => option_map snd (hd_error (merge_sort key_le (sl_candidates s)))
  end.

Definition preview (s : selector) : string :=
  match best_candidate s with Some c => rc_text c | None => "" end.

Definition select (d : CompletionDecision) (s : selector) : result string :=
  do! raise_if (negb (cd_terminal d)) ValueError "cannot select reply before terminal decision" in
  if truthy (cd_reply d) then Ok (cd_reply d) else Ok (preview s).

(** ** [profiles.py], [manifests.py], [catalog.py] *)

Record CompletionManifest := MkManifest {
  cm_provider : string;
  cm_runtime_mode : string;
  cm_completion_family : CompletionFamily;
  cm_completion_source_kind : CompletionSourceKind;
  cm_supports_exact_completion : bool;
  cm_supports_observed_completion : bool;
  cm_supports_anchor_binding : bool;
  cm_supports_reply_stability : bool;
  cm_supports_terminal_reason : bool;
  cm_selector_family : SelectorFamily;
}.

Record CompletionProfile := MkProfile {
  pf_provider : string;
  pf_runtime_mode : RuntimeMode;
  pf_completion_family : CompletionFamily;
  pf_completion_source_kind : CompletionSourceKind;
  pf_supports_exact_completion : bool;
  pf_supports_observed_completion : bool;
  pf_supports_anchor_binding : bool;
  pf_supports_reply_stability : bool;
  pf_supports_terminal_reason : bool;
  pf_selector_family : SelectorFamily;
}.

Definition new_profile (p : CompletionProfile) : result CompletionProfile :=
  let! provider := norm_provider (pf_provider p) in
  Ok (MkProfile provider (pf_runtime_mode p) (pf_completion_family p) (pf_completion_source_kind p)
        (pf_supports_exact_completion p) (pf_supports_observed_completion p)
        (pf_supports_anchor_binding p) (pf_supports_reply_stability p)
        (pf_supports_terminal_reason p) (pf_selector_family p)).

(** The two attributes of an agent's spec that completion reads. *)
Record agent_spec := MkSpec { sp_provider : string; sp_runtime_mode : RuntimeMode }.

Definition build_completion_profile (spec : agent_spec) (m : CompletionManifest)
    : result CompletionProfile :=
  do! raise_if (negb (String.eqb (sp_provider spec) (cm_provider m))) CompletionValidationError
        "agent provider does not match manifest provider" in
  do! raise_if (negb (String.eqb (RuntimeMode_value (sp_runtime_mode spec)) (cm_runtime_mode m)))
        CompletionValidationError "agent runtime_mode does not match manifest runtime_mode" in
  new_profile
    (MkProfile (cm_provider m) (sp_runtime_mode spec) (cm_completion_family m)
       (cm_completion_source_kind m) (cm_supports_exact_completion m)
       (cm_supports_observed_completion m) (cm_supports_anchor_binding m)
       (cm_supports_reply_stability m) (cm_supports_terminal_reason m) (cm_selector_family m)).

Record ProviderManifest := MkProviderManifest {
  pm_provider : string;
  pm_supports_resume : bool;
  pm_supports_permission_auto : bool;
  pm_supports_stream_watch : bool;
  pm_supports_subagents : bool;
  pm_supports_workspace_attach : bool;
  pm_runtime_profiles : list (RuntimeMode * CompletionManifest);
}.

(** The loop of [__post_init__] over the runtime profiles. *)
Fixpoint check_profiles (provider : string) (l : list (RuntimeMode * CompletionManifest))
    : result unit :=
  match l with
  | [] => Ok tt
  | (mode, profile) :: rest =>
      do! raise_if (negb (String.eqb (cm_provider profile) provider)) ValueError
            "runtime profile provider does not match manifest provider" in
      do! raise_if (negb (String.eqb (cm_runtime_mode profile) (RuntimeMode_value mode))) ValueError
            "runtime profile mode does not match runtime key" in
      check_profiles provider rest
  end.

Definition new_provider_manifest (m : ProviderManifest) : result ProviderManifest :=
  let provider := lower (strip (pm_provider m)) in
  do! raise_if (negb (truthy provider)) ValueError "provider cannot be empty" in
  do! raise_if (bool_decide (length (pm_runtime_profiles m) = 0%nat)) ValueError
        "runtime_profiles cannot be empty" in
  do! check_profiles provider (pm_runtime_profiles m) in
  Ok (MkProviderManifest provider (pm_supports_resume m) (pm_supports_permission_auto m)
        (pm_supports_stream_watch m) (pm_supports_subagents m) (pm_supports_workspace_attach m)
        (pm_runtime_profiles m)).

Fixpoint profile_for (mode : RuntimeMode) (l : list (RuntimeMode * CompletionManifest))
    : option CompletionManifest :=
  match l with
  | [] => None
  | (k, p) :: rest => if decide (k = mode) then Some p else profile_for mode rest
  end.

Abbreviation catalog := (gmap string ProviderManifest).

Definition catalog_register (m : ProviderManifest) (c : catalog) : result catalog :=
  match c !! pm_provider m with
  | Some _ => raise ValueError (String.append "duplicate provider manifest: " (pm_provider m))
  | None => Ok (<[pm_provider m := m]> c)
  end.

Definition catalog_get (provider : string) (c : catalog) : result ProviderManifest :=
  match c !! lower (strip provider) with
  | Some m => Ok m
  | None => raise KeyError (String.append "unknown provider: " provider)
  end.

Definition resolve_completion_manifest (provider : string) (mode : RuntimeMode) (c : catalog)
    : result CompletionManifest :=
  let! m := catalog_get provider c in
  match profile_for mode (pm_runtime_profiles m) with
  | Some p => Ok p
  | None => raise ValueError "provider does not support runtime_mode"
  end.

(** ** [registry.py] *)

Definition build_detector (p : CompletionProfile) : detector :=
  new_detector (pf_completion_family p).

Definition build_selector (p : CompletionProfile) : selector := new_selector.

(** ** [tracker.py] *)

Record ActiveTracker := MkTracker {
  tr_agent_name : string;
  tr_detector : detector;
  tr_selector : selector;
  tr_started_at : string;
  tr_timeout : Z;   (** [timeout_s], in microseconds *)
}.

Record CompletionTrackerView := MkTrackerView {
  tv_job_id : string;
  tv_agent_name : string;
  tv_state : CompletionState;
  tv_decision : CompletionDecision;
}.

(** [_DISABLED_REQUEST_BINDING_TIMEOUT_S] and [_DEFAULT_REQUEST_TIMEOUT_S] *)
Definition DISABLED_REQUEST_BINDING_TIMEOUT : Z := 315360000 * 1000000.
Definition DEFAULT_REQUEST_TIMEOUT : Z := 3600 * 1000000.

Record tconfig := TConfig {
  tc_agents : gmap string agent_spec;
  tc_catalog : catalog;
  tc_request_timeout : Z;
}.

(** [_trackers]: a dictionary in insertion order. *)
Abbreviation trackers := (list (string * ActiveTracker)).
Abbreviation TM := (M trackers).

Fixpoint tracker_get (job_id : string) (l : trackers) : option ActiveTracker :=
  match l with
  | [] => None
  | (k, t) :: l' => if String.eqb job_id k then Some t else tracker_get job_id l'
  end.

Fixpoint tracker_set (job_id : string) (t : ActiveTracker) (l : trackers) : trackers :=
  match l with
  | [] => [(job_id, t)]
  | (k, u) :: l' => if String.eqb job_id k then (k, t) :: l' else (k, u) :: tracker_set job_id t l'
  end.

Fixpoint tracker_pop (job_id : string) (l : trackers) : trackers :=
  match l with
  | [] => []
  | (k, u) :: l' => if String.eqb job_id k then l' else (k, u) :: tracker_pop job_id l'
  end.

Definition require_tracker (job_id : string) : TM ActiveTracker :=
  let* t := mget (tracker_get job_id) in
  match t with
  | Some t => mret' t
  | None => mraise KeyError (String.append "unknown completion tracker: " job_id)
  end.

(** Run a method of the tracker's detector in place: the detector object keeps what it
    reached, also when the method raises. *)
Definition with_detector {A} (job_id : string) (m : M detector A) : TM A :=
  λ l, match tracker_get job_id l with
       | None => (l, raise KeyError job_id)
       | Some t =>
           let '(d, r) := m (tr_detector t) in
           (tracker_set job_id
              (MkTracker (tr_agent_name t) d (tr_selector t) (tr_started_at t) (tr_timeout t)) l, r)
       end.

Definition set_selector (job_id : string) (f : selector → selector) : TM unit :=
  λ l, match tracker_get job_id l with
       | None => (l, raise KeyError job_id)
       | Some t =>
           (tracker_set job_id (MkTracker (tr_agent_name t) (tr_detector t) (f (tr_selector t))
                                  (tr_started_at t) (tr_timeout t)) l, Ok tt)
       end.

(** The view [current] gives of a tracker. *)
Definition tracker_view (job_id : string) (t : ActiveTracker) : result CompletionTrackerView :=
  let decision := dt_decision (tr_detector t) in
  let! reply := if cd_terminal decision then select decision (tr_selector t)
                else Ok (preview (tr_selector t)) in
  let! decision := if truthy reply && negb (truthy (cd_reply decision))
                   then with_reply decision reply else Ok decision in
  Ok (MkTrackerView job_id (tr_agent_name t) (dt_state (tr_detector t)) decision).

Definition current (job_id : string) : TM (option CompletionTrackerView) :=
  let* t := mget (tracker_get job_id) in
  match t with
  | None => mret' None
  | Some t => let* v := mlift (tracker_view job_id t) in mret' (Some v)
  end.

Definition current_required (job_id : string) : TM CompletionTrackerView :=
  let* v := current job_id in
  match v with Some v => mret' v | None => mraise AssertionError "" end.

Section tracker.
  Context (cfg : tconfig).

Definition tracker_start (job : JobRecord) (started_at : string) : TM (option CompletionTrackerView) :=
  let* spec := mlift (match tc_agents cfg !! jr_agent_name job with
                      | Some s => Ok s
                      | None => raise KeyError (jr_agent_name job)
                      end) in
  let* manifest := mlift (resolve_completion_manifest (sp_provider spec) (sp_runtime_mode spec)
                            (tc_catalog cfg)) in
  let* profile := mlift (build_completion_profile spec manifest) in
  let binding_timeout :=
    if 0 <? tc_request_timeout cfg then tc_request_timeout cfg else DISABLED_REQUEST_BINDING_TIMEOUT in
  let* ctx := mlift (new_request (MkRequest (jr_job_id job) (jr_agent_name job) (jr_provider job)
                                    binding_timeout None 500000)) in
  let* cursor := mlift (new_cursor (MkCursor (pf_completion_source_kind profile) None None None None
                                      (Some 0) (Some started_at))) in
  let detector := (bind ctx cursor (build_detector profile)).1 in
  do* mmod (tracker_set (jr_job_id job)
              (MkTracker (jr_agent_name job) detector (build_selector profile) started_at
                 (tc_request_timeout cfg))) in
  current (jr_job_id job).

Definition tracker_ingest (job_id : string) (item : CompletionItem) : TM CompletionTrackerView :=
  do* require_tracker job_id in
  do* (if bool_decide (ci_kind item = SESSION_ROTATE) then set_selector job_id selector_reset
       else mret' tt) in
  let* candidates := mlift (reply_candidates_from_item item) in
  do* set_selector job_id (λ s, foldl (λ s c, ingest_candidate c s) s candidates) in
  do* with_detector job_id (ingest item) in
  current_required job_id.

(** [_maybe_finalize_timeout]: an unreadable time finalizes nothing. *)
Definition maybe_finalize_timeout (job_id now : string) : TM unit :=
  let* t := require_tracker job_id in
  if tr_timeout t <=? 0 then mret' tt
  else if cd_terminal (dt_decision (tr_detector t)) then mret' tt
  else
    match seconds_between (tr_started_at t) now with
    | Err _ => mret' tt
    | Ok elapsed =>
        if elapsed <? tr_timeout t then mret' tt
        else with_detector job_id
               (finalize_timeout now (st_latest_cursor (dt_state (tr_detector t))))
    end.

Definition tracker_tick (job_id now : string) : TM CompletionTrackerView :=
  let* t := require_tracker job_id in
  do* with_detector job_id (tick now (st_latest_cursor (dt_state (tr_detector t)))) in
  do* maybe_finalize_timeout job_id now in
  current_required job_id.

Fixpoint tick_each (job_ids : list string) (now : string) : TM (list CompletionTrackerView) :=
  match job_ids with
  | [] => mret' []
  | j :: rest =>
      let* v := tracker_tick j now in
      let* vs := tick_each rest now in
      mret' (v :: vs)
  end.

Definition tick_all (now : string) : TM (list CompletionTrackerView) :=
  let* ids := mget (map fst) in tick_each ids now.

Definition tracker_finish (job_id : string) : TM unit := mmod (tracker_pop job_id).
End tracker.

(** ** [orchestration.py]

    The source and the clocks are outside: [poll] and the successive readings of
    [time.monotonic] and of [now_factory]. *)

Record ostate {S} := OState {
  os_source : S;
  os_monotonic : nat;   (** readings of [time.monotonic] so far *)
  os_now : nat;         (** readings of [now_factory] so far *)
  os_detector : detector;
  os_selector : selector;
}.
Arguments ostate S : clear implicits.

Section orchestrator.
Context {S : Type}.
Context (capture_baseline : S → S * CompletionCursor).
Context (poll : CompletionCursor → Z → S → S * option CompletionItem).
Context (monotonic : nat → Z) (now_factory : nat → string).

Definition o_detector {A} (m : M detector A) : M (ostate S) A :=
  λ s, let '(d, r) := m (os_detector s) in
       (OState S (os_source s) (os_monotonic s) (os_now s) d (os_selector s), r).

Definition o_monotonic : M (ostate S) Z :=
  λ s, (OState S (os_source s) (Datatypes.S (os_monotonic s)) (os_now s) (os_detector s) (os_selector s),
        Ok (monotonic (os_monotonic s))).

Definition o_now : M (ostate S) string :=
  λ s, (OState S (os_source s) (os_monotonic s) (Datatypes.S (os_now s)) (os_detector s) (os_selector s),
        Ok (now_factory (os_now s))).

Definition o_poll (cursor : CompletionCursor) (timeout : Z) : M (ostate S) (option CompletionItem) :=
  λ s, let '(src, item) := poll cursor timeout (os_source s) in
       (OState S src (os_monotonic s) (os_now s) (os_detector s) (os_selector s), Ok item).

Definition o_select (f : selector → selector) : M (ostate S) unit :=
  mmod (λ s, OState S (os_source s) (os_monotonic s) (os_now s) (os_detector s) (f (os_selector s))).

Definition o_finalize (decision : CompletionDecision) : M (ostate S) CompletionDecision :=
  if negb (cd_terminal decision) then mret' decision
  else
    let* sel := mget os_selector in
    let* reply := mlift (select decision sel) in
    if truthy reply && negb (truthy (cd_reply decision)) then mlift (with_reply decision reply)
    else mret' decision.

(** What follows the loop. *)
Definition o_timeout (cursor : CompletionCursor) : M (ostate S) CompletionDecision :=
  let* now := o_now in
  do* o_detector (finalize_timeout now (Some cursor)) in
  let* d := mget os_detector in
  o_finalize (dt_decision d).

(** The loop, one round per unit of fuel; [None] when the fuel is out. *)
Fixpoint o_loop (fuel : nat) (ctx : CompletionRequestContext) (deadline : Z)
    (cursor : CompletionCursor) : M (ostate S) (option CompletionDecision) :=
  match fuel with
  | O => mret' None
  | Datatypes.S fuel =>
      let* t := o_monotonic in
      let remaining := deadline - t in
      if remaining <=? 0 then let* d := o_timeout cursor in mret' (Some d)
      else
        let* item := o_poll cursor (Z.min (rq_poll_interval ctx) remaining) in
        match item with
        | None =>
            let* now := o_now in
            do* o_detector (tick now (Some cursor)) in
            let* d := mget os_detector in
            if cd_terminal (dt_decision d)
            then let* r := o_finalize (dt_decision d) in mret' (Some r)
            else o_loop fuel ctx deadline cursor
        | Some item =>
            let* candidates := mlift (reply_candidates_from_item item) in
            do* o_select (λ s, foldl (λ s c, ingest_candidate c s) s candidates) in
            do* o_detector (ingest item) in
            let* d := mget os_detector in
            if cd_terminal (dt_decision d)
            then let* r := o_finalize (dt_decision d) in mret' (Some r)
            else o_loop fuel ctx deadline (ci_cursor item)
        end
  end.

Definition o_run (fuel : nat) (ctx : CompletionRequestContext)
    : M (ostate S) (option CompletionDecision) :=
  let* baseline := (λ s, let '(src, c) := capture_baseline (os_source s) in
                         (OState S src (os_monotonic s) (os_now s) (os_detector s) (os_selector s),
                          Ok c)) in
  do* o_detector (bind ctx baseline) in
  let* t := o_monotonic in
  o_loop fuel ctx (t + rq_timeout ctx) baseline.
End orchestrator.
