(* ===== verification/CompletionLemmas.v ===== *)
(** Lemmas on the selectors, the catalog, the tracker and the orchestrator. *)

From Stdlib Require Import Ascii String ZArith Lia.
From stdpp Require Import base list sets strings sorting gmap.
From S2P Require Import Prelude PyData Names Timestamps Storage MailboxModels Sha256 CompletionModels Detectors DetectorLemmas Jobs Completion.

Local Open Scope Z_scope.

(** *** Selection *)

#[export] Instance key_le_total : Total key_le.
Proof. intros a b. unfold key_le. lia. Qed.

#[export] Instance key_le_trans : Transitive key_le.
Proof. intros a b c. unfold key_le. lia. Qed.

(** The candidate chosen is a least one. *)
Lemma best_candidate_least s c :
  best_candidate s = Some c →
  ∃ n, (n, c) ∈ sl_candidates s ∧ ∀ e, e ∈ sl_candidates s → key_le (n, c) e.
Proof.
  unfold best_candidate. intros H.
  assert (hd_error (merge_sort key_le (sl_candidates s)) <> None → True) as _ by done.
  assert (option_map snd (hd_error (merge_sort key_le (sl_candidates s))) = Some c) as H'.
  { by destruct (sl_candidates s). }
  clear H. pose proof (merge_sort_Permutation key_le (sl_candidates s)) as Hp.
  pose proof (StronglySorted_merge_sort key_le (sl_candidates s)) as Hs.
  destruct (merge_sort key_le (sl_candidates s)) as [|[n c'] l]; [done|].
  simpl in H'. injection H' as ->. exists n. split; [rewrite <-Hp; by left|].
  intros e He. rewrite <-Hp in He. apply elem_of_cons in He as [->|He].
  - unfold key_le. lia.
  - apply StronglySorted_inv in Hs as [_ Hs]. rewrite Forall_forall in Hs. by apply Hs.
Qed.

Lemma best_candidate_some s : sl_candidates s ≠ [] → is_Some (best_candidate s).
Proof.
  unfold best_candidate. intros H. pose proof (merge_sort_Permutation key_le (sl_candidates s)) as Hp.
  destruct (sl_candidates s) as [|e l] eqn:E; [done|].
  destruct (merge_sort key_le (e :: l)) as [|x l']; [by apply Permutation_nil_cons in Hp|].
  simpl. eauto.
Qed.

Lemma with_reply_ok d reply :
  valid_decision d → ∃ d', with_reply d reply = Ok d' ∧ cd_terminal d' = cd_terminal d ∧
    cd_status d' = cd_status d ∧ cd_reason d' = cd_reason d ∧ cd_finished_at d' = cd_finished_at d ∧
    cd_reply d' = (if truthy reply then reply else cd_reply d) ∧ valid_decision d'.
Proof.
  intros Hd. unfold with_reply. match goal with |- context [new_decision ?x] => set (d' := x) end.
  assert (valid_decision d') as Hd' by exact Hd.
  exists d'. by rewrite (new_decision_valid d' Hd').
Qed.

(** *** Manifests *)

Lemma check_profiles_ok provider l :
  check_profiles provider l = Ok tt →
  ∀ mode p, profile_for mode l = Some p →
    cm_provider p = provider ∧ cm_runtime_mode p = RuntimeMode_value mode.
Proof.
  induction l as [|[k q] l IH]; simpl; [done|]. intros H. inv_guards H. intros mode p Hp.
  apply negb_false_iff, String.eqb_eq in G, G0. destruct (decide (k = mode)) as [->|]; [|by apply IH].
  by injection Hp as ->.
Qed.

(** Every manifest of the catalog went through its constructor, under its own name. *)
Definition catalog_ok (c : catalog) : Prop :=
  ∀ k m, c !! k = Some m → pm_provider m = k ∧ lower (strip k) = k ∧ truthy k = true ∧
    check_profiles k (pm_runtime_profiles m) = Ok tt.

Lemma new_provider_manifest_ok m m' :
  new_provider_manifest m = Ok m' →
  lower (strip (pm_provider m')) = pm_provider m' ∧ truthy (pm_provider m') = true ∧
  check_profiles (pm_provider m') (pm_runtime_profiles m') = Ok tt.
Proof.
  unfold new_provider_manifest. intros H. inv_guards H.
  apply result_bind_Ok in H as ([] & Hc & [= <-]). simpl. apply negb_false_iff in G.
  split_and!; [|done|done]. rewrite strip_lower, strip_idemp. apply lower_idemp.
Qed.

Lemma catalog_register_ok m m' c c' :
  catalog_ok c → new_provider_manifest m = Ok m' → catalog_register m' c = Ok c' → catalog_ok c'.
Proof.
  intros Hc Hm. unfold catalog_register. case_match; [done|]. intros [= <-] k x Hk.
  apply new_provider_manifest_ok in Hm as (H1 & H2 & H3).
  destruct (decide (k = pm_provider m')) as [->|Hne].
  - rewrite lookup_insert_eq in Hk. by injection Hk as <-.
  - rewrite lookup_insert_ne in Hk by done. by apply Hc.
Qed.

Lemma resolve_matches c provider mode p :
  catalog_ok c → resolve_completion_manifest provider mode c = Ok p →
  cm_provider p = lower (strip provider) ∧ cm_runtime_mode p = RuntimeMode_value mode ∧
  truthy (lower (strip provider)) = true.
Proof.
  intros Hc. unfold resolve_completion_manifest, catalog_get.
  destruct (c !! lower (strip provider)) as [m|] eqn:E; [|done]. simpl.
  destruct (profile_for mode (pm_runtime_profiles m)) as [q|] eqn:Eq; [|done]. intros [= <-].
  destruct (Hc _ _ E) as (_ & _ & Ht & Hp). by destruct (check_profiles_ok _ _ Hp _ _ Eq).
Qed.

Lemma profile_builds c spec p :
  catalog_ok c → lower (strip (sp_provider spec)) = sp_provider spec →
  resolve_completion_manifest (sp_provider spec) (sp_runtime_mode spec) c = Ok p →
  ∃ pf, build_completion_profile spec p = Ok pf ∧ pf_provider pf = sp_provider spec ∧
    pf_runtime_mode pf = sp_runtime_mode spec ∧
    pf_completion_family pf = cm_completion_family p.
Proof.
  intros Hc Hn Hr. destruct (resolve_matches c _ _ p Hc Hr) as (Hp & Hm & Ht).
  unfold build_completion_profile, new_profile, norm_provider. rewrite Hp, Hm, Hn, !String.eqb_refl. simpl.
  rewrite Hn in Ht. rewrite ?Hn, Ht. simpl. eexists. by split_and!.
Qed.

(** *** Ticks keep the binding *)

Lemma tick_binding now c d :
  wp (tick now c) (λ _ d', same_binding d d') (λ _ d', same_binding d d') d.
Proof.
  unfold tick. apply wp_bind, wp_get.
  assert (wp (base_tick now c) (λ _ d', same_binding d d') (λ _ d', same_binding d d') d) as Hb
    by by destruct c.
  destruct (dt_family d); try exact Hb. unfold AnchoredStability.tick. apply wp_bind.
  eapply wp_mono; [exact Hb| |done]. intros [] d1 H1. apply wp_bind, wp_get.
  assert (∀ m, settles m → wp m (λ _ d', same_binding d d') (λ _ d', same_binding d d') d1) as Hset.
  { intros m Hm. eapply wp_mono; [apply Hm| |done]. intros [] d2 [(H2 & H3 & H4) _].
    destruct H1 as (H5 & H6 & H7). split_and!; congruence. }
  destruct (cd_terminal _); [by apply wp_ret|]. destruct (st_stable_since _); [|by apply wp_ret].
  destruct (negb _); [by apply wp_ret|]. destruct (st_tool_active _); [apply Hset, settles_set_pending|].
  apply wp_bind, wp_lift. destruct (seconds_between _ _) as [e|e]; [|done].
  destruct (_ <=? _); [|apply Hset, settles_set_pending].
  apply Hset. apply settles_bind; eauto with det.
Qed.

Lemma same_binding_bound d d' : same_binding d d' → bound d → bound d'.
Proof. intros (_ & _ & H). unfold bound. by rewrite H. Qed.

(** *** The orchestrator *)

Section orchestrator.
Context {S : Type} (poll : CompletionCursor → Z → S → S * option CompletionItem)
  (monotonic : nat → Z) (now_factory : nat → string).
Implicit Types (s : ostate S).

(** A detector in use: bound, with a valid decision. *)
Definition in_use (d : detector) : Prop := bound d ∧ valid_decision (dt_decision d).

Lemma tick_in_use now c d d' :
  in_use d → tick now c d = (d', Ok tt) → in_use d'.
Proof.
  intros [Hb Hv] Ht. split.
  - eapply same_binding_bound; [|exact Hb]. pose proof (tick_binding now c d) as H.
    unfold wp in H. by rewrite Ht in H.
  - revert Ht. unfold tick. rewrite (mbind_ok (mget dt_family) _ d d _ eq_refl).
    destruct (dt_family d); try (unfold base_tick; destruct c; by intros [= <-]).
    assert (∀ m d1, settles m → m d1 = (d', Ok tt) → valid_decision (dt_decision d')) as Hset.
    { intros m d1 Hm E. specialize (Hm d1). unfold wp in Hm. rewrite E in Hm. by destruct Hm as (_ & ? & _). }
    unfold AnchoredStability.tick, base_tick.
    assert (sync_cursor c d = (with_cursor c d, Ok tt)) as Hc by by destruct c.
    rewrite (mbind_ok _ _ _ _ _ Hc).
    assert (dt_decision (with_cursor c d) = dt_decision d) as Hd by by destruct c.
    revert Hd. generalize (with_cursor c d). intros d1 Hd.
    rewrite (mbind_ok (mget (λ d, d)) _ d1 d1 d1 eq_refl). cbv zeta.
    assert (mret' tt d1 = (d', Ok tt) → valid_decision (dt_decision d')) as Hret.
    { intros [= <-]. by rewrite Hd. }
    destruct (cd_terminal _); [done|]. destruct (st_stable_since _); [|done].
    destruct (negb _); [done|]. destruct (st_tool_active _); [apply Hset, settles_set_pending|].
    unfold mlift. unfold mbind' at 1. destruct (seconds_between _ _) as [e|e]; [|done].
    destruct (_ <=? _); [|apply Hset, settles_set_pending].
    apply Hset, settles_bind; eauto with det.
Qed.

Lemma ingest_in_use i d d' : in_use d → ingest i d = (d', Ok tt) → in_use d'.
Proof.
  intros [Hb _] Hi. pose proof (ingest_settles i d Hb) as H. unfold wp in H. rewrite Hi in H.
  destruct H as (H1 & H2 & _). split; [by eapply same_binding_bound|done].
Qed.

(** [_finalize] of a terminal decision gives it back, with a reply. *)
Lemma o_finalize_terminal d s :
  valid_decision d → cd_terminal d = true →
  ∃ d', o_finalize d s = (s, Ok d') ∧ cd_terminal d' = true ∧ cd_status d' = cd_status d.
Proof.
  intros Hv Ht. unfold o_finalize. rewrite Ht. cbn [negb].
  rewrite (mbind_ok (mget os_selector) _ s s _ eq_refl). unfold select. rewrite Ht. cbn [negb raise_if result_bind].
  set (reply := if truthy (cd_reply d) then cd_reply d else preview (os_selector s)).
  assert (mlift (if truthy (cd_reply d) then Ok (cd_reply d) else Ok (preview (os_selector s))) s
    = (s, Ok reply)) as Hr by (unfold mlift, reply; by destruct (truthy _)).
  rewrite (mbind_ok _ _ _ _ _ Hr). destruct (_ && _).
  - destruct (with_reply_ok d reply Hv) as (d' & Hd & H1 & H2 & _). exists d'.
    unfold mlift. rewrite Hd. split_and!; [done|congruence|done].
  - by exists d.
Qed.

Lemma o_timeout_terminal cursor s :
  in_use (os_detector s) →
  ∃ s' d, o_timeout now_factory cursor s = (s', Ok d) ∧ cd_terminal d = true.
Proof.
  intros [Hb Hv]. unfold o_timeout.
  set (s1 := OState S (os_source s) (os_monotonic s) (Datatypes.S (os_now s)) (os_detector s) (os_selector s)).
  rewrite (mbind_ok (o_now now_factory) _ s s1 _ eq_refl).
  set (now := now_factory (os_now s)).
  assert (∃ d', finalize_timeout now (Some cursor) (os_detector s) = (d', Ok tt) ∧
    cd_terminal (dt_decision d') = true ∧ valid_decision (dt_decision d')) as (d' & Hf & Ht & Hv').
  { destruct (cd_terminal (dt_decision (os_detector s))) eqn:E.
    - exists (os_detector s). split_and!; [by apply finalize_terminal|done|done].
    - destruct (finalize_ends now (Some cursor) _ Hb E) as (d' & H1 & _ & H2 & _ & _ & _ & H3).
      by exists d'. }
  set (s2 := OState S (os_source s1) (os_monotonic s1) (os_now s1) d' (os_selector s1)).
  assert (o_detector (finalize_timeout now (Some cursor)) s1 = (s2, Ok tt)) as Hs2.
  { unfold o_detector. cbn [os_detector s1]. by rewrite Hf. }
  rewrite (mbind_ok _ _ _ _ _ Hs2). rewrite (mbind_ok (mget os_detector) _ s2 s2 _ eq_refl).
  destruct (o_finalize_terminal (dt_decision d') s2 Hv' Ht) as (d & Hd & Hdt & _).
  exists s2, d. by split.
Qed.

(** Until the deadline is read, at most [n] more rounds: the loop ends, and when it ends
    normally the decision is terminal. *)
Lemma o_loop_ends fuel n ctx deadline cursor s :
  (n < fuel)%nat → in_use (os_detector s) → deadline <= monotonic (os_monotonic s + n) →
  match (o_loop poll monotonic now_factory fuel ctx deadline cursor s).2 with
  | Ok None => False
  | Ok (Some d) => cd_terminal d = true
  | Err _ => True
  end.
Proof.
  revert n cursor s. induction fuel as [|fuel IH]; intros n cursor s Hn Hd Hdl; [lia|].
  cbn [o_loop].
  set (s1 := OState S (os_source s) (Datatypes.S (os_monotonic s)) (os_now s) (os_detector s) (os_selector s)).
  rewrite (mbind_ok (o_monotonic monotonic) _ s s1 _ eq_refl).
  destruct (Z.leb_spec (deadline - monotonic (os_monotonic s)) 0) as [Hend|Hgo].
  { destruct (o_timeout_terminal cursor s1 Hd) as (s' & d & H1 & H2).
    by rewrite (mbind_ok _ _ _ _ _ H1). }
  destruct n as [|n]; [rewrite Nat.add_0_r in Hdl; lia|].
  unfold o_poll at 1. unfold mbind' at 1. cbn [os_source s1].
  destruct (poll cursor _ (os_source s)) as [src [item|]].
  - set (s2 := OState S src _ _ _ _). unfold mlift. unfold mbind' at 1.
    destruct (reply_candidates_from_item item) as [cs|e]; [|done].
    unfold o_select, mmod. unfold mbind' at 1. set (s3 := OState S _ _ _ _ _).
    unfold o_detector at 1. unfold mbind' at 1.
    destruct (ingest item (os_detector s3)) as [d' [[]|e]] eqn:Ei; [|done].
    pose proof (ingest_in_use _ _ _ Hd Ei) as Hd'. set (s4 := OState S _ _ _ _ _).
    rewrite (mbind_ok (mget os_detector) _ s4 s4 _ eq_refl). cbn [os_detector s4].
    destruct (cd_terminal (dt_decision d')) eqn:Et.
    + destruct (o_finalize_terminal (dt_decision d') s4 (proj2 Hd') Et) as (d & H1 & H2 & _).
      by rewrite (mbind_ok _ _ _ _ _ H1).
    + apply (IH n); [lia|done|]. simpl. by rewrite Nat.add_succ_r in Hdl.
  - set (s2 := OState S src _ _ _ _).
    set (s3 := OState S src (os_monotonic s2) (Datatypes.S (os_now s2)) (os_detector s2) (os_selector s2)).
    rewrite (mbind_ok (o_now now_factory) _ s2 s3 _ eq_refl).
    unfold o_detector at 1. unfold mbind' at 1.
    destruct (tick _ _ (os_detector s3)) as [d' [[]|e]] eqn:Ei; [|done].
    pose proof (tick_in_use _ _ _ _ Hd Ei) as Hd'. set (s4 := OState S _ _ _ _ _).
    rewrite (mbind_ok (mget os_detector) _ s4 s4 _ eq_refl). cbn [os_detector s4].
    destruct (cd_terminal (dt_decision d')) eqn:Et.
    + destruct (o_finalize_terminal (dt_decision d') s4 (proj2 Hd') Et) as (d & H1 & H2 & _).
      by rewrite (mbind_ok _ _ _ _ _ H1).
    + apply (IH n); [lia|done|]. simpl. by rewrite Nat.add_succ_r in Hdl.
Qed.
End orchestrator.

(** *** The tracker *)

Lemma tracker_get_set job t l : tracker_get job (tracker_set job t l) = Some t.
Proof.
  induction l as [|[k u] l IH]; simpl; [by rewrite String.eqb_refl|].
  destruct (String.eqb job k) eqn:E; simpl; by rewrite E.
Qed.

Lemma require_run job t l : tracker_get job l = Some t → require_tracker job l = (l, Ok t).
Proof. intros H. unfold require_tracker, mbind', mget. by rewrite H. Qed.

Definition tracker_with (t : ActiveTracker) (d : detector) : ActiveTracker :=
  MkTracker (tr_agent_name t) d (tr_selector t) (tr_started_at t) (tr_timeout t).

Lemma with_detector_run {A} job t l (m : M detector A) d v :
  tracker_get job l = Some t → m (tr_detector t) = (d, Ok v) →
  with_detector job m l = (tracker_set job (tracker_with t d) l, Ok v).
Proof. intros H Hm. unfold with_detector. by rewrite H, Hm. Qed.

Lemma current_terminal job t l :
  tracker_get job l = Some t → valid_decision (dt_decision (tr_detector t)) →
  cd_terminal (dt_decision (tr_detector t)) = true →
  ∃ v, current_required job l = (l, Ok v) ∧ cd_terminal (tv_decision v) = true ∧
    cd_status (tv_decision v) = cd_status (dt_decision (tr_detector t)).
Proof.
  intros Hg Hv Ht. unfold current_required, current.
  unfold mbind' at 1 2. cbn [mget]. unfold mget. rewrite Hg.
  unfold tracker_view. rewrite Ht. unfold select. rewrite Ht. cbn [negb raise_if result_bind].
  set (d := dt_decision (tr_detector t)) in *.
  set (reply := if truthy (cd_reply d) then cd_reply d else preview (tr_selector t)).
  assert ((if truthy (cd_reply d) then Ok (cd_reply d) else Ok (preview (tr_selector t))) = Ok reply)
    as -> by (unfold reply; by destruct (truthy _)).
  cbn [result_bind]. destruct (with_reply_ok d reply Hv) as (d' & Hd & H1 & H2 & _).
  unfold mbind', mlift. destruct (_ && _); rewrite ?Hd; cbn [result_bind]; eexists; split_and!; try done;
    simpl; congruence.
Qed.

(** When the time is up, a tick ends the job. *)
Lemma tracker_tick_times_out job now t l d1 elapsed :
  tracker_get job l = Some t → in_use (tr_detector t) →
  0 < tr_timeout t → seconds_between (tr_started_at t) now = Ok elapsed → tr_timeout t <= elapsed →
  tick now (st_latest_cursor (dt_state (tr_detector t))) (tr_detector t) = (d1, Ok tt) →
  ∃ l' v, tracker_tick job now l = (l', Ok v) ∧ cd_terminal (tv_decision v) = true.
Proof.
  intros Hg Hd Hpos He Hel Ht. pose proof (tick_in_use _ _ _ _ Hd Ht) as [Hb1 Hv1].
  unfold tracker_tick. rewrite (mbind_ok _ _ _ _ _ (require_run _ _ _ Hg)).
  rewrite (mbind_ok _ _ _ _ _ (with_detector_run _ _ _ _ _ _ Hg Ht)).
  set (t1 := tracker_with t d1). set (l1 := tracker_set job t1 l).
  assert (tracker_get job l1 = Some t1) as Hg1 by apply tracker_get_set.
  assert (∃ l2 t2, maybe_finalize_timeout job now l1 = (l2, Ok tt) ∧ tracker_get job l2 = Some t2 ∧
    valid_decision (dt_decision (tr_detector t2)) ∧ cd_terminal (dt_decision (tr_detector t2)) = true)
    as (l2 & t2 & Hm & Hg2 & Hv2 & Ht2).
  { unfold maybe_finalize_timeout. rewrite (mbind_ok _ _ _ _ _ (require_run _ _ _ Hg1)).
    cbn [tr_timeout tr_detector tr_started_at t1 tracker_with].
    destruct (Z.leb_spec (tr_timeout t) 0); [lia|].
    destruct (cd_terminal (dt_decision d1)) eqn:Et; [by exists l1, t1|].
    rewrite He. destruct (Z.ltb_spec elapsed (tr_timeout t)); [lia|].
    destruct (finalize_ends now (st_latest_cursor (dt_state d1)) d1 Hb1 Et)
      as (d2 & Hf & _ & Hft & _ & _ & _ & Hfv).
    exists (tracker_set job (tracker_with t1 d2) l1), (tracker_with t1 d2).
    split_and!; [by eapply with_detector_run|apply tracker_get_set|done|done]. }
  rewrite (mbind_ok _ _ _ _ _ Hm).
  destruct (current_terminal job t2 l2 Hg2 Hv2 Ht2) as (v & Hc & Hv & _). by exists l2, v.
Qed.
