(* ===== verification/CompletionProps.v ===== *)
(** The properties of completion detection. *)

From Stdlib Require Import Ascii String ZArith Lia.
From stdpp Require Import base list sets strings sorting gmap.
From S2P Require Import Prelude PyData Names Timestamps Storage MailboxModels Sha256 CompletionModels Detectors DetectorLemmas Jobs Completion CompletionLemmas.

Local Open Scope Z_scope.

Module CSample.
Definition cursor : CompletionCursor := MkCursor SRC_SESSION_SNAPSHOT None None None None (Some 0) None.
Definition ctx : CompletionRequestContext := MkRequest "job_1" "coder" "gemini" 3600000000 None 500000.
Definition anchored : detector := (bind ctx cursor (new_detector ANCHORED_SESSION_STABILITY)).1.
Definition turn : detector := (bind ctx cursor (new_detector PROTOCOL_TURN)).1.
Definition item (kind : CompletionItemKind) (at_ : string) (payload : pydict) : CompletionItem :=
  MkItem kind at_ cursor "gemini" "coder" "job_1" payload.
Definition boundary : CompletionItem := item TURN_BOUNDARY "2024-05-01T12:00:00Z" [].
Definition snapshot : CompletionItem :=
  item SESSION_SNAPSHOT "2024-05-01T12:00:00Z" [("reply", VStr "done")].
Definition replied : detector := (ingest snapshot anchored).1.
End CSample.



(** A turn boundary reports success only with a reply: on a boundary item the
    protocol-turn and session-boundary detectors end in [completed] exactly when the item
    carries a reply, or one was recorded earlier (and, for protocol turns, the item does
    not say the final message is empty); otherwise they end in [incomplete] with reason
    [task_complete_empty_reply] and no reply text. *)
Theorem boundary_completes_iff_reply (d d' : detector) (item : CompletionItem) :
  bound d → dt_family d = PROTOCOL_TURN ∨ dt_family d = SESSION_BOUNDARY →
  ci_kind item = TURN_BOUNDARY → ingest item d = (d', Ok tt) →
  let reply := payload_or item
    (if bool_decide (dt_family d = PROTOCOL_TURN)
     then ["last_agent_message"; "final_answer"; "reply"; "text"]
     else ["last_agent_message"; "reply"; "text"]) "" in
  let said_empty := bool_decide (dt_family d = PROTOCOL_TURN) &&
                    py_truthy (dget (ci_payload item) "empty_final_message") in
  let replied := truthy reply || (st_reply_started (dt_state d) && negb said_empty) in
  cd_terminal (dt_decision d') = true ∧ cd_reply (dt_decision d') = (if replied then reply else "") ∧
  cd_status (dt_decision d') = (if replied then CS_COMPLETED else CS_INCOMPLETE) ∧
  (replied = false → cd_reason (dt_decision d') = Some "task_complete_empty_reply").
Proof.
  destruct d as [fam w ctx st dec]. intros [c Hc] Hfam Hk. simpl in Hc, Hfam. subst ctx.
  assert (st_reply_started (common_item_state item st) = st_reply_started st) as Hst.
  { pose proof (common_item_view item st) as H. rewrite Hk in H. by injection H. }
  destruct Hfam as [-> | ->]; unfold ingest, ProtocolTurn.ingest, SessionBoundary.ingest,
    ProtocolTurn.complete_from_boundary; rewrite Hk; unfold consume_common_item, require_bound,
    set_state, record_reply, set_terminal, set_decision, set_state, mlift, mbind', mget, mmod, mret'; simpl; cbv zeta;
    match goal with |- context [truthy ?r] => destruct (truthy r) eqn:Hr end; simpl.
  - destruct (truthy (strip _)); simpl; intros [= <-]; by rewrite ?Hr.
  - rewrite Hst. destruct (py_truthy _), (st_reply_started st); simpl; intros [= <-]; by rewrite ?Hr.
  - destruct (truthy (strip _)); simpl; intros [= <-]; by rewrite ?Hr.
  - rewrite Hst. destruct (st_reply_started st); simpl; intros [= <-]; by rewrite ?Hr.
Qed.

Lemma boundary_completes_iff_reply_witness :
  cd_status (dt_decision (ingest CSample.boundary CSample.turn).1) = CS_INCOMPLETE.
Proof.
  destruct (boundary_completes_iff_reply CSample.turn (ingest CSample.boundary CSample.turn).1
    CSample.boundary) as (_ & _ & H & _); [by eexists|by left|reflexivity|reflexivity|].
  exact H.
Defined.

(** C10: a bound detector takes every item: [ingest] ends normally, for all five families,
    in a decision that satisfies the record's own validation, mirrors the detector's state,
    and is terminal only when the state is; the binding is untouched. *)
Theorem ingest_total_and_valid (d : detector) (item : CompletionItem) :
  is_Some (dt_request_ctx d) →
  ∃ d', ingest item d = (d', Ok tt) ∧ valid_decision (dt_decision d') ∧ coherent d' ∧
    (cd_terminal (dt_decision d') = true → st_terminal (dt_state d') = true) ∧
    dt_family d' = dt_family d ∧ dt_request_ctx d' = dt_request_ctx d.
Proof.
  intros Hb. pose proof (ingest_settles item d Hb) as H. unfold wp in H.
  destruct (ingest item d) as [d' [[]|e]]; [|done].
  destruct H as ((H1 & H2 & H3) & H4 & H5 & H6). by exists d'.
Qed.

Lemma ingest_total_and_valid_witness :
  ∃ d', ingest CSample.snapshot CSample.anchored = (d', Ok tt) ∧ valid_decision (dt_decision d').
Proof.
  destruct (ingest_total_and_valid CSample.anchored CSample.snapshot) as (d' & H1 & H2 & _);
    [by eexists|]. exists d'. split; [exact H1|exact H2].
Defined.

(** a timeout settles a bound detector: a terminal decision is left as it is, any
    other becomes terminal at [now] with degraded confidence, as [incomplete], save that
    the terminal-text detector takes quiet after a reply as [completed]. *)
Lemma finalize_timeout_settles (d : detector) (now : string) (c : option CompletionCursor) :
  is_Some (dt_request_ctx d) →
  ∃ d', finalize_timeout now c d = (d', Ok tt) ∧ cd_terminal (dt_decision d') = true ∧
    if cd_terminal (dt_decision d) then d' = d
    else cd_status (dt_decision d') =
           (if bool_decide (dt_family d = TERMINAL_TEXT_QUIET) && st_reply_started (dt_state d)
            then CS_COMPLETED else CS_INCOMPLETE) ∧
         cd_confidence (dt_decision d') = Some DEGRADED ∧
         cd_finished_at (dt_decision d') = Some now ∧ valid_decision (dt_decision d').
Proof.
  intros Hb. destruct (cd_terminal (dt_decision d)) eqn:Ht.
  - exists d. by rewrite (finalize_terminal now c d Hb Ht).
  - destruct (finalize_ends now c d Hb Ht) as (d' & H1 & _ & H2 & H3 & H4 & H5 & H6).
    exists d'. split_and!; try done. rewrite H3. unfold timeout_status. by destruct (dt_family d).
Qed.

(** The selector prefers the better kind, then the later candidate: the candidate
    chosen was ingested, and every other has a greater effective priority (absent and zero
    count as 999), or the same one and an earlier sequence number; there is one whenever
    anything was ingested. *)
Theorem selector_picks_best (s : selector) :
  (sl_candidates s ≠ [] → is_Some (best_candidate s)) ∧
  ∀ c, best_candidate s = Some c →
    ∃ n, (n, c) ∈ sl_candidates s ∧
      ∀ m c', (m, c') ∈ sl_candidates s →
        let prio c := match rc_priority c with Some p => if p =? 0 then 999 else p | None => 999 end in
        prio c < prio c' ∨ (prio c = prio c' ∧ m <= n).
Proof.
  split; [apply best_candidate_some|]. intros c Hc.
  destruct (best_candidate_least s c Hc) as (n & Hin & Hle). exists n. split; [done|].
  intros m c' Hc'. specialize (Hle _ Hc'). unfold key_le, candidate_key in Hle. simpl in *. lia.
Qed.

(** A provider of the catalog gets its own profile: if every registered manifest went
    through its constructor, whatever the catalog resolves for an agent's provider and mode
    builds a profile for that provider, that mode and the manifest's family; the mismatch
    errors of the builder cannot be raised. *)
Theorem resolved_manifest_builds (c : catalog) (spec : agent_spec) (m : CompletionManifest) :
  catalog_ok c → lower (strip (sp_provider spec)) = sp_provider spec →
  resolve_completion_manifest (sp_provider spec) (sp_runtime_mode spec) c = Ok m →
  ∃ pf, build_completion_profile spec m = Ok pf ∧ pf_provider pf = sp_provider spec ∧
    pf_runtime_mode pf = sp_runtime_mode spec ∧
    dt_family (build_detector pf) = cm_completion_family m.
Proof.
  intros Hc Hn Hr. destruct (profile_builds c spec m Hc Hn Hr) as (pf & H1 & H2 & H3 & H4).
  exists pf. by rewrite <-H4.
Qed.

Module CatalogSample.
Definition gemini : CompletionManifest :=
  MkManifest "gemini" "pane-backed" ANCHORED_SESSION_STABILITY SRC_SESSION_SNAPSHOT false true true
    true false SEL_SESSION_REPLY.
Definition manifest : ProviderManifest :=
  MkProviderManifest "gemini" true true false false true [(PANE_BACKED, gemini)].
Definition cat : catalog := {["gemini" := manifest]}.
End CatalogSample.

Lemma resolved_manifest_builds_witness :
  ∃ pf, build_completion_profile (MkSpec "gemini" PANE_BACKED) CatalogSample.gemini = Ok pf ∧
    dt_family (build_detector pf) = ANCHORED_SESSION_STABILITY.
Proof.
  destruct (resolved_manifest_builds CatalogSample.cat (MkSpec "gemini" PANE_BACKED)
    CatalogSample.gemini) as (pf & H1 & _ & _ & H2).
  - intros k m Hk. unfold CatalogSample.cat in Hk. apply lookup_singleton_Some in Hk as [<- <-]. repeat split.
  - reflexivity.
  - reflexivity.
  - exists pf. split; [exact H1|exact H2].
Defined.



(** C14: the orchestrator ends: whatever the source delivers, if the monotonic clock
    passes the deadline by its [n]-th reading in the loop, [n] rounds suffice, and a run
    that raises nothing returns a terminal decision. *)
Theorem orchestrator_terminates {S : Type} (capture : S → S * CompletionCursor)
    (poll : CompletionCursor → Z → S → S * option CompletionItem)
    (monotonic : nat → Z) (now_factory : nat → string) (ctx : CompletionRequestContext)
    (s : ostate S) (n : nat) :
  monotonic (os_monotonic s) + rq_timeout ctx <= monotonic (Datatypes.S (os_monotonic s) + n)%nat →
  match (o_run capture poll monotonic now_factory (Datatypes.S n) ctx s).2 with
  | Ok None => False
  | Ok (Some d) => cd_terminal d = true
  | Err _ => True
  end.
Proof.
  intros Hn. unfold o_run, mbind' at 1. destruct (capture (os_source s)) as [src c].
  set (s1 := OState S src _ _ _ _).
  unfold o_detector at 1. unfold mbind' at 1. cbn [bind mmod]. set (s2 := OState S _ _ _ _ _).
  set (s3 := OState S (os_source s2) (Datatypes.S (os_monotonic s2)) (os_now s2) (os_detector s2) (os_selector s2)).
  unfold mbind' at 1. cbn [o_monotonic]. fold s3.
  apply (o_loop_ends poll monotonic now_factory (Datatypes.S n) n); [lia| |exact Hn].
  split; [by eexists|done].
Qed.

Lemma orchestrator_terminates_witness :
  let r := (o_run (λ u : unit, (u, CSample.cursor)) (λ _ _ u, (u, None)) (λ n, 1000000000 * Z.of_nat n)
    (λ _, "2024-05-01T13:00:00Z") 5 CSample.ctx
    (OState unit tt 0 0 (new_detector PROTOCOL_TURN) new_selector)).2 in
  ∃ d, r = Ok (Some d) ∧ cd_terminal d = true ∧ cd_reason d = Some "timeout".
Proof.
  intros r.
  assert (H := orchestrator_terminates (λ u : unit, (u, CSample.cursor)) (λ _ _ u, (u, None))
    (λ n, 1000000000 * Z.of_nat n) (λ _, "2024-05-01T13:00:00Z") CSample.ctx
    (OState unit tt 0 0 (new_detector PROTOCOL_TURN) new_selector) 4 ltac:(vm_compute; discriminate)).
  fold r in H.
  assert (E : match r with Ok (Some d) => cd_reason d | _ => None end = Some "timeout")
    by (vm_compute; reflexivity).
  destruct r as [[d|]|]; [by exists d|done|discriminate E].
Defined.

(** A completion snapshot survives its file: decoding the dictionary written for a
    valid snapshot, nested state, decision and cursors included, gives the snapshot back. *)
Theorem snapshot_roundtrip (s : CompletionSnapshot) :
  valid_snapshot s → completion_snapshot_from_record (snapshot_to_record s) = Ok s.
Proof. apply completion_snapshot_roundtrip. Qed.

Lemma snapshot_roundtrip_witness :
  let s := MkSnapshot "job_1" "coder" PROTOCOL_TURN (dt_state CSample.turn) (dt_decision CSample.turn)
             "" "2024-05-01T12:00:00Z" in
  completion_snapshot_from_record (snapshot_to_record s) = Ok s.
Proof. cbv zeta. apply snapshot_roundtrip. repeat split. Defined.
