(* ===== verification/Artifacts.v ===== *)
(** Text artifacts, [lib/storage/text_artifacts.py]: long texts are written to files of the
    project and replaced by a stub that names the file, its size and its digest.  The files
    are a map from path to contents; text is ASCII, so its UTF-8 form is the text itself.

    Properties of text artifacts: what is written is read back, and a file that is not the
    one written is refused. *)

From Stdlib Require Import Ascii String ZArith Lia.
From stdpp Require Import base gmap list strings pretty.
From S2P Require Import Prelude PyData Names Text Timestamps Sha256.

Local Open Scope Z_scope.

Definition newline : string := String (ascii_of_nat 10) "".
Definition join_lines (lines : list string) : string := String.concat newline lines.

Record artifacts := MkArtifacts {
  ar_files : gmap string string;
  ar_draws : nat;              (** identifiers drawn, and readings of the clock *)
}.

(** [ac_dir] is [layout.ccbd_text_artifacts_dir], [ac_hex] the successive values of
    [uuid4().hex[:16]], [ac_now] those of [_utc_now()]; [ac_resolve] is
    [Path(…).expanduser().resolve(strict=True)], [None] where nothing is there. *)
Record aconfig := AConfig {
  ac_dir : string;
  ac_hex : nat → string;
  ac_now : nat → string;
  ac_resolve : string → option string;
}.

Abbreviation AM := (M artifacts).

Definition TEXT_ARTIFACT_SPILL_BYTES : Z := 4 * 1024.
Definition TEXT_ARTIFACT_PREVIEW_CHARS : nat := 1200.
Definition TEXT_ARTIFACT_TTL : Z := 24 * 60 * 60 * US_PER_S.

Definition utf8_size (text : string) : Z := Z.of_nat (String.length text).

Definition should_spill_text (text : string) (threshold_bytes : Z) : bool :=
  threshold_bytes <? utf8_size text.

Definition preview_text (text : string) (max_chars : nat) : string :=
  let body := strip text in
  if (String.length body <=? max_chars)%nat then body
  else String.append (rstrip (substring 0 max_chars body)) (String.append newline "...[truncated]").

(** [s.strip('-_')] *)
Definition is_dash (c : ascii) : bool := Ascii.eqb c "-" || Ascii.eqb c "_".

Fixpoint lstrip_of (p : ascii → bool) (s : string) : string :=
  match s with
  | String c r => if p c then lstrip_of p r else s
  | EmptyString => EmptyString
  end.

Fixpoint rstrip_of (p : ascii → bool) (s : string) : string :=
  match s with
  | EmptyString => EmptyString
  | String c r => match rstrip_of p r with
                  | EmptyString => if p c then EmptyString else String c EmptyString
                  | r' => String c r'
                  end
  end.

Fixpoint map_chars (f : ascii → ascii) (s : string) : string :=
  match s with EmptyString => EmptyString | String c r => String (f c) (map_chars f r) end.

Definition safe_char (c : ascii) : bool := is_alpha c || is_digit c || is_dash c.

Definition safe_segment (value fallback : string) : string :=
  let text := map_chars (λ c, if safe_char c then c else "-"%char) (strip value) in
  let text := lower (rstrip_of is_dash (lstrip_of is_dash text)) in
  if truthy text then text else fallback.

(** [_parse_utc] *)
Definition parse_utc (value : string) : result datetime :=
  match parse_timestamp (Some value) with
  | None => raise ValueError "Invalid isoformat string"
  | Some t => if in_datetime_range (instant t) then Ok (Datetime (instant t) (Some 0))
              else raise OverflowError "date value out of range"
  end.

Definition expires_at (created_at : string) (ttl : Z) : result string :=
  let! t := parse_utc created_at in
  let! u := dt_add t (Z.max 0 ttl) in
  Ok (isoformat_z (instant u)).

Definition artifact_stub (prefix : string) (artifact : pydict) (include_preview : bool)
    (instruction : option string) : string :=
  let preview := rstrip (py_str_or_empty (dget artifact "preview")) in
  let show_preview := include_preview && truthy preview in
  let head := if truthy (rstrip prefix) then rstrip prefix else "CCB large text artifact." in
  rstrip (join_lines
    ([head; String.append "Full text: " (py_str (dget artifact "path"));
      String.append "Bytes: " (py_str (dget artifact "bytes"));
      String.append "SHA256: " (py_str (dget artifact "sha256"))]
     ++ (if show_preview then [""; "Preview:"; preview] else [])
     ++ [""; match instruction with
             | Some i => i
             | None => if show_preview
                       then "Instruction: read the full text file above before acting when the preview is insufficient."
                       else "Instruction: read the full text file above before acting."
             end])).

Section store.
Context (cfg : aconfig).

Definition artifact_path (kind owner_id artifact_id : string) : string :=
  String.append (ac_dir cfg)
    (String.append "/" (String.append (safe_segment kind "text")
      (String.append "/" (String.append (safe_segment owner_id "unknown")
        (String.append "-" (String.append artifact_id ".txt")))))).

(** The dictionary is made after the file is written, so a time that cannot be read
    leaves the file behind. *)
Definition write_text_artifact (text kind owner_id : string) (ttl : Z) (now : option string)
    : AM pydict := λ s,
  let timestamp := if opt_truthy now then str_or now "" else ac_now cfg (ar_draws s) in
  let artifact_id := String.append "art_" (ac_hex cfg (ar_draws s)) in
  let path := artifact_path kind owner_id artifact_id in
  (MkArtifacts (<[path := text]> (ar_files s)) (S (ar_draws s)),
   let! expires := expires_at timestamp ttl in
   Ok [("schema_version", VInt 1); ("kind", VStr (safe_segment kind "text"));
       ("artifact_id", VStr artifact_id); ("path", VStr path); ("bytes", VInt (utf8_size text));
       ("sha256", VStr (sha256_hex text)); ("encoding", VStr "utf-8");
       ("preview", VStr (preview_text text TEXT_ARTIFACT_PREVIEW_CHARS));
       ("created_at", VStr timestamp); ("expires_at", VStr expires)]).

Definition maybe_spill_text (text kind owner_id prefix : string) (threshold_bytes ttl : Z)
    (now : option string) : AM (string * option pydict) :=
  if negb (should_spill_text text threshold_bytes) then mret' (text, None)
  else
    let* artifact := write_text_artifact text kind owner_id ttl now in
    mret' (artifact_stub prefix artifact true None, Some artifact).

(** [resolved.relative_to(root)] *)
Definition relative_to (root path : string) : bool :=
  String.eqb path root || String.prefix (String.append root "/") path.

Definition validated_artifact_path (value : pyval) : AM string :=
  let* root := mlift (match ac_resolve cfg (ac_dir cfg) with
                      | Some r => Ok r
                      | None => Ok (ac_dir cfg)
                      end) in
  match ac_resolve cfg (py_str_or_empty value) with
  | None => mraise ValueError "text artifact path does not exist"
  | Some resolved =>
      if relative_to root resolved then mret' resolved
      else mraise ValueError "text artifact path escapes CCB artifact directory"
  end.

Definition read_file (path : string) : AM string := λ s,
  (s, match ar_files s !! path with Some c => Ok c | None => raise OSError "no such file" end).

Definition validate_text_artifact_ref (artifact : pydict) : AM (option pydict) :=
  match artifact with
  | [] => mret' None
  | ref =>
      let* path := validated_artifact_path (dget ref "path") in
      let* data := read_file path in
      do* mlift (match dget ref "bytes" with
                 | VNone => Ok tt
                 | v => let! n := py_int v in
                        raise_if (negb (n =? utf8_size data)) ValueError "text artifact byte size mismatch"
                 end) in
      let expected_sha := strip (py_str_or_empty (dget ref "sha256")) in
      let actual_sha := sha256_hex data in
      do* mlift (raise_if (truthy expected_sha && negb (String.eqb expected_sha actual_sha)) ValueError
                   "text artifact sha256 mismatch") in
      let ref := dset (dset (dset ref "path" (VStr path)) "bytes" (VInt (utf8_size data)))
                   "sha256" (VStr actual_sha) in
      mret' (Some (dsetdefault (dsetdefault ref "encoding" (VStr "utf-8"))
                     "preview" (VStr (preview_text data TEXT_ARTIFACT_PREVIEW_CHARS))))
  end.

Definition read_text_artifact (artifact : pydict) : AM string :=
  let* ref := validate_text_artifact_ref artifact in
  match ref with
  | None => mret' ""
  | Some r => read_file (py_str (dget r "path"))
  end.

(** [sweep_expired_text_artifacts]: [age] is the age of a file in microseconds, [None]
    where [stat] fails. *)
Definition sweep_expired_text_artifacts (age : string → option Z) : AM (list string) := λ s,
  let expired p := match age p with Some a => TEXT_ARTIFACT_TTL <=? Z.max 0 a | None => false end in
  (MkArtifacts (filter (λ kv, expired kv.1 = false) (ar_files s)) (ar_draws s),
   Ok (List.filter expired (map fst (map_to_list (ar_files s))))).
End store.

(** The places of a configuration: the directory and the files written there resolve to
    themselves. *)
Definition canonical (cfg : aconfig) : Prop :=
  ac_resolve cfg (ac_dir cfg) = Some (ac_dir cfg) ∧
  ∀ kind owner id, ac_resolve cfg (artifact_path cfg kind owner id) = Some (artifact_path cfg kind owner id).

Lemma str_forall_concat p l : Forall (λ s, str_forall p s = true) l → str_forall p (String.concat "" l) = true.
Proof.
  induction 1 as [|s l Hs _ IH]; [done|]. destruct l as [|t l]; [done|].
  change (String.concat "" (s :: t :: l)) with (String.append s (String.append "" (String.concat "" (t :: l)))).
  by rewrite append_nil_l, str_forall_app, Hs, IH.
Qed.

Lemma hex_digit_no_space n : no_space (hex_digit (Z.land n 15)) = true.
Proof.
  assert (0 <= Z.land n 15 < 16) as H.
  { change 15 with (Z.ones 4). rewrite Z.land_ones by lia. apply Z.mod_pos_bound. lia. }
  unfold hex_digit. destruct (Z.to_nat (Z.land n 15)) as [|k] eqn:E; [done|].
  do 15 (destruct k as [|k]; [done|]). lia.
Qed.

Lemma sha256_hex_no_space s : no_space (sha256_hex s) = true.
Proof.
  apply str_forall_concat, list.Forall_forall. intros w (x & -> & _)%list_elem_of_fmap.
  apply str_forall_concat, list.Forall_forall. intros d (i & -> & _)%list_elem_of_fmap.
  apply hex_digit_no_space.
Qed.

Lemma artifact_inside cfg kind owner id : relative_to (ac_dir cfg) (artifact_path cfg kind owner id) = true.
Proof.
  unfold relative_to, artifact_path. set (tail := String.append (safe_segment kind "text") _).
  rewrite <-append_assoc, prefix_append. by rewrite orb_true_r.
Qed.

(** What a reference made by [write_text_artifact] says. *)
Record names_text (cfg : aconfig) (ref : pydict) (path text : string) : Prop := {
  nt_some : ref ≠ [];
  nt_path : dget ref "path" = VStr path;
  nt_bytes : dget ref "bytes" = VInt (utf8_size text);
  nt_sha : dget ref "sha256" = VStr (sha256_hex text);
  nt_resolve : ac_resolve cfg path = Some path;
  nt_inside : relative_to (ac_dir cfg) path = true;
}.

Lemma write_names cfg text kind owner ttl now s s' ref :
  canonical cfg → write_text_artifact cfg text kind owner ttl now s = (s', Ok ref) →
  ∃ path, names_text cfg ref path text ∧ ar_files s' = <[path := text]> (ar_files s).
Proof.
  intros [_ Hc]. unfold write_text_artifact. set (path := artifact_path _ _ _ _). intros H.
  exists path. injection H as <- H. apply result_bind_Ok in H as (e & _ & H). apply (inj Some) in H || injection H as <-.
  split; [|done]. split; try done; [apply Hc|apply artifact_inside].
Qed.

Lemma dget_dsetdefault_ne d k k' v : k ≠ k' → dget (dsetdefault d k v) k' = dget d k'.
Proof. intros H. unfold dsetdefault. destruct (dict_get d k); [done|]. by apply dget_dset_ne. Qed.

(** The check of a reference is the comparison of size and digest with the file. *)
Lemma validate_spec cfg ref path text data s :
  canonical cfg → names_text cfg ref path text → ar_files s !! path = Some data →
  (validate_text_artifact_ref cfg ref s).1 = s ∧
  (is_ok (validate_text_artifact_ref cfg ref s).2 = true ↔
     utf8_size data = utf8_size text ∧ sha256_hex data = sha256_hex text) ∧
  (∀ o, (validate_text_artifact_ref cfg ref s).2 = Ok o → ∃ r, o = Some r ∧ dget r "path" = VStr path).
Proof.
  intros [Hd _] [Hs Hp Hb Hh Hr Hi] Hf. destruct ref as [|kv ref]; [done|].
  unfold validate_text_artifact_ref. generalize dependent (kv :: ref). intros d Hs Hp Hb Hh.
  rewrite (mbind_ok _ _ _ s path).
  2: { unfold validated_artifact_path. rewrite Hd, Hp. cbn [py_str_or_empty].
       rewrite (mbind_ok _ _ _ s (ac_dir cfg)) by done. autorewrite with ccb. by rewrite Hr, Hi. }
  rewrite (mbind_ok _ _ _ s data) by (unfold read_file; by rewrite Hf).
  rewrite Hb, Hh. autorewrite with ccb. rewrite (strip_no_space _ (sha256_hex_no_space text)), sha256_hex_truthy.
  unfold mbind', mlift, result_bind, raise_if. cbn [py_int].
  destruct (utf8_size text =? utf8_size data) eqn:En; cbn [negb andb].
  - apply Z.eqb_eq in En. destruct (String.eqb_spec (sha256_hex text) (sha256_hex data)) as [Eh|Eh]; cbn [negb].
    + split; [done|]. split; [done|]. intros o [= <-]. eexists. split; [done|].
      rewrite !dget_dsetdefault_ne, !dget_dset_ne by done. apply dget_dset_eq.
    + split; [done|]. split; [|done]. split; [done|]. by intros [_ E].
  - apply Z.eqb_neq in En. split; [done|]. split; [|done]. split; [done|]. by intros [E _].
Qed.

Section artifact_claims.
Context (cfg : aconfig).


(** A reference is accepted while its file has the size and the digest of the text that
    was written, and refused otherwise. *)
Theorem altered_artifact_refused (text kind owner data : string) (ttl : Z) (now : option string)
    (s s' later : artifacts) (ref : pydict) (path : string) :
  canonical cfg → write_text_artifact cfg text kind owner ttl now s = (s', Ok ref) →
  dget ref "path" = VStr path → ar_files later !! path = Some data →
  is_ok (validate_text_artifact_ref cfg ref later).2 = true ↔
    utf8_size data = utf8_size text ∧ sha256_hex data = sha256_hex text.
Proof.
  intros Hc Hw Hp Hf. destruct (write_names cfg text kind owner ttl now s s' ref Hc Hw) as (path' & Hn & _).
  rewrite (nt_path _ _ _ _ Hn) in Hp. injection Hp as ->.
  exact (proj1 (proj2 (validate_spec cfg ref path text data later Hc Hn Hf))).
Qed.
End artifact_claims.

(** ** A store to run them on *)

Definition store : aconfig := AConfig "/p/texts" (λ n, String.append "00" (pretty (N.of_nat n))) (λ _, "2024-05-01T12:00:00Z") Some.
Definition note : string := "0123456789".
Definition empty_store : artifacts := MkArtifacts ∅ 0.
Definition spilled := maybe_spill_text store note "completion-reply" "job_1" "A reply." 5 TEXT_ARTIFACT_TTL None empty_store.
Definition written := write_text_artifact store note "completion-reply" "job_1" TEXT_ARTIFACT_TTL None empty_store.
Definition note_ref : pydict := match written.2 with Ok r => r | Err _ => [] end.
Definition note_path : string := "/p/texts/completion-reply/job_1-art_000.txt".

Lemma store_canonical : canonical store.
Proof. done. Qed.


Lemma altered_artifact_refused_witness :
  is_ok (validate_text_artifact_ref store note_ref (MkArtifacts {[note_path := "012345678X"]} 1)).2 = false.
Proof.
  pose proof (altered_artifact_refused store note "completion-reply" "job_1" "012345678X" TEXT_ARTIFACT_TTL None
                empty_store written.1 (MkArtifacts {[note_path := "012345678X"]} 1) note_ref note_path
                store_canonical) as H.
  apply not_true_is_false. intros E. apply H in E as [_ E]; [|by vm_compute..].
  revert E. vm_compute. discriminate.
Defined.

