(* ===== verification/DispatchState.v ===== *)
(** What the dispatcher keeps in memory,
    [lib/ccbd/services/dispatcher_runtime/state.py] and its mixins [state_common.py],
    [state_active.py], [state_index.py], [state_queue.py], [state_agents.py]: a queue of
    waiting jobs and at most one active job per target, and where each job belongs; and
    how all of it is rebuilt from the job store when the daemon starts.  Then the laws of the
    log of an agent's jobs: rows are appended, the latest row of a job counts, and a job has
    the place of its first row. *)

From Stdlib Require Import Ascii String ZArith Lia.
From stdpp Require Import base gmap list strings.
From S2P Require Import Prelude PyData Names Storage CompletionModels Jobs JobStore.

Local Open Scope Z_scope.

#[export] Instance TargetKind_eq_dec : EqDecision TargetKind.
Proof. solve_decision. Defined.
#[export] Program Instance TargetKind_countable : Countable TargetKind :=
  inj_countable (λ _, tt) (λ _, Some TARGET_AGENT) _.
Next Obligation. by intros []. Qed.

(** [TargetSlot] *)
Abbreviation slot := (TargetKind * string)%type.

Definition agent_slot (agent_name : string) : slot := (TARGET_AGENT, agent_name).
Definition slot_of (r : JobRecord) : slot := (jr_target_kind r, jr_target_name r).

(** [DispatcherState]: [_queues], [_job_index] and [_active_jobs].  The order of these
    dictionaries is not used here. *)
Record qstate := QState {
  q_queues : gmap slot (list string);
  q_index : gmap string slot;
  q_active : gmap slot string;
}.

Abbreviation QM := (M qstate).

(** [_ensure_queue] *)
Definition ensure_queue (sl : slot) (s : qstate) : qstate :=
  match q_queues s !! sl with
  | Some _ => s
  | None => QState (<[sl := []]> (q_queues s)) (q_index s) (q_active s)
  end.

(** The items of the queue of a target. *)
Definition items (s : qstate) (sl : slot) : list string := default [] (q_queues s !! sl).

Definition set_items (sl : slot) (l : list string) (s : qstate) : qstate :=
  QState (<[sl := l]> (q_queues s)) (q_index s) (q_active s).

Definition new_qstate (agent_names : list string) : qstate :=
  foldl (λ s name, ensure_queue (agent_slot name) s) (QState ∅ ∅ ∅) agent_names.

(** ** [TargetQueue] *)

Definition queue_pop (l : list string) : option string * list string :=
  match l with [] => (None, []) | x :: r => (Some x, r) end.

(** [items.remove(x)]: the first occurrence, [False] without one. *)
Fixpoint queue_remove (x : string) (l : list string) : bool * list string :=
  match l with
  | [] => (false, [])
  | y :: r => if String.eqb y x then (true, r) else let p := queue_remove x r in (p.1, y :: p.2)
  end.

(** ** [state_queue.py] *)

Definition enqueue_for (sl : slot) (job_id : string) : QM unit :=
  do* mmod (ensure_queue sl) in mmod (λ s, set_items sl (items s sl ++ [job_id]) s).

Definition pop_next_for (sl : slot) : QM (option string) :=
  do* mmod (ensure_queue sl) in
  let* l := mget (λ s, items s sl) in
  do* mmod (set_items sl (queue_pop l).2) in
  mret' (queue_pop l).1.

Definition queued_items_for (sl : slot) : QM (list string) :=
  do* mmod (ensure_queue sl) in mget (λ s, items s sl).

Definition remove_queued_for (sl : slot) (job_id : string) : QM bool :=
  do* mmod (ensure_queue sl) in
  let* l := mget (λ s, items s sl) in
  do* mmod (set_items sl (queue_remove job_id l).2) in
  mret' (queue_remove job_id l).1.

Definition queue_depth_for (sl : slot) : QM Z :=
  do* mmod (ensure_queue sl) in
  mget (λ s, Z.of_nat (length (items s sl)) + (if bool_decide (is_Some (q_active s !! sl)) then 1 else 0)).

Definition has_outstanding_for (sl : slot) : QM bool :=
  do* mmod (ensure_queue sl) in
  mget (λ s, bool_decide (is_Some (q_active s !! sl)) || (0 <? length (items s sl))%nat).

(** ** [state_active.py] *)

Definition mark_active_for (sl : slot) (job_id : string) : QM unit :=
  do* mmod (ensure_queue sl) in
  mmod (λ s, QState (q_queues s) (q_index s) (<[sl := job_id]> (q_active s))).

Definition clear_active_for (sl : slot) (job_id : option string) : QM unit :=
  mmod (λ s,
    match job_id with
    | Some j => if bool_decide (q_active s !! sl = Some j)
                then QState (q_queues s) (q_index s) (delete sl (q_active s)) else s
    | None => QState (q_queues s) (q_index s) (delete sl (q_active s))
    end).

Definition active_job_for (sl : slot) : QM (option string) := mget (λ s, q_active s !! sl).

(** ** [state_index.py] *)

Definition target_for_job (job_id : string) : QM (option slot) := mget (λ s, q_index s !! job_id).

Definition remember_job (job_id : string) (sl : slot) : QM unit :=
  do* mmod (λ s, QState (q_queues s) (<[job_id := sl]> (q_index s)) (q_active s)) in
  mmod (ensure_queue sl).

Definition record (r : JobRecord) : QM unit := remember_job (jr_job_id r) (slot_of r).

(** ** [rebuild] *)

(** [_PENDING_STATES] *)
Definition pending_status (st : JobStatus) : bool :=
  match st with JS_ACCEPTED | JS_QUEUED => true | _ => false end.

Definition running_status (st : JobStatus) : bool := bool_decide (st = JS_RUNNING).

(** One id of the loops of [_admission_ordered]; the set [seen] holds what [ordered] does. *)
Definition admit_id (wanted : string → bool) (ordered : list string) (job_id : string) : list string :=
  if wanted job_id && negb (mem_str job_id ordered) then ordered ++ [job_id] else ordered.

Definition admission_ordered (pending mailbox_job_ids : list string) : list string :=
  foldl (admit_id (λ _, true))
    (foldl (admit_id (λ id, mem_str id pending)) [] mailbox_job_ids) pending.

(** The loop over the rows of one agent: the order of the first rows, the latest rows,
    and what it does to the index and the queues. *)
Definition scan_row (acc : qstate * (list string * gmap string JobRecord)) (r : JobRecord)
    : qstate * (list string * gmap string JobRecord) :=
  let '(s, (order, latest)) := acc in
  let id := jr_job_id r in
  let order := match latest !! id with None => order ++ [id] | Some _ => order end in
  let s := QState (q_queues s) (<[id := slot_of r]> (q_index s)) (q_active s) in
  (ensure_queue (slot_of r) s, (order, <[id := r]> latest)).

(** The jobs of [order] whose latest row has a status. *)
Definition with_status (p : JobStatus → bool) (latest : gmap string JobRecord) (order : list string)
    : list string :=
  List.filter (λ id, match latest !! id with Some r => p (jr_status r) | None => false end) order.

(** [for job_id in ids: f(slot of its latest row, job_id)] *)
Fixpoint for_slots (f : slot → string → QM unit) (latest : gmap string JobRecord) (ids : list string)
    : QM unit :=
  match ids with
  | [] => mret' tt
  | id :: rest =>
      do* (match latest !! id with Some r => f (slot_of r) id | None => mraise KeyError id end) in
      for_slots f latest rest
  end.

Definition rebuild_agent (js : jstate) (mailbox_order : gmap string (list string)) (agent_name : string)
    : QM unit :=
  let* rows := mlift (list_agent agent_name js).2 in
  let* scan := (λ s, let '(s', scan) := foldl scan_row (s, ([], ∅)) rows in (s', Ok scan)) in
  let '(order, latest) := scan in
  let running := with_status running_status latest order in
  let pending := with_status pending_status latest order in
  do* for_slots enqueue_for latest
        (admission_ordered pending (default [] (mailbox_order !! agent_name))) in
  for_slots (λ sl id, mmod (λ s, QState (q_queues s) (q_index s) (<[sl := id]> (q_active s))))
    latest running.

Fixpoint rebuild_agents (js : jstate) (mailbox_order : gmap string (list string)) (agent_names : list string)
    : QM unit :=
  match agent_names with
  | [] => mret' tt
  | a :: rest => do* rebuild_agent js mailbox_order a in rebuild_agents js mailbox_order rest
  end.

Definition rebuild (js : jstate) (agent_names : list string) (mailbox_order : gmap string (list string))
    : QM unit :=
  do* mmod (λ s, QState ((λ _, []) <$> q_queues s) ∅ ∅) in
  rebuild_agents js mailbox_order agent_names.

(** ** The log of an agent's jobs *)

Definition has_id (id : string) (r : JobRecord) : bool := String.eqb (jr_job_id r) id.

(** The jobs of a log, in the order of their first rows. *)
Definition ids (l : list JobRecord) : list string :=
  foldl (λ o r, if mem_str (jr_job_id r) o then o else o ++ [jr_job_id r]) [] l.

Definition latest_row (l : list JobRecord) (id : string) : option JobRecord := find_last (has_id id) l.

Definition has_status_of (p : JobStatus → bool) (l : list JobRecord) (id : string) : bool :=
  match latest_row l id with Some r => p (jr_status r) | None => false end.

(** The jobs whose latest row has a status, in the order of their first rows. *)
Definition jobs_with (p : JobStatus → bool) (l : list JobRecord) : list string :=
  List.filter (has_status_of p l) (ids l).

Definition pending_jobs : list JobRecord → list string := jobs_with pending_status.
Definition running_jobs : list JobRecord → list string := jobs_with running_status.

(** ** The life of a job *)

Definition statuses (id : string) (l : list JobRecord) : list JobStatus :=
  map jr_status (List.filter (has_id id) l).

(** [may_follow prev st]: a job is admitted waiting; it may start, and it may end from
    either; a row may repeat the status; nothing follows an end but the same. *)
Definition may_follow (prev : option JobStatus) (st : JobStatus) : bool :=
  match prev with
  | None => pending_status st
  | Some p => bool_decide (p = st) || (pending_status p && (running_status st || job_terminal st))
              || (running_status p && job_terminal st)
  end.

Inductive lifecycle : list JobStatus → Prop :=
  | life_none : lifecycle []
  | life_row sts st : lifecycle sts → may_follow (last sts) st = true → lifecycle (sts ++ [st]).

(** ** Lemmas *)

Lemma ids_snoc l r :
  ids (l ++ [r]) = if mem_str (jr_job_id r) (ids l) then ids l else ids l ++ [jr_job_id r].
Proof. unfold ids. by rewrite foldl_app. Qed.

Lemma ids_nodup l : NoDup (ids l).
Proof.
  induction l as [|r l IH] using rev_ind; [constructor|]. rewrite ids_snoc.
  destruct (mem_str (jr_job_id r) (ids l)) eqn:E; [done|].
  apply NoDup_app. split; [done|]. split; [|apply NoDup_singleton].
  intros x Hx ->%list_elem_of_singleton. apply mem_str_spec in Hx. congruence.
Qed.

Lemma elem_of_ids l id : id ∈ ids l ↔ ∃ r, r ∈ l ∧ jr_job_id r = id.
Proof.
  revert id. induction l as [|r l IH] using rev_ind; intros id; [set_solver|]. rewrite ids_snoc.
  destruct (mem_str (jr_job_id r) (ids l)) eqn:E.
  - rewrite IH. apply mem_str_spec, IH in E as (r' & Hr' & E'). set_solver.
  - rewrite elem_of_app, IH. set_solver.
Qed.

Lemma latest_row_snoc l r id :
  latest_row (l ++ [r]) id = if has_id id r then Some r else latest_row l id.
Proof. apply find_last_snoc. Qed.

Lemma has_id_true id r : has_id id r = true ↔ jr_job_id r = id.
Proof. apply String.eqb_eq. Qed.

Lemma latest_row_some l id r : latest_row l id = Some r → r ∈ l ∧ jr_job_id r = id.
Proof. intros [H1 H2]%find_last_Some. by rewrite has_id_true in H2. Qed.

Lemma latest_row_none l id : latest_row l id = None ↔ id ∉ ids l.
Proof.
  split.
  - intros H (r & Hr & <-)%elem_of_ids. eapply find_last_None in H; [|exact Hr].
    by rewrite (proj2 (has_id_true _ _) eq_refl) in H.
  - intros H. destruct (latest_row l id) as [r|] eqn:E; [|done].
    apply latest_row_some in E as [E1 E2]. exfalso. apply H, elem_of_ids. by exists r.
Qed.

Lemma elem_of_filter_bool {A} (p : A → bool) (l : list A) x :
  x ∈ List.filter p l ↔ x ∈ l ∧ p x = true.
Proof. rewrite !list_elem_of_In. apply List.filter_In. Qed.

Lemma filter_nodup {A} (p : A → bool) (l : list A) : NoDup l → NoDup (List.filter p l).
Proof.
  induction 1 as [|x l Hx Hl IH]; [constructor|]. cbn. destruct (p x); [|done].
  constructor; [|done]. rewrite elem_of_filter_bool. naive_solver.
Qed.

Lemma filter_same {A} (p q : A → bool) (l : list A) :
  (∀ x, x ∈ l → p x = q x) → List.filter p l = List.filter q l.
Proof. intros H. apply List.filter_ext_in. intros x Hx. apply H. by apply list_elem_of_In. Qed.

Lemma filter_filter {A} (p q : A → bool) (l : list A) :
  List.filter p (List.filter q l) = List.filter (λ x, q x && p x) l.
Proof. induction l as [|x l IH]; [done|]. cbn. destruct (q x); cbn; [destruct (p x)|]; by rewrite IH. Qed.

Lemma elem_of_jobs_with p l id : id ∈ jobs_with p l ↔ ∃ r, latest_row l id = Some r ∧ p (jr_status r) = true.
Proof.
  unfold jobs_with, has_status_of. rewrite elem_of_filter_bool. split.
  - intros [_ H]. destruct (latest_row l id) as [r|]; [by exists r|done].
  - intros (r & Hr & H). rewrite Hr. split; [|done]. apply latest_row_some in Hr as [Hr <-].
    apply elem_of_ids. by exists r.
Qed.

Lemma jobs_with_nodup p l : NoDup (jobs_with p l).
Proof. apply filter_nodup, ids_nodup. Qed.

Lemma jobs_with_incl p l id : id ∈ jobs_with p l → id ∈ ids l.
Proof. unfold jobs_with. by intros [? _]%elem_of_filter_bool. Qed.

(** A row of a new job. *)
Lemma jobs_with_new p l r :
  jr_job_id r ∉ ids l →
  jobs_with p (l ++ [r]) = jobs_with p l ++ (if p (jr_status r) then [jr_job_id r] else []).
Proof.
  intros H. unfold jobs_with. rewrite ids_snoc.
  destruct (mem_str (jr_job_id r) (ids l)) eqn:E; [by apply mem_str_spec in E|].
  rewrite List.filter_app. f_equal.
  - apply filter_same. intros x Hx. unfold has_status_of. rewrite latest_row_snoc.
    destruct (has_id x r) eqn:Ex; [|done]. apply has_id_true in Ex. naive_solver.
  - cbn. unfold has_status_of. rewrite latest_row_snoc, (proj2 (has_id_true _ _) eq_refl).
    by destruct (p (jr_status r)).
Qed.

(** A row of a known job that does not have the status: the job leaves the list. *)
Lemma jobs_with_drop p l r :
  jr_job_id r ∈ ids l → p (jr_status r) = false →
  jobs_with p (l ++ [r]) = List.filter (λ id, negb (String.eqb (jr_job_id r) id)) (jobs_with p l).
Proof.
  intros H Hp. unfold jobs_with. rewrite ids_snoc.
  rewrite (proj2 (mem_str_spec _ _) H), filter_filter. apply filter_same. intros x _.
  unfold has_status_of. rewrite latest_row_snoc. unfold has_id.
  destruct (String.eqb (jr_job_id r) x); [by rewrite Hp, andb_false_r|by rewrite andb_true_r].
Qed.

(** A row of a job that had the status already. *)
Lemma jobs_with_keep p l r :
  jr_job_id r ∈ jobs_with p l → p (jr_status r) = true → jobs_with p (l ++ [r]) = jobs_with p l.
Proof.
  intros H Hp. unfold jobs_with. rewrite ids_snoc.
  rewrite (proj2 (mem_str_spec _ _)) by by eapply jobs_with_incl. apply filter_same. intros x _.
  unfold has_status_of at 1. rewrite latest_row_snoc. destruct (has_id x r) eqn:Ex; [|done].
  apply has_id_true in Ex as <-. rewrite Hp. symmetry.
  unfold jobs_with in H. by apply elem_of_filter_bool in H as [_ ?].
Qed.

(** A row that gives the status to the only job that has it. *)
Lemma jobs_with_only p l r :
  jr_job_id r ∈ ids l → p (jr_status r) = true → jobs_with p l = [] → jobs_with p (l ++ [r]) = [jr_job_id r].
Proof.
  intros H Hp Hn. unfold jobs_with in *. rewrite ids_snoc, (proj2 (mem_str_spec _ _) H).
  assert (E : List.filter (has_status_of p (l ++ [r])) (ids l) =
              List.filter (String.eqb (jr_job_id r)) (ids l)).
  { apply filter_same. intros x Hx. unfold has_status_of. rewrite latest_row_snoc. unfold has_id.
    destruct (String.eqb_spec (jr_job_id r) x) as [_|Ex]; [done|].
    assert (Hf : x ∉ List.filter (has_status_of p l) (ids l)) by (rewrite Hn; set_solver).
    rewrite elem_of_filter_bool in Hf. unfold has_status_of in Hf.
    destruct (latest_row l x) as [r'|]; [|done]. destruct (p (jr_status r')); [naive_solver|done]. }
  rewrite E. clear -H. pose proof (ids_nodup l) as Hd. revert H Hd. generalize (ids l).
  intros k H Hd. induction Hd as [|x k Hx Hk IH]; [set_solver|]. cbn.
  destruct (String.eqb_spec (jr_job_id r) x) as [<-|Ex].
  - f_equal. clear IH H Hk. induction k as [|y k IH]; [done|]. cbn.
    destruct (String.eqb_spec (jr_job_id r) y) as [<-|_]; [set_solver|]. apply IH. set_solver.
  - apply IH. set_solver.
Qed.

Lemma queue_remove_spec x l :
  NoDup l → (queue_remove x l).2 = List.filter (λ y, negb (String.eqb x y)) l.
Proof.
  induction 1 as [|y l Hy Hl IH]; [done|]. cbn. rewrite String.eqb_sym.
  destruct (String.eqb_spec x y) as [<-|Hn]; cbn; [|by rewrite IH].
  clear IH Hl. induction l as [|z l IH]; [done|]. cbn.
  destruct (String.eqb_spec x z) as [<-|_]; cbn; [set_solver|]. f_equal. apply IH. set_solver.
Qed.

Lemma filter_absent x l : x ∉ l → List.filter (λ y, negb (String.eqb x y)) l = l.
Proof.
  induction l as [|y l IH]; [done|]. intros H. cbn.
  destruct (String.eqb_spec x y) as [<-|_]; [set_solver|]. cbn. f_equal. apply IH. set_solver.
Qed.

(** A row of a known job that changes nothing about the status. *)
Lemma jobs_with_same p l r old :
  latest_row l (jr_job_id r) = Some old → p (jr_status r) = p (jr_status old) →
  jobs_with p (l ++ [r]) = jobs_with p l.
Proof.
  intros Ho Hp. destruct (p (jr_status old)) eqn:Eo.
  - apply jobs_with_keep; [|done]. apply elem_of_jobs_with. by exists old.
  - rewrite jobs_with_drop; [|apply elem_of_ids; apply latest_row_some in Ho as [? ?]; by exists old|done].
    apply filter_absent. intros (r' & Hr' & Hp')%elem_of_jobs_with. congruence.
Qed.

Lemma filter_permutation {A} (p : A → bool) (l k : list A) : l ≡ₚ k → List.filter p l ≡ₚ List.filter p k.
Proof.
  induction 1 as [|x l k _ IH|x y l|l k m _ IH1 _ IH2]; cbn; [done| | |by etrans].
  - destruct (p x); [by constructor|done].
  - destruct (p x), (p y); [by constructor|done..].
Qed.

Lemma statuses_snoc id l r :
  statuses id (l ++ [r]) = if has_id id r then statuses id l ++ [jr_status r] else statuses id l.
Proof.
  unfold statuses. rewrite List.filter_app. cbn. destruct (has_id id r); [|by rewrite app_nil_r].
  by rewrite map_app.
Qed.

Lemma last_status id l : last (statuses id l) = jr_status <$> latest_row l id.
Proof.
  induction l as [|r l IH] using rev_ind; [done|]. rewrite statuses_snoc, latest_row_snoc.
  destruct (has_id id r); [|done]. by rewrite last_snoc.
Qed.

(** A job that has ended keeps its end. *)
Lemma lifecycle_final sts st i j a :
  lifecycle sts → sts !! i = Some st → job_terminal st = true → (i ≤ j)%nat → sts !! j = Some a → a = st.
Proof.
  intros H. revert i j st a. induction H as [|sts x H IH Hx]; intros i j st a Hi Ht Hij Hj; [done|].
  apply lookup_snoc_Some in Hj as [[Hj1 Hj2]|[Hj1 ->]].
  - apply (IH i j st a); [|done..]. rewrite lookup_app_l in Hi; [done|lia].
  - apply lookup_snoc_Some in Hi as [[Hi1 Hi2]|[Hi1 ->]]; [|done].
    assert (Hl : last sts = Some st).
    { rewrite last_lookup. destruct (lookup_lt_is_Some_2 sts (pred (length sts))) as [y Hy]; [lia|].
      rewrite Hy. f_equal. apply (IH i (pred (length sts)) st y); [exact Hi2|done|lia|exact Hy]. }
    rewrite Hl in Hx. by destruct st, a.
Qed.
