(* ===== verification/Dispatch.v ===== *)
(** The dispatcher's handling of jobs, [lib/ccbd/services/dispatcher_runtime/]: its records
    ([records.py]), the runtime view it keeps in step ([runtime_state.py]), admission
    ([submission_recording.py], [fifo_order.py]), the start of a job
    ([lifecycle_start_runtime/start.py] up to the provider), and the writing of its end
    ([completion_runtime/], [finalization_runtime/persistence.py], [artifacts.py],
    [message_bureau_persistence.py], the end of [cancellation.py], [callbacks.py]).

    The state is everything these touch: the job store, the queues of [DispatchState], the
    message bureau with the mailbox kernel inside, the completion tracker, the snapshots,
    and the registry of agent runtimes.

    The dispatcher as the daemon drives it, [lib/ccbd/services/dispatcher.py] with
    [dispatcher_runtime/]: its start, and the admission of the jobs of a request
    ([submission_recording.py]). *)

From Stdlib Require Import Ascii String ZArith Lia.
From stdpp Require Import base gmap list strings.
From S2P Require Import Prelude PyData Names MailboxModels MailboxKernel CompletionModels Detectors Jobs Api JobStore BureauModels BureauState Bureau Completion Artifacts DispatchState DispatchPolicy.

Local Open Scope Z_scope.

#[export] Instance CompletionCursor_eq_dec : EqDecision CompletionCursor.
Proof. solve_decision. Defined.
#[export] Instance CompletionState_eq_dec : EqDecision CompletionState.
Proof. solve_decision. Defined.

Definition without_diagnostics (d : CompletionDecision) :=
  (cd_terminal d, cd_status d, cd_reason d, cd_confidence d, cd_reply d,
   (cd_anchor_seen d, cd_reply_started d, cd_reply_stable d),
   (cd_provider_turn_ref d, cd_source_cursor d, cd_finished_at d)).

Definition decision_eqb (a b : CompletionDecision) : bool :=
  bool_decide (without_diagnostics a = without_diagnostics b) &&
  py_eq (VDict (cd_diagnostics a)) (VDict (cd_diagnostics b)).

(** ** State *)

Inductive AgentState := AS_STARTING | AS_IDLE | AS_BUSY | AS_STOPPING | AS_STOPPED | AS_DEGRADED | AS_FAILED.

#[export] Instance AgentState_eq_dec : EqDecision AgentState.
Proof. solve_decision. Defined.

(** The fields of [AgentRuntime] the dispatcher reads or writes. *)
Record AgentRuntime := MkRuntime {
  rt_state : AgentState;
  rt_queue_depth : Z;
  rt_last_seen_at : option string;
  rt_workspace_path : option string;
}.

#[export] Instance AgentRuntime_eq_dec : EqDecision AgentRuntime.
Proof. solve_decision. Defined.

Record dispatcher := Dispatcher {
  di_jobs : jstate;
  di_queues : qstate;
  di_bureau : bstate;
  di_trackers : trackers;
  di_snapshots : gmap string CompletionSnapshot;
  di_registry : gmap string AgentRuntime;
  di_ids : nat;             (** identifiers drawn *)
  di_readings : nat;        (** readings of the clock *)
  di_view_revision : Z;     (** [project_view_revision] *)
  di_artifacts : artifacts;
}.

(** [dc_agents] is the configured agents in order, [dc_tracking] tells whether there is a
    completion tracker, [dc_tracker] has the specs of the agents and the catalog. *)
Record dconfig := DConfig {
  dc_agents : list string;
  dc_tracking : bool;
  dc_tracker : tconfig;
  dc_bureau : bconfig;
  dc_hex : nat → string;
  dc_clock : nat → string;
  dc_artifacts : aconfig;
}.

Abbreviation DM := (M dispatcher).

Definition on_jobs {A} (m : JM A) : DM A := λ s,
  let '(x, r) := m (di_jobs s) in
  (Dispatcher x (di_queues s) (di_bureau s) (di_trackers s) (di_snapshots s) (di_registry s)
     (di_ids s) (di_readings s) (di_view_revision s) (di_artifacts s), r).

Definition on_queues {A} (m : QM A) : DM A := λ s,
  let '(x, r) := m (di_queues s) in
  (Dispatcher (di_jobs s) x (di_bureau s) (di_trackers s) (di_snapshots s) (di_registry s)
     (di_ids s) (di_readings s) (di_view_revision s) (di_artifacts s), r).

Definition on_bureau {A} (m : BM A) : DM A := λ s,
  let '(x, r) := m (di_bureau s) in
  (Dispatcher (di_jobs s) (di_queues s) x (di_trackers s) (di_snapshots s) (di_registry s)
     (di_ids s) (di_readings s) (di_view_revision s) (di_artifacts s), r).

Definition on_trackers {A} (m : TM A) : DM A := λ s,
  let '(x, r) := m (di_trackers s) in
  (Dispatcher (di_jobs s) (di_queues s) (di_bureau s) x (di_snapshots s) (di_registry s)
     (di_ids s) (di_readings s) (di_view_revision s) (di_artifacts s), r).

Definition on_artifacts {A} (m : AM A) : DM A := λ s,
  let '(x, r) := m (di_artifacts s) in
  (Dispatcher (di_jobs s) (di_queues s) (di_bureau s) (di_trackers s) (di_snapshots s) (di_registry s)
     (di_ids s) (di_readings s) (di_view_revision s) x, r).

Definition set_snapshot (p : CompletionSnapshot) : DM unit := mmod (λ s,
  Dispatcher (di_jobs s) (di_queues s) (di_bureau s) (di_trackers s)
    (<[cp_job_id p := p]> (di_snapshots s)) (di_registry s) (di_ids s) (di_readings s)
    (di_view_revision s) (di_artifacts s)).

Definition set_runtime (agent_name : string) (r : AgentRuntime) : DM unit := mmod (λ s,
  Dispatcher (di_jobs s) (di_queues s) (di_bureau s) (di_trackers s) (di_snapshots s)
    (<[agent_name := r]> (di_registry s)) (di_ids s) (di_readings s) (di_view_revision s) (di_artifacts s)).

(** [_mark_project_view_dirty] *)
Definition mark_project_view_dirty : DM unit := mmod (λ s,
  Dispatcher (di_jobs s) (di_queues s) (di_bureau s) (di_trackers s) (di_snapshots s) (di_registry s)
    (di_ids s) (di_readings s) (di_view_revision s + 1) (di_artifacts s)).

Definition dispatch_error {A} (parts : list string) : DM A := mraise DispatchError (text parts).

Section dispatcher.
Context (cfg : dconfig).

(** [_new_id] *)
Definition fresh_id (pre : string) : DM string := λ s,
  (Dispatcher (di_jobs s) (di_queues s) (di_bureau s) (di_trackers s) (di_snapshots s) (di_registry s)
     (S (di_ids s)) (di_readings s) (di_view_revision s) (di_artifacts s),
   Ok (String.append pre (String.append "_" (dc_hex cfg (di_ids s))))).

(** [_clock()] *)
Definition clock : DM string := λ s,
  (Dispatcher (di_jobs s) (di_queues s) (di_bureau s) (di_trackers s) (di_snapshots s) (di_registry s)
     (di_ids s) (S (di_readings s)) (di_view_revision s) (di_artifacts s), Ok (dc_clock cfg (di_readings s))).

(** ** [records.py] *)

Fixpoint find_job (agent_names : list string) (job_id : string) : DM (option JobRecord) :=
  match agent_names with
  | [] => mret' None
  | candidate :: rest =>
      let* record := on_jobs (get_latest_target candidate job_id) in
      match record with
      | Some r => do* on_queues (remember_job job_id (agent_slot candidate)) in mret' (Some r)
      | None => find_job rest job_id
      end
  end.

Definition get_job (job_id : string) : DM (option JobRecord) :=
  let* target := on_queues (target_for_job job_id) in
  match target with
  | Some sl => on_jobs (get_latest_target sl.2 job_id)
  | None => find_job (dc_agents cfg) job_id
  end.

(** [max(latest rows, key=created_at)]: the first of the latest. *)
Definition latest_created (rows : list JobRecord) : option JobRecord :=
  foldl (λ best r, match best with
                   | None => Some r
                   | Some b => if str_gtb (jr_created_at r) (jr_created_at b) then Some r else best
                   end) None rows.

Definition latest_for_agent (agent_name : string) : DM (option JobRecord) :=
  let* records := on_jobs (list_agent agent_name) in
  mret' (latest_created (latest_by_job records)).

Definition append_job (r : JobRecord) : DM unit :=
  do* on_jobs (job_append r) in
  do* on_queues (record r) in
  mark_project_view_dirty.

Definition append_event (r : JobRecord) (event_type : string) (payload : pydict) (timestamp : string)
    : DM unit :=
  let* event_id := fresh_id "evt" in
  let* e := mlift (new_job_event (MkJobEvent event_id (jr_job_id r) (jr_agent_name r) event_type payload
                                    timestamp (jr_target_kind r) (jr_target_name r))) in
  do* on_jobs (job_event_append e) in
  mark_project_view_dirty.

(** ** [fifo_order.py] *)

Definition job_id_for_event (e : InboundEventRecord) : option string :=
  match ie_event_type e with
  | TASK_REQUEST => job_id_from_payload_ref (ie_payload_ref e)
  | TASK_REPLY => delivery_job_id_from_payload (ie_payload_ref e)
  | _ => None
  end.

Fixpoint mailbox_pending_job_order (agent_names : list string) : DM (gmap string (list string)) :=
  match agent_names with
  | [] => mret' ∅
  | a :: rest =>
      let* events := on_bureau (on_kernel (pending_events a None)) in
      let* order := mailbox_pending_job_order rest in
      mret' (<[a := omap job_id_for_event events]> order)
  end.

Definition rebuild_dispatcher_state : DM unit :=
  let* order := mailbox_pending_job_order (dc_agents cfg) in
  let* jobs := mget di_jobs in
  on_queues (rebuild jobs (dc_agents cfg) order).

(** ** [runtime_state.py] *)

(** [registry.get] *)
Definition registry_get (agent_name : string) : DM (option AgentRuntime) :=
  let* name := mlift (normalize_agent_name agent_name) in mget (λ s, di_registry s !! name).

(** [replace(runtime, …)], whose constructor wants a workspace of an active runtime, then
    [upsert], which wants a configured agent. *)
Definition registry_upsert (agent_name : string) (r : AgentRuntime) : DM unit :=
  do* mlift (raise_if (match rt_state r with AS_IDLE | AS_BUSY | AS_DEGRADED => true | _ => false end
                       && negb (opt_truthy (rt_workspace_path r))) AgentValidationError
               "workspace_path is required for active runtime states") in
  let* name := mlift (normalize_agent_name agent_name) in
  do* mlift (raise_if (negb (mem_str name (dc_agents cfg))) KeyError (text ["unknown agent: "; name])) in
  set_runtime name r.

Definition next_runtime_state (active : option string) (current : AgentState) (state : option AgentState)
    : AgentState :=
  let next :=
    match state with
    | Some st => st
    | None => match active with
              | Some _ => AS_BUSY
              | None => if bool_decide (current = AS_BUSY) then AS_IDLE else current
              end
    end in
  if bool_decide (next = AS_BUSY) && bool_decide (current = AS_STOPPED) then AS_IDLE else next.

Definition sync_runtime (agent_name : string) (state : option AgentState) : DM unit :=
  let* runtime := registry_get agent_name in
  match runtime with
  | None => mret' tt
  | Some r =>
      let* active := on_queues (active_job_for (agent_slot agent_name)) in
      let* depth := on_queues (queue_depth_for (agent_slot agent_name)) in
      let* now := clock in
      registry_upsert agent_name
        (MkRuntime (next_runtime_state active (rt_state r) state) depth (Some now) (rt_workspace_path r))
  end.

(** ** [submission_recording.py] *)

Record JobDraft := MkDraft {
  jd_agent_name : string;
  jd_provider : string;
  jd_request : MessageEnvelope;
  jd_target_kind : TargetKind;
  jd_target_name : string;
  jd_provider_instance : option string;
  jd_provider_options : option pydict;
  jd_workspace_path : option string;
}.

Definition pending_status_for (sl : slot) : DM JobStatus :=
  let* outstanding := on_queues (has_outstanding_for sl) in
  mret' (if outstanding : bool then JS_QUEUED else JS_ACCEPTED).

Definition build_job_record (draft : JobDraft) (job_id : string) (submission_id : option string)
    (accepted_at : string) : DM (JobRecord * JobStatus) :=
  let* status := pending_status_for (jd_target_kind draft, jd_target_name draft) in
  let* job := mlift (new_job
    (MkJob job_id submission_id (jd_agent_name draft) (jd_provider draft) (jd_request draft) status None None
       accepted_at accepted_at (jd_workspace_path draft) (jd_target_kind draft) (jd_target_name draft)
       (jd_provider_instance draft) (default [] (jd_provider_options draft)))) in
  mret' (job, status).

Definition receipt_for_job (job : JobRecord) (status : JobStatus) (accepted_at : string)
    : result AcceptedJobReceipt :=
  new_accepted
    (MkAccepted (jr_job_id job) (jr_agent_name job) status accepted_at (jr_target_kind job)
       (jr_target_name job) (jr_provider_instance job)).

Definition accepted_event (status : JobStatus) : string :=
  if bool_decide (status = JS_ACCEPTED) then "job_accepted" else "job_queued".

Definition enqueue_submitted_job (job : JobRecord) (status : JobStatus) (accepted_at : string)
    : DM AcceptedJobReceipt :=
  do* append_job job in
  do* append_event job (accepted_event status) [("status", VStr (JobStatus_value status))] accepted_at in
  do* on_queues (enqueue_for (slot_of job) (jr_job_id job)) in
  do* sync_runtime (jr_agent_name job) None in
  mlift (receipt_for_job job status accepted_at).

Definition append_submission_job (submission_id : option string) (job_id updated_at : string) : DM unit :=
  match submission_id with
  | Some (String _ _ as id) =>
      let* current := on_jobs (submission_get_latest id) in
      match current with
      | None => mret' tt
      | Some c =>
          let job_ids := if mem_str job_id (sr_job_ids c) then sr_job_ids c else sr_job_ids c ++ [job_id] in
          let* r := mlift (new_submission
            (MkSubmission (sr_submission_id c) (sr_project_id c) (sr_from_actor c) (sr_target_scope c)
               (sr_task_id c) job_ids (sr_created_at c) updated_at)) in
          on_jobs (submission_append r)
      end
  | _ => mret' tt
  end.

(** ** [snapshot_writer.py] *)

Definition PREVIEW_LIMIT : nat := 240.

Definition reply_preview (reply : string) : string :=
  let t := strip reply in
  if (String.length t <=? PREVIEW_LIMIT)%nat then t
  else String.append (rstrip (substring 0 PREVIEW_LIMIT t)) "...".

Definition write_completion (job_id agent_name : string) (family : CompletionFamily)
    (state : CompletionState) (decision : CompletionDecision) (updated_at : string) : DM unit :=
  let* timestamp := (if truthy updated_at then mret' updated_at else clock) in
  let* p := mlift (new_snapshot (MkSnapshot job_id agent_name family state decision
                                   (reply_preview (cd_reply decision)) timestamp)) in
  set_snapshot p.

Definition write_pending (job_id agent_name : string) (family : CompletionFamily) : DM unit :=
  write_completion job_id agent_name family (initial_state None) (pending_decision None) "".

Definition snapshot_load (job_id : string) : DM (option CompletionSnapshot) :=
  mget (λ s, di_snapshots s !! job_id).

(** [_profile_family]: [registry.spec_for], then the catalog. *)
Definition profile_family (agent_name : string) : DM CompletionFamily :=
  let* name := mlift (normalize_agent_name agent_name) in
  let* spec := mlift (match tc_agents (dc_tracker cfg) !! name with
                      | Some sp => Ok sp
                      | None => raise KeyError (text ["unknown agent: "; name])
                      end) in
  let* manifest := mlift (resolve_completion_manifest (sp_provider spec) (sp_runtime_mode spec)
                            (tc_catalog (dc_tracker cfg))) in
  mret' (cm_completion_family manifest).

(** ** [completion_runtime/snapshots.py] *)

Definition resolve_tracker_timestamp (tracked : CompletionTrackerView) (updated_at : option string)
    : DM (option string) :=
  match updated_at with
  | Some _ => mret' updated_at
  | None =>
      match cd_source_cursor (tv_decision tracked) with
      | Some c => mret' (cc_updated_at c)
      | None => let* now := clock in mret' (Some now)
      end
  end.

(** [JobDispatcher._apply_tracker_view]: [False] when there is nothing to record.  A cursor
    without a time gives none to the snapshot, which then reads the clock, and ends here. *)
Definition apply_tracker_view (job : JobRecord) (tracked : CompletionTrackerView)
    (updated_at : option string) : DM bool :=
  let* family := profile_family (jr_agent_name job) in
  let* prior := snapshot_load (jr_job_id job) in
  let stale :=
    match prior with
    | None => false
    | Some p =>
        (st_terminal (cp_state p) && negb (cd_terminal (tv_decision tracked))) ||
        (bool_decide (cp_state p = tv_state tracked) &&
         decision_eqb (cp_latest_decision p) (tv_decision tracked))
    end in
  if stale then mret' false
  else
    let* timestamp := resolve_tracker_timestamp tracked updated_at in
    do* write_completion (jr_job_id job) (jr_agent_name job) family (tv_state tracked)
          (tv_decision tracked) (str_or timestamp "") in
    match timestamp with
    | None => mret' false
    | Some t =>
        do* append_event job "completion_state_updated" (state_to_record (tv_state tracked)) t in
        mret' true
    end.

(** ** The start of a job, up to the provider *)

Definition job_replace (j : JobRecord) (status : JobStatus) (terminal_decision : option pydict)
    (cancel_requested_at : option string) (updated_at : string) : result JobRecord :=
  new_job
    (MkJob (jr_job_id j) (jr_submission_id j) (jr_agent_name j) (jr_provider j) (jr_request j) status
       terminal_decision cancel_requested_at (jr_created_at j) updated_at (jr_workspace_path j)
       (jr_target_kind j) (jr_target_name j) (jr_provider_instance j) (jr_provider_options j)).

Definition write_running_snapshot (running : JobRecord) (started_at : string) : DM unit :=
  if dc_tracking cfg then
    let* tracked := on_trackers (tracker_start (dc_tracker cfg) running started_at) in
    let* family := profile_family (jr_agent_name running) in
    match tracked with
    | Some v => write_completion (jr_job_id running) (jr_agent_name running) family (tv_state v)
                  (tv_decision v) started_at
    | None => mraise AssertionError ""
    end
  else
    let* family := profile_family (jr_agent_name running) in
    write_pending (jr_job_id running) (jr_agent_name running) family.

(** [_still_claimable], for the slot of a target *)
Definition still_claimable (sl : slot) (job : JobRecord) : DM bool :=
  let* current := get_job (jr_job_id job) in
  match current with
  | None => mret' false
  | Some c =>
      if negb (bool_decide (jr_status c = jr_status job)) then mret' false
      else
        let* queued := on_queues (queued_items_for sl) in
        if negb (mem_str (jr_job_id job) queued) then mret' false
        else
          let* active := on_queues (active_job_for sl) in
          mret' (is_none active)
  end.

(** [start_running_job] before it turns to the execution service; the caller has taken the
    job from its queue. *)
Definition begin_running_job (job : JobRecord) (started_at : string) : DM JobRecord :=
  let* running := mlift (job_replace job JS_RUNNING (jr_terminal_decision job)
                           (jr_cancel_requested_at job) started_at) in
  do* on_bureau (mark_attempt_started (dc_bureau cfg) running started_at) in
  do* append_job running in
  do* append_event running "job_started"
        [("status", VStr (JobStatus_value JS_RUNNING)); ("delivery_stage", VStr "claim_started");
         ("delivery_mechanism", VStr "dispatcher")] started_at in
  do* write_running_snapshot running started_at in
  do* on_queues (mark_active_for (slot_of running) (jr_job_id running)) in
  do* sync_runtime (jr_agent_name running) (Some AS_BUSY) in
  mret' running.

(** ** [finalization_runtime/artifacts.py] *)

Definition int_value (v : pyval) : Z := safe_int (py_or v (VInt 0)) 0.

Definition is_kimi_no_captured_reply (job : JobRecord) (d : CompletionDecision) : bool :=
  String.eqb (lower (strip (jr_provider job))) "kimi" &&
  String.eqb (str_or (cd_reason d) "") "kimi_native_turn_timeout" &&
  (int_value (diag d "reply_chars") =? 0) &&
  (py_truthy (diag d "no_captured_reply") || py_truthy (diag d "provider_no_reply") ||
   match diag d "receipt_class" with VStr c => String.eqb c "no_captured_reply" | _ => false end).

Definition NO_EVIDENCE : string :=
  "Instruction: no provider reply was captured; do not treat this artifact as task evidence.".

Definition forced_artifact_reply (job : JobRecord) (d : CompletionDecision) (artifact : pydict)
    : string * pydict :=
  let diagnostics := cd_diagnostics d in
  if is_kimi_no_captured_reply job d then
    (artifact_stub
       (text ["CCB completion reply for job "; jr_job_id job; " has no captured Kimi provider reply; ";
              "--artifact-reply stored an empty artifact for transport metadata only."])
       artifact false (Some NO_EVIDENCE),
     dset (dset diagnostics "artifact_instruction" (VStr "no_provider_reply_captured"))
       "artifact_empty_no_provider_reply" (VBool true))
  else if blank (cd_reply d) then
    let provider := strip (or_str (jr_provider job) "provider") in
    (artifact_stub
       (text ["CCB completion reply for job "; jr_job_id job; " has no captured "; provider;
              " provider reply; --artifact-reply stored an empty artifact for transport metadata only."])
       artifact false (Some NO_EVIDENCE),
     dset (dset (dset diagnostics "artifact_instruction" (VStr "no_provider_reply_captured"))
             "artifact_empty_no_provider_reply" (VBool true)) "no_captured_reply" (VBool true))
  else
    (artifact_stub
       (text ["CCB completion reply for job "; jr_job_id job;
              " was stored as an artifact by --artifact-reply."]) artifact false None,
     diagnostics).

Definition spill_terminal_reply_if_needed (job : JobRecord) (d : CompletionDecision) (finished_at : string)
    : DM CompletionDecision :=
  match diag d "reply_artifact" with
  | VDict _ => mret' d
  | _ =>
      if py_truthy (dget (me_route_options (jr_request job)) "artifact_reply") then
        let* artifact := on_artifacts (write_text_artifact (dc_artifacts cfg) (cd_reply d) "completion-reply"
                                         (jr_job_id job) TEXT_ARTIFACT_TTL (Some finished_at)) in
        let '(reply, diagnostics) := forced_artifact_reply job d artifact in
        mlift (with_body d reply
                 (dset (dset diagnostics "artifact_reply_forced" (VBool true)) "reply_artifact" (VDict artifact)))
      else
        let* spilled := on_artifacts (maybe_spill_text (dc_artifacts cfg) (cd_reply d) "completion-reply"
          (jr_job_id job)
          (text ["CCB completion reply for job "; jr_job_id job;
                 " is larger than 4 KiB and was stored as an artifact."])
          TEXT_ARTIFACT_SPILL_BYTES TEXT_ARTIFACT_TTL (Some finished_at)) in
        match spilled.2 with
        | None => mret' d
        | Some artifact =>
            mlift (with_body d spilled.1 (dset (cd_diagnostics d) "reply_artifact" (VDict artifact)))
        end
  end.

(** ** The end of a job *)

Definition TERMINAL_EVENT (st : JobStatus) : result string :=
  match st with
  | JS_COMPLETED => Ok "job_completed" | JS_CANCELLED => Ok "job_cancelled"
  | JS_FAILED => Ok "job_failed" | JS_INCOMPLETE => Ok "job_incomplete"
  | _ => raise KeyError (JobStatus_value st)
  end.

(** [JobStatus(decision.status.value)] *)
Definition status_of_decision (st : CompletionStatus) : JobStatus :=
  match st with
  | CS_COMPLETED => JS_COMPLETED | CS_CANCELLED => JS_CANCELLED | CS_FAILED => JS_FAILED
  | CS_INCOMPLETE => JS_INCOMPLETE
  end.

Definition snapshot_view (p : option CompletionSnapshot) : option (CompletionState * string) :=
  option_map (λ p, (cp_state p, cd_reply (cp_latest_decision p))) p.

Definition tracked_view (v : option CompletionTrackerView) : option (CompletionState * string) :=
  option_map (λ v, (tv_state v, cd_reply (tv_decision v))) v.

(** [_merge_terminal_decision] with the tracker. *)
Definition merged_decision (job_id : string) (d : CompletionDecision) (prior : option CompletionSnapshot)
    : DM CompletionDecision :=
  let* tracked := (if dc_tracking cfg then on_trackers (current job_id) else mret' None) in
  mlift (merge_terminal_decision d (tracked_view tracked) (snapshot_view prior)).

(** The writes both ends of a job share: forget the tracker, snapshot, events, final row. *)
Definition write_terminal (job : JobRecord) (d : CompletionDecision) (prior : option CompletionSnapshot)
    (status : JobStatus) (cancel_requested_at : option string) (finished_at : string) : DM JobRecord :=
  do* (if dc_tracking cfg then on_trackers (tracker_finish (jr_job_id job)) else mret' tt) in
  let* family := profile_family (jr_agent_name job) in
  do* write_completion (jr_job_id job) (jr_agent_name job) family
        (build_terminal_state d (option_map cp_state prior)) d finished_at in
  do* append_event job "completion_terminal" (decision_to_record d) finished_at in
  let* terminal := mlift (job_replace job status (Some (decision_to_record d)) cancel_requested_at finished_at) in
  do* append_job terminal in
  let* event := mlift (TERMINAL_EVENT status) in
  do* append_event terminal event [("status", VStr (JobStatus_value status))] finished_at in
  mret' terminal.

Definition persist_terminal_completion (job : JobRecord) (d : CompletionDecision) (finished_at : string)
    : DM (JobRecord * CompletionDecision * option CompletionSnapshot) :=
  let* prior := snapshot_load (jr_job_id job) in
  let* d := merged_decision (jr_job_id job) d prior in
  let* d := spill_terminal_reply_if_needed job d finished_at in
  let* terminal := write_terminal job d prior (status_of_decision (cd_status d))
                     (jr_cancel_requested_at job) finished_at in
  do* on_queues (clear_active_for (slot_of job) (Some (jr_job_id job))) in
  mret' (terminal, d, prior).

(** [message_bureau_persistence.py] *)
Definition persist_reply_decision (job terminal : JobRecord) (d : CompletionDecision)
    (prior : option CompletionSnapshot) (finished_at : string) : DM JobRecord :=
  let* terminal := mlift (job_replace terminal (jr_status terminal) (Some (decision_to_record d))
                            (jr_cancel_requested_at terminal) (jr_updated_at terminal)) in
  do* append_job terminal in
  let* family := profile_family (jr_agent_name job) in
  do* write_completion (jr_job_id job) (jr_agent_name job) family
        (build_terminal_state d (option_map cp_state prior)) d finished_at in
  mret' terminal.

(** [callbacks.py]: the row of a job whose result is delegated to a chain. *)
Definition persist_delegated_terminal_job (job : JobRecord) (edge : CallbackEdgeRecord) (finished_at : string)
    : DM JobRecord :=
  let decision := dupdate (default [] (jr_terminal_decision job))
    [("delegated", VBool true); ("suppress_reply", VBool true); ("chain_edge_id", VStr (ce_edge_id edge));
     ("chain_child_job_id", VStr (ce_child_job_id edge))] in
  let* delegated := mlift (job_replace job (jr_status job) (Some decision) (jr_cancel_requested_at job)
                             (jr_updated_at job)) in
  do* append_job delegated in
  do* append_event delegated "job_delegated_chain"
        [("edge_id", VStr (ce_edge_id edge)); ("chain_child_job_id", VStr (ce_child_job_id edge));
         ("chain_target_agent", VStr (ce_callback_target_agent edge))] finished_at in
  mret' delegated.

(** ** [cancellation.py] *)

Definition cancel_receipt (terminal : JobRecord) : result CancelReceipt :=
  new_cancel (MkCancel (jr_job_id terminal) (jr_agent_name terminal) JS_CANCELLED (jr_updated_at terminal)
                (jr_target_kind terminal) (jr_target_name terminal) (jr_provider_instance terminal)).

(** The beginning of [cancel_job]: a receipt when the job is cancelled already, else the
    row that asks for it. *)
Definition request_cancel (job_id : string) : DM (CancelReceipt + JobRecord) :=
  let* current := get_job job_id in
  match current with
  | None => dispatch_error ["unknown job: "; job_id]
  | Some c =>
      if bool_decide (jr_status c = JS_CANCELLED) then
        let* receipt := mlift (cancel_receipt c) in mret' (inl receipt)
      else if job_terminal (jr_status c) then
        dispatch_error ["job is already terminal: "; JobStatus_value (jr_status c)]
      else
        let* cancelled_at := clock in
        let* marked := mlift (job_replace c (jr_status c) (jr_terminal_decision c) (Some cancelled_at) cancelled_at) in
        do* append_job marked in
        do* append_event marked "job_cancel_requested" [("status", VStr (JobStatus_value (jr_status c)))]
              cancelled_at in
        mret' (inr marked)
  end.

(** [_cancel_diagnostics] *)
Definition cancel_diagnostics (evidence : option CompletionDecision) : pydict :=
  match evidence with
  | None => [("cancel_requested", VBool true)]
  | Some e =>
      let source := py_or (diag e "cancel_reply_source")
                      (py_or (diag e "completion_source") (VStr "provider_terminal_evidence")) in
      dupdate [("cancel_requested", VBool true)]
        ([("cancel_reply_salvaged", VBool true); ("cancel_reply_source", VStr (py_str source));
          ("captured_completion_status", VStr (CompletionStatus_value (cd_status e)));
          ("captured_completion_reason", of_opt_str (cd_reason e));
          ("captured_completion_finished_at", of_opt_str (cd_finished_at e))]
         ++ omap (λ k, match diag e k with VNone => None | v => Some (k, v) end)
              ["completion_source"; "completion_fallback_source"; "hook_event_name"])
  end.

Definition cancel_decision (cancelled_at reply : string) (snapshot : option CompletionSnapshot)
    (evidence : option CompletionDecision) : result CompletionDecision :=
  let st := option_map cp_state snapshot in
  new_decision
    (MkDecision true CS_CANCELLED (Some "cancel_info") (Some DEGRADED) reply
       (match st with
        | Some x => st_anchor_seen x
        | None => match evidence with Some e => cd_anchor_seen e | None => false end
        end)
       (truthy reply || state_flag st_reply_started st)
       (match evidence with Some e => cd_reply_stable e | None => state_flag st_reply_stable st end)
       (match evidence with
        | Some e => cd_provider_turn_ref e
        | None => state_value st_provider_turn_ref st
        end)
       (match evidence with Some e => cd_source_cursor e | None => state_value st_latest_cursor st end)
       (Some cancelled_at) (cancel_diagnostics evidence)).

(** [cancel_with_decision] under the lock, up to the bureau: a receipt when somebody else
    cancelled the job, an error when it ended otherwise. *)
Definition cancel_terminal (job : JobRecord) (cancelled_at : string) (d : CompletionDecision)
    (snapshot : option CompletionSnapshot) : DM (CancelReceipt + JobRecord * CompletionDecision) :=
  let* latest := get_job (jr_job_id job) in
  match latest with
  | None => dispatch_error ["unknown job: "; jr_job_id job]
  | Some c =>
      if bool_decide (jr_status c = JS_CANCELLED) then
        let* receipt := mlift (cancel_receipt c) in mret' (inl receipt)
      else if job_terminal (jr_status c) then
        dispatch_error ["job is already terminal: "; JobStatus_value (jr_status c)]
      else
        let* d := spill_terminal_reply_if_needed c d cancelled_at in
        let* terminal := write_terminal c d snapshot JS_CANCELLED (Some cancelled_at) cancelled_at in
        do* on_queues (remove_queued_for (slot_of c) (jr_job_id c)) in
        do* on_queues (clear_active_for (slot_of c) (Some (jr_job_id c))) in
        mret' (inr (terminal, d))
  end.

(** ** [shutdown.py] *)

(** [_latest_nonterminal_job_ids]: rows of all agents, the first row of a job gives its
    place. *)
Fixpoint all_rows (agent_names : list string) : DM (list JobRecord) :=
  match agent_names with
  | [] => mret' []
  | a :: rest =>
      let* rows := on_jobs (list_agent a) in
      let* more := all_rows rest in
      mret' (rows ++ more)
  end.

Definition latest_nonterminal_job_ids : DM (list string) :=
  let* rows := all_rows (dc_agents cfg) in
  mret' (map jr_job_id (List.filter (λ r, negb (job_terminal (jr_status r))) (latest_by_job rows))).

Definition shutdown_decision (snapshot : option CompletionSnapshot) (shutdown_reason : string) (forced : bool)
    (finished_at : string) : result CompletionDecision :=
  let st := option_map cp_state snapshot in
  new_decision
    (MkDecision true CS_INCOMPLETE (Some "project_shutdown") (Some DEGRADED)
       "Project stopped before this request completed." (state_flag st_anchor_seen st)
       (state_flag st_reply_started st) (state_flag st_reply_stable st)
       (state_value st_provider_turn_ref st) (state_value st_latest_cursor st) (Some finished_at)
       [("shutdown", VBool true); ("shutdown_reason", VStr shutdown_reason); ("forced", VBool forced)]).
End dispatcher.

Section run.
Context (cfg : dconfig).

(** [JobDispatcher.__init__]: fresh memory, then [_rebuild_state]. *)
Definition start_dispatcher : DM unit :=
  do* mmod (λ s, Dispatcher (di_jobs s) (new_qstate (dc_agents cfg)) (di_bureau s) (di_trackers s)
                   (di_snapshots s) (di_registry s) (di_ids s) (di_readings s) (di_view_revision s)
                   (di_artifacts s)) in
  rebuild_dispatcher_state cfg.

(** ** [_submit_plan] *)

Record SubmissionPlan := MkPlan {
  pl_project_id : string;
  pl_from_actor : string;
  pl_request : MessageEnvelope;
  pl_task_id : option string;
  pl_drafts : list JobDraft;
  pl_submission_id : option string;
  pl_target_scope : option string;
  pl_origin_message_id : option string;
}.

(** One turn of the loop over the drafts. *)
Definition submit_draft (submission_id : option string) (accepted_at : string) (draft : JobDraft)
    : DM (JobRecord * AcceptedJobReceipt) :=
  let* job_id := fresh_id cfg "job" in
  let* built := build_job_record draft job_id submission_id accepted_at in
  let* receipt := enqueue_submitted_job cfg built.1 built.2 accepted_at in
  mret' (built.1, receipt).

Fixpoint submit_drafts (submission_id : option string) (accepted_at : string) (drafts : list JobDraft)
    : DM (list (JobRecord * AcceptedJobReceipt)) :=
  match drafts with
  | [] => mret' []
  | d :: rest =>
      let* x := submit_draft submission_id accepted_at d in
      let* l := submit_drafts submission_id accepted_at rest in
      mret' (x :: l)
  end.

End run.

(** The result of a computation whose exceptions are caught: what it did stays. *)
Definition caught {A} (m : DM A) : DM (option A) := λ s,
  match m s with
  | (s', Ok a) => (s', Ok (Some a))
  | (s', Err _) => (s', Ok None)
  end.
