(* ===== verification/Drain.v ===== *)
(** The drain queue of a reload, [lib/ccbd/reload_drain.py]: the records of agents that are
    being unloaded or replaced, when they wait, time out or retire, and the queue that
    refuses new work for them; and what a reload does to it
    ([lib/ccbd/reload_runtime_unload.py], [lib/ccbd/reload_drain_auto_retry.py]).

    Times are the code's floats, as IEEE 754 numbers of binary64.  The records' dictionaries
    are not modelled (they hold floats): the queue is kept as a value.

    Properties of a reload: the drain queue is bounded and lets go of its agents. *)

From Stdlib Require Import Ascii String ZArith Lia SpecFloat.
From stdpp Require Import base list strings gmap sets relations.
From S2P Require Import Prelude PyData Names Text Sha256.

Local Open Scope Z_scope.

(** ** Floats *)

Abbreviation float64 := spec_float.

Definition fadd (a b : float64) : float64 := SFadd 53 1024 a b.
Definition fle (a b : float64) : bool := SFleb a b.
Definition flt (a b : float64) : bool := SFltb a b.
(** The float of an integer. *)
Definition of_Z (z : Z) : float64 := binary_normalize 53 1024 z 0 false.

(** ** Records *)

Inductive IntentKind := UNLOAD | REPLACE.
Inductive DrainPhase := PENDING_UNLOAD | PENDING_REPLACE | DRAINING | RETIRING | PHASE_RETIRED | REJECTED.
Inductive DrainStatus := DR_PENDING | DR_WAITING | DR_IDLE_READY | DR_TIMED_OUT | DR_REJECTED_QUEUE_FULL | DR_RETIRED.

#[export] Instance IntentKind_eq_dec : EqDecision IntentKind.
Proof. solve_decision. Defined.
#[export] Instance DrainPhase_eq_dec : EqDecision DrainPhase.
Proof. solve_decision. Defined.
#[export] Instance DrainStatus_eq_dec : EqDecision DrainStatus.
Proof. solve_decision. Defined.

Record DrainBounds := MkBounds {
  db_max_pending : Z;
  db_timeout_s : float64;
  db_max_age_s : float64;
}.

Definition default_bounds : DrainBounds := MkBounds 16 (of_Z 300) (of_Z 900).

Definition new_bounds (b : DrainBounds) : result DrainBounds :=
  do! raise_if (db_max_pending b <=? 0) ValueError "max_pending must be positive" in
  do! raise_if (fle (db_timeout_s b) (S754_zero false)) ValueError "timeout_s must be positive" in
  do! raise_if (fle (db_max_age_s b) (S754_zero false)) ValueError "max_age_s must be positive" in
  Ok b.

Record DrainIntent := MkIntent {
  dn_intent_id : string;
  dn_intent_kind : IntentKind;
  dn_agent_name : string;
  dn_created_at_s : float64;
  dn_reason : option string;
  dn_old_config_signature : option string;
  dn_new_config_signature : option string;
}.

Definition new_intent (i : DrainIntent) : result DrainIntent :=
  do! raise_if (blank (dn_intent_id i)) ValueError "intent_id cannot be empty" in
  do! raise_if (blank (dn_agent_name i)) ValueError "agent_name cannot be empty" in
  Ok i.

Definition initial_phase (k : IntentKind) : DrainPhase :=
  match k with UNLOAD => PENDING_UNLOAD | REPLACE => PENDING_REPLACE end.

Record DrainRecord := MkDrain {
  dr_intent : DrainIntent;
  dr_phase : DrainPhase;
  dr_status : DrainStatus;
  dr_created_at_s : float64;
  dr_updated_at_s : float64;
  dr_deadline_at_s : float64;
  dr_max_age_deadline_at_s : float64;
  dr_reason : option string;
  dr_busy : option bool;
  dr_transition_count : Z;
}.

Definition drain_id (r : DrainRecord) : string := dn_intent_id (dr_intent r).
Definition drain_agent (r : DrainRecord) : string := dn_agent_name (dr_intent r).

(** [DrainRecord.terminal] *)
Definition drain_terminal (r : DrainRecord) : bool :=
  match dr_status r with DR_TIMED_OUT | DR_REJECTED_QUEUE_FULL | DR_RETIRED => true | _ => false end.

Definition with_transition (r : DrainRecord) (phase : DrainPhase) (status : DrainStatus) (now_s : float64)
    (reason : string) (busy : option bool) : DrainRecord :=
  MkDrain (dr_intent r) phase status (dr_created_at_s r) now_s (dr_deadline_at_s r)
    (dr_max_age_deadline_at_s r) (Some reason) busy (dr_transition_count r + 1).

(** [DrainRecord.pending] *)
Definition pending_drain (i : DrainIntent) (b : DrainBounds) (now_s : float64) : DrainRecord :=
  MkDrain i (initial_phase (dn_intent_kind i)) DR_PENDING now_s now_s (fadd now_s (db_timeout_s b))
    (fadd (dn_created_at_s i) (db_max_age_s b)) (dn_reason i) None 0.

(** [DrainRecord.rejected_queue_full] *)
Definition rejected_drain (i : DrainIntent) (b : DrainBounds) (now_s : float64) : DrainRecord :=
  MkDrain i REJECTED DR_REJECTED_QUEUE_FULL now_s now_s (fadd now_s (db_timeout_s b))
    (fadd (dn_created_at_s i) (db_max_age_s b)) (Some "pending drain queue is full") None 0.

(** ** The queue *)

Record DrainQueue := MkDrainQueue {
  dq_bounds : DrainBounds;
  dq_records : list DrainRecord;
}.

Definition empty_drain_queue (b : DrainBounds) : DrainQueue := MkDrainQueue b [].

Definition active_records (q : DrainQueue) : list DrainRecord :=
  List.filter (λ r, negb (drain_terminal r)) (dq_records q).

Definition pending_count (q : DrainQueue) : Z := Z.of_nat (length (active_records q)).

(** [enqueue]: the queue, the record made, and whether it was accepted. *)
Definition enqueue_drain (q : DrainQueue) (i : DrainIntent) (now_s : float64)
    : DrainQueue * DrainRecord * bool :=
  if flt (fadd (dn_created_at_s i) (db_max_age_s (dq_bounds q))) now_s then
    (q, with_transition (pending_drain i (dq_bounds q) now_s) DRAINING DR_TIMED_OUT now_s
          "intent age exceeds max_age_s" None, false)
  else if db_max_pending (dq_bounds q) <=? pending_count q then
    (q, rejected_drain i (dq_bounds q) now_s, false)
  else
    let record := pending_drain i (dq_bounds q) now_s in
    (MkDrainQueue (dq_bounds q) (dq_records q ++ [record]), record, true).

(** Every record of the intent is replaced. *)
Definition replace_record (q : DrainQueue) (updated : DrainRecord) : DrainQueue :=
  MkDrainQueue (dq_bounds q)
    (map (λ r, if String.eqb (drain_id r) (drain_id updated) then updated else r) (dq_records q)).

Definition active_records_for (q : DrainQueue) (agent_name : string) : list DrainRecord :=
  List.filter (λ r, String.eqb (drain_agent r) agent_name && negb (drain_terminal r)) (dq_records q).

Definition blocks_new_work_for (q : DrainQueue) (agent_name : string) : bool :=
  match active_records_for q agent_name with [] => false | _ => true end.

(** ** Transitions *)

Definition plan_drain_transition (r : DrainRecord) (now : float64) (busy : bool) : DrainRecord :=
  if drain_terminal r then r
  else if bool_decide (dr_status r = DR_IDLE_READY) then r
  else if fle (dr_max_age_deadline_at_s r) now then
    with_transition r DRAINING DR_TIMED_OUT now "drain max_age_s exceeded" None
  else if fle (dr_deadline_at_s r) now then
    with_transition r DRAINING DR_TIMED_OUT now "drain timeout_s exceeded" None
  else if busy then
    with_transition r DRAINING DR_WAITING now "agent is busy; drain remains bounded and pending" (Some true)
  else
    with_transition r RETIRING DR_IDLE_READY now "agent is idle and ready for retire step" (Some false).

Definition retire_record (r : DrainRecord) (now_s : float64) : DrainRecord :=
  if bool_decide (dr_status r = DR_RETIRED) then r
  else if negb (bool_decide (dr_status r = DR_IDLE_READY)) then r
  else with_transition r PHASE_RETIRED DR_RETIRED now_s
         "record retired; Phase 4 performs no runtime or tmux mutation" (Some false).

(** ** What a reload does to the queue *)

(** [_clean_text] *)
Definition clean_text (v : pyval) : option string := or_none (strip (py_str_or_empty v)).

Definition nul : string := String (ascii_of_nat 0) EmptyString.

Definition intent_kind_value (k : IntentKind) : string :=
  match k with UNLOAD => "unload" | REPLACE => "replace" end.
Definition phase_value (p : DrainPhase) : string :=
  match p with
  | PENDING_UNLOAD => "pending_unload" | PENDING_REPLACE => "pending_replace" | DRAINING => "draining"
  | RETIRING => "retiring" | PHASE_RETIRED => "retired" | REJECTED => "rejected"
  end.

Definition stable_intent_id (k : IntentKind) (agent_name : string)
    (old_signature new_signature reason : option string) : string :=
  String.append "drain_"
    (substring 0 16 (sha256_hex (String.concat nul
       [intent_kind_value k; agent_name; str_or old_signature ""; str_or new_signature ""; str_or reason ""]))).

Definition intent_kind_of_op (op : string) : option IntentKind :=
  if String.eqb op "remove_agent" then Some UNLOAD
  else if String.eqb op "replace_agent" then Some REPLACE else None.

Definition drain_suggestion (old_signature new_signature : option string) (operation : pydict)
    : option pydict :=
  match intent_kind_of_op (strip (py_str_or_empty (dget operation "op"))) with
  | None => None
  | Some k =>
      match clean_text (dget operation "agent") with
      | None => None
      | Some agent_name =>
          let reason := clean_text (dget operation "reason") in
          Some [("intent_id", VStr (stable_intent_id k agent_name old_signature new_signature reason));
                ("intent_kind", VStr (intent_kind_value k)); ("agent", VStr agent_name);
                ("initial_phase", VStr (phase_value (initial_phase k))); ("dry_run_only", VBool true);
                ("reason", of_opt_str reason)]
      end
  end.

Definition drain_intent_suggestions_for_reload_operations (operations : list pydict)
    (old_config_signature new_config_signature : pyval) : list pydict :=
  omap (drain_suggestion (clean_text old_config_signature) (clean_text new_config_signature)) operations.

(** [_record_unload_drain], and [_record_replace_drain], which is the same for its kind: the
    active record of a blocked agent waits on, or a new one is made and waits; [intent] is
    the one the plan suggests.  The queue afterwards, the record, and whether it is in the
    queue. *)
Definition record_drain (q : DrainQueue) (agent_name : string) (intent : DrainIntent) (now_s : float64)
    : DrainQueue * DrainRecord * bool :=
  match last (active_records_for q agent_name) with
  | Some existing =>
      let record := plan_drain_transition existing now_s true in
      (replace_record q record, record, true)
  | None =>
      let '(q', record, accepted) := enqueue_drain q intent now_s in
      if accepted then
        let record := plan_drain_transition record now_s true in
        (replace_record q' record, record, true)
      else (q', record, false)
  end.

(** [_retire_unload_drain_records]: the loop over the active records the queue has when the
    agent's turn comes.  Of an active record this always makes another one. *)
Definition retire_one (now_s : float64) (q : DrainQueue) (r : DrainRecord) : DrainQueue :=
  replace_record q (retire_record (plan_drain_transition r now_s false) now_s).

Definition retire_drain_records (q : DrainQueue) (agent_names : list string) (now_s : float64) : DrainQueue :=
  foldl (λ q a, foldl (retire_one now_s) q (active_records_for q a)) q agent_names.

(** [plan_drain_transition] gives the record itself back. *)
Definition drain_settled (r : DrainRecord) : bool :=
  drain_terminal r || bool_decide (dr_status r = DR_IDLE_READY).

(** [_transition_records] of the automatic retry: the queue and the records that are ready. *)
Definition transition_one (now_s : float64) (busy : string → bool) (acc : DrainQueue * list DrainRecord)
    (r : DrainRecord) : DrainQueue * list DrainRecord :=
  let updated := plan_drain_transition r now_s (busy (drain_agent r)) in
  (if drain_settled r then acc.1 else replace_record acc.1 updated,
   if bool_decide (dr_status updated = DR_IDLE_READY) then acc.2 ++ [updated] else acc.2).

Definition active_unload_records (q : DrainQueue) : list DrainRecord :=
  List.filter (λ r, negb (drain_terminal r) && bool_decide (dn_intent_kind (dr_intent r) = UNLOAD))
    (dq_records q).

Definition transition_records (q : DrainQueue) (now_s : float64) (busy : string → bool)
    : DrainQueue * list DrainRecord :=
  foldl (transition_one now_s busy) (q, []) (active_unload_records q).

(** [_retire_records], for ready records the configuration no longer removes. *)
Definition retire_records (q : DrainQueue) (records : list DrainRecord) (now_s : float64) : DrainQueue :=
  foldl (λ q r, replace_record q (retire_record r now_s)) q records.

(** ** The drain queue *)

(** The intents that are active. *)
Definition active_ids (q : DrainQueue) : gset string := list_to_set (map drain_id (active_records q)).

Lemma elem_active_ids q id :
  id ∈ active_ids q ↔ ∃ r, r ∈ dq_records q ∧ drain_id r = id ∧ drain_terminal r = false.
Proof.
  unfold active_ids, active_records. rewrite elem_of_list_to_set, list_elem_of_In, in_map_iff.
  split; intros (r & H1 & H2).
  - apply List.filter_In in H2 as [H2 H3]. exists r. rewrite list_elem_of_In.
    by apply negb_true_iff in H3.
  - destruct H2 as [H2 H3]. exists r. rewrite List.filter_In, <-list_elem_of_In, H3. done.
Qed.

Lemma active_ids_size q : Z.of_nat (size (active_ids q)) <= pending_count q.
Proof.
  unfold pending_count, active_ids. rewrite <-(length_map drain_id (active_records q)).
  generalize (map drain_id (active_records q)). intros l. apply inj_le.
  induction l as [|x l IH]; cbn; [done|]. rewrite size_union_alt, size_singleton.
  assert (list_to_set l ∖ {[x]} ⊆@{gset string} list_to_set l) as H%subseteq_size by set_solver. lia.
Qed.

(** Replacing by a record whose intent was active already, or which has ended. *)
Lemma replace_active q u (S : gset string) :
  active_ids q ⊆ S → (drain_terminal u = false → drain_id u ∈ S) → active_ids (replace_record q u) ⊆ S.
Proof.
  intros Hq Hu id. rewrite elem_active_ids. intros (r & Hr & <- & Ht). cbn in Hr.
  apply list_elem_of_In, in_map_iff in Hr as (r0 & <- & Hr0). apply list_elem_of_In in Hr0.
  destruct (String.eqb_spec (drain_id r0) (drain_id u)); [by apply Hu|].
  apply Hq, elem_active_ids. by exists r0.
Qed.

Lemma plan_id r now b : drain_id (plan_drain_transition r now b) = drain_id r.
Proof. unfold plan_drain_transition. repeat case_match; done. Qed.

Lemma retire_id r now : drain_id (retire_record r now) = drain_id r.
Proof. unfold retire_record. repeat case_match; done. Qed.

Lemma retire_ends r now : drain_terminal r = false → drain_terminal (retire_record (plan_drain_transition r now false) now) = true.
Proof.
  intros Hr. unfold plan_drain_transition. rewrite Hr.
  destruct (dr_status r) eqn:E; unfold drain_terminal in Hr; rewrite E in Hr; try done.
  all: try (rewrite bool_decide_eq_false_2 by done); try (rewrite bool_decide_eq_true_2 by done).
  all: repeat case_match; unfold retire_record; cbn; rewrite ?E; done.
Qed.

(** One change of the queue by a reload. *)
Inductive drain_step : DrainQueue → DrainQueue → Prop :=
  | drain_blocked q agent_name i now_s : drain_step q (record_drain q agent_name i now_s).1.1
  | drain_unloaded q agent_names now_s : drain_step q (retire_drain_records q agent_names now_s)
  | drain_retried q now_s busy stale :
      stale ⊆ (transition_records q now_s busy).2 →
      drain_step q (retire_records (transition_records q now_s busy).1 stale now_s).

(** The intents of some active records of the queue. *)
Definition known_active (S : gset string) (l : list DrainRecord) : Prop :=
  Forall (λ r, drain_terminal r = false ∧ drain_id r ∈ S) l.

Lemma filter_known q p : known_active (active_ids q) (List.filter (λ r, p r && negb (drain_terminal r)) (dq_records q)).
Proof.
  apply list.Forall_forall. intros r Hr. apply list_elem_of_In, List.filter_In in Hr as [Hr Ht].
  apply andb_prop in Ht as [_ Ht]. apply negb_true_iff in Ht. split; [done|].
  apply elem_active_ids. exists r. by rewrite list_elem_of_In.
Qed.

Lemma retire_loop now l q S : active_ids q ⊆ S → known_active S l → active_ids (foldl (retire_one now) q l) ⊆ S.
Proof.
  intros Hq Hl. revert q Hq. induction Hl as [|r l [Hr _] _ IH]; intros q Hq; [done|]. cbn. apply IH.
  apply replace_active; [done|]. by rewrite retire_ends.
Qed.

Lemma transition_loop now busy l acc S :
  active_ids acc.1 ⊆ S → known_active S l → active_ids (foldl (transition_one now busy) acc l).1 ⊆ S.
Proof.
  intros Hq Hl. revert acc Hq. induction Hl as [|r l [_ Hr] _ IH]; intros acc Hq; [done|]. cbn. apply IH. cbn.
  destruct (drain_settled r); [done|]. apply replace_active; [done|]. by rewrite plan_id.
Qed.

Lemma bounds_kept q q' : drain_step q q' → dq_bounds q' = dq_bounds q.
Proof.
  assert (Hr : ∀ now l q, dq_bounds (foldl (retire_one now) q l) = dq_bounds q).
  { intros now l. induction l as [|r l IH]; intros q0; [done|]. cbn. by rewrite IH. }
  intros [].
  - unfold record_drain, enqueue_drain. repeat case_match; simplify_eq/=; done.
  - unfold retire_drain_records. revert q0. induction agent_names as [|a l IH]; intros q0; [done|]. cbn. by rewrite IH, Hr.
  - assert (Hs : ∀ l q, dq_bounds (retire_records q l now_s) = dq_bounds q).
    { unfold retire_records. intros l. induction l as [|r l IH]; intros q1; [done|]. cbn. by rewrite IH. }
    rewrite Hs. unfold transition_records. change (dq_bounds q0) with (dq_bounds (q0, @nil DrainRecord).1).
    generalize (q0, @nil DrainRecord). induction (active_unload_records q0) as [|r l IH]; intros acc; [done|]. cbn.
    rewrite IH. cbn. by case_match.
Qed.

Lemma ready_records now busy l acc :
  Forall (λ r, dr_status r = DR_IDLE_READY) acc.2 →
  Forall (λ r, dr_status r = DR_IDLE_READY) (foldl (transition_one now busy) acc l).2.
Proof.
  revert acc. induction l as [|r l IH]; intros acc H; [done|]. cbn. apply IH. cbn.
  case_bool_decide; [|done]. apply Forall_app. by split; [|constructor].
Qed.

Lemma retire_ready now l q S :
  active_ids q ⊆ S → Forall (λ r, dr_status r = DR_IDLE_READY) l → active_ids (retire_records q l now) ⊆ S.
Proof.
  intros Hq Hl. unfold retire_records. revert q Hq. induction Hl as [|r l Hr _ IH]; intros q Hq; [done|]. cbn. apply IH.
  apply replace_active; [done|]. unfold retire_record. by rewrite Hr, bool_decide_eq_false_2, bool_decide_eq_true_2.
Qed.

Definition drain_bounded (q : DrainQueue) : Prop := Z.of_nat (size (active_ids q)) <= db_max_pending (dq_bounds q).

Lemma subset_bounded q q' : dq_bounds q' = dq_bounds q → active_ids q' ⊆ active_ids q → drain_bounded q → drain_bounded q'.
Proof. intros Hb Hs%subseteq_size. unfold drain_bounded. rewrite Hb. lia. Qed.

Lemma for_known q a : known_active (active_ids q) (active_records_for q a).
Proof. apply filter_known. Qed.

Lemma unloaded_active q names now : active_ids (retire_drain_records q names now) ⊆ active_ids q.
Proof.
  unfold retire_drain_records. enough (H : ∀ S q0, active_ids q0 ⊆ S →
    active_ids (foldl (λ q a, foldl (retire_one now) q (active_records_for q a)) q0 names) ⊆ S) by by apply H.
  intros S. induction names as [|a l IH]; intros q0 H; [done|]. cbn. apply IH.
  etrans; [|exact H]. apply retire_loop; [done|apply for_known].
Qed.

Lemma blocked_bounded q a i now : drain_bounded q → drain_bounded (record_drain q a i now).1.1.
Proof.
  intros H. unfold record_drain. destruct (last (active_records_for q a)) as [r|] eqn:El.
  - apply (subset_bounded q); [done| |done]. cbn. apply replace_active; [done|]. intros _. rewrite plan_id.
    apply last_Some_elem_of in El. pose proof (for_known q a) as Hk. unfold known_active in Hk. rewrite list.Forall_forall in Hk.
    exact (proj2 (Hk r El)).
  - unfold enqueue_drain. destruct (flt _ _); [done|]. destruct (Z.leb_spec (db_max_pending (dq_bounds q)) (pending_count q)) as [|Hp]; [done|].
    cbn [fst]. set (r := pending_drain i (dq_bounds q) now). set (q1 := MkDrainQueue _ (dq_records q ++ [r])).
    assert (Hs : active_ids (replace_record q1 (plan_drain_transition r now true)) ⊆ active_ids q ∪ {[drain_id r]}).
    { apply replace_active; [|rewrite plan_id; set_solver]. intros id. rewrite elem_active_ids.
      intros (r0 & Hr & <- & Ht). cbn in Hr. apply elem_of_app in Hr as [Hr|Hr].
      - apply elem_of_union_l, elem_active_ids. by exists r0.
      - apply list_elem_of_singleton in Hr as ->. set_solver. }
    apply subseteq_size in Hs. pose proof (active_ids_size q) as Hq. unfold drain_bounded. change (dq_bounds (replace_record q1 _)) with (dq_bounds q).
    assert (size (active_ids q ∪ {[drain_id r]}) ≤ size (active_ids q) + 1)%nat.
    { rewrite size_union_alt. assert (size ({[drain_id r]} ∖ active_ids q) ≤ 1)%nat as H1.
      { rewrite <-(size_singleton (drain_id r) : size (C:=gset string) _ = 1%nat). apply subseteq_size. set_solver. }
      lia. }
    lia.
Qed.

Lemma drain_step_bounded q q' : drain_bounded q → drain_step q q' → drain_bounded q'.
Proof.
  intros H Hs. pose proof (bounds_kept _ _ Hs) as Hb. destruct Hs as [q a i now|q names now|q now busy stale Hst].
  - by apply blocked_bounded.
  - apply (subset_bounded q); [done|apply unloaded_active|done].
  - apply (subset_bounded q); [done| |done]. apply retire_ready.
    + apply transition_loop; [done|]. unfold active_unload_records.
      rewrite (List.filter_ext _ (λ r, bool_decide (dn_intent_kind (dr_intent r) = UNLOAD) && negb (drain_terminal r)))
        by (intros r; apply andb_comm). apply filter_known.
    + apply list.Forall_forall. intros r Hr. apply Hst in Hr. revert r Hr. apply list.Forall_forall.
      apply ready_records. constructor.
Qed.

(** C40: whatever reloads do to a queue that starts empty (record a blocked agent, retire the
    agents that were unloaded, retry), at most [max_pending] different intents are active. *)
Theorem drain_queue_bounded (b : DrainBounds) (q : DrainQueue) :
  new_bounds b = Ok b → rtc drain_step (empty_drain_queue b) q →
  Z.of_nat (size (active_ids q)) <= db_max_pending b.
Proof.
  intros Hb Hr. unfold new_bounds in Hb. inv_guards Hb.
  assert (H : drain_bounded (empty_drain_queue b)).
  { unfold drain_bounded, active_ids. cbn. rewrite size_empty. apply Z.leb_gt in G. lia. }
  clear Hb. assert (Hq : drain_bounded q ∧ dq_bounds q = b).
  { remember (empty_drain_queue b) as q0 eqn:E. assert (E' : dq_bounds q0 = b) by by subst. clear E.
    induction Hr as [q|q q1 q' Hs _ IH]; [done|]. apply IH; [by eapply drain_step_bounded|].
    by rewrite (bounds_kept _ _ Hs). }
  destruct Hq as [Hq <-]. exact Hq.
Qed.

Module DrainSample.
Definition bounds : DrainBounds := MkBounds 1 (of_Z 300) (of_Z 900).
Definition intent (t : Z) : DrainIntent := MkIntent "drain_x" UNLOAD "coder" (of_Z t) None None None.
Definition q0 : DrainQueue := empty_drain_queue bounds.
Definition q1 : DrainQueue := (record_drain q0 "coder" (intent 0) (of_Z 0)).1.1.
Definition q2 : DrainQueue := (record_drain q1 "coder" (intent 400) (of_Z 400)).1.1.
Definition q3 : DrainQueue := (record_drain q2 "coder" (intent 401) (of_Z 401)).1.1.
End DrainSample.

Lemma drain_queue_bounded_witness :
  new_bounds DrainSample.bounds = Ok DrainSample.bounds ∧ Z.of_nat (size (active_ids DrainSample.q3)) <= 1.
Proof.
  split; [vm_compute; reflexivity|].
  apply (drain_queue_bounded DrainSample.bounds DrainSample.q3); [vm_compute; reflexivity|].
  apply (rtc_l _ _ DrainSample.q1); [apply (drain_blocked DrainSample.q0)|].
  apply (rtc_l _ _ DrainSample.q2); [apply (drain_blocked DrainSample.q1)|].
  apply rtc_once, (drain_blocked DrainSample.q2).
Defined.

(** The count of records has no such bound: an intent that timed out and is asked for again
    revives its old record beside the new one, since both carry the identifier derived from
    the plan and [replace_record] replaces every record that carries it. *)
Example pending_count_overflows :
  pending_count DrainSample.q2 = 0 ∧ pending_count DrainSample.q3 = 2 ∧ db_max_pending (dq_bounds DrainSample.q3) = 1.
Proof. vm_compute. auto. Qed.
