(* ===== verification/Routing.v ===== *)
(** Who may send a request to whom, [lib/ccbd/services/dispatcher_runtime/routing.py] (but
    for the payload of a watch), and the checks of a request's text
    ([submission_service.py]); and what of their surroundings the dispatcher's operations
    ask: the rules of the agents, the drain queue of a reload, the execution service. *)

From Stdlib Require Import Ascii String ZArith Lia.
From stdpp Require Import base gmap list strings sorting.
From S2P Require Import Prelude PyData Names MailboxModels CompletionModels Jobs Api JobStore BureauModels BureauState Bureau Completion Artifacts DispatchState DispatchPolicy Dispatch Drain.

Local Open Scope Z_scope.

(** ** The surroundings *)

Inductive QueuePolicy := SERIAL_PER_AGENT | REJECT_WHEN_BUSY.

#[export] Instance QueuePolicy_eq_dec : EqDecision QueuePolicy.
Proof. solve_decision. Defined.

(** The fields of an [AgentSpec] that routing reads, beside those [tc_agents] has; an agent
    without an entry has the defaults. *)
Record agent_rules := MkRules { ar_dispatch_disabled : bool; ar_queue_policy : QueuePolicy }.

Definition default_rules : agent_rules := MkRules false SERIAL_PER_AGENT.

(** [PreclaimOutcome] of [provider_execution/draft_guard.py], as the dispatcher uses it. *)
Inductive preclaim := PRECLAIM_ALLOWED | PRECLAIM_BLOCKED | PRECLAIM_TERMINAL (reason : string).

(** [ExecutionRestoreResult] of [provider_execution/service_runtime/models.py]. *)
Record restore_result := MkRestored {
  rs_status : string;
  rs_reason : string;
  rs_resume_capable : bool;
  rs_pending_items_count : Z;
  rs_decision : option CompletionDecision;
}.

(** The answers of the surroundings.  They may be another one whenever an identifier has been
    drawn: the first argument is how many.
    [ex_start] is [ProviderExecutionService.start], [ex_stored] the state store's [load] of a
    job (its pending decision), [ex_live] whether a job is among the active or replayed ones,
    [ex_evidence] what [capture_cancel_evidence] returns, [ex_preclaim] [draft_preclaim],
    [ex_active] the service's active submissions, [ex_restore] its [restore] of a job,
    [ex_binding] the reference and the kind of backend of an agent's runtime; [ex_ready] tells
    whether the recovery of a runtime that is stopped or degraded, which is not modelled,
    leaves it ready. *)
Class Execution := {
  ex_present : bool;
  ex_start : nat → JobRecord → result (option submission);
  ex_stored : nat → string → result (option (option CompletionDecision));
  ex_live : nat → string → bool;
  ex_evidence : nat → string → option CompletionDecision;
  ex_preclaim : nat → JobRecord → preclaim;
  ex_active : nat → list (string * submission);
  ex_restore : nat → JobRecord → result restore_result;
  ex_require_binding : bool;
  ex_binding : nat → string → option string * option string;
  ex_ready : nat → string → bool;
}.

(** [ou_drain] is the loading of the drain queue's file, [ou_tree] the digest
    [GitOperations(path).current_tree_digest] of a workspace with its resolved path,
    [ou_max_callback_depth] the configuration's attribute of that name where it has one,
    [ou_workspace] [layout.workspace_path], [ou_project_id] the project of an agent's runtime. *)
Record outside := MkOutside {
  ou_rules : gmap string agent_rules;
  ou_drain : nat → result DrainQueue;
  ou_tree : nat → string → result (string * string);
  ou_max_callback_depth : option pyval;
  ou_workspace : string → string;
  ou_project_id : string → option string;
  ou_auto_reply_delivery : bool;
}.

(** [str(exc)] *)
Definition exn_str (e : exn) : string :=
  match exn_class e with KeyError => repr_str (exn_message e) | _ => exn_message e end.

(** [type(exc).__name__] *)
Definition exn_name (e : exn) : string :=
  match exn_class e with
  | ValueError => "ValueError" | AgentValidationError => "AgentValidationError"
  | CompletionValidationError => "CompletionValidationError" | RetryLineageError => "RetryLineageError"
  | TypeError => "TypeError" | KeyError => "KeyError" | RuntimeError => "RuntimeError"
  | DispatchError => "DispatchError" | CcbdModelError => "CcbdModelError"
  | DispatchRejectedError => "DispatchRejectedError"
  | AttributeError => "AttributeError" | OverflowError => "OverflowError"
  | AssertionError => "AssertionError" | LayoutParseError => "LayoutParseError"
  | ConfigValidationError => "ConfigValidationError" | RecursionError => "RecursionError"
  | IndexError => "IndexError" | OSError => "OSError" | Unmodelled => "Exception"
  end.

(** [try: … except Exception as exc: …]: what was done stays. *)
Definition attempted {A} (m : DM A) : DM (A + exn) := λ s,
  match m s with
  | (s', Ok a) => (s', Ok (inl a))
  | (s', Err e) => (s', Ok (inr e))
  end.

Definition rejected {A} (parts : list string) : DM A := mraise DispatchRejectedError (text parts).

(** How many identifiers have been drawn: the time of the surroundings. *)
Definition moment : DM nat := mget di_ids.

Section routing.
Context (cfg : dconfig) (ou : outside).

(** [registry.spec_for] *)
Definition spec_for (agent_name : string) : result (agent_spec * agent_rules) :=
  let! name := normalize_agent_name agent_name in
  match tc_agents (dc_tracker cfg) !! name with
  | Some sp => Ok (sp, default default_rules (ou_rules ou !! name))
  | None => raise KeyError (text ["unknown agent: "; name])
  end.

Definition validate_sender (sender : string) : result unit :=
  let normalized := lower (strip sender) in
  if negb (truthy normalized) then raise DispatchError "sender cannot be empty"
  else if mem_str normalized NON_AGENT_ACTORS then
    raise_if (String.eqb normalized "cmd") DispatchError (text ["unknown sender agent: "; normalized])
  else
    let! agent_name := normalize_agent_name normalized in
    raise_if (negb (mem_str agent_name (dc_agents cfg))) DispatchError
      (text ["unknown sender agent: "; agent_name]).

(** [_drain_blocks_dispatch]: a queue that cannot be read blocks nobody. *)
Definition drain_blocks_dispatch (agent_name : string) : DM bool :=
  let* now := moment in
  mret' (match ou_drain ou now with Ok q => blocks_new_work_for q agent_name | Err _ => false end).

Definition ensure_dispatch_enabled (agent_name : string) : DM (agent_spec * agent_rules) :=
  let* spec := mlift (spec_for agent_name) in
  if ar_dispatch_disabled spec.2 then rejected ["agent "; agent_name; " is dispatch-disabled"]
  else
    let* blocked := drain_blocks_dispatch agent_name in
    if blocked : bool then rejected ["agent "; agent_name; " is draining and rejects new work"]
    else mret' spec.

Definition dispatch_disabled (agent_name : string) : DM bool :=
  match spec_for agent_name with
  | Err _ => mret' true
  | Ok spec => if ar_dispatch_disabled spec.2 then mret' true else drain_blocks_dispatch agent_name
  end.

(** [registry.list_alive], by name: the configured agents in order of name. *)
Definition alive_state (st : AgentState) : bool :=
  match st with AS_STARTING | AS_IDLE | AS_BUSY | AS_DEGRADED => true | _ => false end.

Fixpoint alive_agents (agent_names : list string) : DM (list string) :=
  match agent_names with
  | [] => mret' []
  | a :: rest =>
      let* runtime := registry_get a in
      let* l := alive_agents rest in
      mret' (match runtime with
             | Some r => if alive_state (rt_state r) then a :: l else l
             | None => l
             end)
  end.

Fixpoint enabled_agents (agent_names : list string) : DM (list string) :=
  match agent_names with
  | [] => mret' []
  | a :: rest =>
      let* disabled := dispatch_disabled a in
      let* l := enabled_agents rest in
      mret' (if disabled : bool then l else a :: l)
  end.

Definition sorted_names (l : list string) : list string := merge_sort String.le l.

Definition resolve_targets (request : MessageEnvelope) : DM (list string) :=
  if bool_decide (me_delivery_scope request = SINGLE) then
    do* ensure_dispatch_enabled (me_to_agent request) in mret' [me_to_agent request]
  else
    let* alive := alive_agents (sorted_names (dc_agents cfg)) in
    let* enabled := enabled_agents alive in
    let others := if mem_str (me_from_actor request) NON_AGENT_ACTORS then enabled
                  else List.filter (λ a, negb (String.eqb a (me_from_actor request))) enabled in
    mret' (sorted_names others).

Definition validate_target_available (agent_name : string) : DM unit :=
  let* spec := ensure_dispatch_enabled agent_name in
  if bool_decide (ar_queue_policy spec.2 = REJECT_WHEN_BUSY) then
    let* busy := on_queues (has_outstanding_for (agent_slot agent_name)) in
    if busy : bool then rejected ["agent "; agent_name; " rejects new work while busy"] else mret' tt
  else mret' tt.

Fixpoint validate_targets_available (targets : list string) : DM unit :=
  match targets with
  | [] => mret' tt
  | a :: rest => do* validate_target_available a in validate_targets_available rest
  end.

(** [resolve_watch_target] *)
Definition resolve_watch_target (target : string) : DM (string * string) :=
  let normalized := lower (strip target) in
  if negb (truthy normalized) then dispatch_error ["watch target cannot be empty"]
  else if String.prefix "job_" normalized then
    let* record := get_job cfg normalized in
    match record with
    | None => dispatch_error ["unknown job: "; normalized]
    | Some r => mret' (jr_target_name r, jr_job_id r)
    end
  else
    do* mlift (spec_for normalized) in
    let* active := on_queues (active_job_for (agent_slot normalized)) in
    match active with
    | Some id => mret' (normalized, id)
    | None =>
        let* latest := latest_for_agent normalized in
        match latest with
        | None => dispatch_error ["agent "; normalized; " has no jobs to watch"]
        | Some r => mret' (normalized, jr_job_id r)
        end
    end.

(** ** [submission_service.py]: the text of a request *)

Definition validate_request_body_artifact (request : MessageEnvelope) : DM unit :=
  let long := should_spill_text (me_body request) TEXT_ARTIFACT_SPILL_BYTES in
  match me_body_artifact request with
  | Some (_ :: _ as artifact) =>
      if long then dispatch_error ["ask body stub exceeds 4 KiB even though a body artifact is present"]
      else
        let* checked := attempted (on_artifacts (validate_text_artifact_ref (dc_artifacts cfg) artifact)) in
        match checked with
        | inl _ => mret' tt
        | inr e => dispatch_error ["invalid ask body artifact: "; exn_str e]
        end
  | _ =>
      if long then dispatch_error ["ask body exceeds 4 KiB and must be submitted with a CCB body artifact"]
      else mret' tt
  end.
End routing.
