(* ===== verification/Chains.v ===== *)
(** Callback chains, [lib/ccbd/services/dispatcher_runtime/callbacks.py]: a job that asks
    another agent with [--chain] leaves an edge from itself (the parent) to the job asked for
    (the child); the parent's end is held back, and when the child ends the parent's agent
    gets a continuation job with the result. *)

From Stdlib Require Import Ascii String ZArith Lia.
From stdpp Require Import base gmap list strings pretty.
From S2P Require Import Prelude PyData Names Text MailboxModels MailboxKernel CompletionModels Jobs Api JobStore BureauModels BureauState Bureau Completion Artifacts DispatchState DispatchPolicy Dispatch Drain Routing.

Local Open Scope Z_scope.

Definition CALLBACK_ROUTE_MODE : string := "chain".
Definition CALLBACK_CONTINUATION_MESSAGE_TYPE : string := "chain_continuation".
Definition DEFAULT_MAX_CALLBACK_DEPTH : Z := 5.

(** [_TERMINAL_CALLBACK_STATES] *)
Definition edge_settled (st : CallbackEdgeState) : bool :=
  match st with
  | CE_CONTINUATION_SUBMITTED | CE_DONE | CE_FAILED | CE_TIMED_OUT => true
  | CE_PENDING | CE_CHILD_COMPLETED => false
  end.

(** [{DONE, FAILED, TIMED_OUT}] *)
Definition edge_over (st : CallbackEdgeState) : bool :=
  match st with CE_DONE | CE_FAILED | CE_TIMED_OUT => true | _ => false end.

Definition option_of (request : MessageEnvelope) (k : string) : pyval := dget (me_route_options request) k.

(** [str(options.get(k) or '').strip()] *)
Definition option_text (request : MessageEnvelope) (k : string) : string :=
  strip (py_str_or_empty (option_of request k)).

Definition set_option (k : string) (v : pyval) (r : MessageEnvelope) : MessageEnvelope :=
  MkEnvelope (me_project_id r) (me_to_agent r) (me_from_actor r) (me_body r) (me_task_id r) (me_reply_to r)
    (me_message_type r) (me_delivery_scope r) (me_silence_on_success r) (dset (me_route_options r) k v)
    (me_body_artifact r).

Definition request_callback_route (request : MessageEnvelope) : bool :=
  String.eqb (lower (option_text request "mode")) CALLBACK_ROUTE_MODE.

Definition is_plain_ask (request : MessageEnvelope) : bool :=
  String.eqb (lower (strip (me_message_type request))) "ask" && negb (request_callback_route request).

(** The first occurrences, in order: [tuple(dict.fromkeys(l))]. *)
Definition unique (l : list string) : list string :=
  foldl (λ acc x, if mem_str x acc then acc else acc ++ [x]) [] l.

Definition allowed_chain_targets (job : option JobRecord) : list string :=
  match job with
  | None => []
  | Some j =>
      match option_of (jr_request j) "allowed_chain_targets" with
      | VList values =>
          unique (map (λ v, lower (strip (py_str_or_empty v)))
                    (List.filter (λ v, truthy (strip (py_str_or_empty v))) values))
      | _ => []
      end
  end.

(** ** Texts *)

(** [body.find(marker)] *)
Definition find_text (marker body : string) : option nat := String.index 0 marker body.

Definition blank_line : string := String.append newline newline.

Definition strip_ccb_guidance (body : string) : string :=
  let indexes := omap (λ m, find_text (String.append blank_line m) body)
                   ["CCB_REPLY_MODE:"; "CCB reply guidance:"] in
  match indexes with
  | [] => body
  | i :: rest => rstrip (substring 0 (foldr Nat.min i rest) body)
  end.

(** The lines that name an artifact. *)
Definition artifact_lines (artifact : pydict) : list string :=
  let value k := strip (py_str_or_empty (dget artifact k)) in
  [String.append "path: " (value "path")] ++
  (if truthy (value "bytes") then [String.append "bytes: " (value "bytes")] else []) ++
  (if truthy (value "sha256") then [String.append "sha256: " (value "sha256")] else []).

Definition callback_body_summary (request : MessageEnvelope) : string :=
  let body := strip_ccb_guidance (me_body request) in
  match me_body_artifact request with
  | Some (_ :: _ as artifact) =>
      rstrip (join_lines ([preview_text body 800; ""; "Full original request artifact:"] ++ artifact_lines artifact))
  | _ => body
  end.

Definition reply_summary (d : CompletionDecision) : string :=
  match diag d "reply_artifact" with
  | VDict artifact =>
      rstrip (join_lines ([or_str (cd_reply d) "(reply body stored as artifact)"; "";
                           "Full child reply artifact:"] ++ artifact_lines artifact))
  | _ => cd_reply d
  end.

Definition continuation_body (edge : CallbackEdgeRecord) (child_job : JobRecord) (d : CompletionDecision) : string :=
  let original := rstrip (py_str_or_empty (dget (ce_diagnostics edge) "parent_body")) in
  let child_task := rstrip (py_str_or_empty (dget (ce_diagnostics edge) "child_body")) in
  join_lines
    (["CCB result-chain continuation."; "";
      text ["Original caller: "; ce_original_caller edge]; text ["Parent job: "; ce_parent_job_id edge];
      text ["Child job: "; jr_job_id child_job]; text ["Child agent: "; jr_agent_name child_job];
      text ["Child status: "; JobStatus_value (jr_status child_job)]] ++
     (if truthy original then [""; "Original task context:"; original] else []) ++
     (if truthy child_task then [""; "Delegated child task:"; child_task] else []) ++
     [""; "Child result:"; or_str (reply_summary d) "(no reply body)"; "";
      "Continue the original task using the child result.";
      "Finish this current response with the final result.";
      "Do not call ask, --chain, or --silence to the original caller; CCB will deliver this chain result upstream."]).

Definition callback_failure_reply (edge : CallbackEdgeRecord) (reason detail : string) : string :=
  text ["CCB chain failed for delegated task "; ce_child_job_id edge; " while continuing parent job ";
        ce_parent_job_id edge; ". Reason: "; reason;
        if truthy detail then String.append ": " detail else ""].

(** ** Chains *)

Definition callback_child_agent (edge : CallbackEdgeRecord) : string :=
  lower (strip (py_str_or_empty (dget (ce_diagnostics edge) "child_agent"))).

Definition parent_agent_of (edge : CallbackEdgeRecord) : string := lower (strip (ce_parent_agent edge)).

Definition edge_to_message (edges : list CallbackEdgeRecord) (message_id : string) : option CallbackEdgeRecord :=
  List.find (λ e, String.eqb (ce_child_message_id e) message_id) edges.

(** The loop of [_callback_chain_for_parent] over the latest edges, which it leaves as they
    are; every round but the last sees a message for the first time that some edge leads to,
    so as many rounds as there are edges, and one, are enough. *)
Fixpoint chain_loop (fuel : nat) (edges : list CallbackEdgeRecord) (message_id : string) (seen : list string)
    : list CallbackEdgeRecord :=
  match fuel with
  | O => []
  | S fuel =>
      if negb (truthy message_id) || mem_str message_id seen then []
      else
        match edge_to_message edges message_id with
        | None => []
        | Some e => e :: chain_loop fuel edges (ce_parent_message_id e) (message_id :: seen)
        end
  end.

Definition chain_of (edges : list CallbackEdgeRecord) (message_id : string) : list CallbackEdgeRecord :=
  chain_loop (S (length edges)) edges message_id [].

Definition callback_chain_for_parent (parent_message_id : string) : BM (list CallbackEdgeRecord) :=
  let* edges := edge_list_latest in mret' (chain_of edges parent_message_id).

(** The agents of a chain and of the job that would extend it. *)
Definition chain_actors (chain : list CallbackEdgeRecord) (parent : JobRecord) : list string :=
  map parent_agent_of chain ++ map callback_child_agent chain ++ [jr_agent_name parent].

(** [replace(edge, …)] of the fields that change. *)
Definition edge_with (e : CallbackEdgeRecord) (st : CallbackEdgeState)
    (child_reply_id child_status continuation_job_id continuation_message_id : option string)
    (updated_at : string) (diagnostics : pydict) : CallbackEdgeRecord :=
  MkEdge (ce_edge_id e) (ce_parent_job_id e) (ce_parent_message_id e) (ce_parent_agent e) (ce_child_job_id e)
    (ce_child_message_id e) (ce_callback_target_agent e) (ce_original_caller e) (ce_original_task_id e) st
    child_reply_id child_status continuation_job_id continuation_message_id (ce_timeout_at e) (ce_created_at e)
    updated_at diagnostics.

(** Only state and time. *)
Definition edge_state (st : CallbackEdgeState) (updated_at : string) (e : CallbackEdgeRecord) : CallbackEdgeRecord :=
  edge_with e st (ce_child_reply_id e) (ce_child_status e) (ce_continuation_job_id e)
    (ce_continuation_message_id e) updated_at (ce_diagnostics e).

Section chains.
Context (cfg : dconfig) (ou : outside).

Definition max_callback_depth : Z :=
  match py_int (default (VInt DEFAULT_MAX_CALLBACK_DEPTH) (ou_max_callback_depth ou)) with
  | Ok z => Z.max 1 z
  | Err _ => DEFAULT_MAX_CALLBACK_DEPTH
  end.

Definition active_parent_job (actor : string) : DM (option JobRecord) :=
  let normalized := lower (strip actor) in
  if negb (truthy normalized) || mem_str normalized NON_AGENT_ACTORS then mret' None
  else if negb (mem_str normalized (dc_agents cfg)) then mret' None
  else
    let* active := on_queues (active_job_for (agent_slot normalized)) in
    match active with
    | Some (String _ _ as id) =>
        let* parent := get_job cfg id in
        mret' (match parent with Some p => if is_reply_delivery_job p then None else Some p | None => None end)
    | _ => mret' None
    end.

Definition message_for_job (job : JobRecord) : BM (option MessageRecord) :=
  let* attempt := attempt_by_job_id (jr_job_id job) in
  match attempt with None => mret' None | Some a => message_get_latest (at_message_id a) end.

Definition validate_nested_ask_request (request : MessageEnvelope) : DM unit :=
  if negb (is_plain_ask request) then mret' tt
  else if me_silence_on_success request then mret' tt
  else
    let* parent := active_parent_job (me_from_actor request) in
    match parent with
    | None => mret' tt
    | Some _ => dispatch_error ["plain ask from an active CCB task requires --chain when the child result is needed, ";
                                "or --silence for independent fire-and-forget work"]
    end.

(** What may not be asked from a continuation: its own original caller. *)
Definition validate_callback_continuation_target (parent : JobRecord) (child_agent : string) : DM unit :=
  let request := jr_request parent in
  if negb (String.eqb (lower (strip (me_message_type request))) CALLBACK_CONTINUATION_MESSAGE_TYPE) &&
     negb (String.eqb (lower (option_text request "mode")) "chain_continuation")
  then mret' tt
  else
    let edge_id := option_text request "chain_edge_id" in
    if negb (truthy edge_id) then
      dispatch_error ["ask --chain from result-chain continuation job "; jr_job_id parent;
                      " cannot resolve chain edge; finish the current continuation directly or report the metadata error"]
    else
      let* edge := on_bureau (callback_edge edge_id) in
      match edge with
      | None => dispatch_error ["ask --chain from result-chain continuation job "; jr_job_id parent;
                   " could not resolve chain edge "; edge_id;
                   "; finish the current continuation directly or report the metadata error"]
      | Some e =>
          let target := lower (strip child_agent) in
          let upstream := lower (strip (ce_original_caller e)) in
          if truthy target && truthy upstream && String.eqb target upstream then
            dispatch_error ["ask --chain from result-chain continuation job "; jr_job_id parent;
               " to original caller "; ce_original_caller e; " is not allowed for chain edge "; ce_edge_id e;
               "; finish the current response and CCB will deliver it upstream"]
          else mret' tt
      end.

Definition validate_callback_chain (parent : JobRecord) (child_agent : string) : DM unit :=
  let* parent_message := on_bureau (message_for_job parent) in
  match parent_message with
  | None => dispatch_error ["ask --chain could not resolve parent message"]
  | Some m =>
      let* chain := on_bureau (callback_chain_for_parent (ms_message_id m)) in
      if max_callback_depth <? Z.of_nat (length chain) + 1 then
        dispatch_error ["ask --chain exceeds max chain depth "; pretty max_callback_depth]
      else if mem_str (lower (strip child_agent)) (chain_actors chain parent) then
        dispatch_error ["ask --chain cycle detected"]
      else mret' tt
  end.

(** [_bind_callback_workspace_tree]: the request with the workspace and its digest. *)
Definition bind_callback_workspace_tree (request : MessageEnvelope) (parent : JobRecord) : DM MessageEnvelope :=
  let* runtime := registry_get (jr_agent_name parent) in
  let workspace := strip (str_or (jr_workspace_path parent)
                            (str_or (match runtime with Some r => rt_workspace_path r | None => None end) "")) in
  if negb (truthy workspace) then dispatch_error ["restricted review chain requires a bound parent workspace"]
  else
    let* now := moment in
    match ou_tree ou now workspace with
    | Err e => dispatch_error ["restricted review chain could not bind parent workspace tree: "; exn_str e]
    | Ok (path, digest) =>
        mret' (set_option "review_tree_digest" (VStr digest) (set_option "review_workspace_path" (VStr path) request))
    end.

(** [validate_callback_request]: the request afterwards, whose route options it may extend. *)
Definition validate_callback_request (request : MessageEnvelope) : DM MessageEnvelope :=
  let* parent := active_parent_job (me_from_actor request) in
  let allowed := allowed_chain_targets parent in
  if negb (request_callback_route request) then
    if bool_decide (allowed ≠ []) then
      dispatch_error ["restricted workflow job may only use ask --chain to its assigned target"]
    else do* validate_nested_ask_request request in mret' request
  else if negb (bool_decide (me_delivery_scope request = SINGLE)) then
    dispatch_error ["ask --chain supports exactly one target agent"]
  else
    match parent with
    | None => dispatch_error ["ask --chain requires an active parent job for the sender"]
    | Some p =>
        let* message := on_bureau (message_for_job p) in
        if is_none message then dispatch_error ["ask --chain could not resolve parent message"]
        else
          do* validate_callback_continuation_target p (me_to_agent request) in
          if bool_decide (allowed ≠ []) && negb (mem_str (lower (strip (me_to_agent request))) allowed) then
            dispatch_error ["ask --chain target is not the assigned reviewer for this workflow job"]
          else
            let* request := (if py_truthy (option_of (jr_request p) "bind_chain_workspace_tree")
                             then bind_callback_workspace_tree
                                    (set_option "bind_chain_workspace_tree" (VBool true) request) p
                             else mret' request) in
            let* edge := on_bureau (callback_edge_for_parent_job (jr_job_id p)) in
            match edge with
            | Some _ => dispatch_error ["ask --chain allows one outstanding chain edge per parent job"]
            | None => do* validate_callback_chain p (me_to_agent request) in mret' request
            end
    end.
End chains.
