(* ===== verification/Continuations.v ===== *)
(** The life of a callback edge, [lib/ccbd/services/dispatcher_runtime/callbacks.py]: its
    registration, the continuation job when the child has ended, its failure and its end, and
    the repair after a crash between these steps. *)

From Stdlib Require Import Ascii String ZArith Lia.
From stdpp Require Import base gmap list strings pretty.
From S2P Require Import Prelude PyData Names Text Storage MailboxModels MailboxKernel CompletionModels Jobs Api JobStore BureauModels BureauState Bureau Completion Artifacts DispatchState DispatchPolicy Dispatch Drain Routing Chains.

Local Open Scope Z_scope.

Section continuations.
Context (cfg : dconfig) (ou : outside).

(** ** Registration *)

Definition new_callback_edge (edge_id : string) (request : MessageEnvelope) (parent : JobRecord)
    (parent_message_id : string) (child : JobRecord) (message_id accepted_at : string) : CallbackEdgeRecord :=
  MkEdge edge_id (jr_job_id parent) parent_message_id (jr_agent_name parent) (jr_job_id child) message_id
    (jr_agent_name parent) (me_from_actor (jr_request parent))
    (Some (str_or (me_task_id (jr_request parent)) parent_message_id)) CE_PENDING None None None None None
    accepted_at accepted_at
    [("route_mode", VStr CALLBACK_ROUTE_MODE); ("child_agent", VStr (jr_agent_name child));
     ("parent_body", VStr (callback_body_summary (jr_request parent)));
     ("child_body", VStr (callback_body_summary (jr_request child)));
     ("parent_body_artifact", dict_if_any (me_body_artifact (jr_request parent)));
     ("child_body_artifact", dict_if_any (me_body_artifact (jr_request child)));
     ("allowed_chain_targets", VList (map VStr (allowed_chain_targets (Some parent))));
     ("bind_chain_workspace_tree", VBool (py_truthy (option_of request "bind_chain_workspace_tree")));
     ("review_workspace_path", option_of request "review_workspace_path");
     ("review_tree_digest", option_of request "review_tree_digest")].

Definition register_callback_edge (request : MessageEnvelope) (jobs : list JobRecord)
    (message_id accepted_at : string) : DM unit :=
  let* request := validate_callback_request cfg ou request in
  if negb (request_callback_route request) then mret' tt
  else
    match jobs with
    | [child] =>
        let* parent := active_parent_job cfg (me_from_actor request) in
        match parent with
        | None => mraise AttributeError "'NoneType' object has no attribute 'job_id'"
        | Some p =>
            let* parent_message := on_bureau (message_for_job p) in
            match parent_message with
            | None => mraise AttributeError "'NoneType' object has no attribute 'message_id'"
            | Some m =>
                let* edge_id := fresh_id cfg "cb" in
                let* edge := mlift (new_edge (new_callback_edge edge_id request p (ms_message_id m) child
                                                message_id accepted_at)) in
                do* on_bureau (record_callback_edge edge) in
                append_event cfg child "callback_edge_created"
                  [("edge_id", VStr (ce_edge_id edge)); ("parent_job_id", VStr (ce_parent_job_id edge));
                   ("parent_message_id", VStr (ce_parent_message_id edge));
                   ("callback_target_agent", VStr (ce_callback_target_agent edge));
                   ("original_caller", VStr (ce_original_caller edge))] accepted_at
            end
        end
    | _ => dispatch_error ["ask --chain supports exactly one target agent"]
    end.

(** ** Which edges touch a job *)

Definition delegated_parent_edge (job : JobRecord) : BM (option CallbackEdgeRecord) :=
  callback_edge_for_parent_job (jr_job_id job).

Definition callback_child_edge (job : JobRecord) : BM (option CallbackEdgeRecord) :=
  let* edge := callback_edge_for_child_job (jr_job_id job) in
  match edge with
  | Some e => mret' (Some e)
  | None =>
      let* message := message_for_job job in
      match message with
      | None => mret' None
      | Some m => callback_edge_for_child_message (ms_message_id m)
      end
  end.

(** ** The continuation job *)

(** The continuation rows in the logs of the agents [targets], by edge; a later row replaces
    an earlier one. *)
Fixpoint continuation_rows (targets : list string) : DM (list (string * JobRecord)) :=
  match targets with
  | [] => mret' []
  | a :: rest =>
      let* rows := on_jobs (list_agent a) in
      let* more := continuation_rows rest in
      mret' (omap (λ r, let id := option_text (jr_request r) "chain_edge_id" in
                        if truthy id then Some (id, r) else None) rows ++ more)
  end.

Definition existing_continuation_jobs_by_edge (edges : list CallbackEdgeRecord)
    : DM (list (string * JobRecord)) :=
  let* rows := continuation_rows (unique (map ce_callback_target_agent edges)) in
  mret' (foldl (λ d kv, assoc_set kv.1 kv.2 d) [] rows).

Definition find_continuation (existing : list (string * JobRecord)) (edge_id : string) : option JobRecord :=
  option_map snd (List.find (λ kv, String.eqb kv.1 edge_id) existing).

Definition existing_continuation_job (edge : CallbackEdgeRecord) : DM (option JobRecord) :=
  let* existing := existing_continuation_jobs_by_edge [edge] in
  mret' (find_continuation existing (ce_edge_id edge)).

Definition continuation_options (edge : CallbackEdgeRecord) : pydict :=
  [("mode", VStr "chain_continuation"); ("chain_edge_id", VStr (ce_edge_id edge));
   ("chain_parent_job_id", VStr (ce_parent_job_id edge)); ("chain_child_job_id", VStr (ce_child_job_id edge));
   ("chain_child_message_id", VStr (ce_child_message_id edge));
   ("allowed_chain_targets",
    match dget (ce_diagnostics edge) "allowed_chain_targets" with VList l => VList l | _ => VList [] end);
   ("bind_chain_workspace_tree", VBool (py_truthy (dget (ce_diagnostics edge) "bind_chain_workspace_tree")))].

Definition continuation_request (edge : CallbackEdgeRecord) (child_job : JobRecord) (d : CompletionDecision)
    : DM MessageEnvelope :=
  let* spilled := on_artifacts (maybe_spill_text (dc_artifacts cfg) (continuation_body edge child_job d)
    "result-chain-continuation" (ce_edge_id edge)
    (text ["CCB result-chain continuation "; ce_edge_id edge; " is larger than 4 KiB and was stored as an artifact."])
    TEXT_ARTIFACT_SPILL_BYTES TEXT_ARTIFACT_TTL None) in
  mlift (new_envelope
    (MkEnvelope (me_project_id (jr_request child_job)) (ce_callback_target_agent edge) (ce_original_caller edge)
       spilled.1 (ce_original_task_id edge) (Some (ce_parent_message_id edge)) CALLBACK_CONTINUATION_MESSAGE_TYPE
       SINGLE false (continuation_options edge) spilled.2)).

(** The draft of a continuation; its workspace is that of the parent job, or else of the
    agent's runtime. *)
Definition continuation_draft (request : MessageEnvelope) : DM JobDraft :=
  let* spec := mlift (spec_for cfg ou (me_to_agent request)) in
  let parent_job_id := option_text request "chain_parent_job_id" in
  let* parent := (if truthy parent_job_id then get_job cfg parent_job_id else mret' None) in
  let* runtime := registry_get (me_to_agent request) in
  let workspace :=
    match parent with
    | Some p => if opt_truthy (jr_workspace_path p) then jr_workspace_path p
                else match runtime with Some r => rt_workspace_path r | None => None end
    | None => match runtime with Some r => rt_workspace_path r | None => None end
    end in
  mret' (MkDraft (me_to_agent request) (sp_provider spec.1) request TARGET_AGENT (me_to_agent request) None None
           workspace).

Definition submit_continuation_job (request : MessageEnvelope) (parent_message_id accepted_at : string)
    : DM (string * string) :=
  do* mlift (spec_for cfg ou (me_to_agent request)) in
  do* validate_targets_available cfg ou [me_to_agent request] in
  let* draft := continuation_draft request in
  let* job_id := fresh_id cfg "job" in
  let* built := build_job_record draft job_id None accepted_at in
  let '(job, status) := built in
  do* append_job job in
  do* append_event cfg job (accepted_event status)
        [("status", VStr (JobStatus_value status)); ("chain_continuation", VBool true)] accepted_at in
  do* on_queues (enqueue_for (slot_of job) (jr_job_id job)) in
  do* sync_runtime cfg (jr_agent_name job) None in
  do* on_bureau (record_retry_attempt (dc_bureau cfg) parent_message_id job accepted_at) in
  let* parent_message := on_bureau (message_get_latest parent_message_id) in
  do* (match parent_message with
       | Some m => append_submission_job (ms_submission_id m) (jr_job_id job) accepted_at
       | None => mret' tt
       end) in
  mret' (jr_job_id job, parent_message_id).

(** ** Failure *)

Definition record_callback_failure_notice (edge : CallbackEdgeRecord) (reason detail updated_at : string)
    : DM unit :=
  let* parent := get_job cfg (ce_parent_job_id edge) in
  match parent with
  | None => on_bureau (set_message_state (ce_parent_message_id edge) MS_FAILED updated_at)
  | Some p =>
      do* on_bureau (record_notice (dc_bureau cfg) p (callback_failure_reply edge reason detail)
            (Some [("notice", VBool true); ("chain_edge_id", VStr (ce_edge_id edge)); ("chain_failure", VBool true);
                   ("reason", VStr reason); ("detail", VStr detail)])
            updated_at RT_FAILED (Some (ce_original_caller edge))) in
      mret' tt
  end.

(** [callback_edge(edge.edge_id) or edge] *)
Definition latest_edge (edge : CallbackEdgeRecord) : BM CallbackEdgeRecord :=
  let* latest := callback_edge (ce_edge_id edge) in mret' (default edge latest).

Definition fail_callback_edge (edge : CallbackEdgeRecord) (reason detail updated_at : string)
    : DM CallbackEdgeRecord :=
  let* latest := on_bureau (latest_edge edge) in
  if edge_settled (ce_state latest) then mret' latest
  else
    let* failed := on_bureau (update_callback_edge latest (λ e,
      edge_with e CE_FAILED (ce_child_reply_id e)
        (Some (str_or (ce_child_status e) (CallbackEdgeState_value CE_FAILED)))
        (ce_continuation_job_id e) (ce_continuation_message_id e) updated_at
        (dupdate (ce_diagnostics e) [("failure_reason", VStr reason); ("failure_detail", VStr detail)]))) in
    do* record_callback_failure_notice failed reason detail updated_at in
    mret' failed.

(** ** The child's end *)

Definition latest_child_reply (edge : CallbackEdgeRecord) : BM (option ReplyRecord) :=
  let* named := (if opt_truthy (ce_child_reply_id edge) then reply_get_latest (str_or (ce_child_reply_id edge) "")
                 else mret' None) in
  match named with
  | Some r => mret' (Some r)
  | None =>
      let* replies := reply_list_message (ce_child_message_id edge) in
      mret' (find_last (λ r, negb (py_truthy (dget (rp_diagnostics r) "notice"))) replies)
  end.

(** Make up for a continuation that has its job but not its attempt or its request. *)
Definition repair_pending_continuation_attempt (edge : CallbackEdgeRecord) (job : JobRecord) : DM bool :=
  if negb (pending_status (jr_status job)) then mret' false
  else
    let* attempt := on_bureau (attempt_by_job_id (jr_job_id job)) in
    let* inbound := (match attempt with
                     | None => mret' None
                     | Some a => on_bureau (on_kernel (inbound_get_latest_for_attempt (jr_agent_name job) (at_attempt_id a)))
                     end) in
    match attempt, inbound with
    | Some _, Some _ => mret' false
    | _, _ =>
        do* on_bureau (record_retry_attempt (dc_bureau cfg) (ce_parent_message_id edge) job
                         (or_str (jr_created_at job) (ce_updated_at edge))) in
        mret' true
    end.

(** [a or b] on optional strings. *)
Definition or_opt_text (a b : option string) : option string := if opt_truthy a then a else b.

Definition submit_callback_continuation (edge : CallbackEdgeRecord) (child_job : JobRecord)
    (child_reply_id : option string) (d : CompletionDecision) (finished_at : string) : DM CallbackEdgeRecord :=
  let* found := on_bureau (callback_edge_for_child_job (jr_job_id child_job)) in
  let latest := default edge found in
  let child_status := Some (JobStatus_value (jr_status child_job)) in
  if edge_settled (ce_state latest) then mret' latest
  else
    let* existing := existing_continuation_job latest in
    match existing with
    | Some c =>
        do* repair_pending_continuation_attempt latest c in
        let* persisted := on_bureau (latest_child_reply latest) in
        let st := if job_terminal (jr_status c) then CE_DONE else CE_CONTINUATION_SUBMITTED in
        on_bureau (update_callback_edge latest (λ e,
          edge_with e st
            (or_opt_text child_reply_id (or_opt_text (ce_child_reply_id e) (option_map rp_reply_id persisted)))
            child_status (Some (jr_job_id c)) (Some (ce_parent_message_id e)) finished_at (ce_diagnostics e)))
    | None =>
        let* updated := on_bureau (update_callback_edge latest (λ e,
          edge_with e CE_CHILD_COMPLETED child_reply_id child_status (ce_continuation_job_id e)
            (ce_continuation_message_id e) finished_at (ce_diagnostics e))) in
        let* submitted := attempted
          (let* request := continuation_request updated child_job d in
           submit_continuation_job request (ce_parent_message_id updated) finished_at) in
        match submitted with
        | inr e => fail_callback_edge updated "chain_continuation_submit_failed" (exn_str e) finished_at
        | inl (job_id, message_id) =>
            let* final := on_bureau (update_callback_edge updated (λ e,
              edge_with e CE_CONTINUATION_SUBMITTED (ce_child_reply_id e) (ce_child_status e) (Some job_id)
                (Some message_id) finished_at (ce_diagnostics e))) in
            do* append_event cfg child_job "chain_continuation_submitted"
                  [("edge_id", VStr (ce_edge_id final)); ("continuation_job_id", VStr job_id);
                   ("continuation_message_id", VStr message_id);
                   ("callback_target_agent", VStr (ce_callback_target_agent final))] finished_at in
            mret' final
        end
    end.

(** ** The end of an edge *)

Fixpoint mark_edges_done (edges : list CallbackEdgeRecord) (completed : CallbackEdgeRecord) (updated_at : string)
    : BM unit :=
  match edges with
  | [] => mret' tt
  | e :: rest =>
      do* (if String.eqb (ce_edge_id e) (ce_edge_id completed) then mret' tt
           else if negb (String.eqb (ce_parent_message_id e) (ce_parent_message_id completed)) then mret' tt
           else if negb (bool_decide (ce_state e = CE_CONTINUATION_SUBMITTED)) then mret' tt
           else do* update_callback_edge e (edge_state CE_DONE updated_at) in mret' tt) in
      mark_edges_done rest completed updated_at
  end.

Definition mark_callback_done (job : JobRecord) (finished_at : string) : BM unit :=
  let edge_id := option_text (jr_request job) "chain_edge_id" in
  if negb (truthy edge_id) then mret' tt
  else
    let* edge := callback_edge edge_id in
    match edge with
    | None => mret' tt
    | Some e =>
        if edge_over (ce_state e) then mret' tt
        else
          let* done := update_callback_edge e (edge_state CE_DONE finished_at) in
          let* edges := edge_list_latest in
          mark_edges_done edges done finished_at
    end.

Definition mark_parent_message_waiting (edge : CallbackEdgeRecord) (updated_at : string) : BM unit :=
  if edge_over (ce_state edge) then mret' tt
  else set_message_state (ce_parent_message_id edge) MS_RUNNING updated_at.

Definition terminalize_cancelled_parent_edge (edge : CallbackEdgeRecord) (parent_job : JobRecord)
    (updated_at : string) : BM CallbackEdgeRecord :=
  let* latest := latest_edge edge in
  if edge_settled (ce_state latest) then mret' latest
  else update_callback_edge latest (λ e,
    edge_with e CE_FAILED (ce_child_reply_id e) (ce_child_status e) (ce_continuation_job_id e)
      (ce_continuation_message_id e) updated_at
      (dupdate (ce_diagnostics e)
         [("failure_reason", VStr "chain_parent_cancelled"); ("parent_cancelled", VBool true);
          ("cancelled_parent_job_id", VStr (jr_job_id parent_job))])).

(** ** Repair *)

Definition job_is_outstanding (job_id : string) : DM bool :=
  let* target := on_queues (target_for_job job_id) in
  match target with
  | None => mret' false
  | Some sl =>
      let* active := on_queues (active_job_for sl) in
      if bool_decide (active = Some job_id) then mret' true
      else let* queued := on_queues (queued_items_for sl) in mret' (mem_str job_id queued)
  end.

Definition pending_edge_waits_on_child (edge : CallbackEdgeRecord) : DM bool :=
  if negb (bool_decide (ce_state edge = CE_PENDING)) then mret' false
  else job_is_outstanding (ce_child_job_id edge).

(** The test of [repair_candidates]. *)
Definition repair_candidate (edge : CallbackEdgeRecord) : DM bool :=
  if edge_pending edge && negb (opt_truthy (ce_continuation_job_id edge)) then
    let* waits := pending_edge_waits_on_child edge in mret' (negb waits)
  else mret' false.

Fixpoint repair_candidates (edges : list CallbackEdgeRecord) : DM (list CallbackEdgeRecord) :=
  match edges with
  | [] => mret' []
  | e :: rest =>
      let* wanted := repair_candidate e in
      let* l := repair_candidates rest in
      mret' (if wanted : bool then e :: l else l)
  end.

Definition unlinked_submitted (edge : CallbackEdgeRecord) : bool :=
  bool_decide (ce_state edge = CE_CONTINUATION_SUBMITTED) && negb (opt_truthy (ce_continuation_job_id edge)).

Definition queued_continuation_job (edge : CallbackEdgeRecord) : DM (option JobRecord) :=
  let job_id := stripped (ce_continuation_job_id edge) in
  if negb (truthy job_id) then mret' None
  else
    let* target := on_queues (target_for_job job_id) in
    match target with
    | None => mret' None
    | Some sl =>
        let* queued := on_queues (queued_items_for sl) in
        if negb (mem_str job_id queued) then mret' None
        else on_jobs (get_latest_target sl.2 job_id)
    end.

Definition job_for_reply (reply : option ReplyRecord) : DM (option JobRecord) :=
  match reply with
  | None => mret' None
  | Some r =>
      let* attempt := on_bureau (attempt_get_latest (rp_attempt_id r)) in
      match attempt with None => mret' None | Some a => get_job cfg (at_job_id a) end
  end.

(** The decision a reply stands for, rebuilt from the child's row. *)
Definition decision_from_reply (reply : ReplyRecord) (child_job : JobRecord) (terminal : pydict)
    (fallback_finished_at : string) : result CompletionDecision :=
  let status_value := JobStatus_value (jr_status child_job) in
  let! status := CompletionStatus_of (py_str (py_or (dget terminal "status") (VStr status_value))) in
  let! confidence := CompletionConfidence_of (py_str (py_or (dget terminal "confidence") (VStr "degraded"))) in
  let! diagnostics := py_dict_or_empty (dget terminal "diagnostics") in
  let diagnostics :=
    match rp_reply_artifact reply with
    | Some (_ :: _ as artifact) => dsetdefault diagnostics "reply_artifact" (VDict artifact)
    | _ => diagnostics
    end in
  let! reason := as_opt_str (py_or (dget terminal "reason") (VStr status_value)) in
  let! turn := as_opt_str (dget terminal "provider_turn_ref") in
  let! finished := as_opt_str (py_or (dget terminal "finished_at")
                                 (py_or (VStr (rp_finished_at reply)) (VStr fallback_finished_at))) in
  new_decision
    (MkDecision true status reason (Some confidence) (rp_reply reply) (py_truthy (dget terminal "anchor_seen"))
       (py_truthy (dget terminal "reply_started")) (py_truthy (dget terminal "reply_stable")) turn None finished
       diagnostics).

(** An edge whose continuation was found: linked to it, [CONTINUATION_SUBMITTED]. *)
Definition relink_edge (edge : CallbackEdgeRecord) (c : JobRecord) : DM CallbackEdgeRecord :=
  do* repair_pending_continuation_attempt edge c in
  let* reply := on_bureau (latest_child_reply edge) in
  let* reply_job := job_for_reply reply in
  on_bureau (update_callback_edge edge (λ e,
    edge_with e CE_CONTINUATION_SUBMITTED
      (or_opt_text (ce_child_reply_id e) (option_map rp_reply_id reply))
      (or_opt_text (ce_child_status e) (option_map (λ j, JobStatus_value (jr_status j)) reply_job))
      (Some (jr_job_id c)) (Some (ce_parent_message_id e)) (ce_updated_at e) (ce_diagnostics e))).

(** An edge whose child has ended without a continuation. *)
Definition resume_edge (edge : CallbackEdgeRecord) : DM (option CallbackEdgeRecord) :=
  let* reply := on_bureau (latest_child_reply edge) in
  let* reply_job := job_for_reply reply in
  let* child_job := (match reply_job with
                     | Some j => mret' (Some j)
                     | None => get_job cfg (ce_child_job_id edge)
                     end) in
  match reply, child_job with
  | Some r, Some c =>
      match jr_terminal_decision c with
      | None => mret' None
      | Some terminal =>
          let* d := mlift (decision_from_reply r c terminal (ce_updated_at edge)) in
          let* e := submit_callback_continuation edge c (Some (rp_reply_id r)) d
                      (or_str (ce_updated_at edge) (rp_finished_at r)) in
          mret' (Some e)
      end
  | _, _ => mret' None
  end.

Definition repair_edge (candidates : list string) (existing : list (string * JobRecord))
    (edge : CallbackEdgeRecord) : DM (option CallbackEdgeRecord) :=
  if edge_over (ce_state edge) then mret' None
  else if bool_decide (ce_state edge = CE_CONTINUATION_SUBMITTED) then
    let* c := (if opt_truthy (ce_continuation_job_id edge) then queued_continuation_job edge
               else mret' (find_continuation existing (ce_edge_id edge))) in
    match c with
    | None => mret' None
    | Some c =>
        let* repaired := repair_pending_continuation_attempt edge c in
        mret' (if repaired : bool then Some edge else None)
    end
  else if negb (mem_str (ce_edge_id edge) candidates) then mret' None
  else
    match find_continuation existing (ce_edge_id edge) with
    | Some c => let* e := relink_edge edge c in mret' (Some e)
    | None => resume_edge edge
    end.

Fixpoint repair_edges (candidates : list string) (existing : list (string * JobRecord))
    (edges : list CallbackEdgeRecord) : DM (list CallbackEdgeRecord) :=
  match edges with
  | [] => mret' []
  | e :: rest =>
      let* r := repair_edge candidates existing e in
      let* l := repair_edges candidates existing rest in
      mret' (option_list r ++ l)
  end.

Definition repair_callback_edges : DM (list CallbackEdgeRecord) :=
  let* latest := on_bureau edge_list_latest in
  let* candidates := repair_candidates latest in
  let* existing := existing_continuation_jobs_by_edge (candidates ++ List.filter unlinked_submitted latest) in
  repair_edges (map ce_edge_id candidates) existing latest.
End continuations.
