(* ===== verification/Submission.v ===== *)
(** Submissions, [lib/ccbd/services/dispatcher_runtime/submission_service.py],
    [submission_models.py], [submission_recording.py] and [lifecycle.py]: the plan of a
    request, its execution, the resubmission of a message and the retry of an attempt.

    The two workflows of the agentic loop that take a request aside before it is planned
    ([frontdesk_direct_handoff.py], [detailer_replan_handoff.py]) are not modelled: this is
    the dispatcher of a project without that loop. *)

From Stdlib Require Import Ascii String ZArith Lia.
From stdpp Require Import base gmap list strings pretty sorting.
From S2P Require Import Prelude PyData Names Text Storage MailboxModels MailboxKernel CompletionModels Jobs Api JobStore BureauModels BureauState Bureau Completion Artifacts DispatchState DispatchPolicy Dispatch Drain Routing Chains Continuations.

Local Open Scope Z_scope.

(** ** [submission_models.py] *)

(** [dict(artifact) if artifact else None] *)
Definition copy_artifact (artifact : option pydict) : option pydict :=
  match artifact with Some (e :: r) => Some (e :: r) | _ => None end.

Definition message_for_agent (r : MessageEnvelope) (agent_name : string) : result MessageEnvelope :=
  new_envelope
    (MkEnvelope (me_project_id r) agent_name (me_from_actor r) (me_body r) (me_task_id r) (me_reply_to r)
       (me_message_type r) SINGLE (me_silence_on_success r) (me_route_options r)
       (copy_artifact (me_body_artifact r))).

Section submission.
Context (cfg : dconfig) (ou : outside).

(** ** Planning *)

Fixpoint drafts_for_agents (request : MessageEnvelope) (targets : list string) : result (list JobDraft) :=
  match targets with
  | [] => Ok []
  | agent_name :: rest =>
      let! spec := spec_for cfg ou agent_name in
      let! message := message_for_agent request agent_name in
      let! l := drafts_for_agents request rest in
      Ok (MkDraft agent_name (sp_provider spec.1) message TARGET_AGENT agent_name None None None :: l)
  end.

(** The identifier of a submission, drawn for a broadcast only. *)
Definition submission_id_for (request : MessageEnvelope) : DM (option string) :=
  if bool_decide (me_delivery_scope request = BROADCAST)
  then let* id := fresh_id cfg "sub" in mret' (Some id) else mret' None.

Definition plan_for (request : MessageEnvelope) (targets : list string) (origin_message_id : option string)
    : DM SubmissionPlan :=
  let* submission_id := submission_id_for request in
  let* drafts := mlift (drafts_for_agents request targets) in
  mret' (MkPlan (me_project_id request) (me_from_actor request) request (me_task_id request) drafts submission_id
           (match submission_id with Some _ => Some "all" | None => None end) origin_message_id).

Definition plan_agent_submission (request : MessageEnvelope) : DM SubmissionPlan :=
  do* mlift (validate_sender cfg (me_from_actor request)) in
  do* validate_request_body_artifact cfg request in
  let* request := validate_callback_request cfg ou request in
  let* targets := resolve_targets cfg ou request in
  if bool_decide (targets = []) then dispatch_error ["no eligible target agents are alive for this request"]
  else
    do* validate_targets_available cfg ou targets in
    plan_for request targets None.

(** [_attempt_sort_key] as a comparison: [a > b]. *)
Definition attempt_after (a b : AttemptRecord) : bool :=
  (at_retry_index b <? at_retry_index a) ||
  ((at_retry_index a =? at_retry_index b) &&
   (str_gtb (at_updated_at a) (at_updated_at b) ||
    (String.eqb (at_updated_at a) (at_updated_at b) && str_gtb (at_attempt_id a) (at_attempt_id b)))).

(** [_latest_attempts_by_agent] *)
Definition keep_latest (d : list (string * AttemptRecord)) (a : AttemptRecord) : list (string * AttemptRecord) :=
  match List.find (λ kv, String.eqb kv.1 (at_agent_name a)) d with
  | Some (_, current) => if attempt_after a current then assoc_set (at_agent_name a) a d else d
  | None => assoc_set (at_agent_name a) a d
  end.

Definition latest_attempts_by_agent (message_id : string) : BM (list (string * AttemptRecord)) :=
  let* l := attempt_list_message message_id in
  mret' (foldl keep_latest [] (latest_attempts l)).

Definition attempt_of (d : list (string * AttemptRecord)) (agent_name : string) : option AttemptRecord :=
  option_map snd (List.find (λ kv, String.eqb kv.1 agent_name) d).

(** [_ensure_agent_target_ready] *)
Definition ensure_agent_target_ready (agent_name : string) : DM unit :=
  let* spec := mlift (spec_for cfg ou agent_name) in
  if ar_dispatch_disabled spec.2 then rejected ["agent "; agent_name; " is dispatch-disabled"] else mret' tt.

Definition require_attempt_lineage (message_id : string) (target_agents : list string)
    : DM (list (string * AttemptRecord)) :=
  let* latest := on_bureau (latest_attempts_by_agent message_id) in
  if bool_decide (latest = []) then dispatch_error ["message has no attempts to resubmit: "; message_id]
  else
    let missing := List.filter (λ a, is_none (attempt_of latest a)) target_agents in
    if bool_decide (missing ≠ []) then
      dispatch_error ["message is missing attempt lineage for agents: "; String.concat ", " missing]
    else mret' latest.

Definition ensure_no_active_attempts (latest : list (string * AttemptRecord)) : DM unit :=
  let active := sorted_names (map fst (List.filter (λ kv, negb (attempt_terminal (at_state kv.2))) latest)) in
  if bool_decide (active ≠ []) then
    dispatch_error ["message still has active attempts: "; String.concat ", " active]
  else mret' tt.

Fixpoint jobs_for_resubmission (target_agents : list string) (latest : list (string * AttemptRecord))
    : DM (list JobRecord) :=
  match target_agents with
  | [] => mret' []
  | agent_name :: rest =>
      do* ensure_agent_target_ready agent_name in
      match attempt_of latest agent_name with
      | None => mraise KeyError agent_name
      | Some a =>
          let* job := on_jobs (get_latest_target agent_name (at_job_id a)) in
          match job with
          | None => dispatch_error ["job not found for attempt: "; at_attempt_id a]
          | Some j => let* l := jobs_for_resubmission rest latest in mret' (j :: l)
          end
      end
  end.

Definition resubmission_request (original : MessageRecord) (source : MessageEnvelope) : result MessageEnvelope :=
  let several := (1 <? length (ms_target_agents original))%nat in
  new_envelope
    (MkEnvelope (me_project_id source) (if several then "all" else hd "" (ms_target_agents original))
       (ms_from_actor original) (me_body source) (me_task_id source) (me_reply_to source) (me_message_type source)
       (if several then BROADCAST else SINGLE) (me_silence_on_success source) (me_route_options source)
       (copy_artifact (me_body_artifact source))).

Definition plan_message_resubmission (message_id : string) : DM SubmissionPlan :=
  let* original := on_bureau (message_get_latest message_id) in
  match original with
  | None => dispatch_error ["message not found: "; message_id]
  | Some m =>
      let* latest := require_attempt_lineage message_id (ms_target_agents m) in
      do* ensure_no_active_attempts latest in
      let* jobs := jobs_for_resubmission (ms_target_agents m) latest in
      match jobs with
      | [] => mraise IndexError "list index out of range"
      | j :: _ =>
          let* request := mlift (resubmission_request m (jr_request j)) in
          do* mlift (validate_sender cfg (me_from_actor request)) in
          do* validate_request_body_artifact cfg request in
          do* validate_targets_available cfg ou (ms_target_agents m) in
          plan_for request (ms_target_agents m) (Some message_id)
      end
  end.

(** ** [_submit_plan] *)

(** The jobs, the submission's record, the message of the bureau and the callback edge of a
    chained request.  The web hook is not told: it keeps no state. *)
Definition submit_plan (plan : SubmissionPlan) (accepted_at : string) : DM (SubmitReceipt * option string) :=
  let* made := submit_drafts cfg (pl_submission_id plan) accepted_at (pl_drafts plan) in
  do* (match pl_submission_id plan with
       | None => mret' tt
       | Some id =>
           let* r := mlift (new_submission
             (MkSubmission id (pl_project_id plan) (pl_from_actor plan)
                (or_str (str_or (pl_target_scope plan) "") "all") (pl_task_id plan)
                (map (λ x, jr_job_id x.1) made) accepted_at accepted_at)) in
           on_jobs (submission_append r)
       end) in
  let* message_id := on_bureau (record_submission (dc_bureau cfg) (pl_request plan) (map fst made)
                                  (pl_submission_id plan) accepted_at (pl_origin_message_id plan)) in
  do* (match message_id with
       | None => mret' tt
       | Some id => register_callback_edge cfg ou (pl_request plan) (map fst made) id accepted_at
       end) in
  let* receipt := mlift (new_submit (MkSubmit accepted_at (map snd made) (pl_submission_id plan))) in
  mret' (receipt, message_id).

(** [submit_jobs] *)
Definition submit_jobs (request : MessageEnvelope) : DM SubmitReceipt :=
  let* accepted_at := clock cfg in
  let* plan := plan_agent_submission request in
  let* submitted := submit_plan plan accepted_at in
  mret' submitted.1.

Definition resubmit_message (message_id : string) : DM (SubmitReceipt * option string) :=
  let* accepted_at := clock cfg in
  let* plan := plan_message_resubmission message_id in
  submit_plan plan accepted_at.

(** ** [retry_attempt] *)

Definition RETRY_CONTINUE_BODY : string := "continue".
Definition RETRY_DELIVERY_MODE_OPTION : string := "retry_delivery_mode".
Definition RETRY_SOURCE_JOB_ID_OPTION : string := "retry_source_job_id".

Definition should_retry_with_continue (job : JobRecord) : bool :=
  if negb (String.eqb (lower (strip (me_message_type (jr_request job)))) "ask") then false
  else if String.eqb (token_of (dget (jr_provider_options job) RETRY_DELIVERY_MODE_OPTION)) "continue" then true
  else
    let terminal := default [] (jr_terminal_decision job) in
    py_truthy (dget terminal "anchor_seen") || py_truthy (dget terminal "reply_started").

Definition retry_request_for_job (job : JobRecord) : result MessageEnvelope :=
  let r := jr_request job in
  if negb (should_retry_with_continue job) then Ok r
  else new_envelope
    (MkEnvelope (me_project_id r) (me_to_agent r) (me_from_actor r) RETRY_CONTINUE_BODY (me_task_id r)
       (me_reply_to r) (me_message_type r) (me_delivery_scope r) (me_silence_on_success r) (me_route_options r)
       (copy_artifact (me_body_artifact r))).

Definition retry_provider_options_for_job (job : JobRecord) : pydict :=
  let options := jr_provider_options job in
  let options := if should_retry_with_continue job
                 then dset options RETRY_DELIVERY_MODE_OPTION (VStr "continue")
                 else dpop options RETRY_DELIVERY_MODE_OPTION in
  dset options RETRY_SOURCE_JOB_ID_OPTION (VStr (jr_job_id job)).

Definition resolve_retry_attempt (target : string) : DM AttemptRecord :=
  let* by_id := on_bureau (attempt_get_latest target) in
  match by_id with
  | Some a => mret' a
  | None =>
      let* by_job := on_bureau (attempt_by_job_id target) in
      match by_job with
      | Some a => mret' a
      | None => dispatch_error ["retry target not found: "; target]
      end
  end.

(** What may be retried: the attempt, its message and its job. *)
Definition retry_source (target : string) : DM (AttemptRecord * MessageRecord * JobRecord) :=
  let* a := resolve_retry_attempt target in
  if negb (attempt_terminal (at_state a)) then dispatch_error ["attempt is still active: "; at_attempt_id a]
  else if bool_decide (at_state a = AT_COMPLETED) then
    dispatch_error ["retry is not allowed for completed attempts: "; at_attempt_id a]
  else
    let* latest := on_bureau (latest_attempts_by_agent (at_message_id a)) in
    match attempt_of latest (at_agent_name a) with
    | None => dispatch_error ["message is missing attempt lineage for agent: "; at_agent_name a]
    | Some l =>
        if negb (String.eqb (at_attempt_id l) (at_attempt_id a)) then
          dispatch_error ["retry requires latest attempt for agent: "; at_agent_name a]
        else
          let* message := on_bureau (message_get_latest (at_message_id a)) in
          match message with
          | None => dispatch_error ["message not found for attempt: "; at_attempt_id a]
          | Some m =>
              do* ensure_agent_target_ready (at_agent_name a) in
              do* validate_targets_available cfg ou [at_agent_name a] in
              let* current := on_jobs (get_latest_target (at_agent_name a) (at_job_id a)) in
              match current with
              | None => dispatch_error ["job not found for attempt: "; at_attempt_id a]
              | Some j => mret' (a, m, j)
              end
          end
    end.

Record RetryPayload := MkRetryPayload {
  ry_accepted_at : string;
  ry_target : string;
  ry_message_id : string;
  ry_original_attempt_id : string;
  ry_attempt_id : string;
  ry_job_id : string;
  ry_agent_name : string;
  ry_status : JobStatus;
}.

Definition retry_attempt (target : string) : DM RetryPayload :=
  let* accepted_at := clock cfg in
  let* source := retry_source target in
  let '(a, m, j) := source in
  let* request := mlift (retry_request_for_job j) in
  let options := retry_provider_options_for_job j in
  let* job_id := fresh_id cfg "job" in
  let* built := build_job_record
    (MkDraft (jr_agent_name j) (jr_provider j) request (jr_target_kind j) (jr_target_name j)
       (jr_provider_instance j) (Some options) (jr_workspace_path j)) job_id (ms_submission_id m) accepted_at in
  let* receipt := enqueue_submitted_job cfg built.1 built.2 accepted_at in
  let* attempt_id := on_bureau (record_retry_attempt (dc_bureau cfg) (at_message_id a) built.1 accepted_at) in
  do* append_submission_job (ms_submission_id m) (jr_job_id built.1) accepted_at in
  mret' (MkRetryPayload accepted_at target (at_message_id a) (at_attempt_id a) attempt_id (ar_job_id receipt)
           (ar_agent_name receipt) (ar_status receipt)).
End submission.
