(* ===== verification/Deliveries.v ===== *)
(** The delivery of replies, [lib/ccbd/services/dispatcher_runtime/reply_delivery_runtime/]:
    a reply at the head of an agent's mailbox gets a delivery job of its own; what the end of
    that job does to the mailbox; the claim of a delivery; and the repair of heads whose job
    is lost or stuck.

    [dispatcher.complete], which repair and start call, is an argument here; [Finalize] gives
    it.

    The reply at the head of a mailbox, [lib/ccbd/services/dispatcher_runtime/reply_delivery_runtime/]:
    its delivery job is made ([preparation_*.py]), a head whose job is lost, stuck or no longer
    running is repaired ([repair.py]), and a delivery that could not be sent ends
    ([start_completion.py]). *)

From Stdlib Require Import Ascii String ZArith SpecFloat Lia.
From stdpp Require Import base gmap list strings pretty.
From S2P Require Import Prelude PyData Names Timestamps Storage MailboxModels MailboxKernel CompletionModels Jobs Api JobStore BureauModels BureauState Bureau Completion Artifacts DispatchState DispatchPolicy Dispatch Drain Routing.

Local Open Scope Z_scope.

(** ** [constants.py], [common.py] *)

Definition REPLY_DELIVERY_MESSAGE_TYPE : string := "reply_delivery".
Definition REPLY_DELIVERY_PROVIDER_OPTION : string := "reply_delivery".
Definition REPLY_DELIVERY_INBOUND_EVENT_OPTION : string := "reply_delivery_inbound_event_id".
Definition REPLY_DELIVERY_REPLY_ID_OPTION : string := "reply_delivery_reply_id".

(** [str(options.get(key) or '').strip() or None] *)
Definition delivery_option (job : JobRecord) (key : string) : option string :=
  or_none (strip (py_str_or_empty (dget (jr_provider_options job) key))).

Definition reply_delivery_inbound_event_id (job : JobRecord) : option string :=
  delivery_option job REPLY_DELIVERY_INBOUND_EVENT_OPTION.
Definition reply_delivery_reply_id (job : JobRecord) : option string :=
  delivery_option job REPLY_DELIVERY_REPLY_ID_OPTION.

Definition head_reply_event (agent_name : string) : DM (option InboundEventRecord) :=
  let* head := on_bureau (on_kernel (head_pending_event agent_name)) in
  mret' (match head with
         | Some h => if bool_decide (ie_event_type h = TASK_REPLY) then Some h else None
         | None => None
         end).

Definition head_reply_id (head : InboundEventRecord) : option string :=
  reply_id_from_payload (ie_payload_ref head).

(** ** [decisions.py] *)

Definition reply_delivery_failed_decision (job : JobRecord) (finished_at reason : string) (diagnostics : pydict)
    : result CompletionDecision :=
  new_decision
    (MkDecision true CS_INCOMPLETE (Some reason) (Some DEGRADED) "" false false false (Some (jr_job_id job)) None
       (Some finished_at) (dupdate [("reply_delivery", VBool true)] diagnostics)).

(** ** [formatting.py] *)

(** [int(round(float(z)))] *)
Definition through_float (z : Z) : result Z :=
  match of_Z z with
  | S754_zero _ => Ok 0
  | S754_finite sign m e =>
      let v := if 0 <=? e then Z.pos m * 2 ^ e else Z.pos m / 2 ^ (- e) in
      Ok (if sign then - v else v)
  | _ => raise OverflowError "int too large to convert to float"
  end.

(** A text would be read as a float; no caller leaves one. *)
Definition format_silence_seconds (v : pyval) : result string :=
  let seconds (z : Z) :=
    match through_float z with
    | Ok n => text [pretty n; "s"]
    | Err _ => py_str v
    end in
  match v with
  | VInt z => Ok (seconds z)
  | VBool b => Ok (seconds (if b then 1 else 0))
  | VStr _ => raise Unmodelled "a text as a float"
  | _ => Ok (py_str v)
  end.

Definition is_heartbeat_notice (r : ReplyRecord) : bool :=
  String.eqb (token_of (dget (rp_diagnostics r) "notice_kind")) "heartbeat".

Definition task_id_of (job : JobRecord) : string := stripped (me_task_id (jr_request job)).

Definition reply_header (r : ReplyRecord) (source_job : option JobRecord) : list string :=
  ["CCB_REPLY"; String.append "from=" (rp_agent_name r); String.append "reply=" (rp_reply_id r);
   String.append "status=" (ReplyTerminalStatus_value (rp_terminal_status r))]
  ++ match source_job with
     | None => []
     | Some j =>
         String.append "job=" (jr_job_id j)
         :: (if truthy (task_id_of j) then [String.append "task=" (task_id_of j)] else [])
     end.

Definition heartbeat_job_id (diagnostics : pydict) (source_job : option JobRecord) : string :=
  let job_id := strip (py_str_or_empty (dget diagnostics "job_id")) in
  if truthy job_id then job_id else match source_job with Some j => jr_job_id j | None => "" end.

Definition heartbeat_header (r : ReplyRecord) (source_job : option JobRecord) : result string :=
  let diagnostics := rp_diagnostics r in
  let field (name value : string) := if truthy value then [text [" "; name; "="; value]] else [] in
  let! silent := (match dget diagnostics "heartbeat_silence_seconds" with
                  | VNone => Ok []
                  | v => let! t := format_silence_seconds v in Ok [String.append " silent_for=" t]
                  end) in
  Ok (text (["CCB_NOTICE kind=heartbeat from="; rp_agent_name r; " reply="; rp_reply_id r]
            ++ field "job" (heartbeat_job_id diagnostics source_job)
            ++ field "task" (match source_job with Some j => task_id_of j | None => "" end)
            ++ field "last_progress" (strip (py_str_or_empty (dget diagnostics "last_progress_at")))
            ++ silent)).

Definition format_heartbeat_delivery_body (r : ReplyRecord) (source_job : option JobRecord) : result string :=
  let! header := heartbeat_header r source_job in
  let body := strip (rp_reply r) in
  Ok (rstrip (join_lines [header; ""; if truthy body then body else "(empty notice)"])).

Section deliveries.
Context (cfg : dconfig) (ou : outside) `{Execution}.

Definition source_job_for_reply (r : ReplyRecord) : DM (option JobRecord) :=
  let* attempt := on_bureau (attempt_get_latest (rp_attempt_id r)) in
  match attempt with None => mret' None | Some a => get_job cfg (at_job_id a) end.

Definition format_reply_delivery_body (r : ReplyRecord) : DM string :=
  let* source_job := source_job_for_reply r in
  if is_heartbeat_notice r then mlift (format_heartbeat_delivery_body r source_job)
  else mret' (rstrip (join_lines [join_space (reply_header r source_job); "";
                                  if truthy (rp_reply r) then rp_reply r else "(empty reply)"])).

(** ** [head.py] *)

Definition rewrite_reply_head (current : InboundEventRecord) (reply_id : string)
    (delivery_job_id : option string) (updated_at : string) : DM unit :=
  let* payload := mlift (compose_reply_payload reply_id delivery_job_id) in
  do* on_bureau (on_kernel (rewrite_head (bc_kernel (dc_bureau cfg)) (ie_agent_name current)
        (ie_inbound_event_id current) (Some payload) IE_QUEUED (Some updated_at) true)) in
  mret' tt.

(** ** [terminal.py] *)

Definition MAX_PRE_DELIVERY_TRANSPORT_REQUEUES : Z := 3.

Definition delivery_reached_processing (job : JobRecord) : bool :=
  match jr_terminal_decision job with
  | None => false
  | Some terminal =>
      py_truthy (dget terminal "anchor_seen") ||
      match dget terminal "diagnostics" with
      | VDict diagnostics =>
          String.eqb (token_of (dget diagnostics "delivery_state")) "accepted" ||
          mem_str (token_of (dget diagnostics "delivery_status")) ["sent"; "accepted"; "held_without_turn_evidence"] ||
          py_truthy (dget diagnostics "reply_delivery_no_turn_evidence")
      | _ => false
      end
  end.

Definition terminal_reason (job : JobRecord) : string :=
  match jr_terminal_decision job with
  | Some terminal => py_str_or_empty (dget terminal "reason")
  | None => ""
  end.

Definition requeued_for (inbound_event_id : string) (e : JobEvent) : bool :=
  String.eqb (je_type e) "reply_delivery_requeued" &&
  String.eqb (py_str_or_empty (dget (je_payload e) "inbound_event_id")) inbound_event_id.

Definition transport_requeue_count (job : JobRecord) (inbound_event_id : string) : DM Z :=
  let* events := on_jobs (job_events_read_since (jr_target_name job) 0) in
  mret' (Z.of_nat (length (List.filter (requeued_for inbound_event_id) events.2))).

Inductive disposition := CONSUMED | ABANDONED | REQUEUED.

#[export] Instance disposition_eq_dec : EqDecision disposition.
Proof. solve_decision. Defined.

Definition terminal_disposition (job : JobRecord) (inbound_event_id : string) : DM disposition :=
  if bool_decide (jr_status job = JS_CANCELLED) then mret' CONSUMED
  else if delivery_reached_processing job then mret' CONSUMED
  else
    let* count := transport_requeue_count job inbound_event_id in
    mret' (if MAX_PRE_DELIVERY_TRANSPORT_REQUEUES <=? count then ABANDONED else REQUEUED).

Definition consume_reply (job : JobRecord) (inbound_event_id finished_at : string) : DM unit :=
  do* on_bureau (on_kernel (consume (bc_kernel (dc_bureau cfg)) (jr_agent_name job) inbound_event_id
                              (Some finished_at))) in
  mret' tt.

Definition terminal_payload (job : JobRecord) (inbound_event_id reply_id : string) : pydict :=
  [("inbound_event_id", VStr inbound_event_id); ("reply_id", VStr reply_id);
   ("terminal_status", VStr (JobStatus_value (jr_status job)))].

Definition resolve_reply_delivery_terminal (job : JobRecord) (finished_at : string) : DM unit :=
  if negb (is_reply_delivery_job job) then mret' tt
  else
    match reply_delivery_inbound_event_id job, reply_delivery_reply_id job with
    | Some inbound_event_id, Some reply_id =>
        let* current := on_bureau (on_kernel (inbound_get_latest (jr_agent_name job) inbound_event_id)) in
        match current with
        | None => mret' tt
        | Some c =>
            if bool_decide (jr_status job = JS_COMPLETED) then
              do* consume_reply job inbound_event_id finished_at in
              append_event cfg job "reply_delivery_consumed"
                [("inbound_event_id", VStr inbound_event_id); ("reply_id", VStr reply_id)] finished_at
            else
              let* d := terminal_disposition job inbound_event_id in
              let payload := terminal_payload job inbound_event_id reply_id in
              match d with
              | CONSUMED =>
                  do* consume_reply job inbound_event_id finished_at in
                  append_event cfg job "reply_delivery_terminal_after_delivery"
                    (payload ++ [("terminal_reason", VStr (terminal_reason job))]) finished_at
              | ABANDONED =>
                  do* consume_reply job inbound_event_id finished_at in
                  let* count := transport_requeue_count job inbound_event_id in
                  append_event cfg job "reply_delivery_abandoned"
                    (payload ++ [("terminal_reason", VStr (terminal_reason job));
                                 ("transport_requeues", VInt count)]) finished_at
              | REQUEUED =>
                  do* rewrite_reply_head c reply_id None finished_at in
                  append_event cfg job "reply_delivery_requeued" payload finished_at
              end
        end
    | _, _ => mret' tt
    end.

(** ** [claims.py] *)

Definition claimable_reply_delivery_job_ids (agent_name : string) : DM (list string) :=
  let* head := head_reply_event agent_name in
  match head with
  | None => mret' []
  | Some h =>
      let job_id := str_or (delivery_job_id_from_payload (ie_payload_ref h)) "" in
      if negb (truthy job_id) then mret' []
      else
        let* current := get_job cfg job_id in
        mret' (match current with
               | Some c => if pending_status (jr_status c) then [job_id] else []
               | None => []
               end)
  end.

Definition claim_reply_delivery_start (job : JobRecord) (started_at : string) : DM bool :=
  if negb (is_reply_delivery_job job) then mret' true
  else
    match reply_delivery_inbound_event_id job with
    | None => mret' false
    | Some inbound_event_id =>
        let* head := head_reply_event (jr_agent_name job) in
        match head with
        | None => mret' false
        | Some h =>
            if negb (String.eqb (ie_inbound_event_id h) inbound_event_id) then mret' false
            else
              let* claimed := on_bureau (on_kernel (claim (bc_kernel (dc_bureau cfg)) (jr_agent_name job)
                                                      inbound_event_id (Some started_at))) in
              mret' (bool_decide (is_Some claimed))
        end
    end.
End deliveries.

Section heads.
Context (cfg : dconfig) (ou : outside) `{Execution}.
(** [dispatcher.complete] *)
Context (complete : string → CompletionDecision → DM JobRecord).

(** ** [preparation_message.py] *)

Definition resolve_workspace_path (agent_name : string) (runtime : option AgentRuntime) : string :=
  match runtime with
  | Some r => if opt_truthy (rt_workspace_path r) then str_or (rt_workspace_path r) "" else ou_workspace ou agent_name
  | None => ou_workspace ou agent_name
  end.

Definition build_reply_delivery_request (r : ReplyRecord) (project_id agent_name : string) : DM MessageEnvelope :=
  let* body := format_reply_delivery_body cfg r in
  mlift (new_envelope
    (MkEnvelope project_id agent_name "system" body (Some (String.append "reply:" (rp_reply_id r))) None
       REPLY_DELIVERY_MESSAGE_TYPE SINGLE false [] None)).

Definition reply_delivery_message (message_id : string) (r : ReplyRecord) (agent_name accepted_at : string)
    : MessageRecord :=
  MkMessage message_id (Some (rp_message_id r)) "system" "single" [agent_name] REPLY_DELIVERY_MESSAGE_TYPE
    [("mode", VStr "none"); ("expected_reply_count", VInt 0)] [("mode", VStr "manual")] 10
    (Some (String.append "reply:" (rp_reply_id r))) None accepted_at accepted_at MS_QUEUED.

Definition append_reply_delivery_message (r : ReplyRecord) (agent_name accepted_at provider job_id : string)
    : DM unit :=
  let* message_id := fresh_id cfg "msg" in
  let* attempt_id := fresh_id cfg "att" in
  let* m := mlift (normalize_message_record (reply_delivery_message message_id r agent_name accepted_at)) in
  do* on_bureau (message_append m) in
  on_bureau (append_attempt
    (MkAttempt attempt_id message_id agent_name provider job_id 0 None accepted_at accepted_at AT_PENDING)).

Definition reply_delivery_options (head : InboundEventRecord) (r : ReplyRecord) : pydict :=
  [("no_wrap", VBool true); (REPLY_DELIVERY_PROVIDER_OPTION, VBool true);
   (REPLY_DELIVERY_INBOUND_EVENT_OPTION, VStr (ie_inbound_event_id head));
   (REPLY_DELIVERY_REPLY_ID_OPTION, VStr (rp_reply_id r))].

Definition build_reply_delivery_job (agent_name : string) (head : InboundEventRecord) (r : ReplyRecord)
    (accepted_at project_id : string) : DM JobRecord :=
  let* spec := mlift (spec_for cfg ou agent_name) in
  let* runtime := registry_get agent_name in
  let workspace := resolve_workspace_path agent_name runtime in
  let* request := build_reply_delivery_request r project_id agent_name in
  let* job_id := fresh_id cfg "job" in
  let* built := build_job_record
    (MkDraft agent_name (sp_provider spec.1) request TARGET_AGENT agent_name None
       (Some (reply_delivery_options head r)) (Some workspace)) job_id None accepted_at in
  do* enqueue_submitted_job cfg built.1 built.2 accepted_at in
  do* append_reply_delivery_message r agent_name accepted_at (sp_provider spec.1) job_id in
  do* rewrite_reply_head cfg head (rp_reply_id r) (Some job_id) accepted_at in
  do* append_event cfg built.1 "reply_delivery_scheduled"
        [("inbound_event_id", VStr (ie_inbound_event_id head)); ("reply_id", VStr (rp_reply_id r))] accepted_at in
  mret' built.1.

(** ** [preparation_head.py] *)

Definition reset_stale_reply_head (head : InboundEventRecord) (reply_id agent_name : string)
    : DM (option InboundEventRecord) :=
  let* now := clock cfg in
  do* rewrite_reply_head cfg head reply_id None now in
  head_reply_event agent_name.

(** The head a delivery may be made for; nothing where the delivery there is under way, or
    was completed. *)
Definition resolve_existing_delivery_job (agent_name : string) (head : InboundEventRecord) (reply_id : string)
    : DM (option InboundEventRecord) :=
  match delivery_job_id_from_payload (ie_payload_ref head) with
  | Some (String _ _ as delivery_job_id) =>
      let* current := get_job cfg delivery_job_id in
      match current with
      | None => reset_stale_reply_head head reply_id agent_name
      | Some c =>
          match jr_status c with
          | JS_ACCEPTED | JS_QUEUED | JS_RUNNING => mret' None
          | JS_COMPLETED => do* resolve_reply_delivery_terminal cfg c (jr_updated_at c) in mret' None
          | _ => reset_stale_reply_head head reply_id agent_name
          end
      end
  | _ => mret' (Some head)
  end.

(** ** [repair.py] *)

Definition REPLY_DELIVERY_PENDING_STALL_US : Z := 300 * US_PER_S.

(** [_seconds_since], in microseconds. *)
Definition seconds_since (timestamp : string) : DM (option Z) :=
  let base := parse_timestamp (Some timestamp) in
  let* now := clock cfg in
  match base, parse_timestamp (Some now) with
  | Some b, Some n => let* age := mlift (dt_sub n b) in mret' (Some (Z.max 0 age))
  | _, _ => mret' None
  end.

Definition pending_delivery_is_stalled (c : JobRecord) : DM bool :=
  let* age := seconds_since (or_str (jr_updated_at c) (jr_created_at c)) in
  mret' (match age with Some us => REPLY_DELIVERY_PENDING_STALL_US <=? us | None => false end).

Definition execution_job_is_live (job_id : string) : DM bool :=
  let* now := moment in mret' (ex_present && ex_live now job_id).

(** [_load_persisted_execution_state]: its pending decision. *)
Definition load_persisted_execution_state (job_id : string) : DM (option (option CompletionDecision)) :=
  let* now := moment in
  mret' (if ex_present then match ex_stored now job_id with Ok p => p | Err _ => None end else None).

Definition SENT_EVENTS : list string :=
  ["job_started"; "provider_start_failed"; "reply_delivery_consumed"; "reply_delivery_terminal_after_delivery"].

Definition delivery_never_reached_provider (c : JobRecord) : DM bool :=
  let* live := execution_job_is_live (jr_job_id c) in
  if live : bool then mret' false
  else
    let* now := moment in
    if ex_present && negb (match ex_stored now (jr_job_id c) with Ok None => true | _ => false end) then mret' false
    else
      let* events := caught (on_jobs (job_events_read_since (jr_target_name c) 0)) in
      mret' (match events with
             | None => false
             | Some l => negb (existsb (λ e, String.eqb (je_job_id e) (jr_job_id c) && mem_str (je_type e) SENT_EVENTS) l.2)
             end).

Definition over_event (st : InboundEventStatus) : bool :=
  match st with IE_CONSUMED | IE_SUPERSEDED | IE_ABANDONED => true | _ => false end.

(** May the lease go, and does its removal take an expiry of its own? *)
Definition leased_event_over (agent_name : string) (lease : DeliveryLease) : DM bool :=
  let* leased := on_bureau (on_kernel (inbound_get_latest agent_name (dl_inbound_event_id lease))) in
  mret' (match leased with Some e => over_event (ie_status e) | None => true end).

Definition repair_released_head (c : JobRecord) (head : InboundEventRecord) (reply_id agent_name : string)
    (lease : DeliveryLease) : DM (option InboundEventRecord) :=
  let* now := clock cfg in
  do* rewrite_reply_head cfg head reply_id (Some (jr_job_id c)) now in
  let* at_ := clock cfg in
  do* append_event cfg c "reply_delivery_pending_stall_repaired"
        [("repair_kind", VStr "pending_delivery_job");
         ("head_inbound_event_id", VStr (ie_inbound_event_id head)); ("reply_id", VStr reply_id);
         ("stalled_since", VStr (jr_updated_at c));
         ("released_lease_inbound_event_id", VStr (dl_inbound_event_id lease))] at_ in
  head_reply_event agent_name.

Definition repair_pending_stall (c : JobRecord) (head : InboundEventRecord) (reply_id agent_name : string)
    : DM (option InboundEventRecord) :=
  let* stalled := pending_delivery_is_stalled c in
  if negb stalled then mret' None
  else
    let* active := on_queues (active_job_for (slot_of c)) in
    if negb (is_none active) then mret' None
    else
      let* lease := on_bureau (on_kernel (lease_load agent_name)) in
      match lease with
      | None => mret' None
      | Some l =>
          if negb (is_acquired l) then mret' None
          else
            let* unsent := delivery_never_reached_provider c in
            if negb unsent then mret' None
            else if String.eqb (dl_inbound_event_id l) (ie_inbound_event_id head) then
              repair_released_head c head reply_id agent_name l
            else
              let* over := leased_event_over agent_name l in
              if negb over then mret' None
              else
                let* now := clock cfg in
                do* on_bureau (on_kernel (expire_lease (bc_kernel (dc_bureau cfg)) agent_name (Some now))) in
                repair_released_head c head reply_id agent_name l
      end.

Definition repair_orphaned_lease (head : InboundEventRecord) (reply_id agent_name : string)
    : DM (option InboundEventRecord) :=
  let* lease := on_bureau (on_kernel (lease_load agent_name)) in
  match lease with
  | None => mret' None
  | Some l =>
      if negb (String.eqb (dl_inbound_event_id l) (ie_inbound_event_id head)) then mret' None
      else reset_stale_reply_head head reply_id agent_name
  end.

(** A delivery that is marked running: its end as it was found, or else an end without one. *)
Definition repair_running (c : JobRecord) (head : InboundEventRecord) (reply_id : string)
    : DM (option JobRecord) :=
  let* persisted := load_persisted_execution_state (jr_job_id c) in
  let failed :=
    let* live := execution_job_is_live (jr_job_id c) in
    if live : bool then mret' None
    else
      let* now := clock cfg in
      let* d := mlift (reply_delivery_failed_decision c now "reply_delivery_stale_running_repaired"
        [("repair_kind", VStr "stale_running_delivery_job");
         ("head_inbound_event_id", VStr (ie_inbound_event_id head)); ("reply_id", VStr reply_id)]) in
      let* j := complete (jr_job_id c) d in mret' (Some j) in
  match persisted with
  | Some (Some d) => if cd_terminal d then let* j := complete (jr_job_id c) d in mret' (Some j) else failed
  | _ => failed
  end.

(** What a repair returns: a head, or the delivery it has ended. *)
Definition repaired {A B} (m : DM (option A)) (f : A → B) : DM (option B) :=
  let* x := m in mret' (option_map f x).

Definition repair_agent_reply_delivery_head (agent_name : string) : DM (option (InboundEventRecord + JobRecord)) :=
  let* head := head_reply_event agent_name in
  match head with
  | None => mret' None
  | Some h =>
      match head_reply_id h with
      | Some (String _ _ as reply_id) =>
          match delivery_job_id_from_payload (ie_payload_ref h) with
          | Some (String _ _ as delivery_job_id) =>
              let* current := get_job cfg delivery_job_id in
              match current with
              | None => repaired (reset_stale_reply_head h reply_id agent_name) inl
              | Some c =>
                  if pending_status (jr_status c) then repaired (repair_pending_stall c h reply_id agent_name) inl
                  else if negb (running_status (jr_status c)) then mret' None
                  else repaired (repair_running c h reply_id) inr
              end
          | _ => repaired (repair_orphaned_lease h reply_id agent_name) inl
          end
      | _ => mret' None
      end
  end.

Fixpoint repair_heads (agent_names : list string) : DM (list (InboundEventRecord + JobRecord)) :=
  match agent_names with
  | [] => mret' []
  | a :: rest =>
      let* x := repair_agent_reply_delivery_head a in
      let* l := repair_heads rest in
      mret' (option_list x ++ l)
  end.

Definition repair_reply_delivery_heads : DM (list (InboundEventRecord + JobRecord)) :=
  repair_heads (dc_agents cfg).

(** ** [preparation_service.py] *)

(** [project_id_for_agent] *)
Definition project_id_for_agent (agent_name : string) : DM (option string) :=
  let* runtime := registry_get agent_name in
  let from_runtime := match runtime with Some _ => ou_project_id ou agent_name | None => None end in
  if opt_truthy from_runtime then mret' from_runtime
  else
    let* latest := latest_for_agent agent_name in
    mret' (match latest with Some j => or_none (me_project_id (jr_request j)) | None => None end).

Definition prepare_agent_reply_delivery (agent_name : string) : DM (option JobRecord) :=
  let* head := head_reply_event agent_name in
  match head with
  | None => mret' None
  | Some h =>
      match head_reply_id h with
      | Some (String _ _ as reply_id) =>
          let* free := resolve_existing_delivery_job agent_name h reply_id in
          match free with
          | None => mret' None
          | Some h =>
              let* reply := on_bureau (reply_get_latest reply_id) in
              match reply with
              | None => mret' None
              | Some r =>
                  let* accepted_at := clock cfg in
                  let* project_id := project_id_for_agent agent_name in
                  match project_id with
                  | Some (String _ _ as p) =>
                      let* j := build_reply_delivery_job agent_name h r accepted_at p in mret' (Some j)
                  | _ => mret' None
                  end
              end
          end
      | _ => mret' None
      end
  end.

Fixpoint prepare_agents (agent_names : list string) : DM (list JobRecord) :=
  match agent_names with
  | [] => mret' []
  | a :: rest =>
      let* x := prepare_agent_reply_delivery a in
      let* l := prepare_agents rest in
      mret' (option_list x ++ l)
  end.

Definition prepare_reply_deliveries : DM (list JobRecord) :=
  do* repair_reply_delivery_heads in prepare_agents (dc_agents cfg).

(** ** [start_completion.py] *)

Definition complete_reply_delivery_after_start (job : JobRecord) (started_at : string) (sub : option submission)
    : DM JobRecord :=
  let mode := token_of (dget (runtime_state sub) "mode") in
  if is_none sub || mem_str mode ["error"; "passive"] then
    let diagnostics :=
      ("submission_mode", VStr (if truthy mode then mode else "missing"))
      :: match sub with
         | None => []
         | Some s =>
             [("submission_reason", VStr (py_str_or_empty (py_or (dget (su_runtime_state s) "reason") (VStr (su_reason s)))));
              ("submission_error", VStr (py_str_or_empty (dget (su_runtime_state s) "error")))]
         end in
    let* d := mlift (reply_delivery_failed_decision job started_at "reply_delivery_transport_unavailable" diagnostics) in
    complete (jr_job_id job) d
  else mret' job.
End heads.
