(* ===== verification/Finalize.v ===== *)
(** The end of a job as a whole, [lib/ccbd/services/dispatcher_runtime/finalization_runtime/]:
    its rows, what the bureau, the chains and the sender are told ([service.py],
    [message_bureau.py]), the automatic retry ([message_bureau_retry.py],
    [message_bureau_retry_events.py]); the cancellation of a job ([cancellation.py]); and the
    end of all jobs at shutdown ([shutdown.py]).

    The dispatcher is that of a project without the agentic loop, for which
    [enforce_frontdesk_boundary] gives the decision back. *)

From Stdlib Require Import Ascii String ZArith Lia.
From stdpp Require Import base gmap list strings pretty.
From S2P Require Import Prelude PyData Names Text Storage MailboxModels MailboxKernel CompletionModels Jobs Api JobStore BureauModels BureauState Bureau Completion Artifacts DispatchState DispatchPolicy Dispatch Drain Routing Chains Continuations Submission Deliveries.

Local Open Scope Z_scope.

Section finalize.
Context (cfg : dconfig) (ou : outside) `{Execution}.

(** ** [message_bureau_retry_events.py] *)

Definition retry_event_payload (c : RetryableFailureContext) : pydict :=
  [("message_id", VStr (rx_message_id c)); ("attempt_id", VStr (rx_attempt_id c));
   ("attempt_number", VInt (rx_attempt_number c)); ("max_attempts", VInt (rx_max_attempts c));
   ("reason", VStr (rx_reason c))].

Definition append_retry_failed_event (terminal : JobRecord) (plan : RetryableFailureContext)
    (error finished_at : string) : DM unit :=
  append_event cfg terminal "job_retry_failed" (retry_event_payload plan ++ [("error", VStr error)]) finished_at.

Definition append_retry_scheduled_event (terminal : JobRecord) (plan : RetryableFailureContext)
    (p : RetryPayload) (finished_at : string) : DM unit :=
  append_event cfg terminal "job_retry_scheduled"
    [("message_id", VStr (ry_message_id p)); ("original_attempt_id", VStr (ry_original_attempt_id p));
     ("attempt_id", VStr (ry_attempt_id p)); ("job_id", VStr (ry_job_id p));
     ("agent_name", VStr (ry_agent_name p)); ("attempt_number", VInt (rx_attempt_number plan + 1));
     ("max_attempts", VInt (rx_max_attempts plan)); ("reason", VStr (rx_reason plan))]
    (or_str (ry_accepted_at p) finished_at).

Definition append_retry_exhausted_event (terminal : JobRecord) (c : RetryableFailureContext)
    (finished_at : string) : DM unit :=
  append_event cfg terminal "job_retry_exhausted" (retry_event_payload c) finished_at.

Definition append_nonretryable_failure_event (terminal : JobRecord) (d : CompletionDecision)
    (kind : failure_kind) (finished_at : string) : DM unit :=
  append_event cfg terminal "job_retry_skipped_nonretryable"
    [("reason", VStr (or_str (token_of_opt (cd_reason d)) "api_error"));
     ("classification", VStr (failure_kind_value kind));
     ("error_code", of_opt_str (or_none (strip (py_str_or_empty (diag d "error_code")))))] finished_at.

(** ** [message_bureau_retry.py] *)

(** [_provider_catalog.get(provider).supports_resume] *)
Definition provider_supports_resume (provider : string) : bool :=
  match catalog_get provider (tc_catalog (dc_tracker cfg)) with
  | Ok m => pm_supports_resume m
  | Err _ => false
  end.

(** Of the functions here that return the decision they were given or another one, the first
    is [None]. *)
Definition schedule_automatic_retry (c terminal : JobRecord) (d : CompletionDecision) (finished_at : string)
    : DM (option CompletionDecision * bool) :=
  let* plan := on_bureau (automatic_retry_plan provider_supports_resume c d) in
  match plan with
  | None => mret' (None, false)
  | Some p =>
      let* tried := attempted (retry_attempt cfg ou (jr_job_id c)) in
      match tried with
      | inr e =>
          let* reply := mlift (with_retry_failure_reply d terminal (rx_attempt_number p) (rx_max_attempts p)
                                 (Some (exn_str e))) in
          do* append_retry_failed_event terminal p (exn_str e) finished_at in
          mret' (Some reply, false)
      | inl payload =>
          do* append_retry_scheduled_event terminal p payload finished_at in mret' (None, true)
      end
  end.

Definition reply_decision_without_automatic_retry (c terminal : JobRecord) (d : CompletionDecision)
    (finished_at : string) : DM (option CompletionDecision) :=
  let* context := on_bureau (retryable_failure_context provider_supports_resume c d) in
  match context with
  | Some f =>
      let* reply := mlift (with_retry_failure_reply d terminal (rx_attempt_number f) (rx_max_attempts f) None) in
      do* append_retry_exhausted_event terminal f finished_at in
      mret' (Some reply)
  | None =>
      if should_render_timeout_inspection_reply d then
        let* reply := mlift (with_timeout_inspection_reply d terminal) in mret' (Some reply)
      else
        match nonretryable_api_failure_kind d with
        | None => mret' None
        | Some kind =>
            let* reply := mlift (with_nonretryable_api_failure_reply d terminal) in
            do* append_nonretryable_failure_event terminal d kind finished_at in
            mret' (Some reply)
        end
  end.

(** ** [message_bureau.py] *)

Definition should_deliver_to_caller (job : JobRecord) : bool :=
  negb (bool_decide (jr_status job = JS_COMPLETED) && me_silence_on_success (jr_request job)).

Definition empty_result_notice_decision (terminal : JobRecord) (d : CompletionDecision) (deliver_to_caller : bool)
    : DM (option CompletionDecision) :=
  if negb deliver_to_caller then mret' None
  else
    let* edge := on_bureau (callback_child_edge terminal) in
    match edge with
    | Some _ => mret' None
    | None =>
        if negb (is_empty_result_outcome d) then
          if needs_guidance d
          then let* d' := mlift (with_abnormal_result_guidance d terminal) in mret' (Some d')
          else mret' None
        else let* d' := mlift (with_empty_result_notice d terminal) in mret' (Some d')
    end.

(** [_job_with_unsilenced_reply] *)
Definition job_with_unsilenced_reply (job : JobRecord) : result JobRecord :=
  let r := jr_request job in
  if negb (me_silence_on_success r) then Ok job
  else
    let! request := new_envelope
      (MkEnvelope (me_project_id r) (me_to_agent r) (me_from_actor r) (me_body r) (me_task_id r) (me_reply_to r)
         (me_message_type r) (me_delivery_scope r) false (me_route_options r) (me_body_artifact r)) in
    new_job
      (MkJob (jr_job_id job) (jr_submission_id job) (jr_agent_name job) (jr_provider job) request (jr_status job)
         (jr_terminal_decision job) (jr_cancel_requested_at job) (jr_created_at job) (jr_updated_at job)
         (jr_workspace_path job) (jr_target_kind job) (jr_target_name job) (jr_provider_instance job)
         (jr_provider_options job)).

Definition record_terminal_result (terminal : JobRecord) (d : CompletionDecision) (finished_at : string)
    (deliver_to_caller : bool) : DM unit :=
  let* edge := on_bureau (callback_child_edge terminal) in
  do* (match edge with
       | Some e =>
           let* job := mlift (job_with_unsilenced_reply terminal) in
           let* reply_id := on_bureau (record_reply (dc_bureau cfg) job d finished_at false) in
           do* submit_callback_continuation cfg ou e terminal reply_id d finished_at in mret' tt
       | None =>
           do* on_bureau (record_reply (dc_bureau cfg) terminal d finished_at deliver_to_caller) in mret' tt
       end) in
  on_bureau (mark_callback_done terminal finished_at).

(** The reply a caller gets, where it is not the decision itself. *)
Definition reply_decision (c terminal : JobRecord) (d : CompletionDecision)
    (retry_reply : option CompletionDecision) (finished_at : string) : DM (option CompletionDecision) :=
  let* first := (match retry_reply with
                 | Some r => mret' (Some r)
                 | None => reply_decision_without_automatic_retry c terminal d finished_at
                 end) in
  let* noticed := empty_result_notice_decision terminal (default d first) (should_deliver_to_caller terminal) in
  mret' (match noticed with Some r => Some r | None => first end).

Definition record_reply_outcome (c terminal : JobRecord) (d : CompletionDecision)
    (retry_reply : option CompletionDecision) (prior : option CompletionSnapshot) (finished_at : string)
    : DM JobRecord :=
  let* reply := reply_decision c terminal d retry_reply finished_at in
  let* final := (match reply with
                 | None => mret' (terminal, d)
                 | Some r =>
                     let* r := spill_terminal_reply_if_needed cfg c r finished_at in
                     let* terminal := persist_reply_decision cfg c terminal r prior finished_at in
                     mret' (terminal, r)
                 end) in
  do* record_terminal_result final.1 final.2 finished_at (should_deliver_to_caller final.1) in
  mret' final.1.

(** An edge to a chain whose child has not come to its end takes the result over. *)
Definition delegates (e : option CallbackEdgeRecord) : option CallbackEdgeRecord :=
  match e with
  | Some e => if edge_over (ce_state e) then None else Some e
  | None => None
  end.

Definition record_message_bureau_completion (c terminal : JobRecord) (d : CompletionDecision)
    (prior : option CompletionSnapshot) (finished_at : string) : DM (JobRecord * bool) :=
  do* on_bureau (record_attempt_terminal (dc_bureau cfg) terminal finished_at) in
  if is_reply_delivery_job c then mret' (terminal, false)
  else
    let* parent_edge := on_bureau (delegated_parent_edge terminal) in
    match delegates parent_edge with
    | Some e =>
        let* terminal := persist_delegated_terminal_job cfg terminal e finished_at in
        do* on_bureau (mark_parent_message_waiting e finished_at) in
        mret' (terminal, false)
    | None =>
        let* retry := schedule_automatic_retry c terminal d finished_at in
        if retry.2 : bool then mret' (terminal, true)
        else
          let* terminal := record_reply_outcome c terminal d retry.1 prior finished_at in
          mret' (terminal, false)
    end.

Definition record_message_bureau_cancellation (terminal : JobRecord) (d : CompletionDecision)
    (finished_at : string) (record_reply : bool) : DM unit :=
  do* on_bureau (record_attempt_terminal (dc_bureau cfg) terminal finished_at) in
  if negb record_reply then mret' tt
  else
    let* parent_edge := on_bureau (delegated_parent_edge terminal) in
    do* (match parent_edge with
         | Some e => do* on_bureau (terminalize_cancelled_parent_edge e terminal finished_at) in mret' tt
         | None => mret' tt
         end) in
    record_terminal_result terminal d finished_at true.

(** ** [service.py] *)

Definition notify_body (job : JobRecord) : string :=
  join_lines
    [text ["CCB job "; jr_job_id job; " for agent `"; jr_agent_name job; "` has finished with status: ";
           JobStatus_value (jr_status job); "."];
     text ["Use `ccb trace "; jr_job_id job; "` to view the full result."]].

Definition maybe_notify_sender (job : JobRecord) : DM unit :=
  if negb (py_truthy (dget (me_route_options (jr_request job)) "notify_sender")) then mret' tt
  else
    let sender := strip (me_from_actor (jr_request job)) in
    if negb (truthy sender) then mret' tt
    else
      do* on_bureau (record_notice (dc_bureau cfg) job (notify_body job)
            (Some [("notice", VBool true); ("notify_sender", VBool true); ("job_id", VStr (jr_job_id job));
                   ("agent_name", VStr (jr_agent_name job)); ("status", VStr (JobStatus_value (jr_status job)))])
            (jr_updated_at job) (if bool_decide (jr_status job = JS_COMPLETED) then RT_COMPLETED else RT_FAILED)
            (Some sender)) in
      mret' tt.

(** [finish_terminal_runtime]: the execution service forgets the job, the runtime is idle. *)
Definition finish_terminal_runtime (c : JobRecord) : DM unit := sync_runtime cfg (jr_agent_name c) (Some AS_IDLE).

(** [complete_job].  A delivery found running without a process is completed from here again
    ([repair_running]); [depth] bounds how deep, as the interpreter's stack does. *)
Fixpoint complete (depth : nat) (job_id : string) (d : CompletionDecision) : DM JobRecord :=
  match depth with
  | O => mraise RecursionError "maximum recursion depth exceeded"
  | S depth =>
      if negb (cd_terminal d) then dispatch_error ["complete requires a terminal completion decision"]
      else
        let* current := get_job cfg job_id in
        match current with
        | None => dispatch_error ["unknown job: "; job_id]
        | Some c =>
            if job_terminal (jr_status c) then mret' c
            else
              let* finished_at := (if opt_truthy (cd_finished_at d) then mret' (str_or (cd_finished_at d) "")
                                   else clock cfg) in
              let* ended := persist_terminal_completion cfg c d finished_at in
              let '(terminal, d, prior) := ended in
              let* recorded := record_message_bureau_completion c terminal d prior finished_at in
              let '(terminal, retry_scheduled) := recorded in
              do* finish_terminal_runtime c in
              do* resolve_reply_delivery_terminal cfg terminal finished_at in
              if retry_scheduled : bool then mret' terminal
              else
                do* maybe_notify_sender terminal in
                do* (if ou_auto_reply_delivery ou
                     then do* prepare_reply_deliveries cfg ou (complete depth) in mret' tt
                     else mret' tt) in
                mret' terminal
        end
  end.

(** ** [cancellation.py] *)

(** [_capture_cancel_evidence] *)
Definition capture_cancel_evidence (job_id : string) : DM (option CompletionDecision) :=
  let* now := moment in
  mret' (match (if ex_present then ex_evidence now job_id else None) with
         | Some e => if negb (cd_terminal e) || blank (cd_reply e) then None else Some e
         | None => None
         end).

(** [cancel_with_decision] *)
Definition cancel_with_decision (c : JobRecord) (cancelled_at reply : string) (snapshot : option CompletionSnapshot)
    (record_reply : bool) (evidence : option CompletionDecision) : DM CancelReceipt :=
  let* d := mlift (cancel_decision cancelled_at reply snapshot evidence) in
  let* ended := cancel_terminal cfg c cancelled_at d snapshot in
  match ended with
  | inl receipt => mret' receipt
  | inr (terminal, d) =>
      do* record_message_bureau_cancellation terminal d cancelled_at record_reply in
      do* sync_runtime cfg (jr_agent_name terminal) (Some AS_IDLE) in
      do* resolve_reply_delivery_terminal cfg terminal cancelled_at in
      mlift (cancel_receipt terminal)
  end.

(** [cancel_job]; the flag file it leaves for the provider is not modelled. *)
Definition cancel_job (job_id : string) (record_reply : bool) : DM CancelReceipt :=
  let* asked := request_cancel cfg job_id in
  match asked with
  | inl receipt => mret' receipt
  | inr marked =>
      let* evidence := (if record_reply then capture_cancel_evidence job_id else mret' None) in
      let* snapshot := snapshot_load job_id in
      let reply := match evidence with
                   | Some e => cd_reply e
                   | None => match snapshot with Some p => cd_reply (cp_latest_decision p) | None => "" end
                   end in
      cancel_with_decision marked (jr_updated_at marked) reply snapshot record_reply evidence
  end.

(** ** [shutdown.py] *)

(** [_terminate_job_for_shutdown] *)
Definition terminate_job (depth : nat) (c : JobRecord) (shutdown_reason : string) (forced : bool) : DM JobRecord :=
  let* finished_at := clock cfg in
  let* snapshot := snapshot_load (jr_job_id c) in
  let* d := mlift (shutdown_decision snapshot shutdown_reason forced finished_at) in
  let* terminal := complete depth (jr_job_id c) d in
  do* on_queues (remove_queued_for (slot_of c) (jr_job_id c)) in
  mret' terminal.

Fixpoint terminate_jobs (depth : nat) (job_ids : list string) (shutdown_reason : string) (forced : bool)
    : DM (list JobRecord) :=
  match job_ids with
  | [] => mret' []
  | id :: rest =>
      let* current := get_job cfg id in
      let* ended := (match current with
                     | None => mret' None
                     | Some c => if job_terminal (jr_status c) then mret' None
                                 else caught (terminate_job depth c shutdown_reason forced)
                     end) in
      let* l := terminate_jobs depth rest shutdown_reason forced in
      mret' (option_list ended ++ l)
  end.

Definition terminate_nonterminal_jobs (depth : nat) (shutdown_reason : string) (forced : bool)
    : DM (list JobRecord) :=
  let* job_ids := latest_nonterminal_job_ids cfg in
  terminate_jobs depth job_ids shutdown_reason forced.
End finalize.
