(* ===== verification/Starting.v ===== *)
(** The start of a job, [lib/ccbd/services/dispatcher_runtime/lifecycle_start_runtime/]: the
    gate before the claim ([queue.py]), the claim of the head of a mailbox, the provider's
    start and what becomes of its failure ([start.py]), and the tick of the dispatcher
    ([tick.py], [recovery_runtime/slots.py], [dispatcher.py]). *)

From Stdlib Require Import Ascii String ZArith Lia.
From stdpp Require Import base gmap list strings pretty.
From S2P Require Import Prelude PyData Names Text Storage MailboxModels MailboxKernel CompletionModels Jobs Api JobStore BureauModels BureauState Bureau Completion Artifacts DispatchState DispatchPolicy Dispatch Drain Routing Chains Continuations Submission Deliveries Finalize.

Local Open Scope Z_scope.

(** [lib/provider_core/registry_runtime/test_double_backends.py] *)
Definition TEST_DOUBLE_PROVIDER_NAMES : list string :=
  ["fake"; "fake-codex"; "fake-claude"; "fake-gemini"; "fake-legacy"].

Section starting.
Context (cfg : dconfig) (ou : outside) `{Execution} (depth : nat).

(** [dispatcher.complete] *)
Abbreviation finish_job := (complete cfg ou depth).

(** ** [start.py] *)

(** The context is there: a slot that is started has a runtime. *)
Definition should_start_execution (c : JobRecord) : DM bool :=
  let* now := moment in
  mret' (if negb ex_require_binding then true
         else if mem_str (lower (strip (jr_provider c))) TEST_DOUBLE_PROVIDER_NAMES then true
         else
           let '(runtime_ref, backend_type) := ex_binding now (jr_agent_name c) in
           if mem_str (lower (stripped backend_type)) ["headless"; "pty-backed"] then true
           else str_contains ":" (stripped runtime_ref)).

(** A value that is [None] or an empty text is left out. *)
Definition some_entry (key : string) (v : pyval) : pydict :=
  match v with VNone | VStr "" => [] | _ => [(key, v)] end.

(** The entries of a dictionary display whose value is true. *)
Definition true_entry (key : string) (v : pyval) : pydict := if py_truthy v then [(key, v)] else [].

Definition submission_delivery_payload (s : submission) : pydict :=
  let state := su_runtime_state s in
  let diagnostics := su_diagnostics s in
  let fallback_stage :=
    if match dget diagnostics "reason" with VStr r => String.eqb r "runtime_unavailable" | _ => false end
    then "provider_runtime_not_ready" else "provider_submission_created" in
  let first a b := py_or a b in
  some_entry "delivery_stage"
    (VStr (py_str (first (dget state "delivery_stage")
                     (first (dget diagnostics "delivery_stage") (VStr fallback_stage)))))
  ++ some_entry "provider" (VStr (su_provider s))
  ++ some_entry "delivery_state" (dget state "delivery_state")
  ++ some_entry "delivery_mechanism" (first (dget state "delivery_mechanism") (dget diagnostics "mechanism"))
  ++ some_entry "target_pane_id" (first (dget state "delivery_target_pane_id") (dget state "pane_id"))
  ++ some_entry "prompt_sent" (dget state "prompt_sent")
  ++ true_entry "delivery_reason" (first (dget diagnostics "reason") (dget state "delivery_reason"))
  ++ true_entry "delivery_error" (first (dget diagnostics "error") (dget state "delivery_error")).

Definition fail_provider_start (running : JobRecord) (e : exn) (failed_at : string) : DM JobRecord :=
  let diagnostics :=
    [("delivery_stage", VStr "provider_start_failed"); ("delivery_reason", VStr "provider_start_exception");
     ("error_type", VStr (exn_name e)); ("provider", VStr (jr_provider running));
     ("provider_start_error", VStr (exn_str e))] in
  do* append_event cfg running "provider_start_failed" diagnostics failed_at in
  let* d := mlift (new_decision
    (MkDecision true CS_FAILED (Some "provider_start_failed") (Some EXACT) "" false false false None None
       (Some failed_at) diagnostics)) in
  finish_job (jr_job_id running) d.

(** An event whose time is read at once. *)
Definition event_now (job : JobRecord) (event_type : string) (payload : pydict) : DM unit :=
  let* now := clock cfg in append_event cfg job event_type payload now.

(** After the start: a delivery that was not sent ends here. *)
Definition after_start (running : JobRecord) (started_at : string) (sub : option submission) : DM JobRecord :=
  if is_reply_delivery_job running && ex_present
  then complete_reply_delivery_after_start finish_job running started_at sub
  else mret' running.

Definition provider_field (running : JobRecord) (stage : string) : pydict :=
  [("delivery_stage", VStr stage); ("provider", VStr (jr_provider running))].

(** The provider's part of [start_running_job]. *)
Definition start_provider (running : JobRecord) (started_at : string) : DM JobRecord :=
  let* should_start := (if ex_present then should_start_execution running else mret' false) in
  if should_start : bool then
    do* event_now running "provider_start_attempt" (provider_field running "provider_start_attempt") in
    let* now := moment in
    match ex_start now running with
    | Err e => let* failed_at := clock cfg in fail_provider_start running e failed_at
    | Ok None =>
        do* event_now running "provider_submission_missing"
              (provider_field running "provider_submission_missing"
               ++ [("delivery_reason", VStr "execution_service_returned_none")]) in
        after_start running started_at None
    | Ok (Some s) =>
        do* event_now running "provider_submission_created" (submission_delivery_payload s) in
        after_start running started_at (Some s)
    end
  else
    do* event_now running "provider_start_skipped"
          (provider_field running "provider_start_skipped"
           ++ [("delivery_reason", VStr (if ex_present then "runtime_binding_not_actionable"
                                         else "execution_service_missing"))]) in
    after_start running started_at None.

Definition start_running_job (c : JobRecord) (started_at : option string) : DM JobRecord :=
  let* started_at := (if opt_truthy started_at then mret' (str_or started_at "") else clock cfg) in
  let* running := begin_running_job cfg c started_at in
  start_provider running started_at.

(** ** [queue.py] *)

Definition TERMINAL_PROVIDER_FAILURE_REPLY : string :=
  "CCB could not start this job: the Codex session reported that automatic reconnect could not restore it. Copy any text still visible in the pane, then relaunch or repair Codex and retry the job.".

Definition preclaim_outcome (job : JobRecord) : DM preclaim :=
  let* now := moment in mret' (if ex_present then ex_preclaim now job else PRECLAIM_ALLOWED).

Definition owns_mailbox_head (job : JobRecord) : DM bool :=
  let* claimable := caught (on_bureau (claimable_request_job_ids (jr_target_name job))) in
  mret' (match claimable with Some l => mem_str (jr_job_id job) l | None => false end).

Definition unstartable_decision (c : JobRecord) (reason finished_at : string) : result CompletionDecision :=
  new_decision
    (MkDecision true CS_FAILED (Some reason) (Some EXACT) TERMINAL_PROVIDER_FAILURE_REPLY false false false None
       None (Some finished_at)
       [("delivery_stage", VStr "preclaim_provider_unavailable"); ("delivery_reason", VStr reason);
        ("provider", VStr (jr_provider c)); ("pane_failure_reason", VStr reason); ("automatic_retry", VBool false)]).

(** The checks under the lock. *)
Definition unstartable (sl : slot) (job : JobRecord) : DM (option JobRecord) :=
  let* current := get_job cfg (jr_job_id job) in
  match current with
  | None => mret' None
  | Some c =>
      if negb (pending_status (jr_status c)) then mret' None
      else if opt_truthy (jr_cancel_requested_at c) then mret' None
      else
        let* queued := on_queues (queued_items_for sl) in
        if negb (mem_str (jr_job_id job) queued) then mret' None
        else
          let* active := on_queues (active_job_for sl) in
          if negb (is_none active) then mret' None
          else
            let* owns := owns_mailbox_head c in
            mret' (if owns : bool then Some c else None)
  end.

(** The end of such a job, however far it gets. *)
Definition complete_unstartable (c : JobRecord) (reason finished_at : string) : DM (option JobRecord) :=
  let* d := mlift (unstartable_decision c reason finished_at) in
  let* tried := attempted (finish_job (jr_job_id c) d) in
  match tried with
  | inl terminal => mret' (Some terminal)
  | inr e =>
      do* caught (append_event cfg c "preclaim_provider_failure_deferred"
            [("delivery_stage", VStr "preclaim_provider_unavailable"); ("delivery_reason", VStr reason);
             ("error_type", VStr (exn_name e)); ("error", VStr (exn_str e))] finished_at) in
      get_job cfg (jr_job_id c)
  end.

Definition fail_unstartable_job (sl : slot) (job : JobRecord) (reason : string) : DM (option JobRecord) :=
  let* finished_at := clock cfg in
  let* c := unstartable sl job in
  match c with
  | None => mret' None
  | Some c =>
      let* terminal := complete_unstartable c reason finished_at in
      match terminal with
      | None => mret' None
      | Some t =>
          if negb (job_terminal (jr_status t)) then mret' None
          else do* on_queues (remove_queued_for sl (jr_job_id job)) in mret' (Some t)
      end
  end.

Definition preclaim_gate (sl : slot) (job : JobRecord) (terminalizable : bool) : DM bool :=
  let* outcome := preclaim_outcome job in
  match outcome with
  | PRECLAIM_ALLOWED => still_claimable cfg sl job
  | PRECLAIM_BLOCKED => mret' false
  | PRECLAIM_TERMINAL reason =>
      if terminalizable then do* fail_unstartable_job sl job reason in mret' false else mret' false
  end.

(** The candidates of one kind: the first that is in the queue and known is tried. *)
Fixpoint claim_first (sl : slot) (queued candidates : list string) (try : JobRecord → DM (option (option JobRecord)))
    : DM (option JobRecord) :=
  match candidates with
  | [] => mret' None
  | candidate :: rest =>
      if negb (mem_str candidate queued) then claim_first sl queued rest try
      else
        let* current := get_job cfg candidate in
        match current with
        | None => do* on_queues (remove_queued_for sl candidate) in claim_first sl queued rest try
        | Some c =>
            let* tried := try c in
            match tried with
            | Some answer => mret' answer
            | None => claim_first sl queued rest try
            end
        end
  end.

(** The loop body of [_claim_reply_delivery]: [None] is [continue]. *)
Definition try_reply_delivery (sl : slot) (c : JobRecord) : DM (option (option JobRecord)) :=
  let* started_at := clock cfg in
  let* allowed := preclaim_gate sl c false in
  if negb allowed then mret' (Some None)
  else
    let* claimed := claim_reply_delivery_start cfg c started_at in
    if negb claimed then mret' None
    else
      do* on_queues (remove_queued_for sl (jr_job_id c)) in
      let* j := start_running_job c (Some started_at) in mret' (Some (Some j)).

Definition claim_reply_delivery (sl : slot) (queued : list string) : DM (option JobRecord) :=
  let* candidates := claimable_reply_delivery_job_ids cfg sl.2 in
  claim_first sl queued candidates (try_reply_delivery sl).

Definition try_request_job (sl : slot) (c : JobRecord) : DM (option (option JobRecord)) :=
  let* allowed := preclaim_gate sl c true in
  if negb allowed then mret' (Some None)
  else
    do* on_queues (remove_queued_for sl (jr_job_id c)) in
    let* j := start_running_job c None in mret' (Some (Some j)).

Definition claim_request_job (sl : slot) (queued : list string) : DM (option JobRecord) :=
  let* candidates := on_bureau (claimable_request_job_ids sl.2) in
  claim_first sl queued candidates (try_request_job sl).

(** [_start_agent_mailbox_job] *)
Definition start_agent_mailbox_job (agent_name : string) : DM (option JobRecord) :=
  let sl := agent_slot agent_name in
  let* queued := on_queues (queued_items_for sl) in
  let* head := on_bureau (on_kernel (head_pending_event agent_name)) in
  match head with
  | None => mret' None
  | Some h =>
      match ie_event_type h with
      | TASK_REPLY => claim_reply_delivery sl queued
      | TASK_REQUEST => claim_request_job sl queued
      | _ => mret' None
      end
  end.

(** ** [tick.py], [slots.py] *)

(** Has the agent something to start, and a runtime to start it in?  The recovery of a runtime
    that is gone or degraded is not modelled: [ex_ready] tells what it leaves. *)
Definition runnable_agent (agent_name : string) : DM bool :=
  let* active := on_queues (active_job_for (agent_slot agent_name)) in
  if negb (is_none active) then mret' false
  else
    let* queue_depth := on_queues (queue_depth_for (agent_slot agent_name)) in
    if queue_depth =? 0 then mret' false
    else
      let* runtime := registry_get agent_name in
      let* now := moment in
      mret' (match option_map rt_state runtime with
             | Some AS_IDLE | Some AS_STARTING => true
             | Some AS_BUSY | Some AS_STOPPING => false
             | _ => ex_ready now agent_name
             end).

Fixpoint tick_agents (agent_names : list string) : DM (list JobRecord) :=
  match agent_names with
  | [] => mret' []
  | a :: rest =>
      let* runnable := runnable_agent a in
      let* started := (if runnable : bool then start_agent_mailbox_job a else mret' None) in
      let* l := tick_agents rest in
      mret' (option_list started ++ l)
  end.

Definition tick_jobs : DM (list JobRecord) := tick_agents (dc_agents cfg).

(** [JobDispatcher.tick]; [sweep] has the ages of the files where the sweep of old artifacts
    is due. *)
Definition tick (sweep : option (string → option Z)) : DM (list JobRecord) :=
  do* (match sweep with
       | Some age => do* on_artifacts (sweep_expired_text_artifacts age) in mret' tt
       | None => mret' tt
       end) in
  do* repair_callback_edges cfg ou in
  do* prepare_reply_deliveries cfg ou finish_job in
  tick_jobs.
End starting.
