(* ===== verification/Polling.v ===== *)
(** What the execution service reports, [lib/ccbd/services/dispatcher_runtime/polling_service.py]:
    the items of a provider's turn go to the tracker, its end ends the job; and the jobs that
    were running when the daemon stopped, [restore_runtime/]. *)

From Stdlib Require Import Ascii String ZArith Lia.
From stdpp Require Import base gmap list strings pretty.
From S2P Require Import Prelude PyData Names Text Storage MailboxModels MailboxKernel CompletionModels Detectors Jobs Api JobStore BureauModels BureauState Bureau Completion Artifacts DispatchState DispatchPolicy Dispatch Drain Routing Chains Continuations Submission Deliveries Finalize Starting.

Local Open Scope Z_scope.

(** ** Items *)

Definition CompletionItemKind_value (k : CompletionItemKind) : string :=
  match k with
  | ANCHOR_SEEN => "anchor_seen" | ASSISTANT_CHUNK => "assistant_chunk" | ASSISTANT_FINAL => "assistant_final"
  | TOOL_CALL => "tool_call" | TOOL_RESULT => "tool_result" | RESULT => "result"
  | TURN_BOUNDARY => "turn_boundary" | TURN_ABORTED => "turn_aborted" | CANCEL_INFO => "cancel_info"
  | ERROR => "error" | PANE_DEAD => "pane_dead" | SESSION_SNAPSHOT => "session_snapshot"
  | SESSION_MUTATION => "session_mutation" | SESSION_ROTATE => "session_rotate"
  end.

Definition item_to_record (i : CompletionItem) : pydict :=
  [("schema_version", VInt COMPLETION_SCHEMA); ("record_type", VStr "completion_item");
   ("kind", VStr (CompletionItemKind_value (ci_kind i))); ("timestamp", VStr (ci_timestamp i));
   ("cursor", VDict (cursor_to_record (ci_cursor i))); ("provider", VStr (ci_provider i));
   ("agent_name", VStr (ci_agent_name i)); ("req_id", VStr (ci_req_id i)); ("payload", VDict (ci_payload i))].

(** [ExecutionUpdate] *)
Record ExecutionUpdate := MkUpdate {
  eu_job_id : string;
  eu_items : list CompletionItem;
  eu_decision : option CompletionDecision;
  eu_submission : option submission;
}.

Definition waiting_for_draft (state : pydict) : bool :=
  py_truthy (dget state "draft_guard_enabled") &&
  match dget state "prompt_sent" with VBool b => negb b | _ => false end.

(** ** [CcbdRestoreEntry], [lib/ccbd/models_runtime/restore.py] *)

Record CcbdRestoreEntry := MkRestoreEntry {
  cr_entry_job_id : string;
  cr_entry_agent_name : string;
  cr_entry_provider : string;
  cr_entry_status : string;
  cr_entry_reason : string;
  cr_entry_resume_capable : bool;
  cr_entry_pending_items_count : Z;
}.

Definition new_restore_entry (e : CcbdRestoreEntry) : result CcbdRestoreEntry :=
  do! raise_if (blank (cr_entry_job_id e)) CcbdModelError "job_id cannot be empty" in
  do! raise_if (blank (cr_entry_agent_name e)) CcbdModelError "agent_name cannot be empty" in
  do! raise_if (blank (cr_entry_provider e)) CcbdModelError "provider cannot be empty" in
  do! raise_if (blank (cr_entry_status e)) CcbdModelError "status cannot be empty" in
  do! raise_if (blank (cr_entry_reason e)) CcbdModelError "reason cannot be empty" in
  do! raise_if (cr_entry_pending_items_count e <? 0) CcbdModelError "pending_items_count cannot be negative" in
  Ok e.

Section polling.
Context (cfg : dconfig) (ou : outside) `{Execution} (depth : nat).

(** [dispatcher.complete] *)
Abbreviation finish_job := (complete cfg ou depth).

(** Run a step of the tracker where there is one. *)
Definition with_tracker {A} (default : A) (m : TM A) : DM A :=
  if dc_tracking cfg then on_trackers m else mret' default.

(** [tracker.current(job_id) is None], then [tracker.start]. *)
Definition ensure_completion_tracker (job : JobRecord) (started_at : string) : DM unit :=
  let* tracked := with_tracker None (current (jr_job_id job)) in
  if dc_tracking cfg && is_none tracked
  then do* on_trackers (tracker_start (dc_tracker cfg) job started_at) in mret' tt
  else mret' tt.

(** ** [poll_completion_updates] *)

(** The loop over the items: the view and the time of the last. *)
Fixpoint ingest_items (c : JobRecord) (job_id : string) (items : list CompletionItem)
    (last : option CompletionTrackerView * option string) : DM (option CompletionTrackerView * option string) :=
  match items with
  | [] => mret' last
  | i :: rest =>
      do* append_event cfg c "completion_item" (item_to_record i) (ci_timestamp i) in
      let* tracked := with_tracker last.1 (let* v := tracker_ingest job_id i in mret' (Some v)) in
      ingest_items c job_id rest (tracked, Some (ci_timestamp i))
  end.

Definition ingest_update_items (c : JobRecord) (u : ExecutionUpdate) : DM (option CompletionTrackerView) :=
  let state := runtime_state (eu_submission u) in
  if waiting_for_draft state then
    do* with_tracker tt (tracker_finish (eu_job_id u)) in mret' None
  else
    let* tracked := with_tracker None (current (eu_job_id u)) in
    do* (if dc_tracking cfg && is_none tracked
         then do* on_trackers (tracker_start (dc_tracker cfg) c
                    (py_str (py_or (dget state "prompt_sent_at") (VStr (jr_updated_at c))))) in mret' tt
         else mret' tt) in
    let* last := ingest_items c (eu_job_id u) (eu_items u) (None, None) in
    match last.1 with
    | Some v => do* apply_tracker_view cfg c v last.2 in mret' (Some v)
    | None => with_tracker None (current (eu_job_id u))
    end.

Definition resolve_update_decision (u : ExecutionUpdate) (tracked : option CompletionTrackerView) (job : JobRecord)
    : result (option CompletionDecision) :=
  let decision :=
    match eu_decision u with
    | Some d => Some d
    | None =>
        match tracked with
        | Some v => if cd_terminal (tv_decision v) then Some (tv_decision v) else None
        | None => None
        end
    end in
  validate_provider_completion_decision (eu_submission u) decision (Some job).

(** One update: the job it has ended. *)
Definition apply_update (u : ExecutionUpdate) : DM (option JobRecord) :=
  let* current := get_job cfg (eu_job_id u) in
  match current with
  | None => mret' None
  | Some c =>
      if job_terminal (jr_status c) then mret' None
      else
        let* tracked := ingest_update_items c u in
        let* decision := mlift (resolve_update_decision u tracked c) in
        match decision with
        | Some d => let* j := finish_job (eu_job_id u) d in mret' (Some j)
        | None => mret' None
        end
  end.

(** The jobs ended, with the identifiers of their updates. *)
Fixpoint apply_updates (updates : list ExecutionUpdate) : DM (list (string * JobRecord)) :=
  match updates with
  | [] => mret' []
  | u :: rest =>
      let* ended := apply_update u in
      let* l := apply_updates rest in
      mret' (match ended with Some j => (eu_job_id u, j) :: l | None => l end)
  end.

Fixpoint finish_waiting (active : list (string * submission)) : DM unit :=
  match active with
  | [] => mret' tt
  | (job_id, s) :: rest =>
      do* (if waiting_for_draft (su_runtime_state s) then on_trackers (tracker_finish job_id) else mret' tt) in
      finish_waiting rest
  end.

Definition active_submission (job_id : string) : DM (option submission) :=
  let* now := moment in
  mret' (option_map snd (List.find (λ kv, String.eqb kv.1 job_id) (ex_active now))).

Definition apply_tracked (v : CompletionTrackerView) (completed_ids : list string) : DM (option JobRecord) :=
  let job_id := tv_job_id v in
  let* current := get_job cfg job_id in
  match current with
  | None => mret' None
  | Some c =>
      if job_terminal (jr_status c) || mem_str job_id completed_ids then mret' None
      else
        do* apply_tracker_view cfg c v None in
        if negb (cd_terminal (tv_decision v)) then mret' None
        else
          let* sub := active_submission job_id in
          let* decision := mlift (validate_provider_completion_decision sub (Some (tv_decision v)) (Some c)) in
          match decision with
          | Some d => let* j := finish_job job_id d in mret' (Some j)
          | None => mraise AttributeError "'NoneType' object has no attribute 'terminal'"
          end
  end.

Fixpoint apply_all_tracked (views : list CompletionTrackerView) (completed_ids : list string)
    : DM (list JobRecord) :=
  match views with
  | [] => mret' []
  | v :: rest =>
      let* ended := apply_tracked v completed_ids in
      let* l := apply_all_tracked rest
                  (match ended with Some _ => completed_ids ++ [tv_job_id v] | None => completed_ids end) in
      mret' (option_list ended ++ l)
  end.

Definition tick_tracker (completed_ids : list string) : DM (list JobRecord) :=
  if negb (dc_tracking cfg) then mret' []
  else
    let* now := moment in
    do* finish_waiting (ex_active now) in
    let* time := clock cfg in
    let* views := on_trackers (tick_all time) in
    apply_all_tracked views completed_ids.

(** [updates] is what the execution service's [poll] returns. *)
Definition poll_completion_updates (updates : list ExecutionUpdate) : DM (list JobRecord) :=
  if negb ex_present then mret' []
  else
    let* completed := apply_updates updates in
    let* more := tick_tracker (map fst completed) in
    mret' (map snd completed ++ more).

(** ** [restore_runtime/execution.py] *)

Definition restore_entry (c : JobRecord) (r : restore_result) : result CcbdRestoreEntry :=
  new_restore_entry
    (MkRestoreEntry (jr_job_id c) (jr_agent_name c) (jr_provider c) (rs_status r) (rs_reason r)
       (rs_resume_capable r) (rs_pending_items_count r)).

Definition was_restored (r : restore_result) : bool :=
  mem_str (rs_status r) ["restored"; "terminal_pending"; "replay_pending"].

Definition restore_failure_decision_shape (r : restore_result) : CompletionStatus * string * pydict :=
  if String.eqb (strip (rs_reason r)) "provider_runtime_restarted_without_pending_replay" then
    (CS_FAILED, "runtime_unavailable",
     [("delivery_retryable", VBool true); ("error_type", VStr "runtime_unavailable");
      ("no_reply_reason", VStr "provider_runtime_restarted_without_pending_replay")])
  else (CS_INCOMPLETE, "ccbd_restart_requires_resubmit", []).

Definition failed_restore_decision (c : JobRecord) (r : restore_result) : DM JobRecord :=
  let* failed_at := clock cfg in
  let '(status, reason, extra) := restore_failure_decision_shape r in
  let diagnostics :=
    [("restore_status", VStr (rs_status r)); ("restore_reason", VStr (rs_reason r));
     ("resume_capable", VBool (rs_resume_capable r))] ++ extra in
  do* append_event cfg c "execution_restore_failed" diagnostics failed_at in
  let* d := mlift (new_decision
    (MkDecision true status (Some reason) (Some DEGRADED) "" false false false None None (Some failed_at)
       diagnostics)) in
  finish_job (jr_job_id c) d.

Definition mark_restored (c : JobRecord) : DM JobRecord :=
  do* ensure_completion_tracker c (jr_updated_at c) in
  do* sync_runtime cfg (jr_agent_name c) (Some AS_BUSY) in
  mret' c.

Definition restore_delivery (c : JobRecord) : DM (JobRecord * CcbdRestoreEntry) :=
  let* now := clock cfg in
  let* d := mlift (reply_delivery_failed_decision c now "reply_delivery_restart_requeued"
    [("restore_status", VStr "abandoned"); ("restore_reason", VStr "reply_delivery_does_not_resume")]) in
  let* repaired := finish_job (jr_job_id c) d in
  let* entry := mlift (new_restore_entry
    (MkRestoreEntry (jr_job_id c) (jr_agent_name c) (jr_provider c) "abandoned" "reply_delivery_does_not_resume"
       false 0)) in
  mret' (repaired, entry).

Definition restore_current_job (job_id : string) : DM (option (JobRecord * CcbdRestoreEntry)) :=
  let* current := get_job cfg job_id in
  match current with
  | None => mret' None
  | Some c =>
      if negb (running_status (jr_status c)) then mret' None
      else if is_reply_delivery_job c then let* x := restore_delivery c in mret' (Some x)
      else
        do* registry_get (jr_agent_name c) in
        let* now := moment in
        let* r := mlift (ex_restore now c) in
        let* entry := mlift (restore_entry c r) in
        let failed := let* j := failed_restore_decision c r in mret' (Some (j, entry)) in
        let restored := if was_restored r then let* j := mark_restored c in mret' (Some (j, entry)) else failed in
        if String.eqb (rs_status r) "terminal_pending" then
          match rs_decision r with
          | Some d =>
              do* ensure_completion_tracker c (jr_updated_at c) in
              let* j := finish_job (jr_job_id c) d in mret' (Some (j, entry))
          | None => restored
          end
        else restored
  end.

Fixpoint restore_jobs (job_ids : list string) : DM (list (JobRecord * CcbdRestoreEntry)) :=
  match job_ids with
  | [] => mret' []
  | id :: rest =>
      let* x := restore_current_job id in
      let* l := restore_jobs rest in
      mret' (option_list x ++ l)
  end.

(** [restore_running_jobs]: [job_ids] are the active jobs, in the order of their dictionary,
    which the state does not keep.  The jobs, the entries of the report and its time. *)
Definition restore_running_jobs (job_ids : list string)
    : DM (list JobRecord * list CcbdRestoreEntry * option string) :=
  if negb ex_present then mret' ([], [], None)
  else
    let* generated_at := clock cfg in
    let* l := restore_jobs job_ids in
    mret' (map fst l, map snd l, Some generated_at).
End polling.
