(* ===== verification/DispatchView.v ===== *)
(** What the dispatcher's operations do to the jobs: the log of each agent, the queues, the
    active jobs and the index.  Everything else they touch (the bureau, the tracker,
    snapshots, events, runtimes, clocks) leaves these alone ([quiet]).  Two in-memory
    states are the same here when they answer the same: an empty queue that was never
    asked for counts as one that was. *)

From Stdlib Require Import Ascii String ZArith Lia.
From stdpp Require Import base gmap list strings functions.
From S2P Require Import Prelude PyData Names Storage MailboxModels MailboxKernel CompletionModels Jobs Api JobStore BureauModels BureauState Bureau Completion Artifacts DispatchState DispatchPolicy Dispatch.

Local Open Scope Z_scope.

Record jview := JView {
  jv_log : string → list JobRecord;
  jv_items : slot → list string;
  jv_active : slot → option string;
  jv_index : string → option slot;
}.

Definition jview_of (s : dispatcher) : jview :=
  JView (jobs_of (di_jobs s)) (items (di_queues s)) (λ sl, q_active (di_queues s) !! sl)
    (λ id, q_index (di_queues s) !! id).

(** Pointwise equality. *)
Record jview_eq (v w : jview) : Prop := {
  jv_same_log : ∀ a, jv_log v a = jv_log w a;
  jv_same_items : ∀ sl, jv_items v sl = jv_items w sl;
  jv_same_active : ∀ sl, jv_active v sl = jv_active w sl;
  jv_same_index : ∀ id, jv_index v id = jv_index w id;
}.

#[export] Instance jview_equiv : Equiv jview := jview_eq.

#[export] Instance jview_equivalence : Equivalence (≡@{jview}).
Proof.
  split.
  - by intros v.
  - intros v w [H1 H2 H3 H4]. split; intros; symmetry; auto.
  - intros u v w [H1 H2 H3 H4] [K1 K2 K3 K4]. split; intros; etrans; eauto.
Qed.

Definition views (s : dispatcher) (v : jview) : Prop := jview_of s ≡ v.

#[export] Instance views_proper s : Proper ((≡) ==> iff) (views s).
Proof. intros v w E. unfold views. by rewrite E. Qed.

(** ** Quiet computations *)

Definition quiet {A} (m : DM A) : Prop := ∀ s, jview_of (m s).1 ≡ jview_of s.

Lemma dq_wp_quiet {A} (m : DM A) s v (Q : A → dispatcher → Prop) (E : exn → dispatcher → Prop) :
  quiet m → views s v → (∀ a s', views s' v → Q a s') → (∀ e s', views s' v → E e s') → wp m Q E s.
Proof.
  intros Hq Hv HQ HE. specialize (Hq s). unfold wp.
  destruct (m s) as [s' [a|e]]; cbn in Hq; [apply HQ|apply HE]; unfold views; by rewrite Hq.
Qed.

Lemma quiet_ret {A} (a : A) : quiet (mret' a).
Proof. done. Qed.
Lemma quiet_lift {A} (r : result A) : quiet (mlift r).
Proof. done. Qed.
Lemma quiet_raise {A} k msg : quiet (mraise k msg : DM A).
Proof. done. Qed.
Lemma quiet_get {A} (f : dispatcher → A) : quiet (mget f).
Proof. done. Qed.
Lemma quiet_bind {A B} (m : DM A) (f : A → DM B) : quiet m → (∀ a, quiet (f a)) → quiet (mbind' m f).
Proof.
  intros Hm Hf s. specialize (Hm s). unfold mbind'. destruct (m s) as [s' [a|e]]; cbn in Hm |- *; [|done].
  by rewrite (Hf a s').
Qed.

Lemma quiet_bureau {A} (m : BM A) : quiet (on_bureau m).
Proof. intros s. unfold on_bureau. by destruct (m (di_bureau s)). Qed.
Lemma quiet_trackers {A} (m : TM A) : quiet (on_trackers m).
Proof. intros s. unfold on_trackers. by destruct (m (di_trackers s)). Qed.
Lemma quiet_artifacts {A} (m : AM A) : quiet (on_artifacts m).
Proof. intros s. unfold on_artifacts. by destruct (m (di_artifacts s)). Qed.
Lemma quiet_snapshot p : quiet (set_snapshot p).
Proof. done. Qed.
Lemma quiet_runtime a r : quiet (set_runtime a r).
Proof. done. Qed.
Lemma quiet_dirty : quiet mark_project_view_dirty.
Proof. done. Qed.
Lemma quiet_fresh cfg pre : quiet (fresh_id cfg pre).
Proof. done. Qed.
Lemma quiet_clock cfg : quiet (clock cfg).
Proof. done. Qed.

Lemma quiet_jobs {A} (m : JM A) : (∀ j, js_jobs (m j).1 = js_jobs j) → quiet (on_jobs m).
Proof.
  intros H s. specialize (H (di_jobs s)). unfold on_jobs. destruct (m (di_jobs s)) as [j r]. cbn in *.
  split; cbn; try done. intros a. unfold jobs_of. by rewrite H.
Qed.

Lemma items_ensure sl q sl' : items (ensure_queue sl q) sl' = items q sl'.
Proof.
  unfold ensure_queue, items. destruct (q_queues q !! sl) eqn:E; [done|]. cbn.
  destruct (decide (sl = sl')) as [<-|Hn]; [by rewrite lookup_insert, decide_True, E|].
  by rewrite lookup_insert_ne.
Qed.
Lemma active_ensure sl q : q_active (ensure_queue sl q) = q_active q.
Proof. unfold ensure_queue. by destruct (q_queues q !! sl). Qed.
Lemma index_ensure sl q : q_index (ensure_queue sl q) = q_index q.
Proof. unfold ensure_queue. by destruct (q_queues q !! sl). Qed.

(** A read of the queues makes the queue it reads at most. *)
Lemma quiet_read {A} (m : QM A) :
  (∀ q, (∃ sl, (m q).1 = ensure_queue sl q) ∨ (m q).1 = q) → quiet (on_queues m).
Proof.
  intros H s. specialize (H (di_queues s)). unfold on_queues. destruct (m (di_queues s)) as [q r]. cbn in *.
  destruct H as [[sl ->]| ->]; [|done]. split; cbn; intros; [done| | |].
  - apply items_ensure.
  - by rewrite active_ensure.
  - by rewrite index_ensure.
Qed.

Lemma quiet_active sl : quiet (on_queues (active_job_for sl)).
Proof. apply quiet_read. by right. Qed.
Lemma quiet_target id : quiet (on_queues (target_for_job id)).
Proof. apply quiet_read. by right. Qed.
Lemma quiet_depth sl : quiet (on_queues (queue_depth_for sl)).
Proof. apply quiet_read. intros q. left. by exists sl. Qed.
Lemma quiet_outstanding sl : quiet (on_queues (has_outstanding_for sl)).
Proof. apply quiet_read. intros q. left. by exists sl. Qed.
Lemma quiet_queued sl : quiet (on_queues (queued_items_for sl)).
Proof. apply quiet_read. intros q. left. by exists sl. Qed.

Lemma quiet_event_append e : quiet (on_jobs (job_event_append e)).
Proof. apply quiet_jobs. intros j. unfold job_event_append, mbind', mlift. by destruct (normalize_agent_name _). Qed.
Lemma quiet_latest_target a id : quiet (on_jobs (get_latest_target a id)).
Proof. apply quiet_jobs. intros j. unfold get_latest_target, mbind', mlift. by destruct (normalize_agent_name _). Qed.

Create HintDb quiet.
#[export] Hint Resolve quiet_ret quiet_lift quiet_raise quiet_get quiet_bureau quiet_trackers quiet_artifacts
  quiet_snapshot quiet_runtime quiet_dirty quiet_fresh quiet_clock quiet_active quiet_target quiet_depth
  quiet_outstanding quiet_queued quiet_event_append quiet_latest_target : quiet.

Ltac quiet_step :=
  first
    [ solve [eauto with quiet]
    | apply quiet_bind; [|intros ?]
    | match goal with
      | |- quiet (match ?x with _ => _ end) => destruct x
      | |- quiet (if ?x then _ else _) => destruct x
      end ].
Ltac quiet_solve := repeat (cbv zeta; quiet_step).

Section quiet_operations.
Context (cfg : dconfig).

Lemma quiet_append_event r ty p t : quiet (append_event cfg r ty p t).
Proof. unfold append_event. quiet_solve. Qed.
Hint Resolve quiet_append_event : quiet.

Lemma quiet_sync a st : quiet (sync_runtime cfg a st).
Proof. unfold sync_runtime, registry_get, registry_upsert. quiet_solve. Qed.

Lemma quiet_family a : quiet (profile_family cfg a).
Proof. unfold profile_family. quiet_solve. Qed.
Hint Resolve quiet_family : quiet.

Lemma quiet_write_completion id a f st d t : quiet (write_completion cfg id a f st d t).
Proof. unfold write_completion. quiet_solve. Qed.
Hint Resolve quiet_write_completion : quiet.

Lemma quiet_running_snapshot r t : quiet (write_running_snapshot cfg r t).
Proof. unfold write_running_snapshot, write_pending. quiet_solve. Qed.

Lemma quiet_tracker_view r t u : quiet (apply_tracker_view cfg r t u).
Proof. unfold apply_tracker_view, snapshot_load, resolve_tracker_timestamp. quiet_solve. Qed.

Lemma quiet_merged id d p : quiet (merged_decision cfg id d p).
Proof. unfold merged_decision. quiet_solve. Qed.

Lemma quiet_spill r d t : quiet (spill_terminal_reply_if_needed cfg r d t).
Proof. unfold spill_terminal_reply_if_needed. quiet_solve. Qed.
End quiet_operations.

#[export] Hint Resolve quiet_append_event quiet_sync quiet_family quiet_write_completion quiet_running_snapshot
  quiet_tracker_view quiet_merged quiet_spill : quiet.

(** ** Updates *)

(** A row goes to the log of its target, and the index learns where its job belongs. *)
Definition push_row (r : JobRecord) (v : jview) : jview :=
  JView (<[jr_target_name r := jv_log v (jr_target_name r) ++ [r]]> (jv_log v)) (jv_items v) (jv_active v)
    (<[jr_job_id r := Some (slot_of r)]> (jv_index v)).

Definition put_items (sl : slot) (l : list string) (v : jview) : jview :=
  JView (jv_log v) (<[sl := l]> (jv_items v)) (jv_active v) (jv_index v).

Definition put_active (sl : slot) (o : option string) (v : jview) : jview :=
  JView (jv_log v) (jv_items v) (<[sl := o]> (jv_active v)) (jv_index v).

Definition take_item (sl : slot) (id : string) (v : jview) : jview :=
  put_items sl (queue_remove id (jv_items v sl)).2 v.

Definition clear_if (sl : slot) (id : string) (v : jview) : jview :=
  put_active sl (if bool_decide (jv_active v sl = Some id) then None else jv_active v sl) v.

Lemma fn_insert_eq {A T} `{EqDecision A} (f g : A → T) a x y b :
  x = y → (∀ c, f c = g c) → (<[a := x]> f) b = (<[a := y]> g) b.
Proof. intros -> H. unfold insert, fn_insert. by destruct (decide (a = b)). Qed.

#[export] Instance push_row_proper r : Proper ((≡) ==> (≡)) (push_row r).
Proof. intros v w [H1 H2 H3 H4]. split; intros; cbn; auto; apply fn_insert_eq; auto. by rewrite H1. Qed.
#[export] Instance put_items_proper sl l : Proper ((≡) ==> (≡)) (put_items sl l).
Proof. intros v w [H1 H2 H3 H4]. split; intros; cbn; auto; by apply fn_insert_eq. Qed.
#[export] Instance put_active_proper sl o : Proper ((≡) ==> (≡)) (put_active sl o).
Proof. intros v w [H1 H2 H3 H4]. split; intros; cbn; auto; by apply fn_insert_eq. Qed.
#[export] Instance take_item_proper sl id : Proper ((≡) ==> (≡)) (take_item sl id).
Proof. intros v w E. unfold take_item. rewrite (jv_same_items _ _ E sl). by rewrite E. Qed.
#[export] Instance clear_if_proper sl id : Proper ((≡) ==> (≡)) (clear_if sl id).
Proof. intros v w E. unfold clear_if. rewrite (jv_same_active _ _ E sl). by rewrite E. Qed.

Definition add_item (sl : slot) (id : string) (v : jview) : jview :=
  put_items sl (jv_items v sl ++ [id]) v.

Definition learn (id : string) (sl : slot) (v : jview) : jview :=
  JView (jv_log v) (jv_items v) (jv_active v) (<[id := Some sl]> (jv_index v)).

#[export] Instance add_item_proper sl id : Proper ((≡) ==> (≡)) (add_item sl id).
Proof. intros v w E. unfold add_item. rewrite (jv_same_items _ _ E sl). by rewrite E. Qed.
#[export] Instance learn_proper id sl : Proper ((≡) ==> (≡)) (learn id sl).
Proof. intros v w [H1 H2 H3 H4]. split; intros; cbn; auto; by apply fn_insert_eq. Qed.

Definition queue_view (log : string → list JobRecord) (q : qstate) : jview :=
  JView log (items q) (λ sl, q_active q !! sl) (λ id, q_index q !! id).

Lemma items_set sl l q sl' : items (set_items sl l q) sl' = (<[sl := l]> (items q)) sl'.
Proof.
  unfold items, set_items, insert at 2, fn_insert. cbn. case_decide as E; [subst|].
  - by rewrite lookup_insert, decide_True.
  - by rewrite lookup_insert_ne.
Qed.

Lemma queue_view_ensure log sl q : queue_view log (ensure_queue sl q) ≡ queue_view log q.
Proof.
  split; cbn; intros; [done|apply items_ensure|by rewrite active_ensure|by rewrite index_ensure].
Qed.

Lemma queue_view_set log sl l q : queue_view log (set_items sl l q) ≡ put_items sl l (queue_view log q).
Proof. split; cbn; intros; [done| |done|done]. apply items_set. Qed.

Section rules.
Context (cfg : dconfig).
Implicit Types (s : dispatcher) (v : jview).

(** A change of the queues that acts as [F] on what is seen of them. *)
Lemma dq_step {A} (m : QM A) (F : jview → jview) `{!Proper ((≡) ==> (≡)) F} s v
    (Q : A → dispatcher → Prop) E :
  (∀ log q, ∃ a q', m q = (q', Ok a) ∧ queue_view log q' ≡ F (queue_view log q)) →
  views s v → (∀ a s', views s' (F v) → Q a s') → wp (on_queues m) Q E s.
Proof.
  intros Hm Hv HQ. destruct (Hm (jobs_of (di_jobs s)) (di_queues s)) as (a & q' & Hr & Hw).
  unfold wp, on_queues. rewrite Hr. apply HQ. unfold views in *. by rewrite <-Hv.
Qed.

Lemma dq_enqueue sl id s v (Q : unit → dispatcher → Prop) E :
  views s v → (∀ s', views s' (add_item sl id v) → Q tt s') → wp (on_queues (enqueue_for sl id)) Q E s.
Proof.
  intros Hv HQ. eapply (dq_step _ (add_item sl id)); [|exact Hv|by intros [] s'; apply HQ].
  intros log q. eexists _, _. split; [reflexivity|]. cbn [fst].
  rewrite queue_view_set, queue_view_ensure. unfold add_item. cbn. by rewrite items_ensure.
Qed.

Lemma dq_remove sl id s v (Q : bool → dispatcher → Prop) E :
  views s v → (∀ b s', views s' (take_item sl id v) → Q b s') → wp (on_queues (remove_queued_for sl id)) Q E s.
Proof.
  intros Hv HQ. eapply (dq_step _ (take_item sl id)); [|exact Hv|exact HQ].
  intros log q. eexists _, _. split; [reflexivity|]. cbn [fst].
  rewrite queue_view_set, queue_view_ensure. unfold take_item. cbn. by rewrite items_ensure.
Qed.

Lemma dq_mark sl id s v (Q : unit → dispatcher → Prop) E :
  views s v → (∀ s', views s' (put_active sl (Some id) v) → Q tt s') →
  wp (on_queues (mark_active_for sl id)) Q E s.
Proof.
  intros Hv HQ. eapply (dq_step _ (put_active sl (Some id))); [|exact Hv|by intros [] s'; apply HQ].
  intros log q. eexists _, _. split; [reflexivity|]. split; cbn; intros; [done|apply items_ensure| |].
  - rewrite active_ensure. unfold insert at 2, fn_insert. case_decide as E'; [subst|].
    + by rewrite lookup_insert, decide_True.
    + by rewrite lookup_insert_ne.
  - by rewrite index_ensure.
Qed.

Lemma dq_clear sl id s v (Q : unit → dispatcher → Prop) E :
  views s v → (∀ s', views s' (clear_if sl id v) → Q tt s') →
  wp (on_queues (clear_active_for sl (Some id))) Q E s.
Proof.
  intros Hv HQ. eapply (dq_step _ (clear_if sl id)); [|exact Hv|by intros [] s'; apply HQ].
  intros log q. eexists _, _. split; [reflexivity|]. cbn [fst]. unfold clear_if. cbn.
  case_bool_decide as Hb.
  - split; cbn; intros; [done..| |done]. unfold insert, fn_insert. case_decide as E'; [subst|].
    + by rewrite lookup_delete, decide_True.
    + by rewrite lookup_delete_ne.
  - split; cbn; intros; [done..| |done]. unfold insert, fn_insert. by case_decide; subst.
Qed.

Lemma dq_remember id sl s v (Q : unit → dispatcher → Prop) E :
  views s v → (∀ s', views s' (learn id sl v) → Q tt s') → wp (on_queues (remember_job id sl)) Q E s.
Proof.
  intros Hv HQ. eapply (dq_step _ (learn id sl)); [|exact Hv|by intros [] s'; apply HQ].
  intros log q. eexists _, _. split; [reflexivity|]. cbn [fst]. rewrite queue_view_ensure.
  split; cbn; intros; [done..|]. unfold insert at 2, fn_insert. case_decide as E'; [subst|].
  - by rewrite lookup_insert, decide_True.
  - by rewrite lookup_insert_ne.
Qed.

Lemma dq_queued sl s v (Q : list string → dispatcher → Prop) E :
  views s v → (∀ s', views s' v → Q (jv_items v sl) s') → wp (on_queues (queued_items_for sl)) Q E s.
Proof.
  intros Hv HQ. pose proof (quiet_queued sl s) as Hq. unfold wp.
  assert (Hr : (on_queues (queued_items_for sl) s).2 = Ok (jv_items v sl)).
  { cbn. rewrite items_ensure. f_equal. apply (jv_same_items _ _ Hv sl). }
  destruct (on_queues (queued_items_for sl) s) as [s' o]. cbn in *. subst o.
  apply HQ. unfold views. by rewrite Hq.
Qed.

Lemma dq_active sl s v (Q : option string → dispatcher → Prop) E :
  views s v → (∀ s', views s' v → Q (jv_active v sl) s') → wp (on_queues (active_job_for sl)) Q E s.
Proof.
  intros Hv HQ. pose proof (quiet_active sl s) as Hq. unfold wp.
  assert (Hr : (on_queues (active_job_for sl) s).2 = Ok (jv_active v sl)).
  { cbn. f_equal. apply (jv_same_active _ _ Hv sl). }
  destruct (on_queues (active_job_for sl) s) as [s' o]. cbn in *. subst o.
  apply HQ. unfold views. by rewrite Hq.
Qed.

Lemma dq_append_job r s v (Q : unit → dispatcher → Prop) E :
  views s v → normal_name (jr_target_name r) = true →
  (∀ s', views s' (push_row r v) → Q tt s') → wp (append_job r) Q E s.
Proof.
  intros Hv Hn HQ. unfold append_job. apply wp_bind.
  eapply (wp_run _ _ (Dispatcher
    (JState (<[jr_target_name r := jobs_of (di_jobs s) (jr_target_name r) ++ [r]]> (js_jobs (di_jobs s)))
       (js_events (di_jobs s)) (js_submissions (di_jobs s)))
    (di_queues s) (di_bureau s) (di_trackers s) (di_snapshots s) (di_registry s) (di_ids s) (di_readings s)
    (di_view_revision s) (di_artifacts s)) tt).
  { unfold on_jobs, job_append. rewrite (mbind_ok _ _ _ (di_jobs s) (jr_target_name r)); [done|].
    unfold mlift. by rewrite normalize_agent_name_normal. }
  apply wp_bind. eapply dq_remember.
  - instantiate (1 := JView (<[jr_target_name r := jv_log v (jr_target_name r) ++ [r]]> (jv_log v))
                        (jv_items v) (jv_active v) (jv_index v)).
    destruct Hv as [H1 H2 H3 H4]. split; cbn in *; intros; auto.
    unfold jobs_of at 1. cbn. unfold insert at 2, fn_insert. case_decide as E'; [subst|].
    + rewrite lookup_insert, decide_True by done. cbn. f_equal. apply H1.
    + rewrite lookup_insert_ne by done. apply H1.
  - intros s' Hv'. apply wp_mod, HQ, Hv'.
Qed.
End rules.
