(* ===== verification/DispatchGood.v ===== *)
(** The dispatcher's memory and its log: queues hold the waiting jobs, the active job of an
    agent is its running one, the index knows every job and nothing else, and every job
    lives as [lifecycle] says.  The rules here are about views; the operations that change
    a view so are in [DispatchOps].

    Memory in step but for jobs that have ended and still lie in their queue: a job may be
    completed while it waits, and is taken from the queue afterwards.  [hide] leaves such jobs
    out.  The rules here say what a row, an admission, an end and a removal make of a view
    that is good so. *)

From Stdlib Require Import Ascii String ZArith Lia.
From stdpp Require Import base gmap list strings functions.
From S2P Require Import Prelude PyData Names Storage Jobs JobStore DispatchState DispatchView.

Local Open Scope Z_scope.

Record in_step (agents : list string) (v : jview) : Prop := {
  is_rows : ∀ a r, r ∈ jv_log v a → a ∈ agents ∧ slot_of r = agent_slot a;
  is_queue : ∀ sl, jv_items v sl ≡ₚ pending_jobs (jv_log v sl.2);
  is_active : ∀ sl, running_jobs (jv_log v sl.2) = option_list (jv_active v sl);
  is_index : ∀ id sl, jv_index v id = Some sl ↔ id ∈ ids (jv_log v sl.2);
  is_life : ∀ a id, lifecycle (statuses id (jv_log v a));
}.

#[export] Instance in_step_proper agents : Proper ((≡) ==> iff) (in_step agents).
Proof.
  assert (H : ∀ v w, v ≡ w → in_step agents v → in_step agents w).
  { intros v w [H1 H2 H3 H4] [I1 I2 I3 I4 I5]. split; intros.
    - rewrite <-H1 in *. by apply I1.
    - rewrite <-H1, <-H2. apply I2.
    - rewrite <-H1, <-H3. apply I3.
    - rewrite <-H1, <-H4. apply I4.
    - rewrite <-H1. apply I5. }
  intros v w E. split; apply H; [done|by symmetry].
Qed.

(** What a log says by itself, without the memory: a daemon that starts again can use it. *)
Record log_ok (agents : list string) (log : string → list JobRecord) : Prop := {
  lo_rows : ∀ a r, r ∈ log a → a ∈ agents ∧ slot_of r = agent_slot a;
  lo_home : ∀ a b id, id ∈ ids (log a) → id ∈ ids (log b) → a = b;
  lo_one : ∀ a, (length (running_jobs (log a)) ≤ 1)%nat;
  lo_life : ∀ a id, lifecycle (statuses id (log a));
}.

Lemma in_step_log agents v : in_step agents v → log_ok agents (jv_log v).
Proof.
  intros H. split; intros *.
  - apply H.
  - intros Ha Hb. apply (is_index _ _ H id (agent_slot a)) in Ha.
    apply (is_index _ _ H id (agent_slot b)) in Hb.
    unfold agent_slot in *. congruence.
  - pose proof (is_active _ _ H (agent_slot a)) as E. cbn in E. rewrite E.
    by destruct (jv_active v (agent_slot a)); cbn; lia.
  - apply H.
Qed.

(** Looking up a pointwise update. *)
Lemma at_same {A T} `{EqDecision A} (f : A → T) a t : (<[a := t]> f) a = t.
Proof. apply fn_lookup_insert. Qed.
Lemma at_other {A T} `{EqDecision A} (f : A → T) a b t : a ≠ b → (<[a := t]> f) b = f b.
Proof. apply fn_lookup_insert_ne. Qed.

Lemma slot_eta (sl : slot) : agent_slot sl.2 = sl.
Proof. by destruct sl as [[] a]. Qed.

Lemma slot_ne a (sl : slot) : agent_slot a ≠ sl → a ≠ sl.2.
Proof. intros H ->. by rewrite slot_eta in H. Qed.

Lemma not_pending_terminal st : job_terminal st = true → pending_status st = false ∧ running_status st = false.
Proof. by destruct st. Qed.

Lemma nonterminal_split st :
  job_terminal st = false → (pending_status st = true ∧ running_status st = false) ∨
                            (pending_status st = false ∧ running_status st = true).
Proof. destruct st; (by left) || (by right) || done. Qed.

Ltac see :=
  cbn [push_row add_item put_items put_active take_item clear_if jv_log jv_items jv_active jv_index].

Section view_rules.
Context (agents : list string).
Implicit Types (v : jview) (r old : JobRecord) (a id : string).

Lemma slot_of_target r : slot_of r = agent_slot (jr_target_name r).
Proof. unfold slot_of, agent_slot. by destruct (jr_target_kind r). Qed.

(** What the latest row of a job says, in step. *)
Lemma pending_in_queue v sl id :
  in_step agents v → id ∈ jv_items v sl ↔ ∃ r, latest_row (jv_log v sl.2) id = Some r ∧ pending_status (jr_status r) = true.
Proof. intros H. rewrite (is_queue _ _ H sl). apply elem_of_jobs_with. Qed.

Lemma running_is_active v sl id :
  in_step agents v → jv_active v sl = Some id ↔ ∃ r, latest_row (jv_log v sl.2) id = Some r ∧ jr_status r = JS_RUNNING.
Proof.
  intros H. etrans; [|etrans; [apply (elem_of_jobs_with running_status)|]].
  - change (jobs_with running_status) with running_jobs. rewrite (is_active _ _ H sl).
    destruct (jv_active v sl) as [x|]; cbn; [rewrite list_elem_of_singleton; naive_solver|]. split; [done|by intros ?%elem_of_nil].
  - unfold running_status. split; intros (r & ? & Hr); exists r; (split; [done|]);
      [by apply bool_decide_eq_true in Hr|by rewrite Hr].
Qed.

(** The life of a job and its latest row, when a row is pushed. *)
Lemma life_push v r :
  in_step agents v → may_follow (jr_status <$> latest_row (jv_log v (jr_target_name r)) (jr_job_id r)) (jr_status r) = true →
  ∀ a id, lifecycle (statuses id (jv_log (push_row r v) a)).
Proof.
  intros H Hm a id. see. destruct (decide (jr_target_name r = a)) as [<-|Hn].
  - rewrite at_same, statuses_snoc. unfold has_id. destruct (String.eqb_spec (jr_job_id r) id) as [<-|_]; [|apply H].
    constructor; [apply H|]. by rewrite last_status.
  - rewrite at_other by done. apply H.
Qed.

Lemma rows_push v r :
  in_step agents v → jr_target_name r ∈ agents →
  ∀ a x, x ∈ jv_log (push_row r v) a → a ∈ agents ∧ slot_of x = agent_slot a.
Proof.
  intros H Ha a x. see. destruct (decide (jr_target_name r = a)) as [<-|Hn].
  - rewrite at_same. intros [Hx| ->%list_elem_of_singleton]%elem_of_app; [by apply H|].
    split; [done|apply slot_of_target].
  - rewrite at_other by done. apply H.
Qed.

Lemma index_push v r :
  in_step agents v →
  (jr_job_id r ∈ ids (jv_log v (jr_target_name r)) ∨ ∀ a, jr_job_id r ∉ ids (jv_log v a)) →
  ∀ id sl, jv_index (push_row r v) id = Some sl ↔ id ∈ ids (jv_log (push_row r v) sl.2).
Proof.
  intros H Hid id sl. see. rewrite slot_of_target.
  assert (Hids : id ∈ ids ((<[jr_target_name r := jv_log v (jr_target_name r) ++ [r]]> (jv_log v)) sl.2) ↔
                 id ∈ ids (jv_log v sl.2) ∨ (id = jr_job_id r ∧ sl = agent_slot (jr_target_name r))).
  { destruct (decide (jr_target_name r = sl.2)) as [E|Hn].
    - rewrite E, at_same, slot_eta. rewrite !elem_of_ids. setoid_rewrite elem_of_app.
      setoid_rewrite list_elem_of_singleton. naive_solver.
    - rewrite at_other by done. split; [by left|]. intros [?|[_ ->]]; [done|by cbn in Hn]. }
  rewrite Hids. destruct (decide (jr_job_id r = id)) as [<-|Hn].
  - rewrite at_same. split; [intros [= <-]; by right|]. intros [Hx|[_ ->]]; [|done].
    destruct Hid as [Hid|Hid]; [|by apply Hid in Hx].
    apply (is_index _ _ H _ sl) in Hx.
    apply (is_index _ _ H _ (agent_slot (jr_target_name r))) in Hid. congruence.
  - rewrite at_other by done. rewrite (is_index _ _ H). naive_solver.
Qed.

(** A new job waits at the back of its queue. *)
Lemma in_step_admit v r :
  in_step agents v → jr_target_name r ∈ agents → pending_status (jr_status r) = true →
  (∀ a, jr_job_id r ∉ ids (jv_log v a)) →
  in_step agents (add_item (slot_of r) (jr_job_id r) (push_row r v)).
Proof.
  intros H Ha Hp Hf. rewrite slot_of_target. split; see.
  - by apply rows_push.
  - intros sl. destruct (decide (agent_slot (jr_target_name r) = sl)) as [<-|Hn].
    + rewrite !at_same. unfold pending_jobs. rewrite jobs_with_new, Hp by done. cbn. by rewrite (is_queue _ _ H).
    + rewrite (at_other _ _ _ _ Hn), (at_other _ _ _ _ (slot_ne _ _ Hn)). apply H.
  - intros sl. destruct (decide (jr_target_name r = sl.2)) as [E|Hn].
    + rewrite E, at_same. unfold running_jobs. rewrite jobs_with_new by done.
      assert (Hr : running_status (jr_status r) = false) by by destruct (jr_status r).
      rewrite Hr, app_nil_r. apply H.
    + rewrite at_other by done. apply H.
  - apply index_push; [done|by right].
  - apply life_push; [done|]. rewrite (proj2 (latest_row_none _ _)) by done. done.
Qed.
Lemma known_id v r old :
  latest_row (jv_log v (jr_target_name r)) (jr_job_id r) = Some old →
  jr_job_id r ∈ ids (jv_log v (jr_target_name r)).
Proof. intros [H1 H2]%latest_row_some. apply elem_of_ids. by exists old. Qed.

Lemma known_agent v a id old : in_step agents v → latest_row (jv_log v a) id = Some old → a ∈ agents.
Proof. intros H [H1 _]%latest_row_some. by apply (is_rows _ _ H a old). Qed.

Lemma items_nodup v sl : in_step agents v → NoDup (jv_items v sl).
Proof. intros H. rewrite (is_queue _ _ H sl). apply jobs_with_nodup. Qed.

(** The items of a queue without one of them. *)
Lemma items_without v sl id :
  in_step agents v →
  (queue_remove id (jv_items v sl)).2 ≡ₚ List.filter (λ x, negb (String.eqb id x)) (pending_jobs (jv_log v sl.2)).
Proof.
  intros H. rewrite queue_remove_spec by by apply items_nodup. by apply filter_permutation, H.
Qed.

(** A row that repeats the status of its job. *)
Lemma in_step_row v r old :
  in_step agents v → latest_row (jv_log v (jr_target_name r)) (jr_job_id r) = Some old →
  jr_status r = jr_status old → in_step agents (push_row r v).
Proof.
  intros H Ho Hs. split; see.
  - apply rows_push; [done|]. by eapply known_agent.
  - intros sl. destruct (decide (jr_target_name r = sl.2)) as [E|Hn]; [|rewrite at_other by done; apply H].
    rewrite E, at_same. unfold pending_jobs. rewrite E in Ho.
    rewrite (jobs_with_same _ _ _ _ Ho) by by rewrite Hs. apply H.
  - intros sl. destruct (decide (jr_target_name r = sl.2)) as [E|Hn]; [|rewrite at_other by done; apply H].
    rewrite E, at_same. unfold running_jobs. rewrite E in Ho.
    rewrite (jobs_with_same _ _ _ _ Ho) by by rewrite Hs. apply H.
  - apply index_push; [done|left]. by eapply known_id.
  - apply life_push; [done|]. rewrite Ho. cbn. rewrite Hs. by rewrite bool_decide_eq_true_2.
Qed.

(** The start of a waiting job of an idle agent. *)
Lemma in_step_start v r old :
  in_step agents v → latest_row (jv_log v (jr_target_name r)) (jr_job_id r) = Some old →
  pending_status (jr_status old) = true → jr_status r = JS_RUNNING → jv_active v (slot_of r) = None →
  in_step agents (put_active (slot_of r) (Some (jr_job_id r)) (push_row r (take_item (slot_of r) (jr_job_id r) v))).
Proof.
  intros H Ho Hp Hs Ha. pose proof (known_id _ _ _ Ho) as Hk. rewrite slot_of_target in *.
  pose proof (known_agent _ _ _ _ H Ho) as Hag. split; see.
  - intros a x Hx. by apply (rows_push v r H Hag a x).
  - intros sl. destruct (decide (agent_slot (jr_target_name r) = sl)) as [<-|Hn].
    + rewrite !at_same. unfold pending_jobs. rewrite jobs_with_drop; [|done|by rewrite Hs].
      by apply items_without.
    + rewrite (at_other _ _ _ _ Hn), (at_other _ _ _ _ (slot_ne _ _ Hn)). apply H.
  - intros sl. destruct (decide (agent_slot (jr_target_name r) = sl)) as [<-|Hn].
    + rewrite !at_same. unfold running_jobs. rewrite jobs_with_only; [done|done|by rewrite Hs|].
      change (running_jobs (jv_log v (agent_slot (jr_target_name r)).2) = []).
      by rewrite (is_active _ _ H), Ha.
    + rewrite (at_other _ _ _ _ Hn), (at_other _ _ _ _ (slot_ne _ _ Hn)). apply H.
  - apply (index_push v r H). by left.
  - apply (life_push v r H). rewrite Ho, Hs. cbn. by rewrite Hp, orb_true_r.
Qed.

(** The end of a job that had not ended. *)
Lemma in_step_end v r old :
  in_step agents v → latest_row (jv_log v (jr_target_name r)) (jr_job_id r) = Some old →
  job_terminal (jr_status old) = false → job_terminal (jr_status r) = true →
  in_step agents (clear_if (slot_of r) (jr_job_id r) (take_item (slot_of r) (jr_job_id r) (push_row r v))).
Proof.
  intros H Ho Hp Hs. pose proof (known_id _ _ _ Ho) as Hk. rewrite slot_of_target in *.
  pose proof (known_agent _ _ _ _ H Ho) as Hag. apply not_pending_terminal in Hs as Hs'.
  destruct Hs' as [Hnp Hnr]. split; see.
  - intros a x Hx. by apply (rows_push v r H Hag a x).
  - intros sl. destruct (decide (agent_slot (jr_target_name r) = sl)) as [<-|Hn].
    + rewrite !at_same. unfold pending_jobs. rewrite jobs_with_drop by done. by apply items_without.
    + rewrite (at_other _ _ _ _ Hn), (at_other _ _ _ _ (slot_ne _ _ Hn)). apply H.
  - intros sl. destruct (decide (agent_slot (jr_target_name r) = sl)) as [<-|Hn].
    + rewrite !at_same. unfold running_jobs. rewrite jobs_with_drop by done.
      change (List.filter (λ x, negb (String.eqb (jr_job_id r) x))
                (running_jobs (jv_log v (agent_slot (jr_target_name r)).2)) = option_list
                (if bool_decide (jv_active v (agent_slot (jr_target_name r)) = Some (jr_job_id r)) then None
                 else jv_active v (agent_slot (jr_target_name r)))).
      rewrite (is_active _ _ H). destruct (jv_active v _) as [x|]; [|done]. cbn.
      destruct (String.eqb_spec (jr_job_id r) x) as [<-|Hx]; cbn; case_bool_decide; naive_solver.
    + rewrite (at_other _ _ _ _ Hn), (at_other _ _ _ _ (slot_ne _ _ Hn)). apply H.
  - apply (index_push v r H). by left.
  - apply (life_push v r H). rewrite Ho. cbn. rewrite Hs. destruct (nonterminal_split _ Hp) as [[-> ->]|[-> ->]];
      by rewrite ?orb_true_r.
Qed.

(** Only a waiting job is in a queue, and only a running one is active. *)
Lemma take_item_absent v sl id : id ∉ jv_items v sl → take_item sl id v ≡ v.
Proof.
  intros Hi. split; see; intros; [done| |done..]. destruct (decide (sl = sl0)) as [<-|Hn].
  - rewrite at_same. revert Hi. generalize (jv_items v sl). intros l Hi.
    induction l as [|y l IH]; [done|]. cbn. destruct (String.eqb_spec y id) as [->|_]; [set_solver|].
    cbn. f_equal. apply IH. set_solver.
  - by rewrite at_other.
Qed.
End view_rules.

Definition shown (X : list string) (id : string) : bool := negb (mem_str id X).

Definition hide (X : list string) (v : jview) : jview :=
  JView (jv_log v) (λ sl, List.filter (shown X) (jv_items v sl)) (jv_active v) (jv_index v).

#[export] Instance hide_proper X : Proper ((≡) ==> (≡)) (hide X).
Proof. intros v w [H1 H2 H3 H4]. split; intros; cbn; auto. by rewrite H2. Qed.

(** The latest row of a job, wherever it is. *)
Definition known_row (v : jview) (id : string) : option JobRecord :=
  match jv_index v id with Some sl => latest_row (jv_log v sl.2) id | None => None end.

Definition vended (v : jview) (id : string) : Prop :=
  ∃ r, known_row v id = Some r ∧ job_terminal (jr_status r) = true.

(** The job is taken from its queue as well, where it waits there. *)
Definition end_view (r : JobRecord) (v : jview) : jview :=
  clear_if (slot_of r) (jr_job_id r) (take_item (slot_of r) (jr_job_id r) (push_row r v)).

Definition start_view (r : JobRecord) (v : jview) : jview :=
  put_active (slot_of r) (Some (jr_job_id r)) (push_row r (take_item (slot_of r) (jr_job_id r) v)).

#[export] Instance end_view_proper r : Proper ((≡) ==> (≡)) (end_view r).
Proof. unfold end_view. solve_proper. Qed.

Lemma known_row_equiv v w id : v ≡ w → known_row v id = known_row w id.
Proof. intros [H1 H2 H3 H4]. unfold known_row. rewrite H4. destruct (jv_index w id); [|done]. by rewrite H1. Qed.

Lemma filter_shown_cons X id l :
  List.filter (shown (id :: X)) l = List.filter (λ y, negb (String.eqb id y)) (List.filter (shown X) l).
Proof.
  rewrite filter_filter. apply filter_same. intros y _. unfold shown, mem_str. cbn. rewrite String.eqb_sym.
  by rewrite negb_orb, andb_comm.
Qed.

Lemma shown_not_in X id : id ∉ X → shown X id = true.
Proof. unfold shown. intros H. destruct (mem_str id X) eqn:E; [|done]. by apply mem_str_spec in E. Qed.

Lemma filter_shown_nil l : List.filter (shown []) l = l.
Proof. induction l as [|x l IH]; [done|]. cbn. by rewrite IH. Qed.

Lemma hide_nil v : hide [] v ≡ v.
Proof. split; intros; cbn; auto using filter_shown_nil. Qed.

Section good.
Context (agents : list string).
Hypothesis agents_normal : Forall (λ a, normal_name a = true) agents.
Implicit Types (X : list string) (v w : jview) (r c : JobRecord).

Record vgood X v : Prop := {
  vg_step : in_step agents (hide X v);
  vg_ended : ∀ id, id ∈ X → vended v id;
  vg_nodup : ∀ sl, NoDup (jv_items v sl);
  vg_home : ∀ sl id, id ∈ jv_items v sl → jv_index v id = Some sl;
}.

#[export] Instance vgood_proper X : Proper ((≡) ==> iff) (vgood X).
Proof.
  assert (H : ∀ v w, v ≡ w → vgood X v → vgood X w).
  { intros v w E [I1 I2 I3 I4]. split.
    - by rewrite <-E.
    - intros id Hid. destruct (I2 id Hid) as (r & Hr & Ht). exists r. by rewrite <-(known_row_equiv v w id E).
    - intros sl. rewrite <-(jv_same_items _ _ E sl). apply I3.
    - intros sl id. rewrite <-(jv_same_items _ _ E sl), <-(jv_same_index _ _ E id). apply I4. }
  intros v w E. split; apply H; [done|by symmetry].
Qed.

Lemma vgood_log X v : vgood X v → log_ok agents (jv_log v).
Proof. intros H. exact (in_step_log _ _ (vg_step _ _ H)). Qed.

Lemma vgood_step v : vgood [] v ↔ in_step agents v.
Proof.
  split; [intros H; rewrite <-(hide_nil v); apply H|]. intros H. split.
  - by rewrite hide_nil.
  - by intros id Hid%elem_of_nil.
  - intros sl. by apply (items_nodup agents).
  - intros sl id Hi. apply (is_index _ _ H). apply (pending_in_queue agents) in Hi as (r & Hr & _); [|done].
    apply latest_row_some in Hr as [Hr1 Hr2]. apply elem_of_ids. by exists r.
Qed.

(** ** What is known of a job *)

Lemma known_facts X v id r :
  vgood X v → known_row v id = Some r →
  jr_job_id r = id ∧ latest_row (jv_log v (jr_target_name r)) id = Some r ∧
  normal_name (jr_target_name r) = true ∧ jr_target_name r ∈ agents ∧ jv_index v id = Some (slot_of r).
Proof.
  unfold known_row. intros H. destruct (jv_index v id) as [sl|] eqn:Ei; [|done]. intros Hr.
  apply latest_row_some in Hr as Hr'. destruct Hr' as [Hin Hid].
  pose proof (is_rows _ _ (vg_step _ _ H) sl.2 r Hin) as [Ha Hs]. cbn in *.
  rewrite slot_of_target in *. assert (E : jr_target_name r = sl.2) by by injection Hs.
  rewrite E, slot_eta. split; [done|]. split; [done|]. split; [|done].
  pose proof (proj1 (list.Forall_forall _ _) agents_normal) as Hn. by apply Hn.
Qed.

Lemma row_normal X v a r : vgood X v → r ∈ jv_log v a → a ∈ agents ∧ normal_name a = true ∧ jr_target_name r = a.
Proof.
  intros H Hr. apply (is_rows _ _ (vg_step _ _ H)) in Hr as [Ha Hs]. split; [done|]. split.
  - pose proof (proj1 (list.Forall_forall _ _) agents_normal) as Hn. by apply Hn.
  - rewrite slot_of_target in Hs. by injection Hs.
Qed.

Lemma known_latest X v a id r : vgood X v → latest_row (jv_log v a) id = Some r → known_row v id = Some r.
Proof.
  intros H Hr. unfold known_row. apply latest_row_some in Hr as Hr'. destruct Hr' as [Hin Hid].
  assert (Hi : id ∈ ids (jv_log v (agent_slot a).2)) by (apply elem_of_ids; by exists r).
  apply (is_index _ _ (vg_step _ _ H)) in Hi. cbn in Hi. by rewrite Hi.
Qed.

Lemma known_in_ids X v id r : vgood X v → known_row v id = Some r → id ∈ ids (jv_log v (jr_target_name r)).
Proof.
  intros H Hr. destruct (known_facts _ _ _ _ H Hr) as (_ & Hl & _).
  apply latest_row_some in Hl as [? ?]. apply elem_of_ids. by exists r.
Qed.

(** The waiting jobs that are shown are in the queue. *)
Lemma shown_pending X v sl id :
  vgood X v → id ∉ X → id ∈ jv_items v sl →
  ∃ r, known_row v id = Some r ∧ pending_status (jr_status r) = true ∧ slot_of r = sl.
Proof.
  intros H Hx Hi. assert (Hi' : id ∈ jv_items (hide X v) sl).
  { cbn. apply elem_of_filter_bool. by rewrite shown_not_in. }
  apply (pending_in_queue agents) in Hi' as (r & Hr & Hp); [|apply H]. cbn in Hr.
  apply (known_latest _ _ _ _ _ H) in Hr as Hk. exists r. split; [done|]. split; [done|].
  destruct (known_facts _ _ _ _ H Hk) as (_ & _ & _ & _ & Hix).
  pose proof (vg_home _ _ H _ _ Hi). congruence.
Qed.

Lemma not_waiting X v sl id c :
  vgood X v → id ∉ X → known_row v id = Some c → pending_status (jr_status c) = false → id ∉ jv_items v sl.
Proof.
  intros H Hx Hc Hp Hi. destruct (shown_pending _ _ _ _ H Hx Hi) as (r & Hr & Hpr & _). congruence.
Qed.

Lemma ended_not_pending X v id c :
  vgood X v → known_row v id = Some c → job_terminal (jr_status c) = false → id ∉ X.
Proof. intros H Hc Ht Hx. destruct (vg_ended _ _ H id Hx) as (r & Hr & Hr'). congruence. Qed.

(** ** Rows *)

Lemma push_known r v id :
  known_row (push_row r v) id =
  if String.eqb (jr_job_id r) id then Some r
  else match jv_index v id with
       | Some sl => latest_row (jv_log v sl.2) id
       | None => None
       end.
Proof.
  unfold known_row. see. destruct (String.eqb_spec (jr_job_id r) id) as [<-|Hn].
  - rewrite at_same, slot_of_target. cbn [agent_slot snd]. rewrite at_same, latest_row_snoc.
    by rewrite (proj2 (has_id_true _ _) eq_refl).
  - rewrite at_other by done. destruct (jv_index v id) as [sl|]; [|done].
    destruct (decide (jr_target_name r = sl.2)) as [E|E]; [|by rewrite at_other].
    rewrite E, at_same, latest_row_snoc. destruct (has_id id r) eqn:Eh; [|done]. by apply has_id_true in Eh.
Qed.

Lemma push_known_same r v : known_row (push_row r v) (jr_job_id r) = Some r.
Proof. rewrite push_known. by rewrite String.eqb_refl. Qed.

Lemma push_known_other r v id : jr_job_id r ≠ id → known_row (push_row r v) id = known_row v id.
Proof. intros H. rewrite push_known. by destruct (String.eqb_spec (jr_job_id r) id). Qed.

(** The items and the active jobs do not count for what is known. *)
Lemma known_row_put_items sl l v id : known_row (put_items sl l v) id = known_row v id.
Proof. done. Qed.
Lemma known_row_put_active sl o v id : known_row (put_active sl o v) id = known_row v id.
Proof. done. Qed.

Lemma hide_push X r v : hide X (push_row r v) = push_row r (hide X v).
Proof. done. Qed.
Lemma hide_clear X sl id v : hide X (clear_if sl id v) = clear_if sl id (hide X v).
Proof. done. Qed.
Lemma hide_put_active X sl o v : hide X (put_active sl o v) = put_active sl o (hide X v).
Proof. done. Qed.

Lemma vended_push X v r id :
  vgood X v → (∀ c, known_row v (jr_job_id r) = Some c → job_terminal (jr_status c) = true → job_terminal (jr_status r) = true) →
  vended v id → vended (push_row r v) id.
Proof.
  intros H Hs (c & Hc & Ht). destruct (decide (jr_job_id r = id)) as [<-|Hn].
  - exists r. rewrite push_known_same. split; [done|]. by apply (Hs c).
  - exists c. by rewrite push_known_other.
Qed.

(** A row of a known job leaves queues and home as they are. *)
Lemma home_push X v r c sl id :
  vgood X v → known_row v (jr_job_id r) = Some c → slot_of r = slot_of c →
  id ∈ jv_items v sl → jv_index (push_row r v) id = Some sl.
Proof.
  intros H Hc Hsl Hi. see. pose proof (vg_home _ _ H _ _ Hi) as Hh.
  destruct (decide (jr_job_id r = id)) as [<-|Hn]; [|by rewrite at_other].
  rewrite at_same, Hsl. destruct (known_facts _ _ _ _ H Hc) as (_ & _ & _ & _ & Hx). congruence.
Qed.

Lemma same_target r c : slot_of r = slot_of c → jr_target_name r = jr_target_name c.
Proof. rewrite !slot_of_target. by intros [=]. Qed.

(** A row that only says more about a job. *)
Lemma vgood_row X v c r :
  vgood X v → known_row v (jr_job_id r) = Some c → slot_of r = slot_of c → jr_status r = jr_status c →
  vgood X (push_row r v).
Proof.
  intros H Hc Hsl Hst. destruct (known_facts _ _ _ _ H Hc) as (_ & Hl & _).
  rewrite <-(same_target _ _ Hsl) in Hl. split.
  - rewrite hide_push. apply (in_step_row agents _ r c); [apply H|done|done].
  - intros id Hid. apply (vended_push X); [done| |by apply H]. intros c' Hc' Ht. rewrite Hc in Hc'. injection Hc' as <-.
    by rewrite Hst.
  - intros sl. apply H.
  - intros sl id Hi. by apply (home_push X _ _ c).
Qed.

(** A new job waits at the back of its queue. *)
Lemma vgood_admit X v r :
  vgood X v → jr_target_name r ∈ agents → pending_status (jr_status r) = true →
  (∀ a, jr_job_id r ∉ ids (jv_log v a)) →
  vgood X (add_item (slot_of r) (jr_job_id r) (push_row r v)).
Proof.
  intros H Ha Hp Hf.
  assert (Hx : jr_job_id r ∉ X).
  { intros Hx. destruct (vg_ended _ _ H _ Hx) as (c & Hc & _). eapply Hf, known_in_ids; [exact H|exact Hc]. }
  assert (Hi : ∀ sl, jr_job_id r ∉ jv_items v sl).
  { intros sl Hi. apply (vg_home _ _ H) in Hi. apply (is_index _ _ (vg_step _ _ H)) in Hi. by apply Hf in Hi. }
  split.
  - assert (E : hide X (add_item (slot_of r) (jr_job_id r) (push_row r v)) ≡
                add_item (slot_of r) (jr_job_id r) (push_row r (hide X v))).
    { split; intros; cbn; try done. destruct (decide (slot_of r = sl)) as [<-|Hn].
      - rewrite !at_same, List.filter_app. cbn. by rewrite shown_not_in.
      - by rewrite !at_other. }
    rewrite E. apply in_step_admit; [apply H|done..].
  - intros id Hid. change (known_row _ id) with (known_row (push_row r v) id).
    assert (He : vended (push_row r v) id); [|exact He].
    apply (vended_push X); [done| |by apply H]. intros c Hc _. exfalso. eapply Hf, known_in_ids; [exact H|exact Hc].
  - intros sl. see. destruct (decide (slot_of r = sl)) as [<-|Hn]; [|rewrite at_other by done; apply H].
    rewrite at_same. apply list.NoDup_app. split; [apply H|]. split; [|apply NoDup_singleton].
    intros y Hy ->%list_elem_of_singleton. by apply Hi in Hy.
  - intros sl id. see. destruct (decide (jr_job_id r = id)) as [<-|Hid].
    + rewrite (at_same (jv_index v)). destruct (decide (slot_of r = sl)) as [<-|Hn]; [done|].
      rewrite at_other by done. by intros ?%Hi.
    + rewrite (at_other (jv_index v)) by done. destruct (decide (slot_of r = sl)) as [<-|Hn].
      * rewrite at_same. intros Hy. apply elem_of_app in Hy as [Hy|Hy]; [exact (vg_home _ _ H _ _ Hy)|].
        apply list_elem_of_singleton in Hy. by rewrite Hy in Hid.
      * rewrite at_other by done. exact (vg_home _ _ H sl id).
Qed.

(** ** Ends *)

Lemma take_other sl id v sl' : sl ≠ sl' → jv_items (take_item sl id v) sl' = jv_items v sl'.
Proof. intros H. see. by rewrite at_other. Qed.

Lemma take_same sl id v :
  NoDup (jv_items v sl) → jv_items (take_item sl id v) sl = List.filter (λ y, negb (String.eqb id y)) (jv_items v sl).
Proof. intros H. see. rewrite at_same. by apply queue_remove_spec. Qed.

(** Hiding a job is taking it from its queue. *)
Lemma hide_take X v sl id :
  (∀ sl, NoDup (jv_items v sl)) → (∀ sl', id ∈ jv_items v sl' → sl' = sl) →
  hide (id :: X) v ≡ take_item sl id (hide X v).
Proof.
  intros Hn Hh. split; intros; cbn [hide]; see; try done. unfold hide at 1. see. rewrite filter_shown_cons.
  destruct (decide (sl = sl0)) as [<-|Hne].
  - rewrite at_same. cbn. rewrite queue_remove_spec; [done|]. by apply filter_nodup.
  - rewrite at_other by done. cbn. apply filter_absent. rewrite elem_of_filter_bool.
    intros [Hi _]. by apply Hh in Hi.
Qed.

Lemma hide_taken X v sl id :
  (∀ sl, NoDup (jv_items v sl)) → hide X (take_item sl id v) ≡ take_item sl id (hide X v).
Proof.
  intros Hn. split; intros; try done. unfold hide at 1. see. destruct (decide (sl = sl0)) as [<-|Hne].
  - rewrite !at_same. cbn. rewrite !queue_remove_spec; [|by apply filter_nodup|done].
    rewrite !filter_filter. apply filter_same. intros y _. by rewrite andb_comm.
  - by rewrite !at_other.
Qed.

Lemma home_take v sl id sl' y : y ∈ jv_items (take_item sl id v) sl' → NoDup (jv_items v sl) → y ∈ jv_items v sl'.
Proof.
  destruct (decide (sl = sl')) as [<-|Hn]; [|by rewrite take_other].
  intros Hi Hd. rewrite take_same in Hi by done. by apply elem_of_filter_bool in Hi as [? _].
Qed.

(** The end of a job: it is out of the queue, or hidden until it is. *)
Lemma vgood_ends X v c r :
  vgood X v → known_row v (jr_job_id r) = Some c → slot_of r = slot_of c → job_terminal (jr_status c) = false →
  job_terminal (jr_status r) = true →
  vgood (jr_job_id r :: X) (clear_if (slot_of r) (jr_job_id r) (push_row r v)) ∧ vgood X (end_view r v).
Proof.
  intros H Hc Hsl Ht Hr. destruct (known_facts _ _ _ _ H Hc) as (_ & Hl & _ & _ & Hx).
  rewrite <-(same_target _ _ Hsl) in Hl.
  assert (He : ∀ id, id ∈ jr_job_id r :: X → vended (push_row r v) id).
  { intros id [->|Hid]%elem_of_cons.
    - exists r. by rewrite push_known_same.
    - apply (vended_push X); [done|by intros|by apply H]. }
  assert (Hstep : in_step agents (end_view r (hide X v))) by (by apply (in_step_end agents _ r c); [apply H|..]).
  assert (Hhome : ∀ sl', jr_job_id r ∈ jv_items v sl' → sl' = slot_of r).
  { intros sl' Hi. apply (vg_home _ _ H) in Hi. congruence. }
  assert (Hi : ∀ sl id, id ∈ jv_items v sl → jv_index (push_row r v) id = Some sl) by (intros *; by apply (home_push X _ _ c)).
  split; split; try done.
  - rewrite hide_clear. rewrite hide_push.
    assert (E : clear_if (slot_of r) (jr_job_id r) (push_row r (hide (jr_job_id r :: X) v)) ≡ end_view r (hide X v)).
    { unfold end_view. rewrite (hide_take X v (slot_of r)); [done|apply H|done]. }
    by rewrite E.
  - apply H.
  - unfold end_view. rewrite hide_clear.
    assert (E : hide X (take_item (slot_of r) (jr_job_id r) (push_row r v)) ≡
                take_item (slot_of r) (jr_job_id r) (push_row r (hide X v))).
    { rewrite hide_taken by apply H. by rewrite hide_push. }
    rewrite E. exact Hstep.
  - intros id Hid. apply He. by right.
  - intros sl. change (NoDup (jv_items (take_item (slot_of r) (jr_job_id r) v) sl)).
    destruct (decide (slot_of r = sl)) as [<-|Hn]; [rewrite take_same by apply H; apply filter_nodup, H|].
    rewrite take_other by done. apply H.
  - intros sl id Hin. change (id ∈ jv_items (take_item (slot_of r) (jr_job_id r) v) sl) in Hin.
    apply (Hi sl). apply home_take in Hin; [done|apply H].
Qed.

(** A job that does not wait is out of the queue as it ends. *)
Lemma vgood_end_running X v c r :
  vgood X v → known_row v (jr_job_id r) = Some c → slot_of r = slot_of c → running_status (jr_status c) = true →
  job_terminal (jr_status r) = true → vgood X (clear_if (slot_of r) (jr_job_id r) (push_row r v)).
Proof.
  intros H Hc Hsl Ht Hr. assert (Htc : job_terminal (jr_status c) = false) by by destruct (jr_status c).
  destruct (vgood_ends X v c r H Hc Hsl Htc Hr) as [_ He].
  assert (E : end_view r v ≡ clear_if (slot_of r) (jr_job_id r) (push_row r v)); [|by rewrite <-E].
  unfold end_view. rewrite take_item_absent; [done|]. see.
  apply (not_waiting X v _ _ c); [done|exact (ended_not_pending X v _ c H Hc Htc)|done|]. by destruct (jr_status c).
Qed.

(** A job that has ended leaves its queue. *)
Lemma vgood_take X v sl id :
  vgood (id :: X) v → jv_index v id = Some sl → vgood X (take_item sl id v).
Proof.
  intros H Hx. split.
  - rewrite hide_taken by apply H. rewrite <-hide_take; [apply H|apply H|].
    intros sl' Hi. apply (vg_home _ _ H) in Hi. congruence.
  - intros y Hy. apply (vg_ended _ _ H). by right.
  - intros sl'. destruct (decide (sl = sl')) as [<-|Hn]; [rewrite take_same by apply H; apply filter_nodup, H|].
    rewrite take_other by done. apply H.
  - intros sl' y Hi. apply (vg_home _ _ H). apply home_take in Hi; [done|apply H].
Qed.

Lemma vgood_take_ended X v sl id :
  vgood X v → vended v id → id ∉ X → vgood X (take_item sl id v).
Proof.
  intros H (c & Hc & Ht) Hx. rewrite take_item_absent; [done|].
  apply (not_waiting X v _ _ c); [done..|]. by destruct (jr_status c).
Qed.

(** A job that has ended may be taken at any time, hidden or not. *)
Lemma vgood_take_any X v sl id : vgood X v → vended v id → vgood X (take_item sl id v).
Proof.
  intros H He. destruct (decide (id ∈ X)) as [Hx|Hx]; [|by apply vgood_take_ended]. split.
  - assert (E : hide X (take_item sl id v) ≡ hide X v); [|rewrite E; apply H].
    rewrite hide_taken by apply H. apply take_item_absent. cbn. rewrite elem_of_filter_bool. unfold shown.
    intros [_ Hn]. apply mem_str_spec in Hx. by rewrite Hx in Hn.
  - apply H.
  - intros sl'. destruct (decide (sl = sl')) as [<-|Hn]; [rewrite take_same by apply H; apply filter_nodup, H|].
    rewrite take_other by done. apply H.
  - intros sl' y Hi. apply (vg_home _ _ H). apply home_take in Hi; [done|apply H].
Qed.

(** ** The start *)

Lemma vgood_start X v c r :
  vgood X v → known_row v (jr_job_id r) = Some c → slot_of r = slot_of c → pending_status (jr_status c) = true →
  jv_active v (slot_of c) = None → jr_status r = JS_RUNNING → vgood X (start_view r v).
Proof.
  intros H Hc Hsl Hp Ha Hst. destruct (known_facts _ _ _ _ H Hc) as (_ & Hl & _ & _ & Hx).
  rewrite <-(same_target _ _ Hsl) in Hl.
  assert (Htc : job_terminal (jr_status c) = false) by by destruct (jr_status c).
  assert (Hn : jr_job_id r ∉ X) by exact (ended_not_pending X v _ c H Hc Htc).
  assert (E : hide X (start_view r v) ≡ start_view r (hide X v)).
  { unfold start_view. rewrite hide_put_active, hide_push. apply put_active_proper, push_row_proper, hide_taken, H. }
  split.
  - rewrite E. apply (in_step_start agents _ r c); [apply H|exact Hl|done|done|by rewrite Hsl].
  - intros id Hid. assert (He : vended (push_row r v) id); [|exact He].
    apply (vended_push X); [done| |by apply H]. intros c' Hc' Ht. rewrite Hc in Hc'. injection Hc' as <-.
    congruence.
  - intros sl. change (NoDup (jv_items (take_item (slot_of r) (jr_job_id r) v) sl)).
    destruct (decide (slot_of r = sl)) as [<-|Hne]; [rewrite take_same by apply H; apply filter_nodup, H|].
    rewrite take_other by done. apply H.
  - intros sl id Hin. change (id ∈ jv_items (take_item (slot_of r) (jr_job_id r) v) sl) in Hin.
    change (jv_index (push_row r v) id = Some sl). apply (home_push X _ _ c); [done..|].
    apply home_take in Hin; [done|apply H].
Qed.
End good.
