(* ===== verification/DispatchOps.v ===== *)
(** The dispatcher's operations on views: what each does to logs, queues, active jobs and
    index, when it ends normally and when it raises. *)

From Stdlib Require Import Ascii String ZArith Lia.
From stdpp Require Import base gmap list strings functions.
From S2P Require Import Prelude PyData Names Storage CompletionModels Jobs Api JobStore BureauModels Completion DispatchState DispatchPolicy Dispatch DispatchView DispatchGood.

Local Open Scope Z_scope.

(** What is left to show after an exception, when the view is a known one. *)
Ltac dq_err := intros; match goal with H : ∀ (e : exn) (s : dispatcher), views s _ → _ |- _ => eapply H; eassumption end.

Ltac dq_quiet :=
  match goal with
  | Hv : views ?s ?v |- wp _ _ _ ?s =>
      apply (dq_wp_quiet _ s v); [solve [eauto with quiet | quiet_solve]|exact Hv| |dq_err];
      let x := fresh "x" in let s' := fresh "s" in
      clear Hv; intros x s' Hv; cbv beta
  end.
(** Pass a quiet step of a sequence. *)
Ltac dq_skip := apply wp_bind; dq_quiet.

(** ** Jobs *)

Record job_ok (r : JobRecord) : Prop := {
  jo_id : truthy (jr_job_id r) = true;
  jo_name : normal_name (jr_target_name r) = true;
}.

Lemma normalize_normal name a : normalize_agent_name name = Ok a → normal_name a = true.
Proof. intros H. apply normalize_agent_name_ok in H as (_ & _ & H). exact H. Qed.

Lemma new_job_facts j r :
  new_job j = Ok r →
  ∃ a, normalize_agent_name (or_str (jr_target_name j) (jr_agent_name j)) = Ok a ∧ job_ok r ∧
    jr_target_name r = a ∧ jr_agent_name r = a ∧ jr_job_id r = jr_job_id j ∧ jr_status r = jr_status j.
Proof.
  unfold new_job. intros H. apply raise_if_Ok in H as [Hid H]. apply result_bind_Ok in H as (a & Ha & H).
  inv_guards H. injection H as <-. exists a. cbn. split; [done|]. split; [|done].
  split; cbn; [by destruct (truthy _)|by eapply normalize_normal].
Qed.

Lemma job_replace_facts j st td ca u r :
  job_replace j st td ca u = Ok r → normal_name (jr_target_name j) = true →
  jr_job_id r = jr_job_id j ∧ slot_of r = slot_of j ∧ jr_status r = st ∧ job_ok r.
Proof.
  unfold job_replace. intros H Hn. apply new_job_facts in H as (a & Ha & Ho & Ht & _ & Hid & Hst). cbn in *.
  apply normal_name_facts in Hn as Hf. destruct Hf as (_ & _ & Htr & _).
  unfold or_str in Ha. rewrite Htr, normalize_agent_name_normal in Ha by done. injection Ha as <-.
  split; [done|]. split; [|done]. by rewrite !slot_of_target, Ht.
Qed.

Section ops.
Context (cfg : dconfig).
Hypothesis agents_normal : Forall (λ a, normal_name a = true) (dc_agents cfg).
Implicit Types (s : dispatcher) (v : jview) (j r : JobRecord) (X : list string).

Abbreviation agents := (dc_agents cfg).
Abbreviation vgood := (vgood (dc_agents cfg)).

(** An event of a well-formed job is always written. *)
Lemma dq_event r ty p t s v (Q : unit → dispatcher → Prop) E :
  views s v → job_ok r → truthy ty = true → (∀ s', views s' v → Q tt s') → wp (append_event cfg r ty p t) Q E s.
Proof.
  intros Hv [Hid Hn] Ht HQ. pose proof (quiet_append_event cfg r ty p t s) as Hq.
  assert (Hr : (append_event cfg r ty p t s).2 = Ok tt).
  { apply normal_name_facts in Hn as Hf. destruct Hf as (_ & _ & Htr & _).
    unfold append_event. erewrite mbind_ok by reflexivity.
    assert (Hne : ∀ id, truthy id = true →
      new_job_event (MkJobEvent id (jr_job_id r) (jr_agent_name r) ty p t (jr_target_kind r) (jr_target_name r)) =
      Ok (MkJobEvent id (jr_job_id r) (jr_target_name r) ty p t (jr_target_kind r) (jr_target_name r))).
    { intros id Hi. unfold new_job_event. cbn. rewrite Hi, Hid, Ht. cbn. unfold or_str.
      by rewrite Htr, normalize_agent_name_normal. }
    rewrite Hne by done. erewrite mbind_ok by reflexivity.
    unfold mbind' at 1, on_jobs, job_event_append. cbn [je_target_name].
    rewrite (mbind_ok _ _ _ (di_jobs s) (jr_target_name r)); [done|].
    unfold mlift. by rewrite normalize_agent_name_normal. }
  unfold wp. destruct (append_event cfg r ty p t s) as [s' o]. cbn in *. subst o.
  apply HQ. unfold views. by rewrite Hq.
Qed.

Lemma dq_latest_target a id s v (Q : option JobRecord → dispatcher → Prop) E :
  views s v → normal_name a = true → (∀ s', views s' v → Q (latest_row (jv_log v a) id) s') →
  wp (on_jobs (get_latest_target a id)) Q E s.
Proof.
  intros Hv Ha HQ. pose proof (quiet_latest_target a id s) as Hq.
  assert (Hr : (on_jobs (get_latest_target a id) s).2 = Ok (latest_row (jv_log v a) id)).
  { unfold on_jobs, get_latest_target, mbind', mlift. rewrite normalize_agent_name_normal by done. cbn.
    f_equal. pose proof (jv_same_log _ _ Hv a) as El. cbn in El. by rewrite El. }
  unfold wp. destruct (on_jobs (get_latest_target a id) s) as [s' o]. cbn in *. subst o.
  apply HQ. unfold views. by rewrite Hq.
Qed.

Lemma dq_find_job id s v (Q : option JobRecord → dispatcher → Prop) E names :
  views s v → Forall (λ a, normal_name a = true) names → (∀ a, latest_row (jv_log v a) id = None) →
  (∀ s', views s' v → Q None s') → wp (find_job names id) Q E s.
Proof.
  intros Hv Hn Hl HQ. revert s Hv. induction Hn as [|a names Ha _ IH]; intros s Hv; [by apply HQ|].
  cbn. apply wp_bind. eapply dq_latest_target; [done..|]. intros s' Hv'. rewrite Hl. by apply IH.
Qed.

Lemma dq_get_job X id s v (Q : option JobRecord → dispatcher → Prop) E :
  vgood X v → views s v → (∀ s', views s' v → Q (known_row v id) s') → wp (get_job cfg id) Q E s.
Proof.
  intros H Hv HQ. unfold get_job. apply wp_bind.
  apply (wp_run _ _ s (q_index (di_queues s) !! id)); [by destruct s|].
  pose proof (jv_same_index _ _ Hv id) as Ei. cbn in Ei. rewrite Ei.
  pose proof (is_index _ _ (vg_step _ _ _ H)) as Hx. cbn in Hx.
  unfold known_row in HQ. destruct (jv_index v id) as [sl|] eqn:E'.
  - apply Hx in E'. apply elem_of_ids in E' as (r & Hr & _).
    eapply dq_latest_target; [done| |done]. by apply (row_normal agents agents_normal X v sl.2 r).
  - eapply dq_find_job; [done|done| |done]. intros a. apply latest_row_none. intros Hi.
    apply (Hx id (agent_slot a)) in Hi. congruence.
Qed.

(** ** Admission *)

Definition admitted_view r v : jview := add_item (slot_of r) (jr_job_id r) (push_row r v).

Lemma dq_admit j ty p t s v (Q : unit → dispatcher → Prop) E :
  views s v → job_ok j → truthy ty = true → (∀ s', views s' (admitted_view j v) → Q tt s') →
  wp (do* append_job j in do* append_event cfg j ty p t in on_queues (enqueue_for (slot_of j) (jr_job_id j))) Q E s.
Proof.
  intros Hv Ho Ht HQ. apply wp_bind. eapply dq_append_job; [exact Hv|apply Ho|].
  clear dependent s. intros s Hv. apply wp_bind. eapply dq_event; [done..|]. clear dependent s. intros s Hv.
  by eapply dq_enqueue.
Qed.

(** ** The start *)

Lemma begin_running_effect j t s v (Q : JobRecord → dispatcher → Prop) (E : exn → dispatcher → Prop) :
  views s v → normal_name (jr_target_name j) = true →
  (∀ e s', views s' v → E e s') →
  (∀ r e s', jr_job_id r = jr_job_id j → slot_of r = slot_of j → jr_status r = JS_RUNNING →
     views s' (push_row r v) → E e s') →
  (∀ r e s', jr_job_id r = jr_job_id j → slot_of r = slot_of j → jr_status r = JS_RUNNING → job_ok r →
     views s' (put_active (slot_of r) (Some (jr_job_id r)) (push_row r v)) → E e s' ∧ Q r s') →
  wp (begin_running_job cfg j t) Q E s.
Proof.
  intros Hv Hn He1 He2 HQ. unfold begin_running_job. apply wp_bind, wp_lift.
  destruct (job_replace _ _ _ _ _) as [r|] eqn:Er; [|by eapply He1].
  apply job_replace_facts in Er as (Hid & Hsl & Hst & Ho); [|done].
  specialize (He2 r). specialize (HQ r).
  dq_skip. apply wp_bind. eapply dq_append_job; [done|apply Ho|]. clear dependent s s0. intros s' Hv'.
  apply wp_bind. eapply dq_event; [done..|]. clear dependent s'. intros s Hv.
  apply wp_bind. eapply (dq_wp_quiet _ s); [eauto with quiet|exact Hv| |by eauto].
  clear dependent s. intros _ s Hv. apply wp_bind. eapply dq_mark; [done|]. clear dependent s. intros s Hv.
  apply wp_bind. eapply (dq_wp_quiet _ s); [eauto with quiet|exact Hv| |].
  - clear dependent s. intros _ s Hv. apply wp_ret. by apply (HQ (Exn Unmodelled "")).
  - intros e s' Hv'. by apply HQ.
Qed.

(** ** The end *)

Lemma write_terminal_effect j d p st c t s v (Q : JobRecord → dispatcher → Prop) (E : exn → dispatcher → Prop) :
  views s v → normal_name (jr_target_name j) = true → job_terminal st = true →
  (∀ e s', views s' v → E e s') →
  (∀ r s', jr_job_id r = jr_job_id j → slot_of r = slot_of j → jr_status r = st → job_ok r →
     views s' (push_row r v) → Q r s') →
  wp (write_terminal cfg j d p st c t) Q E s.
Proof.
  intros Hv Hn Hst' HE HQ. unfold write_terminal. dq_skip. dq_skip. dq_skip. dq_skip.
  apply wp_bind, wp_lift. destruct (job_replace _ _ _ _ _) as [r|] eqn:Er; [|by eapply HE].
  apply job_replace_facts in Er as (Hid & Hsl & Hst & Ho); [|done].
  apply wp_bind. eapply dq_append_job; [done|apply Ho|]. clear dependent s s0 s1 s2 s3. intros s Hv.
  apply wp_bind, wp_lift. destruct (TERMINAL_EVENT st) as [ty|] eqn:Ety; [|by destruct st].
  apply wp_bind. eapply dq_event; [done..| |]; [by destruct st; try done; injection Ety as <-|].
  clear dependent s. intros s Hv. apply wp_ret. by apply HQ.
Qed.

Lemma persist_effect j d t s v (Q : _ → dispatcher → Prop) (E : exn → dispatcher → Prop) :
  views s v → normal_name (jr_target_name j) = true → (∀ e s', views s' v → E e s') →
  (∀ x s', jr_job_id x.1.1 = jr_job_id j → slot_of x.1.1 = slot_of j → job_terminal (jr_status x.1.1) = true →
     job_ok x.1.1 → views s' (clear_if (slot_of x.1.1) (jr_job_id x.1.1) (push_row x.1.1 v)) → Q x s') →
  wp (persist_terminal_completion cfg j d t) Q E s.
Proof.
  intros Hv Hn HE HQ. unfold persist_terminal_completion. dq_skip. dq_skip. dq_skip. apply wp_bind.
  assert (Hst' : ∀ st, job_terminal (status_of_decision st) = true) by by intros [].
  eapply write_terminal_effect; [done..|]. intros r s' Hid Hsl Hst Ho Hv'.
  apply wp_bind. eapply dq_clear; [done|]. intros s'' Hv''. apply wp_ret. apply HQ; cbn; [done..| |done|].
  - by rewrite Hst.
  - by rewrite Hid, Hsl.
Qed.

Definition row_of j r : Prop :=
  jr_job_id r = jr_job_id j ∧ slot_of r = slot_of j ∧ jr_status r = jr_status j ∧ job_ok r.

Lemma reply_decision_effect j t d p f s v (Q : JobRecord → dispatcher → Prop) (E : exn → dispatcher → Prop) :
  views s v → normal_name (jr_target_name t) = true → (∀ e s', views s' v → E e s') →
  (∀ r s', row_of t r → views s' (push_row r v) → Q r s' ∧ ∀ e, E e s') →
  wp (persist_reply_decision cfg j t d p f) Q E s.
Proof.
  intros Hv Hn HE HQ. unfold persist_reply_decision.
  apply wp_bind, wp_lift. destruct (job_replace _ _ _ _ _) as [r|] eqn:Er; [|by eapply HE].
  apply job_replace_facts in Er as (Hid & Hsl & Hst & Ho); [|done].
  assert (Hr : row_of t r) by (by split). clear HE.
  assert (HE : ∀ e s', views s' (push_row r v) → E e s') by (intros; by eapply HQ).
  apply wp_bind. eapply dq_append_job; [done|apply Ho|]. clear dependent s. intros s Hv.
  dq_skip. dq_skip. apply wp_ret. by apply HQ.
Qed.

Lemma delegated_effect j e f s v (Q : JobRecord → dispatcher → Prop) (E : exn → dispatcher → Prop) :
  views s v → normal_name (jr_target_name j) = true → (∀ e s', views s' v → E e s') →
  (∀ r s', row_of j r → views s' (push_row r v) → Q r s') →
  wp (persist_delegated_terminal_job cfg j e f) Q E s.
Proof.
  intros Hv Hn HE HQ. unfold persist_delegated_terminal_job.
  apply wp_bind, wp_lift. destruct (job_replace _ _ _ _ _) as [r|] eqn:Er; [|by eapply HE].
  apply job_replace_facts in Er as (Hid & Hsl & Hst & Ho); [|done].
  apply wp_bind. eapply dq_append_job; [done|apply Ho|]. clear dependent s. intros s Hv.
  apply wp_bind. eapply dq_event; [done..|]. clear dependent s. intros s Hv. apply wp_ret. by apply HQ.
Qed.

(** ** Cancellation *)

Lemma request_cancel_effect X id s v (Q : CancelReceipt + JobRecord → dispatcher → Prop) (E : exn → dispatcher → Prop) :
  vgood X v → views s v → (∀ e s', views s' v → E e s') → (∀ x s', views s' v → Q (inl x) s') →
  (∀ j m s', known_row v id = Some j → job_terminal (jr_status j) = false → row_of j m →
     views s' (push_row m v) → Q (inr m) s') →
  wp (request_cancel cfg id) Q E s.
Proof.
  intros H Hv HE Hl Hr. unfold request_cancel. apply wp_bind. eapply dq_get_job; [done..|].
  clear dependent s. intros s Hv. destruct (known_row v id) as [j|] eqn:Ej; [|by eapply HE].
  destruct (bool_decide (jr_status j = JS_CANCELLED)).
  { dq_skip. by apply wp_ret, Hl. }
  destruct (job_terminal (jr_status j)) eqn:Et; [by eapply HE|]. dq_skip.
  destruct (known_facts agents agents_normal _ _ _ _ H Ej) as (Hid & _ & Hn & _).
  apply wp_bind, wp_lift. destruct (job_replace _ _ _ _ _) as [m|] eqn:Er; [|by eapply HE].
  apply job_replace_facts in Er as (Hid' & Hsl & Hst & Ho); [|done].
  apply wp_bind. eapply dq_append_job; [done|apply Ho|]. clear dependent s s0. intros s Hv.
  apply wp_bind. eapply dq_event; [done..|]. clear dependent s. intros s Hv. apply wp_ret. by eapply Hr.
Qed.

Lemma cancel_effect X j t d p s v (Q : _ → dispatcher → Prop) (E : exn → dispatcher → Prop) :
  vgood X v → views s v → (∀ e s', views s' v → E e s') → (∀ x s', views s' v → Q (inl x) s') →
  (∀ c x s', known_row v (jr_job_id j) = Some c → job_terminal (jr_status c) = false →
     jr_job_id x.1 = jr_job_id c → slot_of x.1 = slot_of c → jr_status x.1 = JS_CANCELLED → job_ok x.1 →
     views s' (end_view x.1 v) → Q (inr x) s') →
  wp (cancel_terminal cfg j t d p) Q E s.
Proof.
  intros H Hv HE Hl Hr. unfold cancel_terminal. apply wp_bind. eapply dq_get_job; [done..|].
  clear dependent s. intros s Hv. destruct (known_row v (jr_job_id j)) as [c|] eqn:Ec; [|by eapply HE].
  destruct (bool_decide (jr_status c = JS_CANCELLED)).
  { dq_skip. by apply wp_ret, Hl. }
  destruct (job_terminal (jr_status c)) eqn:Et; [by eapply HE|]. dq_skip.
  destruct (known_facts agents agents_normal _ _ _ _ H Ec) as (Hc & _ & Hn & _).
  apply wp_bind. eapply write_terminal_effect; [done..|].
  intros r s' Hid Hsl Hst Ho Hv'. apply wp_bind. eapply dq_remove; [done|]. intros _ s2 Hv2.
  apply wp_bind. eapply dq_clear; [done|]. intros s3 Hv3. apply wp_ret. rewrite <-Hid, <-Hsl in Hv3.
  by eapply Hr.
Qed.
End ops.
