(* ===== verification/DispatchKeeps.v ===== *)
(** Computations that keep the dispatcher's memory good: those that at most add jobs
    ([Grows]), and those that may end jobs as well ([Moves]).  Both ways of ending count: an
    exception leaves the memory as good as a value does. *)

From Stdlib Require Import Ascii String ZArith Lia.
From stdpp Require Import base gmap list strings functions.
From S2P Require Import Prelude PyData Names Storage CompletionModels Jobs Api JobStore BureauModels BureauState Completion Artifacts DispatchState DispatchPolicy Dispatch Drain Routing DispatchView DispatchGood DispatchOps.

Local Open Scope Z_scope.

(** ** Identifiers are only drawn *)

Definition mono {A} (m : DM A) : Prop := ∀ s, (di_ids s ≤ di_ids (m s).1)%nat.

Lemma mono_ret {A} (a : A) : mono (mret' a).
Proof. intros s. cbn. lia. Qed.
Lemma mono_lift {A} (r : result A) : mono (mlift r).
Proof. intros s. cbn. lia. Qed.
Lemma mono_raise {A} k msg : mono (mraise k msg : DM A).
Proof. intros s. cbn. lia. Qed.
Lemma mono_get {A} (f : dispatcher → A) : mono (mget f).
Proof. intros s. cbn. lia. Qed.
Lemma mono_bind {A B} (m : DM A) (f : A → DM B) : mono m → (∀ a, mono (f a)) → mono (mbind' m f).
Proof.
  intros Hm Hf s. specialize (Hm s). unfold mbind'. destruct (m s) as [s' [a|e]]; cbn in *; [|done].
  specialize (Hf a s'). lia.
Qed.
Lemma mono_jobs {A} (m : JM A) : mono (on_jobs m).
Proof. intros s. unfold on_jobs. destruct (m _). cbn. lia. Qed.
Lemma mono_queues {A} (m : QM A) : mono (on_queues m).
Proof. intros s. unfold on_queues. destruct (m _). cbn. lia. Qed.
Lemma mono_bureau {A} (m : BM A) : mono (on_bureau m).
Proof. intros s. unfold on_bureau. destruct (m _). cbn. lia. Qed.
Lemma mono_trackers {A} (m : TM A) : mono (on_trackers m).
Proof. intros s. unfold on_trackers. destruct (m _). cbn. lia. Qed.
Lemma mono_artifacts {A} (m : AM A) : mono (on_artifacts m).
Proof. intros s. unfold on_artifacts. destruct (m _). cbn. lia. Qed.
Lemma mono_snapshot p : mono (set_snapshot p).
Proof. intros s. cbn. lia. Qed.
Lemma mono_runtime a r : mono (set_runtime a r).
Proof. intros s. cbn. lia. Qed.
Lemma mono_dirty : mono mark_project_view_dirty.
Proof. intros s. cbn. lia. Qed.
Lemma mono_fresh cfg pre : mono (fresh_id cfg pre).
Proof. intros s. cbn. lia. Qed.
Lemma mono_clock cfg : mono (clock cfg).
Proof. intros s. cbn. lia. Qed.
Lemma mono_attempted {A} (m : DM A) : mono m → mono (attempted m).
Proof. intros H s. specialize (H s). unfold attempted. by destruct (m s) as [s' [a|e]]. Qed.
Lemma mono_caught {A} (m : DM A) : mono m → mono (caught m).
Proof. intros H s. specialize (H s). unfold caught. by destruct (m s) as [s' [a|e]]. Qed.

Create HintDb mono.
#[export] Hint Resolve mono_ret mono_lift mono_raise mono_get mono_jobs mono_queues mono_bureau mono_trackers
  mono_artifacts mono_snapshot mono_runtime mono_dirty mono_fresh mono_clock : mono.

(** Break a computation into its steps; [leaf] closes the steps that are known. *)
Ltac mono_step :=
  first
    [ solve [eauto 2 with mono]
    | apply mono_bind; [|intros ?]
    | apply mono_attempted
    | apply mono_caught
    | match goal with
      | |- mono (match ?x with _ => _ end) => destruct x
      | |- mono (if ?x then _ else _) => destruct x
      end ].
Ltac mono_solve := repeat (cbv zeta; mono_step).

Section mono_operations.
Context (cfg : dconfig).

Lemma mono_find_job names id : mono (find_job names id).
Proof. induction names as [|a names IH]; cbn [find_job]; mono_solve. Qed.
Hint Resolve mono_find_job : mono.
Lemma mono_get_job id : mono (get_job cfg id).
Proof. unfold get_job. mono_solve. Qed.
Lemma mono_append_job r : mono (append_job r).
Proof. unfold append_job. mono_solve. Qed.
Lemma mono_append_event r ty p t : mono (append_event cfg r ty p t).
Proof. unfold append_event. mono_solve. Qed.
Lemma mono_registry a : mono (registry_get a).
Proof. unfold registry_get. mono_solve. Qed.
Hint Resolve mono_get_job mono_append_job mono_append_event mono_registry : mono.
Lemma mono_sync a st : mono (sync_runtime cfg a st).
Proof. unfold sync_runtime, registry_upsert. mono_solve. Qed.
Lemma mono_family a : mono (profile_family cfg a).
Proof. unfold profile_family. mono_solve. Qed.
Lemma mono_write_completion id a f st d t : mono (write_completion cfg id a f st d t).
Proof. unfold write_completion. mono_solve. Qed.
Hint Resolve mono_sync mono_family mono_write_completion : mono.
Lemma mono_running_snapshot r t : mono (write_running_snapshot cfg r t).
Proof. unfold write_running_snapshot, write_pending. mono_solve. Qed.
Lemma mono_tracker_view r t u : mono (apply_tracker_view cfg r t u).
Proof. unfold apply_tracker_view, snapshot_load, resolve_tracker_timestamp. mono_solve. Qed.
Lemma mono_merged id d p : mono (merged_decision cfg id d p).
Proof. unfold merged_decision. mono_solve. Qed.
Lemma mono_spill r d t : mono (spill_terminal_reply_if_needed cfg r d t).
Proof. unfold spill_terminal_reply_if_needed. mono_solve. Qed.
Lemma mono_build draft id sub t : mono (build_job_record draft id sub t).
Proof. unfold build_job_record, pending_status_for. mono_solve. Qed.
Lemma mono_enqueue j st t : mono (enqueue_submitted_job cfg j st t).
Proof. unfold enqueue_submitted_job. mono_solve. Qed.
Hint Resolve mono_running_snapshot mono_merged mono_spill : mono.
Lemma mono_persist j d t : mono (persist_terminal_completion cfg j d t).
Proof. unfold persist_terminal_completion, snapshot_load, write_terminal. mono_solve. Qed.
Lemma mono_reply_decision j t d p f : mono (persist_reply_decision cfg j t d p f).
Proof. unfold persist_reply_decision. mono_solve. Qed.
Lemma mono_delegated j e f : mono (persist_delegated_terminal_job cfg j e f).
Proof. unfold persist_delegated_terminal_job. mono_solve. Qed.
Lemma mono_request_cancel id : mono (request_cancel cfg id).
Proof. unfold request_cancel. mono_solve. Qed.
Lemma mono_cancel_terminal j t d p : mono (cancel_terminal cfg j t d p).
Proof. unfold cancel_terminal, write_terminal. mono_solve. Qed.
Lemma mono_begin j t : mono (begin_running_job cfg j t).
Proof. unfold begin_running_job. mono_solve. Qed.
End mono_operations.
#[export] Hint Resolve mono_find_job mono_get_job mono_append_job mono_append_event mono_registry mono_sync mono_family
  mono_write_completion mono_running_snapshot mono_tracker_view mono_merged mono_spill mono_build mono_enqueue
  mono_persist mono_reply_decision mono_delegated mono_request_cancel mono_cancel_terminal mono_begin : mono.

(** ** More quiet steps *)

Lemma quiet_moment : quiet moment.
Proof. apply quiet_get. Qed.
Lemma quiet_attempted {A} (m : DM A) : quiet m → quiet (attempted m).
Proof. intros H s. specialize (H s). unfold attempted. by destruct (m s) as [s' [a|e]]. Qed.
Lemma quiet_caught {A} (m : DM A) : quiet m → quiet (caught m).
Proof. intros H s. specialize (H s). unfold caught. by destruct (m s) as [s' [a|e]]. Qed.
Lemma quiet_registry a : quiet (registry_get a).
Proof. unfold registry_get. quiet_solve. Qed.
Lemma quiet_list_agent a : quiet (on_jobs (list_agent a)).
Proof. apply quiet_jobs. intros j. unfold list_agent, list_target, mbind', mlift. by destruct (normalize_agent_name _). Qed.
Lemma quiet_events_since a n : quiet (on_jobs (job_events_read_since a n)).
Proof.
  apply quiet_jobs. intros j. unfold job_events_read_since, mbind', mlift. destruct (normalize_agent_name _); [|done].
  by destruct (n <? 0).
Qed.
Lemma quiet_submission_get id : quiet (on_jobs (submission_get_latest id)).
Proof. by apply quiet_jobs. Qed.
Lemma quiet_submission_append r : quiet (on_jobs (submission_append r)).
Proof. by apply quiet_jobs. Qed.
#[export] Hint Resolve quiet_moment quiet_registry quiet_list_agent quiet_events_since quiet_submission_get
  quiet_submission_append : quiet.
Lemma mono_moment : mono moment.
Proof. apply mono_get. Qed.
#[export] Hint Resolve mono_moment : mono.

(** ** Good memory *)

Section keeps.
Context (cfg : dconfig).
Hypothesis agents_normal : Forall (λ a, normal_name a = true) (dc_agents cfg).
(** Identifiers do not repeat. *)
Hypothesis hex_injective : ∀ m n, dc_hex cfg m = dc_hex cfg n → m = n.

Implicit Types (s : dispatcher) (X : list string).
Abbreviation agents := (dc_agents cfg).

Definition job_name (n : nat) : string := String.append "job" (String.append "_" (dc_hex cfg n)).

Lemma job_name_inj m n : job_name m = job_name n → m = n.
Proof. unfold job_name. cbn. intros [= H]. by apply hex_injective. Qed.

(** The identifiers still to be drawn are nobody's. *)
Definition unused (n : nat) (v : jview) : Prop := ∀ m a, (n ≤ m)%nat → job_name m ∉ ids (jv_log v a).

Definition good X s : Prop := vgood agents X (jview_of s) ∧ unused (di_ids s) (jview_of s).

Definition known s (id : string) : option JobRecord := known_row (jview_of s) id.
Definition ended s (id : string) : Prop := vended (jview_of s) id.
Definition vruns (v : jview) (id : string) : Prop :=
  ∃ r, known_row v id = Some r ∧ running_status (jr_status r) = true.
Definition runs s (id : string) : Prop := vruns (jview_of s) id.

Record grows X s s' : Prop := {
  gr_good : good X s';
  gr_known : ∀ id r, known s id = Some r → known s' id = Some r;
  gr_runs : ∀ id, runs s' id → runs s id;
}.

Record moves X s s' : Prop := {
  mv_good : good X s';
  mv_known : ∀ id r, known s id = Some r → ∃ r', known s' id = Some r' ∧ slot_of r' = slot_of r ∧
    (job_terminal (jr_status r) = true → job_terminal (jr_status r') = true) ∧
    (pending_status (jr_status r') = true → pending_status (jr_status r) = true);
  mv_runs : ∀ id, runs s' id → runs s id;
}.

Lemma mv_ended X s s' id : moves X s s' → ended s id → ended s' id.
Proof. intros H (r & Hr & Ht). destruct (mv_known _ _ _ H id r Hr) as (r' & Hr' & _ & H' & _). exists r'. auto. Qed.

Lemma grows_moves X s s' : grows X s s' → moves X s s'.
Proof. intros [H1 H2 H3]. split; [done| |done]. intros id r Hr. exists r. split; [by apply H2|done]. Qed.

Lemma grows_refl X s : good X s → grows X s s.
Proof. by split. Qed.
Lemma grows_trans X s1 s2 s3 : grows X s1 s2 → grows X s2 s3 → grows X s1 s3.
Proof. intros [H1 H2 H3] [K1 K2 K3]. split; auto. Qed.
Lemma moves_refl X s : good X s → moves X s s.
Proof. intros H. by apply grows_moves, grows_refl. Qed.
Lemma moves_trans X Y s1 s2 s3 : moves X s1 s2 → moves Y s2 s3 → moves Y s1 s3.
Proof.
  intros [H1 H2 H3] [K1 K2 K3]. split; [done| |auto]. intros id r (r' & Hr' & Hs & Ht & Hp)%H2.
  destruct (K2 id r' Hr') as (r2 & Hr2 & Hs2 & Ht2 & Hp2). exists r2. split; [done|]. split; [congruence|auto].
Qed.

Definition Grows X {A} (m : DM A) : Prop := ∀ s, good X s → grows X s (m s).1.
Definition Moves X {A} (m : DM A) : Prop := ∀ s, good X s → moves X s (m s).1.

Lemma Grows_Moves X {A} (m : DM A) : Grows X m → Moves X m.
Proof. intros H s Hs. by apply grows_moves, H. Qed.

Lemma good_views X s v : views s v → vgood agents X v → unused (di_ids s) v → good X s.
Proof.
  intros Hv H Hu. unfold good, views in *. split; [by rewrite Hv|]. intros m a Hm.
  pose proof (jv_same_log _ _ Hv a) as E. rewrite E. by apply Hu.
Qed.

Lemma unused_le n n' v : (n ≤ n')%nat → unused n v → unused n' v.
Proof. intros H Hu m a Hm. apply Hu. lia. Qed.

Lemma known_views s v id : views s v → known s id = known_row v id.
Proof. intros Hv. by apply known_row_equiv. Qed.

(** Nothing seen has changed. *)
Lemma grows_same X s s' :
  good X s → views s' (jview_of s) → (di_ids s ≤ di_ids s')%nat → grows X s s'.
Proof.
  intros [Hg Hu] Hv Hi. split.
  - eapply good_views; [exact Hv|done|by eapply unused_le].
  - intros id r Hr. by rewrite (known_views _ _ _ Hv).
  - intros id (r & Hr & Ht). exists r. change (known s' id = Some r) in Hr. by rewrite (known_views _ _ _ Hv) in Hr.
Qed.

Lemma Grows_quiet X {A} (m : DM A) : quiet m → mono m → Grows X m.
Proof. intros Hq Hm s Hs. apply grows_same; [done|apply Hq|apply Hm]. Qed.

(** ** Rules *)

Lemma Grows_bind_ok X {A B} (m : DM A) (f : A → DM B) :
  Grows X m → (∀ a, (∃ s, good X s ∧ (m s).2 = Ok a) → Grows X (f a)) → Grows X (mbind' m f).
Proof.
  intros Hm Hf s Hs. pose proof (Hm s Hs) as H. specialize (Hf : ∀ a, _).
  unfold mbind'. destruct (m s) as [s' [a|e]] eqn:E; cbn in *; [|done].
  eapply grows_trans; [exact H|]. apply Hf; [|apply H]. exists s. by rewrite E.
Qed.

Lemma Grows_bind X {A B} (m : DM A) (f : A → DM B) :
  Grows X m → (∀ a, Grows X (f a)) → Grows X (mbind' m f).
Proof. intros Hm Hf. apply Grows_bind_ok; auto. Qed.

Lemma Moves_bind X {A B} (m : DM A) (f : A → DM B) :
  Moves X m → (∀ a, Moves X (f a)) → Moves X (mbind' m f).
Proof.
  intros Hm Hf s Hs. pose proof (Hm s Hs) as H.
  unfold mbind'. destruct (m s) as [s' [a|e]] eqn:E; cbn in *; [|done].
  eapply moves_trans; [exact H|]. apply Hf, H.
Qed.

Lemma Grows_attempted X {A} (m : DM A) : Grows X m → Grows X (attempted m).
Proof. intros H s Hs. specialize (H s Hs). unfold attempted. by destruct (m s) as [s' [a|e]]. Qed.
Lemma Grows_caught X {A} (m : DM A) : Grows X m → Grows X (caught m).
Proof. intros H s Hs. specialize (H s Hs). unfold caught. by destruct (m s) as [s' [a|e]]. Qed.
Lemma Moves_attempted X {A} (m : DM A) : Moves X m → Moves X (attempted m).
Proof. intros H s Hs. specialize (H s Hs). unfold attempted. by destruct (m s) as [s' [a|e]]. Qed.
Lemma Moves_caught X {A} (m : DM A) : Moves X m → Moves X (caught m).
Proof. intros H s Hs. specialize (H s Hs). unfold caught. by destruct (m s) as [s' [a|e]]. Qed.

Lemma wp_grows X {A} (m : DM A) s (Q : A → dispatcher → Prop) E :
  Grows X m → good X s → (∀ a s', grows X s s' → Q a s') → (∀ e s', grows X s s' → E e s') → wp m Q E s.
Proof. intros H Hs HQ HE. specialize (H s Hs). unfold wp. destruct (m s) as [s' [a|e]]; auto. Qed.

Lemma wp_moves X {A} (m : DM A) s (Q : A → dispatcher → Prop) E :
  Moves X m → good X s → (∀ a s', moves X s s' → Q a s') → (∀ e s', moves X s s' → E e s') → wp m Q E s.
Proof. intros H Hs HQ HE. specialize (H s Hs). unfold wp. destruct (m s) as [s' [a|e]]; auto. Qed.

Lemma Grows_wp X {A} (m : DM A) :
  (∀ s, good X s → wp m (λ _, grows X s) (λ _, grows X s) s) → Grows X m.
Proof. intros H s Hs. specialize (H s Hs). unfold wp in H. by destruct (m s) as [s' [a|e]]. Qed.
Lemma Moves_wp X {A} (m : DM A) :
  (∀ s, good X s → wp m (λ _, moves X s) (λ _, moves X s) s) → Moves X m.
Proof. intros H s Hs. specialize (H s Hs). unfold wp in H. by destruct (m s) as [s' [a|e]]. Qed.

(** What the effect of an operation on views comes to, with the identifiers drawn. *)
Lemma wp_mono_ids {A} (m : DM A) s (Q : A → dispatcher → Prop) E :
  mono m → wp m (λ a s', (di_ids s ≤ di_ids s')%nat → Q a s') (λ e s', (di_ids s ≤ di_ids s')%nat → E e s') s → wp m Q E s.
Proof. intros Hm H. specialize (Hm s). unfold wp in *. destruct (m s) as [s' [a|e]]; auto. Qed.

(** [get_job] changes nothing and finds the job. *)
Lemma wp_get_job X id s (Q : option JobRecord → dispatcher → Prop) E :
  good X s → (∀ s', grows X s s' → Q (known s id) s') → wp (get_job cfg id) Q E s.
Proof.
  intros Hs HQ. apply wp_mono_ids; [eauto with mono|].
  eapply (dq_get_job cfg agents_normal X); [apply Hs|by unfold views|].
  intros s' Hv Hi. apply HQ. by apply grows_same.
Qed.

Lemma Grows_get_job X id : Grows X (get_job cfg id).
Proof.
  intros s Hs. pose proof (wp_get_job X id s (λ _, grows X s) (λ _, grows X s) Hs (λ _ H, H)) as H.
  unfold wp in H. by destruct (get_job cfg id s) as [s' [a|e]].
Qed.
End keeps.
