(* ===== verification/DispatchGrows.v ===== *)
(** The operations that at most add jobs: routing, submissions, retries, chains, and the
    delivery of replies.  Each keeps the memory good, whether it ends normally or raises.

    The operations that at most add jobs, one after the other: each keeps the memory good,
    whether it ends normally or raises. *)

From Stdlib Require Import Ascii String ZArith Lia.
From stdpp Require Import base gmap list strings functions.
From S2P Require Import Prelude PyData Names Storage MailboxModels MailboxKernel CompletionModels Jobs Api JobStore BureauModels BureauState Bureau Completion Artifacts DispatchState DispatchPolicy Dispatch Drain Routing Chains Continuations Submission Deliveries Finalize DispatchView DispatchGood DispatchOps DispatchKeeps.

Local Open Scope Z_scope.

(** What a computation gives, from whatever state. *)
Definition yields {A} (m : DM A) (P : A → Prop) : Prop := ∀ s a, (m s).2 = Ok a → P a.

Lemma yields_bind {A B} (m : DM A) (f : A → DM B) (P : B → Prop) :
  (∀ a, yields (f a) P) → yields (mbind' m f) P.
Proof. intros H s b. unfold mbind'. destruct (m s) as [s' [a|e]]; [apply H|done]. Qed.
Lemma yields_ret {A} (a : A) (P : A → Prop) : P a → yields (mret' a) P.
Proof. by intros H s b [= <-]. Qed.
Lemma yields_raise {A} k msg (P : A → Prop) : yields (mraise k msg) P.
Proof. by intros s b. Qed.
Lemma yields_lift {A} (r : result A) (P : A → Prop) : (∀ a, r = Ok a → P a) → yields (mlift r) P.
Proof. intros H s a E. by apply H. Qed.

Ltac yields_step :=
  first
    [ match goal with
      | |- yields (mbind' _ _) _ => apply yields_bind; intros ?
      | |- yields (mraise _ _) _ => apply yields_raise
      | |- yields (dispatch_error _) _ => apply yields_raise
      | |- yields (match ?x with _ => _ end) _ => destruct x
      | |- yields (if ?x then _ else _) _ => destruct x
      end ].

(** Quiet and [mono] at once, for the operations that look up no job. *)
Ltac calm_solve := split; [quiet_solve|mono_solve].
Definition calm {A} (m : DM A) : Prop := quiet m ∧ mono m.

Section calm_operations.
Context (cfg : dconfig) (ou : outside).

Lemma calm_drain_blocks a : calm (drain_blocks_dispatch ou a).
Proof. unfold drain_blocks_dispatch. calm_solve. Qed.
Lemma calm_enabled a : calm (ensure_dispatch_enabled cfg ou a).
Proof. unfold ensure_dispatch_enabled, rejected, drain_blocks_dispatch. calm_solve. Qed.
Lemma calm_disabled a : calm (dispatch_disabled cfg ou a).
Proof. unfold dispatch_disabled, drain_blocks_dispatch. calm_solve. Qed.
Lemma calm_available a : calm (validate_target_available cfg ou a).
Proof. unfold validate_target_available, ensure_dispatch_enabled, rejected, drain_blocks_dispatch. calm_solve. Qed.
Lemma calm_ready a : calm (ensure_agent_target_ready cfg ou a).
Proof. unfold ensure_agent_target_ready, rejected. calm_solve. Qed.
Lemma calm_body_artifact r : calm (validate_request_body_artifact cfg r).
Proof.
  unfold validate_request_body_artifact, dispatch_error.
  assert (Hq : ∀ a, quiet (attempted (on_artifacts (validate_text_artifact_ref (dc_artifacts cfg) a))))
    by (intros a; apply quiet_attempted, quiet_artifacts).
  split; [|mono_solve].
  destruct (me_body_artifact r) as [[|e d]|]; [destruct (should_spill_text _ _); quiet_solve| |
    destruct (should_spill_text _ _); quiet_solve].
  destruct (should_spill_text _ _); [quiet_solve|]. apply quiet_bind; [apply Hq|]. intros [u|x]; quiet_solve.
Qed.
Lemma calm_latest a : calm (latest_for_agent a).
Proof. unfold latest_for_agent. calm_solve. Qed.
Lemma calm_rules draft id sub t : calm (build_job_record draft id sub t).
Proof. unfold build_job_record, pending_status_for. calm_solve. Qed.
Lemma calm_append_submission sub id t : calm (append_submission_job sub id t).
Proof. unfold append_submission_job. calm_solve. Qed.
Lemma calm_submission_id r : calm (submission_id_for cfg r).
Proof. unfold submission_id_for. calm_solve. Qed.
Lemma calm_plan_for r targets o : calm (plan_for cfg ou r targets o).
Proof. unfold plan_for, submission_id_for. calm_solve. Qed.
Lemma calm_lineage id l : calm (require_attempt_lineage id l).
Proof. unfold require_attempt_lineage, dispatch_error. calm_solve. Qed.
Lemma calm_no_active l : calm (ensure_no_active_attempts l).
Proof. unfold ensure_no_active_attempts, dispatch_error. calm_solve. Qed.
Lemma calm_resolve_retry t : calm (resolve_retry_attempt t).
Proof. unfold resolve_retry_attempt, dispatch_error. calm_solve. Qed.
Lemma calm_tree r p : calm (bind_callback_workspace_tree ou r p).
Proof. unfold bind_callback_workspace_tree, dispatch_error. calm_solve. Qed.
Lemma calm_continuation_target p a : calm (validate_callback_continuation_target p a).
Proof. unfold validate_callback_continuation_target, dispatch_error. calm_solve. Qed.
Lemma calm_chain p a : calm (validate_callback_chain ou p a).
Proof. unfold validate_callback_chain, dispatch_error. calm_solve. Qed.
Lemma calm_repair_attempt e j : calm (repair_pending_continuation_attempt cfg e j).
Proof. unfold repair_pending_continuation_attempt. calm_solve. Qed.
Lemma calm_outstanding id : calm (job_is_outstanding id).
Proof. unfold job_is_outstanding. calm_solve. Qed.
Lemma calm_waits e : calm (pending_edge_waits_on_child e).
Proof. unfold pending_edge_waits_on_child, job_is_outstanding. calm_solve. Qed.
Lemma calm_candidate e : calm (repair_candidate e).
Proof. unfold repair_candidate, pending_edge_waits_on_child, job_is_outstanding. calm_solve. Qed.
Lemma calm_queued_continuation e : calm (queued_continuation_job e).
Proof. unfold queued_continuation_job. calm_solve. Qed.
Lemma calm_head a : calm (head_reply_event a).
Proof. unfold head_reply_event. calm_solve. Qed.
Lemma calm_rewrite h r d t : calm (rewrite_reply_head cfg h r d t).
Proof. unfold rewrite_reply_head. calm_solve. Qed.
Lemma calm_requeues j e : calm (transport_requeue_count j e).
Proof. unfold transport_requeue_count. calm_solve. Qed.
Lemma calm_consume j e t : calm (consume_reply cfg j e t).
Proof. unfold consume_reply. calm_solve. Qed.
Lemma calm_disposition j e : calm (terminal_disposition j e).
Proof. unfold terminal_disposition, transport_requeue_count. calm_solve. Qed.
Lemma calm_delivery_terminal j t : calm (resolve_reply_delivery_terminal cfg j t).
Proof.
  unfold resolve_reply_delivery_terminal, terminal_disposition, transport_requeue_count, consume_reply, rewrite_reply_head.
  calm_solve.
Qed.
Lemma calm_claim_delivery j t : calm (claim_reply_delivery_start cfg j t).
Proof. unfold claim_reply_delivery_start, head_reply_event. calm_solve. Qed.
Lemma calm_reset h r a : calm (reset_stale_reply_head cfg h r a).
Proof. unfold reset_stale_reply_head, rewrite_reply_head, head_reply_event. calm_solve. Qed.
Lemma calm_orphan h r a : calm (repair_orphaned_lease cfg h r a).
Proof. unfold repair_orphaned_lease, reset_stale_reply_head, rewrite_reply_head, head_reply_event. calm_solve. Qed.
Lemma calm_released c h r a l : calm (repair_released_head cfg c h r a l).
Proof. unfold repair_released_head, rewrite_reply_head, head_reply_event. calm_solve. Qed.
Lemma calm_stalled c : calm (pending_delivery_is_stalled cfg c).
Proof. unfold pending_delivery_is_stalled, seconds_since. calm_solve. Qed.
Lemma calm_project a : calm (project_id_for_agent ou a).
Proof. unfold project_id_for_agent, latest_for_agent. calm_solve. Qed.
Lemma calm_retry_event c p e t : calm (append_retry_failed_event cfg c p e t).
Proof. unfold append_retry_failed_event. calm_solve. Qed.
Lemma calm_delivery_message r a t p id : calm (append_reply_delivery_message cfg r a t p id).
Proof. unfold append_reply_delivery_message. calm_solve. Qed.

Context `{Execution}.

Lemma calm_live id : calm (execution_job_is_live id).
Proof. unfold execution_job_is_live. calm_solve. Qed.
Lemma calm_persisted id : calm (load_persisted_execution_state id).
Proof. unfold load_persisted_execution_state. calm_solve. Qed.
Lemma calm_unsent c : calm (delivery_never_reached_provider c).
Proof.
  unfold delivery_never_reached_provider, execution_job_is_live. split; [|mono_solve].
  apply quiet_bind; [quiet_solve|]. intros [|]; [quiet_solve|]. apply quiet_bind; [quiet_solve|]. intros n.
  destruct (_ && _); [quiet_solve|]. apply quiet_bind; [apply quiet_caught; quiet_solve|]. intros o. quiet_solve.
Qed.
Lemma calm_leased_over a l : calm (leased_event_over a l).
Proof. unfold leased_event_over. calm_solve. Qed.
End calm_operations.

Create HintDb calm.
#[export] Hint Resolve calm_drain_blocks calm_enabled calm_disabled calm_available calm_ready
  calm_body_artifact calm_latest calm_rules calm_append_submission calm_submission_id calm_plan_for
  calm_lineage calm_no_active calm_resolve_retry calm_tree calm_continuation_target calm_chain
  calm_repair_attempt calm_outstanding calm_waits calm_candidate calm_queued_continuation calm_head
  calm_rewrite calm_requeues calm_consume calm_disposition calm_delivery_terminal calm_claim_delivery
  calm_reset calm_orphan calm_released calm_stalled calm_project calm_retry_event calm_delivery_message
  calm_live calm_persisted calm_unsent calm_leased_over : calm.

(** ** The rules of growth *)

Section grow_rules.
Context (cfg : dconfig).
Hypothesis agents_normal : Forall (λ a, normal_name a = true) (dc_agents cfg).
Hypothesis hex_injective : ∀ m n, dc_hex cfg m = dc_hex cfg n → m = n.

Abbreviation agents := (dc_agents cfg).
Abbreviation Grows := (Grows cfg).
Abbreviation grows := (grows cfg).
Abbreviation good := (good cfg).

Lemma Grows_calm X {A} (m : DM A) : calm m → Grows X m.
Proof. intros [? ?]. by apply Grows_quiet. Qed.

(** The target of a job is an agent of the configuration. *)
Definition target_ok (name : string) : Prop := ∃ a, normalize_agent_name name = Ok a ∧ a ∈ agents.

(** A job that may be admitted. *)
Record admissible (v : jview) (j : JobRecord) : Prop := {
  ad_job : job_ok j;
  ad_target : jr_target_name j ∈ agents;
  ad_pending : pending_status (jr_status j) = true;
  ad_new : ∀ a, jr_job_id j ∉ ids (jv_log v a);
}.

Lemma admissible_views s s' v j : views s' v → views s v → admissible (jview_of s) j → admissible (jview_of s') j.
Proof.
  intros H' H [H1 H2 H3 H4]. split; try done. intros a Hi.
  pose proof (jv_same_log _ _ H' a) as E'. pose proof (jv_same_log _ _ H a) as E. rewrite E', <-E in Hi. by apply H4 in Hi.
Qed.

Lemma build_facts draft id sub t s b :
  (build_job_record draft id sub t s).2 = Ok b → target_ok (jd_target_name draft) →
  job_ok b.1 ∧ jr_target_name b.1 ∈ agents ∧ pending_status (jr_status b.1) = true ∧ jr_job_id b.1 = id.
Proof.
  intros H (a & Ha & Hin).
  assert (Hy : yields (build_job_record draft id sub t) (λ b,
    job_ok b.1 ∧ jr_target_name b.1 ∈ agents ∧ pending_status (jr_status b.1) = true ∧ jr_job_id b.1 = id)); [|by eapply Hy].
  unfold build_job_record, pending_status_for. clear H.
  assert (Hst : ∀ st, pending_status st = true → yields
    (let* job := mlift (new_job (MkJob id sub (jd_agent_name draft) (jd_provider draft) (jd_request draft) st None None
       t t (jd_workspace_path draft) (jd_target_kind draft) (jd_target_name draft)
       (jd_provider_instance draft) (default [] (jd_provider_options draft)))) in mret' (job, st))
    (λ b, job_ok b.1 ∧ jr_target_name b.1 ∈ agents ∧ pending_status (jr_status b.1) = true ∧ jr_job_id b.1 = id)).
  { intros st Hst s0 b0. unfold mbind', mlift. destruct (new_job _) as [j|] eqn:Ej; [|done]. intros [= <-]. cbn [fst].
    apply new_job_facts in Ej as (a' & Ha' & Ho & Ht & _ & Hid & Hs). cbn in *.
    assert (Htr : truthy (jd_target_name draft) = true).
    { destruct (truthy (jd_target_name draft)) eqn:E; [done|]. destruct (jd_target_name draft); [|done]. by cbn in Ha. }
    unfold or_str in Ha'. rewrite Htr, Ha in Ha'. injection Ha' as <-. by rewrite Ht, Hs. }
  intros s0 b0. unfold mbind' at 1 2. destruct (on_queues _ s0) as [s1 [o|e]]; [|done]. unfold mret' at 1.
  by apply Hst; destruct o.
Qed.

(** A fresh identifier and a record: the job may be admitted. *)
Lemma Grows_admission X {B} draft sub t (k : string → JobRecord * JobStatus → DM B) :
  target_ok (jd_target_name draft) →
  (∀ id b s, good X s → admissible (jview_of s) b.1 → jr_job_id b.1 = id →
     (∃ n, (n < di_ids s)%nat ∧ id = job_name cfg n) →
     wp (k id b) (λ _, grows X s) (λ _, grows X s) s) →
  Grows X (let* id := fresh_id cfg "job" in let* b := build_job_record draft id sub t in k id b).
Proof.
  intros Ht Hk s Hs. set (n := di_ids s).
  assert (H1 : grows X s (fresh_id cfg "job" s).1) by (apply Grows_quiet; [apply quiet_fresh|apply mono_fresh|done]).
  unfold mbind' at 1. change (fresh_id cfg "job" s) with ((fresh_id cfg "job" s).1, @Ok string (job_name cfg n)) in *.
  cbn [fst] in H1. set (s1 := (fresh_id cfg "job" s).1) in *. cbn iota.
  pose proof (calm_rules draft (job_name cfg n) sub t) as Hc.
  pose proof (proj1 Hc s1) as Hq. pose proof (proj2 Hc s1) as Hm.
  pose proof (Grows_calm X _ Hc s1 (gr_good _ _ _ _ H1)) as H2.
  unfold mbind'. destruct (build_job_record draft (job_name cfg n) sub t s1) as [s2 [b|e]] eqn:Eb; cbn in H2, Hq, Hm;
    [|by eapply grows_trans].
  assert (Eb' : (build_job_record draft (job_name cfg n) sub t s1).2 = Ok b) by by rewrite Eb.
  apply build_facts in Eb' as (Ho & Hin & Hp & Hid); [|done].
  assert (Ha : admissible (jview_of s2) b.1).
  { split; try done. intros a Hi. pose proof (jv_same_log _ _ Hq a) as E. rewrite E, Hid in Hi.
    destruct Hs as [_ Hu]. by apply (Hu n a) in Hi. }
  specialize (Hk (job_name cfg n) b s2 (gr_good _ _ _ _ H2) Ha Hid).
  assert (Hn : ∃ m, (m < di_ids s2)%nat ∧ job_name cfg n = job_name cfg m).
  { exists n. split; [|done]. change (di_ids s1) with (S n) in Hm. lia. }
  specialize (Hk Hn). unfold wp in Hk.
  destruct (k (job_name cfg n) b s2) as [s3 [x|e]]; cbn; (eapply grows_trans; [exact H1|]; by eapply grows_trans).
Qed.

(** The admission itself. *)
Lemma grows_admitted X s s' j n :
  good X s → admissible (jview_of s) j → (n < di_ids s)%nat → jr_job_id j = job_name cfg n →
  views s' (admitted_view j (jview_of s)) → (di_ids s ≤ di_ids s')%nat → grows X s s'.
Proof.
  intros [Hg Hu] [Ho Ht Hp Hf] Hn Hid Hv Hi. split.
  - eapply good_views; [exact Hv|by apply vgood_admit|]. intros m a Hm Hin. unfold admitted_view in Hin. revert Hin. see.
    destruct (decide (jr_target_name j = a)) as [<-|Hna].
    + rewrite at_same, elem_of_ids. intros (r & [Hr|Hr]%elem_of_app & Hrid).
      * apply (Hu m (jr_target_name j)); [lia|]. apply elem_of_ids. by exists r.
      * apply list_elem_of_singleton in Hr as ->. rewrite Hid in Hrid. apply job_name_inj in Hrid; [lia|done].
    + rewrite at_other by done. apply Hu. lia.
  - intros id r Hr. unfold known. rewrite (known_row_equiv _ _ id Hv). unfold admitted_view.
    change (known_row (push_row j (jview_of s)) id = Some r). rewrite push_known_other; [done|].
    intros <-. eapply Hf, known_in_ids; [exact agents_normal|exact Hg|exact Hr].
  - intros id (r & Hr & Hrun). rewrite (known_row_equiv _ _ id Hv) in Hr. unfold admitted_view in Hr.
    change (known_row (push_row j (jview_of s)) id = Some r) in Hr. destruct (decide (jr_job_id j = id)) as [<-|Hne].
    + rewrite push_known_same in Hr. injection Hr as <-. by destruct (jr_status j).
    + rewrite push_known_other in Hr by done. by exists r.
Qed.

Lemma wp_admitted X j ty p t s n :
  good X s → admissible (jview_of s) j → (n < di_ids s)%nat → jr_job_id j = job_name cfg n → truthy ty = true →
  wp (do* append_job j in do* append_event cfg j ty p t in on_queues (enqueue_for (slot_of j) (jr_job_id j)))
    (λ _, grows X s) (λ _, grows X s) s.
Proof.
  intros Hs Ha Hn Hid Ht. apply wp_mono_ids; [mono_solve|].
  eapply (dq_admit cfg); [by unfold views|apply Ha|done|]. intros s' Hv Hi. by eapply grows_admitted.
Qed.

(** Go on after a step that has grown. *)
Lemma wp_then X {A B} (m : DM A) (f : A → DM B) s :
  wp m (λ _, grows X s) (λ _, grows X s) s → (∀ a, Grows X (f a)) →
  wp (mbind' m f) (λ _, grows X s) (λ _, grows X s) s.
Proof.
  intros Hm Hf. apply wp_bind. eapply wp_mono; [exact Hm| |done]. intros a s' H. cbv beta.
  apply (wp_grows cfg X); [apply Hf|exact (gr_good _ _ _ _ H)| |]; intros; (eapply grows_trans; [exact H|assumption]).
Qed.

(** The admission of a job, and what follows it. *)
Lemma wp_admit_then X {B} j ty p t s n (k : DM B) :
  good X s → admissible (jview_of s) j → (n < di_ids s)%nat → jr_job_id j = job_name cfg n → truthy ty = true →
  Grows X k →
  wp (do* append_job j in do* append_event cfg j ty p t in
      do* on_queues (enqueue_for (slot_of j) (jr_job_id j)) in k) (λ _, grows X s) (λ _, grows X s) s.
Proof.
  intros Hs Ha Hn Hid Hty Hk. pose proof (wp_admitted X j ty p t s n Hs Ha Hn Hid Hty) as W.
  apply (wp_then X _ (λ _ : unit, k)) in W; [|done]. unfold wp, mbind' in *.
  destruct (append_job j s) as [s1 [x1|e1]]; [|done].
  destruct (append_event cfg j _ _ _ s1) as [s2 [x2|e2]]; [|done].
  by destruct (on_queues _ s2) as [s3 [x3|e3]].
Qed.

Lemma accepted_event_truthy st : truthy (accepted_event st) = true.
Proof. unfold accepted_event. by case_bool_decide. Qed.

Lemma wp_enqueue X j st t s n :
  good X s → admissible (jview_of s) j → (n < di_ids s)%nat → jr_job_id j = job_name cfg n →
  wp (enqueue_submitted_job cfg j st t) (λ _, grows X s) (λ _, grows X s) s.
Proof.
  intros Hs Ha Hn Hid. apply wp_admit_then with n; [done..|apply accepted_event_truthy|].
  apply (Grows_bind cfg); [|intros _]; apply Grows_calm; calm_solve.
Qed.
End grow_rules.

Create HintDb grows.

(** A step that is known to grow. *)
Ltac grows_leaf :=
  solve
    [ eauto 3 with grows
    | apply Grows_calm; solve [eauto 2 with calm]
    | apply Grows_quiet; [solve [eauto 2 with quiet]|solve [eauto 2 with mono]] ].

Ltac grows_step :=
  first
    [ grows_leaf
    | apply Grows_bind; [|intros ?]
    | apply Grows_attempted
    | apply Grows_caught
    | match goal with
      | |- Grows _ _ (match ?x with _ => _ end) => destruct x
      | |- Grows _ _ (if ?x then _ else _) => destruct x
      | |- Grows _ _ (dispatch_error _) => unfold dispatch_error
      | |- Grows _ _ (rejected _) => unfold rejected
      | |- Grows _ _ (repaired _ _) => unfold repaired
      end ].
Ltac grows_solve := repeat (cbv zeta; grows_step).

Section grow_ops.
Context (cfg : dconfig) (ou : outside).
Hypothesis agents_normal : Forall (λ a, normal_name a = true) (dc_agents cfg).
Hypothesis hex_injective : ∀ m n, dc_hex cfg m = dc_hex cfg n → m = n.
(** The registry knows the configured agents only. *)
Hypothesis registry_agents : ∀ a sp, tc_agents (dc_tracker cfg) !! a = Some sp → a ∈ dc_agents cfg.

Abbreviation agents := (dc_agents cfg).
Abbreviation Grows := (Grows cfg).
Abbreviation grows := (grows cfg).
Abbreviation good := (good cfg).
Abbreviation target_ok := (target_ok cfg).

Lemma grows_get_job X id : Grows X (get_job cfg id).
Proof. by apply Grows_get_job. Qed.
Hint Resolve grows_get_job : grows.

Lemma spec_for_target name spec : spec_for cfg ou name = Ok spec → target_ok name.
Proof.
  unfold spec_for. intros H. apply result_bind_Ok in H as (a & Ha & H).
  destruct (tc_agents (dc_tracker cfg) !! a) as [sp|] eqn:E; [|done]. exists a. split; [done|]. by eapply registry_agents.
Qed.

(** ** Routing *)

Lemma grows_alive X names : Grows X (alive_agents names).
Proof. induction names as [|a names IH]; cbn [alive_agents]; grows_solve. Qed.
Lemma grows_enabled X names : Grows X (enabled_agents cfg ou names).
Proof. induction names as [|a names IH]; cbn [enabled_agents]; grows_solve. Qed.
Lemma grows_available X names : Grows X (validate_targets_available cfg ou names).
Proof. induction names as [|a names IH]; cbn [validate_targets_available]; grows_solve. Qed.
Hint Resolve grows_alive grows_enabled grows_available : grows.
Lemma grows_targets X r : Grows X (resolve_targets cfg ou r).
Proof. unfold resolve_targets. grows_solve. Qed.
Lemma grows_parent X a : Grows X (active_parent_job cfg a).
Proof. unfold active_parent_job. grows_solve. Qed.
Hint Resolve grows_targets grows_parent : grows.
Lemma grows_nested X r : Grows X (validate_nested_ask_request cfg r).
Proof. unfold validate_nested_ask_request. grows_solve. Qed.
Hint Resolve grows_nested : grows.
Lemma grows_callback_request X r : Grows X (validate_callback_request cfg ou r).
Proof. unfold validate_callback_request. grows_solve. Qed.
Hint Resolve grows_callback_request : grows.

(** ** Submissions *)

Lemma grows_plan X r : Grows X (plan_agent_submission cfg ou r).
Proof. unfold plan_agent_submission. grows_solve. Qed.
Lemma grows_register X r jobs id t : Grows X (register_callback_edge cfg ou r jobs id t).
Proof. unfold register_callback_edge. grows_solve. Qed.
Hint Resolve grows_plan grows_register : grows.

Lemma drafts_targets r targets l :
  drafts_for_agents cfg ou r targets = Ok l → Forall (λ d, target_ok (jd_target_name d)) l.
Proof.
  revert l. induction targets as [|a targets IH]; intros l; cbn; [by intros [= <-]|].
  intros H. apply result_bind_Ok in H as (spec & Hs & H). apply result_bind_Ok in H as (m & _ & H).
  apply result_bind_Ok in H as (l' & Hl & H). injection H as <-. constructor; [by eapply spec_for_target|auto].
Qed.

Definition plan_ok (p : SubmissionPlan) : Prop := Forall (λ d, target_ok (jd_target_name d)) (pl_drafts p).

Lemma plan_for_ok r targets o : yields (plan_for cfg ou r targets o) plan_ok.
Proof.
  unfold plan_for. apply yields_bind. intros id s p. unfold mbind', mlift.
  destruct (drafts_for_agents cfg ou r targets) as [l|] eqn:E; [|done]. intros [= <-]. by eapply drafts_targets.
Qed.

Lemma plan_agent_ok r : yields (plan_agent_submission cfg ou r) plan_ok.
Proof. unfold plan_agent_submission. repeat yields_step. apply plan_for_ok. Qed.

Lemma plan_resubmission_ok id : yields (plan_message_resubmission cfg ou id) plan_ok.
Proof. unfold plan_message_resubmission. repeat yields_step. apply plan_for_ok. Qed.

Lemma grows_submit_draft X sub t d : target_ok (jd_target_name d) → Grows X (submit_draft cfg sub t d).
Proof.
  intros Ht. unfold submit_draft. apply Grows_admission; [done..|]. intros id b s Hs Ha Hid (n & Hn & ->).
  apply wp_then; [by eapply wp_enqueue|]. intros r. grows_solve.
Qed.

Lemma grows_submit_drafts X sub t ds :
  Forall (λ d, target_ok (jd_target_name d)) ds → Grows X (submit_drafts cfg sub t ds).
Proof.
  induction 1 as [|d ds Hd _ IH]; cbn [submit_drafts]; [grows_solve|].
  apply Grows_bind; [by apply grows_submit_draft|]. intros x. grows_solve.
Qed.

Lemma grows_submit_plan X p t : plan_ok p → Grows X (submit_plan cfg ou p t).
Proof.
  intros Hp. unfold submit_plan. apply Grows_bind; [by apply grows_submit_drafts|]. intros made. grows_solve.
Qed.

Lemma grows_submit X r : Grows X (submit_jobs cfg ou r).
Proof.
  unfold submit_jobs. apply Grows_bind; [grows_solve|]. intros t.
  apply Grows_bind_ok; [grows_solve|]. intros p (s & _ & Hp). apply plan_agent_ok in Hp.
  apply Grows_bind; [by apply grows_submit_plan|]. intros x. grows_solve.
Qed.

Lemma grows_resubmission_jobs X l latest : Grows X (jobs_for_resubmission cfg ou l latest).
Proof. induction l as [|a l IH]; cbn [jobs_for_resubmission]; grows_solve. Qed.
Hint Resolve grows_resubmission_jobs : grows.

Lemma grows_resubmit X id : Grows X (resubmit_message cfg ou id).
Proof.
  unfold resubmit_message. apply Grows_bind; [grows_solve|]. intros t.
  apply Grows_bind_ok; [unfold plan_message_resubmission; grows_solve|].
  intros p (s & _ & Hp). apply plan_resubmission_ok in Hp. by apply grows_submit_plan.
Qed.

(** The job of an attempt has its home among the agents. *)
Lemma grows_retry_source X t : Grows X (retry_source cfg ou t).
Proof. unfold retry_source. grows_solve. Qed.

Lemma log_target X s a r : good X s → r ∈ jobs_of (di_jobs s) a → target_ok (jr_target_name r).
Proof.
  intros [Hg _] Hr. apply (row_normal agents agents_normal X (jview_of s)) in Hr as (Hin & Hn & ->); [|done].
  exists a. by rewrite normalize_agent_name_normal.
Qed.

Lemma latest_target_ok X s a id r :
  good X s → (on_jobs (get_latest_target a id) s).2 = Ok (Some r) → target_ok (jr_target_name r).
Proof.
  intros Hs H. unfold on_jobs, get_latest_target, mbind', mlift, mget in H.
  destruct (normalize_agent_name a) as [n|]; [|done]. cbn in H. injection H as H.
  apply find_last_Some in H as [H _]. by eapply log_target.
Qed.

Lemma retry_source_target X s t x :
  good X s → (retry_source cfg ou t s).2 = Ok x → target_ok (jr_target_name x.2).
Proof.
  intros Hs. assert (W : wp (retry_source cfg ou t) (λ x _, target_ok (jr_target_name x.2)) (λ _ _, True) s).
  2: { unfold wp in W. destruct (retry_source cfg ou t s) as [s' [y|e]]; [|done]. by intros [= <-]. }
  assert (Hstep : ∀ A (m : DM A) s0 (Q : A → dispatcher → Prop), good X s0 → Grows X m →
    (∀ a s', good X s' → Q a s') → wp m Q (λ _ _, True) s0).
  { intros A m s0 Q H0 Hm HQ. apply (wp_grows cfg X); [done|done| |done]. intros a s' H. apply HQ, H. }
  unfold retry_source, dispatch_error.
  apply wp_bind, Hstep; [done|grows_solve|]. clear dependent s. intros a s Hs.
  destruct (negb _); [done|]. destruct (bool_decide _); [done|].
  apply wp_bind, Hstep; [done|grows_solve|]. clear dependent s. intros latest s Hs.
  destruct (attempt_of _ _); [|done]. destruct (negb _); [done|].
  apply wp_bind, Hstep; [done|grows_solve|]. clear dependent s. intros m s Hs.
  destruct m as [m|]; [|done].
  apply wp_bind, Hstep; [done|grows_solve|]. clear dependent s. intros ? s Hs.
  apply wp_bind, Hstep; [done|grows_solve|]. clear dependent s. intros ? s Hs.
  apply wp_bind. unfold wp.
  pose proof (latest_target_ok X s (at_agent_name a) (at_job_id a)) as Hl.
  destruct (on_jobs _ s) as [s' [[j|]|e]]; [|done..]. by apply (Hl j).
Qed.

Lemma grows_retry X t : Grows X (retry_attempt cfg ou t).
Proof.
  unfold retry_attempt. apply Grows_bind; [grows_solve|]. intros now.
  apply Grows_bind_ok; [apply grows_retry_source|]. intros [[a m] j] (s & Hs & Hx).
  apply (retry_source_target X) in Hx; [|done]. cbn in Hx. cbv zeta.
  apply Grows_bind; [grows_solve|]. intros r. apply Grows_admission; [done..|].
  intros id b s' Hs' Ha Hid (n & Hn & ->). apply wp_then; [by eapply wp_enqueue|]. intros receipt. grows_solve.
Qed.
Hint Resolve grows_retry : grows.

(** ** Chains *)

Lemma grows_rows X names : Grows X (continuation_rows names).
Proof. induction names as [|a names IH]; cbn [continuation_rows]; grows_solve. Qed.
Hint Resolve grows_rows : grows.
Lemma grows_existing X edges : Grows X (existing_continuation_jobs_by_edge edges).
Proof. unfold existing_continuation_jobs_by_edge. grows_solve. Qed.
Hint Resolve grows_existing : grows.
Lemma grows_existing_one X e : Grows X (existing_continuation_job e).
Proof. unfold existing_continuation_job. grows_solve. Qed.
Lemma grows_continuation_request X e j d : Grows X (continuation_request cfg e j d).
Proof. unfold continuation_request. grows_solve. Qed.
Lemma grows_continuation_draft X r : Grows X (continuation_draft cfg ou r).
Proof. unfold continuation_draft. grows_solve. Qed.
Hint Resolve grows_existing_one grows_continuation_request grows_continuation_draft : grows.

Lemma continuation_draft_target r :
  yields (continuation_draft cfg ou r) (λ d, jd_target_name d = me_to_agent r).
Proof. unfold continuation_draft. repeat yields_step; by apply yields_ret. Qed.

Lemma grows_submit_continuation X r id t : Grows X (submit_continuation_job cfg ou r id t).
Proof.
  unfold submit_continuation_job. apply Grows_bind_ok; [grows_solve|]. intros spec (s & _ & Hsp). cbn in Hsp.
  apply spec_for_target in Hsp. apply Grows_bind; [grows_solve|]. intros _.
  apply Grows_bind_ok; [grows_solve|]. intros d (s' & _ & Hd). apply continuation_draft_target in Hd.
  apply Grows_admission; [done..|by rewrite Hd|]. intros jid [j st] s2 Hs Ha Hid (n & Hn & ->). cbn in Ha, Hid.
  apply wp_admit_then with n; [done..|apply accepted_event_truthy|]. grows_solve.
Qed.
Hint Resolve grows_submit_continuation : grows.

Lemma grows_failure_notice X e r d t : Grows X (record_callback_failure_notice cfg e r d t).
Proof. unfold record_callback_failure_notice. grows_solve. Qed.
Hint Resolve grows_failure_notice : grows.
Lemma grows_fail_edge X e r d t : Grows X (fail_callback_edge cfg e r d t).
Proof. unfold fail_callback_edge. grows_solve. Qed.
Hint Resolve grows_fail_edge : grows.
Lemma grows_continuation X e j r d t : Grows X (submit_callback_continuation cfg ou e j r d t).
Proof. unfold submit_callback_continuation. grows_solve. Qed.
Hint Resolve grows_continuation : grows.
Lemma grows_candidates X edges : Grows X (repair_candidates edges).
Proof. induction edges as [|e edges IH]; cbn [repair_candidates]; grows_solve. Qed.
Lemma grows_job_for_reply X r : Grows X (job_for_reply cfg r).
Proof. unfold job_for_reply. grows_solve. Qed.
Hint Resolve grows_candidates grows_job_for_reply : grows.
Lemma grows_relink X e j : Grows X (relink_edge cfg e j).
Proof. unfold relink_edge. grows_solve. Qed.
Lemma grows_resume X e : Grows X (resume_edge cfg ou e).
Proof. unfold resume_edge. grows_solve. Qed.
Hint Resolve grows_relink grows_resume : grows.
Lemma grows_repair_edge X l ex e : Grows X (repair_edge cfg ou l ex e).
Proof. unfold repair_edge. grows_solve. Qed.
Hint Resolve grows_repair_edge : grows.
Lemma grows_repair_edges X l ex edges : Grows X (repair_edges cfg ou l ex edges).
Proof. induction edges as [|e edges IH]; cbn [repair_edges]; grows_solve. Qed.
Hint Resolve grows_repair_edges : grows.
Lemma grows_repair_chains X : Grows X (repair_callback_edges cfg ou).
Proof. unfold repair_callback_edges. grows_solve. Qed.

(** ** Deliveries *)

Lemma grows_source_job X r : Grows X (source_job_for_reply cfg r).
Proof. unfold source_job_for_reply. grows_solve. Qed.
Hint Resolve grows_source_job : grows.
Lemma grows_delivery_request X r p a : Grows X (build_reply_delivery_request cfg r p a).
Proof. unfold build_reply_delivery_request, format_reply_delivery_body. grows_solve. Qed.
Hint Resolve grows_delivery_request : grows.

Lemma grows_delivery_job X a h r t p : Grows X (build_reply_delivery_job cfg ou a h r t p).
Proof.
  unfold build_reply_delivery_job. apply Grows_bind_ok; [grows_solve|]. intros spec (s & _ & Hsp). cbn in Hsp.
  apply spec_for_target in Hsp. apply Grows_bind; [grows_solve|]. intros runtime. cbv zeta.
  apply Grows_bind; [grows_solve|]. intros request. apply Grows_admission; [done..|].
  intros id b s' Hs Ha Hid (n & Hn & ->). apply wp_then; [by eapply wp_enqueue|]. intros receipt. grows_solve.
Qed.
Hint Resolve grows_delivery_job : grows.

Lemma grows_existing_delivery X a h r : Grows X (resolve_existing_delivery_job cfg a h r).
Proof. unfold resolve_existing_delivery_job. grows_solve. Qed.
Hint Resolve grows_existing_delivery : grows.
Lemma grows_prepare_agent X a : Grows X (prepare_agent_reply_delivery cfg ou a).
Proof. unfold prepare_agent_reply_delivery. grows_solve. Qed.
Hint Resolve grows_prepare_agent : grows.
Lemma grows_prepare_agents X names : Grows X (prepare_agents cfg ou names).
Proof. induction names as [|a names IH]; cbn [prepare_agents]; grows_solve. Qed.
Lemma grows_claimable X a : Grows X (claimable_reply_delivery_job_ids cfg a).
Proof. unfold claimable_reply_delivery_job_ids. grows_solve. Qed.

Lemma grows_pending_stall `{Execution} X c h r a : Grows X (repair_pending_stall cfg c h r a).
Proof. unfold repair_pending_stall. grows_solve. Qed.
End grow_ops.
