(* ===== verification/DispatchEnds.v ===== *)
(** The operations that end jobs: completion, with everything that is told of it, and
    cancellation, shutdown, polling and the restoration of running jobs.  A job that is ended
    while it waits is hidden until it is taken from its queue. *)

From Stdlib Require Import Ascii String ZArith Lia.
From stdpp Require Import base gmap list strings functions.
From S2P Require Import Prelude PyData Names Storage MailboxModels MailboxKernel CompletionModels Jobs Api JobStore BureauModels BureauState Bureau Completion Artifacts DispatchState DispatchPolicy Dispatch Drain Routing Chains Continuations Submission Deliveries Finalize DispatchView DispatchGood DispatchOps DispatchKeeps DispatchGrows.

Local Open Scope Z_scope.

Section ends.
Context (cfg : dconfig) (ou : outside) `{Execution}.
Hypothesis agents_normal : Forall (λ a, normal_name a = true) (dc_agents cfg).
Hypothesis hex_injective : ∀ m n, dc_hex cfg m = dc_hex cfg n → m = n.
Hypothesis registry_agents : ∀ a sp, tc_agents (dc_tracker cfg) !! a = Some sp → a ∈ dc_agents cfg.

Implicit Types (s : dispatcher) (X : list string) (r c : JobRecord).
Abbreviation agents := (dc_agents cfg).
Abbreviation Grows := (Grows cfg).
Abbreviation grows := (grows cfg).
Abbreviation Moves := (Moves cfg).
Abbreviation moves := (moves cfg).
Abbreviation good := (good cfg).

(** ** What the rows do *)

(** A row of a known job uses no new identifier. *)
Lemma unused_push v X r c n :
  vgood agents X v → known_row v (jr_job_id r) = Some c → slot_of r = slot_of c →
  unused cfg n v → unused cfg n (push_row r v).
Proof.
  intros Hg Hc Hsl Hu m a Hm Hin. revert Hin. see. destruct (decide (jr_target_name r = a)) as [<-|Hne].
  - rewrite at_same, elem_of_ids. intros (x & Hx & Hid). apply (Hu m (jr_target_name r)); [done|].
    apply elem_of_app in Hx as [Hx|Hx%list_elem_of_singleton]; [apply elem_of_ids; by exists x|].
    subst x. rewrite <-Hid, (same_target _ _ Hsl). by apply (known_in_ids agents agents_normal X).
  - rewrite at_other by done. by apply Hu.
Qed.

(** Whatever becomes of the queues, a row that ends no running job starts none. *)
Lemma moves_push X X' s s' r c w :
  good X s → known s (jr_job_id r) = Some c → slot_of r = slot_of c →
  (job_terminal (jr_status c) = true → job_terminal (jr_status r) = true) →
  (running_status (jr_status r) = true → running_status (jr_status c) = true) →
  (pending_status (jr_status r) = true → pending_status (jr_status c) = true) →
  views s' w → vgood agents X' w → (di_ids s ≤ di_ids s')%nat →
  (∀ a, jv_log w a = jv_log (push_row r (jview_of s)) a) →
  (∀ id, known_row w id = known_row (push_row r (jview_of s)) id) → moves X' s s'.
Proof.
  intros [Hg Hu] Hc Hsl Ht Hr Hp Hv Hw Hi Hlog Hk. split.
  - eapply good_views; [exact Hv|exact Hw|]. intros m a Hm. rewrite Hlog.
    apply (unused_push (jview_of s) X r c (di_ids s)); [done..|lia].
  - intros id c' Hc'. unfold known. rewrite (known_row_equiv _ _ id Hv), Hk.
    destruct (decide (jr_job_id r = id)) as [<-|Hne].
    + rewrite push_known_same. rewrite Hc in Hc'. injection Hc' as <-. by exists r.
    + rewrite push_known_other by done. by exists c'.
  - intros id (x & Hx & Hrun). rewrite (known_row_equiv _ _ id Hv), Hk in Hx.
    destruct (decide (jr_job_id r = id)) as [<-|Hne].
    + rewrite push_known_same in Hx. injection Hx as <-. exists c. auto.
    + rewrite push_known_other in Hx by done. by exists x.
Qed.

Lemma moves_row X s s' r c :
  good X s → known s (jr_job_id r) = Some c → slot_of r = slot_of c → jr_status r = jr_status c →
  views s' (push_row r (jview_of s)) → (di_ids s ≤ di_ids s')%nat → moves X s s'.
Proof.
  intros Hs Hc Hsl Hst Hv Hi. eapply (moves_push X X s s' r c); [done..|by rewrite Hst|by rewrite Hst|by rewrite Hst|exact Hv| |done|done|done].
  destruct Hs as [Hg _]. by apply (vgood_row agents agents_normal X _ c).
Qed.

Lemma moves_end X s s' r c :
  good X s → known s (jr_job_id r) = Some c → slot_of r = slot_of c → job_terminal (jr_status c) = false →
  job_terminal (jr_status r) = true → views s' (end_view r (jview_of s)) → (di_ids s ≤ di_ids s')%nat → moves X s s'.
Proof.
  intros Hs Hc Hsl Ht Hr Hv Hi. eapply (moves_push X X s s' r c); [done..|by destruct (jr_status r)|by destruct (jr_status r)|exact Hv| |done|done|done].
  destruct Hs as [Hg _]. by apply (vgood_ends agents agents_normal X _ c).
Qed.

(** The end that leaves the job where it waits. *)
Lemma moves_ends X s s' r c :
  good X s → known s (jr_job_id r) = Some c → slot_of r = slot_of c → job_terminal (jr_status c) = false →
  job_terminal (jr_status r) = true →
  views s' (clear_if (slot_of r) (jr_job_id r) (push_row r (jview_of s))) → (di_ids s ≤ di_ids s')%nat →
  moves (jr_job_id r :: X) s s' ∧ (running_status (jr_status c) = true → moves X s s').
Proof.
  intros Hs Hc Hsl Ht Hr Hv Hi. split; [|intros Hrun];
    (eapply (moves_push X _ s s' r c); [done..|by destruct (jr_status r)|by destruct (jr_status r)|exact Hv| |done|done|done]); destruct Hs as [Hg _].
  - by apply (vgood_ends agents agents_normal X _ c).
  - by apply (vgood_end_running agents agents_normal X _ c).
Qed.

Lemma moves_grows X s1 s2 s3 : moves X s1 s2 → grows X s2 s3 → moves X s1 s3.
Proof. intros H1 H2%grows_moves. by eapply moves_trans. Qed.

(** Go on from a step that has grown or moved. *)
Lemma wp_moves_from X {A} (m : DM A) s0 s :
  moves X s0 s → (good X s → wp m (λ _, moves X s) (λ _, moves X s) s) → wp m (λ _, moves X s0) (λ _, moves X s0) s.
Proof.
  intros H0 Hm. eapply wp_mono; [apply Hm, H0| |]; cbv beta; intros ? ? H1; (eapply moves_trans; [exact H0|exact H1]).
Qed.

Lemma wp_Moves X {A} (m : DM A) s : Moves X m → good X s → wp m (λ _, moves X s) (λ _, moves X s) s.
Proof. intros Hm Hs. by apply (wp_moves cfg X). Qed.

Lemma wp_Grows X {A} (m : DM A) s : Grows X m → good X s → wp m (λ _, moves X s) (λ _, moves X s) s.
Proof. intros Hm. by apply wp_Moves, Grows_Moves. Qed.

(** A sequence whose first step grows and whose second uses what is known. *)
Lemma wp_grows_bind X {A B} (m : DM A) (f : A → DM B) s :
  Grows X m → good X s → (∀ a s', grows X s s' → wp (f a) (λ _, moves X s') (λ _, moves X s') s') →
  wp (mbind' m f) (λ _, moves X s) (λ _, moves X s) s.
Proof.
  intros Hm Hs Hf. apply wp_bind. apply (wp_grows cfg X); [done|done| |intros; by apply grows_moves].
  intros a s' Hg. apply wp_moves_from; [by apply grows_moves|]. intros _. by apply Hf.
Qed.

(** A step of which only the grown state counts. *)
Lemma wp_grows_step X {A B} (m : DM A) (f : A → DM B) s0 s (Q : B → dispatcher → Prop) E :
  Grows X m → grows X s0 s → (∀ e s', grows X s0 s' → E e s') → (∀ a s', grows X s0 s' → wp (f a) Q E s') →
  wp (mbind' m f) Q E s.
Proof.
  intros Hm H0 HE Hf. apply wp_bind. apply (wp_grows cfg X); [done|by eapply gr_good| |].
  - intros a s' Hg. apply Hf. by eapply grows_trans.
  - intros e s' Hg. apply HE. by eapply grows_trans.
Qed.

(** ** What is told of an end *)

Hint Resolve grows_retry grows_continuation grows_get_job : grows.

Lemma grows_schedule X c t d f : Grows X (schedule_automatic_retry cfg ou c t d f).
Proof. unfold schedule_automatic_retry. grows_solve. Qed.
Lemma grows_no_retry X c t d f : Grows X (reply_decision_without_automatic_retry cfg c t d f).
Proof.
  unfold reply_decision_without_automatic_retry, append_retry_exhausted_event, append_nonretryable_failure_event.
  grows_solve.
Qed.
Hint Resolve grows_schedule grows_no_retry : grows.
Lemma grows_reply_decision X c t d rr f : Grows X (reply_decision cfg c t d rr f).
Proof. unfold reply_decision, empty_result_notice_decision. grows_solve. Qed.
Lemma grows_terminal_result X t d f dl : Grows X (record_terminal_result cfg ou t d f dl).
Proof. unfold record_terminal_result. grows_solve. Qed.
Hint Resolve grows_reply_decision grows_terminal_result : grows.

Section told.
Context (X : list string) (t : JobRecord).

Lemma known_normal s : good X s → known s (jr_job_id t) = Some t → normal_name (jr_target_name t) = true.
Proof. intros [Hg _] Hk. by apply (known_facts agents agents_normal X _ _ _ Hg) in Hk as (_ & _ & Hn & _). Qed.

(** The row given back says what [t] says. *)
Definition repeats s (x : JobRecord) s' : Prop := moves X s s' ∧ jr_status x = jr_status t.

Lemma repeats_from s1 s2 s3 x : moves X s1 s2 → repeats s2 x s3 → repeats s1 x s3.
Proof. intros H1 [H2 H3]. split; [by eapply moves_trans|done]. Qed.

(** A row that repeats the end. *)
Lemma wp_row s0 s (m : DM JobRecord) :
  mono m → moves X s0 s → known s (jr_job_id t) = Some t →
  (∀ v (Q : JobRecord → dispatcher → Prop) E, views s v → normal_name (jr_target_name t) = true →
     (∀ e s', views s' v → E e s') →
     (∀ r s', row_of t r → views s' (push_row r v) → Q r s' ∧ ∀ e, E e s') → wp m Q E s) →
  wp m (repeats s0) (λ _, moves X s0) s.
Proof.
  intros Hm H0 Hk He. assert (Hs : good X s) by by eapply mv_good.
  assert (W : wp m (repeats s) (λ _, moves X s) s).
  { apply wp_mono_ids; [done|]. apply (He (jview_of s)); [by unfold views|by eapply known_normal| |].
    - intros e s' Hv Hi. by apply grows_moves, grows_same.
    - intros r s' (Hid & Hsl & Hst & _) Hv. split; intros; [split; [|done]|];
        (eapply (moves_row X s s' r t); [done|by rewrite Hid|done..]). }
  eapply wp_mono; [exact W| |].
  - intros x s'. by apply repeats_from.
  - intros e s' H'. by eapply moves_trans.
Qed.

(** What is left to do with the row. *)
Lemma wp_row_rest {A} s0 s (m : DM A) (x : JobRecord) (Q : A → dispatcher → Prop) :
  repeats s0 x s → Moves X m → (∀ a s', moves X s0 s' → Q a s') → wp m Q (λ _, moves X s0) s.
Proof.
  intros [H0 Hx] Hm HQ. apply (wp_moves cfg X); [done|by eapply mv_good| |].
  - intros a s' H'. apply HQ. by eapply moves_trans.
  - intros e s' H'. by eapply moves_trans.
Qed.

Lemma wp_reply_outcome c d rr p f s :
  good X s → known s (jr_job_id t) = Some t →
  wp (record_reply_outcome cfg ou c t d rr p f) (repeats s) (λ _, moves X s) s.
Proof.
  intros Hs Hk. unfold record_reply_outcome.
  apply (wp_grows_step X _ _ s s); [grows_solve|by apply grows_refl|intros; by apply grows_moves|].
  intros reply s1 H1. apply wp_bind.
  assert (Hlast : ∀ (y : JobRecord * CompletionDecision) s', repeats s y.1 s' →
    wp (do* record_terminal_result cfg ou y.1 y.2 f (should_deliver_to_caller y.1) in mret' y.1)
      (repeats s) (λ _, moves X s) s').
  { intros y s' Hy. apply wp_bind. eapply (wp_row_rest s s' _ y.1); [done|by apply Grows_Moves, grows_terminal_result|].
    intros _ s2 H2. apply wp_ret. split; [done|apply Hy]. }
  destruct reply as [r|].
  - apply (wp_grows_step X _ _ s s1); [grows_solve|done|intros; by apply grows_moves|]. intros r' s2 H2. apply wp_bind.
    eapply wp_mono; [apply (wp_row s s2)| |done].
    + eauto with mono.
    + by apply grows_moves.
    + by eapply gr_known.
    + intros v Q E Hv Hn HE HQ. eapply (reply_decision_effect cfg); [done..|]. intros; by apply HQ.
    + intros t' s3 H3. apply wp_ret. by apply (Hlast (t', r')).
  - apply wp_ret. apply (Hlast (t, d)). split; [by apply grows_moves|done].
Qed.

Lemma wp_record_completion c d p f s :
  good X s → known s (jr_job_id t) = Some t →
  wp (record_message_bureau_completion cfg ou c t d p f) (λ x : JobRecord * bool, repeats s x.1) (λ _, moves X s) s.
Proof.
  intros Hs Hk. unfold record_message_bureau_completion.
  assert (Hret : ∀ b s', grows X s s' → wp (mret' (t, b)) (λ x : JobRecord * bool, repeats s x.1) (λ _, moves X s) s').
  { intros b s' H'. apply wp_ret. split; [by apply grows_moves|done]. }
  apply (wp_grows_step X _ _ s s); [grows_solve|by apply grows_refl|intros; by apply grows_moves|]. intros _ s1 H1.
  destruct (is_reply_delivery_job c); [by apply Hret|].
  apply (wp_grows_step X _ _ s s1); [grows_solve|done|intros; by apply grows_moves|]. intros pe s2 H2.
  destruct (delegates pe) as [e|].
  - apply wp_bind. eapply wp_mono; [apply (wp_row s s2)| |done].
    + eauto with mono.
    + by apply grows_moves.
    + by eapply gr_known.
    + intros v Q E Hv Hn HE HQ. eapply (delegated_effect cfg); [done..|]. intros; by apply HQ.
    + intros t' s3 H3. apply wp_bind. eapply wp_row_rest; [exact H3|apply Grows_Moves; grows_solve|].
      intros _ s4 H4. apply wp_ret. split; [done|apply H3].
  - apply (wp_grows_step X _ _ s s2); [grows_solve|done|intros; by apply grows_moves|]. intros retry s3 H3.
    destruct retry.2; [by apply Hret|]. apply wp_bind. eapply wp_mono; [apply (wp_reply_outcome c d retry.1 p f s3)| |].
    + by eapply gr_good.
    + by eapply gr_known.
    + intros t' s4 H4. apply wp_ret. eapply repeats_from; [by apply grows_moves|exact H4].
    + intros e s4 H4. eapply moves_trans; [by apply grows_moves|exact H4].
Qed.

Lemma grows_cancellation d f rec : Grows X (record_message_bureau_cancellation cfg ou t d f rec).
Proof. unfold record_message_bureau_cancellation. grows_solve. Qed.
End told.

(** ** Deliveries found running *)

Section heads.
Context (cc : string → CompletionDecision → DM JobRecord).
Hypothesis cc_moves : ∀ X id d s, good X s → runs s id → moves X s (cc id d s).1.

Lemma wp_cc X id d s :
  good X s → runs s id → wp (cc id d) (λ _, moves X s) (λ _, moves X s) s.
Proof. intros Hs Hr. specialize (cc_moves X id d s Hs Hr). unfold wp. by destruct (cc id d s) as [s' [j|e]]. Qed.

Lemma grows_runs X s s' c :
  known s (jr_job_id c) = Some c → running_status (jr_status c) = true → grows X s s' → runs s' (jr_job_id c).
Proof. intros Hk Hr Hg. exists c. split; [by apply (gr_known _ _ _ _ Hg)|done]. Qed.

(** An end as the last step but for its wrapping. *)
Lemma wp_cc_some X s0 s c d :
  known s0 (jr_job_id c) = Some c → running_status (jr_status c) = true → grows X s0 s →
  wp (let* j := cc (jr_job_id c) d in mret' (Some j)) (λ _, moves X s0) (λ _, moves X s0) s.
Proof.
  intros Hk Hr Hg. apply wp_moves_from; [by apply grows_moves|]. intros Hs. apply wp_bind.
  eapply wp_mono; [apply wp_cc; [done|by eapply grows_runs]| |done]. intros j s' Hm. by apply wp_ret.
Qed.

Lemma wp_repair_running X c h rid s :
  good X s → known s (jr_job_id c) = Some c → running_status (jr_status c) = true →
  wp (repair_running cfg cc c h rid) (λ _, moves X s) (λ _, moves X s) s.
Proof.
  intros Hs Hk Hr. unfold repair_running.
  apply (wp_grows_step X _ _ s s); [grows_solve|by apply grows_refl|intros; by apply grows_moves|]. intros p s1 H1.
  cbv zeta.
  assert (Hf : wp (let* live := execution_job_is_live (jr_job_id c) in
      if live : bool then mret' None
      else
        let* now := clock cfg in
        let* d := mlift (reply_delivery_failed_decision c now "reply_delivery_stale_running_repaired"
          [("repair_kind", VStr "stale_running_delivery_job");
           ("head_inbound_event_id", VStr (ie_inbound_event_id h)); ("reply_id", VStr rid)]) in
        let* j := cc (jr_job_id c) d in mret' (Some j)) (λ _, moves X s) (λ _, moves X s) s1).
  { apply (wp_grows_step X _ _ s s1); [grows_solve|done|intros; by apply grows_moves|]. intros [|] s2 H2.
    - by apply wp_ret, grows_moves.
    - apply (wp_grows_step X _ _ s s2); [grows_solve|done|intros; by apply grows_moves|]. intros now s3 H3.
      apply (wp_grows_step X _ _ s s3); [grows_solve|done|intros; by apply grows_moves|]. intros d s4 H4.
      by apply wp_cc_some. }
  destruct p as [[d|]|]; [|exact Hf..]. destruct (cd_terminal d); [by apply wp_cc_some|exact Hf].
Qed.

Lemma wp_repaired X {A B} (m : DM (option A)) (f : A → B) s :
  wp m (λ _, moves X s) (λ _, moves X s) s → wp (repaired m f) (λ _, moves X s) (λ _, moves X s) s.
Proof. intros Hm. unfold repaired. apply wp_bind. eapply wp_mono; [exact Hm| |done]. intros x s' Hx. by apply wp_ret. Qed.

Lemma moves_repair_head X a : Moves X (repair_agent_reply_delivery_head cfg cc a).
Proof.
  apply Moves_wp. intros s Hs. unfold repair_agent_reply_delivery_head.
  apply (wp_grows_step X _ _ s s); [grows_solve|by apply grows_refl|intros; by apply grows_moves|]. intros h s1 H1.
  assert (Hret : ∀ s2, grows X s s2 →
    wp (mret' None : DM (option (InboundEventRecord + JobRecord))) (λ _, moves X s) (λ _, moves X s) s2)
    by (intros; by apply wp_ret, grows_moves).
  assert (Hrep : ∀ (m : DM (option InboundEventRecord)) s2, Grows X m → grows X s s2 →
    wp (repaired m inl : DM (option (InboundEventRecord + JobRecord))) (λ _, moves X s) (λ _, moves X s) s2).
  { intros m s2 Hm H2. apply wp_moves_from; [by apply grows_moves|]. intros Hs2. by apply wp_repaired, wp_Grows. }
  destruct h as [h|]; [|by apply Hret]. destruct (head_reply_id h) as [[|x y]|]; [by apply Hret| |by apply Hret].
  destruct (delivery_job_id_from_payload (ie_payload_ref h)) as [[|x' y']|]; [apply Hrep; [grows_solve|done]| |
    apply Hrep; [grows_solve|done]].
  apply wp_bind. eapply (wp_get_job cfg agents_normal X); [by eapply gr_good|]. intros s2 H2.
  assert (H02 : grows X s s2) by by eapply grows_trans.
  destruct (known s1 (String x' y')) as [c|] eqn:Ec; [|apply Hrep; [grows_solve|done]].
  destruct (pending_status (jr_status c)); [apply Hrep; [by apply grows_pending_stall|done]|].
  destruct (running_status (jr_status c)) eqn:Er; [cbn [negb]|by apply Hret].
  apply wp_moves_from; [by apply grows_moves|]. intros Hs2. apply wp_repaired, wp_repair_running; [done| |done].
  apply (gr_known _ _ _ _ H2) in Ec as Ek.
  destruct (known_facts agents agents_normal X _ _ _ (proj1 Hs2) Ek) as (-> & _). done.
Qed.

Lemma moves_repair_heads X names : Moves X (repair_heads cfg cc names).
Proof.
  induction names as [|a names IH]; cbn [repair_heads]; [by apply Grows_Moves, Grows_quiet; eauto with quiet mono|].
  apply Moves_bind; [apply moves_repair_head|]. intros x. apply Moves_bind; [exact IH|]. intros l.
  by apply Grows_Moves, Grows_quiet; eauto with quiet mono.
Qed.

Lemma moves_prepare X : Moves X (prepare_reply_deliveries cfg ou cc).
Proof.
  unfold prepare_reply_deliveries. apply Moves_bind; [apply moves_repair_heads|]. intros _.
  by apply Grows_Moves, grows_prepare_agents.
Qed.
End heads.
End ends.
