(* ===== verification/DispatchFinish.v ===== *)
(** The end of a job as a whole, and the operations that end jobs: completion, cancellation,
    shutdown.

    How deep completions nest: one completion makes another only of a delivery that runs, and
    ends it before it goes on.  There is at most one running job for an agent, so a depth
    above the number of agents is as good as any. *)

From Stdlib Require Import Ascii String ZArith Lia.
From stdpp Require Import base gmap list strings functions.
From S2P Require Import Prelude PyData Names Storage MailboxModels MailboxKernel CompletionModels Jobs Api JobStore BureauModels BureauState Bureau Completion Artifacts DispatchState DispatchPolicy Dispatch Drain Routing Chains Continuations Submission Deliveries Finalize DispatchView DispatchGood DispatchOps DispatchKeeps DispatchGrows DispatchEnds.

Local Open Scope Z_scope.

Section finish.
Context (cfg : dconfig) (ou : outside) `{Execution}.
Hypothesis agents_normal : Forall (λ a, normal_name a = true) (dc_agents cfg).
Hypothesis hex_injective : ∀ m n, dc_hex cfg m = dc_hex cfg n → m = n.
Hypothesis registry_agents : ∀ a sp, tc_agents (dc_tracker cfg) !! a = Some sp → a ∈ dc_agents cfg.

Implicit Types (s : dispatcher) (X : list string) (r c : JobRecord).
Abbreviation agents := (dc_agents cfg).
Abbreviation Grows := (Grows cfg).
Abbreviation grows := (grows cfg).
Abbreviation Moves := (Moves cfg).
Abbreviation moves := (moves cfg).
Abbreviation good := (good cfg).

Hint Resolve grows_retry grows_continuation grows_get_job : grows.

(** What a completion does: the job is out of memory, or was waiting and is hidden. *)
Definition closes X id s s' : Prop := moves X s s' ∨ (moves (id :: X) s s' ∧ ¬ runs s id).

Lemma ended_same s id r : known s id = Some r → job_terminal (jr_status r) = true → ended s id.
Proof. by exists r. Qed.

(** What follows the end in the store. *)
Lemma wp_after_end X depth c t d p f s :
  (∀ Y id d s, good Y s → runs s id → moves Y s (complete cfg ou depth id d s).1) →
  good X s → known s (jr_job_id t) = Some t →
  wp (let* recorded := record_message_bureau_completion cfg ou c t d p f in
      let '(terminal, retry_scheduled) := recorded in
      do* finish_terminal_runtime cfg c in
      do* resolve_reply_delivery_terminal cfg terminal f in
      if retry_scheduled : bool then mret' terminal
      else
        do* maybe_notify_sender cfg terminal in
        do* (if ou_auto_reply_delivery ou
             then do* prepare_reply_deliveries cfg ou (complete cfg ou depth) in mret' tt
             else mret' tt) in
        mret' terminal) (repeats cfg X t s) (λ _, moves X s) s.
Proof.
  intros Hc Hs Hk. apply wp_bind.
  eapply wp_mono; [by apply (wp_record_completion cfg ou agents_normal hex_injective registry_agents X t)| |done].
  intros [t' retry] s1 H1. cbv beta zeta.
  assert (Hp : Moves X (prepare_reply_deliveries cfg ou (complete cfg ou depth))) by (apply moves_prepare; auto).
  assert (Hq : ∀ A (m : DM A), quiet m → mono m → Moves X m) by (intros; by apply Grows_Moves, Grows_quiet).
  assert (Hr : ∀ s', moves X s s' → wp (mret' t') (repeats cfg X t s) (λ _, moves X s) s')
    by (intros; apply wp_ret; split; [done|apply H1]).
  apply wp_bind. eapply (wp_row_rest cfg X t s s1 _ t'); [exact H1|
    apply Hq; unfold finish_terminal_runtime; eauto with quiet mono|]. intros _ s2 H2.
  apply wp_bind. eapply (wp_row_rest cfg X t s s2 _ t'); [split; [exact H2|apply H1]|
    apply Grows_Moves, Grows_calm, calm_delivery_terminal|]. intros _ s3 H3.
  destruct retry; [by apply Hr|].
  apply wp_bind. eapply (wp_row_rest cfg X t s s3 _ t'); [split; [exact H3|apply H1]|
    apply Hq; unfold maybe_notify_sender; [quiet_solve|mono_solve]|]. intros _ s4 H4.
  apply wp_bind. eapply (wp_row_rest cfg X t s s4 _ t'); [split; [exact H4|apply H1]| |intros _ s5 H5; by apply Hr].
  destruct (ou_auto_reply_delivery ou); [|by apply Hq; eauto with quiet mono].
  apply Moves_bind; [exact Hp|]. intros _. by apply Hq; eauto with quiet mono.
Qed.

Lemma wp_completed depth X id d s :
  good X s →
  wp (complete cfg ou depth id d) (λ j s', closes X id s s' ∧ ended s' id ∧ job_terminal (jr_status j) = true)
    (λ _, closes X id s) s.
Proof.
  revert X id d s. induction depth as [|depth IH]; intros X id d s Hs; [left; by apply moves_refl|].
  assert (Hsame : ∀ s', grows X s s' → closes X id s s') by (intros; left; by apply grows_moves).
  cbn [complete]. destruct (negb (cd_terminal d)); [by apply Hsame, grows_refl|].
  apply wp_bind. eapply (wp_get_job cfg agents_normal X); [done|]. intros s1 H1.
  destruct (known s id) as [c|] eqn:Ec; [|by apply Hsame].
  apply (gr_known _ _ _ _ H1) in Ec as Ec1.
  destruct (job_terminal (jr_status c)) eqn:Et.
  { apply wp_ret. split; [by apply Hsame|]. split; [by eapply ended_same|done]. }
  apply (wp_grows_step cfg X _ _ s s1); [destruct (opt_truthy _); grows_solve|done|by intros; apply Hsame|].
  intros f s2 H2. apply (gr_known _ _ _ _ H2) in Ec as Ec2.
  destruct (known_facts agents agents_normal X _ _ _ (proj1 Hs) Ec) as (Hid & _ & Hn & _).
  apply wp_bind. apply wp_mono_ids; [eauto with mono|].
  eapply (persist_effect cfg); [by unfold views|done| |].
  { intros e s' Hv Hi. apply Hsame. eapply grows_trans; [exact H2|]. by apply grows_same; [eapply gr_good|..]. }
  intros [[t d'] p] s3 Hidt Hsl Ht Ho Hv Hi. cbn [fst snd] in *. rewrite Hid in Hidt.
  assert (Hkt : known s3 (jr_job_id t) = Some t).
  { unfold known. rewrite (known_row_equiv _ _ _ Hv). exact (push_known_same t (jview_of s2)). }
  assert (Hm : ∃ Y, moves Y s s3 ∧ (∀ s', moves Y s s' → closes X id s s')).
  { edestruct (moves_ends cfg agents_normal X s2 s3 t c) as [Ha Hb];
      [by eapply gr_good|by rewrite Hidt|done..|]. destruct (running_status (jr_status c)) eqn:Er.
    - exists X. split; [|by left]. eapply moves_trans; [by apply grows_moves|by apply Hb].
    - exists (id :: X). rewrite <-Hidt in *. split.
      + eapply moves_trans; [by apply grows_moves|exact Ha].
      + intros s' H'. right. split; [done|]. intros (x & Hx & Hxr). unfold known in Ec. congruence. }
  destruct Hm as (Y & Hm & Hclose).
  assert (He : ∀ s', moves Y s3 s' → closes X id s s' ∧ ended s' id).
  { intros s' H'. split; [apply Hclose; by eapply moves_trans|]. eapply mv_ended; [exact H'|].
    exists t. by rewrite <-Hidt at 1. }
  eapply wp_mono; [apply wp_after_end| |].
  - intros Z id' d2 s' Hs' Hr'. specialize (IH Z id' d2 s' Hs'). unfold wp in IH.
    destruct (complete cfg ou depth id' d2 s') as [s4 [x|e]]; cbn.
    + by destruct IH as [[|[_ []]] _].
    + by destruct IH as [|[_ []]].
  - by eapply mv_good.
  - exact Hkt.
  - intros x s' [H' Hst]. destruct (He _ H') as [H1' H2']. split; [done|]. split; [done|]. by rewrite Hst.
  - intros e s' H'. by apply He.
Qed.

Lemma complete_moves depth X id d s : good X s → runs s id → moves X s (complete cfg ou depth id d s).1.
Proof.
  intros Hs Hr. pose proof (wp_completed depth X id d s Hs) as W. unfold wp in W.
  destruct (complete cfg ou depth id d s) as [s' [x|e]]; [destruct W as [[|[_ []]] _]|destruct W as [|[_ []]]]; done.
Qed.

(** A job that does not wait leaves memory good as it ends. *)
Definition idle s id : Prop := ∃ r, known s id = Some r ∧ pending_status (jr_status r) = false.

Lemma idle_moves X s s' id : idle s id → moves X s s' → idle s' id.
Proof.
  intros (r & Hr & Hp) Hm. destruct (mv_known _ _ _ _ Hm id r Hr) as (r' & Hr' & _ & _ & Hp'). exists r'. split; [done|].
  destruct (pending_status (jr_status r')); [|done]. by rewrite Hp' in Hp.
Qed.

Lemma runs_idle s id : runs s id → idle s id.
Proof. intros (r & Hr & Hrun). exists r. split; [done|]. by destruct (jr_status r). Qed.

Lemma wp_complete_idle depth X id d s :
  good X s → idle s id →
  wp (complete cfg ou depth id d) (λ j s', moves X s s' ∧ ended s' id ∧ job_terminal (jr_status j) = true)
    (λ _, moves X s) s.
Proof.
  intros Hs (r & Hr & Hp).
  assert (Hcase : runs s id ∨ ended s id).
  { destruct (job_terminal (jr_status r)) eqn:Et; [right|left]; exists r; (split; [done|]); [done|].
    by destruct (nonterminal_split _ Et) as [[Hp' _]|[_ ?]]; [rewrite Hp' in Hp|]. }
  destruct Hcase as [Hrun|Hend].
  - eapply wp_mono; [by apply wp_completed| |]; cbv beta.
    + by intros j s' [[H1|[_ []]] H2].
    + by intros e s' [H1|[_ []]].
  - destruct depth as [|depth]; [by apply moves_refl|]. cbn [complete].
    destruct (negb (cd_terminal d)); [by apply moves_refl|].
    apply wp_bind. eapply (wp_get_job cfg agents_normal X); [done|]. intros s1 H1.
    destruct Hend as (r' & Hr' & Ht). assert (Hk : known s id = Some r') by done. rewrite Hk, Ht.
    apply wp_ret. split; [by apply grows_moves|]. split; [|done]. exists r'. by split; [apply (gr_known _ _ _ _ H1)|].
Qed.

(** ** Cancellation *)

Lemma grows_cancellation_told X t d f rec : Grows X (record_message_bureau_cancellation cfg ou t d f rec).
Proof. by apply grows_cancellation. Qed.

Lemma moves_cancel_with X id c t reply p rec ev :
  jr_job_id c = id → Moves X (cancel_with_decision cfg ou c t reply p rec ev).
Proof.
  intros Hc. apply Moves_wp. intros s Hs. unfold cancel_with_decision.
  apply (wp_grows_step cfg X _ _ s s); [grows_solve|by apply grows_refl|intros; by apply grows_moves|].
  intros d s1 H1. apply wp_bind.
  assert (Hs1 : good X s1) by by eapply gr_good.
  assert (Hsame : ∀ s', views s' (jview_of s1) → (di_ids s1 ≤ di_ids s')%nat → moves X s s').
  { intros s' Hv Hi. apply grows_moves. eapply grows_trans; [exact H1|]. by apply grows_same. }
  apply wp_mono_ids; [eauto with mono|]. eapply (cancel_effect cfg agents_normal X); [apply Hs1|by unfold views|..].
  - intros e s' Hv Hi. by apply Hsame.
  - intros x s' Hv Hi. by apply wp_ret, Hsame.
  - intros c' [t' d'] s' Hk Ht Hid Hsl Hst Ho Hv Hi. cbn [fst snd] in *.
    assert (Hm : moves X s s').
    { eapply moves_trans; [by apply grows_moves|]. eapply (moves_end cfg agents_normal X s1 s' t' c'); [done| |done..| |done|done].
      - rewrite Hid. destruct (known_facts agents agents_normal X _ _ _ (proj1 Hs1) Hk) as (-> & _). exact Hk.
      - by rewrite Hst. }
    apply wp_moves_from; [exact Hm|]. intros Hs'. apply wp_Grows; [|done].
    apply Grows_bind; [apply grows_cancellation_told|]. intros _. grows_solve.
Qed.

Lemma moves_cancel X id rec : Moves X (cancel_job cfg ou id rec).
Proof.
  apply Moves_wp. intros s Hs. unfold cancel_job. apply wp_bind.
  assert (Hsame : ∀ s', views s' (jview_of s) → (di_ids s ≤ di_ids s')%nat → moves X s s').
  { intros s' Hv Hi. apply grows_moves. by apply grows_same. }
  apply wp_mono_ids; [eauto with mono|]. eapply (request_cancel_effect cfg agents_normal X); [apply Hs|by unfold views|..].
  - intros e s' Hv Hi. by apply Hsame.
  - intros x s' Hv Hi. by apply wp_ret, Hsame.
  - intros j m s' Hk Ht (Hid & Hsl & Hst & Ho) Hv Hi.
    destruct (known_facts agents agents_normal X _ _ _ (proj1 Hs) Hk) as (Hj & _).
    apply wp_moves_from; [eapply (moves_row cfg agents_normal X s s' m j); [done|by rewrite Hid, Hj|done..]|].
    intros Hs'. apply wp_Moves; [|done]. apply Moves_bind.
    { destruct rec; apply Grows_Moves; unfold capture_cancel_evidence; grows_solve. }
    intros ev. apply Moves_bind; [apply Grows_Moves; unfold snapshot_load; grows_solve|]. intros p. cbv zeta.
    by eapply moves_cancel_with.
Qed.

(** ** Shutdown *)

(** The queue of a job that has ended. *)
Lemma wp_remove_ended X sl id s :
  good X s → ended s id → wp (on_queues (remove_queued_for sl id)) (λ _, moves X s) (λ _, moves X s) s.
Proof.
  intros Hs He. apply wp_mono_ids; [eauto with mono|]. eapply dq_remove; [by unfold views|]. intros b s' Hv Hi. split.
  - eapply good_views; [exact Hv|by apply vgood_take_any, He; [|apply Hs]|]. eapply unused_le; [exact Hi|apply Hs].
  - intros y r Hr. exists r. unfold known. by rewrite (known_row_equiv _ _ y Hv).
  - intros y (r & Hr & Hrun). rewrite (known_row_equiv _ _ y Hv) in Hr. by exists r.
Qed.
End finish.

Section depth.
Context (cfg : dconfig) (ou : outside) `{Execution}.
Hypothesis agents_normal : Forall (λ a, normal_name a = true) (dc_agents cfg).
Hypothesis hex_injective : ∀ m n, dc_hex cfg m = dc_hex cfg n → m = n.
Hypothesis registry_agents : ∀ a sp, tc_agents (dc_tracker cfg) !! a = Some sp → a ∈ dc_agents cfg.

Implicit Types (s : dispatcher) (X : list string) (r c : JobRecord).
Abbreviation agents := (dc_agents cfg).
Abbreviation Grows := (Grows cfg).
Abbreviation grows := (grows cfg).
Abbreviation Moves := (Moves cfg).
Abbreviation moves := (moves cfg).
Abbreviation good := (good cfg).
Abbreviation completes := (complete cfg ou).

Hint Resolve grows_retry grows_continuation grows_get_job : grows.

(** ** Computations that come to the same *)

Lemma same_bind {A B} (m m' : DM A) (f f' : A → DM B) s :
  m s = m' s → (∀ a s1, m s = (s1, Ok a) → f a s1 = f' a s1) → mbind' m f s = mbind' m' f' s.
Proof. unfold mbind'. intros <- Hf. destruct (m s) as [s1 [a|e]]; [by apply Hf|done]. Qed.

Lemma same_grown X {A B} (m : DM A) (f f' : A → DM B) s :
  Grows X m → good X s → (∀ a s1, grows X s s1 → f a s1 = f' a s1) → mbind' m f s = mbind' m f' s.
Proof. intros Hm Hs Hf. apply same_bind; [done|]. intros a s1 E. apply Hf. specialize (Hm s Hs). by rewrite E in Hm. Qed.

Lemma same_moved X {A B} (m m' : DM A) (f f' : A → DM B) s :
  Moves X m → good X s → m s = m' s → (∀ a s1, moves X s s1 → f a s1 = f' a s1) → mbind' m f s = mbind' m' f' s.
Proof. intros Hm Hs E Hf. apply same_bind; [done|]. intros a s1 E1. apply Hf. specialize (Hm s Hs). by rewrite E1 in Hm. Qed.

Lemma get_job_run X id s :
  good X s → ∃ s1, get_job cfg id s = (s1, Ok (known s id)) ∧ grows X s s1.
Proof.
  intros Hs.
  assert (W : wp (get_job cfg id) (λ o s1, o = known s id ∧ grows X s s1) (λ _ _, False) s)
    by (by eapply (wp_get_job cfg agents_normal X)).
  unfold wp in W. destruct (get_job cfg id s) as [s1 [o|e]]; [|done]. destruct W as [-> Hg]. by exists s1.
Qed.

(** ** The running jobs *)

Definition bounded (rs : list string) s : Prop := ∀ id, runs s id → id ∈ rs.

Lemma bounded_moves rs X s s' : bounded rs s → moves X s s' → bounded rs s'.
Proof. intros Hb Hm id Hr. by apply Hb, (mv_runs _ _ _ _ Hm). Qed.

Lemma ended_not_runs s id : ended s id → ¬ runs s id.
Proof. intros (r & Hr & Ht) (x & Hx & Hrun). rewrite Hr in Hx. injection Hx as <-. by destruct (jr_status r). Qed.

Definition agree rs (cc cc' : string → CompletionDecision → DM JobRecord) : Prop :=
  ∀ X id d s, good X s → bounded rs s → runs s id → cc id d s = cc' id d s.

Section heads.
Context (rs : list string) (cc cc' : string → CompletionDecision → DM JobRecord).
Hypothesis cc_moves : ∀ X id d s, good X s → runs s id → moves X s (cc id d s).1.
Hypothesis cc_agree : agree rs cc cc'.

Lemma cc_some_same X s0 s c d :
  bounded rs s0 → known s0 (jr_job_id c) = Some c → running_status (jr_status c) = true → grows X s0 s →
  (let* j := cc (jr_job_id c) d in mret' (Some j)) s = (let* j := cc' (jr_job_id c) d in mret' (Some j)) s.
Proof.
  intros Hb Hk Hr Hg. apply same_bind; [|done]. eapply (cc_agree X).
  - by eapply gr_good.
  - by eapply bounded_moves, grows_moves.
  - by eapply (grows_runs cfg).
Qed.

Lemma repair_running_same X c h rid s :
  good X s → bounded rs s → known s (jr_job_id c) = Some c → running_status (jr_status c) = true →
  repair_running cfg cc c h rid s = repair_running cfg cc' c h rid s.
Proof.
  intros Hs Hb Hk Hr. unfold repair_running. apply (same_grown X); [grows_solve|done|]. intros p s1 H1. cbv zeta.
  assert (Hf : ∀ f f' : DM (option JobRecord), (∀ s2, grows X s s2 → f s2 = f' s2) →
    (let* live := execution_job_is_live (jr_job_id c) in if live : bool then mret' None else f) s1 =
    (let* live := execution_job_is_live (jr_job_id c) in if live : bool then mret' None else f') s1).
  { intros f f' E. apply (same_grown X); [grows_solve|by eapply gr_good|]. intros [|] s2 H2; [done|].
    apply E. by eapply grows_trans. }
  assert (Hd : ∀ d, (let* j := cc (jr_job_id c) d in mret' (Some j)) s1 =
                    (let* j := cc' (jr_job_id c) d in mret' (Some j)) s1) by (intros d; by eapply (cc_some_same X s)).
  destruct p as [[d|]|]; [destruct (cd_terminal d); [apply Hd|]| |]; apply Hf; intros s2 H2;
    (apply (same_grown X); [grows_solve|by eapply gr_good|]; intros now s3 H3;
     apply (same_grown X); [grows_solve|by eapply gr_good|]; intros d' s4 H4;
     eapply (cc_some_same X s); [done..|]; eapply grows_trans; [exact H2|]; by eapply grows_trans).
Qed.

Lemma repair_head_same X a s :
  good X s → bounded rs s → repair_agent_reply_delivery_head cfg cc a s = repair_agent_reply_delivery_head cfg cc' a s.
Proof.
  intros Hs Hb. unfold repair_agent_reply_delivery_head. apply (same_grown X); [grows_solve|done|]. intros h s1 H1.
  destruct h as [h|]; [|done]. destruct (head_reply_id h) as [[|x y]|]; [done| |done].
  destruct (delivery_job_id_from_payload (ie_payload_ref h)) as [[|x' y']|]; [done| |done].
  destruct (get_job_run X (String x' y') s1 (gr_good _ _ _ _ H1)) as (s2 & E2 & H2).
  apply same_bind; [done|]. rewrite E2. intros c s3 [= <- <-].
  destruct (known s1 (String x' y')) as [c|] eqn:Ec; [|done].
  destruct (pending_status (jr_status c)); [done|]. destruct (running_status (jr_status c)) eqn:Er; [cbn [negb]|done].
  apply same_bind; [|done]. apply (gr_known _ _ _ _ H2) in Ec as Ek.
  eapply (repair_running_same X); [by eapply gr_good| | |done].
  - eapply (bounded_moves _ X); [exact Hb|]. apply grows_moves. by eapply grows_trans.
  - destruct (known_facts agents agents_normal X _ _ _ (proj1 (gr_good _ _ _ _ H2)) Ek) as (-> & _). done.
Qed.

Lemma repair_heads_same X names s :
  good X s → bounded rs s → repair_heads cfg cc names s = repair_heads cfg cc' names s.
Proof.
  revert s. induction names as [|a names IH]; intros s Hs Hb; [done|]. cbn [repair_heads].
  apply (same_moved X); [by apply moves_repair_head|done|by apply (repair_head_same X)|].
  intros x s1 H1. apply same_bind; [|done]. apply IH; [by eapply mv_good|by eapply bounded_moves].
Qed.

Lemma prepare_same X s :
  good X s → bounded rs s → prepare_reply_deliveries cfg ou cc s = prepare_reply_deliveries cfg ou cc' s.
Proof. intros Hs Hb. unfold prepare_reply_deliveries. apply same_bind; [by apply (repair_heads_same X)|done]. Qed.
End heads.

(** ** One completion *)

(** What is left running when the job has ended. *)
Definition rest_runs rs rs' X s id : Prop :=
  ∀ Y s', moves Y s s' → ended s' id → bounded rs s → bounded rs' s'.

Lemma complete_same_step rs rs' m m' X id d s :
  agree rs' (completes m) (completes m') → good X s → bounded rs s → rest_runs rs rs' X s id →
  completes (S m) id d s = completes (S m') id d s.
Proof.
  intros Ha Hs Hb Hrest. cbn [complete]. destruct (negb (cd_terminal d)); [done|].
  destruct (get_job_run X id s Hs) as (s1 & E1 & H1). apply same_bind; [done|]. rewrite E1. intros c s' [= <- <-].
  destruct (known s id) as [c|] eqn:Ec; [|done]. destruct (job_terminal (jr_status c)) eqn:Et; [done|].
  apply (gr_known _ _ _ _ H1) in Ec as Ec1.
  destruct (known_facts agents agents_normal X _ _ _ (proj1 Hs) Ec) as (Hid & _ & Hn & _).
  apply (same_grown X); [destruct (opt_truthy _); grows_solve|by eapply gr_good|].
  intros f s2 H2. apply (gr_known _ _ _ _ H2) in Ec1 as Ec2.
  assert (Hs2 : good X s2) by (by eapply gr_good).
  apply same_bind; [done|]. intros [[t d'] p] s3 E3.
  assert (W : wp (persist_terminal_completion cfg c d f) (λ x s3, ∃ Y, moves Y s2 s3 ∧ known s3 (jr_job_id x.1.1) = Some x.1.1 ∧
    jr_job_id x.1.1 = id ∧ job_terminal (jr_status x.1.1) = true) (λ _ _, True) s2).
  { apply wp_mono_ids; [eauto with mono|]. eapply (persist_effect cfg); [by unfold views|done|done|].
    intros x s4 Hidt Hsl Ht Ho Hv Hi. rewrite Hid in Hidt. exists (jr_job_id x.1.1 :: X). split.
    - eapply (moves_ends cfg agents_normal X s2 s4 x.1.1 c); [done|by rewrite Hidt|done..].
    - split; [|done]. unfold known. rewrite (known_row_equiv _ _ _ Hv). exact (push_known_same x.1.1 (jview_of s2)). }
  unfold wp in W. rewrite E3 in W. cbn [fst] in W. destruct W as (Y & Hm & Hkt & Hidt & Htt).
  assert (Hb3 : bounded rs' s3).
  { apply (Hrest Y); [|exists t; rewrite <-Hidt at 1; done|done]. eapply moves_trans; [by apply grows_moves|].
    eapply moves_trans; [by apply grows_moves|exact Hm]. }
  assert (Hs3 : good Y s3) by (by eapply mv_good).
  apply (same_bind (record_message_bureau_completion cfg ou c t d' p f)); [done|]. intros [t' retry] s4 E4.
  pose proof (wp_record_completion cfg ou agents_normal hex_injective registry_agents Y t c d' p f s3 Hs3 Hkt) as W4.
  unfold wp in W4. rewrite E4 in W4. destruct W4 as [W4 _].
  apply (same_moved Y); [apply Grows_Moves, Grows_quiet; unfold finish_terminal_runtime; eauto with quiet mono|
    by eapply mv_good|done|]. intros _ s5 H5.
  apply (same_grown Y); [apply Grows_calm, calm_delivery_terminal|by eapply mv_good|]. intros _ s6 H6.
  destruct retry; [done|].
  apply (same_grown Y); [apply Grows_quiet; unfold maybe_notify_sender; [quiet_solve|mono_solve]|by eapply gr_good|].
  intros _ s7 H7. apply same_bind; [|done]. destruct (ou_auto_reply_delivery ou); [|done]. apply same_bind; [|done].
  eapply (prepare_same rs').
  - intros; by apply (complete_moves cfg ou agents_normal hex_injective registry_agents).
  - exact Ha.
  - by eapply gr_good.
  - eapply (bounded_moves _ Y); [exact Hb3|]. eapply moves_trans; [exact W4|]. eapply moves_trans; [exact H5|].
    eapply moves_trans; by apply grows_moves.
Qed.

Definition without (id : string) (rs : list string) : list string := List.filter (λ y, negb (String.eqb id y)) rs.

Lemma without_shorter id rs : id ∈ rs → (length (without id rs) < length rs)%nat.
Proof.
  induction rs as [|y rs IH]; [by intros ?%elem_of_nil|]. cbn. intros [->|Hy]%elem_of_cons.
  - rewrite String.eqb_refl. cbn. pose proof (List.filter_length_le (λ z, negb (String.eqb y z)) rs). lia.
  - specialize (IH Hy). unfold without in IH. destruct (negb _); cbn; lia.
Qed.

Lemma agree_depth n rs m m' :
  (length rs ≤ n)%nat → (n ≤ m)%nat → (n ≤ m')%nat → agree rs (completes m) (completes m').
Proof.
  revert rs m m'. induction n as [|n IH]; intros rs m m' Hl Hm Hm' X id d s Hs Hb Hr; apply Hb in Hr as Hin.
  { destruct rs; [by apply elem_of_nil in Hin|cbn in Hl; lia]. }
  destruct m as [|m]; [lia|]. destruct m' as [|m']; [lia|].
  apply (complete_same_step rs (without id rs) m m' X); [|done..|].
  - apply IH; [|lia..]. apply without_shorter in Hin. lia.
  - intros Y s' Hmv He _ y Hy. unfold without. apply elem_of_filter_bool. split; [by apply Hb, (mv_runs _ _ _ _ Hmv)|].
    destruct (String.eqb_spec id y) as [<-|]; [|done]. by apply ended_not_runs in He.
Qed.

Lemma complete_depth n rs m m' X id d s :
  (length rs ≤ n)%nat → (n < m)%nat → (n < m')%nat → good X s → bounded rs s →
  completes m id d s = completes m' id d s.
Proof.
  intros Hl Hm Hm' Hs Hb. destruct m as [|m]; [lia|]. destruct m' as [|m']; [lia|].
  apply (complete_same_step rs rs m m' X); [|done..|].
  - apply (agree_depth n); lia.
  - intros Y s' Hmv _ Hb'. by eapply bounded_moves.
Qed.

(** ** One running job for an agent *)

Definition active_jobs s : list string := flat_map (λ a, option_list (q_active (di_queues s) !! agent_slot a)) agents.

Lemma actives_length (active : slot → option string) (l : list string) :
  (length (flat_map (λ a, option_list (active (agent_slot a))) l) ≤ length l)%nat.
Proof.
  clear. induction l as [|a l IH]; [done|]. cbn [flat_map]. rewrite length_app.
  destruct (active (agent_slot a)); simpl; lia.
Qed.

Lemma active_jobs_length s : (length (active_jobs s) ≤ length agents)%nat.
Proof. apply (actives_length (λ sl, q_active (di_queues s) !! sl)). Qed.

Lemma active_jobs_bound X s : good X s → bounded (active_jobs s) s.
Proof.
  intros [Hg _] id (r & Hr & Hrun).
  destruct (known_facts agents agents_normal X _ _ _ Hg Hr) as (_ & Hl & _ & Hin & _).
  pose proof (is_active _ _ (vg_step _ _ _ Hg) (agent_slot (jr_target_name r))) as Ha.
  change (running_jobs (jobs_of (di_jobs s) (jr_target_name r)) =
          option_list (q_active (di_queues s) !! agent_slot (jr_target_name r))) in Ha.
  assert (Hj : id ∈ running_jobs (jobs_of (di_jobs s) (jr_target_name r))) by (apply elem_of_jobs_with; by exists r).
  rewrite Ha in Hj. unfold active_jobs. apply list_elem_of_In, in_flat_map. exists (jr_target_name r).
  split; by apply list_elem_of_In.
Qed.
End depth.
