(* ===== verification/DispatchTicks.v ===== *)
(** Polling, the restoration of running jobs, and shutdown: they end jobs that do not wait,
    or all jobs there are.

    The tick: what starts a job, and what ends one that cannot be started.  A start that
    raises leaves a log from which a new daemon can begin. *)

From Stdlib Require Import Ascii String ZArith Lia.
From stdpp Require Import base gmap list strings functions.
From S2P Require Import Prelude PyData Names Storage MailboxModels MailboxKernel CompletionModels Detectors Jobs Api JobStore BureauModels BureauState Bureau Completion Artifacts DispatchState DispatchPolicy Dispatch Drain Routing Chains Continuations Submission Deliveries Finalize Starting Polling DispatchView DispatchGood DispatchOps DispatchKeeps DispatchGrows DispatchEnds DispatchFinish.

Local Open Scope Z_scope.

(** ** The trackers' views are of the jobs that have one *)

Lemma tracker_tick_id id now l v : (tracker_tick id now l).2 = Ok v → tv_job_id v = id.
Proof.
  intros H.
  assert (Hy : ∀ l v, (current_required id l).2 = Ok v → tv_job_id v = id).
  { intros l0 v0. unfold current_required, current, mbind', mget. destruct (tracker_get id l0) as [t|]; [|done].
    unfold mlift, tracker_view. destruct (result_bind _ _) as [w|] eqn:E; [|done]. intros [= <-].
    apply result_bind_Ok in E as (a & _ & E). apply result_bind_Ok in E as (b & _ & E). by injection E as <-. }
  revert H. unfold tracker_tick, mbind'. destruct (require_tracker id l) as [l1 [t|]]; [|done].
  destruct (with_detector _ _ l1) as [l2 [u|]]; [|done]. destruct (maybe_finalize_timeout _ _ l2) as [l3 [u'|]]; [|done].
  apply Hy.
Qed.

Lemma tick_each_ids ids now l vs : (tick_each ids now l).2 = Ok vs → map tv_job_id vs = ids.
Proof.
  revert l vs. induction ids as [|id ids IH]; intros l vs; [by intros [= <-]|]. cbn. unfold mbind'.
  destruct (tracker_tick id now l) as [l1 [v|]] eqn:E1; [|done].
  destruct (tick_each ids now l1) as [l2 [vs'|]] eqn:E2; [|done]. intros [= <-]. cbn. f_equal.
  - apply (tracker_tick_id id now l). by rewrite E1.
  - apply (IH l1). by rewrite E2.
Qed.

Lemma tracker_pop_incl id l : map fst (tracker_pop id l) ⊆ map fst l.
Proof.
  induction l as [|[k u] l IH]; [done|]. cbn. destruct (String.eqb id k); cbn; set_solver.
Qed.

Section polls.
Context (cfg : dconfig) (ou : outside) `{Execution} (depth : nat).
Hypothesis agents_normal : Forall (λ a, normal_name a = true) (dc_agents cfg).
Hypothesis hex_injective : ∀ m n, dc_hex cfg m = dc_hex cfg n → m = n.
Hypothesis registry_agents : ∀ a sp, tc_agents (dc_tracker cfg) !! a = Some sp → a ∈ dc_agents cfg.

Implicit Types (s : dispatcher) (X : list string) (r c : JobRecord).
Abbreviation agents := (dc_agents cfg).
Abbreviation Grows := (Grows cfg).
Abbreviation grows := (grows cfg).
Abbreviation Moves := (Moves cfg).
Abbreviation moves := (moves cfg).
Abbreviation good := (good cfg).
Abbreviation finish := (complete cfg ou depth).

Hint Resolve grows_retry grows_continuation grows_get_job : grows.

(** The last step of many: the end of a job that does not wait. *)
Lemma wp_finish X s0 s id d (Q : JobRecord → dispatcher → Prop) :
  moves X s0 s → idle s0 id → (∀ j s', moves X s0 s' → ended s' id → Q j s') →
  wp (finish id d) Q (λ _, moves X s0) s.
Proof.
  intros H0 Hi HQ.
  eapply wp_mono; [apply (wp_complete_idle cfg ou agents_normal hex_injective registry_agents depth X);
    [by eapply mv_good|by eapply (idle_moves cfg)]| |]; cbv beta.
  - intros j s' (H1 & H2 & _). apply HQ; [by eapply moves_trans|done].
  - intros e s' H1. by eapply moves_trans.
Qed.

(** A step whose outcome counts no further than that it moves. *)
Lemma wp_moves_step X s0 s {A B} (m : DM A) (f : A → DM B) (Q : B → dispatcher → Prop) :
  moves X s0 s → Moves X m → (∀ a s', moves X s0 s' → wp (f a) Q (λ _, moves X s0) s') →
  wp (mbind' m f) Q (λ _, moves X s0) s.
Proof.
  intros H0 Hm Hf. apply wp_bind. apply (wp_moves cfg X); [done|by eapply mv_good| |].
  - intros a s' H'. apply Hf. by eapply moves_trans.
  - intros e s' H'. by eapply moves_trans.
Qed.

(** The job as it is found. *)
Lemma wp_found X id s {B} (f : option JobRecord → DM B) (Q : B → dispatcher → Prop) :
  good X s →
  (∀ o s', grows X s s' → known s id = o → (∀ c, o = Some c → jr_job_id c = id) →
     wp (f o) Q (λ _, moves X s) s') →
  wp (mbind' (get_job cfg id) f) Q (λ _, moves X s) s.
Proof.
  intros Hs Hf. apply wp_bind. eapply (wp_get_job cfg agents_normal X); [done|]. intros s' Hg.
  apply Hf; [done..|]. intros c Hc. by destruct (known_facts agents agents_normal X _ _ _ (proj1 Hs) Hc).
Qed.

Lemma idle_known s id r : known s id = Some r → pending_status (jr_status r) = false → idle s id.
Proof. by exists r. Qed.

Lemma running_not_pending st : running_status st = true → pending_status st = false.
Proof. by destruct st. Qed.

(** ** The updates of the execution service *)

Lemma grows_ingest_items X c id items last : Grows X (ingest_items cfg c id items last).
Proof. revert last. induction items as [|i items IH]; intros last; cbn [ingest_items]; unfold with_tracker; grows_solve. Qed.
Hint Resolve grows_ingest_items : grows.
Lemma grows_tracker_view X c v u : Grows X (apply_tracker_view cfg c v u).
Proof. apply Grows_quiet; [apply quiet_tracker_view|eauto with mono]. Qed.
Hint Resolve grows_tracker_view : grows.
Lemma grows_ingest X c u : Grows X (ingest_update_items cfg c u).
Proof. unfold ingest_update_items, with_tracker. grows_solve. Qed.

Lemma wp_apply_update X u s :
  good X s → idle s (eu_job_id u) → wp (apply_update cfg ou depth u) (λ _, moves X s) (λ _, moves X s) s.
Proof.
  intros Hs Hi. unfold apply_update. apply (wp_found X); [done|]. intros [c|] s1 H1 Hk Hid; [|by apply wp_ret, grows_moves].
  apply grows_moves in H1. destruct (job_terminal (jr_status c)); [by apply wp_ret|].
  apply (wp_moves_step X); [done|apply Grows_Moves, grows_ingest|]. intros tr s2 H2.
  apply (wp_moves_step X); [done|apply Grows_Moves; grows_solve|]. intros [d|] s3 H3; [|by apply wp_ret].
  apply wp_bind. apply (wp_finish X); [done..|]. intros j s4 H4 _. by apply wp_ret.
Qed.

Lemma wp_apply_updates X us s0 s :
  moves X s0 s → Forall (λ u, idle s0 (eu_job_id u)) us →
  wp (apply_updates cfg ou depth us) (λ _, moves X s0) (λ _, moves X s0) s.
Proof.
  intros H0 Hu. revert s H0. induction Hu as [|u us Hi _ IH]; intros s H0; cbn [apply_updates]; [by apply wp_ret|].
  apply wp_bind. eapply wp_mono; [apply (wp_apply_update X); [by eapply mv_good|by eapply (idle_moves cfg)]| |].
  - intros o s1 H1. apply wp_bind. eapply wp_mono; [apply IH; by eapply moves_trans| |done].
    intros l s2 H2. by apply wp_ret.
  - intros e s1 H1. by eapply moves_trans.
Qed.

(** ** The tracker *)

Lemma wp_apply_tracked X v done_ids s :
  good X s → idle s (tv_job_id v) → wp (apply_tracked cfg ou depth v done_ids) (λ _, moves X s) (λ _, moves X s) s.
Proof.
  intros Hs Hi. unfold apply_tracked. cbv zeta. apply (wp_found X); [done|].
  intros [c|] s1 H1 Hk Hid; [|by apply wp_ret, grows_moves].
  apply grows_moves in H1. destruct (job_terminal (jr_status c) || _); [by apply wp_ret|].
  apply (wp_moves_step X); [done|apply Grows_Moves, grows_tracker_view|]. intros _ s2 H2.
  destruct (negb (cd_terminal (tv_decision v))); [by apply wp_ret|].
  apply (wp_moves_step X); [done|apply Grows_Moves; unfold active_submission; grows_solve|]. intros sub s3 H3.
  apply (wp_moves_step X); [done|apply Grows_Moves; grows_solve|]. intros [d|] s4 H4; [|done].
  apply wp_bind. apply (wp_finish X); [done..|]. intros j s5 H5 _. by apply wp_ret.
Qed.

Lemma wp_apply_all X vs done_ids s0 s :
  moves X s0 s → Forall (λ v, idle s0 (tv_job_id v)) vs →
  wp (apply_all_tracked cfg ou depth vs done_ids) (λ _, moves X s0) (λ _, moves X s0) s.
Proof.
  intros H0 Hv. revert s done_ids H0. induction Hv as [|v vs Hi _ IH]; intros s done_ids H0; cbn [apply_all_tracked];
    [by apply wp_ret|].
  apply wp_bind. eapply wp_mono; [apply (wp_apply_tracked X); [by eapply mv_good|by eapply (idle_moves cfg)]| |].
  - intros o s1 H1. apply wp_bind. eapply wp_mono; [apply IH; by eapply moves_trans| |done].
    intros l s2 H2. by apply wp_ret.
  - intros e s1 H1. by eapply moves_trans.
Qed.

(** The jobs that have a tracker. *)
Definition tracked s : list string := map fst (di_trackers s).

Lemma wp_finish_waiting l s :
  wp (finish_waiting l) (λ _ s', views s' (jview_of s) ∧ di_ids s' = di_ids s ∧ tracked s' ⊆ tracked s) (λ _ _, False) s.
Proof.
  revert s. induction l as [|[id sub] l IH]; intros s; cbn [finish_waiting]; [by apply wp_ret|].
  apply wp_bind. destruct (waiting_for_draft (su_runtime_state sub)); [|apply wp_ret, IH].
  unfold wp at 1. unfold on_trackers, tracker_finish, mmod. eapply wp_mono; [apply IH| |done].
  intros u s' (Hv & Hi & Ht). cbn in *. split; [exact Hv|]. split; [done|]. etrans; [exact Ht|].
  unfold tracked. cbn. apply tracker_pop_incl.
Qed.

Lemma wp_tick_tracker X done_ids s :
  good X s → Forall (idle s) (tracked s) →
  wp (tick_tracker cfg ou depth done_ids) (λ _, moves X s) (λ _, moves X s) s.
Proof.
  intros Hs Ht. unfold tick_tracker. destruct (negb (dc_tracking cfg)); [by apply wp_ret, moves_refl|].
  apply wp_bind. apply (wp_run _ _ s (di_ids s)); [done|]. apply wp_bind.
  eapply wp_mono; [apply wp_finish_waiting| |done]. intros _ s1 (Hv & Hi & Hsub).
  assert (H1 : moves X s s1) by (apply grows_moves, grows_same; [done|done|lia]).
  apply wp_bind. unfold clock at 1, wp at 1. set (s2 := Dispatcher _ _ _ _ _ _ _ _ _ _).
  assert (H2 : moves X s s2).
  { eapply moves_trans; [exact H1|]. apply grows_moves, grows_same; [by eapply mv_good|done|done]. }
  assert (Hsub2 : tracked s2 ⊆ tracked s) by exact Hsub. clearbody s2.
  apply wp_bind. unfold wp at 1. pose proof (quiet_trackers (tick_all (dc_clock cfg (di_readings s1))) s2) as Hq.
  pose proof (mono_trackers (tick_all (dc_clock cfg (di_readings s1))) s2) as Hm.
  destruct (on_trackers (tick_all (dc_clock cfg (di_readings s1))) s2) as [s3 r] eqn:El. cbn [fst] in Hq, Hm.
  assert (H3 : moves X s s3).
  { eapply moves_trans; [exact H2|]. apply grows_moves, grows_same; [by eapply mv_good|exact Hq|exact Hm]. }
  destruct r as [vs|e]; [|done]. apply wp_apply_all; [done|].
  assert (Hids : map tv_job_id vs = tracked s2).
  { apply (tick_each_ids _ (dc_clock cfg (di_readings s1)) (di_trackers s2)). unfold on_trackers, tick_all, mbind', mget in El.
    destruct (tick_each _ _ (di_trackers s2)) as [l r]. by injection El as _ ->. }
  apply Forall_forall. intros v Hv'. apply (list.Forall_forall (idle s) (tracked s)); [done|]. apply Hsub2. rewrite <-Hids.
  apply list_elem_of_In. apply (in_map tv_job_id). exact Hv'.
Qed.

(** ** Restoration *)

Lemma wp_restore_delivery X c s0 s :
  moves X s0 s → idle s0 (jr_job_id c) →
  wp (restore_delivery cfg ou depth c) (λ _, moves X s0) (λ _, moves X s0) s.
Proof.
  intros H0 Hi. unfold restore_delivery. apply (wp_moves_step X); [done|apply Grows_Moves; grows_solve|]. intros t s1 H1.
  apply (wp_moves_step X); [done|apply Grows_Moves; grows_solve|]. intros d s2 H2.
  apply wp_bind. apply (wp_finish X); [done..|]. intros j s3 H3 _. apply wp_bind, wp_lift.
  by destruct (new_restore_entry _); [apply wp_ret|].
Qed.

Lemma wp_failed_restore X c (r : restore_result) s0 s :
  moves X s0 s → idle s0 (jr_job_id c) →
  wp (failed_restore_decision cfg ou depth c r) (λ _, moves X s0) (λ _, moves X s0) s.
Proof.
  intros H0 Hi. unfold failed_restore_decision. apply (wp_moves_step X); [done|apply Grows_Moves; grows_solve|]. intros t s1 H1.
  destruct (restore_failure_decision_shape r) as [[st re] ex]. cbv zeta.
  apply (wp_moves_step X); [done|apply Grows_Moves; grows_solve|]. intros _ s2 H2.
  apply (wp_moves_step X); [done|apply Grows_Moves; grows_solve|]. intros d s3 H3.
  apply (wp_finish X); [done..|]. by intros j s4 H4 _.
Qed.

Lemma grows_ensure X c t : Grows X (ensure_completion_tracker cfg c t).
Proof. unfold ensure_completion_tracker, with_tracker. grows_solve. Qed.
Hint Resolve grows_ensure : grows.

Lemma wp_then_some X s0 s {A B} (m : DM A) (g : A → B) :
  wp m (λ _, moves X s0) (λ _, moves X s0) s →
  wp (let* x := m in mret' (Some (g x))) (λ _, moves X s0) (λ _, moves X s0) s.
Proof. intros Hm. apply wp_bind. eapply wp_mono; [exact Hm| |done]. intros x s' H'. by apply wp_ret. Qed.

Lemma wp_restore_current X id s :
  good X s → wp (restore_current_job cfg ou depth id) (λ _, moves X s) (λ _, moves X s) s.
Proof.
  intros Hs. unfold restore_current_job. apply (wp_found X); [done|].
  intros [c|] s1 H1 Hk Hid; [|by apply wp_ret, grows_moves].
  apply grows_moves in H1. specialize (Hid c eq_refl).
  destruct (running_status (jr_status c)) eqn:Er; cbn [negb]; [|by apply wp_ret].
  assert (Hi : idle s (jr_job_id c)) by (rewrite Hid; eapply idle_known; [exact Hk|by apply running_not_pending]).
  destruct (is_reply_delivery_job c); [by apply (wp_then_some X s s1 _ (λ x, x)), wp_restore_delivery|].
  apply (wp_moves_step X); [done|apply Grows_Moves; grows_solve|]. intros _ s2 H2.
  apply (wp_moves_step X); [done|apply Grows_Moves; grows_solve|]. intros now s3 H3.
  apply (wp_moves_step X); [done|apply Grows_Moves; grows_solve|]. intros r s4 H4.
  apply (wp_moves_step X); [done|apply Grows_Moves; grows_solve|]. intros entry s5 H5. cbv zeta.
  assert (Hr : wp (if was_restored r then let* j := mark_restored cfg c in mret' (Some (j, entry))
                   else let* j := failed_restore_decision cfg ou depth c r in mret' (Some (j, entry)))
                (λ _, moves X s) (λ _, moves X s) s5).
  { destruct (was_restored r); [|by apply (wp_then_some X s s5 _ (λ j, (j, entry))), wp_failed_restore].
    apply (wp_moves_step X); [done|apply Grows_Moves; unfold mark_restored; grows_solve|]. intros j s6 H6. by apply wp_ret. }
  destruct (String.eqb (rs_status r) "terminal_pending"); [|exact Hr]. destruct (rs_decision r) as [d|]; [|exact Hr].
  apply (wp_moves_step X); [done|apply Grows_Moves; grows_solve|]. intros _ s6 H6.
  apply (wp_then_some X s s6 _ (λ j, (j, entry))). apply (wp_finish X); [done..|]. by intros j s7 H7 _.
Qed.

Lemma moves_restore X ids : Moves X (restore_jobs cfg ou depth ids).
Proof.
  induction ids as [|id ids IH]; cbn [restore_jobs]; [apply Grows_Moves; grows_solve|].
  apply Moves_bind; [apply Moves_wp; intros s Hs; by apply wp_restore_current|]. intros x.
  apply Moves_bind; [exact IH|]. intros l. apply Grows_Moves. grows_solve.
Qed.

Lemma moves_restore_running X ids : Moves X (restore_running_jobs cfg ou depth ids).
Proof.
  unfold restore_running_jobs. destruct (negb ex_present); [apply Grows_Moves; grows_solve|].
  apply Moves_bind; [apply Grows_Moves; grows_solve|]. intros t. apply Moves_bind; [apply moves_restore|].
  intros l. apply Grows_Moves. grows_solve.
Qed.

(** ** Shutdown *)

(** What shutdown leaves: some jobs may have ended without leaving their queues. *)
Definition drifts s s' : Prop := ∃ Y, moves Y s s'.

Lemma wp_terminate_jobs ids reason forced X s :
  good X s → wp (terminate_jobs cfg ou depth ids reason forced) (λ _, drifts s) (λ _, drifts s) s.
Proof.
  revert X s. induction ids as [|id ids IH]; intros X s Hs; cbn [terminate_jobs].
  { apply wp_ret. exists X. by apply moves_refl. }
  assert (Hrest : ∀ (o : option JobRecord) s', drifts s s' →
    wp (let* l := terminate_jobs cfg ou depth ids reason forced in mret' (option_list o ++ l))
      (λ _, drifts s) (λ _, drifts s) s').
  { intros o s' [Y Hm]. apply wp_bind. eapply wp_mono; [apply (IH Y); by eapply mv_good| |].
    - intros l s2 [Z Hz]. apply wp_ret. exists Z. by eapply moves_trans.
    - intros e s2 [Z Hz]. exists Z. by eapply moves_trans. }
  apply wp_bind. eapply (wp_get_job cfg agents_normal X); [done|]. intros s1 H1. apply grows_moves in H1.
  assert (H1' : drifts s s1) by by exists X.
  apply wp_bind. destruct (known s id) as [c|] eqn:Ec; [|by apply wp_ret, Hrest].
  destruct (job_terminal (jr_status c)); [by apply wp_ret, Hrest|].
  assert (W : wp (terminate_job cfg ou depth c reason forced) (λ _, drifts s) (λ _, drifts s) s1).
  { unfold terminate_job.
    assert (Hstep : ∀ A B (m : DM A) (f : A → DM B) s', Grows X m → moves X s s' →
      (∀ a s'', moves X s s'' → wp (f a) (λ _, drifts s) (λ _, drifts s) s'') →
      wp (mbind' m f) (λ _, drifts s) (λ _, drifts s) s').
    { intros A B m f s' Hm Hs' Hf. apply wp_bind. apply (wp_grows cfg X); [done|by eapply mv_good| |].
      - intros a s2 Hg%grows_moves. apply Hf. by eapply moves_trans.
      - intros e s2 Hg%grows_moves. exists X. by eapply moves_trans. }
    apply Hstep; [grows_solve|done|]. intros t s2 H2.
    apply Hstep; [unfold snapshot_load; grows_solve|done|]. intros p s3 H3.
    apply Hstep; [grows_solve|done|]. intros d s4 H4. apply wp_bind.
    eapply wp_mono; [apply (wp_completed cfg ou agents_normal hex_injective registry_agents depth X);
      by eapply mv_good| |]; cbv beta.
    - intros j s5 (Hc & He & _). assert (Hd : ∃ Y, moves Y s s5).
      { destruct Hc as [Hc|[Hc _]]; [exists X|exists (jr_job_id c :: X)]; by eapply moves_trans. }
      destruct Hd as [Y Hd]. apply wp_bind. eapply wp_mono; [apply (wp_remove_ended cfg agents_normal Y); [by eapply mv_good|done]| |].
      + intros b s6 H6. apply wp_ret. exists Y. by eapply moves_trans.
      + intros e s6 H6. exists Y. by eapply moves_trans.
    - intros e s5 [Hc|[Hc _]]; [exists X|exists (jr_job_id c :: X)]; by eapply moves_trans. }
  unfold wp in W |- * at 1. unfold caught.
  destruct (terminate_job cfg ou depth c reason forced s1) as [s2 [j|e]]; [by apply (Hrest (Some j))|by apply (Hrest None)].
Qed.
End polls.

Section ticks.
Context (cfg : dconfig) (ou : outside) `{Execution} (depth : nat).
Hypothesis agents_normal : Forall (λ a, normal_name a = true) (dc_agents cfg).
Hypothesis hex_injective : ∀ m n, dc_hex cfg m = dc_hex cfg n → m = n.
Hypothesis registry_agents : ∀ a sp, tc_agents (dc_tracker cfg) !! a = Some sp → a ∈ dc_agents cfg.

Implicit Types (s : dispatcher) (X : list string) (v : jview) (r c : JobRecord).
Abbreviation agents := (dc_agents cfg).
Abbreviation Grows := (Grows cfg).
Abbreviation grows := (grows cfg).
Abbreviation Moves := (Moves cfg).
Abbreviation moves := (moves cfg).
Abbreviation good := (good cfg).
Abbreviation finish := (complete cfg ou depth).

Hint Resolve grows_retry grows_continuation grows_get_job : grows.

Lemma log_ok_ext (log log' : string → list JobRecord) :
  (∀ a, log a = log' a) → log_ok agents log' → log_ok agents log.
Proof. intros E [L1 L2 L3 L4]. split; intros *; rewrite ?E; eauto. Qed.

(** What a failure may leave: the log is one a daemon can start from. *)
Definition stranded s : Prop := log_ok agents (jobs_of (di_jobs s)) ∧ unused cfg (di_ids s) (jview_of s).

Lemma good_stranded X s : good X s → stranded s.
Proof. intros [Hg Hu]. split; [exact (vgood_log agents X _ Hg)|done]. Qed.

Definition settles {A} (m : DM A) : Prop := ∀ s, good [] s → wp m (λ _, good []) (λ _, stranded) s.

Lemma wp_settled {A} (m : DM A) s0 s :
  wp m (λ _, moves [] s0) (λ _, moves [] s0) s → wp m (λ _, good []) (λ _, stranded) s.
Proof.
  intros Hm. eapply wp_mono; [exact Hm| |]; cbv beta.
  - intros a s' H'. by eapply mv_good.
  - intros e s' H'. eapply good_stranded. by eapply mv_good.
Qed.

Lemma settles_moves {A} (m : DM A) : Moves [] m → settles m.
Proof. intros Hm s Hs. apply (wp_settled _ s). by apply wp_Moves. Qed.

Lemma settles_then {A B} (m : DM A) (f : A → DM B) : settles m → (∀ a, settles (f a)) → settles (mbind' m f).
Proof. intros Hm Hf s Hs. apply wp_bind. eapply wp_mono; [by apply Hm| |done]. intros a s' H'. by apply Hf. Qed.

Lemma settles_grows {A} (m : DM A) : Grows [] m → settles m.
Proof. intros Hm. by apply settles_moves, Grows_Moves. Qed.

(** ** The provider's part of a start *)

Lemma wp_finish_moves X s0 s id d :
  moves X s0 s → idle s0 id → wp (finish id d) (λ _, moves X s0) (λ _, moves X s0) s.
Proof.
  intros H0 Hi. apply (wp_finish cfg ou depth agents_normal hex_injective registry_agents X); [done..|].
  by intros j s' H' _.
Qed.

Lemma wp_fail_provider X s0 s c e t :
  moves X s0 s → idle s0 (jr_job_id c) →
  wp (fail_provider_start cfg ou depth c e t) (λ _, moves X s0) (λ _, moves X s0) s.
Proof.
  intros H0 Hi. unfold fail_provider_start. cbv zeta.
  apply (wp_moves_step cfg X); [done|apply Grows_Moves; grows_solve|]. intros _ s1 H1.
  apply (wp_moves_step cfg X); [done|apply Grows_Moves; grows_solve|]. intros d s2 H2. by apply wp_finish_moves.
Qed.

Lemma wp_after_start X s0 s c t sub :
  moves X s0 s → idle s0 (jr_job_id c) →
  wp (after_start cfg ou depth c t sub) (λ _, moves X s0) (λ _, moves X s0) s.
Proof.
  intros H0 Hi. unfold after_start, complete_reply_delivery_after_start. cbv zeta.
  destruct (is_reply_delivery_job c && ex_present); [|by apply wp_ret].
  destruct (is_none sub || _); [|by apply wp_ret].
  apply (wp_moves_step cfg X); [done|apply Grows_Moves; grows_solve|]. intros d s1 H1. by apply wp_finish_moves.
Qed.

Lemma grows_event_now X c ty p : Grows X (event_now cfg c ty p).
Proof. unfold event_now. grows_solve. Qed.
Hint Resolve grows_event_now : grows.

Lemma wp_start_provider X c t s :
  good X s → idle s (jr_job_id c) →
  wp (start_provider cfg ou depth c t) (λ _, moves X s) (λ _, moves X s) s.
Proof.
  intros Hs Hi. unfold start_provider.
  apply (wp_moves_step cfg X); [by apply moves_refl|destruct ex_present; apply Grows_Moves; unfold should_start_execution; grows_solve|].
  intros [|] s1 H1.
  - apply (wp_moves_step cfg X); [done|apply Grows_Moves; grows_solve|]. intros _ s2 H2.
    apply (wp_moves_step cfg X); [done|apply Grows_Moves; grows_solve|]. intros now s3 H3.
    destruct (ex_start now c) as [[sub|]|e].
    + apply (wp_moves_step cfg X); [done|apply Grows_Moves; grows_solve|]. intros _ s4 H4. by apply wp_after_start.
    + apply (wp_moves_step cfg X); [done|apply Grows_Moves; grows_solve|]. intros _ s4 H4. by apply wp_after_start.
    + apply (wp_moves_step cfg X); [done|apply Grows_Moves; grows_solve|]. intros f s4 H4. by apply wp_fail_provider.
  - apply (wp_moves_step cfg X); [done|apply Grows_Moves; grows_solve|]. intros _ s4 H4. by apply wp_after_start.
Qed.

(** ** The start *)

(** A job that may start now. *)
Record startable v (sl : slot) c : Prop := {
  sb_known : known_row v (jr_job_id c) = Some c;
  sb_pending : pending_status (jr_status c) = true;
  sb_slot : slot_of c = sl;
  sb_free : jv_active v sl = None;
}.

Lemma wp_start_running v n sl c t s :
  vgood agents [] v → unused cfg n v → startable v sl c → views s (take_item sl (jr_job_id c) v) → (n ≤ di_ids s)%nat →
  wp (start_running_job cfg ou depth c t) (λ _, good []) (λ _, stranded) s.
Proof.
  intros Hg Hu [Hk Hp Hsl Ha] Hv Hn.
  destruct (known_facts agents agents_normal [] _ _ _ Hg Hk) as (_ & _ & Hnorm & _).
  assert (Hlog : log_ok agents (jv_log v)) by exact (vgood_log agents [] _ Hg).
  assert (Hstuck : ∀ s', views s' (take_item sl (jr_job_id c) v) → (n ≤ di_ids s')%nat → stranded s').
  { intros s' Hv' Hn'. split.
    - eapply log_ok_ext; [exact (jv_same_log _ _ Hv')|exact Hlog].
    - intros m a Hm. pose proof (jv_same_log _ _ Hv' a) as E. rewrite E. apply Hu. lia. }
  unfold start_running_job. apply wp_bind.
  assert (Hclock : wp (if opt_truthy t then mret' (str_or t "") else clock cfg)
    (λ _ s', views s' (take_item sl (jr_job_id c) v) ∧ (n ≤ di_ids s')%nat) (λ _, stranded) s) by by destruct (opt_truthy t).
  eapply wp_mono; [exact Hclock| |done]. clear Hclock. intros t' s1 [Hv1 Hn1]. apply wp_bind.
  apply wp_mono_ids; [eauto with mono|].
  assert (Hend : ∀ r s', jr_job_id r = jr_job_id c → slot_of r = slot_of c → jr_status r = JS_RUNNING →
    views s' (put_active (slot_of r) (Some (jr_job_id r)) (push_row r (take_item sl (jr_job_id c) v))) →
    (n ≤ di_ids s')%nat → good [] s' ∧ idle s' (jr_job_id r)).
  { intros r s' Hid Hslr Hst Hv' Hn'.
    assert (E : put_active (slot_of r) (Some (jr_job_id r)) (push_row r (take_item sl (jr_job_id c) v)) = start_view r v)
      by (unfold start_view; by rewrite Hid, Hslr, Hsl).
    rewrite E in Hv'. split.
    - eapply good_views; [exact Hv'| |].
      + apply (vgood_start agents agents_normal [] v c r); [done|by rewrite Hid|done..|by rewrite Hsl|done].
      + eapply unused_le; [exact Hn'|]. apply (unused_push cfg agents_normal v [] r c); [done|by rewrite Hid|done..].
    - exists r. unfold known. rewrite (known_row_equiv _ _ (jr_job_id r) Hv'), Hst. split; [|done].
      exact (push_known_same r (take_item sl (jr_job_id r) v)). }
  eapply begin_running_effect; [exact Hv1|exact Hnorm|..].
  - intros e s' Hv' Hi. apply Hstuck; [done|lia].
  - intros r e s' Hid Hslr Hst Hv' Hi.
    assert (Hg' : vgood agents [] (start_view r v))
      by (apply (vgood_start agents agents_normal [] v c r); [done|by rewrite Hid|done..|by rewrite Hsl|done]).
    apply vgood_log in Hg'. assert (E : ∀ a, jobs_of (di_jobs s') a = jv_log (start_view r v) a) by exact (jv_same_log _ _ Hv').
    split.
    + eapply log_ok_ext; [exact E|exact Hg'].
    + intros m a Hm. change (job_name cfg m ∉ ids (jobs_of (di_jobs s') a)). rewrite E.
      apply (unused_push cfg agents_normal v [] r c n); [done|by rewrite Hid|done..|lia].
  - intros r e s' Hid Hslr Hst Ho Hv'. split; intros Hi.
    + eapply good_stranded. apply (Hend r); [done..|lia].
    + destruct (Hend r s') as [Hg' Hi']; [done..|lia|]. apply (wp_settled _ s'). by apply wp_start_provider.
Qed.

(** ** A job that cannot be started *)

(** It waits in this queue. *)
Definition waits v (sl : slot) (id : string) c : Prop :=
  known_row v id = Some c ∧ jr_job_id c = id ∧ pending_status (jr_status c) = true ∧ slot_of c = sl.

Lemma in_queue_waits v sl id c :
  vgood agents [] v → id ∈ jv_items v sl → known_row v id = Some c → waits v sl id c.
Proof.
  intros Hg Hi Hk. destruct (shown_pending agents agents_normal [] v sl id Hg (not_elem_of_nil _) Hi) as (r & Hr & Hp & Hsl).
  rewrite Hk in Hr. injection Hr as <-. destruct (known_facts agents agents_normal [] _ _ _ Hg Hk) as (Hid & _). done.
Qed.

Lemma wp_unstartable sl job s v :
  vgood agents [] v → views s v →
  wp (unstartable cfg sl job)
    (λ o s', views s' v ∧ ∀ c, o = Some c → waits v sl (jr_job_id job) c) (λ _ s', views s' v) s.
Proof.
  intros Hg Hv. unfold unstartable. apply wp_bind. eapply (dq_get_job cfg agents_normal []); [done..|].
  clear dependent s. intros s Hv. destruct (known_row v (jr_job_id job)) as [c|] eqn:Ek; [|by apply wp_ret].
  destruct (negb (pending_status (jr_status c))); [by apply wp_ret|].
  destruct (opt_truthy (jr_cancel_requested_at c)); [by apply wp_ret|].
  apply wp_bind. eapply dq_queued; [done|]. clear dependent s. intros s Hv.
  destruct (mem_str (jr_job_id job) (jv_items v sl)) eqn:Em; cbn [negb]; [|by apply wp_ret].
  apply wp_bind. eapply dq_active; [done|]. clear dependent s. intros s Hv.
  destruct (negb (is_none (jv_active v sl))); [by apply wp_ret|].
  apply wp_bind. eapply (dq_wp_quiet _ s v);
    [unfold owns_mailbox_head; apply quiet_bind; [apply quiet_caught; eauto with quiet|intros; eauto with quiet]|done| |done].
  clear dependent s. intros [|] s Hv; apply wp_ret; (split; [done|]); [|done]. intros c' [= <-].
  apply mem_str_spec in Em. by apply in_queue_waits.
Qed.

Lemma closes_good id s s' : closes cfg [] id s s' → good [] s' ∨ (good [id] s' ∧ moves [id] s s').
Proof. intros [Hm|[Hm _]]; [left|right; split; [|done]]; by eapply mv_good. Qed.

(** The end of such a job: it is over, and the queue may still have it; or nothing has come of it. *)
Definition over (id : string) s0 (o : option JobRecord) s : Prop :=
  (good [] s ∧ ∀ t, o = Some t → job_terminal (jr_status t) = true → ended s id) ∨
  (moves [id] s0 s ∧ ended s id ∧ ∃ t, o = Some t ∧ job_terminal (jr_status t) = true).

Lemma wp_complete_unstartable c reason t s :
  good [] s → known s (jr_job_id c) = Some c → pending_status (jr_status c) = true →
  wp (complete_unstartable cfg ou depth c reason t) (over (jr_job_id c) s) (λ _, stranded) s.
Proof.
  intros Hs Hk Hp. unfold complete_unstartable. apply wp_bind, wp_lift.
  destruct (unstartable_decision c reason t) as [d|]; [|by eapply good_stranded]. apply wp_bind.
  set (id := jr_job_id c) in *.
  pose proof (wp_completed cfg ou agents_normal hex_injective registry_agents depth [] id d s Hs) as W.
  unfold wp in W. unfold wp at 1. unfold attempted. destruct (finish id d s) as [s1 [j|e]].
  - destruct W as (Hc & He & Ht). apply wp_ret. destruct Hc as [Hm|[Hm _]].
    + left. split; [by eapply mv_good|by intros].
    + right. split; [done|]. split; [done|]. by exists j.
  - assert (Hcase : ∃ Y, moves Y s s1 ∧ (Y = [] ∨ Y = [id])) by (destruct W as [Hm|[Hm _]]; eauto).
    destruct Hcase as (Y & Hm & HY).
    apply (wp_grows_step cfg Y _ _ s1 s1);
      [apply Grows_caught; grows_solve|apply grows_refl; by eapply mv_good|intros; by eapply good_stranded, gr_good|].
    intros _ s2 H2. apply (wp_get_job cfg agents_normal Y); [by eapply gr_good|]. intros s3 H3.
    assert (H23 : grows Y s1 s3) by by eapply grows_trans.
    assert (Hended : ∀ r, known s2 id = Some r → job_terminal (jr_status r) = true → ended s3 id).
    { intros r Hr Ht. exists r. split; [by apply (gr_known _ _ _ _ H3)|done]. }
    destruct HY as [-> | ->].
    + left. split; [by eapply gr_good|]. intros r Hr. by apply Hended.
    + right. assert (He : ended s2 id).
      { destruct (mv_good _ _ _ _ Hm) as [Hg _]. destruct (vg_ended _ _ _ Hg id) as (r & Hr & Ht); [by left|].
        exists r. split; [by apply (gr_known _ _ _ _ H2)|done]. }
      split; [eapply moves_trans; [exact Hm|by apply grows_moves]|]. destruct He as (r & Hr & Ht). split; [by eapply Hended|].
      by exists r.
Qed.

Lemma settles_unstartable sl job reason : settles (fail_unstartable_job cfg ou depth sl job reason).
Proof.
  intros s Hs. unfold fail_unstartable_job.
  apply (wp_grows_step cfg [] _ _ s s); [grows_solve|by apply grows_refl|intros; by eapply good_stranded, gr_good|].
  intros t s1 H1. assert (Hs1 : good [] s1) by by eapply gr_good. clear H1.
  assert (Hsame : ∀ s', views s' (jview_of s1) → (di_ids s1 ≤ di_ids s')%nat → grows [] s1 s')
    by (intros; by apply grows_same).
  apply wp_bind. apply wp_mono_ids.
  { unfold unstartable, owns_mailbox_head. mono_solve. }
  eapply wp_mono; [apply (wp_unstartable sl job s1 (jview_of s1)); [apply Hs1|by unfold views]| |]; cbv beta.
  2: { intros e s' Hv Hi. eapply good_stranded, gr_good. by apply Hsame. }
  intros o s2 [Hv Ho] Hi. assert (H2 : grows [] s1 s2) by by apply Hsame.
  destruct o as [c|]; [|by eapply wp_ret, gr_good]. destruct (Ho c eq_refl) as (Hk & Hid & Hp & Hsl).
  assert (Hk2 : known s2 (jr_job_id c) = Some c) by (rewrite Hid; by apply (gr_known _ _ _ _ H2)).
  apply wp_bind. eapply wp_mono; [apply wp_complete_unstartable; [by eapply gr_good|done..]| |done].
  intros o s3 H3. cbv beta in H3. rewrite Hid in H3.
  destruct o as [r|].
  2: { apply wp_ret. by destruct H3 as [[H3 _]|(_ & _ & r & ? & _)]. }
  destruct (job_terminal (jr_status r)) eqn:Et; cbn [negb].
  2: { apply wp_ret. destruct H3 as [[H3 _]|(_ & _ & r' & [= <-] & Hr')]; [done|congruence]. }
  apply wp_bind. destruct H3 as [[Hs3 He]|(Hm & He & _)].
  - eapply wp_mono; [apply (wp_remove_ended cfg agents_normal []); [done|by eapply He]| |]; cbv beta.
    + intros b s4 H4. eapply wp_ret, mv_good. exact H4.
    + intros e s4 H4. eapply good_stranded, mv_good. exact H4.
  - apply wp_mono_ids; [eauto with mono|]. eapply dq_remove; [by unfold views|]. intros b s4 Hv4 Hi4.
    apply wp_ret. destruct (mv_good _ _ _ _ Hm) as [Hg3 Hu3].
    assert (Hx : jv_index (jview_of s3) (jr_job_id job) = Some sl).
    { destruct (mv_known _ _ _ _ Hm (jr_job_id job) c) as (r' & Hr' & Hsl' & _); [by rewrite <-Hid|].
      destruct (known_facts agents agents_normal _ _ _ _ Hg3 Hr') as (_ & _ & _ & _ & Hix). congruence. }
    eapply good_views; [exact Hv4|by apply vgood_take|]. by eapply unused_le.
Qed.

(** ** Claims *)

Definition gated v n sl c (allowed : bool) s : Prop :=
  if allowed then views s v ∧ (n ≤ di_ids s)%nat ∧ startable v sl c else good [] s.

Lemma wp_claimable sl c s v :
  vgood agents [] v → known_row v (jr_job_id c) = Some c → views s v →
  wp (still_claimable cfg sl c) (λ b s', views s' v ∧ (b = true → startable v sl c)) (λ _ s', views s' v) s.
Proof.
  intros Hg Hk Hv. unfold still_claimable. apply wp_bind. eapply (dq_get_job cfg agents_normal []); [done..|].
  clear dependent s. intros s Hv. rewrite Hk. destruct (negb _); [by apply wp_ret|].
  apply wp_bind. eapply dq_queued; [done|]. clear dependent s. intros s Hv.
  destruct (mem_str (jr_job_id c) (jv_items v sl)) eqn:Em; cbn [negb]; [|by apply wp_ret].
  apply wp_bind. eapply dq_active; [done|]. clear dependent s. intros s Hv. apply wp_ret. split; [done|].
  intros Ha. apply mem_str_spec in Em. destruct (in_queue_waits v sl _ c Hg Em Hk) as (_ & _ & Hp & Hsl).
  split; [done..|]. by destruct (jv_active v sl).
Qed.

Lemma wp_gate sl c tz s :
  good [] s → known s (jr_job_id c) = Some c →
  wp (preclaim_gate cfg ou depth sl c tz) (gated (jview_of s) (di_ids s) sl c) (λ _, stranded) s.
Proof.
  intros Hs Hk. unfold preclaim_gate, preclaim_outcome. apply wp_bind, wp_bind.
  apply (wp_run _ _ s (di_ids s)); [done|]. apply wp_ret.
  assert (Hno : wp (mret' false) (gated (jview_of s) (di_ids s) sl c) (λ _, stranded) s) by by apply wp_ret.
  destruct (if ex_present then ex_preclaim (di_ids s) c else PRECLAIM_ALLOWED) as [| |reason]; [|exact Hno|].
  - apply wp_mono_ids; [unfold still_claimable; mono_solve|].
    eapply wp_mono; [apply (wp_claimable sl c s (jview_of s)); [apply Hs|done|by unfold views]| |]; cbv beta.
    + intros [|] s' [Hv Hb] Hi; [split; [done|]; split; [done|by apply Hb]|].
      eapply gr_good. by apply (grows_same cfg [] s s').
    + intros e s' Hv Hi. eapply good_stranded, gr_good. by apply (grows_same cfg [] s s').
  - destruct tz; [|exact Hno]. apply wp_bind. eapply wp_mono; [by apply settles_unstartable| |done].
    intros o s' H'. by apply wp_ret.
Qed.

(** What is tried for a job that is known. *)
Definition tries (f : JobRecord → DM (option (option JobRecord))) : Prop :=
  ∀ c s, good [] s → known s (jr_job_id c) = Some c → wp (f c) (λ _, good []) (λ _, stranded) s.

Lemma wp_take_start v n sl c t s :
  vgood agents [] v → unused cfg n v → startable v sl c → views s v → (n ≤ di_ids s)%nat →
  wp (do* on_queues (remove_queued_for sl (jr_job_id c)) in
      let* j := start_running_job cfg ou depth c t in mret' (Some (Some j))) (λ _, good []) (λ _, stranded) s.
Proof.
  intros Hg Hu Hsb Hv Hn. apply wp_bind. apply wp_mono_ids; [eauto with mono|]. eapply dq_remove; [done|].
  intros b s' Hv' Hi. apply wp_bind. eapply wp_mono; [apply (wp_start_running v n sl c); [done..|lia]| |done].
  intros j s2 H2. by apply wp_ret.
Qed.

Lemma tries_request sl : tries (try_request_job cfg ou depth sl).
Proof.
  intros c s Hs Hk. unfold try_request_job. apply wp_bind. eapply wp_mono; [by apply wp_gate| |done].
  intros [|] s1 H1; cbn [negb]; [|by apply wp_ret]. destruct H1 as (Hv & Hi & Hsb).
  by apply (wp_take_start (jview_of s) (di_ids s)); [apply Hs|apply Hs|..].
Qed.

Lemma tries_reply sl : tries (try_reply_delivery cfg ou depth sl).
Proof.
  intros c s Hs Hk. unfold try_reply_delivery.
  apply (wp_grows_step cfg [] _ _ s s); [grows_solve|by apply grows_refl|intros; by eapply good_stranded, gr_good|].
  intros t s0 H0. assert (Hs0 : good [] s0) by by eapply gr_good. apply (gr_known _ _ _ _ H0) in Hk. clear dependent s.
  apply wp_bind. eapply wp_mono; [by apply wp_gate| |done].
  intros [|] s1 H1; cbn [negb]; [|by apply wp_ret]. destruct H1 as (Hv & Hi & Hsb). destruct Hs0 as [Hg Hu].
  assert (Hgs : ∀ s', views s' (jview_of s0) → (di_ids s0 ≤ di_ids s')%nat → good [] s').
  { intros s' Hv' Hi'. eapply gr_good. by apply (grows_same cfg [] s0 s'). }
  apply wp_bind. apply wp_mono_ids; [apply (calm_claim_delivery cfg)|].
  eapply (dq_wp_quiet _ s1); [apply (calm_claim_delivery cfg)|exact Hv| |].
  - intros [|] s2 Hv2 Hi2; cbn [negb].
    + apply (wp_take_start (jview_of s0) (di_ids s0)); [done..|lia].
    + apply wp_ret, Hgs; [done|lia].
  - intros e s2 Hv2 Hi2. eapply good_stranded, Hgs; [done|lia].
Qed.

Lemma settles_claim sl queued candidates f : tries f → settles (claim_first cfg sl queued candidates f).
Proof.
  intros Hf. induction candidates as [|x rest IH]; cbn [claim_first]; [apply settles_grows; grows_solve|].
  destruct (negb (mem_str x queued)); [exact IH|]. intros s Hs.
  apply wp_bind. apply wp_mono_ids; [eauto with mono|].
  eapply (dq_get_job cfg agents_normal []); [apply Hs|by unfold views|]. intros s1 Hv1 Hi1.
  assert (H1 : grows [] s s1) by by apply grows_same. assert (Hs1 : good [] s1) by by eapply gr_good.
  destruct (known_row (jview_of s) x) as [c|] eqn:Ec.
  - destruct (known_facts agents agents_normal [] _ _ _ (proj1 Hs) Ec) as (Hid & _).
    apply wp_bind. eapply wp_mono; [apply Hf; [done|]| |done].
    + rewrite Hid. by apply (gr_known _ _ _ _ H1).
    + intros [a|] s2 H2; [by apply wp_ret|by apply IH].
  - apply wp_bind. apply wp_mono_ids; [eauto with mono|]. eapply dq_remove; [exact Hv1|].
    intros b s2 Hv2 Hi2. apply IH. destruct Hs as [Hg Hu]. rewrite take_item_absent in Hv2.
    + eapply good_views; [exact Hv2|done|]. eapply unused_le; [|exact Hu]. lia.
    + intros Hi. by destruct (shown_pending agents agents_normal [] _ _ _ Hg (not_elem_of_nil _) Hi) as (r & Hr & _);
        rewrite Ec in Hr.
Qed.

Lemma settles_head a : settles (start_agent_mailbox_job cfg ou depth a).
Proof.
  unfold start_agent_mailbox_job. cbv zeta.
  apply settles_then; [apply settles_grows; grows_solve|]. intros queued.
  apply settles_then; [apply settles_grows; grows_solve|]. intros [h|]; [|apply settles_grows; grows_solve].
  destruct (ie_event_type h); try (apply settles_grows; solve [grows_solve]).
  - apply settles_then; [apply settles_grows; grows_solve|]. intros l. apply settles_claim, tries_request.
  - apply settles_then; [by apply settles_grows, grows_claimable|]. intros l. apply settles_claim, tries_reply.
Qed.

(** ** The tick *)

Lemma settles_agents names : settles (tick_agents cfg ou depth names).
Proof.
  induction names as [|a names IH]; cbn [tick_agents]; [apply settles_grows; grows_solve|].
  apply settles_then; [apply settles_grows; unfold runnable_agent; grows_solve|]. intros b.
  apply settles_then; [destruct b; [apply settles_head|apply settles_grows; grows_solve]|]. intros x.
  apply settles_then; [exact IH|]. intros l. apply settles_grows. grows_solve.
Qed.

Lemma settles_tick sweep : settles (tick cfg ou depth sweep).
Proof.
  unfold tick. apply settles_then; [apply settles_grows; destruct sweep; grows_solve|]. intros _.
  apply settles_then; [by apply settles_grows, grows_repair_chains|]. intros _.
  apply settles_then.
  { apply settles_moves, moves_prepare; [done..|]. intros X id d s Hs Hr.
    by apply (complete_moves cfg ou agents_normal hex_injective registry_agents). }
  intros _. apply settles_agents.
Qed.
End ticks.
