(* ===== verification/DispatchReads.v ===== *)
(** Computations that write nothing: no row, no event, nothing of the bureau, the tracker, the
    snapshots, the runtimes or the artifacts, and no change in queues, active jobs and index.
    Identifiers and clock readings may be drawn.  The planning of a request is one. *)

From Stdlib Require Import Ascii String ZArith Lia.
From stdpp Require Import base gmap list strings functions.
From S2P Require Import Prelude PyData Names Storage MailboxModels MailboxKernel CompletionModels Jobs Api JobStore BureauModels BureauState Bureau Completion Artifacts DispatchState DispatchPolicy Dispatch Drain Routing Chains Continuations Submission DispatchView DispatchGood DispatchOps DispatchKeeps.

Local Open Scope Z_scope.

(** The cache of the callback edges is not part of what is written. *)
Record same_bureau (b b' : bstate) : Prop := {
  sa_kernel : bs_kernel b' = bs_kernel b;
  sa_messages : bs_messages b' = bs_messages b;
  sa_attempts : bs_attempts b' = bs_attempts b;
  sa_replies : bs_replies b' = bs_replies b;
  sa_edges : es_rows (bs_edges b') = es_rows (bs_edges b);
  sa_latest : (latest_records (bs_edges b')).2 = (latest_records (bs_edges b)).2;
}.

Record unwritten (s s' : dispatcher) : Prop := {
  un_jobs : di_jobs s' = di_jobs s;
  un_bureau : same_bureau (di_bureau s) (di_bureau s');
  un_trackers : di_trackers s' = di_trackers s;
  un_snapshots : di_snapshots s' = di_snapshots s;
  un_registry : di_registry s' = di_registry s;
  un_artifacts : di_artifacts s' = di_artifacts s;
  un_view : views s' (jview_of s);
  un_ids : (di_ids s ≤ di_ids s')%nat;
}.

Lemma same_bureau_refl b : same_bureau b b.
Proof. done. Qed.
Lemma same_bureau_trans b1 b2 b3 : same_bureau b1 b2 → same_bureau b2 b3 → same_bureau b1 b3.
Proof. intros [? ? ? ? ? ?] [? ? ? ? ? ?]. split; congruence. Qed.

Lemma unwritten_refl s : unwritten s s.
Proof. by split. Qed.
Lemma unwritten_trans s1 s2 s3 : unwritten s1 s2 → unwritten s2 s3 → unwritten s1 s3.
Proof.
  intros [A1 A2 A3 A4 A5 A6 A7 A8] [B1 B2 B3 B4 B5 B6 B7 B8].
  split; try congruence; [by eapply same_bureau_trans| |lia]. unfold views in *. by rewrite B7.
Qed.

(** ** Reads of the bureau *)

Definition bureau_read {A} (m : BM A) : Prop := ∀ b, same_bureau b (m b).1.

Lemma bread_bind {A B} (m : BM A) (f : A → BM B) : bureau_read m → (∀ a, bureau_read (f a)) → bureau_read (mbind' m f).
Proof.
  intros Hm Hf b. specialize (Hm b). unfold mbind'. destruct (m b) as [b' [a|e]]; cbn in *; [|done].
  eapply same_bureau_trans; [exact Hm|apply Hf].
Qed.
Lemma bread_ret {A} (a : A) : bureau_read (mret' a).
Proof. done. Qed.
Lemma bread_lift {A} (r : result A) : bureau_read (mlift r).
Proof. done. Qed.
Lemma bread_get {A} (f : bstate → A) : bureau_read (mget f).
Proof. done. Qed.
Lemma bread_raise {A} k msg : bureau_read (mraise k msg : BM A).
Proof. done. Qed.
Lemma latest_records_rows s : es_rows (latest_records s).1 = es_rows s.
Proof. unfold latest_records. destruct (es_latest_by_id s); [|done]. by destruct (decide _). Qed.
(** A read of the cache leaves one that reads the same. *)
Lemma latest_records_again s : (latest_records (latest_records s).1).2 = (latest_records s).2.
Proof.
  unfold latest_records. destruct (es_latest_by_id s) as [l|] eqn:El; [destruct (decide _) as [Hd|Hd]|];
    cbn; rewrite ?El; cbn; (destruct (decide _) as [Hs|Hn]; [done|by destruct Hn]).
Qed.
Lemma bread_edges : bureau_read edge_list_latest.
Proof.
  intros b. unfold edge_list_latest, on_edges. pose proof (latest_records_rows (bs_edges b)) as E.
  pose proof (latest_records_again (bs_edges b)) as E2.
  destruct (latest_records (bs_edges b)) as [es d] eqn:El. cbn in E, E2.
  split; cbn; try done. by rewrite El.
Qed.
Lemma bread_edge id : bureau_read (callback_edge id).
Proof.
  intros b. unfold callback_edge, on_edges. pose proof (latest_records_rows (bs_edges b)) as E.
  pose proof (latest_records_again (bs_edges b)) as E2.
  destruct (latest_records (bs_edges b)) as [es d] eqn:El. cbn in E, E2.
  split; cbn; try done. by rewrite El.
Qed.

Create HintDb bread.
#[export] Hint Resolve bread_ret bread_lift bread_get bread_raise bread_edges bread_edge : bread.
Ltac bread_solve :=
  repeat first
    [ solve [eauto with bread]
    | apply bread_bind; [|intros ?]
    | match goal with
      | |- bureau_read (match ?x with _ => _ end) => destruct x
      | |- bureau_read (if ?x then _ else _) => destruct x
      end ].

Lemma bread_message id : bureau_read (message_get_latest id).
Proof. apply bread_get. Qed.
Lemma bread_attempt id : bureau_read (attempt_get_latest id).
Proof. apply bread_get. Qed.
Lemma bread_attempt_job id : bureau_read (attempt_by_job_id id).
Proof. apply bread_get. Qed.
Lemma bread_attempts id : bureau_read (attempt_list_message id).
Proof. apply bread_get. Qed.
Lemma bread_reply id : bureau_read (reply_get_latest id).
Proof. apply bread_get. Qed.
Lemma bread_replies id : bureau_read (reply_list_message id).
Proof. apply bread_get. Qed.
#[export] Hint Resolve bread_message bread_attempt bread_attempt_job bread_attempts bread_reply bread_replies : bread.
Lemma bread_for_parent id : bureau_read (callback_edge_for_parent_job id).
Proof. unfold callback_edge_for_parent_job. bread_solve. Qed.
Lemma bread_for_child id : bureau_read (callback_edge_for_child_job id).
Proof. unfold callback_edge_for_child_job. bread_solve. Qed.
Lemma bread_for_job j : bureau_read (message_for_job j).
Proof. unfold message_for_job. bread_solve. Qed.
Lemma bread_chain id : bureau_read (callback_chain_for_parent id).
Proof. unfold callback_chain_for_parent. bread_solve. Qed.
Lemma bread_by_agent id : bureau_read (latest_attempts_by_agent id).
Proof. unfold latest_attempts_by_agent. bread_solve. Qed.
#[export] Hint Resolve bread_for_parent bread_for_child bread_for_job bread_chain bread_by_agent : bread.

Section reads.
Context (cfg : dconfig) (ou : outside).
Hypothesis agents_normal : Forall (λ a, normal_name a = true) (dc_agents cfg).
Hypothesis hex_injective : ∀ m n, dc_hex cfg m = dc_hex cfg n → m = n.

Abbreviation agents := (dc_agents cfg).
Abbreviation good := (good cfg).

(** In a state where memory and log agree, the computation writes nothing. *)
Definition reads X {A} (m : DM A) : Prop := ∀ s, good X s → unwritten s (m s).1.

Lemma unwritten_good X s s' : good X s → unwritten s s' → good X s'.
Proof. intros [Hg Hu] H. eapply good_views; [apply H|done|]. eapply unused_le; [apply H|done]. Qed.

Lemma reads_bind X {A B} (m : DM A) (f : A → DM B) : reads X m → (∀ a, reads X (f a)) → reads X (mbind' m f).
Proof.
  intros Hm Hf s Hs. pose proof (Hm s Hs) as H. unfold mbind'. destruct (m s) as [s' [a|e]]; cbn in *; [|done].
  eapply unwritten_trans; [exact H|]. apply Hf. by eapply unwritten_good.
Qed.
Lemma reads_ret X {A} (a : A) : reads X (mret' a).
Proof. by split. Qed.
Lemma reads_lift X {A} (r : result A) : reads X (mlift r).
Proof. by split. Qed.
Lemma reads_raise X {A} k msg : reads X (mraise k msg : DM A).
Proof. by split. Qed.
Lemma reads_get X {A} (f : dispatcher → A) : reads X (mget f).
Proof. by split. Qed.
Lemma reads_clock X : reads X (clock cfg).
Proof. by split. Qed.
Lemma reads_fresh X pre : reads X (fresh_id cfg pre).
Proof. split; try done. cbn. lia. Qed.
Lemma reads_bureau X {A} (m : BM A) : bureau_read m → reads X (on_bureau m).
Proof.
  intros Hm s _. pose proof (Hm (di_bureau s)) as H. pose proof (quiet_bureau m s) as Hq.
  unfold on_bureau in *. destruct (m (di_bureau s)) as [b r]. by split.
Qed.
Lemma reads_jobs X {A} (m : JM A) : (∀ j, (m j).1 = j) → reads X (on_jobs m).
Proof.
  intros Hm s _. unfold on_jobs. specialize (Hm (di_jobs s)). destruct (m (di_jobs s)) as [j r]. cbn in *. subst j.
  by split.
Qed.
Lemma reads_queues X {A} (m : QM A) : quiet (on_queues m) → reads X (on_queues m).
Proof.
  intros Hq s _. specialize (Hq s). unfold on_queues in *. destruct (m (di_queues s)) as [q r]. by split.
Qed.
Lemma reads_artifacts X {A} (m : AM A) : (∀ a, (m a).1 = a) → reads X (on_artifacts m).
Proof.
  intros Hm s _. unfold on_artifacts. specialize (Hm (di_artifacts s)). destruct (m (di_artifacts s)) as [a r].
  cbn in *. subst a. by split.
Qed.
Lemma reads_attempted X {A} (m : DM A) : reads X m → reads X (attempted m).
Proof. intros H s Hs. specialize (H s Hs). unfold attempted. by destruct (m s) as [s' [a|e]]. Qed.

Lemma reads_get_job X id : reads X (get_job cfg id).
Proof.
  intros s Hs.
  assert (Hv : views (get_job cfg id s).1 (jview_of s)).
  { assert (W : wp (get_job cfg id) (λ _ s', views s' (jview_of s)) (λ _ s', views s' (jview_of s)) s)
      by (eapply (dq_get_job cfg agents_normal X); [apply Hs|by unfold views|done]).
    unfold wp in W. by destruct (get_job cfg id s) as [s' [o|e]]. }
  assert (Hj : ∀ names s0 q, let s1 := (find_job names id (Dispatcher (di_jobs s0) q (di_bureau s0) (di_trackers s0)
      (di_snapshots s0) (di_registry s0) (di_ids s0) (di_readings s0) (di_view_revision s0) (di_artifacts s0))).1 in
    ∃ q', s1 = Dispatcher (di_jobs s0) q' (di_bureau s0) (di_trackers s0)
      (di_snapshots s0) (di_registry s0) (di_ids s0) (di_readings s0) (di_view_revision s0) (di_artifacts s0)).
  { intros names s0. induction names as [|a names IH]; intros q; cbn zeta; [by exists q|].
    cbn [find_job]. unfold mbind' at 1. unfold on_jobs at 1, get_latest_target, mlift, mbind' at 1.
    destruct (normalize_agent_name a) as [n|]; [|by exists q]. cbn.
    destruct (find_last _ _) as [r|]; [by eexists|apply IH]. }
  assert (Hs' : ∃ q', (get_job cfg id s).1 = Dispatcher (di_jobs s) q' (di_bureau s) (di_trackers s)
      (di_snapshots s) (di_registry s) (di_ids s) (di_readings s) (di_view_revision s) (di_artifacts s)).
  { unfold get_job, mbind', on_queues, target_for_job, mget. cbn. destruct (q_index (di_queues s) !! id) as [sl|]; [|apply Hj].
    unfold on_jobs, get_latest_target, mlift, mbind'. cbn. destruct (normalize_agent_name sl.2); cbn; by eexists. }
  destruct Hs' as (q' & E). rewrite E in *. by split.
Qed.

Lemma reads_latest_target X a id : reads X (on_jobs (get_latest_target a id)).
Proof. apply reads_jobs. intros j. unfold get_latest_target, mbind', mlift. by destruct (normalize_agent_name a). Qed.
Lemma reads_list_agent X a : reads X (on_jobs (list_agent a)).
Proof. apply reads_jobs. intros j. unfold list_agent, list_target, mbind', mlift. by destruct (normalize_agent_name a). Qed.
Lemma reads_registry X a : reads X (registry_get a).
Proof. unfold registry_get. apply reads_bind; [apply reads_lift|intros; apply reads_get]. Qed.
Lemma reads_moment X : reads X moment.
Proof. apply reads_get. Qed.
End reads.

Create HintDb reads.
#[export] Hint Resolve reads_ret reads_lift reads_raise reads_get reads_clock reads_fresh reads_get_job
  reads_latest_target reads_list_agent reads_registry reads_moment : reads.
Ltac reads_leaf :=
  solve
    [ eauto 3 with reads
    | apply reads_bureau; solve [eauto 3 with bread]
    | apply reads_queues; solve [eauto 3 with quiet] ].
Ltac reads_step :=
  first
    [ reads_leaf
    | apply reads_bind; [|intros ?]
    | apply reads_attempted
    | match goal with
      | |- reads _ _ (match ?x with _ => _ end) => destruct x
      | |- reads _ _ (if ?x then _ else _) => destruct x
      | |- reads _ _ (dispatch_error _) => unfold dispatch_error
      | |- reads _ _ (rejected _) => unfold rejected
      end ].
Ltac reads_solve := repeat (cbv zeta; reads_step).

Section planning.
Context (cfg : dconfig) (ou : outside) (X : list string).
Hypothesis agents_normal : Forall (λ a, normal_name a = true) (dc_agents cfg).

Abbreviation reads := (reads cfg X).

Lemma reads_drain a : reads (drain_blocks_dispatch ou a).
Proof. unfold drain_blocks_dispatch. reads_solve. Qed.
Hint Resolve reads_drain : reads.
Lemma reads_dispatch_enabled a : reads (ensure_dispatch_enabled cfg ou a).
Proof. unfold ensure_dispatch_enabled. reads_solve. Qed.
Lemma reads_disabled a : reads (dispatch_disabled cfg ou a).
Proof. unfold dispatch_disabled. reads_solve. Qed.
Hint Resolve reads_dispatch_enabled reads_disabled : reads.
Lemma reads_alive names : reads (alive_agents names).
Proof. induction names as [|a names IH]; cbn [alive_agents]; reads_solve. Qed.
Lemma reads_enabled names : reads (enabled_agents cfg ou names).
Proof. induction names as [|a names IH]; cbn [enabled_agents]; reads_solve. Qed.
Hint Resolve reads_alive reads_enabled : reads.
Lemma reads_targets r : reads (resolve_targets cfg ou r).
Proof. unfold resolve_targets. reads_solve. Qed.
Lemma reads_target_available a : reads (validate_target_available cfg ou a).
Proof. unfold validate_target_available. reads_solve. Qed.
Hint Resolve reads_targets reads_target_available : reads.
Lemma reads_available names : reads (validate_targets_available cfg ou names).
Proof. induction names as [|a names IH]; cbn [validate_targets_available]; reads_solve. Qed.
Hint Resolve reads_available : reads.
Lemma reads_ref a : reads (on_artifacts (validate_text_artifact_ref (dc_artifacts cfg) a)).
Proof.
  apply reads_artifacts. intros s. unfold validate_text_artifact_ref. destruct a as [|e d]; [done|].
  unfold validated_artifact_path, read_file, mbind', mlift, mret', mraise.
  repeat (case_match; simplify_eq/=; try done).
Qed.
Hint Resolve reads_ref : reads.
Lemma reads_body_artifact r : reads (validate_request_body_artifact cfg r).
Proof. unfold validate_request_body_artifact. reads_solve. Qed.
Lemma reads_parent a : reads (active_parent_job cfg a).
Proof. unfold active_parent_job. reads_solve. Qed.
Hint Resolve reads_body_artifact reads_parent : reads.
Lemma reads_nested r : reads (validate_nested_ask_request cfg r).
Proof. unfold validate_nested_ask_request. reads_solve. Qed.
Lemma reads_continuation_target p a : reads (validate_callback_continuation_target p a).
Proof. unfold validate_callback_continuation_target. reads_solve. Qed.
Lemma reads_chain p a : reads (validate_callback_chain ou p a).
Proof. unfold validate_callback_chain. reads_solve. Qed.
Lemma reads_tree r p : reads (bind_callback_workspace_tree ou r p).
Proof. unfold bind_callback_workspace_tree. reads_solve. Qed.
Hint Resolve reads_nested reads_continuation_target reads_chain reads_tree : reads.
Lemma reads_callback_request r : reads (validate_callback_request cfg ou r).
Proof. unfold validate_callback_request. reads_solve. Qed.
Hint Resolve reads_callback_request : reads.
Lemma reads_plan_for r targets o : reads (plan_for cfg ou r targets o).
Proof. unfold plan_for, submission_id_for. reads_solve. Qed.
Hint Resolve reads_plan_for : reads.
Lemma reads_plan r : reads (plan_agent_submission cfg ou r).
Proof. unfold plan_agent_submission. reads_solve. Qed.
Lemma reads_ready a : reads (ensure_agent_target_ready cfg ou a).
Proof. unfold ensure_agent_target_ready. reads_solve. Qed.
Hint Resolve reads_ready : reads.
Lemma reads_retry_source t : reads (retry_source cfg ou t).
Proof. unfold retry_source, resolve_retry_attempt. reads_solve. Qed.
Lemma reads_rows names : reads (continuation_rows names).
Proof. induction names as [|a names IH]; cbn [continuation_rows]; reads_solve. Qed.
Hint Resolve reads_rows : reads.
Lemma reads_existing e : reads (existing_continuation_job e).
Proof. unfold existing_continuation_job, existing_continuation_jobs_by_edge. reads_solve. Qed.
End planning.
