(* ===== verification/DispatchFlow.v ===== *)
(** What a request comes to: the jobs that are admitted for it, one for each target, and
    nothing when it is refused.

    The chain of a message, followed to its end, and what is asked of a chained request. *)

From Stdlib Require Import Ascii String ZArith Lia.
From stdpp Require Import base gmap list strings functions.
From S2P Require Import Prelude PyData Names Storage MailboxModels MailboxKernel CompletionModels Jobs Api JobStore BureauModels BureauState Bureau Completion Artifacts DispatchState DispatchPolicy Dispatch Drain Routing Chains Continuations Submission DispatchView DispatchGood DispatchOps DispatchKeeps DispatchGrows DispatchReads.

Local Open Scope Z_scope.

(** The rows of some new jobs, in their logs and at the back of their queues. *)
Definition admit_all (js : list JobRecord) (v : jview) : jview := foldl (λ v j, admitted_view j v) v js.

Definition for_target (a : string) (j : JobRecord) : bool := String.eqb (jr_target_name j) a.

Lemma admit_all_log js v a : jv_log (admit_all js v) a = jv_log v a ++ List.filter (for_target a) js.
Proof.
  revert v. induction js as [|j js IH]; intros v; [by rewrite app_nil_r|].
  change (admit_all (j :: js) v) with (admit_all js (admitted_view j v)). rewrite IH. cbn [List.filter].
  unfold admitted_view. see.
  change (for_target a j) with (String.eqb (jr_target_name j) a). destruct (String.eqb_spec (jr_target_name j) a) as [<-|Hn].
  - rewrite at_same. by rewrite <-app_assoc.
  - by rewrite at_other.
Qed.

Lemma admit_all_items js v a :
  jv_items (admit_all js v) (agent_slot a) =
  jv_items v (agent_slot a) ++ map jr_job_id (List.filter (for_target a) js).
Proof.
  revert v. induction js as [|j js IH]; intros v; [by rewrite app_nil_r|].
  change (admit_all (j :: js) v) with (admit_all js (admitted_view j v)). rewrite IH. cbn [List.filter].
  unfold admitted_view. see.
  rewrite slot_of_target. change (for_target a j) with (String.eqb (jr_target_name j) a). destruct (String.eqb_spec (jr_target_name j) a) as [<-|Hn].
  - rewrite at_same. by rewrite <-app_assoc.
  - rewrite at_other; [done|]. unfold agent_slot. congruence.
Qed.

Lemma admit_all_active js v sl : jv_active (admit_all js v) sl = jv_active v sl.
Proof. revert v. induction js as [|j js IH]; intros v; [done|]. exact (IH (admitted_view j v)). Qed.

#[export] Instance admitted_view_proper j : Proper ((≡) ==> (≡)) (admitted_view j).
Proof. unfold admitted_view. solve_proper. Qed.

#[export] Instance admit_all_proper js : Proper ((≡) ==> (≡)) (admit_all js).
Proof. induction js as [|j js IH]; intros v w E; [done|].
  change (admit_all js (admitted_view j v) ≡ admit_all js (admitted_view j w)). apply IH. by rewrite E.
Qed.

Section flow.
Context (cfg : dconfig) (ou : outside).
Hypothesis agents_normal : Forall (λ a, normal_name a = true) (dc_agents cfg).
Hypothesis hex_injective : ∀ m n, dc_hex cfg m = dc_hex cfg n → m = n.
Hypothesis registry_agents : ∀ a sp, tc_agents (dc_tracker cfg) !! a = Some sp → a ∈ dc_agents cfg.

Abbreviation agents := (dc_agents cfg).
Abbreviation good := (good cfg).
Abbreviation target_ok := (target_ok cfg).

Lemma wp_reads X {A} (m : DM A) s (Q : A → dispatcher → Prop) E :
  reads cfg X m → good X s → (∀ a s', unwritten s s' → good X s' → Q a s') → (∀ e s', unwritten s s' → E e s') → wp m Q E s.
Proof.
  intros Hm Hs HQ HE. specialize (Hm s Hs). pose proof (unwritten_good cfg X s (m s).1 Hs Hm) as Hg.
  unfold wp. destruct (m s) as [s' [a|e]]; auto.
Qed.

(** ** One job *)

(** The job made of a draft, with the identifier drawn at [n]. *)
Record made (n : nat) (d : JobDraft) (x : JobRecord * AcceptedJobReceipt) : Prop := {
  ma_id : jr_job_id x.1 = job_name cfg n;
  ma_target : normalize_agent_name (jd_target_name d) = Ok (jr_target_name x.1);
  ma_pending : pending_status (jr_status x.1) = true;
  ma_request : jr_request x.1 = jd_request d;
  ma_receipt : ar_job_id x.2 = jr_job_id x.1 ∧ ar_agent_name x.2 = jr_target_name x.1;
  ma_ok : job_ok x.1;
}.

Lemma receipt_facts j st t r :
  receipt_for_job j st t = Ok r → job_ok j → ar_job_id r = jr_job_id j ∧ ar_agent_name r = jr_target_name j.
Proof.
  intros H [_ Hn]. unfold receipt_for_job, new_accepted in H. cbn in H. apply raise_if_Ok in H as [_ H].
  apply result_bind_Ok in H as (a & Ha & H). apply raise_if_Ok in H as [_ H]. apply raise_if_Ok in H as [_ H].
  injection H as <-. split; [done|]. cbn. apply normal_name_facts in Hn as Hf. destruct Hf as (_ & _ & Ht & _).
  unfold or_str in Ha. rewrite Ht, normalize_agent_name_normal in Ha by done. by injection Ha.
Qed.

Lemma wp_build n d sub t s v :
  views s v → target_ok (jd_target_name d) →
  wp (build_job_record d (job_name cfg n) sub t)
    (λ b s', views s' v ∧ job_ok b.1 ∧ jr_job_id b.1 = job_name cfg n ∧ pending_status (jr_status b.1) = true ∧
       normalize_agent_name (jd_target_name d) = Ok (jr_target_name b.1) ∧ jr_request b.1 = jd_request d)
    (λ _ _, True) s.
Proof.
  intros Hv Ht. pose proof (proj1 (calm_rules d (job_name cfg n) sub t) s) as Hq. unfold wp.
  destruct (build_job_record d (job_name cfg n) sub t s) as [s' [b|e]] eqn:Eb; [|done]. cbn in Hq.
  assert (Eb' : (build_job_record d (job_name cfg n) sub t s).2 = Ok b) by by rewrite Eb.
  pose proof Eb' as Hf. apply (build_facts cfg) in Hf as (Ho & _ & Hp & Hid); [|done].
  split; [unfold views in *; by rewrite Hq|]. do 3 (split; [done|]).
  clear -Eb' Ht. unfold build_job_record, mbind' in Eb'. destruct (pending_status_for _ s) as [s1 [st|]]; [|done].
  unfold mlift in Eb'. destruct (new_job _) as [j|] eqn:Ej; [|done]. injection Eb' as <-. cbn.
  pose proof Ej as Hr. apply new_job_facts in Ej as (a & Ha & _ & Hta & _). cbn in Ha. rewrite Hta.
  destruct Ht as (x & Hx & _).
  assert (Htr : truthy (jd_target_name d) = true).
  { destruct (truthy (jd_target_name d)) eqn:E; [done|]. destruct (jd_target_name d); [|done]. by cbn in Hx. }
  unfold or_str in Ha. rewrite Htr in Ha. split; [done|].
  unfold new_job in Hr. apply raise_if_Ok in Hr as [_ Hr]. apply result_bind_Ok in Hr as (y & _ & Hr).
  inv_guards Hr. by injection Hr as <-.
Qed.

Lemma wp_admission sub t d s v {B} (k : string → JobRecord * JobStatus → AcceptedJobReceipt → DM B) Q :
  views s v → target_ok (jd_target_name d) →
  (∀ b r s', made (di_ids s) d (b.1, r) → views s' (admitted_view b.1 v) → (di_ids s < di_ids s')%nat →
     wp (k (jr_job_id b.1) b r) Q (λ _ _, True) s') →
  wp (let* id := fresh_id cfg "job" in
      let* b := build_job_record d id sub t in
      let* r := enqueue_submitted_job cfg b.1 b.2 t in k id b r) Q (λ _ _, True) s.
Proof.
  intros Hv Ht Hk. apply wp_bind. unfold fresh_id at 1, wp at 1.
  match goal with |- wp _ _ _ ?s1 => set (s1' := s1); assert (Hv1 : views s1' v) by done;
    assert (Hi1 : di_ids s1' = S (di_ids s)) by done end. clearbody s1'.
  apply wp_bind. apply wp_mono_ids; [eauto with mono|].
  change (String.append "job" (String.append "_" (dc_hex cfg (di_ids s)))) with (job_name cfg (di_ids s)).
  eapply wp_mono; [by apply (wp_build (di_ids s) d sub t s1' v)| |done].
  intros b s2 (Hv2 & Ho & Hid & Hp & Hta & Hr) Hi2. apply wp_bind. apply wp_mono_ids; [eauto with mono|].
  unfold enqueue_submitted_job. apply wp_bind. eapply dq_append_job; [exact Hv2|apply Ho|]. intros s3 Hv3.
  apply wp_bind. eapply dq_event; [done..|apply accepted_event_truthy|]. intros s4 Hv4.
  apply wp_bind. eapply dq_enqueue; [done|]. intros s5 Hv5. apply wp_bind.
  eapply (dq_wp_quiet _ s5); [eauto with quiet|exact Hv5| |done]. intros _ s6 Hv6. apply wp_lift.
  destruct (receipt_for_job b.1 b.2 t) as [r|] eqn:Er; [|done]. intros Hi6. rewrite <-Hid.
  apply receipt_facts in Er; [|done]. apply Hk; [by split|exact Hv6|lia].
Qed.

Lemma wp_submit_draft sub t d s v :
  views s v → target_ok (jd_target_name d) →
  wp (submit_draft cfg sub t d)
    (λ x s', made (di_ids s) d x ∧ views s' (admitted_view x.1 v) ∧ (di_ids s < di_ids s')%nat) (λ _ _, True) s.
Proof. intros Hv Ht. apply (wp_admission _ _ _ _ v); [done..|]. intros b r s' Hm Hv' Hi. by apply wp_ret. Qed.

(** ** All of them *)

(** Jobs with identifiers drawn one after the other, from [n] up to [m]. *)
Inductive made_all : nat → list JobDraft → list (JobRecord * AcceptedJobReceipt) → nat → Prop :=
  | made_none n m : (n ≤ m)%nat → made_all n [] [] m
  | made_one n k m d ds x xs : made n d x → (n < k)%nat → made_all k ds xs m → made_all n (d :: ds) (x :: xs) m.

Lemma wp_submit_drafts sub t ds s v :
  views s v → Forall (λ d, target_ok (jd_target_name d)) ds →
  wp (submit_drafts cfg sub t ds)
    (λ xs s', made_all (di_ids s) ds xs (di_ids s') ∧ views s' (admit_all (map fst xs) v)) (λ _ _, True) s.
Proof.
  intros Hv Hds. revert s v Hv. induction Hds as [|d ds Hd _ IH]; intros s v Hv; cbn [submit_drafts].
  { apply wp_ret. split; [by constructor|done]. }
  apply wp_bind. eapply wp_mono; [by apply wp_submit_draft| |done]. intros x s1 (Hx & Hv1 & Hi1).
  apply wp_bind. eapply wp_mono; [by apply IH| |done]. intros xs s2 (Hxs & Hv2). apply wp_ret. split; [|done].
  by econstructor.
Qed.

Lemma made_all_bound n ds xs m x : made_all n ds xs m → x ∈ xs → ∃ k, (n ≤ k < m)%nat ∧ jr_job_id x.1 = job_name cfg k.
Proof.
  induction 1 as [|n k m d ds y ys Hy Hk Hall IH]; [by intros ?%elem_of_nil|].
  intros [->|Hx]%elem_of_cons.
  - exists n. split; [|by apply Hy]. clear -Hall Hk. assert ((k ≤ m)%nat); [|lia].
    clear Hk. induction Hall; lia.
  - destruct (IH Hx) as (i & Hi & E). exists i. split; [lia|done].
Qed.

Lemma made_all_nodup n ds xs m : made_all n ds xs m → NoDup (map (λ x, jr_job_id x.1) xs).
Proof.
  induction 1 as [|n k m d ds y ys Hy Hk Hall IH]; cbn; [constructor|]. apply list.NoDup_cons. split; [|done].
  intros Hin. apply list_elem_of_In, in_map_iff in Hin as (x & E & Hx). apply list_elem_of_In in Hx.
  destruct (made_all_bound _ _ _ _ _ Hall Hx) as (i & Hi & Ex). rewrite (ma_id _ _ _ Hy), Ex in E.
  apply job_name_inj in E; [lia|done].
Qed.

Lemma made_all_drafts n ds xs m :
  made_all n ds xs m →
  Forall2 (λ d x, normalize_agent_name (jd_target_name d) = Ok (jr_target_name x.1) ∧ jr_request x.1 = jd_request d) ds xs ∧
  Forall (λ x, pending_status (jr_status x.1) = true ∧ ar_job_id x.2 = jr_job_id x.1 ∧ ar_agent_name x.2 = jr_target_name x.1) xs.
Proof.
  induction 1 as [|n k m d ds y ys Hy Hk Hall [IH1 IH2]]; [by split; constructor|].
  destruct Hy as [_ H1 H2 H3 [H4 H5] _]. split; by constructor.
Qed.

(** ** The whole plan *)

(** Computations that leave the view as it is where memory and log agree. *)
Definition steady X {A} (m : DM A) : Prop :=
  ∀ s, good X s → views (m s).1 (jview_of s) ∧ (di_ids s ≤ di_ids (m s).1)%nat.

Lemma steady_reads X {A} (m : DM A) : reads cfg X m → steady X m.
Proof. intros H s Hs. specialize (H s Hs). split; apply H. Qed.
Lemma steady_quiet X {A} (m : DM A) : quiet m → mono m → steady X m.
Proof. intros Hq Hm s _. split; [apply Hq|apply Hm]. Qed.
Lemma steady_bind X {A B} (m : DM A) (f : A → DM B) : steady X m → (∀ a, steady X (f a)) → steady X (mbind' m f).
Proof.
  intros Hm Hf s Hs. destruct (Hm s Hs) as [Hv Hi]. unfold mbind'. destruct (m s) as [s' [a|e]]; cbn in *; [|done].
  destruct Hs as [Hg Hu].
  assert (Hs' : good X s') by (eapply good_views; [exact Hv|done|by eapply unused_le]).
  destruct (Hf a s' Hs') as [Hv' Hi']. split; [|lia]. unfold views in *. by rewrite Hv'.
Qed.

Lemma steady_register r jobs id t : steady [] (register_callback_edge cfg ou r jobs id t).
Proof.
  unfold register_callback_edge. apply steady_bind; [by apply steady_reads, reads_callback_request|]. intros r'.
  assert (Hq : ∀ A (m : DM A), quiet m → mono m → steady [] m) by (intros; by apply steady_quiet).
  destruct (negb (request_callback_route r')); [apply Hq; eauto with quiet mono|].
  destruct jobs as [|child [|? ?]]; try (apply Hq; unfold dispatch_error; solve [eauto with quiet mono]).
  apply steady_bind; [by apply steady_reads, reads_parent|]. intros [p|]; [|apply Hq; eauto with quiet mono].
  apply Hq; [quiet_solve|mono_solve].
Qed.

Lemma wp_steady X {A} (m : DM A) s v (Q : A → dispatcher → Prop) E :
  steady X m → good X s → views s v → (∀ a s', views s' v → Q a s') → (∀ e s', views s' v → E e s') → wp m Q E s.
Proof.
  intros Hm Hs Hv HQ HE. destruct (Hm s Hs) as [Hv' _]. unfold views in *. unfold wp.
  destruct (m s) as [s' [a|e]]; cbn in Hv'; [apply HQ|apply HE]; by rewrite Hv'.
Qed.

Lemma wp_with_grows X {A} (m : DM A) s (Q : A → dispatcher → Prop) E :
  Grows cfg X m → good X s → wp m Q E s → wp m (λ a s', Q a s' ∧ good X s') E s.
Proof.
  intros Hm Hs W. specialize (Hm s Hs). unfold wp in *. destruct (m s) as [s' [a|e]]; [|done]. split; [done|]. by eapply gr_good.
Qed.

(** The jobs admitted for a plan. *)
Definition admits (p : SubmissionPlan) s (receipt : SubmitReceipt) s' : Prop :=
  ∃ xs m, made_all (di_ids s) (pl_drafts p) xs m ∧ views s' (admit_all (map fst xs) (jview_of s)) ∧
    su_jobs receipt = map snd xs ∧ su_submission_id receipt = pl_submission_id p ∧ su_jobs receipt ≠ [] ∧
    (su_submission_id receipt = None → length (su_jobs receipt) = 1%nat).

Lemma wp_submit_plan p t s :
  good [] s → plan_ok cfg p → wp (submit_plan cfg ou p t) (λ x, admits p s x.1) (λ _ _, True) s.
Proof.
  intros Hs Hp. unfold submit_plan. apply wp_bind.
  eapply wp_mono; [apply wp_with_grows; [apply (grows_submit_drafts cfg agents_normal hex_injective [] _ _ _ Hp)|done|]| |done].
  { by apply (wp_submit_drafts _ _ _ s (jview_of s)). }
  intros xs s1 [[Hx Hv] Hs1]. cbv beta.
  assert (Hsteady : ∀ B C (m : DM B) (f : B → DM C) s2 (Q : C → dispatcher → Prop),
    steady [] m → good [] s2 → views s2 (admit_all (map fst xs) (jview_of s)) →
    (∀ b s3, good [] s3 → views s3 (admit_all (map fst xs) (jview_of s)) → wp (f b) Q (λ _ _, True) s3) →
    wp (mbind' m f) Q (λ _ _, True) s2).
  { intros B C m f s2 Q Hm Hs2 Hv2 Hf. apply wp_bind. destruct (Hm s2 Hs2) as [Hv3 Hi3]. destruct Hs2 as [Hg Hu].
    unfold wp. destruct (m s2) as [s3 [b|e]]; [|done]. cbn in *. apply Hf.
    - eapply good_views; [exact Hv3|done|by eapply unused_le].
    - unfold views in *. by rewrite Hv3. }
  apply Hsteady; [apply steady_quiet; destruct (pl_submission_id p); [quiet_solve|eauto with quiet|mono_solve|mono_solve]|done..|].
  intros _ s2 Hs2 Hv2. apply Hsteady; [apply steady_quiet; eauto with quiet mono|done..|]. intros mid s3 Hs3 Hv3.
  apply Hsteady; [destruct mid; [apply steady_register|apply steady_quiet; eauto with quiet mono]|done..|].
  intros _ s4 Hs4 Hv4. apply wp_bind, wp_lift. destruct (new_submit _) as [r|] eqn:Er; [|done]. apply wp_ret.
  unfold new_submit in Er. cbn in Er. apply raise_if_Ok in Er as [_ Er]. apply raise_if_Ok in Er as [H1 Er].
  apply raise_if_Ok in Er as [H2 Er]. injection Er as <-. exists xs, (di_ids s1). cbn. split; [done|]. split; [done|].
  split; [done|]. split; [done|]. apply bool_decide_eq_false in H1. split; [done|]. intros E. rewrite E in H2.
  cbn in H2. apply bool_decide_eq_false in H2. by apply dec_stable.
Qed.
End flow.

(** From a message to the edge that leads to it, to the message of its parent, and so on, until
    no edge leads on or a message comes again. *)
Inductive follows (edges : list CallbackEdgeRecord) : list string → string → list CallbackEdgeRecord → Prop :=
  | follows_end seen id :
      truthy id = false ∨ id ∈ seen ∨ edge_to_message edges id = None → follows edges seen id []
  | follows_step seen id e l :
      truthy id = true → id ∉ seen → edge_to_message edges id = Some e →
      follows edges (id :: seen) (ce_parent_message_id e) l → follows edges seen id (e :: l).

Lemma follows_unique edges seen id l l' : follows edges seen id l → follows edges seen id l' → l = l'.
Proof.
  intros H. revert l'. induction H as [seen id Hend|seen id e l Ht Hn He _ IH]; intros l' H'; inversion H'; subst; try done.
  - destruct Hend as [?|[?|?]]; congruence.
  - match goal with H : _ ∨ _ ∨ _ |- _ => destruct H as [?|[?|?]]; congruence end.
  - rewrite He in *. simplify_eq. f_equal. auto.
Qed.

(** The edges that lead to messages not seen yet. *)
Definition unseen (edges : list CallbackEdgeRecord) (seen : list string) : list CallbackEdgeRecord :=
  List.filter (λ e, negb (mem_str (ce_child_message_id e) seen)) edges.

Lemma edge_to_message_spec edges id e : edge_to_message edges id = Some e → e ∈ edges ∧ ce_child_message_id e = id.
Proof.
  unfold edge_to_message. intros H. apply List.find_some in H as [Hi He]. apply String.eqb_eq in He.
  by apply list_elem_of_In in Hi.
Qed.

Lemma filter_fewer {A} (p q : A → bool) (l : list A) :
  (∀ x, p x = true → q x = true) →
  (length (List.filter p l) ≤ length (List.filter q l))%nat ∧
  ∀ x, x ∈ l → p x = false → q x = true → (length (List.filter p l) < length (List.filter q l))%nat.
Proof.
  intros Hpq. induction l as [|y l [IH1 IH2]]; [split; [done|by intros x ?%elem_of_nil]|]. cbn.
  pose proof (Hpq y) as Hy. split.
  - destruct (p y), (q y); cbn; first [lia | by specialize (Hy eq_refl)].
  - intros x [<-|Hx]%elem_of_cons Hp Hq; [rewrite Hp, Hq; cbn; lia|]. specialize (IH2 x Hx Hp Hq).
    destruct (p y), (q y); cbn; first [lia | by specialize (Hy eq_refl)].
Qed.

Lemma unseen_step edges seen e :
  e ∈ edges → ce_child_message_id e ∉ seen →
  (length (unseen edges (ce_child_message_id e :: seen)) < length (unseen edges seen))%nat.
Proof.
  intros He Hn.
  assert (Hmem : ∀ x l, negb (mem_str x l) = true ↔ x ∉ l).
  { intros x l. rewrite negb_true_iff. split; [intros E Hi; apply mem_str_spec in Hi; congruence|].
    intros Hi. destruct (mem_str x l) eqn:E; [by apply mem_str_spec in E|done]. }
  apply (filter_fewer _ _ edges) with e; [|done| |by apply Hmem].
  - intros x. rewrite !Hmem. set_solver.
  - apply negb_false_iff, mem_str_spec. by left.
Qed.

Lemma chain_loop_follows fuel edges id seen :
  (length (unseen edges seen) < fuel)%nat → follows edges seen id (chain_loop fuel edges id seen).
Proof.
  revert id seen. induction fuel as [|fuel IH]; intros id seen Hf; [lia|]. cbn.
  destruct (truthy id) eqn:Et; cbn; [|constructor; by left].
  destruct (mem_str id seen) eqn:Em; [constructor; right; left; by apply mem_str_spec|].
  assert (Hn : id ∉ seen) by (intros Hi; apply mem_str_spec in Hi; congruence).
  destruct (edge_to_message edges id) as [e|] eqn:Ee; [|constructor; by right; right].
  apply edge_to_message_spec in Ee as He. destruct He as [Hin <-].
  econstructor; [done..|]. apply IH. pose proof (unseen_step edges seen e Hin Hn). lia.
Qed.

Lemma chain_of_follows edges id : follows edges [] id (chain_of edges id).
Proof.
  apply chain_loop_follows. unfold unseen. pose proof (List.filter_length_le (λ e, negb (mem_str (ce_child_message_id e) [])) edges).
  lia.
Qed.

(** The latest rows of the edges. *)
Definition latest_of (s : dispatcher) : list CallbackEdgeRecord := map snd (latest_records (bs_edges (di_bureau s))).2.

Lemma unwritten_latest s s' : unwritten s s' → latest_of s' = latest_of s.
Proof. intros H. unfold latest_of. by rewrite (sa_latest _ _ (un_bureau _ _ H)). Qed.

(** The request that is planned differs in its route options only. *)
Definition same_ask (r r' : MessageEnvelope) : Prop :=
  me_to_agent r' = me_to_agent r ∧ me_delivery_scope r' = me_delivery_scope r ∧ me_body r' = me_body r.

Lemma yields_bind_ok {A B} (m : DM A) (f : A → DM B) (P1 : A → Prop) (P : B → Prop) :
  yields m P1 → (∀ x, P1 x → yields (f x) P) → yields (mbind' m f) P.
Proof.
  intros Hm Hf s b. specialize (Hm s). unfold mbind'. destruct (m s) as [s' [a|e]]; [|done]. by apply Hf, Hm.
Qed.

Lemma bound_ask ou r x p : same_ask r x → yields (bind_callback_workspace_tree ou x p) (same_ask r).
Proof. intros Hx. unfold bind_callback_workspace_tree. cbv zeta. repeat yields_step; by apply yields_ret. Qed.

Section chains.
Context (cfg : dconfig) (ou : outside).
Hypothesis agents_normal : Forall (λ a, normal_name a = true) (dc_agents cfg).

Abbreviation good := (good cfg).
Abbreviation reads := (reads cfg).

Lemma wp_on_bureau X {A} (m : BM A) s (Q : A → dispatcher → Prop) E :
  bureau_read m → good X s →
  (∀ a s', (m (di_bureau s)).2 = Ok a → unwritten s s' → good X s' → Q a s') → (∀ e s', E e s') → wp (on_bureau m) Q E s.
Proof.
  intros Hm Hs HQ HE. pose proof (reads_bureau cfg X m Hm s Hs) as Hu.
  pose proof (unwritten_good cfg X _ _ Hs Hu) as Hg. unfold wp, on_bureau in *.
  destruct (m (di_bureau s)) as [b [a|e]]; [|done]. by apply HQ.
Qed.

Lemma wp_reads_yields X {A} (m : DM A) (P : A → Prop) s (Q : A → dispatcher → Prop) E :
  reads X m → yields m P → good X s → (∀ a s', P a → unwritten s s' → good X s' → Q a s') → (∀ e s', E e s') → wp m Q E s.
Proof.
  intros Hm Hy Hs HQ HE. specialize (Hm s Hs). specialize (Hy s). pose proof (unwritten_good cfg X s (m s).1 Hs Hm) as Hg.
  unfold wp. destruct (m s) as [s' [a|e]]; auto.
Qed.

(** The job from which a sender asks. *)
Definition asks_from (s : dispatcher) (actor : string) (p : JobRecord) : Prop :=
  let a := lower (strip actor) in
  a ∈ dc_agents cfg ∧ q_active (di_queues s) !! agent_slot a = Some (jr_job_id p) ∧
  known s (jr_job_id p) = Some p ∧ is_reply_delivery_job p = false.

Lemma wp_parent X actor s (Q : option JobRecord → dispatcher → Prop) :
  good X s →
  (∀ o s', unwritten s s' → good X s' → (∀ p, o = Some p → asks_from s actor p) → Q o s') →
  wp (active_parent_job cfg actor) Q (λ _ _, True) s.
Proof.
  intros Hs HQ. pose proof (reads_parent cfg X agents_normal actor s Hs) as Hu.
  pose proof (unwritten_good cfg X _ _ Hs Hu) as Hg.
  assert (W : wp (active_parent_job cfg actor) (λ o _, ∀ p, o = Some p → asks_from s actor p) (λ _ _, True) s).
  { unfold active_parent_job. cbv zeta. destruct (_ || _); [by apply wp_ret|].
    destruct (mem_str (lower (strip actor)) (dc_agents cfg)) eqn:Em; cbn [negb]; [|by apply wp_ret].
    apply mem_str_spec in Em. apply wp_bind. eapply dq_active; [by unfold views|]. intros s1 Hv1.
    cbn [jv_active jview_of]. destruct (q_active (di_queues s) !! agent_slot (lower (strip actor))) as [[|x y]|] eqn:Ea;
      [by apply wp_ret| |by apply wp_ret].
    apply wp_bind. eapply (dq_get_job cfg agents_normal X); [apply Hs|done|]. intros s2 Hv2.
    destruct (known_row (jview_of s) (String x y)) as [p|] eqn:Ek; [|by apply wp_ret]. apply wp_ret.
    destruct (is_reply_delivery_job p) eqn:Ed; intros p' [= <-].
    destruct (known_facts _ agents_normal X _ _ _ (proj1 Hs) Ek) as (Hid & _). unfold asks_from, known. by rewrite Hid. }
  unfold wp in W |- *. destruct (active_parent_job cfg actor s) as [s' [o|e]]; [|done]. by apply HQ.
Qed.

(** The message a job was admitted for. *)
Definition message_of (s : dispatcher) (p : JobRecord) (m : MessageRecord) : Prop :=
  ∃ a, find_last (has_job (jr_job_id p)) (bs_attempts (di_bureau s)) = Some a ∧
    find_last (λ m, String.eqb (ms_message_id m) (at_message_id a)) (bs_messages (di_bureau s)) = Some m.

Lemma message_for_job_run p b m :
  (message_for_job p b).2 = Ok (Some m) →
  ∃ a, find_last (has_job (jr_job_id p)) (bs_attempts b) = Some a ∧
    find_last (λ m, String.eqb (ms_message_id m) (at_message_id a)) (bs_messages b) = Some m.
Proof.
  unfold message_for_job, attempt_by_job_id, mbind', mget. destruct (find_last (has_job _) _) as [a|]; [|done].
  cbn. intros [= H]. by exists a.
Qed.

(** What is known of a chained request that is let through. *)
Record chained (s : dispatcher) (r : MessageEnvelope) (p : JobRecord) (m : MessageRecord) : Prop := {
  cn_single : me_delivery_scope r = SINGLE;
  cn_parent : asks_from s (me_from_actor r) p;
  cn_message : message_of s p m;
  cn_alone : Forall (λ e, ce_parent_job_id e ≠ jr_job_id p) (latest_of s);
  cn_depth : Z.of_nat (length (chain_of (latest_of s) (ms_message_id m))) + 1 <= max_callback_depth ou;
  cn_cycle : lower (strip (me_to_agent r)) ∉ chain_actors (chain_of (latest_of s) (ms_message_id m)) p;
}.

Lemma message_of_same s s' p m : unwritten s s' → message_of s' p m → message_of s p m.
Proof. intros [_ [_ Hm Ha _ _ _] _ _ _ _ _ _] H. unfold message_of in *. by rewrite Hm, Ha in H. Qed.

Lemma wp_chain p target s0 s :
  good [] s → unwritten s0 s →
  wp (validate_callback_chain ou p target)
    (λ _ _, ∃ m, message_of s0 p m ∧ Z.of_nat (length (chain_of (latest_of s0) (ms_message_id m))) + 1 <= max_callback_depth ou ∧
       lower (strip target) ∉ chain_actors (chain_of (latest_of s0) (ms_message_id m)) p) (λ _ _, True) s.
Proof.
  intros Hs Hu. unfold validate_callback_chain. apply wp_bind. apply (wp_on_bureau []); [apply bread_for_job|done| |done].
  intros [m|] s1 Hm Hu1 Hs1; [|done]. apply wp_bind. apply (wp_on_bureau []); [apply bread_chain|done| |done].
  intros chain s2 Hc Hu2 Hs2.
  assert (Hmm : message_of s0 p m) by (apply (message_of_same s0 s); [done|by apply message_for_job_run]).
  assert (Hchain : chain = chain_of (latest_of s0) (ms_message_id m)).
  { unfold callback_chain_for_parent, edge_list_latest, on_edges, mbind' in Hc.
    rewrite <-(unwritten_latest s0 s1) by (eapply unwritten_trans; [exact Hu|exact Hu1]). unfold latest_of.
    destruct (latest_records (bs_edges (di_bureau s1))) as [es d]. cbn in Hc. by injection Hc as <-. }
  subst chain. destruct (Z.ltb_spec (max_callback_depth ou) (Z.of_nat (length (chain_of (latest_of s0) (ms_message_id m))) + 1));
    [done|].
  destruct (mem_str _ _) eqn:Em; [done|]. apply wp_ret. exists m. split; [done|]. split; [done|].
  intros Hi. apply mem_str_spec in Hi. congruence.
Qed.

Lemma wp_chained r s :
  good [] s → request_callback_route r = true →
  wp (validate_callback_request cfg ou r) (λ _ _, ∃ p m, chained s r p m) (λ _ _, True) s.
Proof.
  intros Hs Hr. unfold validate_callback_request. cbv zeta. apply wp_bind. apply (wp_parent []); [done|].
  intros o s1 Hu1 Hs1 Hp. rewrite Hr. cbn [negb].
  destruct (bool_decide (me_delivery_scope r = SINGLE)) eqn:Es; cbn [negb]; [|done]. apply bool_decide_eq_true in Es.
  destruct o as [p|]; [|done]. specialize (Hp p eq_refl).
  apply wp_bind. apply (wp_on_bureau []); [apply bread_for_job|done| |done]. intros om s2 _ Hu2 Hs2.
  destruct (is_none om); [done|].
  apply wp_bind. apply (wp_reads cfg []); [by apply reads_continuation_target|done| |done]. intros _ s3 Hu3 Hs3.
  destruct (_ && _); [done|].
  apply wp_bind. apply (wp_reads_yields [] _ (same_ask r));
    [destruct (py_truthy _); [apply reads_tree|apply reads_ret]|
     destruct (py_truthy _); [by apply bound_ask|by apply yields_ret]|done| |done]. intros r' s4 (Hto & _) Hu4 Hs4.
  assert (H04 : unwritten s s4).
  { eapply unwritten_trans; [exact Hu1|]. eapply unwritten_trans; [exact Hu2|]. by eapply unwritten_trans. }
  apply wp_bind. apply (wp_on_bureau []); [apply bread_for_parent|done| |done]. intros edge s5 He Hu5 Hs5.
  destruct edge as [e|]; [done|].
  assert (H05 : unwritten s s5) by by eapply unwritten_trans.
  apply wp_bind. eapply wp_mono; [by apply (wp_chain p (me_to_agent r') s)| |done]. rewrite Hto.
  intros _ s6 (m & Hm & Hd & Hc). apply wp_ret. exists p, m. split; try done.
  unfold callback_edge_for_parent_job, edge_list_latest, on_edges, mbind' in He.
  rewrite <-(unwritten_latest s s4) by done. unfold latest_of.
  destruct (latest_records (bs_edges (di_bureau s4))) as [es d]. cbn in He |- *. injection He as He.
  apply list.Forall_forall. intros x Hx Ex. apply list_elem_of_In in Hx.
  eapply List.find_none in He; [|exact Hx]. cbn in He. rewrite Ex in He. by rewrite String.eqb_refl in He.
Qed.
End chains.
