(* ===== verification/DispatchOnce.v ===== *)
(** The continuation of a callback edge is one job at most: none for an edge that is settled,
    or whose continuation is in a log, whatever was lost in between. *)

From Stdlib Require Import Ascii String ZArith Lia.
From stdpp Require Import base gmap list strings functions.
From S2P Require Import Prelude PyData Names Storage MailboxModels MailboxKernel CompletionModels Jobs Api JobStore BureauModels BureauState Bureau Completion Artifacts DispatchState DispatchPolicy Dispatch Drain Routing Chains Continuations Submission DispatchView DispatchGood DispatchOps DispatchKeeps DispatchGrows DispatchReads DispatchFlow.

Local Open Scope Z_scope.

(** What is admitted when [s] becomes [s']: at most one job, of which [P], and no row of which
    was there before. *)
Definition one_more (P : JobRecord → Prop) (s s' : dispatcher) : Prop :=
  ∃ js, (length js ≤ 1)%nat ∧ Forall P js ∧ Forall (λ j, ∀ b, jr_job_id j ∉ ids (jobs_of (di_jobs s) b)) js ∧
    views s' (admit_all js (jview_of s)).

Definition adds (cfg : dconfig) (P : JobRecord → Prop) {A} (m : DM A) : Prop :=
  ∀ s, good cfg [] s → one_more P s (m s).1.

(** A job of the continuation of the edge [e]. *)
Record continues (e : CallbackEdgeRecord) (j : JobRecord) : Prop := {
  cn_edge : option_of (jr_request j) "chain_edge_id" = VStr (ce_edge_id e);
  cn_target : normalize_agent_name (ce_callback_target_agent e) = Ok (jr_target_name j);
  cn_pending : pending_status (jr_status j) = true;
}.

(** The log of the agent the edge calls back has such a job. *)
Definition linked (s : dispatcher) (e : CallbackEdgeRecord) : Prop :=
  ∃ a r, normalize_agent_name (ce_callback_target_agent e) = Ok a ∧ r ∈ jobs_of (di_jobs s) a ∧
    truthy (ce_edge_id e) = true ∧ option_text (jr_request r) "chain_edge_id" = ce_edge_id e.

(** The edge an end is for. *)
Definition edge_for (s : dispatcher) (edge : CallbackEdgeRecord) (child_job_id : string) : CallbackEdgeRecord :=
  default edge (List.find (λ e, String.eqb (ce_child_job_id e) child_job_id) (latest_of s)).

Section once.
Context (cfg : dconfig) (ou : outside).
Hypothesis agents_normal : Forall (λ a, normal_name a = true) (dc_agents cfg).
Hypothesis hex_injective : ∀ m n, dc_hex cfg m = dc_hex cfg n → m = n.
Hypothesis registry_agents : ∀ a sp, tc_agents (dc_tracker cfg) !! a = Some sp → a ∈ dc_agents cfg.

Abbreviation good := (good cfg).
Abbreviation adds := (adds cfg).
Abbreviation steady := (steady cfg).

Lemma one_more_none P s s' : views s' (jview_of s) → one_more P s s'.
Proof. intros Hv. exists []. split; [cbn; lia|]. split; [constructor|]. split; [constructor|exact Hv]. Qed.

Lemma adds_steady P {A} (m : DM A) : steady [] m → adds P m.
Proof. intros H s Hs. apply one_more_none, (H s Hs). Qed.

Lemma adds_attempted P {A} (m : DM A) : adds P m → adds P (attempted m).
Proof. intros H s Hs. specialize (H s Hs). unfold attempted. by destruct (m s) as [s' [a|e]]. Qed.

Lemma steady_good {A} (m : DM A) s : steady [] m → good [] s → good [] (m s).1.
Proof.
  intros H Hs. destruct (H s Hs) as [Hv Hi]. destruct Hs as [Hg Hu].
  eapply good_views; [exact Hv|done|by eapply unused_le].
Qed.

(** Before the admission. *)
Lemma adds_before P {A B} (m : DM A) (f : A → DM B) :
  steady [] m → (∀ a, (∃ s, (m s).2 = Ok a) → adds P (f a)) → adds P (mbind' m f).
Proof.
  intros Hm Hf s Hs. pose proof (steady_good m s Hm Hs) as Hs'. destruct (Hm s Hs) as [Hv _].
  unfold mbind'. destruct (m s) as [s' [a|e]] eqn:Em; cbn in *; [|by apply one_more_none].
  destruct (Hf a (ex_intro _ s (f_equal snd Em)) s' Hs') as (js & H1 & H2 & H3 & H4). exists js. split; [done|]. split; [done|]. split.
  - eapply list.Forall_impl; [exact H3|]. intros j Hj b. pose proof (jv_same_log _ _ Hv b) as E. cbn in E. rewrite <-E. apply Hj.
  - unfold views in *. by rewrite H4, Hv.
Qed.

(** After it. *)
Lemma adds_after P {A B} (m : DM A) (f : A → DM B) :
  adds P m → Grows cfg [] m → (∀ a, steady [] (f a)) → adds P (mbind' m f).
Proof.
  intros Hm Hg Hf s Hs. pose proof (gr_good _ _ _ _ (Hg s Hs)) as Hs'. destruct (Hm s Hs) as (js & H1 & H2 & H3 & H4).
  exists js. do 3 (split; [done|]). unfold mbind'. destruct (m s) as [s' [a|e]]; cbn in *; [|done].
  destruct (Hf a s' Hs') as [Hv _]. unfold views in *. by rewrite Hv.
Qed.

(** A new job, with what follows it at once. *)
Lemma adds_admission P d t ty p {B} (k : JobRecord → DM B) :
  target_ok cfg (jd_target_name d) → (∀ st, truthy (ty st) = true) → (∀ j, quiet (k j)) →
  (∀ j, normalize_agent_name (jd_target_name d) = Ok (jr_target_name j) → pending_status (jr_status j) = true →
     jr_request j = jd_request d → P j) →
  adds P (let* id := fresh_id cfg "job" in
          let* b := build_job_record d id None t in
          let '(j, st) := b in
          do* append_job j in
          do* append_event cfg j (ty st) (p st) t in
          do* on_queues (enqueue_for (slot_of j) (jr_job_id j)) in k j).
Proof.
  intros Ht Hty Hk HP s [Hg Hu].
  assert (E : ∃ s1, fresh_id cfg "job" s = (s1, Ok (job_name cfg (di_ids s))) ∧ views s1 (jview_of s))
    by (eexists; split; [reflexivity|done]).
  destruct E as (s1' & E & Hv). erewrite mbind_ok by exact E. cbv beta. clear E.
  pose proof (wp_build cfg (di_ids s) d None t s1' _ Hv Ht) as W.
  pose proof (proj1 (calm_rules d (job_name cfg (di_ids s)) None t) s1') as Hq. unfold wp in W. unfold mbind' at 1.
  destruct (build_job_record d _ None t s1') as [s2 [[j st]|e]]; cbn [fst snd] in *;
    [|apply one_more_none; unfold views in *; by rewrite Hq].
  destruct W as (Hv2 & Ho & Hid & Hp & Hta & Hr).
  assert (W : wp (do* append_job j in do* append_event cfg j (ty st) (p st) t in
    do* on_queues (enqueue_for (slot_of j) (jr_job_id j)) in k j)
    (λ _ s', views s' (admitted_view j (jview_of s))) (λ _ s', views s' (admitted_view j (jview_of s))) s2).
  { apply wp_bind. eapply dq_append_job; [exact Hv2|apply Ho|]. intros s3 Hv3.
    apply wp_bind. eapply dq_event; [exact Hv3|exact Ho|apply Hty|]. intros s4 Hv4.
    apply wp_bind. eapply dq_enqueue; [exact Hv4|]. intros s5 Hv5. apply (dq_wp_quiet _ s5 _ _ _ (Hk j) Hv5); by intros. }
  exists [j]. split; [cbn; lia|]. split; [by constructor; [apply HP|]|]. split.
  - constructor; [|done]. intros b. rewrite Hid. apply (Hu (di_ids s) b). lia.
  - unfold wp in W. change (admit_all [j] (jview_of s)) with (admitted_view j (jview_of s)).
    destruct ((do* append_job j in _) s2) as [s' [x|e]]; exact W.
Qed.

(** ** The operations of an edge *)

Lemma steady_rd {A} (m : DM A) : reads cfg [] m → steady [] m.
Proof. apply steady_reads. Qed.
Lemma steady_calm {A} (m : DM A) : calm m → steady [] m.
Proof. intros [H1 H2]. by apply steady_quiet. Qed.

Lemma steady_notice e r d t : steady [] (record_callback_failure_notice cfg e r d t).
Proof.
  unfold record_callback_failure_notice. apply steady_bind; [by apply steady_rd, reads_get_job|].
  intros [p|]; apply steady_calm; calm_solve.
Qed.

Lemma steady_fail_edge e r d t : steady [] (fail_callback_edge cfg e r d t).
Proof.
  unfold fail_callback_edge. apply steady_bind; [apply steady_calm; calm_solve|]. intros l.
  destruct (edge_settled _); [apply steady_calm; calm_solve|].
  apply steady_bind; [apply steady_calm; calm_solve|]. intros f.
  apply steady_bind; [apply steady_notice|]. intros _. apply steady_calm; calm_solve.
Qed.

Lemma steady_draft r : steady [] (continuation_draft cfg ou r).
Proof. apply steady_rd. unfold continuation_draft. reads_solve. Qed.

Lemma adds_submit_continuation e r id t :
  option_of r "chain_edge_id" = VStr (ce_edge_id e) →
  normalize_agent_name (me_to_agent r) = normalize_agent_name (ce_callback_target_agent e) →
  adds (continues e) (submit_continuation_job cfg ou r id t).
Proof.
  intros He Hta. unfold submit_continuation_job.
  apply adds_before; [apply steady_calm; calm_solve|]. intros spec (s & Hsp). cbn in Hsp.
  apply (spec_for_target cfg ou registry_agents) in Hsp.
  apply adds_before; [by apply steady_rd, reads_available|]. intros _ _.
  apply adds_before; [apply steady_draft|]. intros d (s' & Hd).
  assert (Hdt : jd_target_name d = me_to_agent r) by exact (continuation_draft_target cfg ou r s' d Hd).
  assert (Hdr : jd_request d = r).
  { assert (Y : yields (continuation_draft cfg ou r) (λ d, jd_request d = r))
      by (unfold continuation_draft; repeat yields_step; by apply yields_ret).
    exact (Y s' d Hd). }
  apply (adds_admission _ d t accepted_event (λ st, [("status", VStr (JobStatus_value st)); ("chain_continuation", VBool true)])
           (λ j, do* sync_runtime cfg (jr_agent_name j) None in
                 do* on_bureau (record_retry_attempt (dc_bureau cfg) id j t) in
                 let* parent_message := on_bureau (message_get_latest id) in
                 do* (match parent_message with
                      | Some m => append_submission_job (ms_submission_id m) (jr_job_id j) t
                      | None => mret' tt
                      end) in
                 mret' (jr_job_id j, id))).
  - by rewrite Hdt.
  - apply accepted_event_truthy.
  - intros j. quiet_solve; apply calm_append_submission.
  - intros j Hj Hp Hr. rewrite Hdt, Hta in Hj. rewrite Hdr in Hr. split; [by rewrite Hr|exact Hj|exact Hp].
Qed.

(** ** Linked edges are found *)

Lemma assoc_find_set {A} (k id : string) (x : A) d :
  List.find (λ kv, String.eqb kv.1 id) (assoc_set k x d) ≠ None ↔
  k = id ∨ List.find (λ kv, String.eqb kv.1 id) d ≠ None.
Proof.
  induction d as [|[k' y] d IH]; cbn.
  - destruct (String.eqb_spec k id) as [->|]; split; [by left|done|done|by intros [|]].
  - destruct (String.eqb_spec k k') as [->|Hk]; cbn.
    + destruct (String.eqb_spec k' id) as [->|]; split; try done; [by left|by right|by intros [|]].
    + destruct (String.eqb_spec k' id) as [->|Hk']; [split; [by right|done]|exact IH].
Qed.

Lemma assoc_find_all {A} (id : string) (l : list (string * A)) d :
  List.find (λ kv, String.eqb kv.1 id) (foldl (λ d kv, assoc_set kv.1 kv.2 d) d l) ≠ None ↔
  id ∈ map fst l ∨ List.find (λ kv, String.eqb kv.1 id) d ≠ None.
Proof.
  revert d. induction l as [|[k x] l IH]; intros d; cbn [foldl map fst snd].
  - split; [by right|]. intros [H|H]; [by apply elem_of_nil in H|done].
  - rewrite IH, assoc_find_set, elem_of_cons. intuition congruence.
Qed.

Lemma linked_found s e :
  linked s e → ∃ c, (existing_continuation_job e s).2 = Ok (Some c).
Proof.
  intros (a & r & Ha & Hr & Ht & Hl).
  assert (Hrows : ∀ s', di_jobs s' = di_jobs s → (continuation_rows [ce_callback_target_agent e] s').2 =
    Ok (omap (λ r, let id := option_text (jr_request r) "chain_edge_id" in
                   if truthy id then Some (id, r) else None) (jobs_of (di_jobs s') a) ++ [])).
  { intros s' _. cbn [continuation_rows]. unfold list_agent, list_target, mbind', on_jobs, mlift. rewrite Ha. done. }
  specialize (Hrows s eq_refl). unfold existing_continuation_job, existing_continuation_jobs_by_edge.
  change (unique (map ce_callback_target_agent [e])) with [ce_callback_target_agent e]. unfold mbind'.
  destruct (continuation_rows _ s) as [s' [rows|]]; cbn in Hrows; [|done]. injection Hrows as ->. cbn [snd mret'].
  unfold find_continuation. destruct (List.find _ _) as [kv|] eqn:E; cbn; [by eexists|].
  exfalso. revert E. apply assoc_find_all. left. rewrite app_nil_r. apply list_elem_of_In, in_map_iff.
  exists (ce_edge_id e, r). split; [done|]. apply list_elem_of_In, list_elem_of_omap. exists r.
  split; [exact Hr|]. by rewrite Hl, Ht.
Qed.

Lemma linked_same s s' e : unwritten s s' → linked s e → linked s' e.
Proof. intros Hu (a & r & H). exists a, r. by rewrite (un_jobs _ _ Hu). Qed.

Lemma child_edge_run b id :
  (callback_edge_for_child_job id b).2 =
  Ok (List.find (λ e, String.eqb (ce_child_job_id e) id) (map snd (latest_records (bs_edges b)).2)).
Proof.
  unfold callback_edge_for_child_job, edge_list_latest, mbind', on_edges.
  by destruct (latest_records (bs_edges b)) as [x d].
Qed.

(** ** The continuation *)

(** Nothing more for an edge that is settled or linked. *)
Definition once (s : dispatcher) (e : CallbackEdgeRecord) (s' : dispatcher) : Prop :=
  ∃ js, (length js ≤ 1)%nat ∧ Forall (continues e) js ∧
    Forall (λ j, ∀ b, jr_job_id j ∉ ids (jobs_of (di_jobs s) b)) js ∧
    views s' (admit_all js (jview_of s)) ∧ (edge_settled (ce_state e) = true ∨ linked s e → js = []).

Lemma once_none s e s' : views s' (jview_of s) → once s e s'.
Proof. intros Hv. exists []. split; [cbn; lia|]. do 2 (split; [constructor|]). by split. Qed.

Lemma once_more s e s' : edge_settled (ce_state e) = false → ¬ linked s e → one_more (continues e) s s' → once s e s'.
Proof.
  intros Hs Hl (js & H1 & H2 & H3 & H4). exists js. do 4 (split; [done|]). intros [H|H]; [by rewrite H in Hs|done].
Qed.

Lemma once_from s s1 e s' : unwritten s s1 → once s1 e s' → once s e s'.
Proof.
  intros Hu (js & H1 & H2 & H3 & H4 & H5). exists js. do 2 (split; [done|]). rewrite (un_jobs _ _ Hu) in H3.
  split; [done|]. split.
  - unfold views in *. rewrite H4. by rewrite (un_view _ _ Hu).
  - intros [H|H]; apply H5; [by left|right; by eapply linked_same].
Qed.

Lemma edge_continued e (f : CallbackEdgeRecord → CallbackEdgeRecord) s u :
  (on_bureau (update_callback_edge e f) s).2 = Ok u → u = f e.
Proof.
  unfold on_bureau, update_callback_edge, mbind', mlift. destruct (new_edge (f e)) as [x|] eqn:E; [|done].
  unfold new_edge in E. do 5 apply result_bind_Ok in E as (? & _ & E). injection E as <-. cbn. by intros [= <-].
Qed.

Lemma continuation_request_run u child d s r :
  (continuation_request cfg u child d s).2 = Ok r →
  option_of r "chain_edge_id" = VStr (ce_edge_id u) ∧
  normalize_agent_name (me_to_agent r) = normalize_agent_name (ce_callback_target_agent u).
Proof.
  unfold continuation_request, mbind' at 1. destruct (on_artifacts _ s) as [s1 [sp|]]; [|done]. cbn [snd mlift].
  unfold mlift. cbn [snd]. unfold new_envelope. intros H. inv_guards H.
  apply result_bind_Ok in H as (a & Ha & H). apply result_bind_Ok in H as (b & _ & H). inv_guards H.
  injection H as <-. split; [done|]. cbn [me_to_agent me_delivery_scope] in *. destruct (String.eqb (lower _) "all").
  - injection Ha as <-. by vm_compute in G2.
  - apply normalize_agent_name_again in Ha as Ha2. destruct Ha2 as [_ Ha2]. by etrans.
Qed.

Lemma good_then X {A} (m : DM A) s s' a : Grows cfg X m → good X s → m s = (s', Ok a) → good X s'.
Proof. intros Hm Hs E. specialize (Hm s Hs). rewrite E in Hm. exact (gr_good _ _ _ _ Hm). Qed.

Lemma continuation_once edge child rid d t s :
  good [] s →
  once s (edge_for s edge (jr_job_id child)) (submit_callback_continuation cfg ou edge child rid d t s).1.
Proof.
  intros Hs. unfold submit_callback_continuation.
  pose proof (reads_bureau cfg [] _ (bread_for_child (jr_job_id child)) s Hs) as Hu.
  pose proof (unwritten_good cfg [] _ _ Hs Hu) as Hs1. pose proof (child_edge_run (di_bureau s) (jr_job_id child)) as Hrun.
  unfold mbind' at 1. unfold on_bureau in *.
  destruct (callback_edge_for_child_job (jr_job_id child) (di_bureau s)) as [b1 [found|e0]]; cbn [fst snd] in *; [|done].
  injection Hrun as Hfound. match type of Hs1 with DispatchKeeps.good _ _ ?x => set (s1 := x) in * end. clearbody s1.
  apply (once_from s s1); [exact Hu|].
  replace (default edge found) with (edge_for s edge (jr_job_id child)) by (unfold edge_for, latest_of; by rewrite Hfound).
  set (e := edge_for s edge (jr_job_id child)). clearbody e. cbv zeta.
  destruct (edge_settled (ce_state e)) eqn:Est; [by apply once_none|].
  pose proof (reads_existing cfg [] e s1 Hs1) as Hu2. pose proof (unwritten_good cfg [] _ _ Hs1 Hu2) as Hs2.
  pose proof (linked_found s1 e) as Hl. unfold mbind' at 1.
  destruct (existing_continuation_job e s1) as [s2 [[c|]|e0]]; cbn [fst snd] in *.
  - apply once_none. match goal with |- views (?m s2).1 _ => assert (Hm : steady [] m) end.
    { apply steady_bind; [apply steady_calm, calm_repair_attempt|]. intros _. apply steady_calm; calm_solve. }
    destruct (Hm s2 Hs2) as [Hv _]. unfold views in *. rewrite Hv. apply (un_view _ _ Hu2).
  - apply (once_from s1 s2); [exact Hu2|]. apply once_more; [done| |].
    + intros (a & r & H). rewrite (un_jobs _ _ Hu2) in H. destruct Hl as [c Hc]; [by exists a, r|done].
    + match goal with |- one_more _ _ (?m s2).1 => assert (Hm : adds (continues e) m); [|exact (Hm s2 Hs2)] end.
      apply adds_before; [apply steady_calm; calm_solve|]. intros u (su & Hu').
      apply edge_continued in Hu'.
      assert (Hsame : ce_edge_id u = ce_edge_id e ∧ ce_callback_target_agent u = ce_callback_target_agent e) by (by rewrite Hu').
      destruct Hsame as [He Ht]. apply adds_after.
      * apply adds_attempted, adds_before; [unfold continuation_request; apply steady_calm; calm_solve|].
        intros req (sr & Hr). apply continuation_request_run in Hr as [Hr1 Hr2]. rewrite He in Hr1. rewrite Ht in Hr2.
        by apply adds_submit_continuation.
      * apply Grows_attempted, Grows_bind; [by apply grows_continuation_request|]. intros req.
        by apply grows_submit_continuation.
      * intros [[jid mid]|x]; [|apply steady_fail_edge]. apply steady_calm. calm_solve.
  - apply once_none, (un_view _ _ Hu2).
Qed.
End once.
