(* ===== verification/DispatchRebuild.v ===== *)
(** The start of a daemon: from the log and the mailboxes alone the dispatcher's memory is
    what it was, the queues in the order of the mailboxes. *)

From Stdlib Require Import Ascii String ZArith Lia.
From stdpp Require Import base gmap list strings functions.
From S2P Require Import Prelude PyData Names MailboxModels MailboxKernel MailboxInvariant Jobs Api JobStore BureauModels BureauState Completion DispatchState DispatchPolicy Dispatch DispatchView DispatchGood.

Local Open Scope Z_scope.

(** ** [_admission_ordered] *)

(** The first occurrence of each. *)
Definition firsts (l : list string) : list string :=
  foldl (λ o x, if mem_str x o then o else o ++ [x]) [] l.

Definition among (l : list string) (x : string) : bool := mem_str x l.

Lemma admit_id_fold wanted l o :
  foldl (admit_id wanted) o l =
  foldl (λ o x, if mem_str x o then o else o ++ [x]) o (List.filter wanted l).
Proof.
  revert o. induction l as [|x l IH]; intros o; [done|]. cbn. rewrite IH. unfold admit_id.
  destruct (wanted x); cbn; [|done]. by destruct (mem_str x o).
Qed.

Lemma firsts_new l o :
  NoDup l → foldl (λ o x, if mem_str x o then o else o ++ [x]) o l = o ++ List.filter (λ x, negb (among o x)) l.
Proof.
  intros H. revert o. induction H as [|x l Hx Hl IH]; intros o; cbn; [by rewrite app_nil_r|].
  rewrite IH. unfold among. destruct (mem_str x o) eqn:E; cbn; [done|].
  rewrite <-app_assoc. cbn. do 2 f_equal. apply filter_same. intros y Hy. f_equal.
  destruct (mem_str y o) eqn:Ey.
  - apply mem_str_spec. apply mem_str_spec in Ey. set_solver.
  - destruct (mem_str y (o ++ [x])) eqn:Ez; [|done]. apply mem_str_spec in Ez.
    apply elem_of_app in Ez as [Ez| ->%list_elem_of_singleton]; [|done]. apply mem_str_spec in Ez. congruence.
Qed.

Lemma elem_of_firsts_from l o x :
  x ∈ foldl (λ o x, if mem_str x o then o else o ++ [x]) o l ↔ x ∈ o ∨ x ∈ l.
Proof.
  revert o. induction l as [|y l IH]; intros o; cbn; [set_solver|]. rewrite IH.
  destruct (mem_str y o) eqn:E; [apply mem_str_spec in E|]; set_solver.
Qed.

Lemma elem_of_firsts l x : x ∈ firsts l ↔ x ∈ l.
Proof. unfold firsts. rewrite elem_of_firsts_from. set_solver. Qed.

Lemma firsts_nodup l : NoDup (firsts l).
Proof.
  unfold firsts. assert (G : ∀ o, NoDup o → NoDup (foldl (λ o x, if mem_str x o then o else o ++ [x]) o l));
    [|apply G; constructor].
  induction l as [|y l IH]; intros o H; cbn; [done|]. apply IH. destruct (mem_str y o) eqn:E; [done|].
  apply list.NoDup_app. split; [done|]. split; [|apply list.NoDup_singleton].
  intros x Hx ->%list_elem_of_singleton. apply mem_str_spec in Hx. congruence.
Qed.

(** The waiting jobs of the mailbox in its order, then the others in the log's order. *)
Lemma admission_ordered_spec pending mailbox :
  NoDup pending →
  admission_ordered pending mailbox =
    let known := firsts (List.filter (among pending) mailbox) in
    known ++ List.filter (λ x, negb (among known x)) pending.
Proof.
  intros H. unfold admission_ordered. rewrite !admit_id_fold.
  assert (E : List.filter (λ _ : string, true) pending = pending) by (clear H; induction pending; cbn; by f_equal).
  rewrite E. by rewrite firsts_new.
Qed.

Lemma admission_ordered_permutation pending mailbox :
  NoDup pending → admission_ordered pending mailbox ≡ₚ pending.
Proof.
  intros H. rewrite admission_ordered_spec by done. cbv zeta.
  set (known := firsts _). apply NoDup_Permutation; [|done|].
  - apply list.NoDup_app. split; [apply firsts_nodup|]. split; [|by apply filter_nodup].
    intros x Hx [_ Hn]%elem_of_filter_bool. unfold among in Hn.
    rewrite (proj2 (mem_str_spec _ _) Hx) in Hn. done.
  - intros x. rewrite elem_of_app, elem_of_filter_bool. split.
    + intros [Hx|[Hx _]]; [|done]. apply elem_of_firsts, elem_of_filter_bool in Hx as [_ Hx].
      by apply mem_str_spec.
    + intros Hx. destruct (among known x) eqn:E; [left; by apply mem_str_spec|by right].
Qed.

(** ** The scan of a log *)

Lemma scan_rows sl rows q :
  Forall (λ r, slot_of r = sl) rows →
  ∃ q' latest, foldl scan_row (q, ([], ∅)) rows = (q', (ids rows, latest)) ∧
    (∀ id, latest !! id = latest_row rows id) ∧ (∀ sl', items q' sl' = items q sl') ∧
    q_active q' = q_active q ∧
    (∀ id, q_index q' !! id = if mem_str id (ids rows) then Some sl else q_index q !! id).
Proof.
  induction rows as [|r rows IH] using rev_ind; intros H.
  { exists q, ∅. repeat split; try done. }
  apply list.Forall_app in H as [H Hr]. pose proof (Forall_inv Hr) as Hr'. clear Hr. rename Hr' into Hr. cbv beta in Hr.
  destruct (IH H) as (q' & latest & E & Hl & Hi & Ha & Hx). rewrite foldl_app, E. cbn.
  eexists _, _. split; [f_equal; f_equal|].
  - rewrite ids_snoc. rewrite Hl. destruct (latest_row rows (jr_job_id r)) as [old|] eqn:Eo.
    + rewrite (proj2 (mem_str_spec _ _)); [done|]. apply latest_row_some in Eo as [? ?].
      apply elem_of_ids. by exists old.
    + apply latest_row_none in Eo. destruct (mem_str _ _) eqn:Em; [by apply mem_str_spec in Em|done].
  - split; [|split; [|split]].
    + intros id. rewrite latest_row_snoc. unfold has_id. destruct (String.eqb_spec (jr_job_id r) id) as [->|Hn].
      * by rewrite lookup_insert, decide_True.
      * by rewrite lookup_insert_ne.
    + intros sl'. rewrite items_ensure. apply Hi.
    + by rewrite active_ensure.
    + intros id. rewrite index_ensure. cbn. rewrite ids_snoc.
      destruct (String.eqb_spec (jr_job_id r) id) as [<-|Hn].
      * rewrite lookup_insert, decide_True by done. rewrite Hr.
        destruct (mem_str (jr_job_id r) (ids rows)) eqn:Em; [by rewrite Em|].
        rewrite (proj2 (mem_str_spec _ _)); [done|]. set_solver.
      * rewrite lookup_insert_ne, Hx by done.
        destruct (mem_str (jr_job_id r) (ids rows)); [done|].
        destruct (mem_str id (ids rows)) eqn:Em.
        -- rewrite (proj2 (mem_str_spec _ _)); [done|]. apply mem_str_spec in Em. set_solver.
        -- destruct (mem_str id (ids rows ++ [jr_job_id r])) eqn:Em'; [|done].
           apply mem_str_spec, elem_of_app in Em' as [Em'| ->%list_elem_of_singleton]; [|done].
           apply mem_str_spec in Em'. congruence.
Qed.

Lemma with_status_jobs p latest rows :
  (∀ id, latest !! id = latest_row rows id) → with_status p latest (ids rows) = jobs_with p rows.
Proof. intros H. apply filter_same. intros id _. unfold has_status_of. by rewrite H. Qed.

(** ** The loops over the jobs of an agent *)

Definition known_in (latest : gmap string JobRecord) (sl : slot) (id : string) : Prop :=
  ∃ r, latest !! id = Some r ∧ slot_of r = sl.

Lemma for_slots_enqueue latest sl l q :
  Forall (known_in latest sl) l →
  ∃ q', for_slots enqueue_for latest l q = (q', Ok tt) ∧
    (∀ sl', items q' sl' = items q sl' ++ (if decide (sl = sl') then l else [])) ∧
    q_active q' = q_active q ∧ q_index q' = q_index q.
Proof.
  intros H. revert q. induction H as [|id l (r & Hr & Hsl) _ IH]; intros q.
  { exists q. split; [done|]. split; [|done]. intros sl'. destruct (decide _); by rewrite app_nil_r. }
  cbn [for_slots]. rewrite Hr, Hsl.
  set (q1 := set_items sl (items (ensure_queue sl q) sl ++ [id]) (ensure_queue sl q)).
  destruct (IH q1) as (q' & E & Hi & Ha & Hx). exists q'. split.
  { by rewrite (mbind_ok _ _ _ q1 tt). }
  unfold q1 in *. cbn in Ha, Hx. rewrite active_ensure in Ha. rewrite index_ensure in Hx.
  split; [|done]. intros sl'. rewrite Hi, items_set. unfold insert, fn_insert.
  destruct (decide (sl = sl')) as [<-|Hn]; rewrite !items_ensure; [by rewrite <-app_assoc|done].
Qed.

Lemma for_slots_mark latest sl o q :
  Forall (known_in latest sl) (option_list o) →
  ∃ q', for_slots (λ sl id, mmod (λ s, QState (q_queues s) (q_index s) (<[sl := id]> (q_active s))))
          latest (option_list o) q = (q', Ok tt) ∧
    (∀ sl', items q' sl' = items q sl') ∧ q_index q' = q_index q ∧
    (∀ sl', q_active q' !! sl' = if decide (sl = sl') then (match o with Some _ => o | None => q_active q !! sl' end)
                                 else q_active q !! sl').
Proof.
  destruct o as [id|]; intros H.
  - change (option_list (Some id)) with [id] in *. cbn [for_slots].
    apply Forall_inv in H as (r & Hr & Hsl). rewrite Hr, Hsl. eexists. split; [reflexivity|].
    split; [done|]. split; [done|]. intros sl'. cbn. destruct (decide (sl = sl')) as [<-|Hn].
    + by rewrite lookup_insert, decide_True.
    + by rewrite lookup_insert_ne.
  - exists q. split; [done|]. split; [done|]. split; [done|]. intros sl'. by destruct (decide _).
Qed.

Lemma jobs_with_known rows latest sl p l :
  (∀ id, latest !! id = latest_row rows id) → Forall (λ r, slot_of r = sl) rows →
  (∀ id, id ∈ l → id ∈ jobs_with p rows) → Forall (known_in latest sl) l.
Proof.
  intros Hl Hr Hs. apply list.Forall_forall. intros id Hid.
  apply Hs, elem_of_jobs_with in Hid as (r & E & _). exists r. rewrite Hl. split; [done|].
  apply latest_row_some in E as [E _]. rewrite list.Forall_forall in Hr. by apply Hr.
Qed.

Definition one_running (rows : list JobRecord) : option string := hd_error (running_jobs rows).

Lemma one_running_list rows : (length (running_jobs rows) ≤ 1)%nat → running_jobs rows = option_list (one_running rows).
Proof. unfold one_running. by destruct (running_jobs rows) as [|x [|y l]]; cbn; [| |lia]. Qed.

Section start.
Context (agents : list string).

(** The queue of an agent as it is rebuilt. *)
Definition admitted (js : jstate) (order : gmap string (list string)) (a : string) : list string :=
  admission_ordered (pending_jobs (jobs_of js a)) (default [] (order !! a)).

Lemma rebuild_agent_spec js order a q :
  log_ok agents (jobs_of js) → normal_name a = true →
  ∃ q', rebuild_agent js order a q = (q', Ok tt) ∧
    (∀ sl, items q' sl = items q sl ++ (if decide (agent_slot a = sl) then admitted js order a else [])) ∧
    (∀ sl, q_active q' !! sl =
       if decide (agent_slot a = sl)
       then match one_running (jobs_of js a) with Some x => Some x | None => q_active q !! sl end
       else q_active q !! sl) ∧
    (∀ id, q_index q' !! id = if mem_str id (ids (jobs_of js a)) then Some (agent_slot a) else q_index q !! id).
Proof.
  intros H Hn. set (rows := jobs_of js a).
  assert (Hrows : Forall (λ r, slot_of r = agent_slot a) rows).
  { apply list.Forall_forall. intros r Hr. by apply (lo_rows _ _ H). }
  destruct (scan_rows (agent_slot a) rows q Hrows) as (q1 & latest & E1 & Hl & Hi1 & Ha1 & Hx1).
  unfold rebuild_agent.
  rewrite (mbind_ok _ _ _ q rows) by (unfold list_agent, list_target, mbind', mlift; by rewrite normalize_agent_name_normal).
  rewrite (mbind_ok _ _ _ q1 (ids rows, latest)) by by rewrite E1.
  rewrite !with_status_jobs by done. change (jobs_with running_status rows) with (running_jobs rows).
  rewrite one_running_list by apply (lo_one _ _ H).
  destruct (for_slots_enqueue latest (agent_slot a) (admitted js order a) q1) as (q2 & E2 & Hi2 & Ha2 & Hx2).
  { apply (jobs_with_known rows _ _ pending_status); [done..|]. intros id Hid.
    unfold admitted, pending_jobs in Hid. by rewrite (admission_ordered_permutation _ _ (jobs_with_nodup _ _)) in Hid. }
  rewrite (mbind_ok _ _ _ q2 tt) by exact E2.
  destruct (for_slots_mark latest (agent_slot a) (one_running rows) q2) as (q3 & E3 & Hi3 & Hx3 & Ha3).
  { apply (jobs_with_known rows _ _ running_status); [done..|]. intros id Hid.
    rewrite <-one_running_list in Hid; [done|apply (lo_one _ _ H)]. }
  exists q3. split; [exact E3|]. split; [|split].
  - intros sl. by rewrite Hi3, Hi2, Hi1.
  - intros sl. rewrite Ha3, Ha2, Ha1. by destruct (one_running rows).
  - intros id. by rewrite Hx3, Hx2, Hx1.
Qed.

Lemma rebuild_agents_spec js order names q :
  log_ok agents (jobs_of js) → Forall (λ a, normal_name a = true) names → NoDup names →
  ∃ q', rebuild_agents js order names q = (q', Ok tt) ∧
    (∀ sl, items q' sl = items q sl ++ (if decide (sl.2 ∈ names) then admitted js order sl.2 else [])) ∧
    (∀ sl, q_active q' !! sl =
       if decide (sl.2 ∈ names)
       then match one_running (jobs_of js sl.2) with Some x => Some x | None => q_active q !! sl end
       else q_active q !! sl) ∧
    (∀ id, (∃ a, a ∈ names ∧ id ∈ ids (jobs_of js a) ∧ q_index q' !! id = Some (agent_slot a)) ∨
           ((∀ a, a ∈ names → id ∉ ids (jobs_of js a)) ∧ q_index q' !! id = q_index q !! id)).
Proof.
  intros H Hn Hd. revert q. induction names as [|a names IH]; intros q.
  { exists q. split; [done|]. split; [|split].
    - intros sl. rewrite decide_False by set_solver. by rewrite app_nil_r.
    - intros sl. by rewrite decide_False by set_solver.
    - intros id. right. set_solver. }
  apply Forall_cons_iff in Hn as [Ha Hn]. apply list.NoDup_cons in Hd as [Hna Hd].
  destruct (rebuild_agent_spec js order a q H Ha) as (q1 & E1 & Hi1 & Ha1 & Hx1).
  destruct (IH Hn Hd q1) as (q' & E & Hi & Hact & Hx). exists q'.
  split; [by cbn [rebuild_agents]; rewrite (mbind_ok _ _ _ q1 tt)|].
  assert (Hsl : ∀ sl : slot, agent_slot a = sl ↔ a = sl.2).
  { intros sl. split; [by intros <-|intros ->; apply slot_eta]. }
  split; [|split].
  - intros sl. rewrite Hi, Hi1, <-app_assoc. f_equal. destruct (decide (agent_slot a = sl)) as [E'|E'].
    + rewrite decide_False, decide_True by (apply Hsl in E'; subst; set_solver).
      rewrite app_nil_r. by rewrite <-E'.
    + rewrite Hsl in E'. cbn. destruct (decide (sl.2 ∈ names)); [rewrite decide_True|rewrite decide_False]; set_solver.
  - intros sl. rewrite Hact, Ha1. destruct (decide (agent_slot a = sl)) as [E'|E'].
    + rewrite decide_False, decide_True by (apply Hsl in E'; subst; set_solver). by rewrite <-E'.
    + rewrite Hsl in E'. destruct (decide (sl.2 ∈ names)); [rewrite decide_True|rewrite decide_False]; set_solver.
  - intros id. destruct (Hx id) as [(b & Hb & Hid & Eb)|[Hnone Eb]].
    + left. exists b. set_solver.
    + rewrite Hx1 in Eb. destruct (mem_str id (ids (jobs_of js a))) eqn:Em.
      * left. exists a. apply mem_str_spec in Em. set_solver.
      * right. split; [|done]. intros b [->|Hb]%elem_of_cons; [|by apply Hnone].
        intros Hin. apply mem_str_spec in Hin. congruence.
Qed.
End start.

(** ** The start *)

(** The jobs of the waiting events of a mailbox. *)
Definition mailbox_jobs (s : dispatcher) (a : string) : list string :=
  omap job_id_for_event (queue_of (box_of (bs_kernel (di_bureau s)) a)).

Lemma pending_events_run a k : owner_name a = true → pending_events a None k = (k, Ok (queue_of (box_of k a))).
Proof.
  intros Ha. pose proof (wp_pending_events a Ha k k (box_of k a) (λ l s', l = queue_of (box_of k a) ∧ s' = k) (λ _ _, False)) as H.
  specialize (H (at_box_refl a k) (conj eq_refl eq_refl)). unfold wp in H.
  destruct (pending_events a None k) as [k' [l|e]]; [|done]. by destruct H as [-> ->].
Qed.

Lemma mailbox_order_run names s :
  Forall (λ a, owner_name a = true) names →
  ∃ order, mailbox_pending_job_order names s = (s, Ok order) ∧ ∀ a, a ∈ names → order !! a = Some (mailbox_jobs s a).
Proof.
  induction 1 as [|a names Ha _ IH]; [exists ∅; split; [done|set_solver]|].
  destruct IH as (order & E & Ho). exists (<[a := mailbox_jobs s a]> order). split.
  - cbn [mailbox_pending_job_order].
    rewrite (mbind_ok _ _ _ s (queue_of (box_of (bs_kernel (di_bureau s)) a))).
    + by rewrite (mbind_ok _ _ _ s order).
    + unfold on_bureau, on_kernel. rewrite pending_events_run by done. by destruct s as [? ? []].
  - intros b [->|Hb]%elem_of_cons; [by rewrite lookup_insert, decide_True|].
    destruct (decide (a = b)) as [->|Hn]; [by rewrite lookup_insert, decide_True|].
    rewrite lookup_insert_ne by done. by apply Ho.
Qed.

Section restart.
Context (cfg : dconfig).
Hypothesis agents_owners : Forall (λ a, owner_name a = true) (dc_agents cfg).
Hypothesis agents_nodup : NoDup (dc_agents cfg).

Lemma owners_normal : Forall (λ a, normal_name a = true) (dc_agents cfg).
Proof. eapply list.Forall_impl; [exact agents_owners|]. intros a Ha. by apply andb_prop in Ha as [Ha _]. Qed.

Lemma rebuild_empty_queues (q : qstate) sl : items (QState ((λ _, []) <$> q_queues q) ∅ ∅) sl = [].
Proof. unfold items. cbn. rewrite lookup_fmap. by destruct (q_queues q !! sl). Qed.

(** A start ends normally, whatever the memory was, and the memory is in step. *)
Lemma start_spec s :
  log_ok (dc_agents cfg) (jobs_of (di_jobs s)) →
  ∃ s', start_dispatcher cfg s = (s', Ok tt) ∧ di_jobs s' = di_jobs s ∧ di_ids s' = di_ids s ∧ in_step (dc_agents cfg) (jview_of s') ∧
    ∀ a, a ∈ dc_agents cfg →
      items (di_queues s') (agent_slot a) =
      admission_ordered (pending_jobs (jobs_of (di_jobs s) a)) (mailbox_jobs s a).
Proof.
  intros H.
  set (s1 := Dispatcher (di_jobs s) (new_qstate (dc_agents cfg)) (di_bureau s) (di_trackers s) (di_snapshots s)
               (di_registry s) (di_ids s) (di_readings s) (di_view_revision s) (di_artifacts s)).
  destruct (mailbox_order_run (dc_agents cfg) s1 agents_owners) as (order & Eo & Ho).
  set (q0 := QState ((λ _, []) <$> q_queues (new_qstate (dc_agents cfg))) ∅ ∅).
  destruct (rebuild_agents_spec (dc_agents cfg) (di_jobs s) order (dc_agents cfg) q0 H owners_normal agents_nodup)
    as (q' & Eq & Hi & Ha & Hx).
  exists (Dispatcher (di_jobs s) q' (di_bureau s) (di_trackers s) (di_snapshots s) (di_registry s) (di_ids s)
            (di_readings s) (di_view_revision s) (di_artifacts s)). split; [|split; [done|split; [done|split]]].
  - unfold start_dispatcher. rewrite (mbind_ok _ _ _ s1 tt) by done. unfold rebuild_dispatcher_state.
    rewrite (mbind_ok _ _ _ s1 order) by exact Eo. rewrite (mbind_ok _ _ _ s1 (di_jobs s)) by done.
    unfold on_queues, rebuild. rewrite (mbind_ok _ _ _ q0 tt) by done. by rewrite Eq.
  - assert (Hout : ∀ a, a ∉ dc_agents cfg → jobs_of (di_jobs s) a = []).
    { intros a Hn. destruct (jobs_of (di_jobs s) a) as [|r l] eqn:E; [done|]. exfalso. apply Hn.
      apply (lo_rows _ _ H a r). rewrite E. apply elem_of_cons. by left. }
    split; cbn.
    + apply H.
    + intros sl. rewrite Hi. unfold q0 at 1. rewrite rebuild_empty_queues. cbn.
      destruct (decide (sl.2 ∈ dc_agents cfg)) as [Hin|Hn]; [|by rewrite Hout].
      apply admission_ordered_permutation, jobs_with_nodup.
    + intros sl. rewrite Ha. unfold q0 at 1. cbn. rewrite lookup_empty.
      destruct (decide (sl.2 ∈ dc_agents cfg)) as [Hin|Hn]; [|by rewrite Hout].
      etrans; [apply one_running_list, (lo_one _ _ H)|]. by destruct (one_running _).
    + intros id sl. destruct (Hx id) as [(a & Hain & Hid & E)|[Hnone E]]; rewrite E.
      * split; [intros [= <-]; done|]. intros Hsl. pose proof (lo_home _ _ H _ _ _ Hid Hsl) as ->.
        by rewrite slot_eta.
      * unfold q0. cbn. rewrite lookup_empty. split; [done|]. intros Hsl.
        destruct (decide (sl.2 ∈ dc_agents cfg)) as [Hin|Hn]; [by apply Hnone in Hsl|].
        rewrite Hout in Hsl by done. set_solver.
    + apply H.
  - intros a Hain. cbn. rewrite Hi. unfold q0 at 1. rewrite rebuild_empty_queues. cbn.
    rewrite decide_True by done. unfold admitted. by rewrite Ho.
Qed.
End restart.
