(* ===== verification/DispatchSteps.v ===== *)
(** The steps of the dispatcher, one for each entry of the daemon's protocol that touches
    jobs, and one for each pass of the daemon's loop.  An operation that raises leaves what it
    has done; the daemon goes on, except that a tick that raises, which may have stopped half
    way through the start of a job, is followed by a new start here.  The memory stays in
    step with the log along every run.

    A dispatcher of two agents, and a run of it: two requests and a tick. *)

From Stdlib Require Import Ascii String ZArith Lia.
From stdpp Require Import base gmap list strings functions relations.
From S2P Require Import Prelude PyData Names Storage MailboxModels MailboxKernel MailboxInvariant CompletionModels Detectors Jobs Api JobStore BureauModels BureauState Bureau Completion Artifacts DispatchState DispatchPolicy Dispatch Drain Routing Chains Continuations Submission Deliveries Finalize Starting Polling DispatchView DispatchGood DispatchOps DispatchKeeps DispatchGrows DispatchEnds DispatchFinish DispatchTicks DispatchRebuild.

Local Open Scope Z_scope.

Inductive job_op :=
  | Submit (r : MessageEnvelope)
  | Resubmit (message_id : string)
  | Retry (target : string)
  | Complete (job_id : string) (d : CompletionDecision)
  | Cancel (job_id : string) (record_reply : bool)
  | Tick (sweep : option (string → option Z))
  | PollUpdates (updates : list ExecutionUpdate)
  | PollTracker (completed_ids : list string)
  | RestoreRunning (job_ids : list string).

Definition is_tick (op : job_op) : bool := match op with Tick _ => true | _ => false end.

Section steps.
Context (cfg : dconfig) (ou : outside) `{Execution} (depth : nat).

Definition exec (op : job_op) : DM unit :=
  match op with
  | Submit r => do* submit_jobs cfg ou r in mret' tt
  | Resubmit id => do* resubmit_message cfg ou id in mret' tt
  | Retry t => do* retry_attempt cfg ou t in mret' tt
  | Complete id d => do* complete cfg ou depth id d in mret' tt
  | Cancel id rec => do* cancel_job cfg ou id rec in mret' tt
  | Tick sweep => do* tick cfg ou depth sweep in mret' tt
  | PollUpdates us => do* apply_updates cfg ou depth us in mret' tt
  | PollTracker ids => do* tick_tracker cfg ou depth ids in mret' tt
  | RestoreRunning ids => do* restore_running_jobs cfg ou depth ids in mret' tt
  end.

(** Shutdown: every job ends that has not, each by itself. *)
Definition shut_down (reason : string) (forced : bool) : DM unit :=
  do* terminate_nonterminal_jobs cfg ou depth reason forced in mret' tt.

(** What is reported to have ended, by the provider or by the completion tracker, is a known
    job that does not wait in its queue.  Nothing else is asked. *)
Definition op_ok (op : job_op) (s : dispatcher) : Prop :=
  match op with
  | Complete id _ => idle s id
  | PollUpdates us => Forall (λ u, idle s (eu_job_id u)) us
  | PollTracker _ => Forall (idle s) (tracked s)
  | _ => True
  end.

Inductive dstep : dispatcher → dispatcher → Prop :=
  | step_op op s s' r : op_ok op s → is_tick op = false → exec op s = (s', r) → dstep s s'
  | step_tick sweep s s' : exec (Tick sweep) s = (s', Ok tt) → dstep s s'
  | step_stuck sweep s s1 e s' :
      exec (Tick sweep) s = (s1, Err e) → start_dispatcher cfg s1 = (s', Ok tt) → dstep s s'
  | step_shutdown reason forced s s1 r s' :
      shut_down reason forced s = (s1, r) → start_dispatcher cfg s1 = (s', Ok tt) → dstep s s'
  | step_restart s s' : start_dispatcher cfg s = (s', Ok tt) → dstep s s'
  | step_other s s' : jview_of s' ≡ jview_of s → (di_ids s ≤ di_ids s')%nat → dstep s s'.

(** The states of a daemon that began with an empty log. *)
Definition reachable (s : dispatcher) : Prop :=
  ∃ s0 s1, (∀ a, jobs_of (di_jobs s0) a = []) ∧ start_dispatcher cfg s0 = (s1, Ok tt) ∧ rtc dstep s1 s.

(** What is asked of the configuration: agent names a mailbox can have, each once, that are
    those of the registry; and identifiers that do not repeat. *)
Record config_ok : Prop := {
  co_owners : Forall (λ a, owner_name a = true) (dc_agents cfg);
  co_nodup : NoDup (dc_agents cfg);
  co_hex : ∀ m n, dc_hex cfg m = dc_hex cfg n → m = n;
  co_registry : ∀ a sp, tc_agents (dc_tracker cfg) !! a = Some sp → a ∈ dc_agents cfg;
}.

Hypothesis config : config_ok.

Let normal := owners_normal cfg (co_owners config).
Let hex := co_hex config.
Let registry := co_registry config.

Abbreviation settled := (good cfg []).

Lemma start_good s : stranded cfg s →
  ∃ s', start_dispatcher cfg s = (s', Ok tt) ∧ settled s' ∧ di_jobs s' = di_jobs s.
Proof.
  intros [Hl Hu]. destruct (start_spec cfg (co_owners config) (co_nodup config) s Hl) as (s' & E & Hj & Hi & Hs & _).
  exists s'. split; [done|]. split; [|done]. split; [by apply (vgood_step (dc_agents cfg))|].
  rewrite Hi. intros m a Hm. change (job_name cfg m ∉ ids (jobs_of (di_jobs s') a)). rewrite Hj. by apply Hu.
Qed.

Lemma unit_settles {A} (m : DM A) : Moves cfg [] m → ∀ s, settled s → wp (do* m in mret' tt) (λ _, settled) (λ _, settled) s.
Proof.
  intros Hm s Hs. apply wp_bind. apply (wp_moves cfg []); [done..| |].
  - intros a s' H'. apply wp_ret. by eapply mv_good.
  - intros e s' H'. by eapply mv_good.
Qed.

Lemma unit_moves {A} (m : DM A) s : wp m (λ _, moves cfg [] s) (λ _, moves cfg [] s) s →
  wp (do* m in mret' tt) (λ _, settled) (λ _, settled) s.
Proof.
  intros Hm. apply wp_bind. eapply wp_mono; [exact Hm| |]; cbv beta.
  - intros a s' H'. apply wp_ret. by eapply mv_good.
  - intros e s' H'. by eapply mv_good.
Qed.

(** Every operation but a tick settles, whether it raises or not. *)
Lemma exec_effect op s : settled s → op_ok op s → is_tick op = false → wp (exec op) (λ _, settled) (λ _, settled) s.
Proof.
  intros Hs Hok Ht. destruct op as [r|id|t|id d|id rec|sweep|us|ids|ids]; [..|done| | |]; cbn [exec].
  - apply unit_settles; [|done]. by apply Grows_Moves, grows_submit.
  - apply unit_settles; [|done]. by apply Grows_Moves, grows_resubmit.
  - apply unit_settles; [|done]. by apply Grows_Moves, grows_retry.
  - apply unit_moves. eapply wp_mono; [by apply wp_complete_idle| |]; cbv beta; [|done]. by intros j s' [? _].
  - apply unit_settles; [|done]. by apply moves_cancel.
  - apply unit_moves. apply wp_apply_updates; [done..| |done]. by apply moves_refl.
  - apply unit_moves. by apply wp_tick_tracker.
  - apply unit_settles; [|done]. by apply moves_restore_running.
Qed.

Lemma tick_effect sweep s : settled s → wp (exec (Tick sweep)) (λ _, settled) (λ _, stranded cfg) s.
Proof.
  intros Hs. cbn [exec]. apply wp_bind. eapply wp_mono; [by apply settles_tick| |done].
  intros l s' H'. by apply wp_ret.
Qed.

Lemma shut_down_effect reason forced s :
  settled s → wp (shut_down reason forced) (λ _, stranded cfg) (λ _, stranded cfg) s.
Proof.
  intros Hs. unfold shut_down, terminate_nonterminal_jobs. apply wp_bind, wp_bind.
  assert (Hg : Grows cfg [] (latest_nonterminal_job_ids cfg)).
  { unfold latest_nonterminal_job_ids. apply Grows_bind; [|intros; grows_solve].
    generalize (dc_agents cfg). intros names. induction names as [|a names IH]; cbn [all_rows]; grows_solve. }
  apply (wp_grows cfg []); [done|done| |].
  - intros ids s1 H1. eapply wp_mono; [eapply wp_terminate_jobs; [done..|by eapply gr_good]| |]; cbv beta.
    + intros l s2 [Y H2]. apply wp_ret. eapply good_stranded. by eapply mv_good.
    + intros e s2 [Y H2]. eapply good_stranded. by eapply mv_good.
  - intros e s1 H1. eapply good_stranded. by eapply gr_good.
Qed.

Lemma step_settled s s' : settled s → dstep s s' → settled s'.
Proof.
  intros Hs Hd.
  assert (Hstart : ∀ s1 s2, stranded cfg s1 → start_dispatcher cfg s1 = (s2, Ok tt) → settled s2).
  { intros s1 s2 H1 E. destruct (start_good s1 H1) as (s3 & E3 & H3 & _). rewrite E in E3. by injection E3 as <-. }
  destruct Hd as [op s s' r Hok Ht E|sweep s s' E|sweep s s1 e s' E Es|reason forced s s1 r s' E Es|s s' Es|s s' E Hi].
  - pose proof (exec_effect op s Hs Hok Ht) as W. unfold wp in W. rewrite E in W. by destruct r.
  - pose proof (tick_effect sweep s Hs) as W. unfold wp in W. by rewrite E in W.
  - pose proof (tick_effect sweep s Hs) as W. unfold wp in W. rewrite E in W. by eapply Hstart.
  - pose proof (shut_down_effect reason forced s Hs) as W. unfold wp in W. rewrite E in W.
    eapply Hstart; [|exact Es]. by destruct r.
  - eapply Hstart; [|exact Es]. by eapply good_stranded.
  - destruct Hs as [Hg Hu]. eapply good_views; [exact E|exact Hg|]. by eapply unused_le.
Qed.

Lemma run_settled s s' : settled s → rtc dstep s s' → settled s'.
Proof. intros Hs Hr. induction Hr as [s|s s1 s' Hd _ IH]; [done|]. by apply IH, (step_settled s). Qed.

(** A daemon that starts with an empty log. *)
Lemma first_settled s0 s1 :
  (∀ a, jobs_of (di_jobs s0) a = []) → start_dispatcher cfg s0 = (s1, Ok tt) → settled s1.
Proof.
  intros He E.
  assert (H0 : stranded cfg s0).
  { split.
    - split; intros *; rewrite !He; cbn; [set_solver|set_solver|lia|constructor].
    - intros m a _. change (job_name cfg m ∉ ids (jobs_of (di_jobs s0) a)). rewrite He. cbn. set_solver. }
  destruct (start_good s0 H0) as (s2 & E2 & H2 & _). rewrite E in E2. by injection E2 as <-.
Qed.

Lemma reachable_settled s : reachable s → settled s.
Proof. intros (s0 & s1 & He & Hs & Hr). eapply run_settled; [|exact Hr]. by eapply first_settled. Qed.

Lemma settled_in_step s : settled s → in_step (dc_agents cfg) (jview_of s).
Proof. intros [Hg _]. by apply (vgood_step (dc_agents cfg)) in Hg. Qed.
End steps.

Module DSample.
Definition noon : string := "2024-05-01T12:00:00Z".
Fixpoint tally (n : nat) : string := match n with O => "a" | S n => String "a" (tally n) end.
Definition bureau : bconfig :=
  BConfig (KConfig (λ _, noon) (Some 60000000)) ["coder"; "boss"] tally (λ text _ _ _ _, Ok (text, None)).
Definition gemini : CompletionManifest :=
  MkManifest "gemini" "pane-backed" ANCHORED_SESSION_STABILITY SRC_SESSION_SNAPSHOT false true true
    true false SEL_SESSION_REPLY.
Definition tracking : tconfig :=
  TConfig {["coder" := MkSpec "gemini" PANE_BACKED]}
    {["gemini" := MkProviderManifest "gemini" true true false false true [(PANE_BACKED, gemini)]]} 0.
Definition texts : aconfig := AConfig "/p/texts" tally (λ _, noon) Some.
Definition cfg : dconfig := DConfig ["coder"; "boss"] true tracking bureau tally (λ _, noon) texts.

Definition ask : MessageEnvelope :=
  MkEnvelope "proj" "coder" "boss" "do it" None None "ask" SINGLE false [] None.
Definition draft : JobDraft := MkDraft "coder" "gemini" ask TARGET_AGENT "coder" None None None.
Definition decision : CompletionDecision :=
  MkDecision true CS_COMPLETED (Some "task_complete") (Some EXACT) "done" true true true None None (Some noon) [].

Definition blank_state : dispatcher :=
  Dispatcher (JState ∅ ∅ []) (QState ∅ ∅ ∅) (BState kinit [] [] [] no_edges 0) [] ∅
    {["coder" := MkRuntime AS_IDLE 0 None (Some "/w")]} 0 0 0 (MkArtifacts ∅ 0).

(** No drain, no callback limit, a runtime whose project is [proj]. *)
Definition around : outside :=
  MkOutside ∅ (λ _, Ok (empty_drain_queue default_bounds)) (λ _ _, Ok ("t", "/w")) None (λ _, "/w") (λ _, Some "proj") true.

(** An execution service that takes every job and has nothing to report. *)
Definition takes : submission := MkSubmissionView "gemini" SRC_SESSION_SNAPSHOT [("mode", VStr "active")] [] "".
#[global] Instance service : Execution :=
  { ex_present := true; ex_start := λ _ _, Ok (Some takes); ex_stored := λ _ _, Ok None; ex_live := λ _ _, true;
    ex_evidence := λ _ _, None; ex_preclaim := λ _ _, PRECLAIM_ALLOWED; ex_active := λ _, [];
    ex_restore := λ _ _, Ok (MkRestored "restored" "" true 0 None); ex_require_binding := false;
    ex_binding := λ _ _, (None, None); ex_ready := λ _ _, true }.

Abbreviation run := (exec cfg around 3%nat).
Definition s1 : dispatcher := (start_dispatcher cfg blank_state).1.
Definition s2 : dispatcher := (run (Submit ask) s1).1.
Definition s3 : dispatcher := (run (Submit ask) s2).1.
Definition s4 : dispatcher := (run (Tick None) s3).1.
Definition running_id : string :=
  match running_jobs (jobs_of (di_jobs s4) "coder") with id :: _ => id | [] => "" end.
Definition s5 : dispatcher := (run (Complete running_id decision) s4).1.
(** The running job is cancelled. *)
Definition s6 : dispatcher := (run (Cancel running_id true) s4).1.
End DSample.


Lemma ran `{Execution} cfg ou depth op s :
  (exec cfg ou depth op s).2 = Ok tt → exec cfg ou depth op s = ((exec cfg ou depth op s).1, Ok tt).
Proof. intros E. rewrite <-E. by destruct (exec cfg ou depth op s). Qed.

Lemma tally_apart m n : DSample.tally m = DSample.tally n → m = n.
Proof. revert n. induction m as [|m IH]; intros [|n]; cbn; [done|by destruct n|by destruct m|intros [= E]; f_equal; auto]. Qed.

Module DRun.
Import DSample.
Lemma config : config_ok cfg.
Proof.
  split.
  - repeat constructor.
  - apply (bool_decide_unpack _). vm_compute. exact I.
  - exact tally_apart.
  - intros a sp Ha. cbn in Ha. apply lookup_singleton_Some in Ha as [<- _]. by left.
Qed.
Abbreviation step := (dstep cfg around 3%nat).
Lemma starts : start_dispatcher cfg blank_state = (s1, Ok tt).
Proof. vm_compute. reflexivity. Qed.
Lemma step_1 : step s1 s2.
Proof. eapply (step_op cfg around 3 (Submit ask)); [done..|]. apply ran. vm_compute. reflexivity. Qed.
Lemma step_2 : step s2 s3.
Proof. eapply (step_op cfg around 3 (Submit ask)); [done..|]. apply ran. vm_compute. reflexivity. Qed.
Lemma step_3 : step s3 s4.
Proof. apply (step_tick cfg around 3 None). apply ran. vm_compute. reflexivity. Qed.
Lemma run_3 : rtc step s1 s4.
Proof. eapply rtc_l; [exact step_1|]. eapply rtc_l; [exact step_2|]. apply rtc_once, step_3. Qed.
Lemma reached : reachable cfg around 3 s4.
Proof. exists blank_state, s1. split; [done|]. split; [exact starts|exact run_3]. Qed.
Lemma step_6 : step s4 s6.
Proof. eapply (step_op cfg around 3 (Cancel running_id true)); [done..|]. apply ran. vm_compute. reflexivity. Qed.
Lemma reached_cancelled : reachable cfg around 3 s6.
Proof. exists blank_state, s1. split; [done|]. split; [exact starts|eapply rtc_r; [exact run_3|exact step_6]]. Qed.
Lemma reached_idle : reachable cfg around 3 s1.
Proof. exists blank_state, s1. split; [done|]. split; [exact starts|apply rtc_refl]. Qed.
End DRun.

