(* ===== verification/DispatchProps.v ===== *)
(** Properties of the dispatcher: its memory follows its log along every run, a start rebuilds
    it, retries are bounded, and only an accepted turn of a provider completes a job.

    Properties of requests, chains, retries and deliveries. *)

From Stdlib Require Import Ascii String ZArith Lia.
From stdpp Require Import base gmap list strings functions relations.
From S2P Require Import Prelude PyData Names Storage MailboxModels MailboxKernel MailboxInvariant CompletionModels Detectors Jobs Api JobStore BureauModels BureauState Bureau Completion Artifacts DispatchState DispatchPolicy Dispatch Drain Routing Chains Continuations Submission Deliveries Finalize Starting Polling DispatchView DispatchGood DispatchOps DispatchKeeps DispatchGrows DispatchFinish DispatchTicks DispatchReads DispatchFlow DispatchOnce DispatchRebuild DispatchSteps.

Local Open Scope Z_scope.

(** ** Memory and log *)





(** ** Nested completions *)

(** C16: a completion may end other jobs, deliveries that are found running without a process,
    and those may end others.  It comes to an end: how deep completions nest is bounded by the
    number of agents, so that any greater depth gives the same state and the same result. *)
Theorem completion_depth_enough `{Execution} (cfg : dconfig) (ou : outside) (depth n : nat) (s : dispatcher)
    (job_id : string) (d : CompletionDecision) :
  config_ok cfg → reachable cfg ou depth s → (length (dc_agents cfg) < n)%nat →
  complete cfg ou n job_id d s = complete cfg ou (S (length (dc_agents cfg))) job_id d s.
Proof.
  intros Hc Hr Hn. apply reachable_settled in Hr; [|done]. pose proof (owners_normal cfg (co_owners _ Hc)) as Hnorm.
  apply (complete_depth cfg ou Hnorm (co_hex _ Hc) (co_registry _ Hc) (length (dc_agents cfg)) (active_jobs cfg s) _ _ []);
    [apply active_jobs_length|done|lia|done|]. by apply (active_jobs_bound cfg Hnorm []).
Qed.

Lemma completion_depth_enough_witness :
  (complete DSample.cfg DSample.around 1000 DSample.running_id DSample.decision DSample.s4).2 =
  (complete DSample.cfg DSample.around 3 DSample.running_id DSample.decision DSample.s4).2.
Proof.
  rewrite (completion_depth_enough DSample.cfg DSample.around 3 1000 DSample.s4
             DSample.running_id DSample.decision DRun.config DRun.reached);
    [reflexivity|cbn; lia].
Defined.

(** ** Retries *)


Module DRetry.
Import DSample.
Definition failed_job : JobRecord :=
  MkJob "job_a" None "coder" "gemini" ask JS_FAILED (Some []) None noon noon None TARGET_AGENT "coder" None [].
Definition api_error : CompletionDecision :=
  MkDecision true CS_FAILED (Some "api_error") (Some EXACT) "" false false false None None (Some noon) [].
Definition asked : bstate :=
  (record_submission bureau ask [failed_job] None noon None (BState kinit [] [] [] no_edges 0)).1.
Definition plan : RetryableFailureContext := MkRetry "msg_a" "att_aa" 1 3 "api_error".
End DRetry.


(** ** The gate at the end of a provider's turn *)

Lemma new_decision_same x y : new_decision x = Ok y → y = x.
Proof.
  unfold new_decision. destruct (cd_terminal x); intros H; inv_guards H; congruence.
Qed.

Lemma withdrawn_incomplete d reason gate diagnostics r :
  withdrawn d reason gate diagnostics = Ok r → cd_status r = CS_INCOMPLETE.
Proof. by intros ->%new_decision_same. Qed.

Lemma annotated_facts sub d authority o :
  annotate_completion_authority sub (Some d) authority = Ok o →
  ∃ x, o = Some x ∧
    (cd_status x = CS_COMPLETED → cd_status d = CS_COMPLETED ∧ cd_reply x = cd_reply d ∧
                                  declares_herdr_authority (cd_diagnostics x) = false) ∧
    (cd_status x = CS_INCOMPLETE → cd_status d = CS_INCOMPLETE ∨ cd_status d = CS_COMPLETED).
Proof.
  unfold annotate_completion_authority. cbv zeta.
  destruct (bool_decide (cd_status d = CS_COMPLETED) && _) eqn:E; intros H;
    apply result_bind_Ok in H as (x & Hx & H); injection H as <-; exists x; (split; [done|]).
  - apply andb_prop in E as [E _]. apply bool_decide_eq_true in E. apply withdrawn_incomplete in Hx.
    split; [congruence|]. auto.
  - apply new_decision_same in Hx. subst x. cbn. split; [|by left].
    intros Hc. split; [done|]. split; [done|]. rewrite Hc, bool_decide_eq_true_2 in E by done. exact E.
Qed.

Lemma reply_delivery_outcome d r :
  reply_delivery_turn_end_outcome d = Ok r → cd_status d = CS_INCOMPLETE → cd_status r = CS_COMPLETED →
  cd_reply r = "" ∧ cd_reason r = Some "reply_delivery_turn_complete".
Proof.
  unfold reply_delivery_turn_end_outcome. intros H Hd Hr. rewrite bool_decide_eq_true_2 in H by done. cbn [negb] in H.
  destruct (_ && _ && _); [injection H as <-; congruence|]. by apply new_decision_same in H as ->.
Qed.


Module DGate.
Import DSample.
Definition turn : submission :=
  MkSubmissionView "codex" SRC_PROTOCOL_EVENT_STREAM
    [("mode", VStr "active"); ("delivery_state", VStr "accepted"); ("anchor_seen", VBool true)] [] "".
Definition passed : CompletionDecision :=
  match validate_provider_completion_decision (Some turn) (Some decision) None with Ok (Some r) => r | _ => decision end.
End DGate.


(** ** Requests *)

Lemma validated_ask cfg ou r : yields (validate_callback_request cfg ou r) (same_ask r).
Proof.
  unfold validate_callback_request. cbv zeta.
  repeat first
    [ match goal with |- yields (mbind' _ _) _ => apply (yields_bind_ok (A := MessageEnvelope) _ _ (same_ask r)); [|intros ? ?] end
    | apply (bound_ask ou r)
    | yields_step | apply yields_ret ]; done.
Qed.

Lemma drafts_content cfg ou r targets l :
  drafts_for_agents cfg ou r targets = Ok l →
  map jd_target_name l = targets ∧ Forall (λ d, me_body (jd_request d) = me_body r) l.
Proof.
  revert l. induction targets as [|a targets IH]; intros l; cbn; [by intros [= <-]|].
  intros H. apply result_bind_Ok in H as (spec & _ & H). apply result_bind_Ok in H as (m & Hm & H).
  apply result_bind_Ok in H as (l' & Hl & H). injection H as <-. destruct (IH l' Hl) as [H1 H2]. cbn. split; [by f_equal|].
  constructor; [|done]. unfold message_for_agent, new_envelope in Hm. cbn in Hm. do 4 apply raise_if_Ok in Hm as [_ Hm].
  apply result_bind_Ok in Hm as (t & _ & Hm). apply result_bind_Ok in Hm as (f & _ & Hm).
  do 2 apply raise_if_Ok in Hm as [_ Hm]. by injection Hm as <-.
Qed.

(** The plan of a request. *)
Definition plans (r : MessageEnvelope) (p : SubmissionPlan) : Prop :=
  Forall (λ d, me_body (jd_request d) = me_body r) (pl_drafts p) ∧
  (me_delivery_scope r = SINGLE → pl_submission_id p = None ∧ map jd_target_name (pl_drafts p) = [me_to_agent r]).

Lemma plan_for_plans cfg ou r r' targets :
  same_ask r r' → (me_delivery_scope r = SINGLE → targets = [me_to_agent r]) → yields (plan_for cfg ou r' targets None) (plans r).
Proof.
  intros (Ha & Hd & Hb) Ht s p. unfold plan_for, submission_id_for. rewrite Hd.
  assert (Hdrafts : ∀ l, drafts_for_agents cfg ou r' targets = Ok l →
    map jd_target_name l = targets ∧ Forall (λ d, me_body (jd_request d) = me_body r) l).
  { intros l Hl. apply drafts_content in Hl. by rewrite Hb in Hl. }
  destruct (bool_decide (me_delivery_scope r = BROADCAST)) eqn:E; unfold mbind', mlift, mret'; cbn.
  - apply bool_decide_eq_true in E. destruct (drafts_for_agents cfg ou r' targets) as [l|] eqn:El; [|done].
    intros [= <-]. destruct (Hdrafts l eq_refl). split; [done|]. congruence.
  - destruct (drafts_for_agents cfg ou r' targets) as [l|] eqn:El; [|done].
    intros [= <-]. destruct (Hdrafts l eq_refl) as [H1 H2]. split; [done|]. intros Hs. split; [done|]. cbn. by rewrite H1, Ht.
Qed.

Lemma targets_single cfg ou r :
  yields (resolve_targets cfg ou r) (λ l, me_delivery_scope r = SINGLE → l = [me_to_agent r]).
Proof.
  unfold resolve_targets. destruct (bool_decide (me_delivery_scope r = SINGLE)) eqn:Es.
  - yields_step. by apply yields_ret.
  - intros s l _ E. apply bool_decide_eq_false in Es. congruence.
Qed.

Lemma plan_plans cfg ou r : yields (plan_agent_submission cfg ou r) (plans r).
Proof.
  unfold plan_agent_submission. do 2 yields_step.
  apply (yields_bind_ok _ _ (same_ask r)); [apply validated_ask|]. intros r' Hr.
  eapply yields_bind_ok; [apply targets_single|]. cbv beta. intros targets Ht.
  destruct (bool_decide (targets = [])); [apply yields_raise|]. yields_step.
  apply plan_for_plans; [done|]. destruct Hr as (Ha & Hd & _). rewrite <-Ha, <-Hd. done.
Qed.



(** ** Chains *)

(** C19: a chained request goes through only for one target, from an agent with an active job
    that is no delivery, and once for each such job; only while the chain of the job's message,
    followed from child to parent, is shorter than the limit; and only to an agent that is
    neither a parent nor a child anywhere in that chain, nor the one that asks.  Following the
    chain comes to an end whatever the edges are: to a message no edge leads to, or to one seen
    before.  Nothing is written meanwhile. *)
Theorem chained_request_bounded `{Execution} (cfg : dconfig) (ou : outside) (depth : nat) (s s' : dispatcher)
    (r r' : MessageEnvelope) :
  config_ok cfg → reachable cfg ou depth s → request_callback_route r = true →
  validate_callback_request cfg ou r s = (s', Ok r') →
  unwritten s s' ∧
  ∃ p m, let a := lower (strip (me_from_actor r)) in let chain := chain_of (latest_of s) (ms_message_id m) in
    me_delivery_scope r = SINGLE ∧ a ∈ dc_agents cfg ∧ q_active (di_queues s) !! agent_slot a = Some (jr_job_id p) ∧
    is_reply_delivery_job p = false ∧ message_of s p m ∧ Forall (λ e, ce_parent_job_id e ≠ jr_job_id p) (latest_of s) ∧
    Z.of_nat (length chain) < max_callback_depth ou ∧ lower (strip (me_to_agent r)) ∉ chain_actors chain p ∧
    follows (latest_of s) [] (ms_message_id m) chain ∧
    ∀ fuel, (length (latest_of s) < fuel)%nat → chain_loop fuel (latest_of s) (ms_message_id m) [] = chain.
Proof.
  intros Hc Hr Hroute E. apply reachable_settled in Hr as Hs; [|done].
  pose proof (owners_normal cfg (co_owners _ Hc)) as Hn.
  pose proof (reads_callback_request cfg ou [] Hn r s Hs) as Hu. rewrite E in Hu. split; [exact Hu|].
  pose proof (wp_chained cfg ou Hn r s Hs Hroute) as W. unfold wp in W. rewrite E in W.
  destruct W as (p & m & [H1 (H2 & H3 & _ & H4) H5 H6 H7 H8]). exists p, m. cbv zeta. split_and!; try done; [lia| |].
  - apply chain_of_follows.
  - intros fuel Hf. eapply follows_unique; [|apply chain_of_follows]. apply chain_loop_follows.
    pose proof (List.filter_length_le (λ e, negb (mem_str (ce_child_message_id e) [])) (latest_of s)). unfold unseen. lia.
Qed.

Module DChain.
Import DSample.
Definition chain_ask : MessageEnvelope :=
  MkEnvelope "proj" "boss" "coder" "help me" None None "ask" SINGLE false [("mode", VStr "chain")] None.
End DChain.

Lemma chained_request_bounded_witness :
  Z.of_nat (length (chain_of (latest_of DSample.s4) "msg_a")) < 5.
Proof.
  assert (E : validate_callback_request DSample.cfg DSample.around DChain.chain_ask DSample.s4 =
    ((validate_callback_request DSample.cfg DSample.around DChain.chain_ask DSample.s4).1, Ok DChain.chain_ask))
    by (vm_compute; reflexivity).
  destruct (chained_request_bounded DSample.cfg DSample.around 3 DSample.s4 _ DChain.chain_ask _ DRun.config DRun.reached eq_refl E)
    as (_ & p & m & _ & _ & Ha & _ & (a & Hat & Hm) & _ & Hd & _).
  assert (Ep : jr_job_id p = DSample.running_id) by (vm_compute in Ha; vm_compute; congruence).
  rewrite Ep in Hat. assert (Ea : at_message_id a = "msg_a") by (vm_compute in Hat; by injection Hat as <-).
  apply find_last_Some in Hm as [_ Hm]. apply String.eqb_eq in Hm. rewrite <-Ea, <-Hm. exact Hd.
Defined.

(** ** Retries *)

(** The attempt a target names: by its own identifier, or by that of its job. *)
Definition names_attempt (s : dispatcher) (target : string) (a : AttemptRecord) : Prop :=
  let attempts := bs_attempts (di_bureau s) in
  match find_last (λ x, String.eqb (at_attempt_id x) target) attempts with
  | Some x => x = a
  | None => find_last (has_job target) attempts = Some a
  end.

(** It is the latest of its message for its agent, and has ended without success. *)
Definition failed_latest (s : dispatcher) (a : AttemptRecord) : Prop :=
  attempt_terminal (at_state a) = true ∧ at_state a ≠ AT_COMPLETED ∧
  ∃ l, attempt_of (foldl keep_latest [] (latest_attempts (attempts_of_message (at_message_id a) (bs_attempts (di_bureau s)))))
         (at_agent_name a) = Some l ∧ at_attempt_id l = at_attempt_id a.

Lemma unwritten_attempts s s' : unwritten s s' → bs_attempts (di_bureau s') = bs_attempts (di_bureau s).
Proof. intros H. by rewrite (sa_attempts _ _ (un_bureau _ _ H)). Qed.

Lemma wp_resolve cfg s t :
  good cfg [] s →
  wp (resolve_retry_attempt t) (λ a s', names_attempt s t a ∧ unwritten s s' ∧ good cfg [] s') (λ _ _, True) s.
Proof.
  intros Hs. unfold resolve_retry_attempt. apply wp_bind. apply (wp_on_bureau cfg []); [apply bread_attempt|done| |done].
  unfold names_attempt. cbv zeta. intros [a|] s1 [= Ha] Hu1 Hs1; rewrite Ha; [by apply wp_ret|].
  apply wp_bind. apply (wp_on_bureau cfg []); [apply bread_attempt_job|done| |done].
  intros [a|] s2 [= Ha2] Hu2 Hs2; [|done]. apply wp_ret. rewrite (unwritten_attempts s s1) in Ha2 by done.
  split; [done|]. split; [by eapply unwritten_trans|done].
Qed.

Lemma wp_retry_source cfg ou s t :
  Forall (λ a, normal_name a = true) (dc_agents cfg) → good cfg [] s →
  wp (retry_source cfg ou t)
    (λ x s', names_attempt s t x.1.1 ∧ failed_latest s x.1.1 ∧ known s (at_job_id x.1.1) = Some x.2 ∧
       unwritten s s' ∧ good cfg [] s') (λ _ _, True) s.
Proof.
  intros Hn Hs. unfold retry_source. apply wp_bind. eapply wp_mono; [by apply wp_resolve| |done].
  intros a s1 (Ha & Hu1 & Hs1). destruct (attempt_terminal (at_state a)) eqn:Et; cbn [negb]; [|done].
  destruct (bool_decide (at_state a = AT_COMPLETED)) eqn:Ec; [done|]. apply bool_decide_eq_false in Ec.
  apply wp_bind. apply (wp_on_bureau cfg []); [apply bread_by_agent|done| |done]. intros latest s2 [= <-] Hu2 Hs2.
  destruct (attempt_of _ (at_agent_name a)) as [l|] eqn:El; [|done].
  destruct (String.eqb_spec (at_attempt_id l) (at_attempt_id a)) as [Eid|]; cbn [negb]; [|done].
  assert (Hf : failed_latest s a).
  { split; [done|]. split; [done|]. exists l. rewrite <-(unwritten_attempts s s1) by done. done. }
  apply wp_bind. apply (wp_on_bureau cfg []); [apply bread_message|done| |done]. intros [m|] s3 _ Hu3 Hs3; [|done].
  apply wp_bind. apply (wp_reads cfg []); [apply reads_ready|done| |done]. intros _ s4 Hu4 Hs4.
  apply wp_bind. apply (wp_reads cfg []); [apply reads_available|done| |done]. intros _ s5 Hu5 Hs5.
  assert (H05 : unwritten s s5).
  { eapply unwritten_trans; [exact Hu1|]. eapply unwritten_trans; [exact Hu2|]. eapply unwritten_trans; [exact Hu3|].
    by eapply unwritten_trans. }
  apply wp_bind. unfold wp at 1. pose proof (reads_latest_target cfg [] (at_agent_name a) (at_job_id a) s5 Hs5) as Hu6.
  destruct (on_jobs (get_latest_target (at_agent_name a) (at_job_id a)) s5) as [s6 [o|]] eqn:E6; [|done]. cbn in Hu6.
  destruct o as [j|]; [|done]. apply wp_ret. cbn [fst snd]. split; [done|]. split; [done|].
  assert (H06 : unwritten s s6) by by eapply unwritten_trans. split; [|split; [done|by eapply unwritten_good]].
  unfold on_jobs, get_latest_target, mbind', mlift, mget in E6.
  destruct (normalize_agent_name (at_agent_name a)) as [n|]; [|done]. cbn in E6. injection E6 as _ E6.
  rewrite (un_jobs _ _ H05) in E6. destruct Hs as [Hg _].
  eapply (known_latest (dc_agents cfg)); [first [exact Hg|exact Hn]..|exact E6].
Qed.

(** The new request: the old one, or [continue] where the provider had begun to answer. *)
Lemma retry_request_body j r :
  retry_request_for_job j = Ok r →
  me_body r = if should_retry_with_continue j then RETRY_CONTINUE_BODY else me_body (jr_request j).
Proof.
  unfold retry_request_for_job. destruct (should_retry_with_continue j); cbn [negb]; [|by intros [= <-]].
  unfold new_envelope. intros Hm. cbn [me_project_id me_to_agent me_from_actor me_body me_delivery_scope] in Hm.
  do 4 apply raise_if_Ok in Hm as [_ Hm].
  apply result_bind_Ok in Hm as (t & _ & Hm). apply result_bind_Ok in Hm as (f & _ & Hm).
  do 2 apply raise_if_Ok in Hm as [_ Hm]. by injection Hm as <-.
Qed.

(** C27: what may be retried is the latest attempt of its message for its agent, ended and not
    completed, whose job the log has; a retry that is refused for any of this leaves every log,
    queue, mailbox and record as it was.  A retry that is accepted adds one new job for the
    same target, at the back of its queue, asking for what was asked, or, where the provider
    had begun to answer, for it to continue. *)
Theorem retry_of_latest_failure `{Execution} (cfg : dconfig) (ou : outside) (depth : nat) (s : dispatcher) (target : string) :
  config_ok cfg → reachable cfg ou depth s →
  (∀ e, (retry_source cfg ou target (clock cfg s).1).2 = Err e →
     ∃ s', retry_attempt cfg ou target s = (s', Err e) ∧ unwritten s s') ∧
  (∀ s' p, retry_attempt cfg ou target s = (s', Ok p) →
     ∃ a old new, names_attempt s target a ∧ failed_latest s a ∧ known s (at_job_id a) = Some old ∧
       ry_message_id p = at_message_id a ∧ ry_original_attempt_id p = at_attempt_id a ∧ ry_job_id p = jr_job_id new ∧
       jr_target_name new = jr_target_name old ∧ pending_status (jr_status new) = true ∧
       me_body (jr_request new) =
         (if should_retry_with_continue old then RETRY_CONTINUE_BODY else me_body (jr_request old)) ∧
       (∀ b, jr_job_id new ∉ ids (jobs_of (di_jobs s) b)) ∧
       ∀ b, jobs_of (di_jobs s') b = jobs_of (di_jobs s) b ++ List.filter (for_target b) [new] ∧
            items (di_queues s') (agent_slot b) =
              items (di_queues s) (agent_slot b) ++ map jr_job_id (List.filter (for_target b) [new])).
Proof.
  intros Hc Hr. apply reachable_settled in Hr as Hs; [|done]. clear Hr.
  pose proof (owners_normal cfg (co_owners _ Hc)) as Hn.
  set (s1 := (clock cfg s).1).
  assert (Hu1 : unwritten s s1) by by apply (reads_clock cfg []).
  assert (Hs1 : good cfg [] s1) by (eapply unwritten_good; [exact Hs|exact Hu1]).
  pose proof (reads_retry_source cfg ou [] target s1 Hs1) as Hu2.
  pose proof (wp_retry_source cfg ou s1 target Hn Hs1) as W. unfold retry_attempt.
  rewrite (mbind_ok _ _ _ s1 (dc_clock cfg (di_readings s))) by done. unfold wp in W. split.
  { intros e He. destruct (retry_source cfg ou target s1) as [s2 [x|e']] eqn:Es; cbn in He, Hu2; [done|].
    injection He as <-. exists s2. split; [unfold mbind' at 1; by rewrite Es|]. by eapply unwritten_trans. }
  intros s' p E. unfold mbind' at 1 in E. destruct (retry_source cfg ou target s1) as [s2 [[[a m] j]|e']]; [|done]. cbn [fst snd] in *.
  destruct W as (Ha & Hf & Hk & _ & Hs2). 
  assert (Hv2 : views s2 (jview_of s)) by (eapply un_view, unwritten_trans; [exact Hu1|exact Hu2]).
  assert (Hi2 : (di_ids s ≤ di_ids s2)%nat) by (eapply un_ids, unwritten_trans; [exact Hu1|exact Hu2]).
  destruct (known_facts _ Hn [] _ _ _ (proj1 Hs1) Hk) as (_ & _ & Hnj & Hin & _).
  assert (Ht : target_ok cfg (jr_target_name j)) by (exists (jr_target_name j); by rewrite normalize_agent_name_normal).
  set (Q := λ (p : RetryPayload) (s' : dispatcher), ∃ new k, (di_ids s2 ≤ k)%nat ∧ jr_job_id new = job_name cfg k ∧
    ry_message_id p = at_message_id a ∧ ry_original_attempt_id p = at_attempt_id a ∧ ry_job_id p = jr_job_id new ∧
    jr_target_name new = jr_target_name j ∧ pending_status (jr_status new) = true ∧
    me_body (jr_request new) = (if should_retry_with_continue j then RETRY_CONTINUE_BODY else me_body (jr_request j)) ∧
    views s' (admitted_view new (jview_of s))).
  match type of E with ?m s2 = _ => assert (W : wp m Q (λ _ _, True) s2) end.
  { apply wp_bind, wp_lift. destruct (retry_request_for_job j) as [req|] eqn:Er; [|done]. cbv zeta.
    apply retry_request_body in Er. apply (wp_admission cfg _ _ _ s2 (jview_of s)); [done|exact Ht|].
    intros b r s3 [Hid Hta Hp Hreq [Hr1 Hr2] Ho] Hv3 Hi3. cbn [fst snd jd_target_name jd_request] in *.
    apply wp_bind. eapply (dq_wp_quiet _ s3); [eauto with quiet|exact Hv3| |done]. intros att s4 Hv4.
    apply wp_bind. eapply (dq_wp_quiet _ s4); [apply calm_append_submission|exact Hv4| |done]. intros _ s5 Hv5.
    apply wp_ret. exists b.1, (di_ids s2). cbn. split; [done|]. split_and!; try done.
    - rewrite normalize_agent_name_normal in Hta by done. by injection Hta.
    - by rewrite Hreq. }
  unfold wp in W. rewrite E in W. destruct W as (new & k & Hk' & Hid & Hm & Ho & Hj & Hta & Hp & Hb & Hv).
  assert (Hatt : bs_attempts (di_bureau s1) = bs_attempts (di_bureau s)) by by apply unwritten_attempts.
  assert (Hks : known s (at_job_id a) = Some j).
  { rewrite <-Hk. symmetry. exact (known_row_equiv _ _ _ (un_view _ _ Hu1)). }
  unfold names_attempt, failed_latest in Ha, Hf. rewrite Hatt in Ha, Hf. exists a, j, new.
  do 9 (split; [assumption|]). split.
  - intros b. rewrite Hid. destruct Hs as [_ Hunused]. apply (Hunused k b). lia.
  - intros b. change (admitted_view new (jview_of s)) with (admit_all [new] (jview_of s)) in Hv. split.
    + etrans; [exact (jv_same_log _ _ Hv b)|]. apply admit_all_log.
    + etrans; [exact (jv_same_items _ _ Hv (agent_slot b))|]. apply admit_all_items.
Qed.

Lemma paired {A B : Type} (x : A * B) (b : B) : x.2 = b → x = (x.1, b).
Proof. intros <-. by destruct x. Qed.

Module DRetryRun.
Import DSample.
Abbreviation again := (retry_attempt cfg around "job_a" s6).
Definition accepted : RetryPayload :=
  MkRetryPayload noon "job_a" "msg_a" "att_aa" "att_aaaaaaaaa" "job_aaaaaaaaaaa" "coder" JS_QUEUED.
Lemma accepts_payload : again.2 = Ok accepted.
Proof. vm_compute. reflexivity. Qed.
Lemma accepts : retry_attempt cfg around "job_a" s6 = (again.1, Ok accepted).
Proof. exact (paired again _ accepts_payload). Qed.
End DRetryRun.

Lemma retry_of_latest_failure_witness :
  ∃ a new, failed_latest DSample.s6 a ∧ at_attempt_id a = "att_aa" ∧ jr_job_id new = "job_aaaaaaaaaaa" ∧
    pending_status (jr_status new) = true ∧ ∀ b, jr_job_id new ∉ ids (jobs_of (di_jobs DSample.s6) b).
Proof.
  destruct (retry_of_latest_failure DSample.cfg DSample.around 3 DSample.s6 "job_a" DRun.config DRun.reached_cancelled)
    as [_ H].
  destruct (H DRetryRun.again.1 DRetryRun.accepted DRetryRun.accepts) as (a & old & new & _ & Hf & _ & _ & Ha & Hj & _ & Hp & _ & Hn & _).
  exists a, new. split; [exact Hf|]. split; [symmetry; exact Ha|]. split; [symmetry; exact Hj|]. split; [exact Hp|exact Hn].
Defined.

(** ** Continuations *)

(** C9: when the child of a callback edge has ended, at most one continuation job is admitted
    for the edge, whatever raises on the way: for the agent the edge calls back, naming the
    edge, at the back of its queue.  There is none when the edge is settled, or when the agent's
    log has a continuation of the edge already, although the edge may not know of it; once one
    is admitted the log has it. *)
Theorem edge_continues_once `{Execution} (cfg : dconfig) (ou : outside) (depth : nat) (s : dispatcher)
    (edge : CallbackEdgeRecord) (child : JobRecord) (reply : option string) (d : CompletionDecision) (t : string) :
  config_ok cfg → reachable cfg ou depth s →
  let e := edge_for s edge (jr_job_id child) in
  let s' := (submit_callback_continuation cfg ou edge child reply d t s).1 in
  ∃ js, (length js ≤ 1)%nat ∧ (edge_settled (ce_state e) = true ∨ linked s e → js = []) ∧
    Forall (λ j, continues e j ∧ ∀ b, jr_job_id j ∉ ids (jobs_of (di_jobs s) b)) js ∧
    (∀ b, jobs_of (di_jobs s') b = jobs_of (di_jobs s) b ++ List.filter (for_target b) js ∧
          items (di_queues s') (agent_slot b) =
            items (di_queues s) (agent_slot b) ++ map jr_job_id (List.filter (for_target b) js)) ∧
    (js ≠ [] → truthy (ce_edge_id e) = true → strip (ce_edge_id e) = ce_edge_id e → linked s' e).
Proof.
  intros Hc Hr e s'. apply reachable_settled in Hr as Hs; [|done].
  destruct (continuation_once cfg ou (owners_normal cfg (co_owners _ Hc)) (co_hex _ Hc) (co_registry _ Hc)
              edge child reply d t s Hs) as (js & H1 & H2 & H3 & H4 & H5).
  assert (Hlog : ∀ b, jobs_of (di_jobs s') b = jobs_of (di_jobs s) b ++ List.filter (for_target b) js).
  { intros b. etrans; [exact (jv_same_log _ _ H4 b)|]. apply admit_all_log. }
  exists js. split; [done|]. split; [done|]. split; [by apply Forall_and|]. split.
  - intros b. split; [apply Hlog|]. etrans; [exact (jv_same_items _ _ H4 (agent_slot b))|]. apply admit_all_items.
  - intros Hne Ht Hst. destruct js as [|j [|? ?]]; [done| |cbn in H1; lia]. apply Forall_cons_iff in H2 as [[He Ha _] _].
    exists (jr_target_name j), j. split; [exact Ha|]. split.
    + rewrite Hlog. apply elem_of_app. right. cbn. unfold for_target. rewrite String.eqb_refl. left.
    + split; [exact Ht|]. unfold option_text. rewrite He. fold e. by destruct (ce_edge_id e).
Qed.

Module DLink.
Import DSample.
(** An edge the daemon has not kept. *)
Definition edge : CallbackEdgeRecord :=
  MkEdge "cb_1" "job_p" "msg_p" "coder" "job_c" "msg_c" "coder" "boss" None CE_PENDING None None None None None
    noon noon [].
Definition child : JobRecord :=
  MkJob "job_c" None "boss" "gemini" ask JS_COMPLETED (Some []) None noon noon None TARGET_AGENT "boss" None [].
Abbreviation after := (submit_callback_continuation cfg around edge child None decision noon s1).1.
Lemma made_one : length (jobs_of (di_jobs after) "coder") = 1%nat.
Proof. vm_compute. reflexivity. Qed.
Lemma none_before : length (jobs_of (di_jobs s1) "coder") = 0%nat.
Proof. vm_compute. reflexivity. Qed.
Lemma its_own : edge_for s1 edge (jr_job_id child) = edge.
Proof. vm_compute. reflexivity. Qed.
End DLink.

Lemma edge_continues_once_witness : linked DLink.after DLink.edge.
Proof.
  destruct (edge_continues_once DSample.cfg DSample.around 3 DSample.s1 DLink.edge DLink.child None DSample.decision
              DSample.noon DRun.config DRun.reached_idle) as (js & _ & _ & _ & Hl & H).
  destruct (Hl "coder") as [E _]. rewrite DLink.its_own in H. apply H; [|reflexivity|reflexivity].
  intros ->. apply (f_equal length) in E. rewrite length_app, DLink.made_one, DLink.none_before in E. cbn in E. lia.
Defined.
