(* ===== verification/DeliveryProps.v ===== *)
(** The end of a delivery job: the reply it carried is consumed, or goes back to its mailbox
    for another delivery, three times at most. *)

From Stdlib Require Import Ascii String ZArith Lia.
From stdpp Require Import base gmap list strings functions relations.
From S2P Require Import Prelude PyData Names Storage MailboxModels MailboxKernel MailboxInvariant MailboxOps MailboxSpec MailboxDiscipline MailboxReach MailboxProps CompletionModels Jobs Api JobStore BureauModels BureauState Bureau Completion Artifacts DispatchState DispatchPolicy Dispatch Drain Routing Deliveries DispatchView DispatchGood DispatchOps DispatchSteps.

Local Open Scope Z_scope.

Abbreviation kernel s := (bs_kernel (di_bureau s)).

(** The rows of the log of [agent] that say the event [ev] was put back. *)
Definition requeues (s : dispatcher) (agent ev : string) : nat :=
  length (List.filter (requeued_for ev) (events_of (di_jobs s) agent)).

Definition event_row (s : dispatcher) (agent ev : string) : option InboundEventRecord :=
  q_latest ev (mailbox_of (kernel s) agent).

(** A delivery that ended short of the provider and may be tried again. *)
Definition comes_back (job : JobRecord) (n : nat) : bool :=
  bool_decide (jr_status job ≠ JS_COMPLETED) && bool_decide (jr_status job ≠ JS_CANCELLED) &&
  negb (delivery_reached_processing job) && (n <? 3)%nat.

Lemma latest_snoc id l r ls m : has_event_id id r = true → q_latest id (Mailbox (l ++ [r]) ls m) = Some r.
Proof. intros H. unfold q_latest. cbn [q_log]. by rewrite find_last_snoc, H. Qed.

Section delivery.
Context (cfg : dconfig) (job : JobRecord) (ev : string).
Hypothesis job_fine : job_ok job.
Abbreviation box := (jr_agent_name job).
Abbreviation agent := (jr_target_name job).
Hypothesis box_fine : owner_name box = true.

Lemma append_event_run ty p t s :
  truthy ty = true →
  ∃ s' e, append_event cfg job ty p t s = (s', Ok tt) ∧ je_type e = ty ∧ je_payload e = p ∧
    di_bureau s' = di_bureau s ∧ js_jobs (di_jobs s') = js_jobs (di_jobs s) ∧
    js_events (di_jobs s') = <[agent := events_of (di_jobs s) agent ++ [e]]> (js_events (di_jobs s)).
Proof.
  intros Ht. destruct job_fine as [Hid Hn]. pose proof (normal_name_facts _ Hn) as (_ & _ & Htr & _).
  set (eid := String.append "evt" (String.append "_" (dc_hex cfg (di_ids s)))).
  assert (Hne : new_job_event (MkJobEvent eid (jr_job_id job) (jr_agent_name job) ty p t (jr_target_kind job) agent) =
    Ok (MkJobEvent eid (jr_job_id job) agent ty p t (jr_target_kind job) agent)).
  { unfold new_job_event. cbn [je_event_id je_job_id je_type je_target_name]. rewrite Hid, Ht. unfold or_str.
    rewrite Htr, normalize_agent_name_normal by done. done. }
  eexists _, (MkJobEvent eid (jr_job_id job) agent ty p t (jr_target_kind job) agent).
  split; [|split; [reflexivity|split; [reflexivity|]]].
  - unfold append_event. erewrite mbind_ok by reflexivity. fold eid.
    erewrite mbind_ok by (unfold mlift; rewrite Hne; reflexivity).
    erewrite mbind_ok; [reflexivity|]. unfold on_jobs, job_event_append. cbn [je_target_name].
    erewrite mbind_ok; [reflexivity|]. unfold mlift. by rewrite normalize_agent_name_normal.
  - done.
Qed.

Lemma requeues_event s s' e :
  js_events (di_jobs s') = <[agent := events_of (di_jobs s) agent ++ [e]]> (js_events (di_jobs s)) →
  requeues s' agent ev = (requeues s agent ev + if requeued_for ev e then 1 else 0)%nat.
Proof.
  intros E. unfold requeues at 1, events_of. rewrite E, lookup_insert, decide_True by done. cbn [default].
  unfold id. rewrite List.filter_app, length_app. cbn. by destruct (requeued_for ev e).
Qed.

Lemma transport_count s :
  transport_requeue_count job ev s = (s, Ok (Z.of_nat (requeues s agent ev))).
Proof.
  unfold transport_requeue_count, requeues, events_of. destruct job_fine as [_ Hn].
  assert (E : on_jobs (job_events_read_since agent 0) s =
    (s, Ok (match js_events (di_jobs s) !! agent with None => (0, []) | Some l => (Z.of_nat (length l), l) end))).
  { unfold on_jobs, job_events_read_since. erewrite mbind_ok
      by (unfold mlift; rewrite normalize_agent_name_normal by done; reflexivity). cbn. destruct s; cbn.
    by destruct (js_events di_jobs !! agent). }
  rewrite (mbind_ok _ _ _ _ _ E). unfold mret'. by destruct (js_events (di_jobs s) !! agent).
Qed.

Lemma kernel_run {A} (m : M kstate A) f s :
  refines box m f (kernel s) →
  ∃ s' v, on_bureau (on_kernel m) s = (s', Ok v) ∧ di_jobs s' = di_jobs s ∧ box_inv box (box_of (kernel s') box) ∧
    f (mailbox_of (kernel s) box) = (v, mailbox_of (kernel s') box).
Proof.
  intros R. apply refines_run in R as (k' & v & b' & E & [Hb _] & Hi & Hf). subst b'.
  unfold on_bureau, on_kernel. rewrite E. eexists _, v. split; [reflexivity|]. done.
Qed.

Lemma used_given k t s : blank t = false → used_ts k (Some t) s = t.
Proof. unfold used_ts, blank. by destruct t. Qed.

(** ** What is done with the event *)

(** The event is over and no row says it went back. *)
Definition over (s s' : dispatcher) : Prop :=
  requeues s' agent ev = requeues s agent ev ∧ ∃ r, event_row s' box ev = Some r ∧ is_pending r = false.

(** It waits again, for a delivery that has no job yet; one row more says so. *)
Definition waits_again (rid : string) (c : InboundEventRecord) (s s' : dispatcher) : Prop :=
  requeues s' agent ev = S (requeues s agent ev) ∧
  (is_pending c = true → ∃ r, event_row s' box ev = Some r ∧ ie_status r = IE_QUEUED ∧
     ∃ p, compose_reply_payload rid None = Ok p ∧ ie_payload_ref r = Some p).

Definition kept (s s' : dispatcher) : Prop :=
  js_jobs (di_jobs s') = js_jobs (di_jobs s) ∧ box_inv box (box_of (kernel s') box).

Lemma consume_run c t s :
  box_inv box (box_of (kernel s) box) → blank t = false → event_row s box ev = Some c →
  ∃ s', consume_reply cfg job ev t s = (s', Ok tt) ∧ di_jobs s' = di_jobs s ∧ kept s s' ∧
    ∃ r, event_row s' box ev = Some r ∧ is_pending r = false.
Proof.
  intros Hi Ht Hc. pose proof (mark_terminal_refines (bc_kernel (dc_bureau cfg)) box box_fine ev IE_CONSUMED (Some t) (kernel s) Hi) as R.
  rewrite used_given in R by done. apply kernel_run in R as (s' & v & E & Hj & Hi' & Hf); [|done..].
  exists s'. split; [unfold consume_reply; by rewrite (mbind_ok _ _ _ _ _ E)|]. split; [done|].
  split; [split; [by rewrite Hj|done]|]. unfold event_row in *. unfold spec_end in Hf. rewrite Hc in Hf.
  destruct (is_pending c) eqn:Hp; apply (f_equal snd) in Hf; cbn [snd] in Hf; rewrite <-Hf; [|by exists c].
  exists (terminal_row c IE_CONSUMED t). split; [|done].
  apply find_last_Some in Hc as [_ Hc]. by apply latest_snoc.
Qed.

Lemma requeue_run rid c t s :
  box_inv box (box_of (kernel s) box) → blank t = false → event_row s box ev = Some c →
  truthy (strip rid) = true → ie_agent_name c = box →
  ∃ s' p, rewrite_reply_head cfg c rid None t s = (s', Ok tt) ∧ di_jobs s' = di_jobs s ∧ kept s s' ∧
    compose_reply_payload rid None = Ok p ∧
    (is_pending c = true → ∃ r, event_row s' box ev = Some r ∧ ie_status r = IE_QUEUED ∧ ie_payload_ref r = Some p).
Proof.
  intros Hi Ht Hc Hr Ha. pose proof (find_last_id _ _ _ Hc) as Hid.
  unfold compose_reply_payload. rewrite Hr. cbn [negb raise_if result_bind].
  set (p := (if truthy (stripped None) then _ else _) : string).
  pose proof (rewrite_head_refines (bc_kernel (dc_bureau cfg)) box box_fine ev (Some p) IE_QUEUED (Some t) true (kernel s) Hi) as R.
  rewrite used_given in R by done. apply kernel_run in R as (s' & v & E & Hj & Hi' & Hf); [|done..].
  exists s', p. split.
  { unfold rewrite_reply_head, compose_reply_payload. rewrite Hr. cbn [negb raise_if result_bind].
    erewrite mbind_ok by reflexivity. rewrite Ha, Hid. by rewrite (mbind_ok _ _ _ _ _ E). }
  split; [done|]. split; [split; [by rewrite Hj|done]|]. split; [done|]. intros Hp.
  unfold event_row in *. unfold spec_rewrite in Hf. rewrite Hc, Hp in Hf. apply (f_equal snd) in Hf. cbn [snd] in Hf. rewrite <-Hf.
  exists (rewritten_row c (Some p) IE_QUEUED true). split; [|done].
  apply find_last_Some in Hc as [_ Hc]. by apply latest_snoc.
Qed.

(** Then the row is written. *)
Lemma event_after ty p t s s1 :
  truthy ty = true → di_jobs s1 = di_jobs s → kept s s1 →
  ∃ s', append_event cfg job ty p t s1 = (s', Ok tt) ∧ kept s s' ∧ (∀ id, event_row s' box id = event_row s1 box id) ∧
    requeues s' agent ev =
      (requeues s agent ev +
       if String.eqb ty "reply_delivery_requeued" && String.eqb (py_str_or_empty (dget p "inbound_event_id")) ev then 1 else 0)%nat.
Proof.
  intros Ht Hj [Hk Hi]. destruct (append_event_run ty p t s1 Ht) as (s' & e & E & Hty & Hp & Hb & Hjobs & He).
  exists s'. split; [done|]. split; [split; [by rewrite Hjobs|by rewrite Hb]|]. split; [intros id; unfold event_row; by rewrite Hb|].
  rewrite (requeues_event s1) with (e := e) by done. unfold requeued_for. rewrite Hty, Hp.
  assert (E1 : requeues s1 agent ev = requeues s agent ev) by (unfold requeues; by rewrite Hj). by rewrite E1.
Qed.

(** The event is consumed, and a row of another type says why. *)
Lemma consumed_over ty p k c t s :
  box_inv box (box_of (kernel s) box) → blank t = false → event_row s box ev = Some c →
  truthy ty = true → String.eqb ty "reply_delivery_requeued" = false →
  (∀ s1, di_jobs s1 = di_jobs s → k s1 = append_event cfg job ty p t s1) →
  ∃ s', (do* consume_reply cfg job ev t in k) s = (s', Ok tt) ∧ kept s s' ∧
    ((requeues s agent ev ≤ 3)%nat → (requeues s' agent ev ≤ 3)%nat) ∧ over s s'.
Proof.
  intros Hi Ht Hc Hty Hne Hk. destruct (consume_run c t s Hi Ht Hc) as (s1 & E & Hj & Hkept & r & Hnow & Hp).
  destruct (event_after ty p t s s1 Hty Hj Hkept) as (s' & Ea & Hk' & Hsame & Hn).
  exists s'. rewrite (mbind_ok _ _ _ _ _ E), (Hk s1 Hj). split; [done|]. split; [done|]. rewrite Hne in Hn. cbn in Hn.
  rewrite Nat.add_0_r in Hn. split; [by rewrite Hn|]. split; [done|]. exists r. by rewrite Hsame.
Qed.
End delivery.

(** C11: a delivery job that ends short of the provider, not cancelled, puts its reply back in
    the mailbox for a new delivery three times at most; a delivery that completed, was
    cancelled, reached the provider, or came back three times already, ends the event for good.
    Either way the end raises nothing, and leaves the mailbox in step and the job logs as they
    were. *)
Theorem delivery_returns_thrice (cfg : dconfig) (job : JobRecord) (ev rid t : string) (s : dispatcher)
    (c : InboundEventRecord) :
  job_ok job → owner_name (jr_agent_name job) = true → is_reply_delivery_job job = true →
  reply_delivery_inbound_event_id job = Some ev → reply_delivery_reply_id job = Some rid →
  box_inv (jr_agent_name job) (box_of (kernel s) (jr_agent_name job)) → blank t = false →
  event_row s (jr_agent_name job) ev = Some c →
  let n := requeues s (jr_target_name job) ev in
  ∃ s', resolve_reply_delivery_terminal cfg job t s = (s', Ok tt) ∧ kept job s s' ∧
    ((n ≤ 3)%nat → (requeues s' (jr_target_name job) ev ≤ 3)%nat) ∧
    (if comes_back job n then waits_again job ev rid c s s' else over job ev s s').
Proof.
  intros Ho Hb Hd Hev Hrid Hi Ht Hc n. unfold resolve_reply_delivery_terminal. rewrite Hd, Hev, Hrid. cbn [negb].
  assert (Hag : ie_agent_name c = jr_agent_name job).
  { apply find_last_Some in Hc as [Hin _]. pose proof (bo_events _ _ (bi_ok _ _ Hi)) as He.
    apply (list.Forall_forall _ _) with c in He; [apply He|exact Hin]. }
  assert (Hr : truthy (strip rid) = true).
  { unfold reply_delivery_reply_id, delivery_option, or_none in Hrid. destruct (truthy _) eqn:E; [|done].
    injection Hrid as <-. by rewrite strip_idemp. }
  assert (Hev' : truthy ev = true).
  { unfold reply_delivery_inbound_event_id, delivery_option, or_none in Hev. destruct (truthy _) eqn:E; [|done].
    by injection Hev as <-. }
  assert (E0 : on_bureau (on_kernel (inbound_get_latest (jr_agent_name job) ev)) s = (s, Ok (Some c))).
  { unfold on_bureau, on_kernel, inbound_get_latest, mget. unfold event_row, q_latest, mailbox_of, abstract, box_of in Hc.
    cbn [q_log bx_log] in Hc. rewrite Hc. by destruct s as [? ? []]. }
  rewrite (mbind_ok _ _ _ _ _ E0). cbv iota beta.
  pose proof (λ ty p k, consumed_over cfg job ev Ho Hb ty p k c t s Hi Ht Hc) as Hend.
  unfold comes_back. case_bool_decide as Hcomp.
  { rewrite (bool_decide_false (jr_status job ≠ JS_COMPLETED)) by naive_solver. cbn [andb]. eapply Hend; cycle 2; [by intros s1 _|done|done]. }
  rewrite (bool_decide_true (jr_status job ≠ JS_COMPLETED)) by done. unfold terminal_disposition.
  case_bool_decide as Hcanc.
  { rewrite (bool_decide_false (jr_status job ≠ JS_CANCELLED)) by naive_solver. cbn [andb].
    erewrite mbind_ok by reflexivity. cbv zeta iota. eapply Hend; cycle 2; [by intros s1 _|done|done]. }
  rewrite (bool_decide_true (jr_status job ≠ JS_CANCELLED)) by done. cbn [andb].
  destruct (delivery_reached_processing job); cbn [negb andb].
  { erewrite mbind_ok by reflexivity. cbv zeta iota. eapply Hend; cycle 2; [by intros s1 _|done|done]. }
  pose proof (transport_count job ev Ho) as Hcount.
  assert (En : (MAX_PRE_DELIVERY_TRANSPORT_REQUEUES <=? Z.of_nat n) = negb (n <? 3)%nat).
  { unfold MAX_PRE_DELIVERY_TRANSPORT_REQUEUES. destruct (Nat.ltb_spec n 3); cbn [negb]; [apply Z.leb_gt|apply Z.leb_le]; lia. }
  erewrite mbind_ok by (rewrite (mbind_ok _ _ _ _ _ (Hcount s)); reflexivity). fold n. rewrite En. cbv zeta.
  destruct (n <? 3)%nat eqn:Hlt; cbn [negb].
  - apply Nat.ltb_lt in Hlt. destruct (requeue_run cfg job ev Hb rid c t s Hi Ht Hc Hr Hag) as (s1 & p & E & Hj & Hkept & Hp & Hw).
    destruct (event_after cfg job ev Ho "reply_delivery_requeued" (terminal_payload job ev rid) t s s1 eq_refl Hj Hkept)
      as (s' & Ea & Hk' & Hsame & Hn).
    exists s'. rewrite (mbind_ok _ _ _ _ _ E). split; [done|]. split; [done|].
    assert (Hn' : requeues s' (jr_target_name job) ev = S n).
    { rewrite Hn. fold n. unfold terminal_payload. cbn [dget]. replace (py_str_or_empty _) with ev by (by destruct ev). rewrite !String.eqb_refl. cbn. lia. }
    split; [lia|]. split; [exact Hn'|]. intros Hpend. destruct (Hw Hpend) as (r & H1 & H2 & H3). exists r.
    rewrite Hsame. split; [done|]. split; [done|]. by exists p.
  - eapply (Hend "reply_delivery_abandoned"); [done|done|]. intros s1 Hj. rewrite (mbind_ok _ _ _ _ _ (Hcount s1)).
    assert (E1 : requeues s1 (jr_target_name job) ev = n) by (unfold n, requeues; by rewrite Hj). rewrite E1. reflexivity.
Qed.

Module DBack.
Import DSample.
Definition kernel_two : bstate := BState Sample.two [] [] [] no_edges 0.
Definition start : dispatcher :=
  Dispatcher (JState ∅ ∅ []) (QState ∅ ∅ ∅) kernel_two [] ∅ ∅ 0 0 0 (MkArtifacts ∅ 0).
(** It ended before the provider had it. *)
Definition delivery : JobRecord :=
  MkJob "job_1" None "coder" "gemini" ask JS_INCOMPLETE
    (Some [("anchor_seen", VBool false); ("reason", VStr "reply_delivery_transport_unavailable")]) None noon noon None
    TARGET_AGENT "coder" None
    [(REPLY_DELIVERY_PROVIDER_OPTION, VBool true); (REPLY_DELIVERY_INBOUND_EVENT_OPTION, VStr "iev_2");
     (REPLY_DELIVERY_REPLY_ID_OPTION, VStr "rep_1")].
End DBack.

Lemma delivery_returns_thrice_witness :
  ∃ s', resolve_reply_delivery_terminal DSample.cfg DBack.delivery DSample.noon DBack.start = (s', Ok tt) ∧
    requeues s' "coder" "iev_2" = 1%nat ∧
    ∃ r, event_row s' "coder" "iev_2" = Some r ∧ ie_status r = IE_QUEUED ∧ ie_payload_ref r = Some "reply:rep_1".
Proof.
  destruct (delivery_returns_thrice DSample.cfg DBack.delivery "iev_2" "rep_1" DSample.noon DBack.start
              (Sample.event "iev_2" TASK_REPLY)) as (s' & E & _ & _ & Hn & Hw).
  - split; vm_compute; reflexivity.
  - vm_compute. reflexivity.
  - vm_compute. reflexivity.
  - vm_compute. reflexivity.
  - vm_compute. reflexivity.
  - exact Sample.inv_two.
  - vm_compute. reflexivity.
  - vm_compute. reflexivity.
  - exists s'. split; [exact E|]. split; [exact Hn|]. destruct (Hw eq_refl) as (r & H1 & H2 & p & Hp & H3).
    exists r. vm_compute in Hp. injection Hp as <-. auto.
Defined.
