(* ===== verification/ControlQueue.v ===== *)
(** The control service of the message bureau, as far as queues go:
    [message_bureau/control_queue_runtime/] with [common.py] (delivery stages, targets,
    previews), [events.py] (the pending events of a mailbox and the events that went stale),
    [views_runtime/] (the views of one agent, of an inbox and of all agents) and [ack.py].

    The views read, and clean up as they read: an event at the head of a mailbox whose
    message, attempt or reply is gone, or whose attempt is over, is abandoned.  The loop that
    does so has fuel; with more fuel than pending events it ends (C34).

    A summary file that cannot be read gives the view an [error] status; the stores of the
    model hold records, so that branch is absent. *)

From Stdlib Require Import Ascii String ZArith Lia.
From stdpp Require Import base gmap list strings sorting relations.
From S2P Require Import Prelude PyData Names Text Timestamps Storage MailboxModels MailboxKernel MailboxInvariant MailboxOps MailboxSpec MailboxDiscipline MailboxReach CompletionModels Jobs Api JobStore BureauModels BureauState Bureau BureauView BureauSpec BureauReach BureauProps Deliveries.

Local Open Scope Z_scope.

(** ** [common.py] *)

Definition derived_mailbox_state (has_active : bool) (queue_depth : Z) : string :=
  if has_active then MailboxState_value MB_DELIVERING
  else if 0 <? queue_depth then MailboxState_value MB_BLOCKED
  else MailboxState_value MB_IDLE.

Definition delivery_stage_for_inbound_status (status : InboundEventStatus) : string * string :=
  let token := lower (strip (InboundEventStatus_value status)) in
  if String.eqb token "queued" then ("queued_waiting_for_dispatch", "dispatcher_claim_pending")
  else if String.eqb token "delivering" then ("claim_started", "provider_start_pending")
  else if String.eqb token "consumed" then ("delivery_complete", "inbound_consumed")
  else if mem_str token ["abandoned"; "superseded"] then ("delivery_terminal", token)
  else ("delivery_unknown", if truthy token then token else "unknown").

Definition CR : ascii := ascii_of_nat 13.
Definition LF : ascii := ascii_of_nat 10.

(** [text[:limit].rstrip() + '...'] past the limit of 120 characters. *)
Definition event_preview_text (value : string) : string :=
  let text := strip (replace_char LF "\n" (replace_char CR "" value)) in
  if (String.length text <=? 120)%nat then text
  else String.append (rstrip (String.substring 0 120 text)) "...".

(** ** [reply_metadata.py]: [float(raw)]; a text is not followed. *)
Definition reply_heartbeat_silence_seconds (r : ReplyRecord) : result pyval :=
  let float_of (z : Z) :=
    match through_float z with Ok n => VInt n | Err _ => VNone end in
  match dget (rp_diagnostics r) "heartbeat_silence_seconds" with
  | VInt z => Ok (float_of z)
  | VBool b => Ok (float_of (if b then 1 else 0))
  | VStr _ => raise Unmodelled "a text as a float"
  | _ => Ok VNone
  end.

(** [mailbox_kernel/service_runtime/summary.py] *)
Definition mailbox_head_payload (record : option MailboxRecord) : option pydict :=
  match record with
  | None => None
  | Some m =>
      if negb (opt_truthy (mb_head_inbound_event_id m)) then None
      else Some [("inbound_event_id", of_opt_str (mb_head_inbound_event_id m));
                 ("event_type", of_opt_str (mb_head_event_type m));
                 ("status", of_opt_str (mb_head_status m));
                 ("message_id", of_opt_str (mb_head_message_id m));
                 ("attempt_id", of_opt_str (mb_head_attempt_id m));
                 ("payload_ref", of_opt_str (mb_head_payload_ref m))]
  end.

(** A comprehension over a list, with effects. *)
Fixpoint mfilter {S A} (p : A → M S bool) (l : list A) : M S (list A) :=
  match l with
  | [] => mret' []
  | x :: rest =>
      let* keep := p x in
      let* tail := mfilter p rest in
      mret' (if keep : bool then x :: tail else tail)
  end.

Fixpoint mmap_from {S A B} (f : Z → A → M S B) (position : Z) (l : list A) : M S (list B) :=
  match l with
  | [] => mret' []
  | x :: rest =>
      let* y := f position x in
      let* tail := mmap_from f (position + 1) rest in
      mret' (y :: tail)
  end.

Section control.
Context (cfg : bconfig) (config_agents : list string) (fuel : nat).

Definition service_clock : BM string := on_kernel (clock (bc_kernel cfg)).

Definition require_mailbox_target (agent_name : option string) : BM string :=
  match normalize_mailbox_target agent_name (bc_known_mailboxes cfg) with
  | Some normalized => mret' normalized
  | None => mraise ValueError (String.append "unknown mailbox target: " (lower (stripped agent_name)))
  end.

(** [sorted(set(config.agents.keys()))] *)
Definition summary_targets : list string := merge_sort String.le (remove_dups config_agents).

(** ** [events.py] *)

Definition reply_for_event (event : InboundEventRecord) : BM (option ReplyRecord) :=
  if negb (is_reply event) then mret' None
  else
    match reply_id_from_payload (ie_payload_ref event) with
    | None => mret' None
    | Some reply_id => if negb (truthy reply_id) then mret' None else reply_get_latest reply_id
    end.

(** [attempt_store.get_latest(event.attempt_id) if event.attempt_id else None] *)
Definition attempt_of_event (attempt_id : option string) : BM (option AttemptRecord) :=
  if opt_truthy attempt_id then attempt_get_latest (str_or attempt_id "") else mret' None.

(** [event_type is TASK_REPLY and reply_for_event(...) is None]: not live. *)
Definition reply_is_there (event : InboundEventRecord) : BM bool :=
  if is_reply event
  then let* reply := reply_for_event event in mret' (negb (is_none reply))
  else mret' true.

Definition event_is_live (event : InboundEventRecord) : BM bool :=
  let* message := message_get_latest (ie_message_id event) in
  match message with
  | None => mret' false
  | Some _ =>
      let* attempt := attempt_of_event (ie_attempt_id event) in
      if opt_truthy (ie_attempt_id event) && is_none attempt then mret' false
      else
        match attempt with
        | Some a =>
            if bool_decide (ie_event_type event = TASK_REQUEST)
            then mret' (negb (attempt_terminal (at_state a)))
            else reply_is_there event
        | None => reply_is_there event
        end
  end.

(** The [while True] loop of [_discard_stale_head_events]. *)
Fixpoint discard_loop (rounds : nat) (agent_name : string) : BM unit :=
  match rounds with
  | O => mraise Unmodelled "out of fuel"
  | S rounds =>
      let* head := on_kernel (head_pending_event agent_name) in
      match head with
      | None => mret' tt
      | Some h =>
          let* live := event_is_live h in
          if live : bool then mret' tt
          else
            let* finished_at := service_clock in
            do* on_kernel (abandon (bc_kernel cfg) agent_name (ie_inbound_event_id h) (Some finished_at)) in
            discard_loop rounds agent_name
      end
  end.

Definition discard_stale_head_events (agent_name : string) : BM unit := discard_loop fuel agent_name.

(** The dictionary and the order list of the loop are those of [latest_of]. *)
Definition pending_event_records (agent_name : string) : BM (list InboundEventRecord) :=
  do* discard_stale_head_events agent_name in
  let* records := on_kernel (inbound_list_agent agent_name) in
  mfilter (λ record, if negb (is_terminal (ie_status record)) then event_is_live record else mret' false)
    (latest_of records).

Definition message_state_of (message : option MessageRecord) : pyval :=
  match message with Some m => VStr (MessageState_value (ms_state m)) | None => VNone end.
Definition attempt_state_of (attempt : option AttemptRecord) : pyval :=
  match attempt with Some a => VStr (AttemptState_value (at_state a)) | None => VNone end.
Definition job_id_of_attempt (attempt : option AttemptRecord) : pyval :=
  match attempt with Some a => VStr (at_job_id a) | None => VNone end.

Definition pending_event_payload (position : Z) (record : InboundEventRecord) : BM pydict :=
  let* attempt := attempt_of_event (ie_attempt_id record) in
  let* message := message_get_latest (ie_message_id record) in
  let* replies := reply_list_message (ie_message_id record) in
  let stage := delivery_stage_for_inbound_status (ie_status record) in
  mret' [("position", VInt position);
         ("inbound_event_id", VStr (ie_inbound_event_id record));
         ("event_type", VStr (InboundEventType_value (ie_event_type record)));
         ("status", VStr (InboundEventStatus_value (ie_status record)));
         ("delivery_stage", VStr stage.1); ("delivery_reason", VStr stage.2);
         ("priority", VInt (ie_priority record));
         ("message_id", VStr (ie_message_id record));
         ("message_state", message_state_of message);
         ("attempt_id", of_opt_str (ie_attempt_id record));
         ("attempt_state", attempt_state_of attempt);
         ("job_id", job_id_of_attempt attempt);
         ("reply_count", VInt (Z.of_nat (length replies)));
         ("created_at", VStr (ie_created_at record));
         ("started_at", of_opt_str (ie_started_at record));
         ("finished_at", of_opt_str (ie_finished_at record))].

(** [pending_events] of [events.py]. *)
Definition pending_event_payloads (agent_name : string) : BM (list pydict) :=
  let* records := pending_event_records agent_name in
  mmap_from pending_event_payload 1 records.

Definition inbox_item_summary (position : Z) (event : InboundEventRecord) : BM pydict :=
  let* attempt := attempt_of_event (ie_attempt_id event) in
  let* message := message_get_latest (ie_message_id event) in
  let* reply := reply_for_event event in
  let stage := delivery_stage_for_inbound_status (ie_status event) in
  let item :=
    [("position", VInt position);
     ("inbound_event_id", VStr (ie_inbound_event_id event));
     ("event_type", VStr (InboundEventType_value (ie_event_type event)));
     ("status", VStr (InboundEventStatus_value (ie_status event)));
     ("delivery_stage", VStr stage.1); ("delivery_reason", VStr stage.2);
     ("priority", VInt (ie_priority event));
     ("message_id", VStr (ie_message_id event));
     ("message_state", message_state_of message);
     ("attempt_id", of_opt_str (ie_attempt_id event));
     ("attempt_state", attempt_state_of attempt);
     ("job_id", job_id_of_attempt attempt);
     ("source_actor", match reply, message with
                      | Some r, _ => VStr (rp_agent_name r)
                      | None, Some m => VStr (ms_from_actor m)
                      | None, None => VNone
                      end);
     ("created_at", VStr (ie_created_at event));
     ("started_at", of_opt_str (ie_started_at event));
     ("finished_at", of_opt_str (ie_finished_at event))] in
  match reply with
  | None => mret' item
  | Some r =>
      let* silence := mlift (reply_heartbeat_silence_seconds r) in
      let item := dupdate item
        [("reply_id", VStr (rp_reply_id r));
         ("reply_terminal_status", VStr (ReplyTerminalStatus_value (rp_terminal_status r)));
         ("reply_finished_at", VStr (rp_finished_at r));
         ("reply_preview", VStr (event_preview_text (rp_reply r)));
         ("reply_notice", VBool (reply_notice r));
         ("reply_notice_kind", of_opt_str (reply_notice_kind r));
         ("reply_last_progress_at", of_opt_str (reply_last_progress_at r));
         ("reply_heartbeat_silence_seconds", silence)] in
      if negb (position =? 1) then mret' item
      else
        let item := dset item "reply" (VStr (rp_reply r)) in
        mret' (match rp_reply_artifact r with
               | Some (x :: l) => dset item "reply_artifact" (VDict (x :: l))
               | _ => item
               end)
  end.

(** ** [views_runtime/agent.py] *)

(** [read_mailbox_summary]: the record and its status. *)
Definition read_mailbox_summary (agent_name : string) : BM (option MailboxRecord * string) :=
  let* mailbox := on_kernel (mailbox_load agent_name) in
  mret' (mailbox, match mailbox with None => "missing" | Some _ => "ok" end).

Definition agent_queue_summary (agent_name : string) : BM pydict :=
  let* normalized := require_mailbox_target (Some agent_name) in
  let* summary_read := read_mailbox_summary normalized in
  let '(mailbox, status) := summary_read in
  mret' (match mailbox with
         | None =>
             [("agent_name", VStr normalized);
              ("mailbox_id", VStr (String.append "mbx_" normalized));
              ("mailbox_state", VNone); ("lease_version", VInt 0); ("queue_depth", VInt 0);
              ("pending_reply_count", VInt 0); ("active_inbound_event_id", VNone);
              ("last_inbound_started_at", VNone); ("last_inbound_finished_at", VNone);
              ("summary_status", VStr status); ("summary_error", VNone)]
         | Some m =>
             [("agent_name", VStr normalized);
              ("mailbox_id", VStr (mb_mailbox_id m));
              ("mailbox_state", VStr (MailboxState_value (mb_mailbox_state m)));
              ("lease_version", VInt (mb_lease_version m));
              ("queue_depth", VInt (mb_queue_depth m));
              ("pending_reply_count", VInt (mb_pending_reply_count m));
              ("active_inbound_event_id", of_opt_str (mb_active_inbound_event_id m));
              ("last_inbound_started_at", of_opt_str (mb_last_inbound_started_at m));
              ("last_inbound_finished_at", of_opt_str (mb_last_inbound_finished_at m));
              ("summary_status", VStr status); ("summary_error", VNone)]
         end).

(** The dictionary by id, the first event that is delivering, else the first of the list. *)
Definition active_event_from_events (events : list pydict) : option pydict :=
  let event_index := foldl (λ d e, assoc_set (py_str (dget e "inbound_event_id")) e d) [] events in
  match List.find (λ e, py_eq (dget e "status") (VStr "delivering")) (map snd event_index) with
  | Some e => Some e
  | None => hd_error events
  end.

Definition event_payload (record : InboundEventRecord) : BM pydict :=
  let* attempt := attempt_of_event (ie_attempt_id record) in
  let* message := message_get_latest (ie_message_id record) in
  let item :=
    [("position", VInt 1);
     ("inbound_event_id", VStr (ie_inbound_event_id record));
     ("event_type", VStr (InboundEventType_value (ie_event_type record)));
     ("status", VStr (InboundEventStatus_value (ie_status record)));
     ("priority", VInt (ie_priority record));
     ("message_id", VStr (ie_message_id record));
     ("message_state", message_state_of message);
     ("attempt_id", of_opt_str (ie_attempt_id record));
     ("attempt_state", attempt_state_of attempt);
     ("job_id", job_id_of_attempt attempt);
     ("created_at", VStr (ie_created_at record));
     ("started_at", of_opt_str (ie_started_at record));
     ("finished_at", of_opt_str (ie_finished_at record))] in
  let* reply := reply_for_event record in
  match reply with
  | None => mret' item
  | Some r =>
      let* silence := mlift (reply_heartbeat_silence_seconds r) in
      mret' (dupdate item
        [("reply_id", VStr (rp_reply_id r));
         ("source_actor", VStr (rp_agent_name r));
         ("reply_terminal_status", VStr (ReplyTerminalStatus_value (rp_terminal_status r)));
         ("reply_notice", VBool (reply_notice r));
         ("reply_notice_kind", of_opt_str (reply_notice_kind r));
         ("reply_finished_at", VStr (rp_finished_at r));
         ("reply_last_progress_at", of_opt_str (reply_last_progress_at r));
         ("reply_heartbeat_silence_seconds", silence)])
  end.

Definition active_event (agent_name : string) (mailbox : option MailboxRecord) (events : list pydict)
    : BM (option pydict) :=
  match mailbox with
  | None => mret' (active_event_from_events events)
  | Some m =>
      if negb (opt_truthy (mb_active_inbound_event_id m)) then mret' (active_event_from_events events)
      else
        let* record := on_kernel (inbound_get_latest agent_name (str_or (mb_active_inbound_event_id m) "")) in
        match record with
        | None => mret' (active_event_from_events events)
        | Some r => let* p := event_payload r in mret' (Some p)
        end
  end.

Definition text_at (event : pydict) (key : string) : option string :=
  match dget event key with VStr s => Some s | _ => None end.

Definition last_event_timestamps (events : list pydict) : option string * option string :=
  foldl (λ last event, (latest_timestamp last.1 (text_at event "started_at"),
                        latest_timestamp last.2 (text_at event "finished_at"))) (None, None) events.

Definition opt_dict_value (d : option pydict) : pyval := match d with Some d => VDict d | None => VNone end.

Definition agent_queue_detail (agent_name : string) : BM pydict :=
  let* normalized := require_mailbox_target (Some agent_name) in
  let* summary_read := read_mailbox_summary normalized in
  let mailbox := summary_read.1 in
  let* events := pending_event_payloads normalized in
  let* summary := agent_queue_summary normalized in
  let* active := active_event normalized mailbox events in
  let queue_depth := Z.of_nat (length events) in
  let timestamps := last_event_timestamps events in
  let shown (derived : pyval) (key : string) : pyval :=
    match mailbox with None => derived | Some _ => dget summary key end in
  mret' [("agent_name", VStr normalized);
         ("mailbox_id", dget summary "mailbox_id");
         ("mailbox_state",
            shown (VStr (derived_mailbox_state (negb (is_none active)) queue_depth)) "mailbox_state");
         ("lease_version", dget summary "lease_version");
         ("queue_depth", shown (VInt queue_depth) "queue_depth");
         ("pending_reply_count",
            shown (VInt (Z.of_nat (length (List.filter (λ e, py_eq (dget e "event_type") (VStr "task_reply"))
                                             events)))) "pending_reply_count");
         ("active_inbound_event_id",
            shown (match active with Some a => dget a "inbound_event_id" | None => VNone end)
              "active_inbound_event_id");
         ("active", opt_dict_value active);
         ("last_inbound_started_at", shown (of_opt_str timestamps.1) "last_inbound_started_at");
         ("last_inbound_finished_at", shown (of_opt_str timestamps.2) "last_inbound_finished_at");
         ("summary_status", dget summary "summary_status");
         ("summary_error", dget summary "summary_error");
         ("queued_events", VList (map VDict events))].

Definition agent_queue (agent_name : string) : BM pydict := agent_queue_detail agent_name.

(** ** [views_runtime/inbox.py] *)

(** [reply_id_from_payload] of a dictionary's value. *)
Definition reply_id_of_value (payload_ref : pyval) : option string :=
  match payload_ref with VStr p => reply_id_from_payload (Some p) | _ => reply_id_from_payload None end.

Definition enrich_mailbox_head (agent_name : string) (head : option pydict) : BM (option pydict) :=
  match head with
  | None => mret' None
  | Some head =>
      if negb (String.eqb (lower (strip (py_str_or_empty (dget head "event_type"))))
                 (InboundEventType_value TASK_REPLY))
      then mret' (Some head)
      else
        let* attempt := attempt_of_event (text_at head "attempt_id") in
        let reply_id := reply_id_of_value (dget head "payload_ref") in
        let* reply_id :=
          (if is_none reply_id && py_truthy (dget head "inbound_event_id") then
             let* record := on_kernel (inbound_get_latest agent_name (py_str (dget head "inbound_event_id"))) in
             mret' (match record with Some r => reply_id_from_payload (ie_payload_ref r) | None => None end)
           else mret' reply_id) in
        match reply_id with
        | None => mret' (Some head)
        | Some reply_id =>
            let* reply := reply_get_latest reply_id in
            match reply with
            | None => mret' (Some head)
            | Some r =>
                let* silence := mlift (reply_heartbeat_silence_seconds r) in
                mret' (Some (dupdate head
                  [("reply_id", VStr (rp_reply_id r));
                   ("source_actor", VStr (rp_agent_name r));
                   ("reply_terminal_status", VStr (ReplyTerminalStatus_value (rp_terminal_status r)));
                   ("reply_notice", VBool (reply_notice r));
                   ("reply_notice_kind", of_opt_str (reply_notice_kind r));
                   ("job_id", job_id_of_attempt attempt);
                   ("reply_finished_at", VStr (rp_finished_at r));
                   ("reply_last_progress_at", of_opt_str (reply_last_progress_at r));
                   ("reply_heartbeat_silence_seconds", silence);
                   ("reply", VStr (rp_reply r))]))
            end
        end
  end.

(** [detail is not True] is [detail ≠ Some true]. *)
Definition inbox (agent_name : string) (detail : option bool) : BM pydict :=
  let* normalized := require_mailbox_target (Some agent_name) in
  let* mailbox_payload := agent_queue_summary normalized in
  let* summary_read := read_mailbox_summary normalized in
  let '(mailbox, status) := summary_read in
  if negb (bool_decide (detail = Some true)) then
    let* item_count := mlift (py_int (py_or (dget mailbox_payload "queue_depth") (VInt 0))) in
    let* head := enrich_mailbox_head normalized (mailbox_head_payload mailbox) in
    mret' [("target", VStr normalized); ("summary_status", VStr status); ("summary_error", VNone);
           ("agent", VDict mailbox_payload); ("item_count", VInt item_count); ("head", opt_dict_value head);
           ("items", VList [])]
  else
    let* records := pending_event_records normalized in
    let* items := mmap_from inbox_item_summary 1 records in
    let* enriched := enrich_mailbox_head normalized (mailbox_head_payload mailbox) in
    let head := match enriched with Some h => Some h | None => hd_error items end in
    mret' [("target", VStr normalized); ("summary_status", VStr status); ("summary_error", VNone);
           ("agent", VDict mailbox_payload); ("item_count", VInt (Z.of_nat (length items)));
           ("head", opt_dict_value head); ("items", VList (map VDict items))].

Definition mailbox_head (agent_name : string) : BM pydict :=
  let* normalized := require_mailbox_target (Some agent_name) in
  let* summary_read := read_mailbox_summary normalized in
  let '(mailbox, status) := summary_read in
  let* head := enrich_mailbox_head normalized (mailbox_head_payload mailbox) in
  mret' [("target", VStr normalized); ("summary_status", VStr status); ("summary_error", VNone);
         ("head", opt_dict_value head)].

(** ** [views_runtime/summary.py] *)

Fixpoint summaries (agent_names : list string) : BM (list pydict) :=
  match agent_names with
  | [] => mret' []
  | name :: rest =>
      let* item := agent_queue_summary name in
      let* items := summaries rest in
      mret' (item :: items)
  end.

(** [int(item[key])] for every item. *)
Fixpoint ints_at (key : string) (items : list pydict) : result (list Z) :=
  match items with
  | [] => Ok []
  | item :: rest => let! n := py_int (dget item key) in let! ns := ints_at key rest in Ok (n :: ns)
  end.

Definition sum_of (l : list Z) : Z := foldr Z.add 0 l.

Definition queue_summary (target : option string) (detail : option bool) : BM pydict :=
  let named := lower (stripped target) in
  let normalized := if truthy named then named else "all" in
  if negb (String.eqb normalized "all") then
    let* agent := (if bool_decide (detail = Some true) then agent_queue_detail normalized
                   else agent_queue_summary normalized) in
    mret' [("target", VStr normalized); ("agent", VDict agent)]
  else
    let* items := summaries summary_targets in
    let* depths := mlift (ints_at "queue_depth" items) in
    let* pending := mlift (ints_at "pending_reply_count" items) in
    let count (l : list Z) := VInt (Z.of_nat (length l)) in
    mret' [("target", VStr "all"); ("agent_count", VInt (Z.of_nat (length items)));
           ("queued_agent_count", count (List.filter (λ d, 0 <? d) depths));
           ("active_agent_count",
              VInt (Z.of_nat (length (List.filter
                (λ item, negb (py_eq (dget item "active_inbound_event_id") VNone)) items))));
           ("total_queue_depth", VInt (sum_of depths));
           ("total_pending_reply_count", VInt (sum_of pending));
           ("agents", VList (map VDict items))].

(** ** [ack.py] *)

Definition validate_reply_head (head : InboundEventRecord) : BM InboundEventRecord :=
  if negb (is_reply head) then
    mraise ValueError (String.append
      "ack only supports task_reply or terminal task_request head events; found: "
      (InboundEventType_value (ie_event_type head)))
  else
    match delivery_job_id_from_payload (ie_payload_ref head) with
    | None => mret' head
    | Some delivery_job_id =>
        let* attempt := attempt_of_event (ie_attempt_id head) in
        let source := match attempt with Some a => at_job_id a | None => "" end in
        let source_job_id := if truthy source then source else "unknown" in
        mraise ValueError (String.concat ""
          ["ack is not allowed for task_reply event "; ie_inbound_event_id head; ": ";
           "automatic reply delivery has been scheduled as job "; delivery_job_id; " ";
           "for source job "; source_job_id; "; wait for automatic delivery or inspect the delivery job"])
    end.

Definition head_event (agent_name : string) (inbound_event_id : option string) : BM InboundEventRecord :=
  let* direct_head := on_kernel (head_pending_event agent_name) in
  let given := stripped inbound_event_id in
  let requested_event_id :=
    if truthy given then given
    else match direct_head with Some h => ie_inbound_event_id h | None => "" end in
  let from_records : BM InboundEventRecord :=
    let* records := pending_event_records agent_name in
    match hd_error records with
    | None => mraise ValueError (String.append "inbox is empty for agent: " agent_name)
    | Some head =>
        let requested :=
          if truthy requested_event_id then requested_event_id else ie_inbound_event_id head in
        if negb (String.eqb (ie_inbound_event_id head) requested)
        then mraise ValueError (String.append "ack requires head event: " (ie_inbound_event_id head))
        else validate_reply_head head
    end in
  match direct_head with
  | Some h =>
      if String.eqb (ie_inbound_event_id h) requested_event_id then
        if is_reply h then validate_reply_head h
        else if bool_decide (ie_event_type h = TASK_REQUEST) then mret' h
        else from_records
      else from_records
  | None => from_records
  end.

(** The head after an acknowledgement, as both branches choose it. *)
Definition next_head_of (next_head : option InboundEventRecord) (next_records : list InboundEventRecord)
    : option InboundEventRecord :=
  match next_head with
  | None => hd_error next_records
  | Some h =>
      match next_records with
      | [] => Some h
      | first :: _ =>
          if forallb (λ record, negb (String.eqb (ie_inbound_event_id record) (ie_inbound_event_id h)))
               next_records
          then Some first else Some h
      end
  end.

Definition after_ack (agent_name : string) : BM (pydict * option InboundEventRecord) :=
  let* mailbox_payload := agent_queue agent_name in
  let* next_records := pending_event_records agent_name in
  let* next_head := on_kernel (head_pending_event agent_name) in
  mret' (mailbox_payload, next_head_of next_head next_records).

Definition event_id_of (event : option InboundEventRecord) : pyval :=
  match event with Some e => VStr (ie_inbound_event_id e) | None => VNone end.
Definition event_type_of (event : option InboundEventRecord) : pyval :=
  match event with Some e => VStr (InboundEventType_value (ie_event_type e)) | None => VNone end.

Definition ack_terminal_task_request (agent_name : string) (head : InboundEventRecord) : BM pydict :=
  let* attempt := attempt_of_event (ie_attempt_id head) in
  let open := match attempt with Some a => negb (attempt_terminal (at_state a)) | None => false end in
  if open then
    mraise ValueError (String.append
      "ack only supports terminal task_request head events; found attempt_state="
      (py_str (attempt_state_of attempt)))
  else
    let* timestamp := service_clock in
    let cancelled := match attempt with Some a => bool_decide (at_state a = AT_CANCELLED) | None => false end in
    let* consumed :=
      (if cancelled && is_claimable (ie_status head)
       then on_kernel (abandon (bc_kernel cfg) agent_name (ie_inbound_event_id head) (Some timestamp))
       else on_kernel (consume (bc_kernel cfg) agent_name (ie_inbound_event_id head) (Some timestamp))) in
    match consumed with
    | None => mraise RuntimeError (String.append "failed to ack task_request event: " (ie_inbound_event_id head))
    | Some consumed =>
        let* after := after_ack agent_name in
        let '(mailbox_payload, next_head) := after in
        mret' [("target", VStr agent_name); ("agent_name", VStr agent_name);
               ("acknowledged_inbound_event_id", VStr (ie_inbound_event_id consumed));
               ("acknowledged_event_type", VStr (InboundEventType_value (ie_event_type consumed)));
               ("message_id", VStr (ie_message_id consumed));
               ("attempt_id", of_opt_str (ie_attempt_id consumed));
               ("job_id", job_id_of_attempt attempt);
               ("attempt_state", attempt_state_of attempt);
               ("next_inbound_event_id", event_id_of next_head);
               ("next_event_type", event_type_of next_head);
               ("mailbox", VDict mailbox_payload); ("reply", VStr "")]
    end.

Definition ack_payload (agent_name : string) (consumed : InboundEventRecord) (attempt : option AttemptRecord)
    (reply : ReplyRecord) (next_head : option InboundEventRecord) (mailbox_payload : pydict) : result pydict :=
  let! silence := reply_heartbeat_silence_seconds reply in
  Ok [("target", VStr agent_name); ("agent_name", VStr agent_name);
      ("acknowledged_inbound_event_id", VStr (ie_inbound_event_id consumed));
      ("message_id", VStr (ie_message_id consumed));
      ("attempt_id", of_opt_str (ie_attempt_id consumed));
      ("job_id", job_id_of_attempt attempt);
      ("reply_id", VStr (rp_reply_id reply));
      ("reply_from_agent", VStr (rp_agent_name reply));
      ("reply_terminal_status", VStr (ReplyTerminalStatus_value (rp_terminal_status reply)));
      ("reply_finished_at", VStr (rp_finished_at reply));
      ("reply_notice", VBool (reply_notice reply));
      ("reply_notice_kind", of_opt_str (reply_notice_kind reply));
      ("reply_last_progress_at", of_opt_str (reply_last_progress_at reply));
      ("reply_heartbeat_silence_seconds", silence);
      ("next_inbound_event_id", event_id_of next_head);
      ("next_event_type", event_type_of next_head);
      ("mailbox", VDict mailbox_payload); ("reply", VStr (rp_reply reply))].

(** [ack_reply] once the head is found. *)
Definition ack_head (normalized : string) (head : InboundEventRecord) : BM pydict :=
  if bool_decide (ie_event_type head = TASK_REQUEST) then ack_terminal_task_request normalized head
  else
    let* reply := reply_for_event head in
    match reply with
    | None =>
        mraise ValueError (String.append "reply record missing for inbound event: " (ie_inbound_event_id head))
    | Some reply =>
        let* attempt := attempt_of_event (ie_attempt_id head) in
        let* timestamp := service_clock in
        let* consumed := on_kernel (MailboxKernel.ack_reply (bc_kernel cfg) normalized
                           (ie_inbound_event_id head) (Some timestamp) (Some timestamp)) in
        match consumed with
        | None => mraise RuntimeError (String.append "failed to ack reply event: " (ie_inbound_event_id head))
        | Some consumed =>
            let* after := after_ack normalized in
            let '(mailbox_payload, next_head) := after in
            mlift (ack_payload normalized consumed attempt reply next_head mailbox_payload)
        end
    end.

(** [ack_reply] of [ack.py], under the name [control.py] imports it by. *)
Definition control_ack_reply (agent_name : option string) (inbound_event_id : option string) : BM pydict :=
  let* normalized := require_mailbox_target agent_name in
  let* head := head_event normalized inbound_event_id in
  ack_head normalized head.
End control.

(** ** What is live, on a view *)

Definition stored_attempt (v : bview) (attempt_id : option string) : option AttemptRecord :=
  if opt_truthy attempt_id
  then find_last (λ a, String.eqb (at_attempt_id a) (str_or attempt_id "")) (v_attempts v) else None.

Definition stored_message (v : bview) (message_id : string) : option MessageRecord :=
  find_last (λ m, String.eqb (ms_message_id m) message_id) (v_messages v).

Definition stored_reply (v : bview) (event : InboundEventRecord) : option ReplyRecord :=
  match reply_id_from_payload (ie_payload_ref event) with
  | Some reply_id => find_last (λ r, String.eqb (rp_reply_id r) reply_id) (v_replies v)
  | None => None
  end.

(** An event is live when its message is stored, the attempt it names is stored, the
    attempt of a request is not over and the reply of a reply event is stored. *)
Definition live (v : bview) (event : InboundEventRecord) : bool :=
  negb (is_none (stored_message v (ie_message_id event)))
  && negb (opt_truthy (ie_attempt_id event) && is_none (stored_attempt v (ie_attempt_id event)))
  && match ie_event_type event with
     | TASK_REQUEST =>
         match stored_attempt v (ie_attempt_id event) with
         | Some a => negb (attempt_terminal (at_state a))
         | None => true
         end
     | TASK_REPLY => negb (is_none (stored_reply v event))
     | _ => true
     end.

(** A queue without its leading events that are not live. *)
Fixpoint drop_stale (v : bview) (queue : list InboundEventRecord) : list InboundEventRecord :=
  match queue with
  | [] => []
  | x :: rest => if live v x then queue else drop_stale v rest
  end.

(** From [q] to [q'] the events with ids in [P] keep their latest rows, save that events
    which were pending and not live may have been abandoned. *)
Definition only_stale (P : string → Prop) (v : bview) (q q' : mailbox) : Prop :=
  ∀ id, P id → q_latest id q' = q_latest id q ∨
    ∃ r ts, r ∈ q_pending q ∧ eid r = id ∧ live v r = false ∧
      q_latest id q' = Some (terminal_row r IE_ABANDONED ts).

Lemma live_set_mail a q v e : live (set_mail a q v) e = live v e.
Proof. done. Qed.

Lemma drop_stale_set a q v l : drop_stale (set_mail a q v) l = drop_stale v l.
Proof. induction l as [|x l IH]; [done|]. cbn [drop_stale]. rewrite live_set_mail. by rewrite IH. Qed.

Lemma drop_stale_filter v l : List.filter (live v) (drop_stale v l) = List.filter (live v) l.
Proof. induction l as [|x l IH]; [done|]. cbn [drop_stale List.filter]. destruct (live v x) eqn:E; [|done]. cbn [List.filter]. by rewrite E. Qed.

Lemma drop_stale_head v l h rest : drop_stale v l = h :: rest → live v h = true.
Proof. induction l as [|x l IH]; [done|]. cbn. destruct (live v x) eqn:E; [by intros [= <- _]|done]. Qed.

Lemma drop_stale_idem v l : drop_stale v (drop_stale v l) = drop_stale v l.
Proof. induction l as [|x l IH]; [done|]. cbn. destruct (live v x) eqn:E; [cbn; by rewrite E|done]. Qed.

Lemma drop_stale_length v l : (length (drop_stale v l) <= length l)%nat.
Proof. induction l as [|x l IH]; [done|]. cbn. destruct (live v x); simpl; lia. Qed.

(** The first event of the cleaned queue is the first live one. *)
Lemma drop_stale_first v l : hd_error (drop_stale v l) = hd_error (List.filter (live v) l).
Proof. induction l as [|x l IH]; [done|]. cbn. by destruct (live v x). Qed.

Lemma only_stale_refl P v q : only_stale P v q q.
Proof. intros id _. by left. Qed.

Lemma only_stale_trans P v q1 q2 q3 :
  only_stale P v q1 q2 → only_stale P v q2 q3 → only_stale P v q1 q3.
Proof.
  intros H12 H23 id Hid. destruct (H23 id Hid) as [->|(r & ts & Hr & <- & Hl & E)]; [by apply H12|].
  apply pending_latest in Hr as [Hr Hp]. destruct (H12 _ Hid) as [E1|(x & t & _ & _ & _ & E1)].
  - right. exists r, ts. split_and!; [|done|done|done]. apply pending_latest. split; [congruence|done].
  - rewrite Hr in E1. injection E1 as ->. done.
Qed.

(** ** Reads *)

(** [m] reads [x] in the state [s]. *)
Definition observes {S A} (m : M S A) (s : S) (x : A) : Prop := m s = (s, Ok x).

Lemma observes_wp {S A} (m : M S A) s x (Q : A → S → Prop) E : observes m s x → Q x s → wp m Q E s.
Proof. unfold observes, wp. by intros ->. Qed.

Lemma observes_bind {S A B} (m : M S A) (f : A → M S B) s x y :
  observes m s x → observes (f x) s y → observes (mbind' m f) s y.
Proof. unfold observes, mbind'. by intros ->. Qed.

Lemma observes_ret {S A} (x : A) (s : S) : observes (mret' x) s x.
Proof. done. Qed.

Lemma observes_on_kernel {A} (m : M kstate A) s x : observes m (bs_kernel s) x → observes (on_kernel m) s x.
Proof. unfold observes, on_kernel. intros ->. by destruct s. Qed.

Lemma mfilter_observes {S A} (p : A → M S bool) (f : A → bool) l s :
  (∀ x, observes (p x) s (f x)) → observes (mfilter p l) s (List.filter f l).
Proof.
  intros Hp. induction l as [|x l IH]; [done|]. cbn [mfilter].
  eapply observes_bind; [apply Hp|]. eapply observes_bind; [exact IH|]. simpl. by destruct (f x).
Qed.

Lemma reply_id_truthy p id : reply_id_from_payload p = Some id → truthy id = true.
Proof.
  unfold reply_id_from_payload, value_for_prefix. destruct (negb _); [done|].
  induction (split_ws _) as [|t l IH]; [done|]. cbn [token_value]. destruct (String.prefix _ t); [|done].
  unfold or_none. destruct (truthy (strip _)) eqn:E; [|done]. by intros [= <-].
Qed.

Section reading.
Context (cfg : bconfig) (s : bstate) (v : bview) (Hs : sees s v).

Lemma read_message id : observes (message_get_latest id) s (stored_message v id).
Proof. unfold observes, message_get_latest, mget, stored_message. by rewrite (se_messages _ _ Hs). Qed.

Lemma read_attempt id : observes (attempt_of_event id) s (stored_attempt v id).
Proof.
  unfold observes, attempt_of_event, stored_attempt, attempt_get_latest, mget. destruct (opt_truthy id); [|done].
  by rewrite (se_attempts _ _ Hs).
Qed.

Lemma read_reply e :
  is_reply e = true → observes (reply_for_event e) s (stored_reply v e).
Proof.
  intros He. unfold observes, reply_for_event, stored_reply. rewrite He. cbn [negb].
  destruct (reply_id_from_payload _) as [id|] eqn:E; [|done]. rewrite (reply_id_truthy _ _ E). cbn [negb].
  unfold reply_get_latest, mget. by rewrite (se_replies _ _ Hs).
Qed.

Lemma read_reply_there e :
  observes (reply_is_there e) s (negb (is_reply e) || negb (is_none (stored_reply v e))).
Proof.
  unfold reply_is_there. destruct (is_reply e) eqn:He; [|done].
  by eapply observes_bind; [apply read_reply|].
Qed.

Lemma read_live e : observes (event_is_live e) s (live v e).
Proof.
  unfold event_is_live, live. eapply observes_bind; [apply read_message|].
  destruct (stored_message v (ie_message_id e)) as [m|]; [|done].
  eapply observes_bind; [apply read_attempt|]. cbn [is_none negb andb].
  destruct (opt_truthy (ie_attempt_id e) && is_none _); [done|].
  pose proof (read_reply_there e) as Hr. unfold is_reply in Hr.
  destruct (stored_attempt v (ie_attempt_id e)); destruct (ie_event_type e); exact Hr || done.
Qed.

Lemma read_head a :
  owner_name a = true → observes (on_kernel (head_pending_event a)) s (q_head (v_mail v a)).
Proof.
  intros Ha. apply observes_on_kernel. unfold observes, head_pending_event, pending_events, latest_events, normalize.
  rewrite (normalize_owner_normal a) by done. unfold mbind', mlift, inbound_list_agent, mget, mret'.
  rewrite <-(se_mail _ _ Hs a Ha). unfold q_head, q_pending, mailbox_of, abstract, pending_of. cbn [q_log box_of bx_log].
  do 3 f_equal. apply filter_ext. intros r. cbn. by rewrite andb_true_r.
Qed.

Lemma read_log a :
  owner_name a = true → observes (on_kernel (inbound_list_agent a)) s (q_log (v_mail v a)).
Proof.
  intros Ha. apply observes_on_kernel. unfold observes, inbound_list_agent, mget. by rewrite <-(se_mail _ _ Hs a Ha).
Qed.
End reading.

(** ** Ending the head of a queue *)

Lemma sees_twice a q1 q2 s v : sees s (set_mail a q2 (set_mail a q1 v)) → sees s (set_mail a q2 v).
Proof.
  intros [? Hm ? ? ? ?]. split; simpl in *; [done| |done..]. intros x Hx. rewrite Hm by done. by case_decide.
Qed.

Lemma sees_same a s v : sees s v → sees s (set_mail a (v_mail v a) v).
Proof. intros [? Hm ? ? ? ?]. split; simpl; [done| |done..]. intros x Hx. rewrite Hm by done. case_decide; [by subst|done]. Qed.

Lemma set_mail_at a q v : v_mail (set_mail a q v) a = q.
Proof. simpl. by rewrite decide_True. Qed.

Lemma sees_disciplined s v a : sees s v → owner_name a = true → disciplined (v_mail v a).
Proof.
  intros Hs Ha. rewrite <-(se_mail _ _ Hs a Ha). destruct (se_kernel _ _ Hs a Ha) as [_ H].
  by apply steps_disciplined in H.
Qed.

Lemma head_latest q h rest :
  q_pending q = h :: rest →
  q_latest (eid h) q = Some h ∧ is_pending h = true ∧ eid h ∉ map eid rest.
Proof.
  intros Hq. pose proof (proj1 (pending_latest q h)) as H. rewrite Hq in H.
  destruct H as [H1 H2]; [by left|]. split_and!; [done|done|].
  pose proof (pending_of_nodup (q_log q)) as Hnd. change (pending_of (q_log q)) with (q_pending q) in Hnd.
  rewrite Hq in Hnd. by apply NoDup_cons in Hnd as [? _].
Qed.

(** What ending the head gives: its row, the rest of the queue, the other rows as they were. *)
Lemma end_head q h rest st ts :
  q_pending q = h :: rest → is_terminal st = true →
  let q' := (spec_end (eid h) st ts q).2 in
  (spec_end (eid h) st ts q).1 = Some (terminal_row h st ts) ∧ q_pending q' = rest ∧
  q_latest (eid h) q' = Some (terminal_row h st ts) ∧
  ∀ id, id ≠ eid h → q_latest id q' = q_latest id q.
Proof.
  intros Hq Hst. destruct (head_latest q h rest Hq) as (Hl & Hp & Hn).
  unfold spec_end. rewrite Hl, Hp. cbn [fst snd]. set (w := terminal_row h st ts).
  split_and!; [done| | |].
  - rewrite (pending_append_known w h) by done. unfold is_pending. cbn [w terminal_row ie_replace ie_status].
    rewrite Hst, Hq. cbn. rewrite same_id_eq by done. by apply remove_absent.
  - unfold q_latest. cbn [q_log]. rewrite find_last_snoc. unfold has_event_id at 1.
    change (ie_inbound_event_id w) with (eid h). by rewrite String.eqb_refl.
  - intros id Hid. unfold q_latest. cbn [q_log]. rewrite find_last_snoc. unfold has_event_id at 1.
    change (ie_inbound_event_id w) with (eid h). destruct (String.eqb_spec (eid h) id); [congruence|done].
Qed.

Lemma abandon_head_only_stale P v q h rest ts :
  q_pending q = h :: rest → live v h = false →
  only_stale P v q (spec_end (eid h) IE_ABANDONED ts q).2.
Proof.
  intros Hq Hlive. destruct (end_head q h rest IE_ABANDONED ts Hq eq_refl) as (_ & _ & Hh & Ho).
  intros id _. destruct (decide (id = eid h)) as [->|Hid]; [|left; by apply Ho].
  right. exists h, ts. split_and!; [rewrite Hq; by left|done|done|done].
Qed.

Section cleaning.
Context (cfg : bconfig) (a : string) (Ha : owner_name a = true).
Context (Hclock : ∀ n, blank (kc_clock (bc_kernel cfg) n) = false).
Implicit Types (s : bstate) (v : bview).

Lemma wp_service_clock s v (Q : string → bstate → Prop) E :
  sees s v → (∀ s', sees s' v → Q (kc_clock (bc_kernel cfg) (ks_ticks (bs_kernel s))) s') →
  wp (service_clock cfg) Q E s.
Proof.
  intros Hs HQ. unfold service_clock. apply wp_on_kernel. unfold wp, clock. apply HQ.
  apply with_kernel_sees; [done| |done]. intros x Hx. by apply (se_kernel _ _ Hs).
Qed.

Lemma wp_end_event id st ts s v (Q : option InboundEventRecord → bstate → Prop) E :
  sees s v → blank ts = false → is_terminal st = true →
  let p := spec_end id st ts (v_mail v a) in
  (∀ s', sees s' (set_mail a p.2 v) → Q p.1 s') →
  wp (on_kernel (mark_terminal (bc_kernel cfg) a id st (Some ts))) Q E s.
Proof.
  intros Hs Hts Hst p HQ. eapply (wp_call a _ (spec_end id st ts)); [done|done| | |exact HQ].
  - pose proof (mark_terminal_refines (bc_kernel cfg) a Ha id st (Some ts) (bs_kernel s)) as H.
    rewrite !used_ts_some in H by done. apply H; [by apply (se_kernel _ _ Hs)|done|done].
  - apply rtc_once. by constructor.
Qed.

(** The loop ends, and leaves the queue without its stale front. *)
Lemma wp_discard P rounds s v (Q : unit → bstate → Prop) E :
  sees s v → (length (q_pending (v_mail v a)) < rounds)%nat →
  (∀ s' q', sees s' (set_mail a q' v) → only_stale P v (v_mail v a) q' →
     q_pending q' = drop_stale v (q_pending (v_mail v a)) → Q tt s') →
  wp (discard_loop cfg rounds a) Q E s.
Proof.
  revert s v. induction rounds as [|rounds IH]; intros s v Hs Hlen HQ; [lia|]. cbn [discard_loop].
  apply wp_bind. eapply observes_wp; [by apply (read_head s v)|]. cbn beta.
  unfold q_head. destruct (q_pending (v_mail v a)) as [|h rest] eqn:Hq; cbn [hd_error].
  { apply wp_ret. eapply HQ; [by apply sees_same|apply only_stale_refl|by rewrite Hq]. }
  apply wp_bind. eapply observes_wp; [by apply (read_live s v)|]. cbn beta. destruct (live v h) eqn:Hl.
  { apply wp_ret. eapply HQ; [by apply sees_same|apply only_stale_refl|cbn; by rewrite Hl, Hq]. }
  eapply wp_bind, wp_service_clock; [done|]. intros s1 Hs1. set (ts := kc_clock _ _).
  eapply wp_bind, wp_end_event; [done|apply Hclock|done|]. intros s2 Hs2.
  destruct (end_head _ h rest IE_ABANDONED ts Hq eq_refl) as (_ & Hp & _ & _).
  set (q2 := (spec_end _ _ _ _).2) in *.
  apply (IH s2 (set_mail a q2 v)); [done|rewrite set_mail_at, Hp; simpl in Hlen; lia|].
  intros s' q' Hs' Hst Hp'. rewrite set_mail_at in Hst, Hp'. apply sees_twice in Hs'.
  eapply HQ; [done| |].
  - eapply only_stale_trans; [by eapply abandon_head_only_stale|exact Hst].
  - cbn [drop_stale]. rewrite Hl, Hp', Hp. apply drop_stale_set.
Qed.

Lemma filter_pending_live v l :
  List.filter (λ r, if negb (is_terminal (ie_status r)) then live v r else false) (latest_of l) =
  List.filter (live v) (pending_of l).
Proof.
  unfold pending_of. induction (latest_of l) as [|x xs IH]; [done|]. cbn [List.filter].
  destruct (negb _); cbn [List.filter]; [|done]. by destruct (live v x); rewrite IH.
Qed.

Lemma wp_pending_records P fuel s v (Q : list InboundEventRecord → bstate → Prop) E :
  sees s v → (length (q_pending (v_mail v a)) < fuel)%nat →
  (∀ s' q', sees s' (set_mail a q' v) → only_stale P v (v_mail v a) q' →
     q_pending q' = drop_stale v (q_pending (v_mail v a)) →
     Q (List.filter (live v) (q_pending (v_mail v a))) s') →
  wp (pending_event_records cfg fuel a) Q E s.
Proof.
  intros Hs Hlen HQ. unfold pending_event_records, discard_stale_head_events.
  eapply wp_bind, (wp_discard P); [done|done|]. intros s1 q1 Hs1 Hst Hp.
  apply wp_bind. eapply observes_wp; [by apply (read_log s1 _ Hs1)|]. cbn beta. rewrite set_mail_at.
  eapply observes_wp.
  { apply (mfilter_observes _ (λ r, if negb (is_terminal (ie_status r)) then live (set_mail a q1 v) r else false)).
    intros x. destruct (negb _); [by apply read_live|done]. }
  rewrite filter_pending_live. change (pending_of (q_log q1)) with (q_pending q1). rewrite Hp.
  change (live (set_mail a q1 v)) with (live v). rewrite drop_stale_filter. by eapply HQ.
Qed.
End cleaning.

(** ** The views end normally *)

Definition total {S A} (m : M S A) (s : S) : Prop := ∃ x, observes m s x.

Lemma total_bind {S A B} (m : M S A) (f : A → M S B) s :
  total m s → (∀ x, observes m s x → total (f x) s) → total (mbind' m f) s.
Proof. intros [x Hx] Hf. destruct (Hf x Hx) as [y Hy]. exists y. by eapply observes_bind. Qed.

Lemma total_ret {S A} (x : A) (s : S) : total (mret' x) s.
Proof. by exists x. Qed.

Lemma total_get {S A} (f : S → A) (s : S) : total (mget f) s.
Proof. by exists (f s). Qed.

Lemma total_kernel {A} (f : kstate → A) s : total (on_kernel (mget f)) s.
Proof. exists (f (bs_kernel s)). by apply observes_on_kernel. Qed.

Lemma total_wp {S A} (m : M S A) s (Q : A → S → Prop) E : total m s → (∀ x, Q x s) → wp m Q E s.
Proof. intros [x Hx] HQ. by eapply observes_wp. Qed.

Lemma total_map {S A B} (f : Z → A → M S B) n l s :
  (∀ n x, total (f n x) s) → total (mmap_from f n l) s.
Proof.
  intros Hf. revert n. induction l as [|x l IH]; intros n; [apply total_ret|]. cbn [mmap_from].
  apply total_bind; [apply Hf|]. intros y _. apply total_bind; [apply IH|]. intros ? _. apply total_ret.
Qed.

(** The replies carry a number of silent seconds, or none. *)
Definition silence_numeric (replies : list ReplyRecord) : Prop :=
  ∀ r, r ∈ replies → is_ok (reply_heartbeat_silence_seconds r) = true.

Lemma target_of_owner a known :
  owner_name a = true → a ∈ known → normalize_mailbox_target (Some a) known = Some a.
Proof.
  intros Ha Hk. unfold normalize_mailbox_target, stripped, str_or.
  pose proof (owner_name_normal a Ha) as Hn. destruct (normal_name_facts a Hn) as (Hs & Hl & Ht & _).
  rewrite Ht, Hs, Hl, Ht. cbn [negb]. rewrite normalize_owner_normal by done.
  by rewrite (proj2 (mem_str_spec a known) Hk).
Qed.

Section views.
Context (cfg : bconfig) (a : string) (Ha : owner_name a = true) (Hk : a ∈ bc_known_mailboxes cfg).
Context (Hclock : ∀ n, blank (kc_clock (bc_kernel cfg) n) = false).
Implicit Types (s : bstate) (v : bview).

Lemma read_target s : observes (require_mailbox_target cfg (Some a)) s a.
Proof. unfold require_mailbox_target. by rewrite target_of_owner. Qed.

Lemma total_attempt id s : total (attempt_of_event id) s.
Proof. unfold attempt_of_event. destruct (opt_truthy id); [apply total_get|apply total_ret]. Qed.

Lemma total_summary s : total (agent_queue_summary cfg a) s.
Proof.
  unfold agent_queue_summary, read_mailbox_summary. apply total_bind; [exists a; apply read_target|].
  intros x Hx. unfold observes in Hx. rewrite read_target in Hx. injection Hx as <-.
  apply total_bind; [|intros [m st] _; apply total_ret].
  apply total_bind; [apply total_kernel|]. intros m _. apply total_ret.
Qed.

Lemma total_event_payload v s e : sees s v → silence_numeric (v_replies v) → total (event_payload e) s.
Proof.
  intros Hs Hn. unfold event_payload. apply total_bind; [apply total_attempt|]. intros att _.
  apply total_bind; [apply total_get|]. intros m _.
  destruct (is_reply e) eqn:He.
  - apply total_bind; [eexists; by eapply read_reply|]. intros r Hr.
    unfold observes in Hr. rewrite (read_reply s v Hs e He) in Hr. injection Hr as <-.
    destruct (stored_reply v e) as [r|] eqn:Er; [|apply total_ret].
    assert (is_ok (reply_heartbeat_silence_seconds r) = true) as Hok.
    { apply Hn. unfold stored_reply in Er. destruct (reply_id_from_payload _); [|done].
      by apply find_last_Some in Er as [? _]. }
    apply total_bind; [|intros; apply total_ret].
    destruct (reply_heartbeat_silence_seconds r) as [x|]; [by exists x|done].
  - unfold reply_for_event. rewrite He. apply total_ret.
Qed.

Lemma wp_queue_detail P fuel s v (Q : pydict → bstate → Prop) E :
  sees s v → silence_numeric (v_replies v) → (length (q_pending (v_mail v a)) < fuel)%nat →
  (∀ d s' q', sees s' (set_mail a q' v) → only_stale P v (v_mail v a) q' →
     q_pending q' = drop_stale v (q_pending (v_mail v a)) → Q d s') →
  wp (agent_queue_detail cfg fuel a) Q E s.
Proof.
  intros Hs Hn Hlen HQ. unfold agent_queue_detail.
  apply wp_bind. eapply observes_wp; [apply read_target|]. cbn beta.
  apply wp_bind. eapply total_wp.
  { unfold read_mailbox_summary. apply total_bind; [apply total_kernel|]. intros m _. apply total_ret. }
  intros [mailbox status]. cbn [fst]. unfold pending_event_payloads.
  apply wp_bind. eapply wp_bind, (wp_pending_records cfg a Ha Hclock P); [done|done|].
  intros s' q' Hs' Hst Hp. eapply total_wp.
  { apply total_map. intros n x. unfold pending_event_payload. apply total_bind; [apply total_attempt|].
    intros ? _. apply total_bind; [apply total_get|]. intros ? _. apply total_bind; [apply total_get|].
    intros ? _. apply total_ret. }
  intros events. apply wp_bind. eapply total_wp; [apply total_summary|]. intros summary.
  apply wp_bind. eapply total_wp; [|intros active; apply wp_ret; by eapply HQ].
  unfold active_event. destruct mailbox as [m|]; [|apply total_ret]. destruct (negb _); [apply total_ret|].
  apply total_bind; [apply total_kernel|]. intros [r|] _; [|apply total_ret].
  apply total_bind; [by eapply total_event_payload|]. intros ? _. apply total_ret.
Qed.

(** After an acknowledgement: the queue without its stale front; the head it reports is the
    first live event. *)
Lemma next_head_first v q :
  next_head_of (hd_error (drop_stale v q)) (List.filter (live v) q) = hd_error (List.filter (live v) q).
Proof.
  rewrite drop_stale_first. destruct (List.filter (live v) q) as [|x l]; [done|]. cbn.
  by rewrite String.eqb_refl.
Qed.

Lemma wp_after_ack P fuel s v (Q : pydict * option InboundEventRecord → bstate → Prop) E :
  sees s v → silence_numeric (v_replies v) → (length (q_pending (v_mail v a)) < fuel)%nat →
  (∀ d s' q', sees s' (set_mail a q' v) → only_stale P v (v_mail v a) q' →
     q_pending q' = drop_stale v (q_pending (v_mail v a)) →
     Q (d, hd_error (List.filter (live v) (q_pending (v_mail v a)))) s') →
  wp (after_ack cfg fuel a) Q E s.
Proof.
  intros Hs Hn Hlen HQ. unfold after_ack, agent_queue. set (q := v_mail v a) in *.
  eapply wp_bind, (wp_queue_detail P); [done..|]. intros d s1 q1 Hs1 H1 Hp1. fold q in H1, Hp1.
  pose proof (drop_stale_length v (q_pending q)) as Hl.
  eapply wp_bind, (wp_pending_records cfg a Ha Hclock P); [done|rewrite set_mail_at, Hp1; lia|].
  rewrite set_mail_at. intros s2 q2 Hs2 H2 Hp2. apply sees_twice in Hs2.
  rewrite drop_stale_set, Hp1, drop_stale_idem in Hp2.
  apply wp_bind. eapply observes_wp; [by apply (read_head s2 _ Hs2)|]. cbn beta. rewrite set_mail_at.
  apply wp_ret. unfold q_head. rewrite Hp2, Hp1. change (live (set_mail a q1 v)) with (live v).
  rewrite drop_stale_filter, next_head_first. eapply HQ; [done| |done].
  eapply only_stale_trans; [exact H1|exact H2].
Qed.
End views.

(** ** Acknowledging *)

(** The kernel's acknowledgement of a reply at the head consumes it. *)
Lemma ack_head_spec a ts e q h rest :
  disciplined q → q_pending q = h :: rest → is_reply h = true →
  let p := spec_ack a (eid h) ts ts e q in
  ∃ row, p.1 = Some row ∧ eid row = eid h ∧ ie_status row = IE_CONSUMED ∧
    ie_message_id row = ie_message_id h ∧
    q_pending p.2 = rest ∧ q_latest (eid h) p.2 = Some row ∧
    (∀ id, id ≠ eid h → q_latest id p.2 = q_latest id q).
Proof.
  intros Hd Hq Hr. destruct (head_latest q h rest Hq) as (Hl & Hp & Hn).
  assert (q_head q = Some h) as Hh by (unfold q_head; by rewrite Hq).
  unfold spec_ack. rewrite Hh. unfold head_matches_reply. rewrite String.eqb_refl, Hr. cbn [andb negb].
  case_bool_decide as Hst.
  { destruct (end_head q h rest IE_CONSUMED ts Hq eq_refl) as (H1 & H2 & H3 & H4).
    exists (terminal_row h IE_CONSUMED ts). done. }
  assert (is_claimable (ie_status h) = true) as Hcl by (unfold is_pending in Hp; by destruct (ie_status h)).
  assert (lease_held_by_other (eid h) q = false) as Hlease.
  { unfold lease_held_by_other. destruct (q_lease q) as [l|] eqn:El; [|done].
    destruct (is_acquired l) eqn:Hacq; [|done]. cbn [andb]. apply negb_false_iff, String.eqb_eq.
    destruct (d_lease q Hd (dl_inbound_event_id l)) as (x & Hx & Hid & _); [by exists l|]. congruence. }
  unfold spec_claim, is_head. rewrite Hl, Hp, Hlease, Hh, String.eqb_refl, Hcl. cbn [negb andb].
  rewrite bool_decide_false by done. set (u := delivering_row h ts).
  set (q1 := Mailbox _ _ _).
  assert (q_pending q1 = u :: rest) as Hq1.
  { unfold q1. rewrite (pending_append_known u h) by done. unfold is_pending. cbn [u delivering_row ie_replace ie_status].
    cbn. rewrite Hq. cbn. rewrite replace_event_eq by done. f_equal. by apply replace_absent. }
  destruct (end_head q1 u rest IE_CONSUMED ts Hq1 eq_refl) as (H1 & H2 & H3 & H4).
  change (eid u) with (eid h) in *. exists (terminal_row u IE_CONSUMED ts). split_and!; try done.
  intros id Hid. rewrite H4 by done. unfold q_latest, q1. cbn [q_log]. rewrite find_last_snoc.
  unfold has_event_id at 1. change (ie_inbound_event_id u) with (eid h).
  destruct (String.eqb_spec (eid h) id); [congruence|done].
Qed.

(** The event an acknowledgement finds: the head itself when it is asked for or nothing is,
    or the first event behind a stale front when that is asked for. *)
Definition ack_target (v : bview) (q : mailbox) (requested : string) (h : InboundEventRecord)
    (rest : list InboundEventRecord) : Prop :=
  (q_pending q = h :: rest ∧ (requested = "" ∨ requested = eid h)) ∨
  (drop_stale v (q_pending q) = h :: rest ∧ requested = eid h ∧ truthy requested = true).

Section acknowledging.
Context (cfg : bconfig) (a : string) (Ha : owner_name a = true) (Hk : a ∈ bc_known_mailboxes cfg).
Context (Hclock : ∀ n, time_given cfg (kc_clock (bc_kernel cfg) n)).
Context (fuel : nat).
Implicit Types (s : bstate) (v : bview).

Lemma clock_given n : blank (kc_clock (bc_kernel cfg) n) = false.
Proof. apply Hclock. Qed.

Lemma wp_validated h s (Q : InboundEventRecord → bstate → Prop) E :
  is_reply h = true → delivery_job_id_from_payload (ie_payload_ref h) = None →
  Q h s → wp (validate_reply_head h) Q E s.
Proof. intros Hr Hd HQ. unfold validate_reply_head. rewrite Hr, Hd. by apply wp_ret. Qed.

Lemma wp_head_event P s v requested h rest (Q : InboundEventRecord → bstate → Prop) E :
  sees s v → (length (q_pending (v_mail v a)) < fuel)%nat →
  ack_target v (v_mail v a) (stripped requested) h rest →
  is_reply h = true → delivery_job_id_from_payload (ie_payload_ref h) = None →
  (∀ s' q', sees s' (set_mail a q' v) → only_stale P v (v_mail v a) q' → q_pending q' = h :: rest → Q h s') →
  wp (head_event cfg fuel a requested) Q E s.
Proof.
  intros Hs Hlen Ht Hr Hd HQ. unfold head_event. set (q := v_mail v a) in *.
  apply wp_bind. eapply observes_wp; [by apply (read_head s v)|]. cbn beta. fold q.
  destruct (q_pending q) as [|x l] eqn:Hq; [by destruct Ht as [[Hq' _]|[Hq' _]]; rewrite Hq in Hq'|].
  unfold q_head. rewrite Hq. cbn [hd_error].
  destruct (decide (x = h)) as [->|Hne].
  - assert (rest = l) as ->.
    { destruct Ht as [[Hq' _]|[Hq' _]]; rewrite Hq in Hq'; [by injection Hq' as ->|].
      cbn [drop_stale] in Hq'. destruct (live v h) eqn:El; [by injection Hq' as ->|].
      by rewrite (drop_stale_head _ _ _ _ Hq') in El. }
    assert ((if truthy (stripped requested) then stripped requested else ie_inbound_event_id h) = eid h) as ->.
    { destruct Ht as [[_ [-> | ->]]|[_ [-> _]]]; [done| |]; by destruct (truthy (eid h)). }
    rewrite String.eqb_refl, Hr. apply wp_validated; [done|done|].
    eapply HQ; [by apply sees_same|apply only_stale_refl|done].
  - destruct Ht as [[Hq' _]|[Hq' Hreq]]; rewrite Hq in Hq'; [by injection Hq' as ->|].
    cbn [drop_stale] in Hq'. destruct (live v x) eqn:El; [by injection Hq' as ->|].
    assert (Hin : h ∈ l).
    { assert (∀ k, drop_stale v k = h :: rest → h ∈ k) as H; [|by apply H].
      induction k as [|y k IH]; [done|]. cbn. destruct (live v y); [intros [= -> _]; by left|].
      intros Hy. right. by apply IH. }
    destruct (head_latest q x l Hq) as (_ & _ & Hnin).
    assert (eid x ≠ eid h) as Hid.
    { intros E'. apply Hnin. rewrite E'. by apply list_elem_of_fmap_2. }
    destruct Hreq as [Hreq Hth]. rewrite Hth, Hreq.
    destruct (String.eqb_spec (ie_inbound_event_id x) (eid h)) as [?|_]; [done|].
    eapply wp_bind, (wp_pending_records cfg a Ha clock_given P); [done|fold q; by rewrite Hq|].
    fold q. rewrite Hq. intros s1 q1 Hs1 Hst Hp. cbn [drop_stale] in Hp. rewrite El, Hq' in Hp.
    rewrite <-drop_stale_first. cbn [drop_stale]. rewrite El, Hq'. cbn [hd_error].
    rewrite Hreq in Hth. rewrite Hth, String.eqb_refl. cbn [negb].
    apply wp_validated; [done|done|]. by eapply HQ.
Qed.

(** Once the head is found: it is consumed, the stale front behind it is dropped. *)
Lemma wp_ack_reply_head s v h rest reply (Q : pydict → bstate → Prop) E :
  sees s v → silence_numeric (v_replies v) → (length (q_pending (v_mail v a)) < fuel)%nat →
  q_pending (v_mail v a) = h :: rest → is_reply h = true → stored_reply v h = Some reply →
  (∀ s' q' d, sees s' (set_mail a q' v) → only_stale (λ id, id ≠ eid h) v (v_mail v a) q' →
     q_pending q' = drop_stale v rest →
     (∃ row, q_latest (eid h) q' = Some row ∧ ie_status row = IE_CONSUMED) →
     dget d "acknowledged_inbound_event_id" = VStr (eid h) → dget d "reply" = VStr (rp_reply reply) →
     dget d "next_inbound_event_id" = event_id_of (hd_error (List.filter (live v) rest)) → Q d s') →
  wp (ack_head cfg fuel a h) Q E s.
Proof.
  intros Hs Hn Hlen Hq Hr Hreply HQ. unfold ack_head. set (q := v_mail v a) in *.
  assert (ie_event_type h = TASK_REPLY) as Hty by (unfold is_reply in Hr; by apply bool_decide_eq_true in Hr).
  rewrite bool_decide_false by (by rewrite Hty).
  apply wp_bind. eapply observes_wp; [by apply (read_reply s v)|]. cbn beta. rewrite Hreply.
  apply wp_bind. eapply observes_wp; [by apply (read_attempt s v)|]. cbn beta.
  eapply wp_bind, wp_service_clock; [done|]. intros s1 Hs1.
  pose proof (Hclock (ks_ticks (bs_kernel s))) as [Hts Hexp]. set (ts := kc_clock _ _) in *.
  destruct (lease_expires_at_value (bc_kernel cfg) ts) as [expires|] eqn:He; [|done].
  destruct (ack_head_spec a ts expires q h rest (sees_disciplined s v a Hs Ha) Hq Hr)
    as (row & H1 & Hid & Hst & _ & H2 & H3 & H4).
  apply wp_bind. eapply (wp_call a _ (spec_ack a (eid h) ts ts expires) s1 v); [done|done| | |].
  - pose proof (ack_reply_refines (bc_kernel cfg) a Ha (eid h) (Some ts) (Some ts) expires (bs_kernel s1)) as H.
    cbv zeta in H. assert (truthy ts = true) as Htt by by apply blank_truthy.
    assert (str_or (Some ts) (used_ts (bc_kernel cfg) (if opt_truthy (Some ts) then Some ts else Some ts)
      (bs_kernel s1)) = ts) as E1 by (unfold str_or; by rewrite Htt).
    rewrite !E1 in H. apply H; [by apply (se_kernel _ _ Hs1)| |done|done|done].
    destruct (opt_truthy _); by rewrite used_ts_some.
  - apply spec_ack_steps.
  - fold q. rewrite H1. intros s2 Hs2. set (q2 := (spec_ack _ _ _ _ _ _).2) in *.
    eapply wp_bind, (wp_after_ack cfg a Ha Hk clock_given (λ _, True)); [done|done|rewrite set_mail_at, H2|].
    { rewrite Hq in Hlen. simpl in Hlen. lia. }
    rewrite set_mail_at, H2. intros d s3 q3 Hs3 H5 Hp3. apply sees_twice in Hs3.
    rewrite drop_stale_set in Hp3. apply wp_lift. unfold ack_payload.
    assert (is_ok (reply_heartbeat_silence_seconds reply) = true) as Hok.
    { apply Hn. unfold stored_reply in Hreply. destruct (reply_id_from_payload _); [|done].
      by apply find_last_Some in Hreply as [? _]. }
    destruct (reply_heartbeat_silence_seconds reply) as [silence|]; [|done]. cbn [result_bind].
    eapply HQ; [exact Hs3| |exact Hp3| | |done|done].
    + intros id Hne. destruct (H5 id I) as [->|(r & t & Hin & Hrid & Hl & E5)]; [left; by apply H4|].
      right. exists r, t. split_and!; [|done|done|done]. rewrite Hq. right. by rewrite <-H2.
    + exists row. split; [|done]. destruct (H5 (eid h) I) as [->|(r & t & Hin & Hrid & _ & _)]; [done|].
      exfalso. destruct (head_latest q h rest Hq) as (_ & _ & Hnin). apply Hnin. rewrite <-Hrid, <-H2.
      by apply list_elem_of_fmap_2.
    + cbn. f_equal. exact Hid.
Qed.

(** An identifier that is neither that of the head nor that of the first live event is
    refused; of the mailbox only its stale front goes. *)
Lemma ack_refuses_others s v requested :
  sees s v → (length (q_pending (v_mail v a)) < fuel)%nat →
  let q := v_mail v a in
  let id := stripped requested in
  truthy id = true → Some id ≠ option_map eid (q_head q) →
  Some id ≠ option_map eid (hd_error (List.filter (live v) (q_pending q))) →
  ∃ s' q' e, control_ack_reply cfg fuel (Some a) requested s = (s', Err e) ∧ exn_class e = ValueError ∧
    sees s' (set_mail a q' v) ∧ only_stale (λ _, True) v q q' ∧
    q_pending q' = drop_stale v (q_pending q).
Proof.
  intros Hs Hlen q id Ht H1 H2. unfold control_ack_reply.
  assert (wp (head_event cfg fuel a requested) (λ _ _, False)
    (λ e s', ∃ q', exn_class e = ValueError ∧ sees s' (set_mail a q' v) ∧ only_stale (λ _, True) v q q' ∧
      q_pending q' = drop_stale v (q_pending q)) s) as H.
  { unfold head_event. apply wp_bind. eapply observes_wp; [by apply (read_head s v)|]. cbn beta. fold id q.
    rewrite Ht.
    assert (wp (let* records := pending_event_records cfg fuel a in
      match hd_error records with
      | None => mraise ValueError (String.append "inbox is empty for agent: " a)
      | Some head =>
          let requested0 := if truthy id then id else ie_inbound_event_id head in
          if negb (String.eqb (ie_inbound_event_id head) requested0)
          then mraise ValueError (String.append "ack requires head event: " (ie_inbound_event_id head))
          else validate_reply_head head
      end) (λ _ _, False)
      (λ e s', ∃ q', exn_class e = ValueError ∧ sees s' (set_mail a q' v) ∧ only_stale (λ _, True) v q q' ∧
        q_pending q' = drop_stale v (q_pending q)) s) as Hrec.
    { eapply wp_bind, (wp_pending_records cfg a Ha clock_given (λ _, True)); [done|done|]. fold q.
      intros s1 q1 Hs1 Hst Hp. destruct (hd_error _) as [h|].
      - cbv zeta. rewrite Ht. destruct (String.eqb_spec (ie_inbound_event_id h) id) as [E|_].
        + exfalso. apply H2. simpl. by rewrite <-E.
        + cbn [negb]. apply wp_raise. by exists q1.
      - apply wp_raise. by exists q1. }
    destruct (q_head q) as [h|]; [|exact Hrec].
    destruct (String.eqb_spec (ie_inbound_event_id h) id) as [E|_]; [|exact Hrec].
    exfalso. apply H1. simpl. by rewrite <-E. }
  rewrite (mbind_ok _ _ _ _ _ (read_target cfg a Ha Hk s)).
  unfold wp in H. destruct (head_event cfg fuel a requested s) as [s' [h|e]] eqn:E; [done|].
  rewrite (mbind_err _ _ _ _ _ E). destruct H as (q' & He & H). by exists s', q', e.
Qed.
End acknowledging.

(** ** Properties *)

(** Two jobs for [coder] of which the first was superseded by its attempt alone, and two
    replies for [boss]. *)
Module QSample.
Definition superseded (s : bstate) : bstate :=
  match bs_attempts s with
  | x :: _ =>
      BState (bs_kernel s) (bs_messages s)
        (bs_attempts s ++ [at_replace x (at_started_at x) BSample.later AT_SUPERSEDED])
        (bs_replies s) (bs_edges s) (bs_ids s)
  | [] => s
  end.
Definition stale_front : bstate := superseded BSample.submitted.

Definition start2 : facade_op := Start (BSample.job "job_2" JS_RUNNING) BSample.noon.
Definition finish2 : facade_op :=
  Terminal (BSample.job "job_2" JS_COMPLETED) BSample.decision BSample.later true true.
Definition ops : list facade_op := [BSample.submit; BSample.start; BSample.finish; start2; finish2].
Definition answered : bstate := run_ops BSample.cfg ops binit.

Definition queue : list InboundEventRecord :=
  Eval vm_compute in pending_of (inbox_of (bs_kernel answered) "boss").
Definition replies : list ReplyRecord := Eval vm_compute in bs_replies answered.
Definition blank_event : InboundEventRecord :=
  MkInboundEventRecord "" "" SYSTEM_SIGNAL "" None None 0 IE_CREATED "" None None.
Definition blank_reply : ReplyRecord := MkReply "" "" "" "" RT_FAILED "" None [] "".
Definition first : InboundEventRecord := Eval vm_compute in nth 0 queue blank_event.
Definition second : InboundEventRecord := Eval vm_compute in nth 1 queue blank_event.
Definition answer : ReplyRecord := Eval vm_compute in nth 0 replies blank_reply.

Lemma silence_fine : silence_numeric replies.
Proof.
  intros r Hin. apply list_elem_of_In in Hin. unfold replies in Hin. cbn [In] in Hin.
  destruct Hin as [<-|[<-|[]]]; vm_compute; reflexivity.
Qed.

Lemma ops_fine : Forall (op_ok BSample.cfg) ops.
Proof.
  apply Forall_cons. split; [exact BSample.submit_fine|]. apply Forall_cons. split; [exact BSample.start_fine|].
  apply Forall_cons. split; [exact BSample.finish_fine|].
  apply Forall_cons. split; [split; [by apply BSample.job_fine|exact BSample.noon_fine]|].
  apply Forall_cons. split; [split; [by apply BSample.job_fine|exact BSample.later_fine]|by apply Forall_nil].
Qed.

Lemma kernel_after l : Forall (op_ok BSample.cfg) l → kernel_inv (bs_kernel (run_ops BSample.cfg l binit)).
Proof.
  intros Hl. destruct (run_keeps BSample.cfg BSample.ids l binit _ (binit_inv BSample.cfg) Hl) as (v & [Hs _ _] & _).
  apply (se_kernel _ _ Hs).
Qed.

Lemma superseded_kernel s : bs_kernel (superseded s) = bs_kernel s.
Proof. unfold superseded. by destruct (bs_attempts s). Qed.

Lemma sees_stale : sees stale_front (view_of stale_front).
Proof.
  apply sees_view. unfold stale_front. rewrite superseded_kernel. unfold BSample.submitted.
  apply kernel_after. apply Forall_cons. split; [exact BSample.submit_fine|]. by apply Forall_nil.
Qed.

Lemma sees_answered : sees answered (view_of answered).
Proof. apply sees_view, kernel_after, ops_fine. Qed.
End QSample.

(** C34: reading the pending events of a mailbox ends, and cleans as the code means it to:
    with more fuel than pending events the loop stops, the result is exactly the live
    pending events in queue order, the queue that remains is the old one from its first
    live event on, every other event keeps its row, and no other store or mailbox
    changes. *)
Theorem stale_heads_discarded (cfg : bconfig) (fuel : nat) (a : string) (s : bstate) (v : bview) :
  owner_name a = true → (∀ n, blank (kc_clock (bc_kernel cfg) n) = false) → sees s v →
  let q := v_mail v a in
  (length (q_pending q) < fuel)%nat →
  ∃ s' q', pending_event_records cfg fuel a s = (s', Ok (List.filter (live v) (q_pending q))) ∧
    sees s' (set_mail a q' v) ∧ q_pending q' = drop_stale v (q_pending q) ∧
    only_stale (λ _, True) v q q'.
Proof.
  intros Ha Hclock Hs q Hlen.
  assert (wp (pending_event_records cfg fuel a) (λ x s', x = List.filter (live v) (q_pending q) ∧
    ∃ q', sees s' (set_mail a q' v) ∧ q_pending q' = drop_stale v (q_pending q) ∧ only_stale (λ _, True) v q q')
    (λ _ _, False) s) as H.
  { eapply (wp_pending_records cfg a Ha Hclock (λ _, True)); [done|done|]. intros s' q' H1 H2 H3.
    split; [done|]. by exists q'. }
  unfold wp in H. destruct (pending_event_records cfg fuel a s) as [s' [x|e]]; [|done].
  destruct H as (-> & q' & H). by exists s', q'.
Qed.

Lemma stale_heads_discarded_witness :
  ∃ s', option_map (map ie_inbound_event_id)
      (match (pending_event_records BSample.cfg 3 "coder" QSample.stale_front).2 with Ok l => Some l | _ => None end) =
      Some ["iev_aaaaa"] ∧
    (pending_event_records BSample.cfg 3 "coder" QSample.stale_front).1 = s' ∧
    map ie_inbound_event_id (pending_of (inbox_of (bs_kernel s') "coder")) = ["iev_aaaaa"].
Proof.
  destruct (stale_heads_discarded BSample.cfg 3 "coder" QSample.stale_front (view_of QSample.stale_front))
    as (s' & q' & Hrun & Hs' & Hq & _).
  - vm_compute. reflexivity.
  - intros n. vm_compute. reflexivity.
  - exact QSample.sees_stale.
  - vm_compute. lia.
  - exists s'. rewrite Hrun. cbn [fst snd option_map]. split; [|split; [reflexivity|]].
    + vm_compute. reflexivity.
    + assert (pending_of (inbox_of (bs_kernel s') "coder") = q_pending q') as ->.
      { pose proof (se_mail _ _ Hs' "coder" eq_refl) as Hm. rewrite set_mail_at in Hm.
        rewrite <-Hm. reflexivity. }
      rewrite Hq. vm_compute. reflexivity.
Defined.

(** C22: acknowledging a reply consumes that reply and nothing else: for the head of the
    mailbox, or the first live event when it is asked for by its identifier, the event gets
    a consumed row, the reply's text is returned, the next head reported is the first live
    event behind it, the queue that remains starts there, every other event keeps its row
    unless it was stale, and no other store or mailbox changes. *)
Theorem ack_consumes_head (cfg : bconfig) (fuel : nat) (a : string) (requested : option string)
    (s : bstate) (v : bview) (h : InboundEventRecord) (rest : list InboundEventRecord)
    (reply : ReplyRecord) :
  owner_name a = true → a ∈ bc_known_mailboxes cfg →
  (∀ n, time_given cfg (kc_clock (bc_kernel cfg) n)) →
  sees s v → silence_numeric (v_replies v) → (length (q_pending (v_mail v a)) < fuel)%nat →
  ack_target v (v_mail v a) (stripped requested) h rest →
  is_reply h = true → delivery_job_id_from_payload (ie_payload_ref h) = None →
  stored_reply v h = Some reply →
  ∃ s' q' answer, control_ack_reply cfg fuel (Some a) requested s = (s', Ok answer) ∧
    sees s' (set_mail a q' v) ∧ q_pending q' = drop_stale v rest ∧
    (∃ row, q_latest (eid h) q' = Some row ∧ ie_status row = IE_CONSUMED) ∧
    only_stale (λ id, id ≠ eid h) v (v_mail v a) q' ∧
    dget answer "acknowledged_inbound_event_id" = VStr (eid h) ∧
    dget answer "reply" = VStr (rp_reply reply) ∧
    dget answer "next_inbound_event_id" = event_id_of (hd_error (List.filter (live v) rest)).
Proof.
  intros Ha Hk Hclock Hs Hn Hlen Ht Hr Hd Hreply. set (q := v_mail v a) in *.
  assert (wp (control_ack_reply cfg fuel (Some a) requested) (λ answer s', ∃ q',
    sees s' (set_mail a q' v) ∧ q_pending q' = drop_stale v rest ∧
    (∃ row, q_latest (eid h) q' = Some row ∧ ie_status row = IE_CONSUMED) ∧
    only_stale (λ id, id ≠ eid h) v q q' ∧
    dget answer "acknowledged_inbound_event_id" = VStr (eid h) ∧
    dget answer "reply" = VStr (rp_reply reply) ∧
    dget answer "next_inbound_event_id" = event_id_of (hd_error (List.filter (live v) rest))) (λ _ _, False) s) as H.
  { unfold control_ack_reply. apply wp_bind. eapply observes_wp; [by apply read_target|]. cbn beta.
    eapply wp_bind, (wp_head_event cfg a Ha Hclock fuel (λ id, id ≠ eid h)); [done..|].
    intros s1 q1 Hs1 H1 Hq1.
    assert (length (q_pending q1) ≤ length (q_pending q))%nat as Hle.
    { rewrite Hq1. destruct Ht as [[Hq _]|[Hq _]]; rewrite <-Hq; [done|apply drop_stale_length]. }
    eapply (wp_ack_reply_head cfg a Ha Hk Hclock fuel s1 (set_mail a q1 v) h rest reply);
      [done|done|rewrite set_mail_at; lia|by rewrite set_mail_at|done|done|].
    rewrite set_mail_at. intros s2 q2 d Hs2 H2 Hq2 Hrow Ha1 Ha2 Ha3. apply sees_twice in Hs2.
    rewrite drop_stale_set in Hq2. exists q2. split_and!; try done.
    eapply only_stale_trans; [exact H1|exact H2]. }
  unfold wp in H. destruct (control_ack_reply cfg fuel (Some a) requested s) as [s' [d|e]]; [|done].
  destruct H as (q' & H). by exists s', q', d.
Qed.

Lemma ack_consumes_head_witness :
  ∃ s' answer, control_ack_reply BSample.cfg 3 (Some "boss") None QSample.answered = (s', Ok answer) ∧
    dget answer "reply" = VStr "done" ∧ dget answer "next_inbound_event_id" = VStr "iev_aaaaaaaaa".
Proof.
  assert (q_pending (v_mail (view_of QSample.answered) "boss") = [QSample.first; QSample.second]) as Hq
    by (vm_compute; reflexivity).
  destruct (ack_consumes_head BSample.cfg 3 "boss" None QSample.answered (view_of QSample.answered)
    QSample.first [QSample.second] QSample.answer) as (s' & q' & answer & Hrun & _ & _ & _ & _ & _ & H1 & H2).
  - vm_compute. reflexivity.
  - right. left.
  - intros n. exact BSample.noon_fine.
  - exact QSample.sees_answered.
  - assert (v_replies (view_of QSample.answered) = QSample.replies) as -> by (vm_compute; reflexivity).
    exact QSample.silence_fine.
  - rewrite Hq. simpl. lia.
  - left. split; [exact Hq|]. left. reflexivity.
  - reflexivity.
  - vm_compute. reflexivity.
  - vm_compute. reflexivity.
  - exists s', answer. split; [exact Hrun|]. rewrite H1, H2. split; [reflexivity|].
    vm_compute. reflexivity.
Defined.
