(* ===== verification/Layout.v ===== *)
(** Pane layouts, [lib/agents/models_runtime/layout_runtime/]: the layout tree
    ([nodes.py]), pruning and the balanced and pane-growth constructions
    ([ops.py], [growth.py]), the layout language ([parser.py]: comments, tokens, the
    leaf pattern, the recursive-descent parser) and its renderer.

    The parser keeps its token list as the list of tokens still to read, which is
    [_tokens[_index:]].  Its recursion is bounded by fuel; running out of it is
    [RecursionError], and [LayoutLemmas] shows [parse_fuel] is always enough. *)

From Stdlib Require Import Ascii String ZArith Lia.
From stdpp Require Import base list strings pretty.
From S2P Require Import Prelude PyData Names.

Local Open Scope Z_scope.

(** ** [nodes.py] *)

Record LayoutLeaf := mkLeaf {
  ll_name : string;
  ll_provider : option string;
  ll_workspace_mode : option string;
  ll_weight : Z;
  ll_percent : option Z;
}.

#[export] Instance LayoutLeaf_eq_dec : EqDecision LayoutLeaf.
Proof. solve_decision. Defined.

Definition leaf_named (name : string) : LayoutLeaf := mkLeaf name None None 1 None.

Inductive split_kind := Horizontal | Vertical.

#[export] Instance split_kind_eq_dec : EqDecision split_kind.
Proof. solve_decision. Defined.

(** The nodes [__post_init__] lets through: a leaf carries a payload only, a branch
    both children and no payload. *)
Inductive LayoutNode :=
  | Leaf (l : LayoutLeaf)
  | Branch (k : split_kind) (left right : LayoutNode).

#[export] Instance LayoutNode_eq_dec : EqDecision LayoutNode.
Proof. solve_decision. Defined.

Definition is_leaf (t : LayoutNode) : bool := match t with Leaf _ => true | Branch _ _ _ => false end.

(** [LayoutNode(kind=…, leaf=…, left=…, right=…)] with its [__post_init__]. *)
Definition layout_node (kind : string) (leaf : option LayoutLeaf) (left right : option LayoutNode)
    : result LayoutNode :=
  let k := lower (strip kind) in
  do! raise_if (negb (mem_str k ["leaf"; "horizontal"; "vertical"])) ValueError
        (String.append "unsupported layout node kind: " (repr_str kind)) in
  if String.eqb k "leaf" then
    match leaf, left, right with
    | Some l, None, None => Ok (Leaf l)
    | _, _, _ => raise ValueError "leaf layout node requires only leaf payload"
    end
  else
    match leaf, left, right with
    | None, Some a, Some b =>
        Ok (Branch (if String.eqb k "horizontal" then Horizontal else Vertical) a b)
    | _, _, _ => raise ValueError "branch layout node requires left/right children"
    end.

Fixpoint leaf_count (t : LayoutNode) : Z :=
  match t with Leaf _ => 1 | Branch _ a b => leaf_count a + leaf_count b end.

Fixpoint weight_sum (t : LayoutNode) : Z :=
  match t with Leaf l => Z.max 1 (ll_weight l) | Branch _ a b => weight_sum a + weight_sum b end.

Fixpoint iter_leaves (t : LayoutNode) : list LayoutLeaf :=
  match t with Leaf l => [l] | Branch _ a b => iter_leaves a ++ iter_leaves b end.

Definition iter_layout_names (t : LayoutNode) : list string := map ll_name (iter_leaves t).

Definition precedence (k : split_kind) : Z := match k with Horizontal => 1 | Vertical => 2 end.

Definition node_rank (t : LayoutNode) : Z :=
  match t with Leaf _ => 3 | Branch k _ _ => precedence k end.

Definition is_worktree (o : option string) : bool := String.eqb (stripped o) "worktree".

Definition render_leaf (l : LayoutLeaf) : string :=
  let head :=
    match ll_provider l with
    | Some (String _ _ as p) =>
        String.append (ll_name l) (String.append ":" (String.append p
          (if is_worktree (ll_workspace_mode l) then "(worktree)" else "")))
    | _ => ll_name l
    end in
  String.append head
    (String.append
      (if ll_weight l =? 1 then "" else String.append "(" (String.append (pretty (ll_weight l)) ")"))
      (match ll_percent l with Some p => String.append "@" (pretty p) | None => "" end)).

Definition separator (k : split_kind) : ascii := match k with Horizontal => ";" | Vertical => "," end.

Definition node_kind (t : LayoutNode) : option split_kind :=
  match t with Leaf _ => None | Branch k _ _ => Some k end.

(** [render_child(node, parent_kind=…)] on the text of the child. *)
Definition wrap_child (parent : split_kind) (child : LayoutNode) (text : string) : string :=
  let parenthesised := String.append "(" (String.append text ")") in
  if is_leaf child then text
  else if node_rank child <? precedence parent then parenthesised
  else if node_rank child =? precedence parent then text
  else if bool_decide (parent = Vertical) && bool_decide (node_kind child = Some Horizontal)
  then parenthesised
  else text.

Fixpoint render (t : LayoutNode) : string :=
  match t with
  | Leaf l => render_leaf l
  | Branch k a b =>
      String.append (wrap_child k a (render a))
        (String (separator k) (String " " (wrap_child k b (render b))))
  end.

Definition render_child (t : LayoutNode) (parent : split_kind) : string :=
  wrap_child parent t (render t).

(** ** [ops.py] *)

(** [include] as built at each call: the names stripped and lowered, blanks left out. *)
Definition include_set (include_names : list string) : list string :=
  map (λ n, lower (strip n)) (List.filter (λ n, negb (blank n)) include_names).

Fixpoint prune_layout (t : LayoutNode) (include_names : list string) : option LayoutNode :=
  let include := include_set include_names in
  match t with
  | Leaf l => if mem_str (lower (ll_name l)) include then Some t else None
  | Branch k a b =>
      match prune_layout a include, prune_layout b include with
      | None, r => r
      | l, None => l
      | Some l, Some r => Some (Branch k l r)
      end
  end.

Definition stack_vertical (leaves : list LayoutNode) : option LayoutNode :=
  match leaves with
  | [] => None
  | t :: rest => Some (foldl (Branch Vertical) t rest)
  end.

Definition clean_names (names : list string) : list string :=
  map strip (List.filter (λ n, negb (blank n)) names).

(** [d.get(name) or None] for a dict of strings. *)
Definition str_dict_get (d : list (string * string)) (k : string) : option string :=
  match find (λ kv, String.eqb kv.1 k) d with
  | Some kv => or_none kv.2
  | None => None
  end.

Definition layout_leaves (ordered_agents : list string)
    (providers modes : list (string * string)) (cmd_enabled : bool) : list LayoutNode :=
  (if cmd_enabled then [Leaf (leaf_named "cmd")] else []) ++
  map (λ name, Leaf (mkLeaf name (str_dict_get providers name) (str_dict_get modes name) 1 None))
    ordered_agents.

Definition build_balanced_layout (agent_names : list string)
    (providers modes : list (string * string)) (cmd_enabled : bool) : result LayoutNode :=
  let ordered := clean_names agent_names in
  do! raise_if (bool_decide (ordered = [])) ValueError
        "at least one agent is required for layout" in
  let leaves := layout_leaves ordered providers modes cmd_enabled in
  match leaves with
  | [one] => Ok one
  | _ =>
      let mid := Nat.div (length leaves + 1) 2 in
      match stack_vertical (firstn mid leaves), stack_vertical (skipn mid leaves) with
      | Some l, None => Ok l
      | Some l, Some r => Ok (Branch Horizontal l r)
      | None, _ => raise ValueError "branch layout node requires left/right children"
      end
  end.

(** ** [growth.py] *)

Definition DEFAULT_MAX_PANES_PER_WINDOW : nat := 6.

(** [_normalize_names]; the names are strings here, so [str(name or '')] is the name. *)
Definition normalize_names (names : list string) : result (list string) :=
  let normalized := clean_names names in
  do! raise_if (negb (bool_decide (NoDup normalized))) ValueError "pane names must be unique" in
  Ok normalized.

Definition normalize_max_panes (value : Z) : result nat :=
  do! raise_if ((value <? 1) || (Z.of_nat DEFAULT_MAX_PANES_PER_WINDOW <? value)) ValueError
        "max panes per window must be between 1 and 6" in
  Ok (Z.to_nat value).

(** [l[0::2]] and [l[1::2]] *)
Fixpoint every_other {A} (keep : bool) (l : list A) : list A :=
  match l with
  | [] => []
  | x :: r => if keep then x :: every_other false r else every_other true r
  end.

Definition build_pane_growth_layout (pane_names : list string) : result LayoutNode :=
  let! names := normalize_names pane_names in
  do! raise_if (bool_decide (names = [])) ValueError "at least one pane is required for layout" in
  do! raise_if (DEFAULT_MAX_PANES_PER_WINDOW <? length names)%nat ValueError
        "single pane-growth layout supports at most 6 panes" in
  let leaves := map (λ n, Leaf (leaf_named n)) names in
  match leaves with
  | [one] => Ok one
  | _ =>
      match stack_vertical (every_other true leaves), stack_vertical (every_other false leaves) with
      | Some l, Some r => Ok (Branch Horizontal l r)
      | _, _ => raise ValueError "pane-growth layout requires both columns after two panes"
      end
  end.

Record PaneGrowthWindowPlan := mkWindowPlan {
  pw_name : string;
  pw_index : Z;
  pw_agent_names : list string;
  pw_layout : LayoutNode;
}.

Definition pw_layout_spec (w : PaneGrowthWindowPlan) : string := render (pw_layout w).

Definition page_window_name (prefix : string) (index : Z) : string :=
  let base := if blank prefix then "layout" else strip prefix in
  if index =? 1 then base else String.append base (String.append "-" (pretty index)).

(** [for offset in range(0, len(names), max_count)]: one round per page; a round
    consumes at least one name, so the number of names bounds the rounds. *)
Fixpoint growth_pages (rounds : nat) (max_count : nat) (prefix : string) (index : Z)
    (names : list string) : result (list PaneGrowthWindowPlan) :=
  match rounds, names with
  | _, [] => Ok []
  | O, _ => raise RecursionError "maximum recursion depth exceeded"
  | S n, _ =>
      let page := firstn max_count names in
      let! layout := build_pane_growth_layout page in
      let! rest := growth_pages n max_count prefix (index + 1) (skipn max_count names) in
      Ok (mkWindowPlan (page_window_name prefix index) index page layout :: rest)
  end.

Definition build_pane_growth_windows (pane_names : list string) (window_prefix : string)
    (max_panes_per_window : Z) : result (list PaneGrowthWindowPlan) :=
  let! max_count := normalize_max_panes max_panes_per_window in
  let! names := normalize_names pane_names in
  growth_pages (length names) max_count window_prefix 1 names.
