(* ===== verification/LayoutParser.v ===== *)
(** The layout language, [lib/agents/models_runtime/layout_runtime/parser.py]:
    comment stripping and tokens ([tokenize]), the leaf pattern [_LEAF_TOKEN_RE],
    and the recursive-descent parser [_LayoutParser].

    The parser's state is the list of the tokens still to read, [_tokens[_index:]].
    Its recursion is bounded by fuel; running out of it is [RecursionError], and
    [LayoutLemmas] shows that [parse_fuel] is always enough. *)

From Stdlib Require Import Ascii String ZArith Lia.
From stdpp Require Import base list strings pretty.
From S2P Require Import Prelude PyData Names Layout.

Local Open Scope Z_scope.

(** ** [tokenize] *)

Definition char_str (c : ascii) : string := String c EmptyString.

(** The ASCII line boundaries of [str.splitlines]. *)
Definition is_linebreak (c : ascii) : bool := in_range 10 13 c || in_range 28 30 c.

Definition carriage_return : ascii := ascii_of_nat 13.
Definition line_feed : ascii := ascii_of_nat 10.

Fixpoint splitlines_go (cur : string) (s : string) : list string :=
  match s with
  | EmptyString => if truthy cur then [cur] else []
  | String c r =>
      if is_linebreak c then
        cur :: match r with
               | String d r' =>
                   if Ascii.eqb c carriage_return && Ascii.eqb d line_feed
                   then splitlines_go EmptyString r'
                   else splitlines_go EmptyString r
               | EmptyString => []
               end
      else splitlines_go (String.append cur (char_str c)) r
  end.

Definition splitlines (s : string) : list string := splitlines_go EmptyString s.

(** [s.split('#', 1)[0]] and [s.split('//', 1)[0]] *)
Fixpoint before_hash (s : string) : string :=
  match s with
  | EmptyString => EmptyString
  | String c r => if Ascii.eqb c "#" then EmptyString else String c (before_hash r)
  end.

Fixpoint before_slashes (s : string) : string :=
  if String.prefix "//" s then EmptyString
  else match s with
       | EmptyString => EmptyString
       | String c r => String c (before_slashes r)
       end.

Definition strip_comment (raw_line : string) : string := before_slashes (before_hash raw_line).

(** [line.find(')', …)] on the text after an opening parenthesis: the text up to and
    with the closing one, and what follows. *)
Fixpoint find_close (s : string) : option (string * string) :=
  match s with
  | EmptyString => None
  | String c r =>
      if Ascii.eqb c ")" then Some (char_str c, r)
      else match find_close r with
           | Some (inner, rest) => Some (String c inner, rest)
           | None => None
           end
  end.

Definition append_leaf_token (tokens : list string) (buf : string) : list string :=
  let leaf := strip buf in if truthy leaf then tokens ++ [leaf] else tokens.

Definition is_delimiter (c : ascii) : bool :=
  Ascii.eqb c "(" || Ascii.eqb c ")" || Ascii.eqb c ";" || Ascii.eqb c ",".

(** The [while index < len(line)] loop with [line] the text from [index] on.  Every
    round drops a character, so the length of the line bounds the rounds. *)
Fixpoint tokenize_line (rounds : nat) (line buf : string) (tokens : list string) : list string :=
  match rounds, line with
  | _, EmptyString => append_leaf_token tokens buf
  | O, _ => tokens
  | S n, String c r =>
      let step :=
        if is_delimiter c
        then tokenize_line n r EmptyString (append_leaf_token tokens buf ++ [char_str c])
        else tokenize_line n r (String.append buf (char_str c)) tokens in
      if Ascii.eqb c "(" && negb (blank buf) then
        match find_close r with
        | Some (inner, rest) => tokenize_line n rest (String.append buf (String c inner)) tokens
        | None => step
        end
      else step
  end.

Definition tokenize (text : string) : list string :=
  List.filter truthy
    (foldl (λ tokens raw_line,
              let line := strip_comment raw_line in
              tokenize_line (String.length line) line EmptyString tokens)
       [] (splitlines text)).

(** ** [_LEAF_TOKEN_RE] *)

(** The maximal prefix of characters of a class.  Every repetition of the pattern is
    followed by a character outside its class or by the end, so a full match takes the
    maximal run, and no backtracking gives another match. *)
Fixpoint span (p : ascii → bool) (s : string) : string * string :=
  match s with
  | EmptyString => (EmptyString, EmptyString)
  | String c r => if p c then let q := span p r in (String c q.1, q.2) else (EmptyString, s)
  end.

Definition name_char (c : ascii) : bool := name_tail_char c || Ascii.eqb c ".".

(** [\s*X] for a character [X]. *)
Definition eat (x : ascii) (s : string) : option string :=
  match lstrip s with
  | String c r => if Ascii.eqb c x then Some r else None
  | EmptyString => None
  end.

Definition eat_word (w s : string) : option string :=
  let r := lstrip s in if String.prefix w r then Some (drop_str (String.length w) r) else None.

(** The mode group: the word [worktree] in parentheses, optional. *)
Definition match_mode (s : string) : option string * string :=
  match eat "(" s with
  | Some r => match eat_word "worktree" r with
              | Some r' => match eat ")" r' with
                           | Some r'' => (Some "worktree", r'')
                           | None => (None, s)
                           end
              | None => (None, s)
              end
  | None => (None, s)
  end.

(** The provider group, with the mode group inside it: optional. *)
Definition match_provider (s : string) : option string * option string * string :=
  match eat ":" s with
  | Some r =>
      let q := span name_tail_char (lstrip r) in
      if truthy q.1 then let m := match_mode q.2 in (Some q.1, m.1, m.2) else (None, None, s)
  | None => (None, None, s)
  end.

Definition nonzero_digit (c : ascii) : bool := in_range 49 57 c.

(** The weight group: a decimal without leading zero in parentheses, optional, with
    [\s*] before each of its parts. *)
Definition match_weight (s : string) : option string * string :=
  match eat "(" s with
  | Some r =>
      match lstrip r with
      | String c r' =>
          if nonzero_digit c then
            let q := span is_digit r' in
            match eat ")" q.2 with
            | Some r'' => (Some (String c q.1), r'')
            | None => (None, s)
            end
          else (None, s)
      | EmptyString => (None, s)
      end
  | None => (None, s)
  end.

(** The percent group: an at sign and digits, optional. *)
Definition match_percent (s : string) : option string * string :=
  match eat "@" s with
  | Some r =>
      let q := span is_digit (lstrip r) in
      if truthy q.1 then (Some q.1, q.2) else (None, s)
  | None => (None, s)
  end.

(** [int(…)] of a run of digits. *)
Definition digits_int (s : string) : Z := default 0 (parse_int s).

Definition match_leaf (token : string) : option LayoutLeaf :=
  match token with
  | EmptyString => None
  | String c r =>
      let q := span name_char r in
      if is_alpha c && (String.length q.1 <=? 63)%nat then
        let '(provider, mode, s1) := match_provider q.2 in
        let (weight, s2) := match_weight s1 in
        let (percent, s3) := match_percent s2 in
        if truthy s3 then None
        else Some (mkLeaf (String c q.1) provider mode
                     (match weight with Some w => digits_int w | None => 1 end)
                     (option_map digits_int percent))
      else None
  end.

(** ** [_LayoutParser] *)

Definition layout_error {A} (msg : string) : result A := raise LayoutParseError msg.

Definition token_repr (o : option string) : string :=
  match o with Some t => repr_str t | None => "None" end.

Definition consume_token (expected : string) (ts : list string) : result (list string) :=
  match ts with
  | t :: r =>
      if String.eqb t expected then Ok r
      else layout_error (String.append "expected " (String.append (repr_str expected)
             (String.append ", found " (repr_str t))))
  | [] => layout_error (String.append "expected " (String.append (repr_str expected) ", found None"))
  end.

Definition parse_leaf (token : string) : result LayoutNode :=
  match match_leaf token with
  | Some l => Ok (Leaf l)
  | None => layout_error (String.append "invalid layout token " (String.append (repr_str token)
      "; expected 'cmd', 'agent', 'agent:provider', 'agent:provider(worktree)', or any of those forms with '(N)' weight or '@N' percent"))
  end.

Definition next_is (ts : list string) (t : string) : bool :=
  match ts with x :: _ => String.eqb x t | [] => false end.

Definition out_of_fuel {A} : result A := raise RecursionError "maximum recursion depth exceeded".

(** [_parse_horizontal], [_parse_vertical], their [while] loops and
    [_parse_primary], each returning the node and the tokens left. *)
Fixpoint parse_horizontal (fuel : nat) (ts : list string) : result (LayoutNode * list string) :=
  match fuel with
  | O => out_of_fuel
  | S n => let! p := parse_vertical n ts in horizontal_loop n p.1 p.2
  end
with horizontal_loop (fuel : nat) (node : LayoutNode) (ts : list string)
    : result (LayoutNode * list string) :=
  match fuel with
  | O => out_of_fuel
  | S n =>
      if next_is ts ";" then
        let! ts' := consume_token ";" ts in
        let! p := parse_vertical n ts' in
        horizontal_loop n (Branch Horizontal node p.1) p.2
      else Ok (node, ts)
  end
with parse_vertical (fuel : nat) (ts : list string) : result (LayoutNode * list string) :=
  match fuel with
  | O => out_of_fuel
  | S n => let! p := parse_primary n ts in vertical_loop n p.1 p.2
  end
with vertical_loop (fuel : nat) (node : LayoutNode) (ts : list string)
    : result (LayoutNode * list string) :=
  match fuel with
  | O => out_of_fuel
  | S n =>
      if next_is ts "," then
        let! ts' := consume_token "," ts in
        let! p := parse_primary n ts' in
        vertical_loop n (Branch Vertical node p.1) p.2
      else Ok (node, ts)
  end
with parse_primary (fuel : nat) (ts : list string) : result (LayoutNode * list string) :=
  match fuel with
  | O => out_of_fuel
  | S n =>
      match ts with
      | [] => layout_error "unexpected end of layout"
      | t :: r =>
          if String.eqb t "(" then
            let! ts' := consume_token "(" ts in
            let! p := parse_horizontal n ts' in
            let! rest := consume_token ")" p.2 in
            Ok (p.1, rest)
          else if mem_str t [")"; ";"; ","] then
            layout_error (String.append "unexpected token " (repr_str t))
          else let! leaf := parse_leaf t in Ok (leaf, r)
      end
  end.

Definition parse_fuel (ts : list string) : nat := 4 * length ts + 3.

(** [_LayoutParser(text).parse()] *)
Definition parse_tokens (ts : list string) : result LayoutNode :=
  do! raise_if (bool_decide (ts = [])) LayoutParseError "layout is empty" in
  let! p := parse_horizontal (parse_fuel ts) ts in
  match p.2 with
  | [] => Ok p.1
  | t :: _ => layout_error (String.append "unexpected token " (repr_str t))
  end.

Definition parse_layout_spec (text : string) : result LayoutNode := parse_tokens (tokenize text).
