(* ===== verification/LayoutGrammar.v ===== *)
(** The grammar of layouts and the parser: [h_expr], [v_expr] and [p_expr] are the
    left-recursive productions of the comment at the head of [parser.py]; the
    recursive-descent parser of [LayoutParser] accepts exactly their sentences, always
    has enough fuel, and fails with [LayoutParseError] only. *)

From Stdlib Require Import Ascii String ZArith Lia.
From stdpp Require Import base list strings pretty.
From S2P Require Import Prelude PyData Names Layout LayoutParser.

Local Open Scope Z_scope.

(** ** The grammar *)

Inductive h_expr : list string → LayoutNode → Prop :=
  | h_one ts t : v_expr ts t → h_expr ts t
  | h_more ts us a b :
      h_expr ts a → v_expr us b → h_expr (ts ++ ";" :: us) (Branch Horizontal a b)
with v_expr : list string → LayoutNode → Prop :=
  | v_one ts t : p_expr ts t → v_expr ts t
  | v_more ts us a b :
      v_expr ts a → p_expr us b → v_expr (ts ++ "," :: us) (Branch Vertical a b)
with p_expr : list string → LayoutNode → Prop :=
  | p_leaf tok l : match_leaf tok = Some l → p_expr [tok] (Leaf l)
  | p_group ts t : h_expr ts t → p_expr ("(" :: ts ++ [")"]) t.

Scheme h_expr_mut := Minimality for h_expr Sort Prop
  with v_expr_mut := Minimality for v_expr Sort Prop
  with p_expr_mut := Minimality for p_expr Sort Prop.
Combined Scheme expr_ind from h_expr_mut, v_expr_mut, p_expr_mut.

#[export] Hint Constructors h_expr v_expr p_expr : ccb.

(** ** Soundness: what the parser returns, it has read *)

Lemma next_is_spec ts x : next_is ts x = true → ∃ r, ts = x :: r.
Proof. destruct ts as [|y r]; [done|]. cbn. intros ->%String.eqb_eq. eauto. Qed.

Lemma consume_ok x ts r : consume_token x ts = Ok r → ts = x :: r.
Proof.
  destruct ts as [|y q]; cbn; [done|]. destruct (String.eqb y x) eqn:E; [|done].
  apply String.eqb_eq in E as ->. by intros [= ->].
Qed.

Lemma consume_here x r : consume_token x (x :: r) = Ok r.
Proof. cbn. by rewrite String.eqb_refl. Qed.

Lemma parse_leaf_ok tok t : parse_leaf tok = Ok t → p_expr [tok] t.
Proof. unfold parse_leaf. destruct (match_leaf tok) eqn:E; [|done]. intros [= <-]. by constructor. Qed.

Lemma cons_app_assoc {A} (us vs r : list A) x : us ++ x :: vs ++ r = (us ++ x :: vs) ++ r.
Proof. by rewrite <-app_assoc. Qed.

Definition reads (E : list string → LayoutNode → Prop) (ts : list string)
    (p : LayoutNode * list string) : Prop := ∃ us, ts = us ++ p.2 ∧ E us p.1.

Lemma parser_sound n :
  (∀ ts p, parse_horizontal n ts = Ok p → reads h_expr ts p) ∧
  (∀ us a ts p, h_expr us a → horizontal_loop n a ts = Ok p → reads h_expr (us ++ ts) p) ∧
  (∀ ts p, parse_vertical n ts = Ok p → reads v_expr ts p) ∧
  (∀ us a ts p, v_expr us a → vertical_loop n a ts = Ok p → reads v_expr (us ++ ts) p) ∧
  (∀ ts p, parse_primary n ts = Ok p → reads p_expr ts p).
Proof.
  induction n as [|n (IH & IHl & IV & IVl & IP)]; [by repeat split|].
  repeat split; cbn.
  - intros ts p H. apply result_bind_Ok in H as (x & (us & -> & E)%IV & H).
    apply (IHl us x.1); auto with ccb.
  - intros us a ts p Ha H. destruct (next_is ts ";") eqn:N; [|injection H as <-; by exists us].
    apply next_is_spec in N as [r ->]. rewrite consume_here in H. cbn in H.
    apply result_bind_Ok in H as (x & (vs & -> & E)%IV & H).
    rewrite cons_app_assoc. eapply IHl; eauto with ccb.
  - intros ts p H. apply result_bind_Ok in H as (x & (us & -> & E)%IP & H).
    apply (IVl us x.1); auto with ccb.
  - intros us a ts p Ha H. destruct (next_is ts ",") eqn:N; [|injection H as <-; by exists us].
    apply next_is_spec in N as [r ->]. rewrite consume_here in H. cbn in H.
    apply result_bind_Ok in H as (x & (vs & -> & E)%IP & H).
    rewrite cons_app_assoc. eapply IVl; eauto with ccb.
  - intros [|t r] p H; [done|].
    destruct (String.eqb t "(") eqn:Et; cbn -[mem_str] in H.
    + apply String.eqb_eq in Et as ->. cbn in H.
      apply result_bind_Ok in H as (x & (us & -> & E)%IH & H).
      apply result_bind_Ok in H as (q & Hq%consume_ok & [= <-]).
      exists ("(" :: us ++ [")"]). cbn. split; [|by constructor].
      by rewrite Hq, <-app_assoc.
    + destruct (mem_str t _); [done|].
      apply result_bind_Ok in H as (x & Hx%parse_leaf_ok & [= <-]).
      by exists [t].
Qed.

(** ** More fuel changes nothing, and [parse_fuel] is enough *)

Definition starved {A} (r : result A) : Prop :=
  match r with Err e => exn_class e = RecursionError | Ok _ => False end.

Definition fed {A} (r r' : result A) : Prop := ¬ starved r → r' = r.

Lemma fed_bind {A B} (m m' : result A) (k k' : A → result B) :
  fed m m' → (∀ a, fed (k a) (k' a)) → fed (result_bind m k) (result_bind m' k').
Proof.
  intros Hm Hk Hs. destruct m as [a|e]; cbn in *.
  - rewrite (Hm id). by apply Hk.
  - by rewrite (Hm Hs).
Qed.

Lemma fed_refl {A} (r : result A) : fed r r.
Proof. done. Qed.

#[local] Hint Resolve fed_bind fed_refl : core.

Lemma parser_step n :
  (∀ ts, fed (parse_horizontal n ts) (parse_horizontal (S n) ts)) ∧
  (∀ a ts, fed (horizontal_loop n a ts) (horizontal_loop (S n) a ts)) ∧
  (∀ ts, fed (parse_vertical n ts) (parse_vertical (S n) ts)) ∧
  (∀ a ts, fed (vertical_loop n a ts) (vertical_loop (S n) a ts)) ∧
  (∀ ts, fed (parse_primary n ts) (parse_primary (S n) ts)).
Proof.
  induction n as [|n (IH & IHl & IV & IVl & IP)]; [repeat split; intros; intros []; done|].
  repeat split.
  - intros ts. apply (fed_bind _ (parse_vertical (S n) ts)); auto.
  - intros a ts.
    change (fed (horizontal_loop (S n) a ts) (if next_is ts ";" then
        let! ts' := consume_token ";" ts in
        let! p := parse_vertical (S n) ts' in
        horizontal_loop (S n) (Branch Horizontal a p.1) p.2 else Ok (a, ts))).
    cbn [horizontal_loop]. destruct (next_is ts ";"); auto 7.
  - intros ts. apply (fed_bind _ (parse_primary (S n) ts)); auto.
  - intros a ts.
    change (fed (vertical_loop (S n) a ts) (if next_is ts "," then
        let! ts' := consume_token "," ts in
        let! p := parse_primary (S n) ts' in
        vertical_loop (S n) (Branch Vertical a p.1) p.2 else Ok (a, ts))).
    cbn [vertical_loop]. destruct (next_is ts ","); auto 7.
  - intros [|t r]; [done|]. 
    change (fed (parse_primary (S n) (t :: r))
      (if String.eqb t "(" then
            let! ts' := consume_token "(" (t :: r) in
            let! p := parse_horizontal (S n) ts' in
            let! rest := consume_token ")" p.2 in
            Ok (p.1, rest)
          else if mem_str t [")"; ";"; ","] then
            layout_error (String.append "unexpected token " (repr_str t))
          else let! leaf := parse_leaf t in Ok (leaf, r))).
    cbn [parse_primary]. destruct (String.eqb t "("); auto 7.
Qed.

Lemma fed_le {A} (f : nat → result A) (Hf : ∀ n, fed (f n) (f (S n))) n m :
  (n <= m)%nat → fed (f n) (f m).
Proof.
  induction 1 as [|m _ IH]; [done|]. intros Hs.
  rewrite (Hf m); [by apply IH|]. by rewrite (IH Hs).
Qed.

Lemma fed_ok_le {A} (f : nat → result A) (Hf : ∀ n, fed (f n) (f (S n))) n m p :
  (n <= m)%nat → f n = Ok p → f m = Ok p.
Proof. intros H E. rewrite <-E. apply (fed_le f Hf n m H). rewrite E. by intros []. Qed.

Lemma horizontal_loop_le a ts n m p :
  (n <= m)%nat → horizontal_loop n a ts = Ok p → horizontal_loop m a ts = Ok p.
Proof. apply (fed_ok_le (λ n, horizontal_loop n a ts)). intros k. apply parser_step. Qed.
Lemma parse_vertical_le ts n m p :
  (n <= m)%nat → parse_vertical n ts = Ok p → parse_vertical m ts = Ok p.
Proof. apply (fed_ok_le (λ n, parse_vertical n ts)). intros k. apply parser_step. Qed.
Lemma vertical_loop_le a ts n m p :
  (n <= m)%nat → vertical_loop n a ts = Ok p → vertical_loop m a ts = Ok p.
Proof. apply (fed_ok_le (λ n, vertical_loop n a ts)). intros k. apply parser_step. Qed.
Lemma parse_primary_le ts n m p :
  (n <= m)%nat → parse_primary n ts = Ok p → parse_primary m ts = Ok p.
Proof. apply (fed_ok_le (λ n, parse_primary n ts)). intros k. apply parser_step. Qed.

(** A result that is a node with a strictly (or weakly) shorter rest, or a layout
    error. *)
Definition settles (slack : nat) (ts : list string) (r : result (LayoutNode * list string)) : Prop :=
  match r with
  | Ok p => (length p.2 + slack <= length ts)%nat
  | Err e => exn_class e = LayoutParseError
  end.

Lemma parse_settles_bind {A} (slack : nat) ts (m : result A) (k : A → result (LayoutNode * list string))
    (P : A → Prop) :
  (match m with Ok a => P a | Err e => exn_class e = LayoutParseError end) →
  (∀ a, P a → settles slack ts (k a)) → settles slack ts (result_bind m k).
Proof. destruct m; cbn; auto. Qed.

Lemma consume_settles x ts :
  match consume_token x ts with
  | Ok r => (S (length r) = length ts)%nat
  | Err e => exn_class e = LayoutParseError
  end.
Proof. destruct ts as [|y r]; cbn; [done|]. by destruct (String.eqb y x). Qed.

Lemma parse_leaf_settles t :
  match parse_leaf t with Ok _ => True | Err e => exn_class e = LayoutParseError end.
Proof. unfold parse_leaf. by destruct (match_leaf t). Qed.

Lemma parser_settles n :
  (∀ ts, (4 * length ts + 3 <= n)%nat → settles 1 ts (parse_horizontal n ts)) ∧
  (∀ a ts, (4 * length ts + 1 <= n)%nat → settles 0 ts (horizontal_loop n a ts)) ∧
  (∀ ts, (4 * length ts + 2 <= n)%nat → settles 1 ts (parse_vertical n ts)) ∧
  (∀ a ts, (4 * length ts + 1 <= n)%nat → settles 0 ts (vertical_loop n a ts)) ∧
  (∀ ts, (4 * length ts + 1 <= n)%nat → settles 1 ts (parse_primary n ts)).
Proof.
  assert (weaken : ∀ s s' us ts r, settles s us r → (length us + s' <= length ts + s)%nat →
    settles s' ts r) by (intros s s' us ts [p|e] H L; cbn in *; [lia|done]).
  induction n as [|n (IH & IHl & IV & IVl & IP)]; [repeat split; intros; lia|].
  repeat split; cbn [parse_horizontal horizontal_loop parse_vertical vertical_loop parse_primary].
  - intros ts Hn. eapply parse_settles_bind; [apply (IV ts); lia|]. intros p Hp; cbn in Hp.
    eapply weaken; [apply (IHl p.1 p.2); lia|lia].
  - intros a ts Hn. destruct (next_is ts ";"); [|cbn; lia].
    eapply parse_settles_bind; [apply consume_settles|]. intros ts' H'; cbn in H'.
    eapply parse_settles_bind; [apply (IV ts'); lia|]. intros p Hp; cbn in Hp.
    eapply weaken; [apply IHl; lia|lia].
  - intros ts Hn. eapply parse_settles_bind; [apply (IP ts); lia|]. intros p Hp; cbn in Hp.
    eapply weaken; [apply (IVl p.1 p.2); lia|lia].
  - intros a ts Hn. destruct (next_is ts ","); [|cbn; lia].
    eapply parse_settles_bind; [apply consume_settles|]. intros ts' H'; cbn in H'.
    eapply parse_settles_bind; [apply (IP ts'); lia|]. intros p Hp; cbn in Hp.
    eapply weaken; [apply IVl; lia|lia].
  - intros [|t r] Hn; [done|]. cbn in Hn. destruct (String.eqb t "(").
    + eapply parse_settles_bind; [apply consume_settles|]. intros ts' H'; cbn in H'.
      eapply parse_settles_bind; [apply (IH ts'); lia|]. intros p Hp; cbn in Hp.
      eapply parse_settles_bind; [apply consume_settles|]. intros q Hq; cbn in *. lia.
    + destruct (mem_str t _); [done|].
      eapply parse_settles_bind; [apply parse_leaf_settles|]. intros l _; cbn. lia.
Qed.

(** Enough fuel gives the answer of any fuel that gives one. *)
Lemma parse_horizontal_fuel n ts p :
  parse_horizontal n ts = Ok p → parse_horizontal (parse_fuel ts) ts = Ok p.
Proof.
  intros H.
  assert (Hf : ¬ starved (parse_horizontal (parse_fuel ts) ts)).
  { pose proof (proj1 (parser_settles (parse_fuel ts)) ts (Nat.le_refl _)) as Hs.
    destruct (parse_horizontal (parse_fuel ts) ts); intros Hx; [exact Hx|cbn in Hs, Hx; congruence]. }
  rewrite <-(fed_le (λ n, parse_horizontal n ts) (λ n, proj1 (parser_step n) ts)
    (parse_fuel ts) (Nat.max n (parse_fuel ts)) (Nat.le_max_r _ _) Hf).
  apply (fed_ok_le (λ n, parse_horizontal n ts) (λ n, proj1 (parser_step n) ts) n); [lia|done].
Qed.

(** ** Completeness: the parser accepts every sentence *)

Lemma match_leaf_not_special t l :
  match_leaf t = Some l → String.eqb t "(" = false ∧ mem_str t [")"; ";"; ","] = false.
Proof.
  intros H. split.
  - apply String.eqb_neq. intros ->. discriminate H.
  - destruct (mem_str t _) eqn:E; [|done]. apply mem_str_spec in E. exfalso.
    rewrite !list_elem_of_In in E. cbn in E. destruct E as [<-|[<-|[<-|[]]]]; discriminate H.
Qed.

Lemma parser_complete :
  (∀ us t, h_expr us t → ∀ rest n p, next_is rest "," = false →
     horizontal_loop n t rest = Ok p → ∃ m, parse_horizontal m (us ++ rest) = Ok p) ∧
  (∀ us t, v_expr us t → ∀ rest n p, vertical_loop n t rest = Ok p →
     ∃ m, parse_vertical m (us ++ rest) = Ok p) ∧
  (∀ us t, p_expr us t → ∀ rest, ∃ m, parse_primary m (us ++ rest) = Ok (t, rest)).
Proof.
  apply expr_ind.
  - intros ts t _ IH rest n p Hn Hp.
    destruct (IH rest 1%nat (t, rest)) as [m Hm]; [cbn; by rewrite Hn|].
    exists (S (Nat.max n m)). cbn.
    rewrite (parse_vertical_le _ m _ _ (Nat.le_max_r _ _) Hm).
    by apply (horizontal_loop_le _ _ n), Hp; lia.
  - intros ts us a b _ IHa _ IHb rest n p Hn Hp. rewrite <-app_assoc. cbn.
    destruct (IHb rest 1%nat (b, rest)) as [m Hm]; [cbn; by rewrite Hn|].
    apply (IHa (";" :: us ++ rest) (S (Nat.max n m)) p eq_refl). cbn.
    rewrite (parse_vertical_le _ m _ _ (Nat.le_max_r _ _) Hm).
    by apply (horizontal_loop_le _ _ n), Hp; lia.
  - intros ts t _ IH rest n p Hp. destruct (IH rest) as [m Hm].
    exists (S (Nat.max n m)). cbn.
    rewrite (parse_primary_le _ m _ _ (Nat.le_max_r _ _) Hm).
    by apply (vertical_loop_le _ _ n), Hp; lia.
  - intros ts us a b _ IHa _ IHb rest n p Hp. rewrite <-app_assoc. cbn.
    destruct (IHb rest) as [m Hm].
    apply (IHa ("," :: us ++ rest) (S (Nat.max n m)) p). cbn.
    rewrite (parse_primary_le _ m _ _ (Nat.le_max_r _ _) Hm).
    by apply (vertical_loop_le _ _ n), Hp; lia.
  - intros t l Hl rest. exists 1%nat. cbn -[mem_str].
    destruct (match_leaf_not_special _ _ Hl) as [-> ->]. unfold parse_leaf. by rewrite Hl.
  - intros ts t _ IH rest.
    destruct (IH (")" :: rest) 1%nat (t, ")" :: rest)) as [m Hm]; [done..|].
    exists (S m). cbn. rewrite <-app_assoc. cbn. by rewrite Hm.
Qed.

(** ** The parser is the grammar *)

Lemma parse_tokens_spec ts t : parse_tokens ts = Ok t ↔ h_expr ts t.
Proof.
  unfold parse_tokens. split.
  - intros H. apply raise_if_Ok in H as [_ H].
    apply result_bind_Ok in H as ([t' [|x r]] & (us & -> & E)%(proj1 (parser_sound _)) & H); [|done].
    cbn in *. injection H as <-. by rewrite app_nil_r.
  - intros H. destruct (proj1 parser_complete ts t H [] 1%nat (t, [])) as [m Hm]; [done..|].
    rewrite app_nil_r in Hm. destruct (bool_decide_reflect (ts = [])) as [->|_].
    + destruct m as [|[|[|m]]]; discriminate Hm.
    + by rewrite (parse_horizontal_fuel _ _ _ Hm).
Qed.

Lemma parse_tokens_error ts e : parse_tokens ts = Err e → exn_class e = LayoutParseError.
Proof.
  unfold parse_tokens. destruct (bool_decide (ts = [])); [by intros [= <-]|].
  pose proof (proj1 (parser_settles (parse_fuel ts)) ts (Nat.le_refl _)) as Hs.
  destruct (parse_horizontal (parse_fuel ts) ts) as [[t [|x r]]|e']; cbn in *;
    [done| |]; by intros [= <-].
Qed.
