(* ===== verification/LayoutRender.v ===== *)
(** Leaves of a layout: what [match_leaf] accepts ([leaf_ok]), that it reads
    [render_leaf] back, and that a rendered leaf is one token.

    Rendering and reading back: the tree the parser builds from a rendered layout is
    its left-associated form ([reassoc]), which keeps the leaves, the weights and the
    text; the tokens of a rendered layout are [tokens_of] it. *)

From Stdlib Require Import Ascii String ZArith Lia.
From stdpp Require Import base list strings pretty.
From S2P Require Import Prelude PyData Names Text Layout LayoutParser LayoutGrammar.

Local Open Scope Z_scope.

(** ** Well-formed leaves *)

Definition leaf_name_ok (s : string) : bool :=
  match s with
  | String c r => is_alpha c && str_forall name_char r && (String.length r <=? 63)%nat
  | EmptyString => false
  end.

Definition provider_ok (p : string) : bool := truthy p && str_forall name_tail_char p.

(** The leaves the language can express: a mode only with a provider, a positive
    weight, a non-negative percentage. *)
Definition leaf_ok (l : LayoutLeaf) : bool :=
  leaf_name_ok (ll_name l) &&
  match ll_provider l, ll_workspace_mode l with
  | None, None => true
  | Some p, None => provider_ok p
  | Some p, Some m => provider_ok p && String.eqb m "worktree"
  | None, Some _ => false
  end &&
  (1 <=? ll_weight l) &&
  match ll_percent l with Some n => 0 <=? n | None => true end.

(** ** Runs of a class *)

Lemma span_app p a b :
  str_forall p a = true → stops p b = true → span p (String.append a b) = (a, b).
Proof.
  intros Ha Hb. induction a as [|c a IH]; [|rewrite append_cons]; cbn in *.
  - rewrite append_nil_l. destruct b as [|c b]; [done|]. cbn in *. by destruct (p c).
  - apply andb_true_iff in Ha as [Hc Ha]. by rewrite Hc, IH.
Qed.

Lemma span_forall p s : str_forall p (span p s).1 = true.
Proof.
  induction s as [|c r IH]; cbn; [done|]. destruct (p c) eqn:E; cbn; [|done]. by rewrite E.
Qed.

(** ** The pattern accepts only well-formed leaves *)

Lemma match_mode_cases s m r : match_mode s = (m, r) → m = None ∨ m = Some "worktree".
Proof. unfold match_mode. repeat case_match; intros [= <- <-]; auto. Qed.

Lemma match_provider_ok s p m r :
  match_provider s = (p, m, r) →
  match p, m with
  | None, None => true
  | Some p, None => provider_ok p
  | Some p, Some m => provider_ok p && String.eqb m "worktree"
  | None, Some _ => false
  end = true.
Proof.
  unfold match_provider, provider_ok. intros H.
  destruct (eat ":" s) as [q|]; [|by injection H as <- <- <-].
  pose proof (span_forall name_tail_char (lstrip q)) as Hs.
  destruct (truthy (span name_tail_char (lstrip q)).1) eqn:Ht; [|by injection H as <- <- <-].
  destruct (match_mode (span name_tail_char (lstrip q)).2) as [m' r'] eqn:Em.
  cbn in H. injection H as <- <- <-. rewrite Ht, Hs.
  by destruct (match_mode_cases _ _ _ Em) as [-> | ->].
Qed.

Lemma match_weight_pos s w r :
  match_weight s = (w, r) → 1 <= match w with Some w => digits_int w | None => 1 end.
Proof.
  unfold match_weight. intros H.
  destruct (eat "(" s) as [q|]; [|injection H as <- _; lia].
  destruct (lstrip q) as [|c r']; [injection H as <- _; lia|].
  destruct (nonzero_digit c) eqn:Ec; [|injection H as <- _; lia].
  destruct (eat ")" (span is_digit r').2); [|injection H as <- _; lia].
  injection H as <- _. unfold digits_int.
  by destruct (parse_int_pos c (span is_digit r').1 Ec (span_forall _ _)) as (v & -> & Hv).
Qed.

Lemma match_percent_nonneg s p r :
  match_percent s = (p, r) → match option_map digits_int p with Some n => 0 <=? n | None => true end = true.
Proof.
  unfold match_percent. intros H.
  destruct (eat "@" s) as [q|]; [|by injection H as <- _].
  pose proof (span_forall is_digit (lstrip q)) as Hs.
  destruct (truthy (span is_digit (lstrip q)).1) eqn:Ht; [|by injection H as <- _].
  injection H as <- _. cbn. unfold digits_int.
  destruct (parse_int_nonneg (span is_digit (lstrip q)).1) as (v & -> & Hv); [|cbn; lia].
  unfold digits. by rewrite Ht, Hs.
Qed.

Lemma match_leaf_ok t l : match_leaf t = Some l → leaf_ok l = true.
Proof.
  unfold match_leaf. destruct t as [|c r]; [done|].
  pose proof (span_forall name_char r) as Hn.
  destruct (is_alpha c && (String.length (span name_char r).1 <=? 63)%nat) eqn:E; [|done].
  apply andb_true_iff in E as [Ec El].
  destruct (match_provider (span name_char r).2) as [[p m] s1] eqn:Ep.
  destruct (match_weight s1) as [w s2] eqn:Ew.
  destruct (match_percent s2) as [q s3] eqn:Eq.
  destruct (truthy s3); [done|]. intros [= <-].
  unfold leaf_ok, leaf_name_ok. cbn [ll_name ll_provider ll_workspace_mode ll_weight ll_percent].
  rewrite Ec, Hn, El, (match_provider_ok _ _ _ _ Ep), (match_percent_nonneg _ _ _ Eq).
  pose proof (match_weight_pos _ _ _ Ew) as Hw. cbn -[Z.leb].
  rewrite andb_true_r. by apply Z.leb_le.
Qed.

(** ** A rendered leaf is read back *)

Definition weight_text (w : Z) : string :=
  if w =? 1 then "" else String.append "(" (String.append (pretty w) ")").
Definition percent_text (q : option Z) : string :=
  match q with Some p => String.append "@" (pretty p) | None => "" end.
Definition mode_text (m : option string) : string := if is_worktree m then "(worktree)" else "".
Definition provider_text (p m : option string) : string :=
  match p with
  | Some (String _ _ as p) => String.append ":" (String.append p (mode_text m))
  | _ => ""
  end.
Definition suffix_text (w : Z) (q : option Z) : string :=
  String.append (weight_text w) (percent_text q).

Lemma render_leaf_eq l :
  render_leaf l = String.append (ll_name l)
    (String.append (provider_text (ll_provider l) (ll_workspace_mode l))
                   (suffix_text (ll_weight l) (ll_percent l))).
Proof.
  unfold render_leaf, provider_text, suffix_text, weight_text, percent_text, mode_text.
  destruct (ll_provider l) as [[|c p]|]; rewrite ?append_nil_l; try done.
  by rewrite !append_assoc.
Qed.

Lemma digits_int_pretty n : 0 <= n → digits_int (pretty n) = n.
Proof. intros H. unfold digits_int. by rewrite parse_int_pretty. Qed.

Lemma eat_here x r : is_space x = false → eat x (String x r) = Some r.
Proof. intros H. unfold eat. rewrite lstrip_head_no_space by done. by rewrite Ascii.eqb_refl. Qed.

Lemma eat_other x c r : is_space c = false → Ascii.eqb c x = false → eat x (String c r) = None.
Proof. intros H Hx. unfold eat. rewrite lstrip_head_no_space by done. by rewrite Hx. Qed.

Lemma lstrip_digits s r : digits s = true → lstrip (String.append s r) = String.append s r.
Proof.
  unfold digits. intros [Ht H]%andb_true_iff. destruct s as [|c s]; [done|]. rewrite append_cons.
  cbn in H. apply andb_true_iff in H as [Hc _]. by apply lstrip_head_no_space, digit_no_space.
Qed.

Lemma match_percent_text q :
  match q with Some n => 0 <=? n | None => true end = true →
  match_percent (percent_text q) = (option_map pretty q, "").
Proof.
  destruct q as [n|]; [|done]. intros Hn%Z.leb_le. cbn [percent_text].
  pose proof (pretty_digits n Hn) as Hd.
  unfold match_percent. change (String.append "@" (pretty n)) with (String "@" (pretty n)).
  rewrite eat_here by done. rewrite <-(append_nil_r (pretty n)), lstrip_digits by done.
  apply andb_true_iff in Hd as [Ht Hd].
  rewrite span_app by done. cbn [fst snd]. by rewrite Ht.
Qed.

Lemma percent_head q : percent_text q = "" ∨ ∃ r, percent_text q = String "@" r.
Proof. destruct q as [n|]; [right; by eexists|by left]. Qed.

Lemma weight_head w : 1 <= w →
  weight_text w = "" ∧ w = 1 ∨
  ∃ c r, weight_text w = String "(" (String c (String.append r ")")) ∧ pretty w = String c r ∧
    nonzero_digit c = true ∧ str_forall is_digit r = true ∧ (w =? 1) = false.
Proof.
  intros Hw. unfold weight_text. destruct (Z.eqb_spec w 1) as [->|Hn]; [by left|right].
  destruct (pretty_pos_head w Hw) as (c & r & -> & Hc & Hr). by exists c, r.
Qed.

Lemma match_weight_text w q :
  1 <= w → match_weight (suffix_text w q) = (if w =? 1 then None else Some (pretty w), percent_text q).
Proof.
  intros Hw. unfold suffix_text.
  destruct (weight_head w Hw) as [[-> ->]|(c & r & -> & Hp & Hc & Hr & Hw1)].
  - rewrite append_nil_l. by destruct (percent_head q) as [->|[r ->]].
  - rewrite Hp, Hw1. unfold match_weight. rewrite !append_cons, eat_here by done.
    assert (is_space c = false).
    { apply digit_no_space. unfold nonzero_digit, is_digit, in_range in *. lia. }
    rewrite lstrip_head_no_space, Hc, append_assoc by done.
    rewrite span_app by done. cbn [fst snd]. rewrite append_cons, eat_here by done.
    by rewrite append_nil_l.
Qed.

(** What follows the name or the provider: nothing, a parenthesis or an at sign. *)
Lemma suffix_head w q : 1 <= w →
  suffix_text w q = "" ∨ ∃ c r, suffix_text w q = String c r ∧ (c = "("%char ∨ c = "@"%char).
Proof.
  intros Hw. unfold suffix_text.
  destruct (weight_head w Hw) as [[-> _]|(c & r & -> & _)].
  - rewrite append_nil_l. destruct (percent_head q) as [->|[r ->]]; [by left|right; eauto].
  - right. rewrite append_cons. eauto.
Qed.

Lemma match_mode_text m w q :
  m = None ∨ m = Some "worktree" → 1 <= w →
  match_mode (String.append (mode_text m) (suffix_text w q)) = (m, suffix_text w q).
Proof.
  intros Hm Hw. destruct Hm as [->| ->].
  - change (mode_text None) with "". rewrite append_nil_l. unfold suffix_text.
    destruct (weight_head w Hw) as [[-> _]|(c & r & -> & _ & Hc & _)].
    + rewrite append_nil_l. by destruct (percent_head q) as [->|[r ->]].
    + rewrite !append_cons. unfold match_mode. rewrite eat_here by done. unfold eat_word.
      assert (is_space c = false).
      { apply digit_no_space. unfold nonzero_digit, is_digit, in_range in *. lia. }
      rewrite lstrip_head_no_space by done.
      revert Hc. by destruct c as [[] [] [] [] [] [] [] []].
  - generalize (suffix_text w q). reflexivity.
Qed.

Lemma stops_suffix p m w q :
  m = None ∨ m = Some "worktree" → 1 <= w → p "("%char = false → p "@"%char = false →
  stops p (String.append (mode_text m) (suffix_text w q)) = true.
Proof.
  intros Hm Hw H1 H2. destruct Hm as [->| ->].
  - change (mode_text None) with "". rewrite append_nil_l.
    destruct (suffix_head w q Hw) as [->|(c & r & -> & [->| ->])]; cbn; by rewrite ?H1, ?H2.
  - cbn. change (negb (p "("%char) = true). by rewrite H1.
Qed.

Lemma match_provider_text p m w q :
  match p, m with
  | None, None => true
  | Some p, None => provider_ok p
  | Some p, Some m => provider_ok p && String.eqb m "worktree"
  | None, Some _ => false
  end = true → 1 <= w →
  match_provider (String.append (provider_text p m) (suffix_text w q)) = (p, m, suffix_text w q).
Proof.
  intros Hpm Hw. destruct p as [p|].
  - assert (provider_ok p = true ∧ (m = None ∨ m = Some "worktree")) as [Hp Hm].
    { destruct m as [m|]; [|by auto]. apply andb_true_iff in Hpm as [? ->%String.eqb_eq]. auto. }
    apply andb_true_iff in Hp as [Ht Hp]. destruct p as [|c p]; [done|]. cbn [provider_text].
    unfold match_provider.
    rewrite !append_cons, append_nil_l, !append_cons, eat_here, append_assoc by done.
    rewrite lstrip_head_no_space.
    2:{ cbn in Hp. apply andb_true_iff in Hp as [Hc _]. by apply tail_not_space. }
    rewrite <-(append_cons c p), span_app by (done || by apply stops_suffix). cbn [fst snd truthy].
    by rewrite match_mode_text.
  - destruct m as [m|]; [done|]. cbn [provider_text]. rewrite append_nil_l.
    unfold match_provider.
    by destruct (suffix_head w q Hw) as [->|(c & r & -> & [->| ->])].
Qed.

Lemma stops_provider p m w q :
  match p, m with
  | None, None => true
  | Some p, None => provider_ok p
  | Some p, Some m => provider_ok p && String.eqb m "worktree"
  | None, Some _ => false
  end = true → 1 <= w →
  stops name_char (String.append (provider_text p m) (suffix_text w q)) = true.
Proof.
  intros Hpm Hw. destruct p as [[|c p]|]; [by destruct m|done|].
  destruct m as [m|]; [done|]. cbn [provider_text]. rewrite append_nil_l.
  by destruct (suffix_head w q Hw) as [->|(c & r & -> & [->| ->])].
Qed.

Lemma leaf_roundtrip l : leaf_ok l = true → match_leaf (render_leaf l) = Some l.
Proof.
  intros H. rewrite render_leaf_eq. destruct l as [n p m w q].
  unfold leaf_ok in H. cbn in H |- *.
  apply andb_true_iff in H as [[[Hn Hpm]%andb_true_iff Hw%Z.leb_le]%andb_true_iff Hq].
  destruct n as [|c r]; [done|]. cbn in Hn.
  apply andb_true_iff in Hn as [[Hc Hr]%andb_true_iff Hl].
  rewrite append_cons. unfold match_leaf.
  rewrite span_app by (done || by apply stops_provider). cbn [fst snd].
  rewrite Hc, Hl, match_provider_text, match_weight_text, match_percent_text by done.
  cbn. f_equal. f_equal.
  - destruct (Z.eqb_spec w 1) as [->|_]; [done|]. apply digits_int_pretty. lia.
  - destruct q as [n|]; [|done]. cbn. f_equal. apply digits_int_pretty. by apply Z.leb_le.
Qed.

(** ** Left association *)

(** [reassoc t]; [append_items k n t] hangs the items of a [k]-chain [t] on the tree
    [n], one after the other. *)
Fixpoint reassoc (t : LayoutNode) : LayoutNode :=
  match t with
  | Leaf _ => t
  | Branch k a b => append_items k (reassoc a) b
  end
with append_items (k : split_kind) (n : LayoutNode) (t : LayoutNode) : LayoutNode :=
  match t with
  | Leaf _ => Branch k n t
  | Branch k' a b =>
      match k, k' with
      | Horizontal, Horizontal | Vertical, Vertical => append_items k (append_items k n a) b
      | _, _ => Branch k n (append_items k' (reassoc a) b)
      end
  end.

(** No chain continues in a right child. *)
Fixpoint left_normal (t : LayoutNode) : bool :=
  match t with
  | Leaf _ => true
  | Branch k a b => left_normal a && left_normal b && bool_decide (node_kind b ≠ Some k)
  end.

Definition layout_ok (t : LayoutNode) : Prop := Forall (λ l, leaf_ok l = true) (iter_leaves t).

Lemma layout_ok_leaf l : layout_ok (Leaf l) ↔ leaf_ok l = true.
Proof. apply (Forall_singleton (λ l, leaf_ok l = true)). Qed.

Lemma layout_ok_branch k a b : layout_ok (Branch k a b) ↔ layout_ok a ∧ layout_ok b.
Proof. apply Forall_app. Qed.

Lemma append_items_eq k n t :
  append_items k n t =
    match t with
    | Branch k' a b => if decide (k = k') then append_items k (append_items k n a) b
                       else Branch k n (reassoc t)
    | Leaf _ => Branch k n t
    end.
Proof. by destruct t as [l|[] a b], k. Qed.

Lemma append_items_other k n t : node_kind t ≠ Some k → append_items k n t = Branch k n (reassoc t).
Proof.
  intros H. rewrite append_items_eq. destruct t as [l|k' a b]; [done|].
  case_decide; [|done]. subst. done.
Qed.

Lemma append_items_same k n a b :
  append_items k n (Branch k a b) = append_items k (append_items k n a) b.
Proof. rewrite append_items_eq. by case_decide. Qed.

(** A statement about [reassoc t], and one about [append_items k n t] for every [n],
    proved together. *)
Lemma reassoc_ind (P : LayoutNode → Prop) (Q : split_kind → LayoutNode → Prop) :
  (∀ l, P (Leaf l)) →
  (∀ k a b, P a → Q k b → P (Branch k a b)) →
  (∀ k t, node_kind t ≠ Some k → P t → Q k t) →
  (∀ k a b, Q k a → Q k b → Q k (Branch k a b)) →
  ∀ t, P t ∧ ∀ k, Q k t.
Proof.
  intros HL HB HO HS t. induction t as [l|k a [IHa IHqa] b [IHb IHqb]].
  - split; [done|]. intros k. by apply HO.
  - assert (P (Branch k a b)) by by apply HB. split; [done|]. intros k'.
    destruct (decide (k = k')) as [->|Hk]; [by apply HS|]. apply HO; [|done]. cbn. congruence.
Qed.

Lemma reassoc_leaves t : iter_leaves (reassoc t) = iter_leaves t.
Proof.
  revert t. enough (∀ t, iter_leaves (reassoc t) = iter_leaves t ∧
    ∀ (k : split_kind) n, iter_leaves (append_items k n t) = iter_leaves n ++ iter_leaves t)
    as H by (intros t; apply H).
  apply reassoc_ind.
  - done.
  - intros k a b Ha Hb. cbn. by rewrite Hb, Ha.
  - intros k t Hk Ht n. rewrite append_items_other by done. cbn. by rewrite Ht.
  - intros k a b Ha Hb n. rewrite append_items_same. cbn. by rewrite Hb, Ha, app_assoc.
Qed.

Lemma reassoc_weight t : weight_sum (reassoc t) = weight_sum t.
Proof.
  revert t. enough (∀ t, weight_sum (reassoc t) = weight_sum t ∧
    ∀ (k : split_kind) n, weight_sum (append_items k n t) = weight_sum n + weight_sum t)
    as H by (intros t; apply H).
  apply reassoc_ind.
  - done.
  - intros k a b Ha Hb. cbn. by rewrite Hb, Ha.
  - intros k t Hk Ht n. rewrite append_items_other by done. cbn. by rewrite Ht.
  - intros k a b Ha Hb n. rewrite append_items_same. cbn. rewrite Hb, Ha. lia.
Qed.

Lemma node_kind_append k n t : node_kind (append_items k n t) = Some k.
Proof.
  revert n. induction t as [l|k' a _ b IHb]; intros n; [done|].
  rewrite append_items_eq. by case_decide.
Qed.

Lemma reassoc_kind t : node_kind (reassoc t) = node_kind t.
Proof. destruct t as [l|k a b]; [done|]. apply node_kind_append. Qed.

Lemma reassoc_normal t : left_normal (reassoc t) = true.
Proof.
  revert t. enough (∀ t, left_normal (reassoc t) = true ∧
    ∀ (k : split_kind) n, left_normal n = true → left_normal (append_items k n t) = true)
    as H by (intros t; apply H).
  apply reassoc_ind.
  - done.
  - intros k a b Ha Hb. by apply Hb.
  - intros k t Hk Ht n Hn. rewrite append_items_other by done. cbn. rewrite Hn, Ht, reassoc_kind.
    by apply bool_decide_eq_true_2.
  - intros k a b Ha Hb n Hn. rewrite append_items_same. by apply Hb, Ha.
Qed.

Lemma reassoc_id t : left_normal t = true → reassoc t = t.
Proof.
  induction t as [l|k a IHa b IHb]; [done|]. cbn.
  intros [[Ha Hb]%andb_true_iff Hk%bool_decide_eq_true]%andb_true_iff.
  rewrite append_items_other by done. by rewrite IHa, IHb.
Qed.

(** ** The text does not depend on the association *)

(** The last two branches of [render_child] give the text as it is. *)
Lemma wrap_child_eq k t text :
  wrap_child k t text =
    if is_leaf t then text
    else if node_rank t <? precedence k then String.append "(" (String.append text ")") else text.
Proof. by destruct t as [l|[] a b], k. Qed.

Lemma wrap_child_kind k a b text :
  node_kind a = node_kind b → wrap_child k a text = wrap_child k b text.
Proof.
  intros H. rewrite !wrap_child_eq.
  destruct a as [l|ka xa ya], b as [l'|kb xb yb]; [done| | |]; by inversion H.
Qed.

Lemma wrap_child_same k t text : node_kind t = Some k → wrap_child k t text = text.
Proof.
  destruct t as [l|k' a b]; [done|]. intros [= ->]. rewrite wrap_child_eq. cbn.
  by rewrite Z.ltb_irrefl.
Qed.

Lemma render_reassoc t : render (reassoc t) = render t.
Proof.
  revert t. enough (∀ t, render (reassoc t) = render t ∧
    ∀ (k : split_kind) n, render (append_items k n t) =
      String.append (wrap_child k n (render n))
        (String (separator k) (String " " (wrap_child k t (render t)))))
    as H by (intros t; apply H).
  apply reassoc_ind.
  - done.
  - intros k a b Ha Hb. cbn [reassoc render]. rewrite Hb, Ha.
    by rewrite (wrap_child_kind k _ a _ (reassoc_kind a)).
  - intros k t Hk Ht n. rewrite append_items_other by done. cbn [render]. rewrite Ht.
    by rewrite (wrap_child_kind k _ t _ (reassoc_kind t)).
  - intros k a b Ha Hb n. rewrite append_items_same, Hb, Ha.
    rewrite (wrap_child_same k (append_items k n a)) by apply node_kind_append.
    rewrite (wrap_child_same k (Branch k a b)) by done.
    cbn [render]. by rewrite append_assoc, !append_cons.
Qed.

(** ** The tokens of a layout, and the grammar *)

Definition child_tokens (k : split_kind) (t : LayoutNode) (ts : list string) : list string :=
  if is_leaf t then ts
  else if node_rank t <? precedence k then "(" :: ts ++ [")"] else ts.

Fixpoint tokens_of (t : LayoutNode) : list string :=
  match t with
  | Leaf l => [render_leaf l]
  | Branch k a b =>
      child_tokens k a (tokens_of a) ++ char_str (separator k) :: child_tokens k b (tokens_of b)
  end.

(** The production a tree of a chain of kind [k] continues. *)
Definition chain_expr (k : split_kind) : list string → LayoutNode → Prop :=
  match k with Horizontal => h_expr | Vertical => v_expr end.
Definition item_expr (k : split_kind) : list string → LayoutNode → Prop :=
  match k with Horizontal => v_expr | Vertical => p_expr end.

Lemma chain_one k ts t : item_expr k ts t → chain_expr k ts t.
Proof. destruct k; [apply h_one|apply v_one]. Qed.

Lemma chain_more k ts us a b :
  chain_expr k ts a → item_expr k us b →
  chain_expr k (ts ++ char_str (separator k) :: us) (Branch k a b).
Proof. destruct k; [apply h_more|apply v_more]. Qed.

Lemma expr_p_h ts t : p_expr ts t → h_expr ts t.
Proof. auto with ccb. Qed.

Lemma child_tokens_same k t ts : node_kind t = Some k → child_tokens k t ts = ts.
Proof.
  destruct t as [l|k' a b]; [done|]. cbn. intros [= ->].
  unfold child_tokens. cbn. by rewrite Z.ltb_irrefl.
Qed.

Lemma tokens_grammar t : layout_ok t → h_expr (tokens_of t) (reassoc t).
Proof.
  enough (H : ∀ t, (layout_ok t →
      chain_expr Horizontal (child_tokens Horizontal t (tokens_of t)) (reassoc t) ∧
      ∀ k, chain_expr k (child_tokens k t (tokens_of t)) (reassoc t)) ∧
    ∀ (k : split_kind), layout_ok t → ∀ us n, chain_expr k us n →
      chain_expr k (us ++ char_str (separator k) :: child_tokens k t (tokens_of t))
        (append_items k n t)).
  { intros Ht. destruct (proj1 (H t) Ht) as [H' _].
    destruct t as [l|[] a b]; exact H'. }
  clear t. assert (leaf : ∀ l, leaf_ok l = true → p_expr [render_leaf l] (Leaf l)).
  { intros l Hl. by apply p_leaf, leaf_roundtrip. }
  apply reassoc_ind.
  - intros l H. apply layout_ok_leaf, leaf in H.
    split; [by apply expr_p_h|]. intros []; [by apply expr_p_h|by apply v_one].
  - intros k a b Ha Hb H. apply layout_ok_branch in H as [H1 H2].
    destruct (Ha H1) as [_ Ha'].
    pose proof (Hb H2 _ _ (Ha' k)) as E.
    assert (all : chain_expr k (tokens_of (Branch k a b)) (reassoc (Branch k a b))) by exact E.
    destruct k.
    + split; [exact all|]. intros []; [exact all|]. by apply v_one, p_group.
    + split; [by apply h_one|]. intros []; [by apply h_one|exact all].
  - intros k t Hk Ht H us n Hn. rewrite append_items_other by done. apply chain_more; [done|].
    destruct (Ht H) as [_ Hc]. clear Ht.
    destruct k; [|destruct t as [l|[] a b]].
    + destruct t as [l|[] a b]; [|done|exact (Hc Vertical)].
      apply layout_ok_leaf, leaf in H. by apply v_one.
    + apply layout_ok_leaf, leaf in H. exact H.
    + apply p_group. exact (Hc Horizontal).
    + done.
  - intros k a b Ha Hb H us n Hn. apply layout_ok_branch in H as [H1 H2].
    rewrite append_items_same. 
    rewrite child_tokens_same by done. cbn [tokens_of].
    rewrite (app_comm_cons _ _ (char_str _)), app_assoc.
    by apply Hb, Ha.
Qed.
