(* ===== verification/LayoutTokens.v ===== *)
(** Tokens of rendered layouts: the scanner of [tokenize] reads [render t] as
    [tokens_of t].  With the grammar this gives the round trip of the language. *)

From Stdlib Require Import Ascii String ZArith Lia.
From stdpp Require Import base list strings pretty.
From S2P Require Import Prelude PyData Names Text Layout LayoutParser LayoutGrammar LayoutRender.

Local Open Scope Z_scope.

(** ** The scanner without its bound on rounds *)

Lemma find_close_length s inner rest :
  find_close s = Some (inner, rest) → (String.length rest <= String.length s)%nat.
Proof.
  revert inner rest. induction s as [|c s IH]; intros inner rest H; cbn in H; [done|].
  destruct (Ascii.eqb c ")"); [injection H as <- <-; cbn; lia|].
  destruct (find_close s) as [[i r]|]; [|done]. injection H as <- <-.
  specialize (IH _ _ eq_refl). cbn. lia.
Qed.

Lemma tokenize_line_rounds n m line buf ts :
  (String.length line <= n)%nat → (String.length line <= m)%nat →
  tokenize_line n line buf ts = tokenize_line m line buf ts.
Proof.
  revert m line buf ts. induction n as [|n IH]; intros m line buf ts Hn Hm;
    (destruct line as [|c r]; [by destruct m|]); cbn in Hn, Hm; [lia|].
  destruct m as [|m]; [lia|]. cbn [tokenize_line].
  assert (step : ∀ b us, tokenize_line n r b us = tokenize_line m r b us) by (intros; apply IH; lia).
  rewrite !step. destruct (_ && _); [|done].
  destruct (find_close r) as [[inner rest]|] eqn:E; [|done].
  apply find_close_length in E. apply IH; lia.
Qed.

Definition scan (line buf : string) (ts : list string) : list string :=
  tokenize_line (String.length line) line buf ts.

Lemma scan_nil buf ts : scan "" buf ts = append_leaf_token ts buf.
Proof. done. Qed.

Lemma scan_char c r buf ts :
  is_delimiter c = false → scan (String c r) buf ts = scan r (String.append buf (char_str c)) ts.
Proof.
  intros H. unfold scan. cbn [String.length tokenize_line]. rewrite H.
  assert (Ascii.eqb c "(" = false) as -> by (unfold is_delimiter in H; by destruct (Ascii.eqb c "(")).
  done.
Qed.

Lemma scan_delimiter c r buf ts :
  is_delimiter c = true → Ascii.eqb c "(" && negb (blank buf) = false →
  scan (String c r) buf ts = scan r "" (append_leaf_token ts buf ++ [char_str c]).
Proof. intros H Hb. unfold scan. cbn [String.length tokenize_line]. by rewrite H, Hb. Qed.

Lemma scan_group inner rest buf ts :
  blank buf = false → str_forall (λ c, negb (Ascii.eqb c ")")) inner = true →
  scan (String "(" (String.append inner (String ")" rest))) buf ts =
  scan rest (String.append buf (String "(" (String.append inner ")"))) ts.
Proof.
  intros Hb Hi. unfold scan at 1. cbn [String.length tokenize_line]. rewrite Hb.
  assert (find_close (String.append inner (String ")" rest)) = Some (String.append inner ")", rest)) as E.
  { induction inner as [|c inner IH]; [done|]. rewrite !append_cons. cbn in Hi |- *.
    apply andb_true_iff in Hi as [Hc%negb_true_iff Hi]. by rewrite Hc, IH. }
  rewrite E. change (Ascii.eqb "(" "(" && negb false) with true. cbv iota.
  apply tokenize_line_rounds; [|done]. by apply find_close_length in E.
Qed.

Lemma scan_run a rest buf ts :
  str_forall (λ c, negb (is_delimiter c)) a = true →
  scan (String.append a rest) buf ts = scan rest (String.append buf a) ts.
Proof.
  revert buf. induction a as [|c a IH]; intros buf H; [by rewrite append_nil_r|].
  cbn in H. apply andb_true_iff in H as [Hc%negb_true_iff Ha].
  rewrite append_cons, scan_char, IH by done. by rewrite append_assoc.
Qed.

(** ** White space and blank buffers *)

Definition spaces (s : string) : bool := str_forall is_space s.

Lemma rstrip_spaces s : spaces s = true → rstrip s = "".
Proof.
  induction s as [|c r IH]; [done|]. cbn. intros [Hc Hr]%andb_true_iff. by rewrite IH, Hc.
Qed.

Lemma lstrip_spaces a b : spaces a = true → lstrip (String.append a b) = lstrip b.
Proof.
  induction a as [|c a IH]; [done|]. cbn. intros [Hc Ha]%andb_true_iff.
  rewrite append_cons. cbn. by rewrite Hc, IH.
Qed.

Lemma spaces_blank s : spaces s = true → blank s = true.
Proof.
  intros H. unfold blank, strip. rewrite <-(append_nil_r s), lstrip_spaces by done. done.
Qed.

Lemma strip_after_spaces a b : spaces a = true → no_space b = true → strip (String.append a b) = b.
Proof.
  intros Ha Hb. unfold strip. rewrite lstrip_spaces by done. by apply strip_no_space.
Qed.

Lemma blank_word a c r :
  is_space c = false → blank (String.append a (String c r)) = false.
Proof.
  intros Hc. unfold blank. apply negb_false_iff.
  unfold strip. assert (∃ x d q, lstrip (String.append a (String c r)) = String d (String.append x q)
    ∧ is_space d = false) as (x & d & q & -> & Hd).
  { induction a as [|e a IH]; [exists "", c, r; by rewrite !append_nil_l, lstrip_head_no_space|].
    rewrite append_cons. cbn. destruct (is_space e) eqn:E; [done|].
    by exists a, e, (String c r). }
  destruct (rstrip_head d (String.append x q) Hd) as [r' ->]. done.
Qed.

(** ** The tokens of a leaf *)

Lemma leaf_name_run : ∀ c, name_char c = true → negb (is_delimiter c) = true.
Proof. by_ascii. Qed.
Lemma provider_run : ∀ c, name_tail_char c = true → negb (is_delimiter c) = true.
Proof. by_ascii. Qed.
Lemma digit_run : ∀ c, is_digit c = true → negb (is_delimiter c) = true.
Proof. by_ascii. Qed.
Lemma digit_not_close : ∀ c, is_digit c = true → negb (Ascii.eqb c ")") = true.
Proof. by_ascii. Qed.

Lemma digits_forall p n :
  0 <= n → (∀ c, is_digit c = true → p c = true) → str_forall p (pretty n) = true.
Proof.
  intros Hn Hp. apply pretty_digits, andb_true_iff in Hn as [_ Hd].
  by apply (str_forall_mono _ _ _ Hp).
Qed.

Lemma scan_weight w rest buf ts :
  1 <= w → blank buf = false →
  scan (String.append (weight_text w) rest) buf ts = scan rest (String.append buf (weight_text w)) ts.
Proof.
  intros Hw Hb. unfold weight_text. destruct (w =? 1); [by rewrite append_nil_r|].
  rewrite !append_cons, append_nil_l, append_assoc, append_cons, append_nil_l.
  rewrite scan_group; [|done|].
  - done.
  - apply digits_forall; [lia|]. apply digit_not_close.
Qed.

Lemma scan_percent q rest buf ts :
  match q with Some n => 0 <=? n | None => true end = true →
  scan (String.append (percent_text q) rest) buf ts = scan rest (String.append buf (percent_text q)) ts.
Proof.
  intros Hq. apply scan_run. destruct q as [n|]; [|done]. cbn [percent_text].
  rewrite str_forall_app. apply digits_forall; [by apply Z.leb_le|]. apply digit_run.
Qed.

Lemma scan_provider p m rest buf ts :
  match p, m with
  | None, None => true
  | Some p, None => provider_ok p
  | Some p, Some m => provider_ok p && String.eqb m "worktree"
  | None, Some _ => false
  end = true →
  scan (String.append (provider_text p m) rest) buf ts = scan rest (String.append buf (provider_text p m)) ts.
Proof.
  intros Hpm. destruct p as [p|]; [|by rewrite append_nil_r].
  assert (provider_ok p = true ∧ (m = None ∨ m = Some "worktree")) as [Hp Hm].
  { destruct m as [m|]; [|by auto]. apply andb_true_iff in Hpm as [? ->%String.eqb_eq]. auto. }
  apply andb_true_iff in Hp as [Ht Hp]. destruct p as [|c p]; [done|]. cbn [provider_text].
  assert (run : str_forall (λ c, negb (is_delimiter c)) (String ":" (String c p)) = true).
  { cbn [str_forall]. rewrite andb_true_l. apply (str_forall_mono _ _ _ provider_run Hp). }
  change (String.append ":" (String.append (String c p) (mode_text m)))
    with (String.append (String ":" (String c p)) (mode_text m)).
  rewrite append_assoc, scan_run by done.
  destruct Hm as [->| ->]; [by rewrite append_nil_l, append_nil_r|].
  change (mode_text (Some "worktree")) with (String "(" (String.append "worktree" ")")).
  rewrite append_cons, append_assoc. change (String.append ")" rest) with (String ")" rest).
  rewrite scan_group; [by rewrite append_assoc| |done].
  by apply blank_word.
Qed.

Lemma scan_leaf l rest buf ts :
  leaf_ok l = true → spaces buf = true →
  scan (String.append (render_leaf l) rest) buf ts =
  scan rest (String.append buf (render_leaf l)) ts.
Proof.
  intros H Hb. rewrite render_leaf_eq. unfold suffix_text. destruct l as [n p m w q].
  unfold leaf_ok in H. cbn [ll_name ll_provider ll_workspace_mode ll_weight ll_percent] in *.
  apply andb_true_iff in H as [[[Hn Hpm]%andb_true_iff Hw%Z.leb_le]%andb_true_iff Hq].
  destruct n as [|c r]; [done|]. cbn in Hn.
  apply andb_true_iff in Hn as [[Hc Hr]%andb_true_iff Hl].
  assert (Hsp : is_space c = false) by by apply tail_not_space, alpha_tail.
  rewrite !append_assoc, scan_run.
  2:{ cbn [str_forall]. apply alpha_tail, provider_run in Hc. rewrite Hc.
      apply (str_forall_mono _ _ _ leaf_name_run Hr). }
  rewrite scan_provider by done.
  rewrite scan_weight; [|done|].
  2:{ rewrite append_assoc, append_cons. by apply blank_word. }
  rewrite scan_percent by done. by rewrite !append_assoc.
Qed.

Lemma leaf_no_space l : leaf_ok l = true → no_space (render_leaf l) = true ∧ truthy (render_leaf l) = true.
Proof.
  intros H. rewrite render_leaf_eq. unfold suffix_text. destruct l as [n p m w q].
  unfold leaf_ok in H. cbn [ll_name ll_provider ll_workspace_mode ll_weight ll_percent] in *.
  apply andb_true_iff in H as [[[Hn Hpm]%andb_true_iff Hw%Z.leb_le]%andb_true_iff Hq].
  assert (dig : ∀ n, 0 <= n → str_forall (λ c, negb (is_space c)) (pretty n) = true).
  { intros k Hk. apply digits_forall; [done|]. by_ascii. }
  split; [|by destruct n].
  unfold no_space. rewrite !str_forall_app. 
  assert (str_forall (λ c, negb (is_space c)) n = true) as ->.
  { destruct n as [|c r]; [done|]. cbn in Hn |- *.
    apply andb_true_iff in Hn as [[Hc Hr]%andb_true_iff _].
    rewrite tail_not_space by by apply alpha_tail.
    apply (str_forall_mono name_char); [by_ascii|done]. }
  assert (str_forall (λ c, negb (is_space c)) (provider_text p m) = true) as ->.
  { destruct p as [[|c p]|]; [done| |done]. cbn [provider_text].
    assert (provider_ok (String c p) = true) as [_ Hp]%andb_true_iff.
    { destruct m; [by apply andb_true_iff in Hpm as [? _]|done]. }
    rewrite !str_forall_app. rewrite (str_forall_mono name_tail_char _ (String c p)) by (done || by_ascii).
    unfold mode_text. by destruct (is_worktree m). }
  assert (str_forall (λ c, negb (is_space c)) (weight_text w) = true) as ->.
  { unfold weight_text. destruct (w =? 1); [done|]. rewrite !str_forall_app.
    by rewrite (dig w ltac:(lia)). }
  destruct q as [k|]; [|done]. cbn [percent_text]. rewrite str_forall_app. rewrite (dig k); [done|].
  by apply Z.leb_le.
Qed.

(** ** The tokens of a layout *)

(** [rest] ends the token being read. *)
Definition flushes (rest : string) : bool :=
  match rest with
  | EmptyString => true
  | String c _ => Ascii.eqb c ")" || Ascii.eqb c ";" || Ascii.eqb c ","
  end.

Lemma scan_flush rest buf ts :
  flushes rest = true → scan rest buf ts = scan rest "" (append_leaf_token ts buf).
Proof.
  destruct rest as [|c r]; [done|]. intros H. cbn in H.
  assert (is_delimiter c = true ∧ Ascii.eqb c "(" = false) as [Hd Hp].
  { revert H. by destruct c as [[] [] [] [] [] [] [] []]. }
  rewrite !scan_delimiter by (done || by rewrite Hp). done.
Qed.

Lemma append_leaf_word ts buf w :
  spaces buf = true → no_space w = true → truthy w = true →
  append_leaf_token ts (String.append buf w) = ts ++ [w].
Proof.
  intros Hb Hw Ht. unfold append_leaf_token. rewrite strip_after_spaces by done. by rewrite Ht.
Qed.

Lemma append_leaf_spaces ts buf : spaces buf = true → append_leaf_token ts buf = ts.
Proof.
  intros H. unfold append_leaf_token. rewrite <-(append_nil_r buf).
  by rewrite (strip_after_spaces buf "" H).
Qed.

Definition scans_as (text : string) (us : list string) : Prop :=
  ∀ rest buf ts, spaces buf = true → flushes rest = true →
    scan (String.append text rest) buf ts = scan rest "" (ts ++ us).

Lemma scan_child k t :
  scans_as (render t) (tokens_of t) →
  scans_as (wrap_child k t (render t)) (child_tokens k t (tokens_of t)).
Proof.
  intros IH. unfold child_tokens. rewrite wrap_child_eq.
  destruct (is_leaf t); [done|]. destruct (node_rank t <? precedence k); [|done].
  intros rest buf ts Hb Hr.
  rewrite !append_cons, append_nil_l, append_assoc, append_cons, append_nil_l.
  rewrite scan_delimiter by (done || by rewrite spaces_blank).
  rewrite append_leaf_spaces, IH by done.
  rewrite scan_delimiter by done. cbn. by rewrite <-!app_assoc.
Qed.

Lemma scan_render t : layout_ok t → scans_as (render t) (tokens_of t).
Proof.
  induction t as [l|k a IHa b IHb]; intros H.
  - apply layout_ok_leaf in H. intros rest buf ts Hb Hr. cbn [render tokens_of].
    destruct (leaf_no_space l H) as [Hs Ht].
    by rewrite scan_leaf, scan_flush, append_leaf_word.
  - apply layout_ok_branch in H as [H1%IHa%(scan_child k) H2%IHb%(scan_child k)].
    intros rest buf ts Hb Hr. cbn [render tokens_of].
    rewrite append_assoc, !append_cons. rewrite H1 by (done || by destruct k).
    rewrite scan_delimiter by by destruct k.
    rewrite scan_char by done. rewrite H2 by done.
    change (append_leaf_token (ts ++ ?us) "") with (ts ++ us).
    by rewrite <-!app_assoc.
Qed.

(** ** Comments and lines *)

(** The characters a rendered layout is made of. *)
Definition layout_char (c : ascii) : bool :=
  name_char c || mem_str (char_str c) [":"; "("; ")"; "@"; ";"; ","; " "].

Lemma layout_char_facts c : layout_char c = true →
  is_linebreak c = false ∧ Ascii.eqb c "#" = false ∧ Ascii.eqb c "/" = false.
Proof. revert c. by_ascii. Qed.

Lemma render_chars t : layout_ok t → str_forall layout_char (render t) = true.
Proof.
  assert (leaf : ∀ l, leaf_ok l = true → str_forall layout_char (render_leaf l) = true).
  { intros [n p m w q] H. rewrite render_leaf_eq. unfold suffix_text, leaf_ok in *.
    cbn [ll_name ll_provider ll_workspace_mode ll_weight ll_percent] in *.
    apply andb_true_iff in H as [[[Hn Hpm]%andb_true_iff Hw%Z.leb_le]%andb_true_iff Hq].
    rewrite !str_forall_app, !andb_true_iff. repeat split.
    - destruct n as [|c r]; [done|]. cbn in Hn.
      apply andb_true_iff in Hn as [[Hc Hr]%andb_true_iff _]. cbn [str_forall].
      rewrite (str_forall_mono name_char layout_char r); [|by_ascii|done].
      unfold layout_char, name_char. by rewrite alpha_tail.
    - destruct p as [[|c p]|]; [done| |done]. cbn [provider_text].
      assert (provider_ok (String c p) = true) as [_ Hp]%andb_true_iff.
      { destruct m; [by apply andb_true_iff in Hpm as [? _]|done]. }
      rewrite !str_forall_app. 
      rewrite (str_forall_mono name_tail_char layout_char (String c p)) by (done || by_ascii).
      unfold mode_text. by destruct (is_worktree m).
    - unfold weight_text. destruct (w =? 1); [done|].
      rewrite !str_forall_app, (digits_forall layout_char w); [done|lia|by_ascii].
    - destruct q as [k|]; [|done]. cbn [percent_text].
      rewrite str_forall_app, (digits_forall layout_char k); [done|by apply Z.leb_le|by_ascii]. }
  induction t as [l|k a IHa b IHb]; intros H; [by apply leaf, layout_ok_leaf|].
  apply layout_ok_branch in H as [Ha%IHa Hb%IHb]. cbn [render].
  assert (wrap : ∀ t, str_forall layout_char (render t) = true →
    str_forall layout_char (wrap_child k t (render t)) = true).
  { intros t Ht. rewrite wrap_child_eq. repeat case_match; [done| |done].
    by rewrite !str_forall_app, Ht. }
  rewrite str_forall_app, (wrap a Ha). cbn [str_forall]. rewrite (wrap b Hb). by destruct k.
Qed.

Lemma splitlines_one s : truthy s = true → str_forall layout_char s = true → splitlines s = [s].
Proof.
  intros Ht Hs. unfold splitlines.
  enough (∀ cur, truthy (String.append cur s) = true → splitlines_go cur s = [String.append cur s])
    as H by (by apply (H "")).
  clear Ht. induction s as [|c r IH]; intros cur Ht.
  - rewrite append_nil_r in *. cbn. by rewrite Ht.
  - cbn in Hs. apply andb_true_iff in Hs as [Hc Hr]. cbn [splitlines_go].
    destruct (layout_char_facts c Hc) as (-> & _ & _).
    assert (String.append cur (String c r) = String.append (String.append cur (char_str c)) r) as E
      by by rewrite append_assoc.
    rewrite E in Ht |- *. by apply IH.
Qed.

Lemma no_comment s : str_forall layout_char s = true → strip_comment s = s.
Proof.
  intros H. unfold strip_comment. assert (before_hash s = s) as ->.
  { induction s as [|c r IH]; [done|]. cbn in H |- *. apply andb_true_iff in H as [Hc Hr].
    destruct (layout_char_facts c Hc) as (_ & -> & _). by rewrite IH. }
  induction s as [|c r IH]; [done|]. cbn in H. apply andb_true_iff in H as [Hc Hr].
  destruct (layout_char_facts c Hc) as (_ & _ & Hslash). cbn [before_slashes]. rewrite IH by done.
  cbn [String.prefix]. destruct (ascii_dec "/" c) as [<-|]; [done|]. done.
Qed.

Lemma tokens_truthy t : layout_ok t → List.filter truthy (tokens_of t) = tokens_of t.
Proof.
  induction t as [l|k a IHa b IHb]; intros H.
  - apply layout_ok_leaf in H. cbn. by rewrite (proj2 (leaf_no_space l H)).
  - apply layout_ok_branch in H as [Ha%IHa Hb%IHb]. cbn [tokens_of].
    assert (child : ∀ t, List.filter truthy (tokens_of t) = tokens_of t →
      List.filter truthy (child_tokens k t (tokens_of t)) = child_tokens k t (tokens_of t)).
    { intros t Ht. unfold child_tokens. repeat case_match; [done| |done].
      cbn. by rewrite List.filter_app, Ht. }
    rewrite List.filter_app, (child a Ha). cbn. by rewrite (child b Hb).
Qed.

Lemma render_truthy t : layout_ok t → truthy (render t) = true.
Proof.
  induction t as [l|k a IHa b IHb]; intros H.
  - apply layout_ok_leaf in H. apply (leaf_no_space l H).
  - cbn [render]. by destruct (wrap_child k a (render a)).
Qed.

Lemma tokenize_render t : layout_ok t → tokenize (render t) = tokens_of t.
Proof.
  intros H. unfold tokenize.
  rewrite (splitlines_one _ (render_truthy t H) (render_chars t H)). cbn [foldl].
  rewrite (no_comment _ (render_chars t H)).
  change (tokenize_line (String.length (render t)) (render t) "" []) with (scan (render t) "" []).
  rewrite <-(append_nil_r (render t)).
  rewrite (scan_render t H "" "" [] eq_refl eq_refl), scan_nil. by apply tokens_truthy.
Qed.

(** ** The language *)

Lemma parse_render t : layout_ok t → parse_layout_spec (render t) = Ok (reassoc t).
Proof.
  intros H. unfold parse_layout_spec. rewrite tokenize_render by done.
  by apply parse_tokens_spec, tokens_grammar.
Qed.

Lemma grammar_ok :
  (∀ ts t, h_expr ts t → layout_ok t) ∧ (∀ ts t, v_expr ts t → layout_ok t) ∧
  (∀ ts t, p_expr ts t → layout_ok t).
Proof.
  apply expr_ind; try done.
  - intros. by apply layout_ok_branch.
  - intros. by apply layout_ok_branch.
  - intros t l H. apply layout_ok_leaf, (match_leaf_ok t), H.
Qed.

Lemma parse_layout_ok s t : parse_layout_spec s = Ok t → layout_ok t.
Proof. intros H%parse_tokens_spec. by apply (proj1 grammar_ok) in H. Qed.
