(* ===== verification/LayoutOpsLemmas.v ===== *)
(** Lemmas on [ops.py] and [growth.py]: pruning keeps exactly the leaves asked for, and
    the pane-growth pages partition the names. *)

From Stdlib Require Import Ascii String ZArith Lia.
From stdpp Require Import base list strings pretty.
From S2P Require Import Prelude PyData Names Text Layout LayoutParser LayoutRender.

Local Open Scope Z_scope.

(** ** Pruning *)

Definition shown (include_names : list string) (l : LayoutLeaf) : bool :=
  mem_str (lower (ll_name l)) (include_set include_names).

Lemma include_set_idemp names : include_set (include_set names) = include_set names.
Proof.
  unfold include_set. induction names as [|n r IH]; [done|]. cbn.
  destruct (blank n) eqn:E; cbn; [done|].
  assert (lower (strip (lower (strip n))) = lower (strip n)) as EL.
  { by rewrite strip_lower, lower_idemp, strip_idemp. }
  assert (blank (lower (strip n)) = false) as ->.
  { unfold blank in *. by rewrite strip_lower, lower_truthy, strip_idemp. }
  cbn. by rewrite EL, IH.
Qed.

Lemma shown_include_set names l : shown (include_set names) l = shown names l.
Proof. unfold shown. by rewrite include_set_idemp. Qed.

Lemma filter_shown_include_set names ls :
  List.filter (shown (include_set names)) ls = List.filter (shown names) ls.
Proof. apply List.filter_ext. intros l. apply shown_include_set. Qed.

Lemma prune_leaves t names :
  match prune_layout t names with
  | Some t' => iter_leaves t' = List.filter (shown names) (iter_leaves t)
  | None => List.filter (shown names) (iter_leaves t) = []
  end.
Proof.
  revert names. induction t as [l|k a IHa b IHb]; intros names.
  - cbn. unfold shown. by destruct (mem_str _ _).
  - cbn [prune_layout iter_leaves]. rewrite List.filter_app.
    specialize (IHa (include_set names)). specialize (IHb (include_set names)).
    rewrite filter_shown_include_set in IHa, IHb.
    destruct (prune_layout a _), (prune_layout b _); cbn; rewrite ?IHa, ?IHb, ?app_nil_r; done.
Qed.

Lemma iter_leaves_nonempty t : iter_leaves t ≠ [].
Proof. induction t as [l|k a IHa b IHb]; cbn; [done|]. by destruct (iter_leaves a). Qed.

Lemma prune_some t names t' :
  prune_layout t names = Some t' →
  iter_leaves t' = List.filter (shown names) (iter_leaves t) ∧
  Forall (λ l, shown names l = true) (iter_leaves t').
Proof.
  intros H. pose proof (prune_leaves t names) as P. rewrite H in P. split; [done|].
  rewrite P. apply Forall_forall. intros l Hl. apply list_elem_of_In, List.filter_In in Hl. apply Hl.
Qed.

Lemma prune_none t names :
  prune_layout t names = None ↔ List.filter (shown names) (iter_leaves t) = [].
Proof.
  pose proof (prune_leaves t names) as P. split; intros H; [by rewrite H in P|].
  destruct (prune_layout t names) as [t'|]; [|done]. rewrite H in P. by apply iter_leaves_nonempty in P.
Qed.

Lemma prune_all t names : Forall (λ l, shown names l = true) (iter_leaves t) → prune_layout t names = Some t.
Proof.
  revert names. induction t as [l|k a IHa b IHb]; intros names H.
  - cbn in *. apply Forall_cons in H as [H _]. unfold shown in H. by rewrite H.
  - cbn in *. apply Forall_app in H as [Ha Hb].
    rewrite IHa, IHb; [done|..]; (eapply Forall_impl; [eassumption|]); cbn; intros l;
      by rewrite shown_include_set.
Qed.

Lemma prune_idemp t names t' : prune_layout t names = Some t' → prune_layout t' names = Some t'.
Proof. intros [_ H]%prune_some. by apply prune_all. Qed.

Lemma prune_ok t names t' : prune_layout t names = Some t' → layout_ok t → layout_ok t'.
Proof.
  intros [H _]%prune_some Ht. unfold layout_ok in *. rewrite H. rewrite Forall_forall in *.
  intros l Hl. apply list_elem_of_In, List.filter_In in Hl as [Hl _]. by apply Ht, list_elem_of_In.
Qed.

(** ** Stacks and columns *)

Lemma stack_leaves t ts :
  iter_leaves (foldl (Branch Vertical) t ts) = iter_leaves t ++ concat (map iter_leaves ts).
Proof.
  revert t. induction ts as [|u ts IH]; intros t; cbn; [by rewrite app_nil_r|].
  rewrite IH. cbn. by rewrite <-app_assoc.
Qed.

Lemma stack_normal t ts :
  left_normal t = true → Forall (λ u, is_leaf u = true) ts →
  left_normal (foldl (Branch Vertical) t ts) = true.
Proof.
  revert t. induction ts as [|u ts IH]; intros t Ht Hts; [done|].
  apply Forall_cons in Hts as [Hu Hts]. apply IH; [|done]. cbn. rewrite Ht. by destruct u.
Qed.

Lemma foldl_vertical_kind t ts :
  node_kind t ≠ Some Horizontal → node_kind (foldl (Branch Vertical) t ts) ≠ Some Horizontal.
Proof. revert t. induction ts as [|u ts IH]; intros t Ht; [done|]. by apply IH. Qed.

Lemma iter_names_branch k a b :
  iter_layout_names (Branch k a b) = iter_layout_names a ++ iter_layout_names b.
Proof. apply map_app. Qed.

Lemma horizontal_normal a b :
  left_normal a = true → left_normal b = true → node_kind b ≠ Some Horizontal →
  left_normal (Branch Horizontal a b) = true.
Proof. intros Ha Hb Hk. cbn. rewrite Ha, Hb. by apply bool_decide_eq_true_2. Qed.

Definition name_leaves (names : list string) : list LayoutNode :=
  map (λ n, Leaf (leaf_named n)) names.

Lemma name_leaves_names names : map ll_name (concat (map iter_leaves (name_leaves names))) = names.
Proof. induction names as [|n r IH]; [done|]. cbn. f_equal. exact IH. Qed.

Lemma name_leaves_leaf names : Forall (λ u, is_leaf u = true) (name_leaves names).
Proof. induction names; by constructor. Qed.

Lemma every_other_map {A B} (f : A → B) b l : every_other b (map f l) = map f (every_other b l).
Proof. revert b. induction l as [|x l IH]; intros []; cbn; by rewrite ?IH. Qed.

Lemma every_other_perm {A} (l : list A) : every_other true l ++ every_other false l ≡ₚ l.
Proof.
  induction l as [|x l IH]; [done|]. cbn. apply perm_skip. rewrite <-IH at 3. apply Permutation_app_comm.
Qed.

(** The two columns of a page. *)
Definition column_order (names : list string) : list string :=
  every_other true names ++ every_other false names.

Lemma stack_name_leaves n names :
  ∃ t, stack_vertical (name_leaves (n :: names)) = Some t ∧
    iter_layout_names t = n :: names ∧ left_normal t = true ∧ node_kind t ≠ Some Horizontal.
Proof.
  eexists. split; [reflexivity|]. split; [|split].
  - unfold iter_layout_names. rewrite stack_leaves. cbn. f_equal. apply name_leaves_names.
  - apply stack_normal; [done|]. apply name_leaves_leaf.
  - by apply foldl_vertical_kind.
Qed.

(** ** Names *)

Definition clean (n : string) : bool := String.eqb (strip n) n && negb (blank n).

Lemma clean_names_clean names : Forall (λ n, clean n = true) (clean_names names).
Proof.
  unfold clean_names. apply Forall_forall. intros n.
  rewrite list_elem_of_In, in_map_iff. intros (m & <- & [_ Hm]%List.filter_In).
  unfold clean. rewrite strip_idemp, String.eqb_refl. unfold blank in *. by rewrite strip_idemp.
Qed.

Lemma clean_names_id names : Forall (λ n, clean n = true) names → clean_names names = names.
Proof.
  unfold clean_names. induction 1 as [|n r [He Hb]%andb_true_iff _ IH]; [done|]. cbn. rewrite Hb. cbn.
  rewrite IH. f_equal. by apply String.eqb_eq.
Qed.

Lemma normalize_names_spec names :
  normalize_names names =
    if decide (NoDup (clean_names names)) then Ok (clean_names names)
    else raise ValueError "pane names must be unique".
Proof.
  unfold normalize_names. destruct (decide _) as [H|H].
  - by rewrite bool_decide_eq_true_2.
  - by rewrite bool_decide_eq_false_2.
Qed.

Lemma normalize_names_ok names :
  Forall (λ n, clean n = true) names → NoDup names → normalize_names names = Ok names.
Proof. intros Hc Hn. rewrite normalize_names_spec, clean_names_id by done. by destruct (decide _). Qed.

(** ** Pages *)

Lemma page_layout names :
  names ≠ [] → (length names <= 6)%nat → Forall (λ n, clean n = true) names → NoDup names →
  ∃ t, build_pane_growth_layout names = Ok t ∧ iter_layout_names t = column_order names ∧
    left_normal t = true.
Proof.
  intros Hne Hlen Hc Hn. unfold build_pane_growth_layout. rewrite normalize_names_ok by done.
  cbn [result_bind]. rewrite bool_decide_eq_false_2 by done.
  assert ((DEFAULT_MAX_PANES_PER_WINDOW <? length names)%nat = false) as -> by by apply Nat.ltb_ge.
  cbn [raise_if result_bind].
  destruct names as [|a [|b rest]]; [done| |].
  - eexists. split; [reflexivity|]. done.
  - rewrite !every_other_map.
    destruct (stack_name_leaves a (every_other true rest)) as (L & EL & NL & OL & KL).
    destruct (stack_name_leaves b (every_other false rest)) as (R & ER & NR & OR & KR).
    apply (inj Some) in EL as <-, ER as <-.
    eexists. split; [reflexivity|]. split.
    + rewrite iter_names_branch. exact (f_equal2 app NL NR).
    + exact (horizontal_normal _ _ OL OR KR).
Qed.

(** What one page is. *)
Definition page_ok (max_count : nat) (prefix : string) (w : PaneGrowthWindowPlan) : Prop :=
  (1 <= length (pw_agent_names w) <= max_count)%nat ∧
  iter_layout_names (pw_layout w) = column_order (pw_agent_names w) ∧
  left_normal (pw_layout w) = true ∧
  pw_name w = page_window_name prefix (pw_index w).

Lemma growth_pages_spec rounds max_count prefix index names :
  (1 <= max_count <= 6)%nat → (length names <= rounds)%nat →
  Forall (λ n, clean n = true) names → NoDup names →
  ∃ ws, growth_pages rounds max_count prefix index names = Ok ws ∧
    concat (map pw_agent_names ws) = names ∧
    map pw_index ws = map (λ i, index + Z.of_nat i) (seq 0 (length ws)) ∧
    Forall (page_ok max_count prefix) ws ∧
    (length names <= length ws * max_count < length names + max_count)%nat.
Proof.
  intros Hm. revert index names. induction rounds as [|n IH]; intros index names Hr Hc Hn.
  - destruct names; [|cbn in Hr; lia]. exists []. cbn. repeat split; try done. lia.
  - destruct names as [|x names]; [exists []; cbn; repeat split; try done; lia|].
    set (all := x :: names) in *.
    assert (Hlen : (length (take max_count all) = max_count `min` length all)%nat) by apply length_take.
    assert (1 <= length all)%nat by (cbn; lia).
    destruct (page_layout (take max_count all)) as (t & Et & Nt & Ot).
    { intros E. rewrite E in Hlen. cbn [length] in Hlen. lia. }
    { lia. }
    { by apply Forall_take. }
    { eapply sublist_NoDup; [exact Hn|apply sublist_take]. }
    destruct (IH (index + 1) (drop max_count all)) as (ws & Ews & Cws & Iws & Fws & Lws).
    { rewrite length_drop. lia. }
    { by apply Forall_drop. }
    { eapply sublist_NoDup; [exact Hn|apply sublist_drop]. }
    exists (mkWindowPlan (page_window_name prefix index) index (take max_count all) t :: ws).
    split; [|split; [|split; [|split]]].
    + unfold all. cbn [growth_pages]. fold all.
      change (firstn max_count all) with (take max_count all).
      change (skipn max_count all) with (drop max_count all). by rewrite Et, Ews.
    + cbn [map concat pw_agent_names]. by rewrite Cws, take_drop.
    + cbn [map pw_index length seq]. rewrite Iws, Z.add_0_r. f_equal.
      rewrite <-seq_shift, map_map. apply map_ext. intros i. lia.
    + constructor; [|done]. unfold page_ok. cbn [pw_agent_names pw_layout pw_name pw_index].
      repeat split; try done; lia.
    + cbn [length]. rewrite length_drop in Lws.
      destruct (decide (length all <= max_count)%nat) as [Hle|Hgt]; [|lia].
      replace (length all - max_count)%nat with 0%nat in Lws by lia.
      destruct ws as [|w ws]; cbn [length] in *; nia.
Qed.

Lemma page_window_name_inj prefix i j :
  1 <= i → 1 <= j → page_window_name prefix i = page_window_name prefix j → i = j.
Proof.
  intros Hi Hj. unfold page_window_name.
  set (base := if blank prefix then "layout" else strip prefix).
  assert (no : ∀ s, String.append base (String.append "-" s) ≠ base).
  { intros s E. rewrite <-(append_nil_r base) in E at 2. by apply (inj (String.append base)) in E. }
  destruct (Z.eqb_spec i 1) as [->|], (Z.eqb_spec j 1) as [->|]; intros E; try done.
  - symmetry in E. by apply no in E.
  - by apply no in E.
  - apply (inj (String.append base)), (inj (String.append "-")) in E. by apply (inj pretty) in E.
Qed.

(** Consecutive indices give distinct window names. *)
Lemma growth_names_nodup prefix max_count ws :
  map pw_index ws = map (λ i, 1 + Z.of_nat i) (seq 0 (length ws)) →
  Forall (page_ok max_count prefix) ws → NoDup (map pw_name ws).
Proof.
  intros Hi Hf.
  assert (map pw_name ws = map (page_window_name prefix) (map pw_index ws)) as ->.
  { rewrite map_map. clear Hi. induction Hf as [|w ws (_ & _ & _ & E) _ IH]; [done|]. cbn. by rewrite E, IH. }
  rewrite Hi, map_map. clear Hi Hf. generalize (length ws) as n, 0%nat. clear ws.
  induction n as [|n IH]; intros k; [constructor|]. cbn. constructor; [|apply IH].
  rewrite list_elem_of_In, in_map_iff. intros (j & E & Hj%in_seq).
  apply page_window_name_inj in E; lia.
Qed.
