(* ===== verification/LayoutPanes.v ===== *)
(** Panes of a layout.

    - [Materialize]: [_materialize_layout] of
      [ccbd/services/project_namespace_runtime/materialize_topology.py] and of
      [additive_patch_windows.py] beside it, which split the root pane of a window along
      a layout tree, with the [assign_leaf] of [_materialize_agent_layout].  The
      terminal multiplexer is a parameter: what it answers to the n-th split.
    - [Reflow]: [agent_window_reflow.py], which computes the geometry of a window
      (cells, with one cell of border between siblings), the checksummed layout string
      of [select-layout] and the swaps that bring the panes into visual order. *)

From Stdlib Require Import Ascii String ZArith Lia.
From stdpp Require Import base list strings pretty sorting.
From S2P Require Import Prelude PyData Names Layout LayoutParser.

Local Open Scope Z_scope.

(** [round(a / b)] for a positive [b]: to nearest, ties to even.  The float quotient
    of the source gives the same integer while [b] is below 2^45. *)
Definition round_div (a b : Z) : Z :=
  let q := a / b in
  let r := a mod b in
  if 2 * r <? b then q
  else if b <? 2 * r then q + 1
  else if Z.even q then q else q + 1.

(** [max(lo, min(hi, n))] *)
Definition clamp (lo hi n : Z) : Z := Z.max lo (Z.min hi n).

(** [_get_specified_percent] and [_specified_percent]: the first percentage among the leaves. *)
Definition specified_percent (t : LayoutNode) : option Z :=
  match t with
  | Leaf l => ll_percent l
  | Branch _ _ _ => head (omap ll_percent (iter_leaves t))
  end.

(** The share of the right child, from the percentages of the children where one is
    given, from [proportional] otherwise. *)
Definition percent_or (left right : LayoutNode) (proportional : Z) : Z :=
  match specified_percent right, specified_percent left with
  | Some p, _ => clamp 1 99 p
  | None, Some p => clamp 1 99 (100 - p)
  | None, None => proportional
  end.

Module Materialize.

(** [additive_patch_windows._right_pane_percent] *)
Definition right_pane_percent (left right : LayoutNode) : Z :=
  let total := Z.max 1 (weight_sum left + weight_sum right) in
  let right_count := Z.max 1 (weight_sum right) in
  clamp 1 99 (round_div (right_count * 100) total).

(** The percentage [materialize_topology._materialize_layout] splits with. *)
Definition split_percent (left right : LayoutNode) : Z :=
  percent_or left right (right_pane_percent left right).

Record split_cmd := mkSplit {
  sp_target : string;
  sp_direction : string;
  sp_percent : Z;
}.

(** What the calls of [split_pane] and of [assign_leaf] leave behind. *)
Record panes := mkPanes {
  pn_splits : list split_cmd;
  pn_assigned : list (string * string);
}.

Definition no_panes : panes := mkPanes [] [].

Section backend.

(** [split_pane]: the pane the multiplexer makes for the n-th split, or its error. *)
Variable split_reply : nat → split_cmd → result string.
Variable percent_of : LayoutNode → LayoutNode → Z.

Definition split_pane (target direction : string) (percent : Z) : M panes string := λ s,
  let cmd := mkSplit target direction (clamp 1 99 percent) in
  match split_reply (length (pn_splits s)) cmd with
  | Ok pane => (mkPanes (pn_splits s ++ [cmd]) (pn_assigned s), Ok pane)
  | Err e => (s, Err e)
  end.

Definition assign_leaf (item pane_id : string) : M panes unit :=
  mmod (λ s, mkPanes (pn_splits s) (pn_assigned s ++ [(item, pane_id)])).

Definition direction_of (k : split_kind) : string :=
  match k with Horizontal => "right" | Vertical => "bottom" end.

Fixpoint materialize_layout (parent_pane_id : string) (t : LayoutNode) : M panes unit :=
  match t with
  | Leaf l => assign_leaf (ll_name l) parent_pane_id
  | Branch k a b =>
      mbind' (split_pane parent_pane_id (direction_of k) (percent_of a b)) (λ new_pane_id,
      mbind' (materialize_layout parent_pane_id a) (λ _,
      materialize_layout new_pane_id b))
  end.

End backend.

(** ** The roles [_materialize_agent_layout] gives the panes *)

Record window_panes := mkWindowPanes {
  wp_agents : list (string * string);
  wp_tools : list (string * string);
  wp_cmd : option string;
}.

(** [d[k] = v] on a dict of strings, in insertion order. *)
Fixpoint str_dict_set (d : list (string * string)) (k v : string) : list (string * string) :=
  match d with
  | [] => [(k, v)]
  | (k', v') :: r => if String.eqb k k' then (k, v) :: r else (k', v') :: str_dict_set r k v
  end.

(** The body of [assign_leaf]: the command pane, a tool of the window, or an agent
    under its normalised name (its own name where it has none). *)
Definition assign_role (tool_names : list string) (w : window_panes) (item pane_id : string)
    : window_panes :=
  if String.eqb item "cmd" then mkWindowPanes (wp_agents w) (wp_tools w) (Some pane_id)
  else
    let item_tool := lower (strip item) in
    if mem_str item_tool tool_names
    then mkWindowPanes (wp_agents w) (wp_tools w ++ [(item_tool, pane_id)]) (wp_cmd w)
    else
      let agent_name := match normalize_agent_name item with Ok n => n | Err _ => item end in
      mkWindowPanes (str_dict_set (wp_agents w) agent_name pane_id) (wp_tools w) (wp_cmd w).

Definition assign_roles (tool_names : list string) (assigned : list (string * string)) : window_panes :=
  foldl (λ w a, assign_role tool_names w a.1 a.2) (mkWindowPanes [] [] None) assigned.

End Materialize.

Module Reflow.

Record ObservedPane := mkObserved {
  op_pane_id : string;
  op_pane_index : Z;
  op_pane_left : Z;
  op_pane_top : Z;
  op_pane_width : Z;
  op_pane_height : Z;
  op_role : string;
  op_slot : string;
  op_window_name : string;
  op_sidebar_instance : string;
}.

(** [_LayoutLeaf] and [_LayoutBranch] *)
Inductive FixedLayout :=
  | FLeaf (pane_id : string) (width height left top : Z)
  | FBranch (width height left top : Z) (delimiter : split_kind) (children : list FixedLayout).

(** ** [_layout_from_spec] and [_split_sizes] *)

Definition split_sizes (a b : LayoutNode) (total_size : Z) : Z * Z :=
  let available := total_size - 1 in
  if available <? 2 then (0, 0)
  else
    let percent :=
      percent_or a b (round_div (leaf_count b * 100) (Z.max 1 (leaf_count a + leaf_count b))) in
    let right_size := clamp 1 (available - 1) (round_div (available * percent) 100) in
    (available - right_size, right_size).

(** [pane_by_leaf.get(name)] *)
Definition pane_for (pane_by_leaf : list (string * ObservedPane)) (name : string) : option ObservedPane :=
  option_map snd (find (λ kv, String.eqb kv.1 name) pane_by_leaf).

Fixpoint layout_from_spec (pane_by_leaf : list (string * ObservedPane)) (t : LayoutNode)
    (width height left top : Z) : option FixedLayout :=
  match t with
  | Leaf l =>
      match pane_for pane_by_leaf (ll_name l) with
      | Some pane => Some (FLeaf (op_pane_id pane) width height left top)
      | None => None
      end
  | Branch Horizontal a b =>
      let s := split_sizes a b width in
      if (s.1 <=? 0) || (s.2 <=? 0) then None
      else match layout_from_spec pane_by_leaf a s.1 height left top,
                 layout_from_spec pane_by_leaf b s.2 height (left + s.1 + 1) top with
           | Some l, Some r => Some (FBranch width height left top Horizontal [l; r])
           | _, _ => None
           end
  | Branch Vertical a b =>
      let s := split_sizes a b height in
      if (s.1 <=? 0) || (s.2 <=? 0) then None
      else match layout_from_spec pane_by_leaf a width s.1 left top,
                 layout_from_spec pane_by_leaf b width s.2 left (top + s.1 + 1) with
           | Some l, Some r => Some (FBranch width height left top Vertical [l; r])
           | _, _ => None
           end
  end.

(** ** [_build_fixed_layout]: one or two columns *)

(** The [for index, pane in enumerate(panes)] loop of [_vertical_stack]. *)
Fixpoint stack_children (panes : list ObservedPane) (base remainder index width left cursor : Z)
    : list FixedLayout :=
  match panes with
  | [] => []
  | pane :: rest =>
      let pane_height := base + (if index <? remainder then 1 else 0) in
      FLeaf (op_pane_id pane) width pane_height left cursor ::
      stack_children rest base remainder (index + 1) width left (cursor + pane_height + 1)
  end.

Definition fixed_stack (panes : list ObservedPane) (width height left top : Z) : option FixedLayout :=
  match panes with
  | [] => None
  | [one] => Some (FLeaf (op_pane_id one) width height left top)
  | _ =>
      let n := Z.of_nat (length panes) in
      let available := height - (n - 1) in
      if available <? n then None
      else Some (FBranch width height left top Vertical
                   (stack_children panes (available / n) (available mod n) 0 width left top))
  end.

Definition desired_agent_visual_order (agent_panes : list ObservedPane) : list ObservedPane :=
  every_other true agent_panes ++ every_other false agent_panes.

(** [visual[0]] of an empty tuple is not reached: the caller has at least one agent. *)
Definition agent_layout (agent_panes : list ObservedPane) (width height left top : Z) : option FixedLayout :=
  match desired_agent_visual_order agent_panes with
  | [one] => Some (FLeaf (op_pane_id one) width height left top)
  | _ =>
      let left_panes := every_other true agent_panes in
      let right_panes := every_other false agent_panes in
      match right_panes with
      | [] => fixed_stack left_panes width height left top
      | _ =>
          let left_width := (width - 1) / 2 in
          let right_width := width - left_width - 1 in
          if (left_width <=? 0) || (right_width <=? 0) then None
          else match fixed_stack left_panes left_width height left top,
                     fixed_stack right_panes right_width height (left + left_width + 1) top with
               | Some l, Some r => Some (FBranch width height left top Horizontal [l; r])
               | _, _ => None
               end
      end
  end.

Definition build_fixed_layout (sidebar : option ObservedPane) (agent_panes : list ObservedPane)
    (total_width total_height : Z) : option FixedLayout * list string :=
  let sidebar_width := match sidebar with Some s => op_pane_width s | None => 0 end in
  let user_left := match sidebar with Some _ => sidebar_width + 1 | None => 0 end in
  let user_width := total_width - user_left in
  if user_width <=? 0 then (None, [])
  else
    match agent_layout agent_panes user_width total_height user_left 0 with
    | None => (None, [])
    | Some user =>
        let order := map op_pane_id (desired_agent_visual_order agent_panes) in
        match sidebar with
        | None => (Some user, order)
        | Some s =>
            (Some (FBranch total_width total_height 0 0 Horizontal
                     [FLeaf (op_pane_id s) sidebar_width total_height 0 0; user]),
             op_pane_id s :: order)
        end
    end.

(** ** [_build_topology_layout] *)

Definition is_sidebar_of (window_name : string) (p : ObservedPane) : bool :=
  String.eqb (op_role p) "sidebar" &&
  (String.eqb (op_sidebar_instance p) window_name ||
   String.eqb (op_slot p) (String.append "sidebar:" window_name)).

(** [pane.slot.removeprefix('tool:') if pane.role == 'tool' else pane.slot] *)
Definition topology_leaf_name (p : ObservedPane) : string :=
  if String.eqb (op_role p) "tool" && String.prefix "tool:" (op_slot p)
  then drop_str 5 (op_slot p) else op_slot p.

Fixpoint pane_dict_set (d : list (string * ObservedPane)) (k : string) (v : ObservedPane)
    : list (string * ObservedPane) :=
  match d with
  | [] => [(k, v)]
  | (k', v') :: r => if String.eqb k k' then (k, v) :: r else (k', v') :: pane_dict_set r k v
  end.

Definition classify_topology_panes (panes : list ObservedPane) (leaf_names : list string)
    (window_name : string) : list ObservedPane * list (string * ObservedPane) :=
  foldl (λ acc pane,
    if is_sidebar_of window_name pane then (acc.1 ++ [pane], acc.2)
    else
      let leaf_name := topology_leaf_name pane in
      if String.eqb (op_window_name pane) window_name && mem_str leaf_name leaf_names &&
         mem_str (op_role pane) ["agent"; "tool"]
      then (acc.1, pane_dict_set acc.2 leaf_name pane)
      else acc) ([], []) panes.

(** [set(a) == set(b)] *)
Definition same_names (a b : list string) : bool :=
  forallb (λ n, mem_str n b) a && forallb (λ n, mem_str n a) b.

Definition build_topology_layout (panes : list ObservedPane) (user_layout window_name : string)
    (sidebar_right : bool) (total_width total_height : Z) : option (FixedLayout * list string) :=
  if blank user_layout then None else
  match parse_layout_spec (strip user_layout) with
  | Err _ => None
  | Ok spec =>
      let leaf_names := iter_layout_names spec in
      if bool_decide (leaf_names = []) || negb (bool_decide (NoDup leaf_names)) then None else
      let c := classify_topology_panes panes leaf_names window_name in
      if (1 <? length c.1)%nat || negb (same_names (map fst c.2) leaf_names) then None else
      if negb (length c.1 + length c.2 =? length panes)%nat then None else
      let sidebar := head c.1 in
      let border := match sidebar with Some _ => 1 | None => 0 end in
      let sidebar_width := match sidebar with Some s => op_pane_width s | None => 0 end in
      let user_width := total_width - sidebar_width - border in
      if user_width <=? 0 then None else
      let user_left := if bool_decide (is_Some sidebar) && sidebar_right then 0 else sidebar_width + border in
      match layout_from_spec c.2 spec user_width total_height user_left 0 with
      | None => None
      | Some user =>
          let order := omap (λ n, option_map op_pane_id (pane_for c.2 n)) leaf_names in
          match sidebar with
          | None => Some (user, order)
          | Some s =>
              let sidebar_left := if sidebar_right then user_width + 1 else 0 in
              let leaf := FLeaf (op_pane_id s) sidebar_width total_height sidebar_left 0 in
              if sidebar_right
              then Some (FBranch total_width total_height 0 0 Horizontal [user; leaf],
                         order ++ [op_pane_id s])
              else Some (FBranch total_width total_height 0 0 Horizontal [leaf; user],
                         op_pane_id s :: order)
          end
      end
  end.

(** ** The [select-layout] string *)

Definition geometry_text (w h l t : Z) : string :=
  String.append (pretty w) (String.append "x" (String.append (pretty h)
    (String.append "," (String.append (pretty l) (String.append "," (pretty t)))))).

(** [_render_node]: the leaf ids are taken from [range(10000)] in order; the next id is
    threaded through the children.  Popping from an empty list is [None]. *)
Fixpoint render_node (t : FixedLayout) (next : Z) : option (string * Z) :=
  match t with
  | FLeaf _ w h l tp =>
      if next <? 10000
      then Some (String.append (geometry_text w h l tp) (String.append "," (pretty next)), next + 1)
      else None
  | FBranch w h l tp k children =>
      let fix go (cs : list FixedLayout) (n : Z) : option (list string * Z) :=
        match cs with
        | [] => Some ([], n)
        | c :: r =>
            match render_node c n with
            | Some (txt, n') =>
                match go r n' with
                | Some (txts, n'') => Some (txt :: txts, n'')
                | None => None
                end
            | None => None
            end
        end in
      match go children next with
      | Some (txts, n) =>
          let body := String.concat "," txts in
          Some (String.append (geometry_text w h l tp)
                 (match k with
                  | Horizontal => String.append "{" (String.append body "}")
                  | Vertical => String.append "[" (String.append body "]")
                  end), n)
      | None => None
      end
  end.

Definition render_layout (root : FixedLayout) : option string := option_map fst (render_node root 0).

(** One step of the checksum: a 16-bit rotation to the right, then the character. *)
Definition checksum_step (checksum : Z) (c : ascii) : Z :=
  Z.land (Z.shiftr checksum 1 + Z.shiftl (Z.land checksum 1) 15 + code c) 65535.

Definition layout_checksum (body : string) : Z :=
  foldl checksum_step 0 (list_ascii_of_string body).

(** [f'{n:04x}'] for [n] below 2^16 *)
Definition hex4 (n : Z) : string :=
  String.append (hex_digit (n / 4096 mod 16)) (String.append (hex_digit (n / 256 mod 16))
    (String.append (hex_digit (n / 16 mod 16)) (hex_digit (n mod 16)))).

Definition select_layout_text (root : FixedLayout) : option string :=
  option_map (λ body, String.append (hex4 (layout_checksum body)) (String.append "," body))
    (render_layout root).

(** ** [_apply_visual_order] *)

(** [order.index(x)] *)
Fixpoint index_of (x : string) (l : list string) : option nat :=
  match l with
  | [] => None
  | y :: r => if String.eqb y x then Some O else option_map S (index_of x r)
  end.

Record swap_cmd := mkSwap { sw_source : string; sw_target : string }.

#[export] Instance swap_cmd_eq_dec : EqDecision swap_cmd.
Proof. solve_decision. Defined.

(** [order[i], order[j] = order[j], order[i]] *)
Definition swap_at (i j : nat) (order : list string) : list string :=
  match order !! i, order !! j with
  | Some a, Some b => <[j := a]> (<[i := b]> order)
  | _, _ => order
  end.

Section runner.

(** [swap-pane]: the error text the multiplexer answers to the n-th command, or none. *)
Variable swap_reply : nat → swap_cmd → option string.

(** The loop from position [index] on; the commands already sent are [sent].  The
    [IndexError] and [ValueError] of a position or a pane that is missing are not reached:
    the orders hold the same panes. *)
Fixpoint swap_loop (index : nat) (desired_order order : list string) (sent : list swap_cmd)
    : list swap_cmd * option string :=
  match desired_order with
  | [] => (sent, None)
  | desired :: rest =>
      match order !! index with
      | None => (sent, Some "IndexError")
      | Some source =>
          if String.eqb source desired then swap_loop (S index) rest order sent
          else
            match index_of desired order with
            | None => (sent, Some "ValueError")
            | Some swap_index =>
                let cmd := mkSwap source desired in
                match swap_reply (length sent) cmd with
                | Some detail => (sent ++ [cmd], Some (if truthy detail then detail else "swap-pane failed"))
                | None => swap_loop (S index) rest (swap_at index swap_index order) (sent ++ [cmd])
                end
            end
      end
  end.

(** [sorted(a) != sorted(b)] is that one is no permutation of the other. *)
Definition apply_visual_order (current_order desired_order : list string)
    : list swap_cmd * option string :=
  if negb (bool_decide (merge_sort String.le current_order = merge_sort String.le desired_order))
  then ([], Some "fixed layout pane order mismatch")
  else swap_loop 0 desired_order current_order [].

End runner.

(** ** [reflow_agent_window_fixed] *)

(** The result of a tmux command, as [_tmux_run] gives it. *)
Record completed := mkCompleted {
  cp_returncode : Z;
  cp_stdout : string;
  cp_stderr : string;
}.

Definition failed (c : completed) : bool := negb (cp_returncode c =? 0).

(** [str(stderr or stdout or '').strip() or fallback] *)
Definition failure_detail (c : completed) (fallback : string) : string :=
  let detail := strip (if truthy (cp_stderr c) then cp_stderr c else cp_stdout c) in
  if truthy detail then detail else fallback.

Fixpoint split_char (x : ascii) (cur s : string) : list string :=
  match s with
  | EmptyString => [cur]
  | String c r =>
      if Ascii.eqb c x then cur :: split_char x EmptyString r
      else split_char x (String.append cur (char_str c)) r
  end.

(** One line of [list-panes]: [None] for a line with too few fields or a field that is
    not a number. *)
Definition observed_pane (line : string) : option ObservedPane :=
  match split_char (ascii_of_nat 9) EmptyString line with
  | i :: n :: l :: t :: w :: h :: role :: slot :: window :: sidebar :: _ =>
      match parse_int n, parse_int l, parse_int t, parse_int w, parse_int h with
      | Some n, Some l, Some t, Some w, Some h =>
          Some (mkObserved i n l t w h role slot window sidebar)
      | _, _, _, _, _ => None
      end
  | _ => None
  end.

Definition index_le (a b : ObservedPane) : Prop := op_pane_index a <= op_pane_index b.

#[export] Instance index_le_dec : RelDecision index_le.
Proof. intros a b. unfold index_le. apply _. Defined.

Definition observed_panes (c : completed) : list ObservedPane * option string :=
  if failed c then ([], Some (failure_detail c "list-panes failed"))
  else match mapM observed_pane (splitlines (cp_stdout c)) with
       | Some panes => (merge_sort index_le panes, None)
       | None => ([], None)
       end.

Definition classify_panes (panes : list ObservedPane) (agent_names : list string) (window_name : string)
    : list ObservedPane * list ObservedPane :=
  let c := foldl (λ acc pane,
    if is_sidebar_of window_name pane then (acc.1 ++ [pane], acc.2)
    else if String.eqb (op_role pane) "agent" && String.eqb (op_window_name pane) window_name &&
            mem_str (op_slot pane) agent_names
    then (acc.1, pane_dict_set acc.2 (op_slot pane) pane)
    else acc) ([], []) panes in
  (c.1, omap (pane_for c.2) agent_names).

(** The window of the topology plan: its agents, layout and sidebar side. *)
Record TopologyWindow := mkTopologyWindow {
  tw_agent_names : list string;
  tw_user_layout : string;
  tw_sidebar_right : bool;
}.

Inductive tmux_cmd :=
  | ListPanes
  | SelectLayout (layout : string)
  | SwapPane (c : swap_cmd).

Definition max_extent (f : ObservedPane → Z) (panes : list ObservedPane) : Z :=
  match map f panes with [] => 0 | x :: r => foldl Z.max x r end.

(** The layout and the order a reflow aims at, or [None] where it gives up. *)
Definition reflow_plan (panes : list ObservedPane) (window : TopologyWindow) (window_name : string)
    (prefer_topology_layout : bool) (w h : Z) : option (FixedLayout * list string) :=
  let from_topology :=
    if prefer_topology_layout
    then build_topology_layout panes (tw_user_layout window) window_name (tw_sidebar_right window) w h
    else None in
  match from_topology with
  | Some p => Some p
  | None =>
      let c := classify_panes panes (tw_agent_names window) window_name in
      if negb (length c.2 =? length (tw_agent_names window))%nat || (1 <? length c.1)%nat then None
      else if negb (length c.1 + length c.2 =? length panes)%nat then None
      else match build_fixed_layout (head c.1) c.2 w h with
           | (Some F, order) => Some (F, order)
           | (None, _) => None
           end
  end.

(** The commands sent, and the pair the function returns; [IndexError] is the
    exhausted list of leaf ids. *)
Definition reflow_agent_window_fixed (list_reply select_reply : completed)
    (swap_reply : nat → swap_cmd → option string) (window : option TopologyWindow)
    (window_name : string) (prefer_topology_layout : bool)
    : list tmux_cmd * result (bool * option string) :=
  match window with
  | None => ([], Ok (false, None))
  | Some tw =>
      if bool_decide (tw_agent_names tw = []) ||
         (blank (tw_user_layout tw) && (6 <? length (tw_agent_names tw))%nat)
      then ([], Ok (false, None))
      else
        match observed_panes list_reply with
        | (_, Some error) => ([ListPanes], Ok (false, Some error))
        | ([], None) => ([ListPanes], Ok (false, None))
        | (panes, None) =>
            let w := max_extent (λ p, op_pane_left p + op_pane_width p) panes in
            let h := max_extent (λ p, op_pane_top p + op_pane_height p) panes in
            if (w <=? 0) || (h <=? 0) then ([ListPanes], Ok (false, None))
            else
              match reflow_plan panes tw window_name prefer_topology_layout w h with
              | None => ([ListPanes], Ok (false, None))
              | Some (F, order) =>
                  match select_layout_text F with
                  | None => ([ListPanes], raise IndexError "pop from empty list")
                  | Some layout =>
                      if failed select_reply
                      then ([ListPanes; SelectLayout layout],
                            Ok (false, Some (failure_detail select_reply "fixed select-layout failed")))
                      else
                        let r := apply_visual_order swap_reply (map op_pane_id panes) order in
                        ([ListPanes; SelectLayout layout] ++ map SwapPane r.1,
                         Ok (match r.2 with Some e => (false, Some e) | None => (true, None) end))
                  end
              end
        end
  end.

(** What [swap-pane] does to the order of the panes on screen. *)
Definition run_swap (order : list string) (c : swap_cmd) : list string :=
  match index_of (sw_source c) order, index_of (sw_target c) order with
  | Some i, Some j => swap_at i j order
  | _, _ => order
  end.

End Reflow.
