(* ===== verification/ReflowLemmas.v ===== *)
(** Lemmas on the panes of a layout: what materialising a layout does to the
    multiplexer, that the computed geometry tiles the window, that the swaps bring the
    panes into order, and the arithmetic of the layout checksum.

    The geometry of [agent_window_reflow.py]: every layout it computes tiles its area
    exactly ([fits]), with one cell of border between siblings.

    The swaps of [_apply_visual_order]: run on the observed order they give the desired
    one, and there are fewer of them than panes. *)

From Stdlib Require Import Ascii String ZArith Lia.
From stdpp Require Import base list strings pretty sorting.
From S2P Require Import Prelude PyData Names Text Layout LayoutParser LayoutPanes.

Local Open Scope Z_scope.

(** ** Materialising a layout *)

Import Materialize.

Definition split_total (t : LayoutNode) : nat := pred (length (iter_leaves t)).

Lemma iter_leaves_length t : (0 < length (iter_leaves t))%nat.
Proof. induction t as [l|k a IHa b IHb]; cbn; rewrite ?length_app; lia. Qed.

Lemma leaf_count_length t : leaf_count t = Z.of_nat (length (iter_leaves t)).
Proof. induction t as [l|k a IHa b IHb]; cbn; rewrite ?length_app; lia. Qed.

Lemma split_total_branch k a b : split_total (Branch k a b) = S (split_total a + split_total b).
Proof.
  unfold split_total. cbn. rewrite length_app.
  pose proof (iter_leaves_length a). pose proof (iter_leaves_length b). lia.
Qed.

Section materialize.

Variable pane : nat → string.
Variable split_reply : nat → split_cmd → result string.
Variable percent_of : LayoutNode → LayoutNode → Z.

(** The n-th pane the multiplexer makes is [pane n]. *)
Hypothesis reply_pane : ∀ n c p, split_reply n c = Ok p → p = pane n.

(** The panes of the leaves of [t], from left to right, when [t] starts in
    [parent] and [n] splits came before. *)
Fixpoint leaf_panes (parent : string) (n : nat) (t : LayoutNode) : list string :=
  match t with
  | Leaf _ => [parent]
  | Branch _ a b =>
      leaf_panes parent (S n) a ++ leaf_panes (pane n) (S n + split_total a) b
  end.

Lemma leaf_panes_length parent n t : length (leaf_panes parent n t) = length (iter_leaves t).
Proof.
  revert parent n. induction t as [l|k a IHa b IHb]; intros parent n; [done|].
  cbn. by rewrite !length_app, IHa, IHb.
Qed.

Lemma leaf_panes_head parent n t : head (leaf_panes parent n t) = Some parent.
Proof.
  revert parent n. induction t as [l|k a IHa b IHb]; intros parent n; [done|].
  cbn. specialize (IHa parent (S n)). by destruct (leaf_panes parent (S n) a).
Qed.

Definition percents_ok (s : panes) : Prop := Forall (λ c, 1 <= sp_percent c <= 99) (pn_splits s).

Lemma clamp_bounds lo hi n : lo <= hi → lo <= clamp lo hi n <= hi.
Proof. unfold clamp. lia. Qed.

Lemma materialize_spec t parent s :
  percents_ok s →
  wp (materialize_layout split_reply percent_of parent t)
    (λ _ s', percents_ok s' ∧
       length (pn_splits s') = (length (pn_splits s) + split_total t)%nat ∧
       pn_assigned s' = pn_assigned s ++
         zip (iter_layout_names t) (leaf_panes parent (length (pn_splits s)) t))
    (λ e s', percents_ok s' ∧ ∃ n c, split_reply n c = Err e) s.
Proof.
  revert parent s. induction t as [l|k a IHa b IHb]; intros parent s Hs; cbn [materialize_layout].
  - apply wp_mod. split; [done|]. split; [cbn; lia|done].
  - apply wp_bind. unfold wp, split_pane.
    destruct (split_reply _ _) as [p|e] eqn:E; [|by eauto]. apply reply_pane in E as ->.
    assert (Hs1 : percents_ok (mkPanes (pn_splits s ++
      [mkSplit parent (direction_of k) (clamp 1 99 (percent_of a b))]) (pn_assigned s))).
    { apply Forall_app. split; [done|]. constructor; [|done]. by apply clamp_bounds. }
    apply wp_bind. apply (wp_mono _ _ _ _ _ _ (IHa parent _ Hs1)); [|done].
    intros _ s2 (Hs2 & L2 & A2).
    apply (wp_mono _ _ _ _ _ _ (IHb _ s2 Hs2)); [|done].
    intros _ s3 (Hs3 & L3 & A3). cbn [pn_splits pn_assigned] in *.
    rewrite length_app in L2, A2. cbn [length] in L2, A2.
    split; [done|]. split; [rewrite split_total_branch; lia|].
    rewrite A3, A2, L2. unfold iter_layout_names. cbn [iter_leaves leaf_panes].
    rewrite map_app, zip_with_app.
    + by rewrite <-app_assoc, !Nat.add_1_r.
    + by rewrite length_map, leaf_panes_length.
Qed.

End materialize.

Section panes_distinct.

Variable pane : nat → string.
Hypothesis pane_inj : Inj (=) (=) pane.

Lemma leaf_panes_in parent n t p :
  p ∈ leaf_panes pane parent n t → p = parent ∨ ∃ i, (n <= i < n + split_total t)%nat ∧ p = pane i.
Proof.
  revert parent n. induction t as [l|k a IHa b IHb]; intros parent n; cbn [leaf_panes].
  - intros ->%list_elem_of_singleton. by left.
  - rewrite split_total_branch. intros [H|H]%elem_of_app.
    + apply IHa in H as [->|(i & Hi & ->)]; [by left|right]. exists i. split; [lia|done].
    + right. apply IHb in H as [->|(i & Hi & ->)]; eexists; (split; [|done]); lia.
Qed.

Lemma leaf_panes_nodup parent n t :
  (∀ i, (n <= i)%nat → parent ≠ pane i) → NoDup (leaf_panes pane parent n t).
Proof.
  revert parent n. induction t as [l|k a IHa b IHb]; intros parent n Hp; cbn [leaf_panes].
  - apply NoDup_singleton.
  - apply NoDup_app. split; [|split].
    + apply IHa. intros i Hi. apply Hp. lia.
    + intros p Ha Hb. apply leaf_panes_in in Ha, Hb.
      destruct Ha as [->|(i & Hi & ->)], Hb as [Hb|(j & Hj & Hb)].
      * by apply (Hp n).
      * apply (Hp j); [lia|done].
      * apply pane_inj in Hb. lia.
      * apply pane_inj in Hb. lia.
    + apply IHb. intros i Hi E. apply pane_inj in E. lia.
Qed.

End panes_distinct.

Import Reflow.

(** ** Exact tilings *)

(** [fits t w h l tp]: [t] has width [w], height [h] and its corner at [(l, tp)], all
    sizes are positive, and the children of every branch follow each other with one
    cell of border, from one end of the branch to the other. *)
Inductive fits : FixedLayout → Z → Z → Z → Z → Prop :=
  | fits_leaf p w h l tp : 0 < w → 0 < h → fits (FLeaf p w h l tp) w h l tp
  | fits_row cs w h l tp :
      row cs h tp l (l + w) → fits (FBranch w h l tp Horizontal cs) w h l tp
  | fits_col cs w h l tp :
      col cs w l tp (tp + h) → fits (FBranch w h l tp Vertical cs) w h l tp
with row : list FixedLayout → Z → Z → Z → Z → Prop :=
  | row_last c w h tp from : fits c w h from tp → row [c] h tp from (from + w)
  | row_cons c cs w h tp from to :
      fits c w h from tp → row cs h tp (from + w + 1) to → row (c :: cs) h tp from to
with col : list FixedLayout → Z → Z → Z → Z → Prop :=
  | col_last c w h l from : fits c w h l from → col [c] w l from (from + h)
  | col_cons c cs w h l from to :
      fits c w h l from → col cs w l (from + h + 1) to → col (c :: cs) w l from to.

Scheme fits_mut := Minimality for fits Sort Prop
  with row_mut := Minimality for row Sort Prop
  with col_mut := Minimality for col Sort Prop.
Combined Scheme tiling_ind from fits_mut, row_mut, col_mut.

Lemma row_two a b wa wb h l tp :
  fits a wa h l tp → fits b wb h (l + wa + 1) tp → row [a; b] h tp l (l + (wa + 1 + wb)).
Proof.
  intros Ha Hb. apply (row_cons _ _ wa); [done|].
  replace (l + (wa + 1 + wb)) with (l + wa + 1 + wb) by lia. by constructor.
Qed.

Lemma col_two a b ha hb w l tp :
  fits a w ha l tp → fits b w hb l (tp + ha + 1) → col [a; b] w l tp (tp + (ha + 1 + hb)).
Proof.
  intros Ha Hb. apply (col_cons _ _ _ ha); [done|].
  replace (tp + (ha + 1 + hb)) with (tp + ha + 1 + hb) by lia. by constructor.
Qed.

(** ** Rectangles *)

Record rect := mkRect { r_left : Z; r_top : Z; r_width : Z; r_height : Z }.

Fixpoint pane_rects (t : FixedLayout) : list (string * rect) :=
  match t with
  | FLeaf p w h l tp => [(p, mkRect l tp w h)]
  | FBranch _ _ _ _ _ children => concat (map pane_rects children)
  end.

Definition inside (r : rect) (w h l tp : Z) : Prop :=
  0 < r_width r ∧ 0 < r_height r ∧ l <= r_left r ∧ r_left r + r_width r <= l + w ∧
  tp <= r_top r ∧ r_top r + r_height r <= tp + h.

(** No cell belongs to both. *)
Definition disjoint_rects (r r' : rect) : Prop :=
  ¬ ∃ x y, (r_left r <= x < r_left r + r_width r ∧ r_top r <= y < r_top r + r_height r) ∧
           (r_left r' <= x < r_left r' + r_width r' ∧ r_top r' <= y < r_top r' + r_height r').

Fixpoint pairwise {A} (R : A → A → Prop) (l : list A) : Prop :=
  match l with [] => True | x :: r => Forall (R x) r ∧ pairwise R r end.

Lemma pairwise_app {A} (R : A → A → Prop) l k :
  pairwise R l → pairwise R k → (∀ x y, x ∈ l → y ∈ k → R x y) → pairwise R (l ++ k).
Proof.
  induction l as [|x l IH]; intros Hl Hk H; [done|]. destruct Hl as [Hx Hl]. split.
  - apply Forall_app. split; [done|]. apply Forall_forall. intros y Hy. apply H; [by left|done].
  - apply IH; [done|done|]. intros y z Hy. apply H. by right.
Qed.

(** The rectangles [rs] lie in the area and do not overlap. *)
Definition packed (rs : list rect) (w h l tp : Z) : Prop :=
  Forall (λ r, inside r w h l tp) rs ∧ pairwise disjoint_rects rs.

Lemma inside_mono r w h l tp w' h' l' tp' :
  l' <= l → l + w <= l' + w' → tp' <= tp → tp + h <= tp' + h' →
  inside r w h l tp → inside r w' h' l' tp'.
Proof. unfold inside. lia. Qed.

Lemma packed_beside rs ks w h l tp w1 h1 l1 tp1 w2 h2 l2 tp2 :
  packed rs w1 h1 l1 tp1 → packed ks w2 h2 l2 tp2 →
  l1 + w1 <= l2 ∨ tp1 + h1 <= tp2 →
  l <= l1 → l1 + w1 <= l + w → tp <= tp1 → tp1 + h1 <= tp + h →
  l <= l2 → l2 + w2 <= l + w → tp <= tp2 → tp2 + h2 <= tp + h →
  packed (rs ++ ks) w h l tp.
Proof.
  intros [H1 D1] [H2 D2] Hs **. split.
  - apply Forall_app. split; (eapply Forall_impl; [eassumption|]); cbn;
      intros r; apply inside_mono; lia.
  - apply pairwise_app; [done|done|]. rewrite Forall_forall in H1, H2.
    intros x y Hx%H1 Hy%H2. unfold inside in *. intros (a & b & Ha & Hb). lia.
Qed.

Definition rects (t : FixedLayout) : list rect := map snd (pane_rects t).

Lemma rects_branch w h l tp k cs : rects (FBranch w h l tp k cs) = concat (map rects cs).
Proof.
  unfold rects. cbn. induction cs as [|c cs IH]; [done|]. cbn. by rewrite map_app, IH.
Qed.

Lemma tiling_packed :
  (∀ t w h l tp, fits t w h l tp → packed (rects t) w h l tp ∧ 0 < w ∧ 0 < h) ∧
  (∀ cs h tp from to, row cs h tp from to →
     packed (concat (map rects cs)) (to - from) h from tp ∧ 0 < to - from ∧ 0 < h) ∧
  (∀ cs w l from to, col cs w l from to →
     packed (concat (map rects cs)) w (to - from) l from ∧ 0 < to - from ∧ 0 < w).
Proof.
  apply tiling_ind.
  - intros p w h l tp Hw Hh. split; [|done]. split; [|done].
    constructor; [|done]. unfold inside. cbn. lia.
  - intros cs w h l tp _ (H & ? & ?). rewrite rects_branch.
    replace (l + w - l) with w in * by lia. done.
  - intros cs w h l tp _ (H & ? & ?). rewrite rects_branch.
    replace (tp + h - tp) with h in * by lia. done.
  - intros c w h tp from _ (H & ? & ?). cbn. rewrite app_nil_r.
    replace (from + w - from) with w by lia. done.
  - intros c cs w h tp from to _ (H & ? & ?) _ (Hr & ? & ?). cbn.
    split; [|lia]. eapply (packed_beside _ _ _ _ _ _ _ _ _ _ _ _ _ _ H Hr); lia.
  - intros c w h l from _ (H & ? & ?). cbn. rewrite app_nil_r.
    replace (from + h - from) with h by lia. done.
  - intros c cs w h l from to _ (H & ? & ?) _ (Hr & ? & ?). cbn.
    split; [|lia]. eapply (packed_beside _ _ _ _ _ _ _ _ _ _ _ _ _ _ H Hr); lia.
Qed.

Lemma fits_packed t w h l tp : fits t w h l tp → packed (rects t) w h l tp.
Proof. intros H. by apply tiling_packed in H as [? _]. Qed.

(** ** The layouts of [_layout_from_spec] *)

Lemma clamp_range lo hi n : lo <= hi → lo <= clamp lo hi n <= hi.
Proof. apply clamp_bounds. Qed.

Lemma split_sizes_sum a b total s :
  split_sizes a b total = s → (0 <? s.1) && (0 <? s.2) = true → s.1 + 1 + s.2 = total.
Proof.
  unfold split_sizes. intros <-. destruct (Z.ltb_spec (total - 1) 2); cbn; [done|]. lia.
Qed.

(** A split succeeds as soon as there is room for two panes and a border. *)
Lemma split_sizes_pos a b total :
  3 <= total → 0 < (split_sizes a b total).1 ∧ 0 < (split_sizes a b total).2.
Proof.
  intros H. unfold split_sizes. destruct (Z.ltb_spec (total - 1) 2); [lia|]. cbn.
  pose proof (clamp_range 1 (total - 1 - 1) (round_div ((total - 1) *
    percent_or a b (round_div (leaf_count b * 100) (Z.max 1 (leaf_count a + leaf_count b)))) 100)
    ltac:(lia)). lia.
Qed.

Lemma layout_from_spec_fits pbl t w h l tp F :
  0 < w → 0 < h → layout_from_spec pbl t w h l tp = Some F →
  fits F w h l tp ∧
  map fst (pane_rects F) = omap (λ n, option_map op_pane_id (pane_for pbl n)) (iter_layout_names t).
Proof.
  revert w h l tp F. induction t as [lf|k a IHa b IHb]; intros w h l tp F Hw Hh H.
  - cbn in H |- *. destruct (pane_for pbl (ll_name lf)); [|done]. injection H as <-.
    split; [by constructor|done].
  - unfold iter_layout_names in *. cbn [iter_leaves]. rewrite map_app, omap_app. cbn in H.
    destruct k.
    + destruct (_ || _) eqn:E; [done|]. apply orb_false_iff in E as [E1%Z.leb_gt E2%Z.leb_gt].
      pose proof (split_sizes_sum a b w _ eq_refl) as S. rewrite !(proj2 (Z.ltb_lt _ _)) in S by done.
      specialize (S eq_refl).
      destruct (layout_from_spec pbl a _ _ _ _) as [A|] eqn:EA; [|done].
      destruct (layout_from_spec pbl b _ _ _ _) as [B|] eqn:EB; [|done]. injection H as <-.
      apply IHa in EA as [FA NA]; [|done..]. apply IHb in EB as [FB NB]; [|done..].
      split; [|cbn; by rewrite app_nil_r, map_app, NA, NB].
      apply fits_row. rewrite <-S. by apply row_two.
    + destruct (_ || _) eqn:E; [done|]. apply orb_false_iff in E as [E1%Z.leb_gt E2%Z.leb_gt].
      pose proof (split_sizes_sum a b h _ eq_refl) as S. rewrite !(proj2 (Z.ltb_lt _ _)) in S by done.
      specialize (S eq_refl).
      destruct (layout_from_spec pbl a _ _ _ _) as [A|] eqn:EA; [|done].
      destruct (layout_from_spec pbl b _ _ _ _) as [B|] eqn:EB; [|done]. injection H as <-.
      apply IHa in EA as [FA NA]; [|done..]. apply IHb in EB as [FB NB]; [|done..].
      split; [|cbn; by rewrite app_nil_r, map_app, NA, NB].
      apply fits_col. rewrite <-S. by apply col_two.
Qed.

(** ** The columns of [_build_fixed_layout] *)

(** The heights [stack_children] gives panes [index], [index + 1], … of a column. *)
Fixpoint stack_height (n : nat) (base remainder index : Z) : Z :=
  match n with
  | O => 0
  | S n => base + (if index <? remainder then 1 else 0) + stack_height n base remainder (index + 1)
  end.

Lemma stack_height_total n base remainder index :
  0 <= index →
  stack_height n base remainder index =
    Z.of_nat n * base + Z.max 0 (Z.min (Z.of_nat n) (remainder - index)).
Proof.
  revert index. induction n as [|n IH]; intros index Hi; cbn [stack_height]; [lia|].
  rewrite IH by lia. destruct (Z.ltb_spec index remainder); lia.
Qed.

Lemma stack_children_col panes base remainder index width left cursor :
  panes ≠ [] → 0 < width → 0 < base →
  col (stack_children panes base remainder index width left cursor) width left cursor
    (cursor + stack_height (length panes) base remainder index + Z.of_nat (length panes) - 1).
Proof.
  intros Hp Hw Hb. revert index cursor.
  induction panes as [|p rest IH]; intros index cursor; [done|].
  cbn [stack_children stack_height length].
  set (h := base + (if index <? remainder then 1 else 0)).
  assert (0 < h) by (unfold h; destruct (index <? remainder); lia).
  destruct rest as [|q rest].
  - cbn [stack_children stack_height length].
    replace (_ + _ - 1) with (cursor + h) by lia. by repeat constructor.
  - apply (col_cons _ _ _ h); [by constructor|].
    eapply eq_rect; [by apply (IH ltac:(done) (index + 1) (cursor + h + 1))|]. lia.
Qed.

Lemma stack_children_ids panes base remainder index width left cursor :
  map fst (concat (map pane_rects (stack_children panes base remainder index width left cursor))) =
  map op_pane_id panes.
Proof.
  revert index cursor. induction panes as [|p rest IH]; intros; [done|]. cbn. by rewrite IH.
Qed.

Lemma fixed_stack_fits panes w h l tp F :
  0 < w → 0 < h → fixed_stack panes w h l tp = Some F →
  fits F w h l tp ∧ map fst (pane_rects F) = map op_pane_id panes.
Proof.
  intros Hw Hh. unfold fixed_stack. destruct panes as [|p [|q rest]]; [done| |].
  - intros [= <-]. split; [by constructor|done].
  - set (panes := p :: q :: rest). set (n := Z.of_nat (length panes)).
    destruct (Z.ltb_spec (h - (n - 1)) n) as [|Hn]; [done|]. intros E.
    apply (inj Some) in E as <-. split; [|cbn [pane_rects]; apply stack_children_ids].
    assert (0 < n) by (unfold n, panes; cbn; lia).
    apply fits_col. eapply eq_rect; [apply stack_children_col; [done|done|]|].
    + apply Z.div_str_pos. lia.
    + cbv beta. rewrite stack_height_total by lia. fold n.
      pose proof (Z.div_mod (h - (n - 1)) n). pose proof (Z.mod_pos_bound (h - (n - 1)) n). lia.
Qed.

(** A column has room as soon as every pane gets one row and its border. *)
Lemma fixed_stack_room panes w h l tp :
  panes ≠ [] → 2 * Z.of_nat (length panes) - 1 <= h → is_Some (fixed_stack panes w h l tp).
Proof.
  intros Hp Hh. destruct panes as [|p [|q rest]]; [done|by eexists|]. unfold fixed_stack.
  destruct (Z.ltb_spec (h - (Z.of_nat (length (p :: q :: rest)) - 1))
    (Z.of_nat (length (p :: q :: rest)))); [lia|by eexists].
Qed.

Lemma every_other_length {A} (l : list A) b :
  length (every_other b l) = if b then Nat.div2 (S (length l)) else Nat.div2 (length l).
Proof.
  revert b. induction l as [|x l IH]; intros []; cbn [every_other length]; rewrite ?IH; done.
Qed.

Lemma agent_layout_fits panes w h l tp F :
  0 < w → 0 < h → agent_layout panes w h l tp = Some F →
  fits F w h l tp ∧ map fst (pane_rects F) = map op_pane_id (desired_agent_visual_order panes).
Proof.
  intros Hw Hh. unfold agent_layout, desired_agent_visual_order.
  set (L := every_other true panes). set (R := every_other false panes).
  destruct R as [|r0 R'] eqn:ER.
  - rewrite app_nil_r. intros H. assert (fixed_stack L w h l tp = Some F) as H' by by destruct L as [|? []].
    by apply fixed_stack_fits.
  - assert (HL : ∃ a L', L = a :: L').
    { unfold L, R in *. destruct panes as [|a [|b rest]]; [done..|]. cbn. eauto. }
    destruct HL as (a & L' & EL). rewrite EL. intros H.
    assert (H' : (if ((w - 1) / 2 <=? 0) || (w - (w - 1) / 2 - 1 <=? 0) then None
      else match fixed_stack (a :: L') ((w - 1) / 2) h l tp,
                 fixed_stack (r0 :: R') (w - (w - 1) / 2 - 1) h (l + (w - 1) / 2 + 1) tp with
           | Some l0, Some r1 => Some (FBranch w h l tp Horizontal [l0; r1])
           | _, _ => None end) = Some F) by by destruct L'.
    clear H. destruct (_ || _) eqn:E; [done|]. apply orb_false_iff in E as [E1%Z.leb_gt E2%Z.leb_gt].
    destruct (fixed_stack (a :: L') _ _ _ _) as [A|] eqn:EA; [|done].
    destruct (fixed_stack (r0 :: R') _ _ _ _) as [B|] eqn:EB; [|done]. injection H' as <-.
    apply fixed_stack_fits in EA as [FA NA]; [|done..]. apply fixed_stack_fits in EB as [FB NB]; [|done..].
    split; [|cbn; by rewrite app_nil_r, !map_app, NA, NB].
    apply fits_row. replace (l + w) with (l + ((w - 1) / 2 + 1 + (w - (w - 1) / 2 - 1))) by lia.
    by apply row_two.
Qed.

Lemma agent_layout_room panes w h l tp :
  panes ≠ [] → 3 <= w → Z.of_nat (length panes) <= h → is_Some (agent_layout panes w h l tp).
Proof.
  intros Hp Hw Hh. unfold agent_layout, desired_agent_visual_order.
  pose proof (every_other_length panes true) as LL. pose proof (every_other_length panes false) as LR.
  cbv iota in LL, LR.
  assert (Hroom : ∀ k, (k <= Nat.div2 (S (length panes)))%nat → 2 * Z.of_nat k - 1 <= h).
  { intros k Hk. pose proof (Nat.div2_odd (S (length panes))) as Ho.
    destruct (Nat.odd _); cbn [Nat.b2n] in Ho; lia. }
  destruct (every_other true panes) as [|a L] eqn:EL; [by destruct panes|].
  destruct (every_other false panes) as [|b R] eqn:ER.
  - rewrite app_nil_r. destruct L as [|a' L]; [by eexists|].
    apply fixed_stack_room; [done|]. apply Hroom. by rewrite LL.
  - destruct (fixed_stack_room (a :: L) ((w - 1) / 2) h l tp) as [A EA]; [done|apply Hroom; lia|].
    destruct (fixed_stack_room (b :: R) (w - (w - 1) / 2 - 1) h (l + (w - 1) / 2 + 1) tp) as [B EB];
      [done| |].
    { apply Hroom. rewrite LR. apply Nat.div2_le_mono. lia. }
    assert (0 < (w - 1) / 2) by (apply Z.div_str_pos; lia).
    assert ((w - 1) / 2 <= w - 2) by (apply Z.div_le_upper_bound; lia).
    destruct (Z.leb_spec ((w - 1) / 2) 0); [lia|]. destruct (Z.leb_spec (w - (w - 1) / 2 - 1) 0); [lia|].
    cbn [orb]. rewrite EA, EB. destruct L; by eexists.
Qed.

(** ** Whole windows *)

Lemma build_fixed_layout_fits sidebar panes w h F order :
  0 < h → (∀ s, sidebar = Some s → 0 < op_pane_width s) →
  build_fixed_layout sidebar panes w h = (Some F, order) →
  fits F w h 0 0 ∧ map fst (pane_rects F) = order.
Proof.
  intros Hh Hs. unfold build_fixed_layout. destruct sidebar as [s|].
  - destruct (Z.leb_spec (w - (op_pane_width s + 1)) 0); [done|].
    destruct (agent_layout _ _ _ _ _) as [user|] eqn:E; [|done].
    apply agent_layout_fits in E as [FU NU]; [|lia|done]. intros [= <- <-].
    split; [|cbn; by rewrite app_nil_r, NU].
    apply fits_row. specialize (Hs s eq_refl).
    replace (0 + w) with (0 + (op_pane_width s + 1 + (w - (op_pane_width s + 1)))) by lia.
    apply row_two; [by constructor|]. replace (0 + op_pane_width s + 1) with (op_pane_width s + 1) by lia.
    done.
  - rewrite Z.sub_0_r. destruct (Z.leb_spec w 0); [done|].
    destruct (agent_layout _ _ _ _ _) as [user|] eqn:E; [|done].
    apply agent_layout_fits in E as [FU NU]; [|lia|done]. by intros [= <- <-].
Qed.

(** The sidebars a classification collects are panes of the window. *)
Lemma foldl_collected {B} (f : list ObservedPane * B → ObservedPane → list ObservedPane * B) ps acc s :
  (∀ acc p, s ∈ (f acc p).1 → s ∈ acc.1 ∨ s = p) →
  s ∈ (foldl f acc ps).1 → s ∈ acc.1 ∨ s ∈ ps.
Proof.
  intros Hf. revert acc. induction ps as [|p ps IH]; intros acc; cbn [foldl]; [by left|].
  intros [Hin| ?]%IH; [|right; by right]. apply Hf in Hin as [?| ->]; [by left|right; by left].
Qed.

Lemma classify_topology_sidebars panes names window s :
  s ∈ (classify_topology_panes panes names window).1 → s ∈ panes.
Proof.
  intros Hin. apply foldl_collected in Hin as [Hin|Hin]; [by apply elem_of_nil in Hin|done|].
  intros acc p H. destruct (is_sidebar_of window p); [|left; revert H; cbv zeta; by case_match].
  apply elem_of_app in H as [?|H]; [by left|]. apply list_elem_of_singleton in H as ->. by right.
Qed.

Lemma classify_sidebars panes names window s :
  s ∈ (classify_panes panes names window).1 → s ∈ panes.
Proof.
  unfold classify_panes. cbn [fst]. intros Hin.
  apply foldl_collected in Hin as [Hin|Hin]; [by apply elem_of_nil in Hin|done|].
  intros acc p H. destruct (is_sidebar_of window p); [|left; revert H; cbv zeta; by case_match].
  apply elem_of_app in H as [?|H]; [by left|]. apply list_elem_of_singleton in H as ->. by right.
Qed.

Lemma head_elem {A} (l : list A) x : head l = Some x → x ∈ l.
Proof. destruct l; [done|]. intros [= ->]. by left. Qed.

Lemma build_topology_layout_fits panes text name right w h F order :
  0 < h → (∀ p, p ∈ panes → 0 < op_pane_width p) →
  build_topology_layout panes text name right w h = Some (F, order) →
  fits F w h 0 0 ∧ map fst (pane_rects F) = order.
Proof.
  intros Hh Hs. unfold build_topology_layout. destruct (blank text); [done|].
  destruct (parse_layout_spec (strip text)) as [spec|]; [|done].
  destruct (_ || negb (bool_decide (NoDup _))); [done|].
  set (c := classify_topology_panes panes (iter_layout_names spec) name).
  assert (Hc : ∀ s, s ∈ c.1 → s ∈ panes) by apply classify_topology_sidebars.
  destruct (_ || negb (same_names _ _)); [done|]. destruct (negb _); [done|].
  destruct (head c.1) as [s|] eqn:Eh.
  - assert (Hw : 0 < op_pane_width s).
    { by apply Hs, Hc, head_elem. }
    destruct (Z.leb_spec (w - op_pane_width s - 1) 0); [done|].
    destruct (layout_from_spec _ _ _ _ _ _) as [user|] eqn:E; [|done].
    apply layout_from_spec_fits in E as [FU NU]; [|lia|done].
    destruct right; intros [= <- <-].
    + split; [|cbn; by rewrite map_app, NU].
      apply fits_row. replace (0 + w) with (0 + ((w - op_pane_width s - 1) + 1 + op_pane_width s)) by lia.
      apply row_two; [done|]. replace (0 + (w - op_pane_width s - 1) + 1) with (w - op_pane_width s - 1 + 1) by lia.
      by constructor.
    + split; [|cbn; by rewrite app_nil_r, NU].
      apply fits_row. replace (0 + w) with (0 + (op_pane_width s + 1 + (w - op_pane_width s - 1))) by lia.
      apply row_two; [by constructor|]. done.
  - rewrite !Z.sub_0_r. destruct (Z.leb_spec w 0); [done|].
    destruct (layout_from_spec _ _ _ _ _ _) as [user|] eqn:E; [|done].
    apply layout_from_spec_fits in E as [FU NU]; [|lia|done]. by intros [= <- <-].
Qed.

Lemma reflow_plan_fits panes tw name prefer w h F order :
  0 < h → (∀ p, p ∈ panes → 0 < op_pane_width p) →
  reflow_plan panes tw name prefer w h = Some (F, order) →
  fits F w h 0 0 ∧ map fst (pane_rects F) = order.
Proof.
  intros Hh Hs. unfold reflow_plan.
  destruct (if prefer then _ else None) as [[F' o']|] eqn:E.
  - intros [= -> ->]. destruct prefer; [|done]. by apply build_topology_layout_fits in E.
  - clear E. destruct (_ || (1 <? _)%nat); [done|]. destruct (negb _); [done|].
    destruct (build_fixed_layout _ _ _ _) as [[F'|] o'] eqn:E; [|done]. intros [= -> ->].
    apply build_fixed_layout_fits in E; [done|done|].
    intros s Es. by apply Hs, (classify_sidebars panes (tw_agent_names tw) name), head_elem.
Qed.

(** ** The checksum *)

Definition rotate16 (x : Z) : Z := x / 2 + 32768 * (x mod 2).

Lemma checksum_step_eq x c :
  checksum_step x c = (rotate16 x + code c) mod 65536.
Proof.
  unfold checksum_step, rotate16.
  rewrite Z.shiftr_div_pow2, Z.shiftl_mul_pow2 by lia.
  change 65535 with (Z.ones 16). change 1 with (Z.ones 1) at 2.
  rewrite !Z.land_ones by lia. f_equal. change (2 ^ 1) with 2. change (2 ^ 15) with 32768. lia.
Qed.

Lemma checksum_step_range x c : 0 <= checksum_step x c < 65536.
Proof. rewrite checksum_step_eq. by apply Z.mod_pos_bound. Qed.

Lemma rotate16_range x : 0 <= x < 65536 → 0 <= rotate16 x < 65536.
Proof. unfold rotate16. intros H. Z.to_euclidean_division_equations. lia. Qed.

Lemma mod_cancel a b c :
  0 <= a < 65536 → 0 <= b < 65536 → (a + c) mod 65536 = (b + c) mod 65536 → a = b.
Proof. intros Ha Hb H. Z.to_euclidean_division_equations. lia. Qed.

Lemma checksum_step_inj x y c :
  0 <= x < 65536 → 0 <= y < 65536 → checksum_step x c = checksum_step y c → x = y.
Proof.
  intros Hx Hy. rewrite !checksum_step_eq. intros H.
  apply mod_cancel in H; [|by apply rotate16_range..]. unfold rotate16 in H.
  Z.to_euclidean_division_equations. lia.
Qed.

Lemma code_inj c d : code c = code d → c = d.
Proof.
  unfold code. intros H%N2Z.inj. by rewrite <-(ascii_N_embedding c), <-(ascii_N_embedding d), H.
Qed.

Lemma checksum_step_char_inj x c d :
  0 <= x < 65536 → checksum_step x c = checksum_step x d → c = d.
Proof.
  intros Hx. rewrite !checksum_step_eq, !(Z.add_comm (rotate16 x)). intros H.
  pose proof (code_range c). pose proof (code_range d).
  apply mod_cancel in H; [|lia..]. by apply code_inj.
Qed.

Lemma checksum_range cs x : 0 <= x < 65536 → 0 <= foldl checksum_step x cs < 65536.
Proof.
  revert x. induction cs as [|c cs IH]; intros x Hx; [done|]. apply IH, checksum_step_range.
Qed.

Lemma checksum_inj cs x y :
  0 <= x < 65536 → 0 <= y < 65536 →
  foldl checksum_step x cs = foldl checksum_step y cs → x = y.
Proof.
  revert x y. induction cs as [|c cs IH]; intros x y Hx Hy H; [done|]. cbn in H.
  apply IH in H; [|apply checksum_step_range..]. by apply (checksum_step_inj _ _ c).
Qed.

Lemma list_ascii_append a b :
  list_ascii_of_string (String.append a b) = list_ascii_of_string a ++ list_ascii_of_string b.
Proof. induction a as [|c a IH]; [done|]. rewrite append_cons. cbn. by rewrite IH. Qed.

Lemma checksum_append a b :
  layout_checksum (String.append a b) = foldl checksum_step (layout_checksum a) (list_ascii_of_string b).
Proof. unfold layout_checksum. by rewrite list_ascii_append, foldl_app. Qed.

Lemma hex_digit_inj i j :
  0 <= i < 16 → 0 <= j < 16 → hex_digit i = hex_digit j → i = j.
Proof.
  intros Hi Hj H.
  assert (all : Forall (λ p, hex_digit (Z.of_nat p.1) = hex_digit (Z.of_nat p.2) → p.1 = p.2)
    (list_prod (seq 0 16) (seq 0 16))).
  { vm_compute. repeat constructor; discriminate. }
  rewrite Forall_forall in all. specialize (all (Z.to_nat i, Z.to_nat j)). cbn [fst snd] in all.
  rewrite !Z2Nat.id in all by lia.
  enough (Z.to_nat i = Z.to_nat j) by lia. apply all; [|done].
  apply list_elem_of_In, in_prod; apply in_seq; lia.
Qed.

Lemma hex_digit_length i : 0 <= i < 16 → String.length (hex_digit i) = 1%nat.
Proof.
  intros Hi.
  assert (all : Forall (λ n, String.length (hex_digit (Z.of_nat n)) = 1%nat) (seq 0 16))
    by (vm_compute; repeat constructor).
  rewrite Forall_forall in all. rewrite <-(Z2Nat.id i) by lia. apply all.
  apply list_elem_of_In, in_seq. lia.
Qed.

Lemma append_inj_length (a b c d : string) :
  String.length a = String.length c → String.append a b = String.append c d → a = c ∧ b = d.
Proof.
  revert c. induction a as [|x a IH]; intros [|y c] Hl; try done.
  rewrite !append_cons. intros [= -> H]. cbn in Hl. injection Hl as Hl.
  by destruct (IH c Hl H) as [-> ->].
Qed.

Lemma hex4_inj x y : 0 <= x < 65536 → 0 <= y < 65536 → hex4 x = hex4 y → x = y.
Proof.
  intros Hx Hy. unfold hex4. intros H.
  assert (b : ∀ z, 0 <= z mod 16 < 16) by (intros z; by apply Z.mod_pos_bound).
  apply append_inj_length in H as [H1 H]; [|by rewrite !hex_digit_length].
  apply append_inj_length in H as [H2 H]; [|by rewrite !hex_digit_length].
  apply append_inj_length in H as [H3 H4]; [|by rewrite !hex_digit_length].
  apply hex_digit_inj in H1, H2, H3, H4; [|done..].
  Z.to_euclidean_division_equations. lia.
Qed.

Lemma hex4_length x : String.length (hex4 x) = 4%nat.
Proof.
  assert (b : ∀ z, 0 <= z mod 16 < 16) by (intros z; by apply Z.mod_pos_bound).
  assert (l : ∀ a b, String.length (String.append a b) = (String.length a + String.length b)%nat).
  { induction a as [|c a IH]; intros s; [done|]. rewrite append_cons. cbn. by rewrite IH. }
  unfold hex4. rewrite !l, !hex_digit_length; done.
Qed.

(** ** Swaps *)

Local Close Scope Z_scope.

Lemma index_of_here x l r : x ∉ l → index_of x (l ++ x :: r) = Some (length l).
Proof.
  induction l as [|y l IH]; intros H; cbn; [by rewrite String.eqb_refl|].
  apply not_elem_of_cons in H as [Hy Hl].
  destruct (String.eqb_spec y x); [congruence|]. by rewrite IH.
Qed.

Lemma swap_at_middle pre s a d b :
  swap_at (length pre) (length (pre ++ s :: a)) (pre ++ s :: a ++ d :: b) = pre ++ d :: a ++ s :: b.
Proof.
  unfold swap_at. rewrite list_lookup_middle by done.
  replace (pre ++ s :: a ++ d :: b) with ((pre ++ s :: a) ++ d :: b) by by rewrite <-app_assoc.
  rewrite list_lookup_middle by done.
  assert (<[length pre := d]> ((pre ++ s :: a) ++ d :: b) = (pre ++ d :: a) ++ d :: b) as ->.
  { rewrite <-!app_assoc. rewrite insert_app_r_alt by done. by rewrite Nat.sub_diag. }
  replace (length (pre ++ s :: a)) with (length (pre ++ d :: a)) by by rewrite !length_app.
  rewrite insert_app_r_alt by done. rewrite Nat.sub_diag. cbn. by rewrite <-app_assoc.
Qed.

Lemma run_swap_middle pre s a d b :
  NoDup (pre ++ s :: a ++ d :: b) →
  run_swap (pre ++ s :: a ++ d :: b) (mkSwap s d) = pre ++ d :: a ++ s :: b ∧
  index_of d (pre ++ s :: a ++ d :: b) = Some (length (pre ++ s :: a)).
Proof.
  intros H. unfold run_swap. cbn [sw_source sw_target].
  assert (index_of d (pre ++ s :: a ++ d :: b) = Some (length (pre ++ s :: a))) as Ed.
  { replace (pre ++ s :: a ++ d :: b) with ((pre ++ s :: a) ++ d :: b) in H |- *
      by by rewrite <-app_assoc.
    apply index_of_here. apply NoDup_app in H as (_ & H & _). intros Hin. by apply (H d Hin), list_elem_of_here. }
  rewrite index_of_here, Ed; [by rewrite swap_at_middle|].
  apply NoDup_app in H as (_ & H & _). intros Hin. by apply (H s Hin), list_elem_of_here.
Qed.

(** From an order that agrees with the desired one up to a position, the loop either stops
    at a refused command or ends with the desired order. *)
Lemma swap_loop_spec swap_reply rest pre order sent :
  rest ≡ₚ order → NoDup (pre ++ order) →
  ∃ new err, swap_loop swap_reply (length pre) rest (pre ++ order) sent = (sent ++ new, err) ∧
    match err with
    | None => foldl run_swap (pre ++ order) new = pre ++ rest ∧ length new <= pred (length rest)
    | Some _ => ∃ n c d, swap_reply n c = Some d
    end.
Proof.
  revert pre order sent. induction rest as [|d rest IH]; intros pre order sent HP HN.
  - apply Permutation_nil_l in HP as <-. exists [], None. rewrite !app_nil_r.
    split; [done|]. split; [done|]. cbn. lia.
  - destruct order as [|s order]; [by apply Permutation_nil_r in HP|].
    cbn [swap_loop]. rewrite list_lookup_middle by done.
    destruct (String.eqb_spec s d) as [->|Hs].
    + apply Permutation.Permutation_cons_inv in HP.
      destruct (IH (pre ++ [d]) order sent) as (new & err & Hl & Hr); [done|by rewrite <-app_assoc|].
      rewrite length_app, <-!app_assoc, Nat.add_1_r in Hl. rewrite <-!app_assoc in Hr.
      exists new, err. split; [done|]. destruct err; [done|]. destruct Hr as [Hr Hn].
      split; [done|]. cbn. lia.
    + assert (d ∈ order) as (a & b & ->)%list_elem_of_split.
      { assert (d ∈ s :: order) as [?|?]%elem_of_cons; [|by subst|done].
        rewrite <-HP. apply list_elem_of_here. }
      destruct (run_swap_middle pre s a d b HN) as [Hrun Hidx]. rewrite Hidx. cbv zeta.
      destruct (swap_reply (length sent) (mkSwap s d)) as [e|] eqn:Ee.
      { exists [mkSwap s d], (Some (if truthy e then e else "swap-pane failed")). split; [done|]. by eauto. }
      rewrite swap_at_middle.
      assert (HP' : rest ≡ₚ a ++ s :: b).
      { apply (Permutation.Permutation_cons_inv (a := d)). rewrite HP.
        rewrite <-!Permutation_middle. apply perm_swap. }
      destruct (IH (pre ++ [d]) (a ++ s :: b) (sent ++ [mkSwap s d])) as (new & err & Hl & Hr); [done| |].
      { rewrite <-app_assoc. cbn.
        assert (pre ++ d :: a ++ s :: b ≡ₚ pre ++ s :: a ++ d :: b) as ->; [|done].
        apply Permutation_app_head. rewrite <-!Permutation_middle. apply perm_swap. }
      rewrite length_app, <-!app_assoc, Nat.add_1_r in Hl. rewrite <-!app_assoc in Hr.
      exists (mkSwap s d :: new), err. split.
      * change (pre ++ [d] ++ a ++ s :: b) with (pre ++ d :: a ++ s :: b) in Hl.
        rewrite Hl. done.
      * destruct err; [done|]. destruct Hr as [Hr Hn]. split; [cbn [foldl]; rewrite Hrun; exact Hr|].
        cbn. destruct rest; [by apply Permutation_nil_l in HP'; destruct a|cbn in *; lia].
Qed.

Lemma sorted_same a b :
  merge_sort String.le a = merge_sort String.le b ↔ a ≡ₚ b.
Proof.
  split.
  - intros H. rewrite <-(merge_sort_Permutation String.le a), H. apply merge_sort_Permutation.
  - intros H. apply (StronglySorted_unique String.le).
    + apply StronglySorted_merge_sort; apply _.
    + apply StronglySorted_merge_sort; apply _.
    + by rewrite !merge_sort_Permutation.
Qed.

Lemma apply_visual_order_spec reply current desired :
  NoDup current → current ≡ₚ desired →
  ∃ cmds err, apply_visual_order reply current desired = (cmds, err) ∧
    match err with
    | None => foldl run_swap current cmds = desired ∧ length cmds <= pred (length desired)
    | Some _ => ∃ n c d, reply n c = Some d
    end.
Proof.
  intros Hn HP. unfold apply_visual_order. rewrite bool_decide_eq_true_2 by by apply sorted_same.
  by apply (swap_loop_spec reply desired [] current []).
Qed.
