(* ===== verification/Topology.v ===== *)
(** Windows and layouts of a project configuration:
    [lib/agents/models_runtime/config_runtime/validation.py] (agents, default agents,
    the layout text of a configuration without windows), [topology.py] (window and tool
    window records, their validation), the part of [ProjectConfig.__post_init__]
    ([project.py]) that puts them together, and [lib/agents/models_runtime/layout_plan.py],
    which cuts the layout of a start out of a configuration.

    Of an agent specification only the fields read here are kept. *)

From Stdlib Require Import Ascii String ZArith Lia.
From stdpp Require Import base list strings pretty sorting.
From S2P Require Import Prelude PyData Names Layout LayoutParser.

Local Open Scope Z_scope.

Definition agent_error {A} (parts : list string) : result A :=
  raise AgentValidationError (String.concat "" parts).

(** [for x in l: acc.append(f(x))], stopping at the first exception. *)
Fixpoint map_result {A B} (f : A → result B) (l : list A) : result (list B) :=
  match l with
  | [] => Ok []
  | x :: r => let! y := f x in let! ys := map_result f r in Ok (y :: ys)
  end.

Definition str_list_repr (l : list string) : string := py_repr (VList (map VStr l)).

(** ** [validation.py] *)

Record AgentView := mkAgentView {
  av_name : string;
  av_provider : string;
  av_worktree : bool;
}.

Abbreviation agent_dict := (list (string * AgentView)).

Fixpoint normalize_agent_specs_go (todo acc : agent_dict) : result agent_dict :=
  match todo with
  | [] => Ok acc
  | (key, spec) :: r =>
      let! k := normalize_agent_name key in
      if mem_str k (map fst acc) then agent_error ["duplicate agent "; repr_str k]
      else if negb (String.eqb (av_name spec) k)
      then agent_error ["agent key "; repr_str k; " does not match spec name "; repr_str (av_name spec)]
      else normalize_agent_specs_go r (acc ++ [(k, spec)])
  end.

Definition normalize_agent_specs (agents : agent_dict) (allow_empty : bool) : result agent_dict :=
  let! normalized := normalize_agent_specs_go agents [] in
  do! raise_if (bool_decide (normalized = []) && negb allow_empty) AgentValidationError
        "at least one agent must be configured" in
  Ok normalized.

#[export] Instance AgentView_eq_dec : EqDecision AgentView.
Proof. solve_decision. Defined.

Definition normalize_default_agents (default_agents : list string) (agents : agent_dict)
    (allow_empty : bool) : result (list string) :=
  let! defaults := map_result normalize_agent_name default_agents in
  do! raise_if (bool_decide (defaults = []) && negb allow_empty) AgentValidationError
        "default_agents cannot be empty" in
  do! raise_if (negb (bool_decide (NoDup defaults))) AgentValidationError
        "default_agents cannot contain duplicates" in
  let missing := List.filter (λ n, negb (mem_str n (map fst agents))) defaults in
  do! raise_if (negb (bool_decide (missing = []))) AgentValidationError
        (String.append "default_agents reference unknown agents: " (str_list_repr missing)) in
  Ok defaults.

(** [normalized_agents[name]] *)
Definition agent_at (agents : agent_dict) (name : string) : result AgentView :=
  match find (λ kv, String.eqb kv.1 name) agents with
  | Some kv => Ok kv.2
  | None => raise KeyError (repr_str name)
  end.

Definition GIT_WORKTREE : string := "git-worktree".

Definition default_layout_spec (default_agents : list string) (agents : agent_dict) (cmd_enabled : bool)
    : result string :=
  let! specs := map_result (λ n, let! s := agent_at agents n in Ok (n, s)) default_agents in
  let providers := map (λ p, (p.1, av_provider p.2)) specs in
  let modes := map (λ p, (p.1, GIT_WORKTREE)) (List.filter (λ p, av_worktree p.2) specs) in
  let! layout := build_balanced_layout default_agents providers modes cmd_enabled in
  Ok (render layout).

(** [except Exception as exc] *)
Definition parse_resolved_layout (rendered : string) : result LayoutNode :=
  match parse_layout_spec rendered with
  | Ok t => Ok t
  | Err e => agent_error ["invalid layout_spec: "; exn_message e]
  end.

Definition normalize_layout_leaf_name (name : string) : result string :=
  let token := strip name in
  if String.eqb (lower token) "cmd" then Ok "cmd" else normalize_agent_name token.

(** The leaf is built anew without its weight. *)
Fixpoint normalize_layout_tree (t : LayoutNode) : result LayoutNode :=
  match t with
  | Leaf l =>
      let! name := normalize_layout_leaf_name (ll_name l) in
      Ok (Leaf (mkLeaf name (ll_provider l) (ll_workspace_mode l) 1 (ll_percent l)))
  | Branch k a b =>
      let! l := normalize_layout_tree a in
      let! r := normalize_layout_tree b in
      Ok (Branch k l r)
  end.

Definition expected_layout_names (default_agents : list string) (cmd_enabled : bool) : list string :=
  default_agents ++ (if cmd_enabled then ["cmd"] else []).

(** [set(a) == set(b)] *)
Definition same_set (a b : list string) : bool :=
  forallb (λ n, mem_str n b) a && forallb (λ n, mem_str n a) b.

Definition validate_layout_names (layout_names default_agents : list string) (cmd_enabled : bool)
    : result unit :=
  do! raise_if (negb (same_set layout_names (expected_layout_names default_agents cmd_enabled)))
        AgentValidationError
        (String.append "layout_spec must include each configured agent exactly once"
           (if cmd_enabled then " and cmd" else "")) in
  do! raise_if (negb (bool_decide (NoDup layout_names))) AgentValidationError
        "layout_spec cannot contain duplicate leaves" in
  raise_if (cmd_enabled && negb (bool_decide (head layout_names = Some "cmd"))) AgentValidationError
    "layout_spec must anchor cmd as the first pane when cmd_enabled=true".

Definition resolve_layout_spec (default_agents : list string) (agents : agent_dict) (cmd_enabled : bool)
    (layout_spec : option string) : result string :=
  let! rendered :=
    (if truthy (stripped layout_spec) then Ok (stripped layout_spec)
     else default_layout_spec default_agents agents cmd_enabled) in
  let! parsed := parse_resolved_layout rendered in
  let! layout := normalize_layout_tree parsed in
  do! validate_layout_names (iter_layout_names layout) default_agents cmd_enabled in
  Ok (render layout).

(** ** [topology.py]: names *)

Definition window_name_pattern (s : string) : bool :=
  match s with
  | String c r => is_alpha c && str_forall name_tail_char r
  | EmptyString => false
  end.

Definition validate_window_name (value : string) : result string :=
  let name := strip value in
  do! raise_if (negb (window_name_pattern name)) AgentValidationError
        (String.append "invalid window name " (String.append (repr_str name)
          "; expected ^[A-Za-z][A-Za-z0-9_-]*$")) in
  Ok name.

Definition LAYOUT_TOOL_ALIASES : list (string * (string * string)) :=
  [("rich", ("rich", "CCB_WORKBENCH_PROFILE=rich CCB_WORKBENCH_FORCE_RICH=1 ccb-workbench files"));
   ("pwsh", ("pwsh", "exec pwsh")); ("powershell", ("powershell", "exec powershell"));
   ("bash", ("bash", "exec bash")); ("wincmd", ("wincmd", "exec cmd"))].

Definition normalize_layout_tool_alias (value : string) : result string :=
  let name := lower (strip value) in
  if mem_str name (map fst LAYOUT_TOOL_ALIASES) then Ok name
  else agent_error ["unknown layout tool alias: "; repr_str value].

Definition is_layout_tool_alias (value : string) : bool :=
  mem_str (lower (strip value)) (map fst LAYOUT_TOOL_ALIASES).

(** ** [topology.py]: records *)

Record WindowSpec := mkWindow {
  ws_name : string;
  ws_order : Z;
  ws_layout_spec : string;
  ws_agent_names : list string;
  ws_tool_names : list string;
}.

Definition inter (a b : list string) : list string := List.filter (λ n, mem_str n b) a.

(** [WindowSpec(…)] with its [__post_init__]. *)
Definition window_spec (name : string) (order : Z) (layout_spec : string)
    (agent_names tool_names : list string) : result WindowSpec :=
  let! name := validate_window_name name in
  let layout := strip layout_spec in
  do! (if truthy layout then Ok tt else agent_error ["windows."; name; " layout cannot be empty"]) in
  let! agents := map_result normalize_agent_name agent_names in
  let! tools := map_result normalize_layout_tool_alias tool_names in
  do! (if bool_decide (agents = []) && bool_decide (tools = [])
       then agent_error ["windows."; name; " must contain at least one agent or tool alias"] else Ok tt) in
  do! (if bool_decide (NoDup agents) then Ok tt
       else agent_error ["windows."; name; " cannot contain duplicate agents"]) in
  do! (if bool_decide (NoDup tools) then Ok tt
       else agent_error ["windows."; name; " cannot contain duplicate tool aliases"]) in
  do! (match merge_sort String.le (inter agents tools) with
       | [] => Ok tt
       | c :: _ => agent_error ["windows."; name; " leaf cannot be both agent and tool alias: "; c]
       end) in
  Ok (mkWindow name order layout agents tools).

Record ToolWindowSpec := mkToolWindow {
  tw_name : string;
  tw_order : Z;
  tw_command : string;
  tw_label : option string;
  tw_show_in_sidebar : bool;
}.

Definition tool_window_spec (name : string) (order : Z) (command : string) (label : option string)
    (show : bool) : result ToolWindowSpec :=
  let! name := validate_window_name name in
  do! (if blank command then agent_error ["tool_windows."; name; ".command cannot be empty"] else Ok tt) in
  Ok (mkToolWindow name order (strip command)
        (Some (if truthy (stripped label) then stripped label else name)) show).

(** ** [topology.py]: the windows of a configuration *)

Definition legacy_main_window (layout_spec : string) (default_agents : list string) (cmd_enabled : bool)
    : result WindowSpec :=
  let! layout := parse_layout_spec layout_spec in
  match prune_layout layout ((if cmd_enabled then ["cmd"] else []) ++ default_agents) with
  | None => agent_error ["legacy layout does not contain any configured agents"]
  | Some pruned =>
      let! leaf_names := map_result (λ l,
        if String.eqb (lower (strip (ll_name l))) "cmd" then Ok None
        else
          let! n := normalize_agent_name (ll_name l) in
          Ok (if mem_str n default_agents then Some n else None)) (iter_leaves pruned) in
      window_spec "main" 0 (render pruned) (omap id leaf_names) []
  end.

(** The loop of [_validate_windows]. *)
Fixpoint validate_windows_go (todo : list WindowSpec) (index : Z) (seen_windows seen_agents : list string)
    : result (list WindowSpec) :=
  match todo with
  | [] => Ok []
  | w :: r =>
      let! spec := window_spec (ws_name w) index (ws_layout_spec w) (ws_agent_names w) (ws_tool_names w) in
      do! (if mem_str (ws_name spec) seen_windows
           then agent_error ["duplicate window name: "; ws_name spec] else Ok tt) in
      do! (match inter (ws_agent_names spec) seen_agents with
           | [] => Ok tt
           | d :: _ => agent_error ["duplicate agent across windows: "; d]
           end) in
      let! rest := validate_windows_go r (index + 1) (seen_windows ++ [ws_name spec])
                     (seen_agents ++ ws_agent_names spec) in
      Ok (spec :: rest)
  end.

Definition validate_windows (windows : list WindowSpec) : result (list WindowSpec) :=
  do! raise_if (bool_decide (length windows = 0%nat)) AgentValidationError
        "at least one window must be configured" in
  validate_windows_go windows 0 [] [].

(** [if windows] is false on [None] and on an empty tuple. *)
Definition normalize_windows (windows : option (list WindowSpec)) (layout_spec : string)
    (default_agents : list string) (cmd_enabled : bool) : result (list WindowSpec) :=
  match windows with
  | Some ((_ :: _) as ws) => validate_windows ws
  | _ => let! w := legacy_main_window layout_spec default_agents cmd_enabled in Ok [w]
  end.

Fixpoint normalize_tool_windows_go (todo : list ToolWindowSpec) (index : Z) (seen : list string)
    : result (list ToolWindowSpec) :=
  match todo with
  | [] => Ok []
  | t :: r =>
      let! spec := tool_window_spec (tw_name t) index (tw_command t) (tw_label t) (tw_show_in_sidebar t) in
      do! (if mem_str (tw_name spec) seen
           then agent_error ["duplicate tool window name: "; tw_name spec] else Ok tt) in
      let! rest := normalize_tool_windows_go r (index + 1) (seen ++ [tw_name spec]) in
      Ok (spec :: rest)
  end.

Definition normalize_tool_windows (tools : option (list ToolWindowSpec)) : result (list ToolWindowSpec) :=
  normalize_tool_windows_go (default [] tools) 0 [].

Definition validate_entry_window (entry : option string) (windows : list WindowSpec)
    (tools : list ToolWindowSpec) : result string :=
  match windows with
  | [] => agent_error ["at least one window must be configured"]
  | w :: _ =>
      let! value := validate_window_name (if truthy (stripped entry) then stripped entry else ws_name w) in
      if mem_str value (map ws_name windows ++ map tw_name tools) then Ok value
      else agent_error ["entry_window references unknown window: "; value]
  end.

Fixpoint validate_tool_windows_do_not_conflict (windows : list WindowSpec) (tools : list ToolWindowSpec)
    : result unit :=
  match tools with
  | [] => Ok tt
  | t :: r =>
      if mem_str (tw_name t) (map ws_name windows)
      then agent_error ["tool window conflicts with agent window: "; tw_name t]
      else validate_tool_windows_do_not_conflict windows r
  end.

(** The order of [unused] in the message is that of a Python set; here it is the
    order of the configuration. *)
Definition validate_windows_reference_agents (windows : list WindowSpec) (agents : agent_dict)
    : result unit :=
  let configured := map fst agents in
  let referenced := concat (map ws_agent_names windows) in
  let missing := List.filter (λ n, negb (mem_str n configured)) referenced in
  do! raise_if (negb (bool_decide (missing = []))) AgentValidationError
        (String.append "windows reference unknown agents: " (str_list_repr missing)) in
  let unused := List.filter (λ n, negb (mem_str n referenced)) configured in
  raise_if (negb (bool_decide (unused = []))) AgentValidationError
    (String.append "configured agents missing from windows: " (str_list_repr unused)).

(** ** [ProjectConfig.__post_init__]: the topology *)

(** What the constructor is given. *)
Record ConfigInput := mkConfigInput {
  ci_version : Z;
  ci_default_agents : list string;
  ci_agents : agent_dict;
  ci_cmd_enabled : bool;
  ci_layout_spec : option string;
  ci_windows : option (list WindowSpec);
  ci_tool_windows : option (list ToolWindowSpec);
  ci_entry_window : option string;
  ci_windows_explicit : option bool;
  ci_workflow : bool;
}.

Record ProjectConfig := mkConfig {
  pc_default_agents : list string;
  pc_agents : agent_dict;
  pc_cmd_enabled : bool;
  pc_layout_spec : string;
  pc_windows : list WindowSpec;
  pc_tool_windows : list ToolWindowSpec;
  pc_entry_window : string;
  pc_windows_explicit : bool;
}.

Definition CONFIG_SCHEMA_V2 : Z := 2.
Definition CONFIG_SCHEMA_V3 : Z := 3.

(** [str(self.layout_spec or (windows[0].layout_spec if windows else '')).strip()] *)
Definition explicit_layout (layout_spec : option string) (windows : list WindowSpec) : string :=
  strip (str_or layout_spec (match windows with w :: _ => ws_layout_spec w | [] => "" end)).

Definition project_config (c : ConfigInput) : result ProjectConfig :=
  do! raise_if (negb ((ci_version c =? CONFIG_SCHEMA_V2) || (ci_version c =? CONFIG_SCHEMA_V3)))
        AgentValidationError "version must be 2 or 3" in
  do! raise_if ((ci_version c =? CONFIG_SCHEMA_V2) && ci_workflow c) AgentValidationError
        "version 2 cannot carry workflow authority" in
  do! raise_if ((ci_version c =? CONFIG_SCHEMA_V3) && negb (ci_workflow c)) AgentValidationError
        "version 3 requires workflow authority" in
  let explicit := match ci_windows_explicit c with
                  | Some b => b
                  | None => bool_decide (is_Some (ci_windows c))
                  end in
  let! agents := normalize_agent_specs (ci_agents c) explicit in
  let! defaults := normalize_default_agents (ci_default_agents c) agents explicit in
  let! rendered :=
    (if explicit then
       let text := explicit_layout (ci_layout_spec c) (default [] (ci_windows c)) in
       do! raise_if (negb (truthy text)) AgentValidationError
             "layout_spec cannot be empty when windows are configured" in
       Ok text
     else resolve_layout_spec defaults agents (ci_cmd_enabled c) (ci_layout_spec c)) in
  let! windows := normalize_windows (ci_windows c) rendered defaults (ci_cmd_enabled c) in
  let! tools := normalize_tool_windows (ci_tool_windows c) in
  do! validate_tool_windows_do_not_conflict windows tools in
  do! validate_windows_reference_agents windows agents in
  let! entry := validate_entry_window (ci_entry_window c) windows tools in
  Ok (mkConfig defaults agents (ci_cmd_enabled c) rendered windows tools entry explicit).

(** ** [layout_plan.py] *)

Record ProjectLayoutPlan := mkPlan {
  pl_target_agent_names : list string;
  pl_visible_leaf_names : list string;
  pl_layout : LayoutNode;
  pl_signature : string;
  pl_cmd_enabled : bool;
}.

Fixpoint select_targets (requested : list string) (known selected : list string) : result (list string) :=
  match requested with
  | [] => Ok selected
  | item :: r =>
      let! lowered := normalize_agent_name item in
      if negb (mem_str lowered known) then agent_error ["unknown agent: "; item]
      else select_targets r known (if mem_str lowered selected then selected else selected ++ [lowered])
  end.

Definition select_project_layout_targets (c : ProjectConfig) (requested_agents : list string)
    : result (list string) :=
  match map strip requested_agents with
  | [] => Ok (pc_default_agents c)
  | requested => select_targets requested (map fst (pc_agents c)) []
  end.

Definition layout_source (c : ProjectConfig) : string :=
  if pc_windows_explicit c then String.concat "; " (map ws_layout_spec (pc_windows c))
  else pc_layout_spec c.

(** [_layout_tool_names]: the tools of the windows, each once, in order. *)
Definition layout_tool_names (c : ProjectConfig) : list string :=
  foldl (λ names name,
    let n := strip name in
    if truthy n && negb (mem_str n names) then names ++ [n] else names) []
    (concat (map ws_tool_names (pc_windows c))).

Definition build_project_layout_plan (c : ProjectConfig) (requested_agents : list string)
    (target_agent_names : option (list string)) : result ProjectLayoutPlan :=
  let! targets :=
    (match target_agent_names with
     | Some names => map_result normalize_agent_name names
     | None => select_project_layout_targets c requested_agents
     end) in
  let include_names := (if pc_cmd_enabled c then ["cmd"] else []) ++ targets ++ layout_tool_names c in
  let! parsed := parse_layout_spec (layout_source c) in
  match prune_layout parsed include_names with
  | None => agent_error ["layout_spec does not include any visible panes for the requested start"]
  | Some pruned =>
      let visible := iter_layout_names pruned in
      do! raise_if (pc_cmd_enabled c && negb (bool_decide (head visible = Some "cmd"))) AgentValidationError
            "pruned layout must retain cmd as the first visible pane" in
      Ok (mkPlan targets visible pruned (render pruned) (pc_cmd_enabled c))
  end.

Definition project_layout_signature (c : ProjectConfig) (requested_agents : list string)
    (target_agent_names : option (list string)) : result string :=
  let! plan := build_project_layout_plan c requested_agents target_agent_names in
  Ok (pl_signature plan).
