(* ===== verification/TopologyLemmas.v ===== *)
(** Lemmas on the topology of a configuration: what a window record guarantees, that
    the windows partition the agents, what the layout text of a configuration without
    windows is. *)

From Stdlib Require Import Ascii String ZArith Lia.
From stdpp Require Import base list strings pretty sorting.
From S2P Require Import Prelude PyData Names Text Layout LayoutParser LayoutGrammar LayoutRender LayoutTokens LayoutOpsLemmas Topology.

Local Open Scope Z_scope.

Lemma map_result_Forall2 {A B} (f : A → result B) l ys :
  map_result f l = Ok ys → Forall2 (λ x y, f x = Ok y) l ys.
Proof.
  revert ys. induction l as [|x l IH]; intros ys H; cbn in H; [by injection H as <-|].
  apply result_bind_Ok in H as (y & Hy & H). apply result_bind_Ok in H as (zs & Hz & [= <-]).
  constructor; auto.
Qed.

Lemma map_result_Forall {A B} (f : A → result B) (P : B → Prop) l ys :
  (∀ x y, f x = Ok y → P y) → map_result f l = Ok ys → Forall P ys.
Proof.
  intros HP H%map_result_Forall2. induction H; constructor; eauto.
Qed.

Lemma normalize_names_normal l ns :
  map_result normalize_agent_name l = Ok ns → Forall (λ n, normal_name n = true) ns.
Proof. apply map_result_Forall. intros x y H. by apply normalize_agent_name_ok in H as (_ & _ & ?). Qed.

Lemma guard_ok {B} (b : bool) parts (v : B) (k : result B) :
  (do! (if b then agent_error parts else Ok tt) in k) = Ok v → b = false ∧ k = Ok v.
Proof. by destruct b. Qed.

Lemma guard_ok' {B} (b : bool) parts (v : B) (k : result B) :
  (do! (if b then Ok tt else agent_error parts) in k) = Ok v → b = true ∧ k = Ok v.
Proof. by destruct b. Qed.

Lemma filter_nil {A} (p : A → bool) l : List.filter p l = [] → Forall (λ x, p x = false) l.
Proof.
  induction l as [|x l IH]; cbn; [done|]. destruct (p x) eqn:E; [done|]. intros H. constructor; auto.
Qed.

(** ** Windows *)

Record window_ok (w : WindowSpec) : Prop := {
  wo_name : window_name_pattern (ws_name w) = true;
  wo_layout : truthy (ws_layout_spec w) = true;
  wo_agents : Forall (λ n, normal_name n = true) (ws_agent_names w);
  wo_tools : Forall (λ n, n ∈ map fst LAYOUT_TOOL_ALIASES) (ws_tool_names w);
  wo_some : ws_agent_names w ≠ [] ∨ ws_tool_names w ≠ [];
  wo_agents_once : NoDup (ws_agent_names w);
  wo_tools_once : NoDup (ws_tool_names w);
  wo_disjoint : ∀ n, n ∈ ws_agent_names w → n ∉ ws_tool_names w;
}.

Lemma merge_sort_nil l : merge_sort String.le l = [] → l = [].
Proof. intros H. pose proof (merge_sort_Permutation String.le l) as P. rewrite H in P. by apply Permutation_nil_l in P. Qed.

Lemma inter_nil a b : inter a b = [] → ∀ n, n ∈ a → n ∉ b.
Proof.
  intros H%filter_nil n Ha Hb. rewrite Forall_forall in H. specialize (H n Ha).
  apply mem_str_spec in Hb. congruence.
Qed.

Lemma window_spec_ok name order layout agents tools w :
  window_spec name order layout agents tools = Ok w → window_ok w ∧ ws_order w = order.
Proof.
  unfold window_spec. intros H.
  apply result_bind_Ok in H as (n & Hn & H). apply guard_ok' in H as [Hl H].
  apply result_bind_Ok in H as (ags & Ha & H). apply result_bind_Ok in H as (tls & Ht & H).
  apply guard_ok in H as [Hsome H]. apply guard_ok' in H as [HNa%bool_decide_eq_true H].
  apply guard_ok' in H as [HNt%bool_decide_eq_true H].
  destruct (merge_sort String.le (inter ags tls)) eqn:Em; [|done].
  cbn in H. injection H as <-. split; [|done]. split; cbn.
  - unfold validate_window_name in Hn. apply raise_if_Ok in Hn as [Hn [= <-]]. by apply negb_false_iff in Hn.
  - done.
  - by apply normalize_names_normal in Ha.
  - revert Ht. apply map_result_Forall. intros x y. unfold normalize_layout_tool_alias.
    destruct (mem_str _ _) eqn:E; [|done]. intros [= <-]. by apply mem_str_spec in E.
  - apply andb_false_iff in Hsome as [Hs|Hs]; apply bool_decide_eq_false in Hs; auto.
  - done.
  - done.
  - by apply inter_nil, merge_sort_nil.
Qed.

Lemma validate_windows_go_ok todo index seen_w seen_a ws :
  validate_windows_go todo index seen_w seen_a = Ok ws →
  Forall window_ok ws ∧ length ws = length todo ∧
  map ws_order ws = map (λ i, index + Z.of_nat i) (seq 0 (length ws)) ∧
  NoDup (map ws_name ws) ∧ NoDup (concat (map ws_agent_names ws)) ∧
  (∀ n, n ∈ map ws_name ws → n ∉ seen_w) ∧
  (∀ n, n ∈ concat (map ws_agent_names ws) → n ∉ seen_a).
Proof.
  revert index seen_w seen_a ws. induction todo as [|w r IH]; intros index sw sa ws H; cbn in H.
  - injection H as <-. cbn. repeat split; try done; try constructor; by intros n Hn%elem_of_nil.
  - apply result_bind_Ok in H as (spec & Hspec & H). apply guard_ok in H as [Hw H].
    destruct (inter (ws_agent_names spec) sa) eqn:Ei; [|done]. cbn in H.
    apply result_bind_Ok in H as (rest & Hrest & [= <-]).
    apply window_spec_ok in Hspec as [Hok Hord].
    apply IH in Hrest as (F & L & O & NW & NA & DW & DA).
    assert (Hsw : ws_name spec ∉ sw).
    { intros Hin. apply mem_str_spec in Hin. congruence. }
    split; [by constructor|]. split; [cbn; lia|]. split; [|split; [|split; [|split]]]; cbn [map concat].
    + cbn [length seq map]. rewrite O, Hord, Z.add_0_r. f_equal.
      rewrite <-seq_shift, map_map. apply map_ext. intros i. lia.
    + constructor; [|done]. intros Hin%DW. apply Hin, elem_of_app. right. by left.
    + apply NoDup_app. split; [apply Hok|]. split; [|done].
      intros n Hn Hin%DA. apply Hin, elem_of_app. by right.
    + intros n [->|Hin%DW]%elem_of_cons; [done|]. intros Hs. apply Hin, elem_of_app. by left.
    + intros n [Hn|Hin%DA]%elem_of_app; [by apply (inter_nil _ _ Ei)|].
      intros Hs. apply Hin, elem_of_app. by left.
Qed.

Lemma normalize_windows_ok windows layout defaults cmd ws :
  normalize_windows windows layout defaults cmd = Ok ws →
  ws ≠ [] ∧ Forall window_ok ws ∧ map ws_order ws = map Z.of_nat (seq 0 (length ws)) ∧
  NoDup (map ws_name ws) ∧ NoDup (concat (map ws_agent_names ws)).
Proof.
  unfold normalize_windows. intros H.
  assert (legacy : (let! w := legacy_main_window layout defaults cmd in Ok [w]) = Ok ws →
    ws ≠ [] ∧ Forall window_ok ws ∧ map ws_order ws = map Z.of_nat (seq 0 (length ws)) ∧
    NoDup (map ws_name ws) ∧ NoDup (concat (map ws_agent_names ws))).
  { clear H. intros H. apply result_bind_Ok in H as (w & Hw & [= <-]).
    unfold legacy_main_window in Hw. apply result_bind_Ok in Hw as (t & _ & Hw).
    destruct (prune_layout _ _); [|done]. apply result_bind_Ok in Hw as (names & _ & Hw).
    apply window_spec_ok in Hw as [Hok Hord]. cbn. rewrite Hord, app_nil_r.
    split; [done|]. split; [by constructor|]. split; [done|]. split; [apply NoDup_singleton|apply Hok]. }
  destruct windows as [[|w0 r]|]; [by apply legacy| |by apply legacy].
  unfold validate_windows in H. apply raise_if_Ok in H as [_ H].
  apply validate_windows_go_ok in H as (F & L & O & NW & NA & _ & _).
  split; [by destruct ws|]. split; [done|]. split; [|done].
  rewrite O. apply map_ext. intros i. lia.
Qed.

(** ** Agents *)

Lemma normalize_agent_specs_go_ok todo acc d :
  normalize_agent_specs_go todo acc = Ok d →
  NoDup (map fst acc) → Forall (λ kv, normal_name kv.1 = true ∧ av_name kv.2 = kv.1) acc →
  NoDup (map fst d) ∧ Forall (λ kv, normal_name kv.1 = true ∧ av_name kv.2 = kv.1) d.
Proof.
  revert acc. induction todo as [|[key spec] r IH]; intros acc H Hn Hf; cbn in H.
  - by injection H as <-.
  - apply result_bind_Ok in H as (k & Hk & H). apply normalize_agent_name_ok in Hk as (_ & _ & Hk).
    destruct (mem_str k (map fst acc)) eqn:Em; [done|].
    destruct (String.eqb (av_name spec) k) eqn:Es; [|done]. cbn in H. apply String.eqb_eq in Es.
    apply IH in H; [done| |].
    + rewrite map_app. apply NoDup_app. split; [done|]. split; [|by apply NoDup_singleton].
      intros x Hx ->%list_elem_of_singleton. apply mem_str_spec in Hx. cbn in Hx. congruence.
    + apply Forall_app. split; [done|]. by constructor.
Qed.

Lemma normalize_agent_specs_ok agents e d :
  normalize_agent_specs agents e = Ok d →
  NoDup (map fst d) ∧ Forall (λ kv, normal_name kv.1 = true ∧ av_name kv.2 = kv.1) d.
Proof.
  unfold normalize_agent_specs. intros H. apply result_bind_Ok in H as (x & Hx & H).
  apply raise_if_Ok in H as [_ [= <-]].
  apply normalize_agent_specs_go_ok in Hx; [done|constructor|constructor].
Qed.

Lemma normalize_default_agents_ok names agents e d :
  normalize_default_agents names agents e = Ok d →
  NoDup d ∧ Forall (λ n, normal_name n = true) d ∧ ∀ n, n ∈ d → n ∈ map fst agents.
Proof.
  unfold normalize_default_agents. intros H. apply result_bind_Ok in H as (x & Hx & H).
  apply raise_if_Ok in H as [_ H].
  apply raise_if_Ok in H as [HN%negb_false_iff%bool_decide_eq_true H].
  apply raise_if_Ok in H as [HM%negb_false_iff%bool_decide_eq_true [= <-]].
  split; [done|]. split; [by apply normalize_names_normal in Hx|].
  intros n Hn. apply filter_nil in HM. rewrite Forall_forall in HM. specialize (HM n Hn).
  apply negb_false_iff in HM. by apply mem_str_spec.
Qed.

Lemma tool_windows_go_ok todo index seen ts :
  normalize_tool_windows_go todo index seen = Ok ts →
  NoDup (map tw_name ts) ∧ Forall (λ t, window_name_pattern (tw_name t) = true ∧ truthy (tw_command t) = true) ts ∧
  ∀ n, n ∈ map tw_name ts → n ∉ seen.
Proof.
  revert index seen ts. induction todo as [|t r IH]; intros index seen ts H; cbn in H.
  - injection H as <-. split; [constructor|]. split; [constructor|]. by intros n Hn%elem_of_nil.
  - apply result_bind_Ok in H as (spec & Hspec & H). apply guard_ok in H as [Hm H].
    apply result_bind_Ok in H as (rest & Hrest & [= <-]). apply IH in Hrest as (HN & HF & HD).
    assert (Hs : tw_name spec ∉ seen) by (intros Hin%mem_str_spec; congruence).
    cbn [map]. split; [|split].
    + constructor; [|done]. intros Hin%HD. apply Hin, elem_of_app. right. by left.
    + constructor; [|done]. unfold tool_window_spec in Hspec.
      apply result_bind_Ok in Hspec as (n & Hn & Hspec). apply guard_ok in Hspec as [Hb [= <-]]. cbn.
      unfold validate_window_name in Hn. apply raise_if_Ok in Hn as [Hn%negb_false_iff [= <-]].
      split; [done|]. unfold blank in Hb. by apply negb_false_iff in Hb.
    + intros n [->|Hin%HD]%elem_of_cons; [done|]. intros Hx. apply Hin, elem_of_app. by left.
Qed.

Lemma no_conflict_ok windows tools u :
  validate_tool_windows_do_not_conflict windows tools = Ok u →
  ∀ t, t ∈ map tw_name tools → t ∉ map ws_name windows.
Proof.
  induction tools as [|t r IH]; cbn; intros H x; [by intros Hx%elem_of_nil|].
  destruct (mem_str (tw_name t) _) eqn:E; [done|].
  intros [->|Hx]%elem_of_cons; [|by apply IH]. intros Hin%mem_str_spec. congruence.
Qed.

Lemma reference_agents_ok windows agents u :
  validate_windows_reference_agents windows agents = Ok u →
  ∀ n, n ∈ concat (map ws_agent_names windows) ↔ n ∈ map fst agents.
Proof.
  unfold validate_windows_reference_agents. intros H.
  apply raise_if_Ok in H as [HM%negb_false_iff%bool_decide_eq_true H].
  assert (HU : List.filter (λ n, negb (mem_str n (concat (map ws_agent_names windows)))) (map fst agents) = []).
  { unfold raise_if in H. destruct (negb (bool_decide _)) eqn:E; [done|].
    by apply negb_false_iff, bool_decide_eq_true in E. }
  apply filter_nil in HM, HU. rewrite Forall_forall in HM, HU. intros n. split; intros Hn.
  - specialize (HM n Hn). apply negb_false_iff in HM. by apply mem_str_spec.
  - specialize (HU n Hn). apply negb_false_iff in HU. by apply mem_str_spec.
Qed.

Lemma entry_window_ok entry windows tools v :
  validate_entry_window entry windows tools = Ok v → v ∈ map ws_name windows ++ map tw_name tools.
Proof.
  unfold validate_entry_window. destruct windows as [|w r]; [done|]. intros H.
  apply result_bind_Ok in H as (x & _ & H). destruct (mem_str x _) eqn:E; [|done].
  injection H as <-. by apply mem_str_spec.
Qed.

(** ** Layout text of a configuration without windows *)

Definition normalized_leaf (l l' : LayoutLeaf) : Prop :=
  normalize_layout_leaf_name (ll_name l) = Ok (ll_name l') ∧ ll_provider l' = ll_provider l ∧
  ll_workspace_mode l' = ll_workspace_mode l ∧ ll_percent l' = ll_percent l ∧ ll_weight l' = 1.

Lemma normalize_layout_tree_ok t t' :
  normalize_layout_tree t = Ok t' → Forall2 normalized_leaf (iter_leaves t) (iter_leaves t').
Proof.
  revert t'. induction t as [l|k a IHa b IHb]; intros t' H; cbn in H.
  - apply result_bind_Ok in H as (n & Hn & [= <-]). by repeat constructor.
  - apply result_bind_Ok in H as (x & Hx & H). apply result_bind_Ok in H as (y & Hy & [= <-]).
    cbn. apply Forall2_app; auto.
Qed.

Lemma normal_name_leaf n : normal_name n = true → leaf_name_ok n = true.
Proof.
  unfold normal_name. intros [[H _]%andb_true_iff _]%andb_true_iff. unfold agent_name_pattern in H.
  destruct n as [|c r]; [done|]. apply andb_true_iff in H as [[Hc Hr]%andb_true_iff Hl].
  cbn. rewrite Hc, (str_forall_mono name_tail_char name_char r) by (by_ascii || done).
  apply Nat.leb_le in Hl. cbn. apply Nat.leb_le. lia.
Qed.

Lemma normalize_leaf_name_ok n m :
  normalize_layout_leaf_name n = Ok m → leaf_name_ok m = true ∧ (m = "cmd" ∨ normal_name m = true).
Proof.
  unfold normalize_layout_leaf_name. destruct (String.eqb _ _); [intros [= <-]; auto|].
  intros H%normalize_agent_name_ok. destruct H as (_ & _ & H). split; [by apply normal_name_leaf|auto].
Qed.

Lemma normalized_leaf_ok l l' : normalized_leaf l l' → leaf_ok l = true → leaf_ok l' = true.
Proof.
  destruct l as [n p m w q], l' as [n' p' m' w' q']. unfold normalized_leaf. cbn.
  intros ([Hn _]%normalize_leaf_name_ok & -> & -> & -> & ->). unfold leaf_ok. cbn.
  rewrite Hn. intros H. apply andb_true_iff in H as [[[_ H1]%andb_true_iff _]%andb_true_iff H2].
  by rewrite H1, H2.
Qed.

Lemma normalize_layout_ok t t' : normalize_layout_tree t = Ok t' → layout_ok t → layout_ok t'.
Proof.
  intros H%normalize_layout_tree_ok. unfold layout_ok. induction H as [|l l' ls ls' Hl _ IH]; [done|].
  intros [Ha Hb]%Forall_cons. constructor; [by apply (normalized_leaf_ok l)|by apply IH].
Qed.

Lemma same_set_spec a b : same_set a b = true → ∀ n, n ∈ a ↔ n ∈ b.
Proof.
  unfold same_set. intros [Ha Hb]%andb_true_iff n.
  rewrite forallb_forall in Ha, Hb. rewrite !list_elem_of_In. split; intros H.
  - specialize (Ha n H). by apply mem_str_spec, list_elem_of_In in Ha.
  - specialize (Hb n H). by apply mem_str_spec, list_elem_of_In in Hb.
Qed.

Lemma validate_layout_names_ok names defaults cmd u :
  validate_layout_names names defaults cmd = Ok u →
  (∀ n, n ∈ names ↔ n ∈ expected_layout_names defaults cmd) ∧ NoDup names ∧
  (cmd = true → head names = Some "cmd").
Proof.
  unfold validate_layout_names. intros H.
  apply raise_if_Ok in H as [HS%negb_false_iff H].
  apply raise_if_Ok in H as [HN%negb_false_iff%bool_decide_eq_true H].
  split; [by apply same_set_spec|]. split; [done|]. intros ->.
  unfold raise_if in H. destruct (true && _) eqn:E; [done|].
  by apply negb_false_iff, bool_decide_eq_true in E.
Qed.

Lemma parse_resolved_ok r t : parse_resolved_layout r = Ok t → parse_layout_spec r = Ok t.
Proof. unfold parse_resolved_layout. by destruct (parse_layout_spec r). Qed.

Lemma resolve_layout_ok defaults agents cmd spec r :
  resolve_layout_spec defaults agents cmd spec = Ok r →
  ∃ parsed t, normalize_layout_tree parsed = Ok t ∧ layout_ok parsed ∧ r = render t ∧
    (truthy (stripped spec) = true → parse_layout_spec (stripped spec) = Ok parsed) ∧
    (∀ n, n ∈ iter_layout_names t ↔ n ∈ expected_layout_names defaults cmd) ∧
    NoDup (iter_layout_names t) ∧ (cmd = true → head (iter_layout_names t) = Some "cmd").
Proof.
  unfold resolve_layout_spec. intros H.
  apply result_bind_Ok in H as (text & Htext & H). apply result_bind_Ok in H as (parsed & Hp & H).
  apply result_bind_Ok in H as (t & Ht & H). apply result_bind_Ok in H as (u & Hu & [= <-]).
  apply parse_resolved_ok in Hp. apply validate_layout_names_ok in Hu as (H1 & H2 & H3).
  exists parsed, t. split; [done|]. split; [by apply (parse_layout_ok text)|]. split; [done|].
  split; [|done]. intros E. rewrite E in Htext. by injection Htext as ->.
Qed.

(** ** Targets of a start *)

Lemma select_targets_go requested known selected ts :
  select_targets requested known selected = Ok ts →
  Forall (λ n, normal_name n = true ∧ n ∈ known) selected →
  Forall (λ n, normal_name n = true ∧ n ∈ known) ts.
Proof.
  revert selected. induction requested as [|x r IH]; intros selected H Hs; cbn in H.
  - by injection H as <-.
  - apply result_bind_Ok in H as (n & Hn & H). apply normalize_agent_name_ok in Hn as (_ & _ & Hn).
    destruct (mem_str n known) eqn:E; [|done]. cbn in H. apply IH in H; [done|].
    destruct (mem_str n selected); [done|]. apply Forall_app. split; [done|].
    constructor; [|done]. split; [done|]. by apply mem_str_spec.
Qed.

Lemma select_targets_ok c requested ts :
  Forall (λ n, normal_name n = true) (pc_default_agents c) →
  select_project_layout_targets c requested = Ok ts → Forall (λ n, normal_name n = true) ts.
Proof.
  intros Hd. unfold select_project_layout_targets.
  destruct (map strip requested) as [|x r] eqn:E; [by intros [= <-]|]. intros H.
  apply select_targets_go in H; [|constructor]. eapply Forall_impl; [exact H|]. by intros n [? _].
Qed.

Lemma select_targets_known c requested ts :
  requested ≠ [] → select_project_layout_targets c requested = Ok ts →
  ∀ n, n ∈ ts → n ∈ map fst (pc_agents c).
Proof.
  intros Hne. unfold select_project_layout_targets.
  destruct (map strip requested) as [|x r] eqn:E; [by destruct requested|]. intros H.
  apply select_targets_go in H; [|constructor]. rewrite Forall_forall in H. intros n Hn. by apply H.
Qed.
