(* ===== verification/ReloadConfig.v ===== *)
(** What a reload reads of a project configuration
    ([lib/agents/models_runtime/config_runtime/], [lib/agents/config_identity.py]): the
    record it is written as, the signatures of its topology and of the whole, and the
    windows it asks of the multiplexer
    ([lib/ccbd/services/project_namespace_runtime/topology_plan.py]).

    The windows are those of [Topology].  Agent specifications, the sidebar view, the
    maintenance heartbeat, loop capacity and workflow are the dictionaries of their
    [to_record]: a reload only compares them. *)

From Stdlib Require Import Ascii String ZArith Lia.
From stdpp Require Import base list strings pretty sorting.
From S2P Require Import Prelude PyData Names Sha256 Topology.

Local Open Scope Z_scope.

(** ** [json.dumps(v, ensure_ascii=False, sort_keys=True, separators=(',', ':'))] *)

Definition json_char (c : ascii) : string :=
  if Ascii.eqb c "\" then "\\"
  else if code c =? 34 then String "\" (String c EmptyString)
  else if code c =? 8 then "\b"
  else if code c =? 9 then "\t"
  else if code c =? 10 then "\n"
  else if code c =? 12 then "\f"
  else if code c =? 13 then "\r"
  else if code c <? 32 then String.append "\u00" (String.append (hex_digit (code c / 16)) (hex_digit (code c mod 16)))
  else String c EmptyString.

Fixpoint json_body (s : string) : string :=
  match s with
  | EmptyString => EmptyString
  | String c r => String.append (json_char c) (json_body r)
  end.

Definition json_str (s : string) : string :=
  String double_quote (String.append (json_body s) (String double_quote EmptyString)).

Definition key_le (a b : string * string) : Prop := String.le a.1 b.1.
#[export] Instance key_le_dec : RelDecision key_le.
Proof. intros a b. unfold key_le. apply _. Defined.

Fixpoint json_dumps (v : pyval) : string :=
  match v with
  | VNone => "null"
  | VBool b => if b then "true" else "false"
  | VInt z => pretty z
  | VStr s => json_str s
  | VList l => String.append "[" (String.append (String.concat "," (map json_dumps l)) "]")
  | VDict d =>
      let entries := map (λ kv, (kv.1, String.append (json_str kv.1) (String.append ":" (json_dumps kv.2)))) d in
      String.append "{" (String.append
        (String.concat "," (map snd (merge_sort key_le entries))) "}")
  end.

(** ** [topology.py]: the sidebar *)

Record SidebarSpec := mkSidebar {
  sb_mode : string;
  sb_width : pyval;
  sb_bottom_height : Z;
  sb_position : string;
}.

(** [number.isdigit() and int(number) > 0] *)
Definition positive_digits (s : string) : option Z :=
  if truthy s && str_forall is_digit s then
    match parse_int s with
    | Some z => if 0 <? z then Some z else None
    | None => None
    end
  else None.

(** A width is an integer or a text. *)
Definition normalize_sidebar_width (value : pyval) : result pyval :=
  match value with
  | VBool _ => agent_error ["ui.sidebar.width must be a positive integer or percentage string"]
  | VInt z => if z <=? 0 then agent_error ["ui.sidebar.width must be positive"] else Ok (VInt z)
  | _ =>
      let text := strip (py_str_or_empty value) in
      if bool_decide (last_char text = Some "%"%char) then
        match positive_digits (strip (drop_last text)) with
        | Some z => Ok (VStr (String.append (pretty z) "%"))
        | None => agent_error ["ui.sidebar.width percentage must be positive"]
        end
      else
        match positive_digits text with
        | Some z => Ok (VInt z)
        | None => agent_error ["ui.sidebar.width must be a positive integer or percentage string"]
        end
  end.

(** [SidebarSpec(…)] with its [__post_init__]. *)
Definition sidebar_spec (mode : string) (width bottom_height : pyval) (position : string)
    : result SidebarSpec :=
  let mode := strip mode in
  do! raise_if (negb (mem_str mode ["every_window"; "off"])) AgentValidationError
        "ui.sidebar.mode must be every_window or off" in
  let position := strip position in
  do! raise_if (negb (mem_str position ["left"; "right"])) AgentValidationError
        "ui.sidebar.position must be left or right" in
  let! width := normalize_sidebar_width width in
  let! height := (match py_int bottom_height with
                  | Ok z => Ok z
                  | Err _ => agent_error ["ui.sidebar.bottom_height must be a non-negative integer"]
                  end) in
  do! raise_if (height <? 0) AgentValidationError "ui.sidebar.bottom_height must be a non-negative integer" in
  Ok (mkSidebar mode width height position).

Definition sidebar_to_record (s : SidebarSpec) : pydict :=
  [("mode", VStr (sb_mode s)); ("width", sb_width s); ("bottom_height", VInt (sb_bottom_height s));
   ("position", VStr (sb_position s))].

(** ** [topology.py]: records and signature *)

Definition vstrs (l : list string) : pyval := VList (map VStr l).

Definition window_to_record (w : WindowSpec) : pydict :=
  [("name", VStr (ws_name w)); ("order", VInt (ws_order w)); ("layout_spec", VStr (ws_layout_spec w));
   ("agent_names", vstrs (ws_agent_names w))] ++
  (if bool_decide (ws_tool_names w = []) then [] else [("tool_names", vstrs (ws_tool_names w))]).

Definition tool_window_to_record (t : ToolWindowSpec) : pydict :=
  [("name", VStr (tw_name t)); ("order", VInt (tw_order t)); ("command", VStr (tw_command t));
   ("label", of_opt_str (tw_label t)); ("show_in_sidebar", VBool (tw_show_in_sidebar t))].

Definition topology_signature_payload (windows : list WindowSpec) (tools : list ToolWindowSpec)
    (entry_window : string) (sidebar : SidebarSpec) : pydict :=
  [("version", VInt 1);
   ("windows", VList (map (λ w, VDict
      [("name", VStr (ws_name w)); ("order", VInt (ws_order w)); ("layout", VStr (ws_layout_spec w));
       ("agents", vstrs (ws_agent_names w)); ("tools", vstrs (ws_tool_names w))]) windows));
   ("tool_windows", VList (map (λ t, VDict
      [("name", VStr (tw_name t)); ("order", VInt (tw_order t)); ("command", VStr (tw_command t))]) tools));
   ("entry_window", VStr entry_window); ("sidebar", VDict (sidebar_to_record sidebar))].

Definition topology_signature (payload : pydict) : string := sha256_hex (json_dumps (VDict payload)).

(** ** The configuration *)

Record ReloadConfig := mkReloadConfig {
  rc_version : Z;
  rc_default_agents : list string;
  rc_agents : list (string * pydict);
  rc_cmd_enabled : bool;
  rc_layout_spec : string;
  rc_windows : list WindowSpec;
  rc_tool_windows : list ToolWindowSpec;
  rc_entry_window : string;
  rc_sidebar : SidebarSpec;
  rc_sidebar_view : pydict;
  rc_windows_explicit : bool;
  rc_maintenance_heartbeat : pydict;
  rc_loop : pydict;
  rc_source_path : option string;
  rc_mux_backend : option string;
  rc_workflow : option pydict;
}.

Definition config_topology_payload (c : ReloadConfig) : pydict :=
  topology_signature_payload (rc_windows c) (rc_tool_windows c) (rc_entry_window c) (rc_sidebar c).

(** [ProjectConfig.to_record] *)
Definition config_to_record (c : ReloadConfig) : pydict :=
  [("schema_version", VInt 2); ("record_type", VStr "project_config"); ("version", VInt (rc_version c));
   ("default_agents", vstrs (rc_default_agents c));
   ("agents", VDict (map (λ kv, (kv.1, VDict kv.2)) (rc_agents c)));
   ("cmd_enabled", VBool (rc_cmd_enabled c)); ("layout_spec", VStr (rc_layout_spec c));
   ("windows", VList (map (λ w, VDict (window_to_record w)) (rc_windows c)));
   ("tool_windows", VList (map (λ t, VDict (tool_window_to_record t)) (rc_tool_windows c)));
   ("entry_window", VStr (rc_entry_window c)); ("sidebar", VDict (sidebar_to_record (rc_sidebar c)));
   ("sidebar_view", VDict (rc_sidebar_view c)); ("windows_explicit", VBool (rc_windows_explicit c));
   ("maintenance", VDict [("heartbeat", VDict (rc_maintenance_heartbeat c))]);
   ("loop", VDict (rc_loop c));
   ("topology_signature_payload", VDict (config_topology_payload c));
   ("topology_signature", VStr (topology_signature (config_topology_payload c)));
   ("source_path", of_opt_str (rc_source_path c))] ++
  (match rc_mux_backend c with
   | Some b => [("runtime", VDict [("mux", VDict [("backend", VStr b)])])]
   | None => []
   end) ++
  (match rc_workflow c with Some w => [("workflow", VDict w)] | None => [] end).

(** [for key in keys: d.pop(key, None)] *)
Definition dpops (d : pydict) (keys : list string) : pydict := foldl dpop d keys.

Definition pop_in (keys : list string) (v : pyval) : pyval :=
  match v with VDict d => VDict (dpops d keys) | _ => v end.

(** [config_identity.py] *)
Definition identity_canonical (c : ReloadConfig) : pydict :=
  let canonical := dpops (config_to_record c) ["schema_version"; "record_type"; "source_path"; "sidebar_view"] in
  map (λ kv,
    if String.eqb kv.1 "tool_windows" then
      (kv.1, match kv.2 with VList l => VList (map (pop_in ["label"; "show_in_sidebar"]) l) | v => v end)
    else if String.eqb kv.1 "agents" then
      (kv.1, match kv.2 with
             | VDict d => VDict (map (λ a, (a.1, pop_in ["schema_version"; "record_type"] a.2)) d)
             | v => v
             end)
    else kv) canonical.

Definition project_config_identity_payload (c : ReloadConfig) : pydict :=
  [("known_agents", vstrs (merge_sort String.le (map fst (rc_agents c))));
   ("config_signature", VStr (sha256_hex (json_dumps (VDict (identity_canonical c)))))].

(** ** [topology_plan.py] *)

Record SidebarPanePlan := mkSidebarPane {
  sp_mode : string;
  sp_width : pyval;
  sp_bottom_height : Z;
  sp_position : string;
  sp_launch_args : list string;
}.

Inductive window_kind := WK_AGENTS | WK_TOOL.
#[export] Instance window_kind_eq_dec : EqDecision window_kind.
Proof. solve_decision. Defined.

Record NamespaceWindowPlan := mkNsWindow {
  nw_name : string;
  nw_order : Z;
  nw_user_layout : string;
  nw_realized_layout : string;
  nw_agent_names : list string;
  nw_kind : window_kind;
  nw_label : option string;
  nw_command : option string;
  nw_tool_names : list string;
  nw_sidebar : option SidebarPanePlan;
}.

Record NamespaceTopologyPlan := mkNsTopology {
  nt_signature : string;
  nt_entry_window : string;
  nt_windows : list NamespaceWindowPlan;
  nt_sidebar_enabled : bool;
}.

Definition sidebar_launch_args (ccbd_socket_path project_root : option string) (window_name : string)
    : list string :=
  ["ccb-agent-sidebar"] ++
  (if opt_truthy ccbd_socket_path then ["--ccbd-socket"; str_or ccbd_socket_path ""] else []) ++
  (if opt_truthy project_root then ["--project-root"; str_or project_root ""] else []) ++
  ["--pane-window"; window_name].

Section topology_plan.
Context (ccbd_socket_path project_root : option string).

Definition sidebar_plan (sidebar : option SidebarSpec) (window_name : string) : option SidebarPanePlan :=
  match sidebar with
  | Some s => Some (mkSidebarPane (sb_mode s) (sb_width s) (sb_bottom_height s) (sb_position s)
                      (sidebar_launch_args ccbd_socket_path project_root window_name))
  | None => None
  end.

Definition realized_layout (user_layout : string) (sidebar : option SidebarPanePlan) : string :=
  match sidebar with
  | None => user_layout
  | Some s =>
      if String.eqb (sp_position s) "right"
      then String.append "(" (String.append user_layout "); sidebar")
      else String.append "sidebar; (" (String.append user_layout ")")
  end.

Definition window_plan (sidebar : option SidebarSpec) (w : WindowSpec) : NamespaceWindowPlan :=
  let sp := sidebar_plan sidebar (ws_name w) in
  mkNsWindow (ws_name w) (ws_order w) (ws_layout_spec w) (realized_layout (ws_layout_spec w) sp)
    (ws_agent_names w) WK_AGENTS (Some (ws_name w)) None (ws_tool_names w) sp.

Definition tool_window_plan (order_offset : Z) (sidebar : option SidebarSpec) (t : ToolWindowSpec)
    : NamespaceWindowPlan :=
  let sp := sidebar_plan sidebar (tw_name t) in
  mkNsWindow (tw_name t) (order_offset + tw_order t) (tw_command t) (realized_layout "tool" sp)
    [] WK_TOOL (tw_label t) (Some (tw_command t)) [] sp.

Definition sidebar_enabled (c : ReloadConfig) : bool :=
  String.eqb (sb_mode (rc_sidebar c)) "every_window" &&
  negb (bool_decide (rc_mux_backend c = Some "herdr")).

Definition build_namespace_topology_plan (c : ReloadConfig) : NamespaceTopologyPlan :=
  let enabled := sidebar_enabled c in
  let sidebar := if enabled then Some (rc_sidebar c) else None in
  mkNsTopology (topology_signature (config_topology_payload c)) (rc_entry_window c)
    (map (window_plan sidebar) (rc_windows c) ++
     map (tool_window_plan (Z.of_nat (length (rc_windows c))) sidebar) (rc_tool_windows c))
    enabled.

End topology_plan.
