(* ===== verification/ReloadPatch.v ===== *)
(** What a reload has to do to windows and panes, [lib/ccbd/reload_patch.py] with
    [reload_patch_additive_agents.py], [reload_patch_move_agents.py],
    [reload_patch_remove_agents.py], [reload_additive_agents.py] and
    [reload_append_layout.py]: the steps that lead from the windows of one configuration to
    those of another, or what stands in their way. *)

From Stdlib Require Import Ascii String ZArith Lia.
From stdpp Require Import base list strings sorting.
From S2P Require Import Prelude PyData Names Layout LayoutParser Topology ReloadConfig.

Local Open Scope Z_scope.

(** ** Dictionaries of values that are not JSON *)

Fixpoint aget {A} (d : list (string * A)) (k : string) : option A :=
  match d with
  | [] => None
  | (k', v) :: d' => if String.eqb k k' then Some v else aget d' k
  end.

Fixpoint aset {A} (d : list (string * A)) (k : string) (v : A) : list (string * A) :=
  match d with
  | [] => [(k, v)]
  | (k', v') :: d' => if String.eqb k k' then (k', v) :: d' else (k', v') :: aset d' k v
  end.

(** [{k: v for k, v in l}] *)
Definition of_pairs {A} (l : list (string * A)) : list (string * A) :=
  foldl (λ d kv, aset d kv.1 kv.2) [] l.

(** [sorted(set(l))] *)
Definition sorted_set (l : list string) : list string := merge_sort String.le (remove_dups l).

(** [str(item.get(k) or '')] *)
Definition op_str (item : pydict) (k : string) : string := py_str_or_empty (dget item k).

Definition is_op (op : string) (item : pydict) : bool := String.eqb (op_str item "op") op.

(** ** [reload_append_layout.py] *)

Inductive append_direction := TO_RIGHT | TO_BOTTOM.

Record AppendAgentPlan := mkAppend { ap_agent : string; ap_direction : append_direction }.

Definition append_direction_of (k : split_kind) : append_direction :=
  match k with Horizontal => TO_RIGHT | Vertical => TO_BOTTOM end.

Fixpoint expanded_leaf_append_plan (anchor_node new_node : LayoutNode) : option (list AppendAgentPlan) :=
  match new_node with
  | Leaf _ => if String.eqb (render new_node) (render anchor_node) then Some [] else None
  | Branch k l r =>
      match expanded_leaf_append_plan anchor_node l, r with
      | Some left_plan, Leaf leaf => Some (left_plan ++ [mkAppend (ll_name leaf) (append_direction_of k)])
      | _, _ => None
      end
  end.

Fixpoint rightmost_leaf_append_plan_for_nodes (old_node new_node : LayoutNode)
    : option (list AppendAgentPlan) :=
  match old_node with
  | Leaf _ => expanded_leaf_append_plan old_node new_node
  | Branch k l r =>
      match new_node with
      | Leaf _ => None
      | Branch k' l' r' =>
          if negb (bool_decide (k = k')) then None
          else if negb (String.eqb (render l) (render l')) then None
          else rightmost_leaf_append_plan_for_nodes r r'
      end
  end.

Fixpoint all_branch_kinds (t : LayoutNode) (k : split_kind) : bool :=
  match t with
  | Leaf _ => true
  | Branch k' l r => bool_decide (k' = k) && all_branch_kinds l k && all_branch_kinds r k
  end.

Definition sequence_kind (t : LayoutNode) : option split_kind :=
  match t with
  | Leaf _ => None
  | Branch k _ _ => if all_branch_kinds t k then Some k else None
  end.

(** [tuple(l[:len(p)]) == p] *)
Definition starts_with (p l : list string) : bool := bool_decide (take (length p) l = p).

Definition trailing_sequence_append_plan (old_node new_node : LayoutNode) : option (list AppendAgentPlan) :=
  let old_leaves := iter_layout_names old_node in
  let new_leaves := iter_layout_names new_node in
  if bool_decide (old_leaves = []) || negb (starts_with old_leaves new_leaves) then None
  else
    match drop (length old_leaves) new_leaves with
    | [] => Some []
    | appended =>
        match sequence_kind old_node, sequence_kind new_node with
        | Some k, Some k' =>
            if bool_decide (k = k')
            then Some (map (λ a, mkAppend a (append_direction_of k)) appended)
            else None
        | _, _ => None
        end
    end.

Definition rightmost_leaf_append_plan (old_window new_window : NamespaceWindowPlan)
    : option (list AppendAgentPlan) :=
  match parse_layout_spec (nw_user_layout old_window), parse_layout_spec (nw_user_layout new_window) with
  | Ok old_layout, Ok new_layout =>
      match rightmost_leaf_append_plan_for_nodes old_layout new_layout with
      | Some plan => Some plan
      | None => trailing_sequence_append_plan old_layout new_layout
      end
  | _, _ => None
  end.

(** ** [reload_additive_agents.py] *)

Abbreviation ns_windows := (list (string * NamespaceWindowPlan)).

Definition window_map (t : NamespaceTopologyPlan) : ns_windows :=
  of_pairs (map (λ w, (nw_name w, w)) (nt_windows t)).

Definition append_agent_plan_for_window (old_window new_window : NamespaceWindowPlan)
    : option (list AppendAgentPlan) :=
  let old_agents := nw_agent_names old_window in
  let new_agents := nw_agent_names new_window in
  if bool_decide (old_agents = new_agents) then Some []
  else if bool_decide (length new_agents < length old_agents)%nat then Some []
  else if negb (starts_with old_agents new_agents) then None
  else
    match rightmost_leaf_append_plan old_window new_window with
    | None => None
    | Some plan =>
        if bool_decide (map ap_agent plan = drop (length old_agents) new_agents) then Some plan else None
    end.

(** ** Steps *)

Inductive patch_action :=
  | REFRESH_PROJECT_VIEW
  | REUSE_AGENT_PANE_FOR_REPLACE
  | CREATE_WINDOW
  | CREATE_SIDEBAR_PANE
  | CREATE_AGENT_PANE
  | CREATE_TOOL_PANE
  | MOVE_AGENT_PANE
  | KILL_AGENT_PANE
  | KILL_WINDOW
  | KILL_TOOL_WINDOW.

#[export] Instance patch_action_eq_dec : EqDecision patch_action.
Proof. solve_decision. Defined.

Definition action_value (a : patch_action) : string :=
  match a with
  | REFRESH_PROJECT_VIEW => "refresh_project_view"
  | REUSE_AGENT_PANE_FOR_REPLACE => "reuse_agent_pane_for_replace"
  | CREATE_WINDOW => "create_window"
  | CREATE_SIDEBAR_PANE => "create_sidebar_pane"
  | CREATE_AGENT_PANE => "create_agent_pane"
  | CREATE_TOOL_PANE => "create_tool_pane"
  | MOVE_AGENT_PANE => "move_agent_pane"
  | KILL_AGENT_PANE => "kill_agent_pane"
  | KILL_WINDOW => "kill_window"
  | KILL_TOOL_WINDOW => "kill_tool_window"
  end.

Record NamespacePatchStep := mkStep {
  st_action : patch_action;
  st_window : option string;
  st_target_window : option string;
  st_agent : option string;
  st_role : option string;
  st_slot_key : option string;
  st_managed_by : string;
  st_anchor_agent : option string;
  st_reason : option string;
}.

Definition patch_step (a : patch_action) (window target agent role slot anchor : option string)
    (reason : string) : NamespacePatchStep :=
  mkStep a window target agent role slot "ccbd" anchor (Some reason).

(** [NamespacePatchStep.to_record] *)
Definition step_to_record (s : NamespacePatchStep) : pydict :=
  ("action", VStr (action_value (st_action s))) ::
  omap (λ kv, if opt_truthy kv.2 then Some (kv.1, of_opt_str kv.2) else None)
    [("window", st_window s); ("target_window", st_target_window s); ("agent", st_agent s);
     ("role", st_role s); ("slot_key", st_slot_key s); ("managed_by", Some (st_managed_by s));
     ("anchor_agent", st_anchor_agent s); ("reason", st_reason s)].

Abbreviation step_result := (list NamespacePatchStep * list pydict)%type.

Definition step_results (l : list step_result) : step_result := (concat (map fst l), concat (map snd l)).

Definition agent_step (a : patch_action) (window : string) (target : option string) (agent : string)
    (anchor : option string) (reason : string) : NamespacePatchStep :=
  patch_step a (Some window) target (Some agent) (Some "agent") (Some agent) anchor reason.

(** ** [reload_patch_additive_agents.py] *)

Definition blocked_append (window_name reason : string) : pydict :=
  [("op", VStr "add_agent"); ("window", VStr window_name); ("reason", VStr reason)].

Fixpoint append_steps (window_name : string) (anchor : option string) (plan : list AppendAgentPlan)
    (excluded : list string) : list NamespacePatchStep :=
  match plan with
  | [] => []
  | a :: r =>
      (if mem_str (ap_agent a) excluded then []
       else [agent_step CREATE_AGENT_PANE window_name None (ap_agent a) anchor
               "new agent appended to existing managed window"]) ++
      append_steps window_name (Some (ap_agent a)) r excluded
  end.

Definition steps_for_window (window_name : string) (old_window new_window : NamespaceWindowPlan)
    (excluded : list string) : step_result :=
  let old_agents := nw_agent_names old_window in
  let new_agents := nw_agent_names new_window in
  if bool_decide (old_agents = new_agents) then ([], [])
  else if bool_decide (length new_agents < length old_agents)%nat then ([], [])
  else if negb (starts_with old_agents new_agents) then
    ([], [blocked_append window_name
            "Phase 5 additive patch only supports appending new agents after existing panes"])
  else
    match append_agent_plan_for_window old_window new_window with
    | None =>
        ([], [blocked_append window_name
                "Phase 5 additive patch only supports expanding the last existing agent pane"])
    | Some plan => (append_steps window_name (last old_agents) plan excluded, [])
    end.

(** A window of the old topology under the same name is one that was not added. *)
Definition additive_agent_steps (old_topology new_topology : NamespaceTopologyPlan) (excluded : list string)
    : step_result :=
  step_results (map (λ kw,
    match aget (window_map old_topology) kw.1 with
    | Some old_window => steps_for_window kw.1 old_window kw.2 excluded
    | None => ([], [])
    end) (window_map new_topology)).

(** ** [reload_patch_move_agents.py] *)

Definition agent_window_map (t : NamespaceTopologyPlan) : list (string * string) :=
  of_pairs (concat (map (λ w, map (λ a, (a, nw_name w)) (nw_agent_names w)) (nt_windows t))).

(** Agents with the window they leave and the one they go to. *)
Definition moved_agents (old_topology new_topology : NamespaceTopologyPlan)
    : list (string * (string * string)) :=
  concat (map (λ w, omap (λ a,
    match aget (agent_window_map old_topology) a with
    | Some old_window => if String.eqb old_window (nw_name w) then None else Some (a, (old_window, nw_name w))
    | None => None
    end) (nw_agent_names w)) (nt_windows new_topology)).

Definition moved_into (moved : list (string * (string * string))) (target : string) : list string :=
  map fst (List.filter (λ m, String.eqb m.2.2 target) moved).
Definition moved_from (moved : list (string * (string * string))) (source : string) : list string :=
  map fst (List.filter (λ m, String.eqb m.2.1 source) moved).

Definition blocked_move (agent source target reason : string) : pydict :=
  [("op", VStr "move_agent"); ("agent", VStr agent); ("from_window", VStr source);
   ("to_window", VStr target); ("reason", VStr reason)].

Definition move_step (agent source target : string) : step_result :=
  ([agent_step MOVE_AGENT_PANE source (Some target) agent None
      "existing dynamic agent window membership changed"], []).

Definition move_agent_step (old_windows new_windows : ns_windows) (moved : list (string * (string * string)))
    (m : string * (string * string)) : step_result :=
  let '(agent, (source, target)) := m in
  let blocked reason := ([], [blocked_move agent source target reason]) in
  let moved_source := moved_from moved source in
  let moved_target := moved_into moved target in
  match aget old_windows source with
  | None => blocked "source window must remain present"
  | Some old_source =>
      let new_source := aget new_windows source in
      if (match new_source with None => true | Some _ => false end) &&
         negb (same_set (nw_agent_names old_source) moved_source)
      then blocked "source window can be removed only when all source agents move in the same transaction"
      else
        match aget new_windows target with
        | None => blocked "target window must exist in new topology"
        | Some new_target =>
            if (match new_source with
                | Some ns =>
                    negb (bool_decide (List.filter (λ a, negb (mem_str a moved_source)) (nw_agent_names old_source)
                                       = nw_agent_names ns))
                | None => false
                end)
            then blocked "source window order must be preserved after move"
            else
              match aget old_windows target with
              | None =>
                  if bool_decide (moved_target = []) ||
                     negb (starts_with moved_target (nw_agent_names new_target)) ||
                     negb (mem_str agent moved_target)
                  then blocked "new target window must start with moved agents"
                  else move_step agent source target
              | Some old_target =>
                  match append_agent_plan_for_window old_target new_target with
                  | None => blocked "target window must append moved agents at the end"
                  | Some plan =>
                      if mem_str agent (map ap_agent plan) then move_step agent source target
                      else blocked "target append plan does not include moved agent"
                  end
              end
        end
  end.

Definition move_agent_steps (old_topology new_topology : NamespaceTopologyPlan) : step_result :=
  let moved := moved_agents old_topology new_topology in
  step_results (map (move_agent_step (window_map old_topology) (window_map new_topology) moved) moved).

(** ** [reload_patch_remove_agents.py] *)

Definition blocked_remove (window_name reason : string) : pydict :=
  [("op", VStr "remove_agent"); ("window", VStr window_name); ("reason", VStr reason)].

Definition kill_window_step (window_name reason : string) : NamespacePatchStep :=
  patch_step KILL_WINDOW (Some window_name) None None None None None reason.

Definition remove_agents_in_window (window_name : string) (old_window new_window : NamespaceWindowPlan)
    (excluded : list string) : step_result :=
  let old_agents := nw_agent_names old_window in
  let new_agents := nw_agent_names new_window in
  let removed := List.filter (λ a, negb (mem_str a new_agents) && negb (mem_str a excluded)) old_agents in
  if bool_decide (removed = []) then ([], [])
  else if negb (bool_decide (List.filter (λ a, mem_str a new_agents) old_agents = new_agents)) then
    ([], [blocked_remove window_name
            "Phase 7 remove_agent only supports deleting agents while preserving remaining order"])
  else
    (map (λ a, agent_step KILL_AGENT_PANE window_name None a None
                 "agent exists only in current published config") removed, []).

Definition remove_window_steps (window_name : string) (old_window : NamespaceWindowPlan) : step_result :=
  match nw_agent_names old_window with
  | [] => ([], [blocked_remove window_name "cannot remove an empty managed window"])
  | removed_agents =>
      (map (λ a, agent_step KILL_AGENT_PANE window_name None a None
                   "agent window exists only in current published config") removed_agents ++
       [kill_window_step window_name "window exists only in current published config"], [])
  end.

Definition remove_in (new_windows : ns_windows) (excluded : list string)
    (kw : string * NamespaceWindowPlan) : step_result :=
  let '(window_name, old_window) := kw in
  match aget new_windows window_name with
  | Some new_window => remove_agents_in_window window_name old_window new_window excluded
  | None =>
      if bool_decide (nw_kind old_window = WK_TOOL) then ([], [])
      else
        let agents := nw_agent_names old_window in
        if negb (bool_decide (agents = [])) && forallb (λ a, mem_str a excluded) agents then
          ([kill_window_step window_name "window emptied by moved agents"], [])
        else if existsb (λ a, mem_str a excluded) agents then
          ([], [blocked_remove window_name
                  "move_agent does not support removing the source window in the same transaction"])
        else remove_window_steps window_name old_window
  end.

Definition remove_agent_steps (old_topology new_topology : NamespaceTopologyPlan) (excluded : list string)
    : step_result :=
  step_results (map (remove_in (window_map new_topology) excluded) (window_map old_topology)).

(** ** [reload_patch.py] *)

Definition SUPPORTED_OPS : list string :=
  ["no_change"; "view_only_change"; "maintenance_change"; "add_agent"; "add_window"; "remove_agent";
   "replace_agent"; "move_agent"; "add_tool_window"; "remove_tool_window"].
Definition MUTATING_OPS : list string :=
  ["add_agent"; "add_window"; "remove_agent"; "replace_agent"; "move_agent"; "add_tool_window";
   "remove_tool_window"].
Definition REQUIRED_PROOFS : list string :=
  ["project_id"; "namespace_transport_ref"; "tmux_session_name"; "namespace_epoch"; "window"; "role";
   "slot_key"; "managed_by=ccbd"].

(** The current namespace: the session of the multiplexer the daemon runs in. *)
Record Namespace := mkNamespace {
  ns_project_id : option string;
  ns_backend_family : option string;
  ns_backend_impl : option string;
  ns_socket_path : option string;
  ns_session_name : option string;
  ns_id : option string;
  ns_ipc_kind : option string;
  ns_ipc_ref : option string;
  ns_epoch : option Z;
  ns_ui_attachable : bool;
}.

Definition clean_opt (o : option string) : option string := or_none (stripped o).

Definition has_transport_ref (n : Namespace) : bool :=
  if bool_decide (default "tmux-family" (clean_opt (ns_backend_family n)) = "herdr-native") ||
     bool_decide (clean_opt (ns_backend_impl n) = Some "herdr")
  then opt_truthy (clean_opt (ns_id n)) && opt_truthy (clean_opt (ns_ipc_kind n)) &&
       opt_truthy (clean_opt (ns_ipc_ref n))
  else opt_truthy (clean_opt (ns_socket_path n)).

Definition scope_verified (project_id : option string) (current : option Namespace) : bool :=
  match current with
  | None => false
  | Some n =>
      opt_truthy (clean_opt (ns_project_id n)) && has_transport_ref n &&
      opt_truthy (clean_opt (ns_session_name n)) && bool_decide (is_Some (ns_epoch n)) &&
      ns_ui_attachable n &&
      (bool_decide (clean_opt project_id = None) ||
       bool_decide (clean_opt project_id = clean_opt (ns_project_id n)))
  end.

Definition scope_payload (project_id : option string) (current : option Namespace) : pydict :=
  match current with
  | None =>
      [("verified", VBool false); ("project_id", of_opt_str (clean_opt project_id));
       ("reason", VStr "namespace unavailable")]
  | Some n =>
      let own := clean_opt (ns_project_id n) in
      [("verified", VBool (scope_verified project_id current));
       ("project_id", of_opt_str (if opt_truthy own then own else clean_opt project_id));
       ("tmux_socket_path", of_opt_str (clean_opt (ns_socket_path n)));
       ("tmux_session_name", of_opt_str (clean_opt (ns_session_name n)));
       ("namespace_backend_family", VStr (default "tmux-family" (clean_opt (ns_backend_family n))));
       ("namespace_backend_impl", of_opt_str (clean_opt (ns_backend_impl n)));
       ("namespace_id", of_opt_str (clean_opt (ns_id n)));
       ("namespace_ipc_kind", of_opt_str (clean_opt (ns_ipc_kind n)));
       ("namespace_ipc_ref", of_opt_str (clean_opt (ns_ipc_ref n)));
       ("namespace_epoch", match ns_epoch n with Some e => VInt e | None => VNone end);
       ("ui_attachable", VBool (ns_ui_attachable n))] ++
      (if scope_verified project_id current then []
       else [("reason", VStr "namespace project/transport/session scope is incomplete or mismatched")])
  end.

Definition blocked_unsupported_operations (operations : list pydict) : list pydict :=
  omap (λ operation,
    let op := strip (op_str operation "op") in
    let op := if truthy op then op else "no_change" in
    if String.eqb op "layout_change" && String.eqb (op_str operation "change") "remove_window" then None
    else if mem_str op SUPPORTED_OPS then None
    else Some [("op", VStr op); ("agent", dget operation "agent"); ("window", dget operation "window");
               ("reason", VStr "namespace patch planner supports config-only, additive, idle remove_agent, and guarded move_agent operations")])
    operations.

Definition view_refresh_steps (operations : list pydict) : list NamespacePatchStep :=
  let view := existsb (is_op "view_only_change") operations in
  let maintenance := existsb (is_op "maintenance_change") operations in
  if negb (view || maintenance) then []
  else
    [patch_step REFRESH_PROJECT_VIEW None None None None None None
       (if negb maintenance then "presentation-only config changed; no tmux namespace mutation is required"
        else if negb view then "maintenance heartbeat policy changed; no tmux namespace mutation is required"
        else "presentation/config-only fields changed; no tmux namespace mutation is required")].

(** The agents of the operations of one kind. *)
Definition op_agents (op : string) (operations : list pydict) : list string :=
  omap (λ item, if is_op op item then or_none (strip (op_str item "agent")) else None) operations.

Definition replace_agent_steps (operations : list pydict) : list NamespacePatchStep :=
  omap (λ item,
    if is_op "replace_agent" item then
      match or_none (strip (op_str item "agent")) with
      | Some agent_name =>
          Some (patch_step REUSE_AGENT_PANE_FOR_REPLACE (or_none (strip (op_str item "window"))) None
                  (Some agent_name) (Some "agent") (Some agent_name) None
                  "agent spec changed; existing pane will be respawned for replacement")
      | None => None
      end
    else None) operations.

Definition tool_slot (window_name : string) : string := String.append "tool:" window_name.
Definition sidebar_slot (window_name : string) : string := String.append "sidebar:" window_name.

Definition new_window_steps (excluded : list string) (w : NamespaceWindowPlan) : list NamespacePatchStep :=
  let name := nw_name w in
  [patch_step CREATE_WINDOW (Some name) None None None None None "window exists only in new config"] ++
  (match nw_sidebar w with
   | Some _ => [patch_step CREATE_SIDEBAR_PANE (Some name) None None (Some "sidebar")
                  (Some (sidebar_slot name)) None "new managed window needs a sidebar pane"]
   | None => []
   end) ++
  map (λ a, agent_step CREATE_AGENT_PANE name None a None "new managed window needs an agent pane")
    (List.filter (λ a, negb (mem_str a excluded)) (nw_agent_names w)) ++
  (if bool_decide (nw_kind w = WK_TOOL)
   then [patch_step CREATE_TOOL_PANE (Some name) None None (Some "tool") (Some (tool_slot name)) None
           "new managed tool window needs a tool pane"]
   else []).

Definition additive_window_steps (old_topology new_topology : NamespaceTopologyPlan) (excluded : list string)
    : list NamespacePatchStep :=
  concat (map (new_window_steps excluded)
    (List.filter (λ w, negb (bool_decide (is_Some (aget (window_map old_topology) (nw_name w)))))
       (nt_windows new_topology))).

Definition remove_tool_window_steps (old_topology new_topology : NamespaceTopologyPlan)
    : list NamespacePatchStep :=
  omap (λ kw,
    if bool_decide (is_Some (aget (window_map new_topology) kw.1)) then None
    else if bool_decide (nw_kind kw.2 = WK_TOOL) then
      Some (patch_step KILL_TOOL_WINDOW (Some kw.1) None None (Some "tool") (Some (tool_slot kw.1)) None
              "managed tool window exists only in current published config")
    else None) (window_map old_topology).

(** The agents of the steps of one kind. *)
Definition step_agents (a : patch_action) (steps : list NamespacePatchStep) : list string :=
  omap (λ s, if bool_decide (st_action s = a) then or_none (str_or (st_agent s) "") else None) steps.
Definition step_windows (a : patch_action) (steps : list NamespacePatchStep) : list string :=
  omap (λ s, if bool_decide (st_action s = a) && negb (blank (str_or (st_window s) ""))
             then st_window s else None) steps.

(** [_missing_additive_agent_steps] and its three siblings. *)
Definition missing_agent_steps (op : string) (a : patch_action) (reason : string)
    (operations : list pydict) (steps : list NamespacePatchStep) : list pydict :=
  map (λ agent_name, [("op", VStr op); ("agent", VStr agent_name); ("reason", VStr reason)])
    (sorted_set (List.filter (λ x, negb (mem_str x (step_agents a steps))) (op_agents op operations))).

Definition missing_additive_agent_steps : list pydict → list NamespacePatchStep → list pydict :=
  missing_agent_steps "add_agent" CREATE_AGENT_PANE
    "add_agent operation was not covered by an additive namespace patch step".
Definition missing_remove_agent_steps : list pydict → list NamespacePatchStep → list pydict :=
  missing_agent_steps "remove_agent" KILL_AGENT_PANE
    "remove_agent operation was not covered by a namespace pane removal step".
Definition missing_replace_agent_steps : list pydict → list NamespacePatchStep → list pydict :=
  missing_agent_steps "replace_agent" REUSE_AGENT_PANE_FOR_REPLACE
    "replace_agent operation was not covered by a same-slot runtime replacement step".
Definition missing_move_agent_steps : list pydict → list NamespacePatchStep → list pydict :=
  missing_agent_steps "move_agent" MOVE_AGENT_PANE
    "move_agent operation was not covered by a namespace pane move step".

Definition missing_tool_window_steps (operations : list pydict) (steps : list NamespacePatchStep)
    : list pydict :=
  let missing op reason item :=
    let window := strip (op_str item "window") in
    if is_op op item && truthy window &&
       negb (mem_str window (step_windows (if String.eqb op "add_tool_window" then CREATE_TOOL_PANE
                                           else KILL_TOOL_WINDOW) steps))
    then [[("op", VStr op); ("window", VStr window); ("reason", VStr reason)]] else [] in
  concat (map (λ item,
    missing "add_tool_window" "add_tool_window operation was not covered by a tool pane creation step" item ++
    missing "remove_tool_window" "remove_tool_window operation was not covered by a tool window removal step"
      item) operations).

Definition topology_agents (t : NamespaceTopologyPlan) : list string :=
  concat (map nw_agent_names (nt_windows t)).

Definition preserved_agents (old_topology new_topology : NamespaceTopologyPlan) (excluded : list string)
    : list string :=
  sorted_set (List.filter (λ a, mem_str a (topology_agents new_topology) && negb (mem_str a excluded))
                (topology_agents old_topology)).

Inductive patch_status := PS_BLOCKED | PS_NO_OP | PS_PLANNED.
#[export] Instance patch_status_eq_dec : EqDecision patch_status.
Proof. solve_decision. Defined.

Definition patch_status_value (s : patch_status) : string :=
  match s with PS_BLOCKED => "blocked" | PS_NO_OP => "no_op" | PS_PLANNED => "planned" end.

Definition warnings_for_status (s : patch_status) : list string :=
  match s with
  | PS_PLANNED => ["Namespace patch apply is explicit and only supports additive, idle remove_agent, idle replace_agent, or guarded move_agent operations."]
  | PS_BLOCKED => ["Namespace patch plan is blocked; reload must remain dry-run/rejected."]
  | PS_NO_OP => []
  end.

(** What is blocked before any step is made. *)
Definition patch_blocked (operations : list pydict) (verified : bool) : list pydict :=
  blocked_unsupported_operations operations ++
  (if existsb (λ item, mem_str (op_str item "op") MUTATING_OPS) operations && negb verified
   then [[("op", VStr "namespace_scope");
          ("reason", VStr "current project namespace scope is unavailable or mismatched")]]
   else []).

(** The steps, and what is blocked by them. *)
Definition patch_steps (old_topology new_topology : NamespaceTopologyPlan) (operations : list pydict)
    : step_result :=
  let moves := move_agent_steps old_topology new_topology in
  let moved := map fst (moved_agents old_topology new_topology) in
  let additions := additive_agent_steps old_topology new_topology moved in
  let removals := remove_agent_steps old_topology new_topology moved in
  let steps := view_refresh_steps operations ++ replace_agent_steps operations ++
               additive_window_steps old_topology new_topology moved ++
               moves.1 ++ additions.1 ++ removals.1 ++ remove_tool_window_steps old_topology new_topology in
  (steps,
   moves.2 ++ additions.2 ++ removals.2 ++
   missing_additive_agent_steps operations steps ++ missing_remove_agent_steps operations steps ++
   missing_replace_agent_steps operations steps ++ missing_move_agent_steps operations steps ++
   missing_tool_window_steps operations steps).

(** The steps and what is blocked, as [build_namespace_patch_plan] has them at its end. *)
Definition planned_patch (old_topology new_topology : NamespaceTopologyPlan) (operations : list pydict)
    (verified : bool) : step_result :=
  match patch_blocked operations verified with
  | [] => patch_steps old_topology new_topology operations
  | blocked => ([], blocked)
  end.

Definition status_of_patch (r : step_result) : patch_status :=
  match r with
  | (_, _ :: _) => PS_BLOCKED
  | ([], []) => PS_NO_OP
  | (_, []) => PS_PLANNED
  end.

Definition build_namespace_patch_plan (current_config new_config : ReloadConfig) (operations : list pydict)
    (project_id : option string) (current : option Namespace) : pydict :=
  let old_topology := build_namespace_topology_plan None None current_config in
  let new_topology := build_namespace_topology_plan None None new_config in
  let r := planned_patch old_topology new_topology operations (scope_verified project_id current) in
  let status := status_of_patch r in
  [("status", VStr (patch_status_value status)); ("mutation_enabled", VBool false);
   ("apply_deferred", VBool true); ("scope", VDict (scope_payload project_id current));
   ("supported_operations", vstrs (sorted_set SUPPORTED_OPS)); ("required_proofs", vstrs REQUIRED_PROOFS);
   ("preserved_agents", vstrs (preserved_agents old_topology new_topology (op_agents "replace_agent" operations)));
   ("steps", VList (map (λ s, VDict (step_to_record s)) r.1));
   ("blocked_operations", VList (map VDict r.2)); ("warnings", vstrs (warnings_for_status status))].

Definition build_invalid_namespace_patch_plan (error : string) : pydict :=
  [("status", VStr "not_planned"); ("mutation_enabled", VBool false); ("apply_deferred", VBool true);
   ("scope", VDict [("verified", VBool false)]);
   ("supported_operations", vstrs (sorted_set SUPPORTED_OPS)); ("required_proofs", vstrs REQUIRED_PROOFS);
   ("preserved_agents", VList []); ("steps", VList []);
   ("blocked_operations", VList [VDict [("op", VStr "invalid_config"); ("reason", VStr error)]]);
   ("warnings", vstrs ["namespace patch planning requires a valid new config"])].
