(* ===== verification/ReloadPlan.v ===== *)
(** The plan of a reload, [lib/ccbd/reload_plan.py]: how two configurations differ, as a list
    of operations; the class of the whole and whether it is safe; and the gate in front of
    its application, [lib/ccbd/reload_apply_plan.py]. *)

From Stdlib Require Import Ascii String ZArith Lia.
From stdpp Require Import base list strings sorting.
From S2P Require Import Prelude PyData Names Layout LayoutParser Topology Drain ReloadConfig ReloadPatch.

Local Open Scope Z_scope.

(** ** Parts of a configuration *)

Definition dict_ne (a b : pyval) : bool := negb (py_eq a b).

(** [a - b] and [a & b] on sets of names. *)
Definition names_diff (a b : list string) : list string := List.filter (λ n, negb (mem_str n b)) a.

Definition agent_record (spec : pydict) : pydict := dpops spec ["schema_version"; "record_type"].

Definition changed_fields (old_record new_record : pydict) : list string :=
  List.filter (λ k, dict_ne (dget old_record k) (dget new_record k))
    (sorted_set (map fst old_record ++ map fst new_record)).

Definition config_agent_window_map (c : ReloadConfig) : list (string * string) :=
  of_pairs (concat (map (λ w, map (λ a, (a, ws_name w)) (ws_agent_names w)) (rc_windows c))).

Definition window_record_map (c : ReloadConfig) : list (string * pydict) :=
  of_pairs (map (λ w, (ws_name w, window_to_record w)) (rc_windows c)).

Definition tool_window_record_map (c : ReloadConfig) : list (string * pydict) :=
  of_pairs (map (λ t, (tw_name t, tool_window_to_record t)) (rc_tool_windows c)).

Fixpoint strip_layout_providers (t : LayoutNode) : LayoutNode :=
  match t with
  | Leaf l => Leaf (mkLeaf (ll_name l) None None 1 (ll_percent l))
  | Branch k a b => Branch k (strip_layout_providers a) (strip_layout_providers b)
  end.

Definition provider_neutral_layout_spec (window_record : pydict) : result string :=
  let! t := parse_layout_spec (op_str window_record "layout_spec") in
  Ok (render (strip_layout_providers t)).

(** [key=lambda name: (order.get(name, 999999), name)] *)
Definition order_le (order : list (string * Z)) (a b : string) : Prop :=
  let oa := default 999999 (aget order a) in
  let ob := default 999999 (aget order b) in
  oa < ob ∨ (oa = ob ∧ String.le a b).
#[export] Instance order_le_dec order : RelDecision (order_le order).
Proof. intros a b. unfold order_le. apply _. Defined.

Definition ordered_windows (c : ReloadConfig) (names : list string) : list string :=
  merge_sort (order_le (of_pairs (map (λ w, (ws_name w, ws_order w)) (rc_windows c)))) (remove_dups names).
Definition ordered_tool_windows (c : ReloadConfig) (names : list string) : list string :=
  merge_sort (order_le (of_pairs (map (λ t, (tw_name t, tw_order t)) (rc_tool_windows c)))) (remove_dups names).

(** [d.get(k) or ()], for a list of names. *)
Definition record_names (record : pydict) (k : string) : list string :=
  match dget record k with VList l => map py_str l | _ => [] end.

Definition record_at (d : list (string * pydict)) (k : string) : pydict := default [] (aget d k).

(** ** [_build_operations] *)

Definition op_add_window (window : string) (agents : list string) : pydict :=
  [("op", VStr "add_window"); ("window", VStr window); ("agents", vstrs agents);
   ("reason", VStr "window exists only in new config")].
Definition op_add_agent (agent : string) (window : option string) : pydict :=
  [("op", VStr "add_agent"); ("agent", VStr agent); ("window", of_opt_str window);
   ("reason", VStr "agent exists only in new config")].
Definition op_remove_agent (agent : string) (window : option string) : pydict :=
  [("op", VStr "remove_agent"); ("agent", VStr agent); ("window", of_opt_str window);
   ("reason", VStr "agent exists only in current published config")].
Definition op_move_agent (agent : string) (from to : option string) : pydict :=
  [("op", VStr "move_agent"); ("agent", VStr agent); ("from_window", of_opt_str from);
   ("to_window", of_opt_str to); ("reason", VStr "existing agent window membership changed")].
Definition op_dispatch_changed (agent : string) (fields : list string) : pydict :=
  [("op", VStr "view_only_change"); ("agent", VStr agent); ("fields", vstrs fields);
   ("reason", VStr "existing agent dispatch availability changed without runtime replacement")].
Definition op_replace_agent (agent : string) (window : option string) (fields : list string) : pydict :=
  [("op", VStr "replace_agent"); ("agent", VStr agent); ("window", of_opt_str window);
   ("fields", vstrs fields); ("reason", VStr "existing agent spec changed")].
Definition op_remove_window (window : string) : pydict :=
  [("op", VStr "layout_change"); ("window", VStr window); ("change", VStr "remove_window");
   ("reason", VStr "window exists only in current published config")].
Definition op_window_changed (window : string) (fields : list string) : pydict :=
  [("op", VStr "layout_change"); ("window", VStr window); ("fields", vstrs fields);
   ("reason", VStr "existing window layout changed without adding or removing agents")].
Definition op_entry_window (old new : string) : pydict :=
  [("op", VStr "layout_change"); ("field", VStr "entry_window"); ("old", VStr old); ("new", VStr new);
   ("reason", VStr "entry window changed")].
Definition op_sidebar : pydict :=
  [("op", VStr "layout_change"); ("field", VStr "sidebar"); ("reason", VStr "sidebar topology changed")].
Definition op_add_tool_window (window : string) (command : pyval) : pydict :=
  [("op", VStr "add_tool_window"); ("window", VStr window); ("command", command);
   ("reason", VStr "tool window exists only in new config")].
Definition op_remove_tool_window (window : string) : pydict :=
  [("op", VStr "remove_tool_window"); ("window", VStr window);
   ("reason", VStr "tool window exists only in current published config")].
Definition op_change_tool_window (window : string) (fields : list string) : pydict :=
  [("op", VStr "change_tool_window"); ("window", VStr window); ("fields", vstrs fields);
   ("reason", VStr "existing tool window changed; explicit restart policy is not implemented")].
Definition op_maintenance (fields : list string) : pydict :=
  [("op", VStr "maintenance_change"); ("fields", vstrs fields);
   ("reason", VStr "maintenance heartbeat policy changed")].

Section operations.
Context (current_config new_config : ReloadConfig).

Definition old_agents : list string := map fst (rc_agents current_config).
Definition new_agents : list string := map fst (rc_agents new_config).
Definition kept_agents : list string :=
  sorted_set (List.filter (λ a, mem_str a new_agents) old_agents).
Definition old_window_of (agent : string) : option string := aget (config_agent_window_map current_config) agent.
Definition new_window_of (agent : string) : option string := aget (config_agent_window_map new_config) agent.

Definition add_window_operations : list pydict :=
  map (λ w, op_add_window w (record_names (record_at (window_record_map new_config) w) "agent_names"))
    (ordered_windows new_config
       (names_diff (map fst (window_record_map new_config)) (map fst (window_record_map current_config)))).

Definition add_agent_operations : list pydict :=
  map (λ a, op_add_agent a (new_window_of a)) (sorted_set (names_diff new_agents old_agents)).

Definition remove_agent_operations : list pydict :=
  map (λ a, op_remove_agent a (old_window_of a)) (sorted_set (names_diff old_agents new_agents)).

Definition move_agent_operations : list pydict :=
  omap (λ a, if bool_decide (old_window_of a = new_window_of a) then None
             else Some (op_move_agent a (old_window_of a) (new_window_of a))) kept_agents.

(** The loop below reads [old_window], which the loop above has left at the window of the
    last agent that is kept. *)
Definition left_over_window : option string :=
  match last kept_agents with Some a => old_window_of a | None => None end.

Definition replace_agent_operation (agent : string) : option pydict :=
  let old_record := agent_record (record_at (rc_agents current_config) agent) in
  let new_record := agent_record (record_at (rc_agents new_config) agent) in
  if dict_ne (VDict old_record) (VDict new_record) then
    let fields := changed_fields old_record new_record in
    if bool_decide (fields = ["dispatch_disabled"]) then Some (op_dispatch_changed agent fields)
    else Some (op_replace_agent agent left_over_window fields)
  else None.

Definition remove_window_operations : list pydict :=
  map op_remove_window
    (ordered_windows current_config
       (names_diff (map fst (window_record_map current_config)) (map fst (window_record_map new_config)))).

Definition layout_operation (window_name : string) : result (option pydict) :=
  let old_record := record_at (window_record_map current_config) window_name in
  let new_record := record_at (window_record_map new_config) window_name in
  if negb (same_set (record_names old_record "agent_names") (record_names new_record "agent_names"))
  then Ok None
  else
    let changed := List.filter (λ f, dict_ne (dget old_record f) (dget new_record f)) ["order"; "agent_names"] in
    let! old_layout := provider_neutral_layout_spec old_record in
    let! new_layout := provider_neutral_layout_spec new_record in
    let changed := changed ++ (if String.eqb old_layout new_layout then [] else ["layout_spec"]) in
    Ok (if bool_decide (changed = []) then None else Some (op_window_changed window_name changed)).

Definition layout_operations : result (list pydict) :=
  let! l := map_result layout_operation
    (ordered_windows new_config
       (List.filter (λ w, mem_str w (map fst (window_record_map new_config)))
          (map fst (window_record_map current_config)))) in
  Ok (omap id l).

Definition topology_operations : result (list pydict) :=
  let! layouts := layout_operations in
  Ok (remove_window_operations ++ layouts ++
      (if String.eqb (rc_entry_window current_config) (rc_entry_window new_config) then []
       else [op_entry_window (rc_entry_window current_config) (rc_entry_window new_config)]) ++
      (if dict_ne (VDict (sidebar_to_record (rc_sidebar current_config)))
                  (VDict (sidebar_to_record (rc_sidebar new_config)))
       then [op_sidebar] else [])).

Definition tool_window_operations : list pydict :=
  let old_tools := tool_window_record_map current_config in
  let new_tools := tool_window_record_map new_config in
  map (λ w, op_add_tool_window w (dget (record_at new_tools w) "command"))
    (ordered_tool_windows new_config (names_diff (map fst new_tools) (map fst old_tools))) ++
  map op_remove_tool_window
    (ordered_tool_windows current_config (names_diff (map fst old_tools) (map fst new_tools))) ++
  omap (λ w,
    let changed := List.filter (λ f, dict_ne (dget (record_at old_tools w) f) (dget (record_at new_tools w) f))
                     ["command"] in
    if bool_decide (changed = []) then None else Some (op_change_tool_window w changed))
    (ordered_tool_windows new_config (List.filter (λ w, mem_str w (map fst new_tools)) (map fst old_tools))).

Definition maintenance_operations : list pydict :=
  let old_record := rc_maintenance_heartbeat current_config in
  let new_record := rc_maintenance_heartbeat new_config in
  if dict_ne (VDict old_record) (VDict new_record)
  then [op_maintenance (changed_fields old_record new_record)] else [].

Definition build_operations : result (list pydict) :=
  let! topology := topology_operations in
  Ok (add_window_operations ++ add_agent_operations ++ remove_agent_operations ++ move_agent_operations ++
      omap replace_agent_operation kept_agents ++ topology ++ tool_window_operations ++
      maintenance_operations).

End operations.

(** ** The class of a plan *)

Definition PLAN_PRIORITY : list (string * Z) :=
  [("no_change", 0); ("view_only_change", 10); ("maintenance_change", 20); ("add_tool_window", 30);
   ("add_agent", 40); ("add_window", 50); ("remove_tool_window", 55); ("change_tool_window", 65);
   ("layout_change", 60); ("move_agent", 70); ("remove_agent", 80); ("replace_agent", 90)].

Definition plan_priority (op : string) : Z := default 60 (aget PLAN_PRIORITY op).

(** [str(item.get('op') or 'layout_change')] *)
Definition op_class (item : pydict) : string := py_str (py_or (dget item "op") (VStr "layout_change")).

(** [max] keeps the first of the largest. *)
Definition select_plan_class (operations : list pydict) : string :=
  match operations with
  | [] => "no_change"
  | x :: r =>
      foldl (λ best item, if plan_priority best <? plan_priority (op_class item) then op_class item else best)
        (op_class x) r
  end.

Definition removes_window (item : pydict) : bool :=
  is_op "layout_change" item && String.eqb (op_str item "change") "remove_window".

Definition remove_agent_operations_are_safe (operations : list pydict) : bool :=
  forallb (λ item, is_op "remove_agent" item || removes_window item) operations &&
  existsb (is_op "remove_agent") operations.

Definition replace_agent_operations_are_safe (operations : list pydict) : bool :=
  negb (bool_decide (length operations = 0%nat)) && forallb (is_op "replace_agent") operations.

(** The agents that move, each with the window it goes to. *)
Definition moved_targets (operations : list pydict) : list (string * string) :=
  of_pairs (omap (λ item,
    if is_op "move_agent" item && truthy (op_str item "agent")
    then Some (op_str item "agent", op_str item "to_window") else None) operations).
Definition moved_source_windows (operations : list pydict) : list string :=
  omap (λ item, if is_op "move_agent" item && truthy (op_str item "from_window")
                then Some (op_str item "from_window") else None) operations.
Definition added_agents_in (operations : list pydict) (window : string) : list string :=
  omap (λ item, if is_op "add_agent" item && truthy (op_str item "agent") && truthy (op_str item "window") &&
                   String.eqb (op_str item "window") window
                then Some (op_str item "agent") else None) operations.

Definition move_compatible (operations : list pydict) (item : pydict) : bool :=
  let moved := moved_targets operations in
  let window := op_str item "window" in
  if is_op "move_agent" item then true
  else if is_op "add_agent" item then mem_str window (map snd moved)
  else if is_op "add_window" item then
    let agents := record_names item "agents" in
    let moved_for_window := map fst (List.filter (λ m, String.eqb m.2 window) moved) in
    negb (bool_decide (agents = [])) && negb (bool_decide (moved_for_window = [])) &&
    same_set (take (length moved_for_window) agents) moved_for_window &&
    same_set agents (moved_for_window ++ added_agents_in operations window)
  else removes_window item && mem_str window (moved_source_windows operations).

Definition move_agent_operations_are_safe (operations : list pydict) : bool :=
  negb (bool_decide (moved_targets operations = [])) && forallb (move_compatible operations) operations.

Definition future_safe_to_apply (plan_class : string) (operations : list pydict) : bool :=
  if mem_str plan_class ["no_change"; "view_only_change"; "maintenance_change"] then true
  else if mem_str plan_class ["add_tool_window"; "remove_tool_window"] then
    negb (existsb (λ item, mem_str (op_str item "op") ["change_tool_window"; "replace_agent"; "move_agent"])
            operations)
  else if String.eqb plan_class "remove_agent" then remove_agent_operations_are_safe operations
  else if String.eqb plan_class "replace_agent" then replace_agent_operations_are_safe operations
  else if String.eqb plan_class "move_agent" then move_agent_operations_are_safe operations
  else if existsb (λ item, mem_str (op_str item "op")
                             ["replace_agent"; "move_agent"; "layout_change"; "change_tool_window"]) operations
  then false
  else mem_str plan_class ["add_agent"; "add_window"].

(** ** The plan *)

Definition operation_reason (item : pydict) : option string :=
  let reason := strip (op_str item "reason") in
  let op := strip (op_str item "op") in
  let target := strip (py_str (py_or (dget item "agent") (py_or (dget item "window")
                  (py_or (dget item "field") (VStr ""))))) in
  if truthy reason && truthy target then Some (String.concat "" [op; " "; target; ": "; reason])
  else if truthy reason then Some (if truthy op then String.concat "" [op; ": "; reason] else reason)
  else None.

Definition plan_payload (status plan_class : string) (old_identity new_identity : pydict)
    (operations drain_intents : list pydict) (namespace_patch_plan : pydict)
    (reasons warnings errors : list string) (safe : bool) : pydict :=
  [("status", VStr status); ("dry_run", VBool true); ("mutation_enabled", VBool false);
   ("safe_to_apply", VBool false); ("future_safe_to_apply", VBool safe); ("plan_class", VStr plan_class);
   ("old_config_signature", dget old_identity "config_signature");
   ("new_config_signature", dget new_identity "config_signature");
   ("old_known_agents", py_or (dget old_identity "known_agents") (VList []));
   ("new_known_agents", py_or (dget new_identity "known_agents") (VList []));
   ("operations", VList (map VDict operations)); ("drain_intents", VList (map VDict drain_intents));
   ("namespace_patch_plan", VDict namespace_patch_plan); ("reasons", vstrs reasons);
   ("warnings", vstrs warnings); ("errors", vstrs errors)].

Definition canonical_config_record (c : ReloadConfig) (include_sidebar_view : bool) : pydict :=
  let record := dpops (config_to_record c) ["schema_version"; "record_type"; "source_path"] in
  if include_sidebar_view then record else dpop record "sidebar_view".

Definition op_sidebar_view : pydict :=
  [("op", VStr "view_only_change"); ("field", VStr "sidebar_view");
   ("reason", VStr "config identity is unchanged; only presentation fields affect the diff")].

(** [dict(current_config_identity or project_config_identity_payload(current_config))] *)
Definition old_identity_of (current_config : ReloadConfig) (current_config_identity : option pydict)
    : pydict :=
  match current_config_identity with
  | Some (kv :: r) => kv :: r
  | _ => project_config_identity_payload current_config
  end.

Section plan.
Context (current_config new_config : ReloadConfig).
Context (current_config_identity : option pydict) (project_id : option string) (current_namespace : option Namespace).

Definition same_record (include_sidebar_view : bool) : bool :=
  py_eq (VDict (canonical_config_record current_config include_sidebar_view))
        (VDict (canonical_config_record new_config include_sidebar_view)).

Definition patch_plan_of (operations : list pydict) : pydict :=
  build_namespace_patch_plan current_config new_config operations project_id current_namespace.

Definition identity_preserving_plan (old_identity new_identity : pydict) : pydict :=
  if same_record true then
    plan_payload "ok" "no_change" old_identity new_identity [] [] (patch_plan_of [])
      ["config identity and presentation fields are unchanged"] [] [] true
  else
    plan_payload "ok" "view_only_change" old_identity new_identity [op_sidebar_view] []
      (patch_plan_of [op_sidebar_view])
      ["config identity is unchanged; presentation-only fields changed"]
      (if same_record false then []
       else ["Config identity is unchanged but non-sidebar presentation fields could not be split more narrowly."])
      [] true.

Definition op_unclassified : pydict :=
  [("op", VStr "layout_change"); ("change", VStr "unclassified_identity_change");
   ("reason", VStr "config identity changed but no narrower Phase 3 operation was detected")].

(** The operations of a plan whose identity changed. *)
Definition classified (built : list pydict) : list pydict :=
  match built with [] => [op_unclassified] | _ => built end.

Definition build_reload_dry_run_plan : result pydict :=
  let old_identity := old_identity_of current_config current_config_identity in
  let new_identity := project_config_identity_payload new_config in
  if py_eq (dget old_identity "config_signature") (dget new_identity "config_signature")
  then Ok (identity_preserving_plan old_identity new_identity)
  else
    let! built := build_operations current_config new_config in
    let operations := classified built in
    let warnings :=
      (if bool_decide (length built = 0%nat)
       then ["Config identity changed; Phase 3 degraded this diff to layout_change."] else []) ++
      (if existsb (λ item, py_eq (dget item "op") (VStr "replace_agent")) operations
       then ["Existing agent spec changes are conservatively classified as replace_agent; runtime-only and metadata-only fields are not split in Phase 3."]
       else []) in
    let plan_class := select_plan_class operations in
    Ok (plan_payload "ok" plan_class old_identity new_identity operations
          (drain_intent_suggestions_for_reload_operations operations
             (dget old_identity "config_signature") (dget new_identity "config_signature"))
          (patch_plan_of operations) (omap operation_reason operations) warnings []
          (future_safe_to_apply plan_class operations)).

Definition build_invalid_reload_dry_run_plan (error : string) : pydict :=
  plan_payload "invalid_config" "invalid_config" (old_identity_of current_config current_config_identity)
    [("known_agents", VList []); ("config_signature", VNone)] [] []
    (build_invalid_namespace_patch_plan error) ["new config could not be loaded or validated"] [] [error] false.

End plan.

(** ** [reload_apply_plan.py] *)

Definition ALLOWED_PLAN_CLASSES : list string :=
  ["no_change"; "view_only_change"; "maintenance_change"; "add_agent"; "add_window"; "remove_agent";
   "replace_agent"; "move_agent"; "add_tool_window"; "remove_tool_window"].
Definition ALLOWED_OPERATIONS : list string :=
  ["view_only_change"; "maintenance_change"; "add_agent"; "add_window"; "remove_agent"; "replace_agent";
   "move_agent"; "add_tool_window"; "remove_tool_window"; "layout_change"].
Definition PATCHED_PLAN_CLASSES : list string :=
  ["add_agent"; "add_window"; "remove_agent"; "replace_agent"; "move_agent"; "add_tool_window";
   "remove_tool_window"].

(** The dictionaries of a list. *)
Definition dict_items (v : pyval) : list pydict :=
  match v with VList l => omap (λ x, match x with VDict d => Some d | _ => None end) l | _ => [] end.

Definition dict_of (v : pyval) : pydict := match v with VDict d => d | _ => [] end.

Definition operation_name (item : pydict) : string :=
  let s := strip (op_str item "op") in if truthy s then s else "unknown".

Definition unsupported_operations (plan : pydict) : list string :=
  sorted_set (omap (λ item,
    let name := operation_name item in
    if String.eqb name "layout_change" && String.eqb (op_str item "change") "remove_window" then None
    else if mem_str name ALLOWED_OPERATIONS then None else Some name) (dict_items (dget plan "operations"))).

Definition operation_blocker (plan : pydict) : option (string * string) :=
  match unsupported_operations plan with
  | [] => None
  | unsupported =>
      Some ("unsupported_operations",
            String.append "additive reload apply rejects operations: " (String.concat "," unsupported))
  end.

Definition namespace_patch_blocker (plan : pydict) : option (string * string) :=
  let patch_plan := dict_of (dget plan "namespace_patch_plan") in
  if negb (String.eqb (op_str patch_plan "status") "planned") then
    Some ("namespace_patch_plan_not_planned",
          "additive reload apply requires an unblocked namespace patch plan")
  else if py_truthy (dget patch_plan "blocked_operations") then
    Some ("namespace_patch_plan_blocked", "additive reload apply requires zero blocked namespace operations")
  else if negb (py_truthy (dget (dict_of (dget patch_plan "scope")) "verified")) then
    Some ("namespace_scope_unverified", "additive reload apply requires verified project namespace scope")
  else None.

Definition plan_blocker (plan : pydict) : option (string * string) :=
  if negb (String.eqb (op_str plan "status") "ok") then
    Some ("plan_not_ok", "reload apply requires a valid dry-run plan")
  else
    let plan_class := op_str plan "plan_class" in
    if negb (mem_str plan_class ALLOWED_PLAN_CLASSES) then
      Some ("unsupported_plan_class",
            "reload apply currently accepts view_only_change, maintenance_change, no_change, add_agent, add_window, idle remove_agent, idle replace_agent, guarded move_agent, add_tool_window, and remove_tool_window")
    else
      match operation_blocker plan with
      | Some b => Some b
      | None =>
          if negb (py_truthy (dget plan "future_safe_to_apply")) then
            Some ("plan_not_future_safe", "dry-run plan is not future-safe for additive apply")
          else if mem_str plan_class PATCHED_PLAN_CLASSES then namespace_patch_blocker plan
          else None
      end.
