(* ===== verification/ReloadScreen.v ===== *)
(** What the steps of a reload do to the windows and panes of the multiplexer: a screen is
    its windows and its panes, each known by its role and slot key; a step has a condition
    and an effect.  Lemmas on sequences of steps, on the phases of a patch plan, and on what
    a plan without blocked operations guarantees. *)

From Stdlib Require Import Ascii String ZArith Lia.
From stdpp Require Import base gmap list strings sets sorting.
From S2P Require Import Prelude PyData Names Layout LayoutParser Topology ReloadConfig ReloadPatch.

Local Open Scope Z_scope.

(** ** Screens *)

Abbreviation pane := (string * string)%type.

Record screen := Screen { sc_windows : gset string; sc_panes : gmap pane string }.

Definition step_pane (st : NamespacePatchStep) : pane := (default "" (st_role st), default "" (st_slot_key st)).
Definition step_window (st : NamespacePatchStep) : string := default "" (st_window st).
Definition sidebar_pane (window : string) : pane := ("sidebar", sidebar_slot window).

(** The panes a step touches, each with the window it is in afterwards. *)
Definition pane_change (st : NamespacePatchStep) : list (pane * option string) :=
  match st_action st with
  | REFRESH_PROJECT_VIEW | REUSE_AGENT_PANE_FOR_REPLACE | CREATE_WINDOW => []
  | CREATE_SIDEBAR_PANE | CREATE_AGENT_PANE | CREATE_TOOL_PANE => [(step_pane st, Some (step_window st))]
  | MOVE_AGENT_PANE => [(step_pane st, Some (default "" (st_target_window st)))]
  | KILL_AGENT_PANE => [(step_pane st, None)]
  | KILL_WINDOW => [(sidebar_pane (step_window st), None)]
  | KILL_TOOL_WINDOW => [(step_pane st, None); (sidebar_pane (step_window st), None)]
  end.

(** The windows a step touches, and whether they are there afterwards. *)
Definition window_change (st : NamespacePatchStep) : list (string * bool) :=
  match st_action st with
  | CREATE_WINDOW => [(step_window st, true)]
  | KILL_WINDOW | KILL_TOOL_WINDOW => [(step_window st, false)]
  | _ => []
  end.

Definition step_effect (s : screen) (st : NamespacePatchStep) : screen :=
  Screen (foldl (λ W c, if (c.2 : bool) then {[ c.1 ]} ∪ W else W ∖ {[ c.1 ]}) (sc_windows s) (window_change st))
         (foldl (λ P c, partial_alter (λ _, c.2) c.1 P) (sc_panes s) (pane_change st)).

(** Every pane of the window is one of these. *)
Definition only_panes (s : screen) (window : string) (panes : list pane) : bool :=
  bool_decide (map_Forall (λ k w, w = window → k ∈ panes) (sc_panes s)).

(** When a step can be made: a pane is created in a window that is there, beside its anchor
    if it has one; moved from the window it is in to one that is there; killed where it is;
    and a window goes only when nothing but what it is killed with is left in it. *)
Definition step_ok (s : screen) (st : NamespacePatchStep) : bool :=
  match st_action st with
  | REFRESH_PROJECT_VIEW => true
  | REUSE_AGENT_PANE_FOR_REPLACE => bool_decide (is_Some (sc_panes s !! step_pane st))
  | CREATE_WINDOW => bool_decide (step_window st ∉ sc_windows s)
  | CREATE_SIDEBAR_PANE | CREATE_AGENT_PANE | CREATE_TOOL_PANE =>
      bool_decide (step_window st ∈ sc_windows s) && bool_decide (sc_panes s !! step_pane st = None) &&
      match st_anchor_agent st with
      | Some a => bool_decide (sc_panes s !! ("agent", a) = Some (step_window st))
      | None => true
      end
  | MOVE_AGENT_PANE =>
      bool_decide (sc_panes s !! step_pane st = Some (step_window st)) &&
      bool_decide (default "" (st_target_window st) ∈ sc_windows s)
  | KILL_AGENT_PANE => bool_decide (sc_panes s !! step_pane st = Some (step_window st))
  | KILL_WINDOW =>
      bool_decide (step_window st ∈ sc_windows s) && only_panes s (step_window st) [sidebar_pane (step_window st)]
  | KILL_TOOL_WINDOW =>
      bool_decide (step_window st ∈ sc_windows s) &&
      bool_decide (sc_panes s !! step_pane st = Some (step_window st)) &&
      only_panes s (step_window st) [step_pane st; sidebar_pane (step_window st)]
  end.

Fixpoint run_steps (steps : list NamespacePatchStep) (s : screen) : option screen :=
  match steps with
  | [] => Some s
  | st :: r => if step_ok s st then run_steps r (step_effect s st) else None
  end.

(** The screen of a topology. *)
Definition window_panes (w : NamespaceWindowPlan) : list pane :=
  (match nw_sidebar w with Some _ => [sidebar_pane (nw_name w)] | None => [] end) ++
  map (pair "agent") (nw_agent_names w) ++
  (if bool_decide (nw_kind w = WK_TOOL) then [("tool", tool_slot (nw_name w))] else []).

Definition screen_of (t : NamespaceTopologyPlan) : screen :=
  Screen (list_to_set (map nw_name (nt_windows t)))
         (list_to_map (concat (map (λ w, map (λ k, (k, nw_name w)) (window_panes w)) (nt_windows t)))).

(** ** Sequences of steps *)

Definition after (steps : list NamespacePatchStep) (s : screen) : screen := foldl step_effect s steps.

Definition pane_changes (steps : list NamespacePatchStep) : list (pane * option string) :=
  concat (map pane_change steps).
Definition window_changes (steps : list NamespacePatchStep) : list (string * bool) :=
  concat (map window_change steps).
Definition touched (steps : list NamespacePatchStep) : list pane := map fst (pane_changes steps).
Definition touched_windows (steps : list NamespacePatchStep) : list string := map fst (window_changes steps).

Lemma changes_app {A B} (f : A → list B) l l' : concat (map f (l ++ l')) = concat (map f l) ++ concat (map f l').
Proof. by rewrite map_app, concat_app. Qed.

Lemma touched_app l l' : touched (l ++ l') = touched l ++ touched l'.
Proof. unfold touched, pane_changes. by rewrite changes_app, map_app. Qed.
Lemma touched_windows_app l l' : touched_windows (l ++ l') = touched_windows l ++ touched_windows l'.
Proof. unfold touched_windows, window_changes. by rewrite changes_app, map_app. Qed.

Lemma run_steps_prefix steps s :
  (∀ pre st post, steps = pre ++ st :: post → step_ok (after pre s) st = true) →
  run_steps steps s = Some (after steps s).
Proof.
  revert s. induction steps as [|st r IH]; intros s H; [done|]. cbn [run_steps].
  pose proof (H [] st r eq_refl) as H0. cbn [after foldl] in H0. rewrite H0. apply IH.
  intros pre st' post ->. apply (H (st :: pre) st' post). done.
Qed.

(** A run whose changes all lead to the panes [P'] and the windows [W']. *)
Lemma foldl_panes (P' : gmap pane string) ch P k :
  (∀ c, c ∈ ch → c.2 = P' !! c.1) →
  foldl (λ P (c : pane * option string), partial_alter (λ _, c.2) c.1 P) P ch !! k
  = if decide (k ∈ map fst ch) then P' !! k else (P : gmap pane string) !! k.
Proof.
  revert P. induction ch as [|c ch IH]; intros P H; [done|]. cbn [foldl map].
  rewrite IH by (intros c' ?; apply H; by right).
  destruct (decide (k = c.1)) as [->|Hk].
  - rewrite lookup_partial_alter_eq. rewrite (H c) by by left.
    rewrite (decide_True _ _ (P := c.1 ∈ c.1 :: map fst ch)) by by left. by case_decide.
  - rewrite lookup_partial_alter_ne by done.
    destruct (decide (k ∈ map fst ch)) as [Hi|Hi].
    + rewrite decide_True; [done|by right].
    + rewrite decide_False; [done|]. intros Hx. apply elem_of_cons in Hx as [?|?]; done.
Qed.

Lemma foldl_windows (W' : gset string) ch W k :
  (∀ c, c ∈ ch → c.2 = true ↔ c.1 ∈ W') →
  k ∈ foldl (λ W (c : string * bool), if c.2 then {[ c.1 ]} ∪ W else W ∖ {[ c.1 ]}) W ch
  ↔ if decide (k ∈ map fst ch) then k ∈ W' else k ∈ (W : gset string).
Proof.
  revert W. induction ch as [|c ch IH]; intros W H; [done|]. cbn [foldl map].
  rewrite IH by (intros c' ?; apply H; by right).
  destruct (decide (k = c.1)) as [->|Hk].
  - rewrite (decide_True _ _ (P := c.1 ∈ c.1 :: map fst ch)) by by left. case_decide; [done|].
    rewrite <-(H c) by by left. destruct c.2; set_solver.
  - destruct (decide (k ∈ map fst ch)) as [Hi|Hi].
    + rewrite decide_True; [done|by right].
    + rewrite decide_False; [destruct c.2; set_solver|].
      intros Hx. apply elem_of_cons in Hx as [?|?]; done.
Qed.

Lemma after_changes steps s :
  after steps s =
  Screen (foldl (λ W (c : string * bool), if c.2 then {[ c.1 ]} ∪ W else W ∖ {[ c.1 ]}) (sc_windows s) (window_changes steps))
         (foldl (λ P (c : pane * option string), partial_alter (λ _, c.2) c.1 P) (sc_panes s) (pane_changes steps)).
Proof.
  revert s. induction steps as [|st r IH]; intros s; [by destruct s|].
  unfold after in *. cbn [foldl]. rewrite IH. unfold window_changes, pane_changes. cbn [map concat].
  rewrite !foldl_app. done.
Qed.

(** Changes lead towards a screen when each pane and window they touch is then as there. *)
Definition towards (s' : screen) (steps : list NamespacePatchStep) : Prop :=
  (∀ c, c ∈ pane_changes steps → c.2 = sc_panes s' !! c.1) ∧
  (∀ c, c ∈ window_changes steps → c.2 = true ↔ c.1 ∈ sc_windows s').

Lemma towards_app s' l l' : towards s' (l ++ l') ↔ towards s' l ∧ towards s' l'.
Proof.
  unfold towards, pane_changes, window_changes. rewrite !changes_app. setoid_rewrite elem_of_app. naive_solver.
Qed.

Lemma after_pane s' steps s k :
  towards s' steps →
  sc_panes (after steps s) !! k = if decide (k ∈ touched steps) then sc_panes s' !! k else sc_panes s !! k.
Proof. intros [H _]. rewrite after_changes. cbn. by apply foldl_panes. Qed.

Lemma after_window s' steps s w :
  towards s' steps →
  w ∈ sc_windows (after steps s) ↔ if decide (w ∈ touched_windows steps) then w ∈ sc_windows s' else w ∈ sc_windows s.
Proof. intros [_ H]. rewrite after_changes. cbn. by apply foldl_windows. Qed.

Lemma after_reaches s' steps s :
  towards s' steps →
  (∀ k, k ∉ touched steps → sc_panes s !! k = sc_panes s' !! k) →
  (∀ w, w ∉ touched_windows steps → w ∈ sc_windows s ↔ w ∈ sc_windows s') →
  after steps s = s'.
Proof.
  intros Ht Hp Hw.
  assert (sc_windows (after steps s) = sc_windows s' ∧ sc_panes (after steps s) = sc_panes s') as [Ew Ep].
  - split.
    + apply set_eq. intros w. rewrite (after_window s') by done. case_decide; [done|by apply Hw].
    + apply map_eq. intros k. rewrite (after_pane s') by done. case_decide; [done|by apply Hp].
  - destruct (after steps s), s'. cbn in *. by subst.
Qed.

(** ** Where a step stands *)

Lemma app_split {A} (a b pre : list A) x post :
  a ++ b = pre ++ x :: post →
  (∃ r, a = pre ++ x :: r) ∨ (∃ mid, pre = a ++ mid ∧ b = mid ++ x :: post).
Proof.
  revert pre. induction a as [|y a IH]; intros pre H; [right; by exists pre|].
  destruct pre as [|z pre]; cbn in H; injection H as <- H.
  - left. by exists a.
  - destruct (IH _ H) as [[r ->]|(mid & -> & ->)]; [left|right]; eauto.
Qed.

Lemma concat_split {A B} (f : A → list B) l pre x post :
  concat (map f l) = pre ++ x :: post →
  ∃ l1 y l2 mid r, l = l1 ++ y :: l2 ∧ pre = concat (map f l1) ++ mid ∧ f y = mid ++ x :: r.
Proof.
  revert pre. induction l as [|y l IH]; intros pre H; [by destruct pre|]. cbn in H.
  apply app_split in H as [[r H]|(mid & -> & H)].
  - exists [], y, l, pre, r. done.
  - destruct (IH _ H) as (l1 & z & l2 & mid' & r & -> & -> & Hz).
    exists (y :: l1), z, l2, mid', r. cbn. by rewrite app_assoc.
Qed.

Lemma NoDup_concat_map {A B C} (f : A → list B) (g : A → C) l :
  NoDup (map g l) → (∀ x, x ∈ l → NoDup (f x)) →
  (∀ x y k, x ∈ l → y ∈ l → k ∈ f x → k ∈ f y → g x = g y) → NoDup (concat (map f l)).
Proof.
  induction l as [|x l IH]; intros Hg Hf Hd; [constructor|]. cbn in *.
  apply NoDup_cons in Hg as [Hx Hg]. apply list.NoDup_app. split; [apply Hf; by left|]. split.
  - intros k Hk Hk'. apply list_elem_of_In, in_concat in Hk' as (b & Hb & Hk').
    apply in_map_iff in Hb as (y & <- & Hy). apply Hx.
    apply list_elem_of_In. apply in_map_iff. exists y. split; [|done].
    symmetry. apply (Hd x y k); [by left|right; by apply list_elem_of_In|done|by apply list_elem_of_In].
  - apply IH; [done| |]; intros; [apply Hf|eapply Hd]; try (by right); done.
Qed.

Lemma elem_of_concat_map {A B} (f : A → list B) l k :
  k ∈ concat (map f l) ↔ ∃ x, x ∈ l ∧ k ∈ f x.
Proof.
  induction l as [|y l IH]; cbn; [split; [intros H; by apply not_elem_of_nil in H|intros (x & H & _); by apply not_elem_of_nil in H]|].
  rewrite elem_of_app, IH. setoid_rewrite elem_of_cons. naive_solver.
Qed.

Lemma concat_map_singleton {A B} (f : A → list B) (g : A → B) l :
  (∀ x, x ∈ l → f x = [g x]) → concat (map f l) = map g l.
Proof.
  induction l as [|x l IH]; intros H; [done|]. cbn. rewrite H by by left. cbn. f_equal. apply IH.
  intros y Hy. apply H. by right.
Qed.

(** ** Dictionaries *)

Lemma aget_aset {A} (d : list (string * A)) k v k' :
  aget (aset d k v) k' = if String.eqb k' k then Some v else aget d k'.
Proof.
  induction d as [|[k0 v0] d IH]; cbn [aset aget]; [by destruct (String.eqb k' k)|].
  destruct (String.eqb k k0) eqn:E; cbn [aget].
  - apply String.eqb_eq in E as ->. by destruct (String.eqb k' k0).
  - rewrite IH. destruct (String.eqb k' k) eqn:E1, (String.eqb k' k0) eqn:E2; try done.
    apply String.eqb_eq in E1, E2. subst. by rewrite String.eqb_refl in E.
Qed.

Lemma aset_fresh {A} (d : list (string * A)) k v : k ∉ map fst d → aset d k v = d ++ [(k, v)].
Proof.
  induction d as [|[k0 v0] d IH]; intros H; [done|]. cbn in H. apply not_elem_of_cons in H as [H1 H2].
  cbn. rewrite (proj2 (String.eqb_neq _ _)) by done. by rewrite IH.
Qed.

(** Distinct keys: a dictionary is the list of its pairs. *)
Lemma of_pairs_id {A} (l : list (string * A)) : NoDup (map fst l) → of_pairs l = l.
Proof.
  intros H. unfold of_pairs. change l with ([] ++ l) at 2.
  assert (NoDup (map fst ([] ++ l))) as H' by done. clear H. revert H'.
  generalize (@nil (string * A)). induction l as [|[k v] l IH]; intros d H; [by rewrite app_nil_r|].
  cbn [foldl fst snd]. rewrite aset_fresh.
  - rewrite IH, <-app_assoc; [done|]. by rewrite <-app_assoc.
  - rewrite map_app in H. cbn in H. apply list.NoDup_app in H as (_ & H & _). intros Hk. apply (H k Hk). by left.
Qed.

Lemma aget_elem {A} (l : list (string * A)) k v : NoDup (map fst l) → aget l k = Some v ↔ (k, v) ∈ l.
Proof.
  induction l as [|[k0 v0] l IH]; intros H; [split; [done|intros Hx; by apply not_elem_of_nil in Hx]|].
  cbn in *. apply NoDup_cons in H as [Hk H]. rewrite elem_of_cons.
  destruct (String.eqb k k0) eqn:E.
  - apply String.eqb_eq in E as ->. split; [intros [= ->]; by left|].
    intros [[= ->]|Hin]; [done|]. destruct Hk. apply list_elem_of_In, in_map_iff.
    exists (k0, v). split; [done|by apply list_elem_of_In].
  - apply String.eqb_neq in E. rewrite IH by done. split; [by right|intros [[= -> ->]|?]; done].
Qed.

Lemma aget_None {A} (l : list (string * A)) k : aget l k = None ↔ k ∉ map fst l.
Proof.
  induction l as [|[k0 v0] l IH]; cbn; [split; [intros _ H; by apply not_elem_of_nil in H|done]|].
  rewrite not_elem_of_cons. destruct (String.eqb k k0) eqn:E.
  - apply String.eqb_eq in E. split; [done|by intros []].
  - apply String.eqb_neq in E. rewrite IH. naive_solver.
Qed.

Lemma NoDup_concat_map_inj {A B} (f : A → list B) l x y k :
  NoDup (concat (map f l)) → x ∈ l → y ∈ l → k ∈ f x → k ∈ f y → x = y.
Proof.
  induction l as [|z l IH]; cbn; intros H Hx Hy Kx Ky; [by apply not_elem_of_nil in Hx|].
  apply list.NoDup_app in H as (_ & Hd & H). apply elem_of_cons in Hx as [->|Hx], Hy as [->|Hy]; try done.
  - destruct (Hd k Kx). apply elem_of_concat_map. eauto.
  - destruct (Hd k Ky). apply elem_of_concat_map. eauto.
  - by apply IH.
Qed.

Lemma NoDup_map_inj {A B} (f : A → B) l x y : NoDup (map f l) → x ∈ l → y ∈ l → f x = f y → x = y.
Proof.
  induction l as [|z l IH]; cbn; intros H Hx Hy E; [by apply not_elem_of_nil in Hx|].
  apply NoDup_cons in H as [Hz H].
  assert (∀ u, u ∈ l → f u ∈ map f l) as Hin
    by (intros u Hu; apply list_elem_of_In, in_map; by apply list_elem_of_In).
  apply elem_of_cons in Hx as [->|Hx], Hy as [->|Hy]; try done.
  - rewrite E in Hz. by destruct (Hz (Hin _ Hy)).
  - rewrite <-E in Hz. by destruct (Hz (Hin _ Hx)).
  - by apply IH.
Qed.

Lemma elem_of_map {A B} (f : A → B) l k : k ∈ map f l ↔ ∃ x, x ∈ l ∧ k = f x.
Proof.
  rewrite list_elem_of_In, in_map_iff. setoid_rewrite list_elem_of_In. naive_solver.
Qed.

Lemma mem_str_not x l : mem_str x l = false ↔ x ∉ l.
Proof. rewrite <-mem_str_spec. by destruct (mem_str x l). Qed.

Lemma elem_of_lfilter {A} (p : A → bool) l x : x ∈ List.filter p l ↔ x ∈ l ∧ p x = true.
Proof. by rewrite !list_elem_of_In, filter_In. Qed.

Lemma prefix_inj p a b : String.append p a = String.append p b → a = b.
Proof. induction p as [|c p IH]; cbn; [done|]. intros [= H]. by apply IH. Qed.

(** ** Topologies *)

(** What an accepted configuration guarantees of its topology: windows named apart, agents in
    one window each and once there, none in a tool window, and a sidebar in every window or
    in none. *)
Record topology_ok (t : NamespaceTopologyPlan) : Prop := {
  tok_windows : NoDup (map nw_name (nt_windows t));
  tok_agents : NoDup (topology_agents t);
  tok_tools : ∀ w, w ∈ nt_windows t → nw_kind w = WK_TOOL → nw_agent_names w = [];
  tok_sidebar : ∀ w, w ∈ nt_windows t → is_Some (nw_sidebar w) ↔ nt_sidebar_enabled t = true;
}.

(** The agent is in the window of that name. *)
Definition at_window (t : NamespaceTopologyPlan) (a w : string) : Prop :=
  ∃ win, win ∈ nt_windows t ∧ nw_name win = w ∧ a ∈ nw_agent_names win.

(** The panes of a window: a sidebar, agents, a tool. *)
Definition pane_list (name : string) (sidebar tool : bool) (agents : list string) : list pane :=
  (if sidebar then [sidebar_pane name] else []) ++ map (pair "agent") agents ++
  (if tool then [("tool", tool_slot name)] else []).

Lemma pane_list_NoDup name sidebar tool agents : NoDup agents → NoDup (pane_list name sidebar tool agents).
Proof.
  intros Ha. unfold pane_list. apply list.NoDup_app.
  split; [destruct sidebar; repeat constructor; by apply not_elem_of_nil|]. split.
  - intros k Hk. rewrite elem_of_app, elem_of_map. destruct sidebar; [|by apply not_elem_of_nil in Hk].
    apply list_elem_of_singleton in Hk as ->. intros [(a & _ & [=])|H].
    destruct tool; [apply list_elem_of_singleton in H as [=]|by apply not_elem_of_nil in H].
  - apply list.NoDup_app. split; [|split].
    + apply NoDup_fmap_2; [intros x y [= ->]; done|done].
    + intros k (a & _ & ->)%elem_of_map. destruct tool; [|by apply not_elem_of_nil].
      intros [=]%list_elem_of_singleton.
    + destruct tool; repeat constructor. by apply not_elem_of_nil.
Qed.

Lemma sidebar_list {A} (o : option SidebarPanePlan) (x : A) :
  match o with Some _ => [x] | None => [] end = if bool_decide (is_Some o) then [x] else [].
Proof. destruct o; [by rewrite bool_decide_eq_true_2 by by eexists|]. rewrite bool_decide_eq_false_2; [done|by intros [? [=]]]. Qed.

Section topology.
Context (t : NamespaceTopologyPlan) (Ht : topology_ok t).

Lemma window_map_get w win : aget (window_map t) w = Some win ↔ win ∈ nt_windows t ∧ nw_name win = w.
Proof.
  unfold window_map. assert (NoDup (map fst (map (λ w, (nw_name w, w)) (nt_windows t)))) as Hn
    by (rewrite map_map; apply (tok_windows t Ht)).
  rewrite of_pairs_id, aget_elem by done. rewrite elem_of_map. naive_solver.
Qed.

Lemma window_map_None w : aget (window_map t) w = None ↔ w ∉ map nw_name (nt_windows t).
Proof.
  unfold window_map. rewrite of_pairs_id by (rewrite map_map; apply (tok_windows t Ht)).
  rewrite aget_None, map_map. done.
Qed.

Lemma window_map_list : window_map t = map (λ w, (nw_name w, w)) (nt_windows t).
Proof. apply of_pairs_id. rewrite map_map. apply (tok_windows t Ht). Qed.

Lemma same_window w w' : w ∈ nt_windows t → w' ∈ nt_windows t → nw_name w = nw_name w' → w = w'.
Proof. apply NoDup_map_inj, (tok_windows t Ht). Qed.

Lemma same_agent_window w w' a :
  w ∈ nt_windows t → w' ∈ nt_windows t → a ∈ nw_agent_names w → a ∈ nw_agent_names w' → w = w'.
Proof. apply NoDup_concat_map_inj, (tok_agents t Ht). Qed.

Lemma at_window_unique a w w' : at_window t a w → at_window t a w' → w = w'.
Proof.
  intros (x & Hx & <- & Ax) (y & Hy & <- & Ay). by rewrite (same_agent_window x y a).
Qed.

Lemma at_window_agents a : (∃ w, at_window t a w) ↔ a ∈ topology_agents t.
Proof. unfold topology_agents, at_window. rewrite elem_of_concat_map. naive_solver. Qed.

Lemma window_agents_NoDup w : w ∈ nt_windows t → NoDup (nw_agent_names w).
Proof.
  pose proof (tok_agents t Ht) as H. unfold topology_agents in H. revert H.
  induction (nt_windows t) as [|x l IH]; cbn; intros H Hw; [by apply not_elem_of_nil in Hw|].
  apply list.NoDup_app in H as (H1 & _ & H2). apply elem_of_cons in Hw as [->|Hw]; [done|by apply IH].
Qed.

Lemma agent_window_get a w : aget (agent_window_map t) a = Some w ↔ at_window t a w.
Proof.
  unfold agent_window_map.
  assert (map fst (concat (map (λ w, map (λ a, (a, nw_name w)) (nw_agent_names w)) (nt_windows t))) = topology_agents t) as E.
  { unfold topology_agents. rewrite concat_map, map_map. f_equal. apply map_ext. intros x.
    rewrite map_map. apply map_id. }
  rewrite of_pairs_id, aget_elem by (rewrite E; apply (tok_agents t Ht)).
  rewrite elem_of_concat_map. unfold at_window. setoid_rewrite elem_of_map. naive_solver.
Qed.

Lemma elem_of_window_panes w k :
  k ∈ window_panes w ↔ (is_Some (nw_sidebar w) ∧ k = sidebar_pane (nw_name w)) ∨
    (∃ a, a ∈ nw_agent_names w ∧ k = ("agent", a)) ∨ (nw_kind w = WK_TOOL ∧ k = ("tool", tool_slot (nw_name w))).
Proof.
  unfold window_panes. rewrite !elem_of_app, elem_of_map.
  destruct (nw_sidebar w); case_bool_decide; rewrite ?list_elem_of_singleton, ?elem_of_nil;
    unfold is_Some; naive_solver.
Qed.

Lemma window_panes_NoDup w : w ∈ nt_windows t → NoDup (window_panes w).
Proof.
  intros Hw. unfold window_panes. rewrite sidebar_list. apply pane_list_NoDup. by apply window_agents_NoDup.
Qed.

Lemma shared_pane w w' k :
  w ∈ nt_windows t → w' ∈ nt_windows t → k ∈ window_panes w → k ∈ window_panes w' → nw_name w = nw_name w'.
Proof.
  intros Hw Hw'. rewrite !elem_of_window_panes.
  intros [[_ ->]|[(a & Ha & ->)|[_ ->]]] [[_ E]|[(b & Hb & E)|[_ E]]]; try discriminate E.
  - injection E as E. by apply prefix_inj in E.
  - injection E as <-. by rewrite (same_agent_window w w' a).
  - injection E as E. by apply prefix_inj in E.
Qed.

Lemma screen_pane k w :
  sc_panes (screen_of t) !! k = Some w ↔ ∃ win, win ∈ nt_windows t ∧ nw_name win = w ∧ k ∈ window_panes win.
Proof.
  cbn. set (l := concat _).
  assert (NoDup l.*1) as Hl.
  { change (l.*1) with (map fst l). unfold l. rewrite concat_map, map_map.
    apply (NoDup_concat_map _ nw_name); [apply (tok_windows t Ht)| |].
    - intros x Hx. rewrite map_map. cbn. rewrite map_id. by apply window_panes_NoDup.
    - intros x y k' Hx Hy. rewrite !map_map. cbn. rewrite !map_id. by apply shared_pane. }
  rewrite <-elem_of_list_to_map by done. unfold l. rewrite elem_of_concat_map. setoid_rewrite elem_of_map.
  naive_solver.
Qed.

Lemma screen_window w : w ∈ sc_windows (screen_of t) ↔ w ∈ map nw_name (nt_windows t).
Proof. cbn. by rewrite elem_of_list_to_set. Qed.

Lemma screen_pane_None k :
  sc_panes (screen_of t) !! k = None ↔ ∀ win, win ∈ nt_windows t → k ∉ window_panes win.
Proof.
  rewrite eq_None_not_Some. unfold is_Some. setoid_rewrite screen_pane. naive_solver.
Qed.

Lemma screen_agent a w : sc_panes (screen_of t) !! ("agent", a) = Some w ↔ at_window t a w.
Proof.
  rewrite screen_pane. unfold at_window. setoid_rewrite elem_of_window_panes. unfold sidebar_pane.
  split.
  - intros (win & H1 & H2 & [[_ [=]]|[(b & Hb & [= <-])|[_ [=]]]]). eauto.
  - intros (win & H1 & H2 & H3). exists win. split; [done|]. split; [done|]. right. left. eauto.
Qed.

Lemma screen_agent_None a : sc_panes (screen_of t) !! ("agent", a) = None ↔ a ∉ topology_agents t.
Proof.
  rewrite eq_None_not_Some, <-at_window_agents. unfold is_Some. by setoid_rewrite screen_agent.
Qed.

End topology.

(** ** Results of steps *)

Lemma step_results_fst {A} (f : A → step_result) l : (step_results (map f l)).1 = concat (map (λ x, (f x).1) l).
Proof. unfold step_results. cbn. by rewrite map_map. Qed.

Lemma step_results_snd {A} (f : A → step_result) l :
  (step_results (map f l)).2 = [] → ∀ x, x ∈ l → (f x).2 = [].
Proof.
  unfold step_results. cbn. rewrite map_map. intros H x Hx. apply elem_of_nil_inv. intros y Hy.
  assert (y ∈ concat (map (λ x, (f x).2) l)) as Hin by (apply elem_of_concat_map; eauto).
  rewrite H in Hin. by apply not_elem_of_nil in Hin.
Qed.

Lemma elem_touched l k : k ∈ touched l ↔ ∃ st, st ∈ l ∧ k ∈ map fst (pane_change st).
Proof.
  unfold touched, pane_changes. rewrite elem_of_map. setoid_rewrite elem_of_concat_map.
  setoid_rewrite elem_of_map. naive_solver.
Qed.

Lemma elem_touched_windows l w : w ∈ touched_windows l ↔ ∃ st, st ∈ l ∧ w ∈ map fst (window_change st).
Proof.
  unfold touched_windows, window_changes. rewrite elem_of_map. setoid_rewrite elem_of_concat_map.
  setoid_rewrite elem_of_map. naive_solver.
Qed.

Lemma touched_concat {A} (f : A → list NamespacePatchStep) l :
  touched (concat (map f l)) = concat (map (λ x, touched (f x)) l).
Proof. induction l as [|x l IH]; cbn [map concat]; [done|]. by rewrite touched_app, IH. Qed.

Lemma touched_windows_concat {A} (f : A → list NamespacePatchStep) l :
  touched_windows (concat (map f l)) = concat (map (λ x, touched_windows (f x)) l).
Proof. induction l as [|x l IH]; cbn [map concat]; [done|]. by rewrite touched_windows_app, IH. Qed.

Lemma towards_steps s' l :
  (∀ st, st ∈ l → (∀ c, c ∈ pane_change st → c.2 = sc_panes s' !! c.1) ∧
                  (∀ c, c ∈ window_change st → c.2 = true ↔ c.1 ∈ sc_windows s')) → towards s' l.
Proof.
  intros H. unfold towards, pane_changes, window_changes. split; intros c (st & Hst & Hc)%elem_of_concat_map;
    by apply (H st Hst).
Qed.

(** ** Phases of a plan *)

Lemma elem_of_moved o n (Ho : topology_ok o) (Hn : topology_ok n) a w0 w1 :
  (a, (w0, w1)) ∈ moved_agents o n ↔ at_window o a w0 ∧ at_window n a w1 ∧ w0 ≠ w1.
Proof.
  unfold moved_agents. rewrite elem_of_concat_map. setoid_rewrite list_elem_of_omap. split.
  - intros (win & Hw & b & Hb & E). destruct (aget (agent_window_map o) b) as [w|] eqn:Ew; [|done].
    destruct (String.eqb w (nw_name win)) eqn:En; [done|]. injection E as <- <- <-.
    apply (agent_window_get o Ho) in Ew. apply String.eqb_neq in En. split; [done|]. split; [by exists win|done].
  - intros (H0 & (win & Hw & <- & Ha) & Hne). exists win. split; [done|]. exists a. split; [done|].
    apply (agent_window_get o Ho) in H0 as ->. by rewrite (proj2 (String.eqb_neq _ _)).
Qed.

Definition move_of (m : string * (string * string)) : NamespacePatchStep :=
  agent_step MOVE_AGENT_PANE m.2.1 (Some m.2.2) m.1 None "existing dynamic agent window membership changed".

Lemma move_agent_step_free ow nw moved m :
  (move_agent_step ow nw moved m).2 = [] → (move_agent_step ow nw moved m).1 = [move_of m].
Proof.
  destruct m as [a [s t]]. unfold move_agent_step, move_step, move_of. cbn.
  repeat (match goal with |- context [match ?x with _ => _ end] => destruct x end; try done).
Qed.

Lemma elem_of_new_window_steps excluded w st :
  st ∈ new_window_steps excluded w →
  (step_window st = nw_name w ∧ st_anchor_agent st = None) ∧
  ((st_action st = CREATE_WINDOW) ∨
   (is_Some (nw_sidebar w) ∧ st_action st = CREATE_SIDEBAR_PANE ∧ step_pane st = sidebar_pane (nw_name w)) ∨
   (∃ a, a ∈ nw_agent_names w ∧ a ∉ excluded ∧ st_action st = CREATE_AGENT_PANE ∧ step_pane st = ("agent", a)) ∨
   (nw_kind w = WK_TOOL ∧ st_action st = CREATE_TOOL_PANE ∧ step_pane st = ("tool", tool_slot (nw_name w)))).
Proof.
  unfold new_window_steps. rewrite !elem_of_app, elem_of_map. intros [H|[H|[(a & Ha & ->)|H]]].
  - apply list_elem_of_singleton in H as ->. split; [done|]. by left.
  - destruct (nw_sidebar w); [|by apply not_elem_of_nil in H]. apply list_elem_of_singleton in H as ->.
    split; [done|]. right. left. split; [by eexists|done].
  - apply elem_of_lfilter in Ha as [Ha Hx]. apply negb_true_iff, mem_str_not in Hx.
    split; [done|]. right. right. left. by exists a.
  - case_bool_decide; [|by apply not_elem_of_nil in H]. apply list_elem_of_singleton in H as ->.
    split; [done|]. by right; right; right.
Qed.

Lemma elem_of_append_steps w anchor plan excluded st :
  st ∈ append_steps w anchor plan excluded →
  ∃ a, a ∈ map ap_agent plan ∧ a ∉ excluded ∧ st_action st = CREATE_AGENT_PANE ∧ step_pane st = ("agent", a) ∧
    step_window st = w.
Proof.
  revert anchor. induction plan as [|p plan IH]; intros anchor H; [by apply not_elem_of_nil in H|].
  cbn in H. apply elem_of_app in H as [H|H].
  - destruct (mem_str (ap_agent p) excluded) eqn:E; [by apply not_elem_of_nil in H|].
    apply list_elem_of_singleton in H as ->. exists (ap_agent p). apply mem_str_not in E.
    split; [by left|]. done.
  - destruct (IH _ H) as (a & Ha & Hr). exists a. split; [by right|done].
Qed.

Lemma append_steps_form w anchor plan excluded st :
  st ∈ append_steps w anchor plan excluded →
  ∃ a b, st = agent_step CREATE_AGENT_PANE w None a b "new agent appended to existing managed window".
Proof.
  revert anchor. induction plan as [|p plan IH]; intros anchor H; [by apply not_elem_of_nil in H|].
  cbn in H. apply elem_of_app in H as [H|H]; [|by apply IH in H].
  destruct (mem_str _ _); [by apply not_elem_of_nil in H|]. apply list_elem_of_singleton in H as ->. eauto.
Qed.

(** The anchor of a created pane is the last old agent or an agent appended before it. *)
Lemma append_steps_anchor w anchor plan excluded mid st r :
  append_steps w anchor plan excluded = mid ++ st :: r →
  st_anchor_agent st = anchor ∨
  ∃ a, st_anchor_agent st = Some a ∧ a ∈ map ap_agent plan ∧ (a ∈ excluded ∨ ("agent", a) ∈ touched mid).
Proof.
  revert anchor mid. induction plan as [|p plan IH]; intros anchor mid H; [by destruct mid|].
  cbn in H. apply app_split in H as [[r' H]|(mid' & -> & H)].
  - left. destruct (mem_str (ap_agent p) excluded); [by destruct mid|].
    destruct mid as [|x mid]; [by injection H as <- _|]. injection H as _ H. by destruct mid.
  - right. destruct (IH _ _ H) as [->|(a & E & Ha & Hx)].
    + exists (ap_agent p). split; [done|]. split; [by left|].
      destruct (mem_str (ap_agent p) excluded) eqn:E; [left; by apply mem_str_spec|right].
      rewrite touched_app. apply elem_of_app. left. by left.
    + exists a. split; [done|]. split; [by right|]. destruct Hx as [?|Hx]; [by left|right].
      rewrite touched_app. apply elem_of_app. by right.
Qed.

Lemma append_steps_touched w anchor plan excluded :
  touched (append_steps w anchor plan excluded)
  = map (pair "agent") (List.filter (λ a, negb (mem_str a excluded)) (map ap_agent plan)).
Proof.
  revert anchor. induction plan as [|p plan IH]; intros anchor; [done|]. cbn [append_steps map List.filter].
  rewrite touched_app, IH. by destruct (mem_str (ap_agent p) excluded).
Qed.

(** An append plan that is not blocked extends the agents of the window. *)
Lemma append_plan_extends ow nw plan :
  append_agent_plan_for_window ow nw = Some plan → plan ≠ [] →
  nw_agent_names nw = nw_agent_names ow ++ map ap_agent plan.
Proof.
  unfold append_agent_plan_for_window. intros H Hp.
  destruct (bool_decide (nw_agent_names ow = nw_agent_names nw)); [by injection H as <-|].
  destruct (bool_decide (length _ < _)%nat); [by injection H as <-|].
  destruct (starts_with _ _) eqn:Es; [|done]. cbn in H.
  destruct (rightmost_leaf_append_plan ow nw) as [p|]; [|done]. case_bool_decide as E; [|done]. injection H as <-.
  apply bool_decide_eq_true in Es. rewrite E, <-Es at 1. by rewrite take_drop.
Qed.

(** The steps for a window both topologies have. *)
Lemma steps_for_window_free w ow nw excluded :
  (steps_for_window w ow nw excluded).2 = [] →
  (steps_for_window w ow nw excluded).1 = [] ∨
  ∃ plan, nw_agent_names nw = nw_agent_names ow ++ map ap_agent plan ∧
    (steps_for_window w ow nw excluded).1 = append_steps w (list.last (nw_agent_names ow)) plan excluded.
Proof.
  unfold steps_for_window.
  case_bool_decide; [by left|]. case_bool_decide; [by left|]. destruct (starts_with _ _); [|done]. cbn [negb].
  destruct (append_agent_plan_for_window ow nw) as [plan|] eqn:E; [|done]. intros _.
  destruct plan as [|p plan]; [by left|]. right. exists (p :: plan).
  split; [by apply append_plan_extends|done].
Qed.

(** The steps for a window of the old topology. *)
Definition kill_of (w reason a : string) : NamespacePatchStep := agent_step KILL_AGENT_PANE w None a None reason.

Lemma remove_in_free nws excluded w ow :
  (remove_in nws excluded (w, ow)).2 = [] →
  match aget nws w with
  | Some nw =>
      ∃ reason, (remove_in nws excluded (w, ow)).1 =
        map (kill_of w reason) (List.filter (λ a, negb (mem_str a (nw_agent_names nw)) && negb (mem_str a excluded))
                                  (nw_agent_names ow))
  | None =>
      (nw_kind ow = WK_TOOL ∧ (remove_in nws excluded (w, ow)).1 = []) ∨
      (nw_kind ow ≠ WK_TOOL ∧ ∃ reason reason' killed,
         (remove_in nws excluded (w, ow)).1 = map (kill_of w reason) killed ++ [kill_window_step w reason'] ∧
         (killed = [] ∧ (∀ a, a ∈ nw_agent_names ow → a ∈ excluded) ∨
          killed = nw_agent_names ow ∧ ∀ a, a ∈ nw_agent_names ow → a ∉ excluded))
  end.
Proof.
  unfold remove_in. destruct (aget nws w) as [nw|].
  - unfold remove_agents_in_window. case_bool_decide as E.
    + intros _. exists ""%string. by rewrite E.
    + destruct (negb _); [done|]. intros _. by eexists.
  - case_bool_decide as Ek; [by left|]. right. split; [done|].
    destruct (negb (bool_decide (nw_agent_names ow = [])) && _) eqn:E1.
    + apply andb_true_iff in E1 as [_ E1]. eexists ""%string, _, []. split; [reflexivity|]. left. split; [done|].
      intros a Ha. rewrite forallb_forall in E1. by apply mem_str_spec, E1, list_elem_of_In.
    + destruct (existsb _ _) eqn:E2; [done|]. unfold remove_window_steps in *.
      destruct (nw_agent_names ow) as [|b l] eqn:El; [done|]. eexists _, _, (b :: l). split; [reflexivity|]. right.
      split; [done|]. intros a Ha Hx.
      assert (existsb (λ a, mem_str a excluded) (b :: l) = true) as Ht; [|congruence].
      apply existsb_exists. exists a. split; [by apply list_elem_of_In|by apply mem_str_spec].
Qed.

(** ** A plan that is not blocked *)

(** What the operations say of the agents and tool windows that come, go or are replaced. *)
Record ops_cover (o n : NamespaceTopologyPlan) (ops : list pydict) : Prop := {
  oc_added : ∀ a, a ∈ topology_agents n → a ∉ topology_agents o → a ∈ op_agents "add_agent" ops;
  oc_replaced : ∀ a, a ∈ op_agents "replace_agent" ops → a ∈ topology_agents o;
  oc_tool_added : ∀ w, w ∈ nt_windows n → nw_kind w = WK_TOOL →
    (∀ w', w' ∈ nt_windows o → nw_name w' = nw_name w → nw_kind w' ≠ WK_TOOL) →
    ∃ item, item ∈ ops ∧ is_op "add_tool_window" item = true ∧ strip (op_str item "window") = nw_name w ∧
      truthy (nw_name w) = true;
  oc_tool_removed : ∀ w, w ∈ nt_windows o → nw_kind w = WK_TOOL →
    (∀ w', w' ∈ nt_windows n → nw_name w' = nw_name w → nw_kind w' ≠ WK_TOOL) →
    ∃ item, item ∈ ops ∧ is_op "remove_tool_window" item = true ∧ strip (op_str item "window") = nw_name w ∧
      truthy (nw_name w) = true;
}.

Section patch.
Context (o n : NamespaceTopologyPlan) (Ho : topology_ok o) (Hn : topology_ok n).
Context (Hside : nt_sidebar_enabled o = nt_sidebar_enabled n).
Context (ops : list pydict) (Hops : ops_cover o n ops).
Context (Hfree : (patch_steps o n ops).2 = []).

Abbreviation mv := (map fst (moved_agents o n)).
Abbreviation S0 := (screen_of o).
Abbreviation S1 := (screen_of n).

(** The phases. *)
Definition phase_view : list NamespacePatchStep := view_refresh_steps ops ++ replace_agent_steps ops.
Definition phase_windows : list NamespacePatchStep := additive_window_steps o n mv.
Definition phase_moves : list NamespacePatchStep := map move_of (moved_agents o n).
Definition appended_to (w : NamespaceWindowPlan) : list NamespacePatchStep :=
  match aget (window_map o) (nw_name w) with
  | Some ow => (steps_for_window (nw_name w) ow w mv).1
  | None => []
  end.
Definition phase_appends : list NamespacePatchStep := concat (map appended_to (nt_windows n)).
Definition removed_from (w : NamespaceWindowPlan) : list NamespacePatchStep :=
  (remove_in (window_map n) mv (nw_name w, w)).1.
Definition phase_removals : list NamespacePatchStep := concat (map removed_from (nt_windows o)).
Definition phase_tools : list NamespacePatchStep := remove_tool_window_steps o n.

Lemma free_parts :
  (∀ m, m ∈ moved_agents o n → (move_agent_step (window_map o) (window_map n) (moved_agents o n) m).2 = []) ∧
  (∀ w ow, w ∈ nt_windows n → aget (window_map o) (nw_name w) = Some ow → (steps_for_window (nw_name w) ow w mv).2 = []) ∧
  (∀ w, w ∈ nt_windows o → (remove_in (window_map n) mv (nw_name w, w)).2 = []) ∧
  missing_additive_agent_steps ops (patch_steps o n ops).1 = [] ∧
  missing_tool_window_steps ops (patch_steps o n ops).1 = [].
Proof.
  pose proof Hfree as H. unfold patch_steps in H. cbn [snd] in H.
  repeat apply app_nil in H as [? H]. split; [|split; [|split; [|done]]].
  - intros m Hm. unfold move_agent_steps in *. by eapply step_results_snd in H0.
  - intros w ow Hw E. unfold additive_agent_steps in H1.
    assert ((nw_name w, w) ∈ window_map n) as Hi.
    { rewrite (window_map_list n Hn). apply elem_of_map. eauto. }
    pose proof (step_results_snd _ _ H1 _ Hi) as H'. cbn in H'. by rewrite E in H'.
  - intros w Hw. unfold remove_agent_steps in H2. eapply step_results_snd in H2; [done|].
    rewrite (window_map_list o Ho). apply elem_of_map. eauto.
Qed.

Lemma patch_phases :
  (patch_steps o n ops).1
  = phase_view ++ phase_windows ++ phase_moves ++ phase_appends ++ phase_removals ++ phase_tools.
Proof.
  unfold patch_steps. cbn [fst]. unfold phase_view. rewrite <-app_assoc. do 3 f_equal.
  destruct free_parts as (Hm & _ & _ & _).
  f_equal; [|f_equal; [|f_equal]].
  - unfold move_agent_steps, phase_moves. rewrite step_results_fst.
    apply concat_map_singleton. intros m Hin. by apply move_agent_step_free, Hm.
  - unfold additive_agent_steps, phase_appends. rewrite step_results_fst, (window_map_list n Hn), map_map. f_equal.
    apply map_ext. intros w. cbn. unfold appended_to. by destruct (aget _ _).
  - unfold remove_agent_steps, phase_removals. rewrite step_results_fst, (window_map_list o Ho), map_map. done.
Qed.

Lemma appended_to_free w :
  w ∈ nt_windows n →
  appended_to w = [] ∨
  ∃ ow plan, ow ∈ nt_windows o ∧ nw_name ow = nw_name w ∧
    nw_agent_names w = nw_agent_names ow ++ map ap_agent plan ∧
    appended_to w = append_steps (nw_name w) (list.last (nw_agent_names ow)) plan mv.
Proof.
  intros Hw. unfold appended_to. destruct (aget _ _) as [ow|] eqn:E; [|by left].
  destruct free_parts as (_ & Ha & _). pose proof (Ha _ _ Hw E) as Hf.
  apply steps_for_window_free in Hf as [Hf|(plan & H1 & H2)]; [by left|]. right.
  apply (window_map_get o Ho) in E as [Hi En]. exists ow, plan. done.
Qed.

(** ** The steps of the phases *)

Lemma elem_mv a : a ∈ mv ↔ ∃ w0 w1, at_window o a w0 ∧ at_window n a w1 ∧ w0 ≠ w1.
Proof.
  rewrite elem_of_map. split.
  - intros ([b [w0 w1]] & Hin & ->). apply (elem_of_moved o n Ho Hn) in Hin. by exists w0, w1.
  - intros (w0 & w1 & H). exists (a, (w0, w1)). split; [by apply (elem_of_moved o n Ho Hn)|done].
Qed.

Lemma moved_old a : a ∈ mv → a ∈ topology_agents o.
Proof. rewrite elem_mv. intros (w0 & w1 & H & _). apply at_window_agents. eauto. Qed.
Lemma moved_new a : a ∈ mv → a ∈ topology_agents n.
Proof. rewrite elem_mv. intros (w0 & w1 & _ & H & _). apply at_window_agents. eauto. Qed.

Lemma elem_phase_windows st :
  st ∈ phase_windows ↔
  ∃ w, w ∈ nt_windows n ∧ nw_name w ∉ map nw_name (nt_windows o) ∧ st ∈ new_window_steps mv w.
Proof.
  unfold phase_windows, additive_window_steps. rewrite elem_of_concat_map. setoid_rewrite elem_of_lfilter.
  split.
  - intros (w & [Hw Hf] & Hst). exists w. split; [done|]. split; [|done].
    apply negb_true_iff, bool_decide_eq_false in Hf. apply (window_map_None o Ho), eq_None_not_Some, Hf.
  - intros (w & Hw & Hf & Hst). exists w. split; [|done]. split; [done|].
    apply negb_true_iff, bool_decide_eq_false. apply eq_None_not_Some, (window_map_None o Ho), Hf.
Qed.

Lemma elem_phase_tools st :
  st ∈ phase_tools ↔
  ∃ w, w ∈ nt_windows o ∧ nw_name w ∉ map nw_name (nt_windows n) ∧ nw_kind w = WK_TOOL ∧
    st = patch_step KILL_TOOL_WINDOW (Some (nw_name w)) None None (Some "tool") (Some (tool_slot (nw_name w))) None
           "managed tool window exists only in current published config".
Proof.
  unfold phase_tools, remove_tool_window_steps. rewrite list_elem_of_omap, (window_map_list o Ho). split.
  - intros (kw & Hin & E). apply elem_of_map in Hin as (w & Hw & ->). cbn in E. case_bool_decide as E1; [done|]. case_bool_decide as E2; [|done].
    injection E as <-. exists w. split; [done|]. split; [|done].
    by apply (window_map_None n Hn), eq_None_not_Some.
  - intros (w & Hw & Hf & Hk & ->). exists (nw_name w, w). split; [apply elem_of_map; by exists w|]. cbn.
    rewrite bool_decide_eq_false_2; [by rewrite bool_decide_eq_true_2|].
    by apply eq_None_not_Some, (window_map_None n Hn).
Qed.

Lemma removed_from_free w :
  w ∈ nt_windows o →
  match aget (window_map n) (nw_name w) with
  | Some nw =>
      ∃ reason, removed_from w =
        map (kill_of (nw_name w) reason)
          (List.filter (λ a, negb (mem_str a (nw_agent_names nw)) && negb (mem_str a mv)) (nw_agent_names w))
  | None =>
      (nw_kind w = WK_TOOL ∧ removed_from w = []) ∨
      (nw_kind w ≠ WK_TOOL ∧ ∃ reason reason' killed,
         removed_from w = map (kill_of (nw_name w) reason) killed ++ [kill_window_step (nw_name w) reason'] ∧
         (killed = [] ∧ (∀ a, a ∈ nw_agent_names w → a ∈ mv) ∨
          killed = nw_agent_names w ∧ ∀ a, a ∈ nw_agent_names w → a ∉ mv))
  end.
Proof. intros Hw. apply remove_in_free. by apply free_parts. Qed.

(** An agent of the window [w] that leaves it without moving is not in the new topology. *)
Lemma left_agent w a :
  w ∈ nt_windows o → a ∈ nw_agent_names w → a ∉ mv →
  (∀ nw, aget (window_map n) (nw_name w) = Some nw → a ∉ nw_agent_names nw) → a ∉ topology_agents n.
Proof.
  intros Hw Ha Hm Hx Hin. apply at_window_agents in Hin as (w1 & nw & Hnw & <- & Hna).
  destruct (decide (nw_name w = nw_name nw)) as [E|E].
  - apply (Hx nw); [|done]. by apply (window_map_get n Hn).
  - apply Hm, elem_mv. exists (nw_name w), (nw_name nw). split; [by exists w|]. split; [by exists nw|done].
Qed.

(** A step of the removals. *)
Lemma elem_removed_from w st :
  w ∈ nt_windows o → st ∈ removed_from w →
  step_window st = nw_name w ∧
  ((st_action st = KILL_AGENT_PANE ∧ ∃ a, a ∈ nw_agent_names w ∧ step_pane st = ("agent", a) ∧ a ∉ topology_agents n) ∨
   (st_action st = KILL_WINDOW ∧ nw_kind w ≠ WK_TOOL ∧ nw_name w ∉ map nw_name (nt_windows n))).
Proof.
  intros Hw Hst. pose proof (removed_from_free w Hw) as Hf.
  destruct (aget (window_map n) (nw_name w)) as [nw|] eqn:E.
  - destruct Hf as [reason Hf]. rewrite Hf in Hst. apply elem_of_map in Hst as (a & Ha & ->).
    apply elem_of_lfilter in Ha as [Ha Hx]. apply andb_true_iff in Hx as [H1 H2].
    apply negb_true_iff, mem_str_not in H1, H2. split; [done|]. left. split; [done|]. exists a.
    split; [done|]. split; [done|]. apply (left_agent w); [done..|]. intros nw'. rewrite E. by intros [= <-].
  - destruct Hf as [[_ Hf]|(Hk & reason & reason' & killed & Hf & Hc)]; rewrite Hf in Hst; [by apply not_elem_of_nil in Hst|].
    apply elem_of_app in Hst as [Hst|Hst].
    + apply elem_of_map in Hst as (a & Ha & ->). split; [done|]. left. split; [done|]. exists a.
      destruct Hc as [[-> _]|[-> Hc]]; [by apply not_elem_of_nil in Ha|].
      split; [done|]. split; [done|]. apply (left_agent w); [done|done|by apply Hc|]. intros nw'. by rewrite E.
    + apply list_elem_of_singleton in Hst as ->. split; [done|]. right. split; [done|]. split; [done|].
      by apply (window_map_None n Hn).
Qed.

Lemma elem_appended_to w st :
  w ∈ nt_windows n → st ∈ appended_to w →
  step_window st = nw_name w ∧ st_action st = CREATE_AGENT_PANE ∧ nw_name w ∈ map nw_name (nt_windows o) ∧
  ∃ a, a ∈ nw_agent_names w ∧ step_pane st = ("agent", a) ∧ a ∉ topology_agents o.
Proof.
  intros Hw Hst. destruct (appended_to_free w Hw) as [E|(ow & plan & How & Hname & Hag & E)];
    rewrite E in Hst; [by apply not_elem_of_nil in Hst|].
  apply elem_of_append_steps in Hst as (a & Ha & Hm & H1 & H2 & H3).
  split; [done|]. split; [done|]. split; [apply elem_of_map; by exists ow|]. exists a.
  assert (a ∈ nw_agent_names w) as Haw by (rewrite Hag; apply elem_of_app; by right).
  split; [done|]. split; [done|]. intros Hin. apply at_window_agents in Hin as (w0 & ow' & How' & <- & Hoa).
  destruct (decide (nw_name ow' = nw_name w)) as [En|En].
  - assert (ow' = ow) as -> by (apply (same_window o Ho); [done|done|congruence]).
    pose proof (window_agents_NoDup n Hn w Hw) as Hnd. rewrite Hag in Hnd.
    apply list.NoDup_app in Hnd as (_ & Hd & _). by apply (Hd a).
  - apply Hm, elem_mv. exists (nw_name ow'), (nw_name w). split; [by exists ow'|]. split; [by exists w|done].
Qed.

Lemma phase_view_quiet st : st ∈ phase_view → pane_change st = [] ∧ window_change st = [].
Proof.
  unfold phase_view. intros [Hst|Hst]%elem_of_app.
  - unfold view_refresh_steps in Hst. destruct (negb _); [by apply not_elem_of_nil in Hst|].
    by apply list_elem_of_singleton in Hst as ->.
  - apply list_elem_of_omap in Hst as (item & _ & E). destruct (is_op _ _); [|done].
    destruct (or_none _); [|done]. by injection E as <-.
Qed.

Lemma phase_view_touched : touched phase_view = [] ∧ touched_windows phase_view = [].
Proof.
  split; apply elem_of_nil_inv; intros k.
  - intros (st & [E _]%phase_view_quiet & Hk)%elem_touched. rewrite E in Hk. by apply not_elem_of_nil in Hk.
  - intros (st & [_ E]%phase_view_quiet & Hk)%elem_touched_windows. rewrite E in Hk. by apply not_elem_of_nil in Hk.
Qed.

(** ** No pane and no window is touched twice *)

Lemma new_window_touched w :
  touched (new_window_steps mv w)
  = pane_list (nw_name w) (bool_decide (is_Some (nw_sidebar w))) (bool_decide (nw_kind w = WK_TOOL))
      (List.filter (λ a, negb (mem_str a mv)) (nw_agent_names w)).
Proof.
  unfold new_window_steps, pane_list. rewrite !touched_app, !sidebar_list.
  change (touched [patch_step CREATE_WINDOW _ _ _ _ _ _ _]) with (@nil pane). rewrite app_nil_l. f_equal.
  - by case_bool_decide.
  - f_equal; [|by case_bool_decide].
    induction (List.filter _ _) as [|a l IH]; [done|]. cbn [map].
    change (?x :: ?l) with ([x] ++ l) at 1. rewrite touched_app, IH. done.
Qed.

Lemma map_touched_kill w reason l : touched (map (kill_of w reason) l) = map (pair "agent") l.
Proof.
  induction l as [|a l IH]; [done|]. cbn [map]. change (?x :: ?l) with ([x] ++ l) at 1.
  rewrite touched_app, IH. done.
Qed.

Lemma touched_new k :
  k ∈ touched phase_windows →
  sc_panes S0 !! k = None ∧
  ∃ w, w ∈ nt_windows n ∧ nw_name w ∉ map nw_name (nt_windows o) ∧ k ∈ window_panes w ∧ k ∈ touched (new_window_steps mv w).
Proof.
  intros (st & Hst & Hk)%elem_touched. apply elem_phase_windows in Hst as (w & Hw & Hno & Hst).
  assert (k ∈ touched (new_window_steps mv w)) as Hk' by (apply elem_touched; eauto).
  assert (k ∈ window_panes w ∧ ∀ a, k = ("agent", a) → a ∉ mv) as [Hkw Hm].
  { rewrite new_window_touched in Hk'. unfold pane_list in Hk'.
    rewrite !elem_of_app, elem_of_map in Hk'. rewrite elem_of_window_panes. destruct Hk' as [H|[(a & Ha & ->)|H]].
    - case_bool_decide; [|by apply not_elem_of_nil in H]. apply list_elem_of_singleton in H as ->.
      split; [by left|]. intros a [=].
    - apply elem_of_lfilter in Ha as [Ha Hx]. apply negb_true_iff, mem_str_not in Hx.
      split; [right; left; by exists a|]. by intros ? [= <-].
    - case_bool_decide; [|by apply not_elem_of_nil in H]. apply list_elem_of_singleton in H as ->.
      split; [by right; right|]. intros a [=]. }
  split; [|by exists w].
  apply (screen_pane_None o Ho). intros ow How Hko.
  assert (nw_name ow ≠ nw_name w) as Hne.
  { intros E. apply Hno, elem_of_map. by exists ow. }
  rewrite elem_of_window_panes in Hkw, Hko.
  destruct Hkw as [[_ ->]|[(a & Ha & ->)|[_ ->]]], Hko as [[_ E]|[(b & Hb & E)|[_ E]]]; try discriminate E.
  - injection E as E. apply prefix_inj in E. congruence.
  - injection E as <-. apply (Hm a eq_refl), elem_mv. exists (nw_name ow), (nw_name w).
    split; [by exists ow|]. split; [by exists w|done].
  - injection E as E. apply prefix_inj in E. congruence.
Qed.

Lemma touched_moves k :
  k ∈ touched phase_moves → is_Some (sc_panes S0 !! k) ∧ is_Some (sc_panes S1 !! k).
Proof.
  intros (st & Hst & Hk)%elem_touched. apply elem_of_map in Hst as ([a [w0 w1]] & Hin & ->).
  apply list_elem_of_singleton in Hk as ->. apply (elem_of_moved o n Ho Hn) in Hin as (H0 & H1 & _).
  split; eexists; by apply screen_agent.
Qed.

Lemma touched_appends k :
  k ∈ touched phase_appends →
  sc_panes S0 !! k = None ∧ ∃ w, w ∈ nt_windows n ∧ nw_name w ∈ map nw_name (nt_windows o) ∧ k ∈ window_panes w.
Proof.
  intros (st & Hst & Hk)%elem_touched. apply elem_of_concat_map in Hst as (w & Hw & Hst).
  apply elem_appended_to in Hst as (_ & Ea & Hno & a & Ha & Ep & Hx); [|done].
  unfold pane_change in Hk. rewrite Ea in Hk. apply list_elem_of_singleton in Hk as ->. cbn [fst]. rewrite Ep.
  split; [by apply screen_agent_None|]. exists w. split; [done|]. split; [done|].
  apply elem_of_window_panes. right. left. by exists a.
Qed.

Lemma touched_removals k :
  k ∈ touched phase_removals →
  sc_panes S1 !! k = None ∧
  ∃ w, w ∈ nt_windows o ∧ k ∈ touched (removed_from w) ∧
    ((∃ a, a ∈ nw_agent_names w ∧ k = ("agent", a)) ∨ (k = sidebar_pane (nw_name w) ∧ nw_kind w ≠ WK_TOOL)).
Proof.
  intros (st & Hst & Hk)%elem_touched. apply elem_of_concat_map in Hst as (w & Hw & Hst).
  assert (k ∈ touched (removed_from w)) as Hk' by (apply elem_touched; eauto).
  apply elem_removed_from in Hst as [Ew [(Ea & a & Ha & Ep & Hx)|(Ea & Ht & Hx)]]; [| |done];
    unfold pane_change in Hk; rewrite Ea in Hk; apply list_elem_of_singleton in Hk as ->; cbn [fst] in *.
  - rewrite Ep in *. split; [by apply screen_agent_None|]. exists w. split; [done|]. split; [done|]. left. by exists a.
  - rewrite Ew in *. split; [|exists w; split; [done|]; split; [done|]; by right].
    apply (screen_pane_None n Hn). intros w' Hw'. rewrite elem_of_window_panes.
    intros [[_ E]|[(b & _ & E)|[_ E]]]; try discriminate E. injection E as E. apply prefix_inj in E.
    apply Hx, elem_of_map. by exists w'.
Qed.

Lemma touched_tools k :
  k ∈ touched phase_tools →
  sc_panes S1 !! k = None ∧
  ∃ w, w ∈ nt_windows o ∧ nw_kind w = WK_TOOL ∧ (k = ("tool", tool_slot (nw_name w)) ∨ k = sidebar_pane (nw_name w)).
Proof.
  intros (st & Hst & Hk)%elem_touched. apply elem_phase_tools in Hst as (w & Hw & Hno & Ht & ->).
  cbn in Hk. rewrite elem_of_cons, list_elem_of_singleton in Hk. split; [|by exists w].
  apply (screen_pane_None n Hn). intros w' Hw'. rewrite elem_of_window_panes.
  assert (nw_name w ≠ nw_name w') as Hne by (intros E; apply Hno, elem_of_map; by exists w').
  destruct Hk as [->| ->]; intros [[_ E]|[(b & _ & E)|[_ E]]]; try discriminate E; injection E as E;
    apply prefix_inj in E; congruence.
Qed.

Lemma names_filter_NoDup (t : NamespaceTopologyPlan) p :
  topology_ok t → NoDup (map nw_name (List.filter p (nt_windows t))).
Proof.
  intros Ht. pose proof (tok_windows t Ht) as H. revert H.
  induction (nt_windows t) as [|w l IH]; intros H; [constructor|]. cbn in *. apply NoDup_cons in H as [H1 H2].
  destruct (p w); [|by apply IH]. cbn. apply NoDup_cons. split; [|by apply IH].
  intros (w' & Hw' & E)%elem_of_map. apply H1, elem_of_map. exists w'. split; [|done].
  by apply elem_of_lfilter in Hw' as [? _].
Qed.

Lemma NoDup_lfilter {A} (p : A → bool) (l : list A) : NoDup l → NoDup (List.filter p l).
Proof. intros H. apply NoDup_ListNoDup, List.NoDup_filter. by apply NoDup_ListNoDup. Qed.

Lemma NoDup_agents (l : list string) : NoDup l → NoDup (map (pair "agent"%string) l).
Proof. intros H. apply NoDup_fmap_2; [intros x y [= ->]; done|done]. Qed.

Lemma windows_NoDup : NoDup (touched phase_windows).
Proof.
  unfold phase_windows, additive_window_steps. rewrite touched_concat.
  apply (NoDup_concat_map _ nw_name); [by apply names_filter_NoDup| |].
  - intros w [Hw _]%elem_of_lfilter. rewrite new_window_touched. apply pane_list_NoDup, NoDup_lfilter.
    by apply (window_agents_NoDup n).
  - intros x y k [Hx _]%elem_of_lfilter [Hy _]%elem_of_lfilter Kx Ky.
    assert (∀ w, k ∈ touched (new_window_steps mv w) → k ∈ window_panes w) as Hk.
    { intros w. rewrite new_window_touched. unfold pane_list.
      rewrite !elem_of_app, elem_of_map, elem_of_window_panes. intros [H|[(a & Ha & ->)|H]].
      - case_bool_decide; [|by apply not_elem_of_nil in H]. apply list_elem_of_singleton in H as ->. by left.
      - apply elem_of_lfilter in Ha as [Ha _]. right. left. by exists a.
      - case_bool_decide; [|by apply not_elem_of_nil in H]. apply list_elem_of_singleton in H as ->. by right; right. }
    by apply (shared_pane n Hn x y k); [| |apply Hk|apply Hk].
Qed.

Lemma moves_NoDup : NoDup (touched phase_moves).
Proof.
  unfold phase_moves.
  assert (touched (map move_of (moved_agents o n)) = map (pair "agent") mv) as ->.
  { induction (moved_agents o n) as [|m l IH]; [done|]. cbn [map]. change (?x :: ?l) with ([x] ++ l) at 1.
    rewrite touched_app, IH. done. }
  apply NoDup_agents. unfold moved_agents. rewrite concat_map, map_map.
  apply (NoDup_concat_map _ nw_name); [apply (tok_windows n Hn)| |].
  - intros w Hw. pose proof (window_agents_NoDup n Hn w Hw) as H. revert H.
    induction (nw_agent_names w) as [|a l IH]; intros H; [constructor|]. apply NoDup_cons in H as [H1 H2]. cbn.
    destruct (aget _ a) as [w0|]; [|by apply IH]. destruct (String.eqb w0 (nw_name w)); [by apply IH|].
    cbn. apply NoDup_cons. split; [|by apply IH]. intros (m & Hm & ->)%elem_of_map. apply H1.
    apply list_elem_of_omap in Hm as (b & Hb & E). destruct (aget _ b) as [w1|]; [|done].
    destruct (String.eqb w1 (nw_name w)); [done|]. by injection E as <-.
  - intros x y a Hx Hy.
    assert (∀ w, a ∈ map fst (omap (λ a, match aget (agent_window_map o) a with
        | Some old_window => if String.eqb old_window (nw_name w) then None else Some (a, (old_window, nw_name w))
        | None => None end) (nw_agent_names w)) → a ∈ nw_agent_names w) as Ha.
    { intros w (m & Hm & ->)%elem_of_map. apply list_elem_of_omap in Hm as (b & Hb & E).
      destruct (aget _ b) as [w1|]; [|done]. destruct (String.eqb w1 (nw_name w)); [done|]. by injection E as <-. }
    intros Kx Ky. by rewrite (same_agent_window n Hn x y a); [| | |apply Ha|apply Ha].
Qed.

Lemma appends_NoDup : NoDup (touched phase_appends).
Proof.
  unfold phase_appends. rewrite touched_concat. apply (NoDup_concat_map _ nw_name); [apply (tok_windows n Hn)| |].
  - intros w Hw. destruct (appended_to_free w Hw) as [->|(ow & plan & _ & _ & Hag & ->)]; [constructor|].
    rewrite append_steps_touched. apply NoDup_agents, NoDup_lfilter.
    pose proof (window_agents_NoDup n Hn w Hw) as H. rewrite Hag in H. by apply list.NoDup_app in H as (_ & _ & ?).
  - intros x y k Hx Hy (st & Hst & Kx)%elem_touched (st' & Hst' & Ky)%elem_touched.
    apply elem_appended_to in Hst as (_ & Ea & _ & a & Ha & Ep & _); [|done].
    apply elem_appended_to in Hst' as (_ & Ea' & _ & b & Hb & Ep' & _); [|done].
    unfold pane_change in *. rewrite Ea in Kx. rewrite Ea' in Ky. apply list_elem_of_singleton in Kx, Ky. cbn in Kx, Ky.
    rewrite Kx, Ep, Ep' in Ky. injection Ky as <-. by rewrite (same_agent_window n Hn x y a).
Qed.

Lemma removed_from_touched w :
  w ∈ nt_windows o →
  ∃ killed, NoDup killed ∧ (∀ a, a ∈ killed → a ∈ nw_agent_names w) ∧
    (touched (removed_from w) = map (pair "agent") killed ∨
     touched (removed_from w) = map (pair "agent") killed ++ [sidebar_pane (nw_name w)]).
Proof.
  intros Hw. pose proof (removed_from_free w Hw) as Hf. pose proof (window_agents_NoDup o Ho w Hw) as Hnd.
  destruct (aget _ _) as [nw|].
  - destruct Hf as [reason ->]. rewrite map_touched_kill. eexists. split; [by apply NoDup_lfilter|].
    split; [|by left]. by intros a [? _]%elem_of_lfilter.
  - destruct Hf as [[_ ->]|(_ & reason & reason' & killed & -> & Hc)].
    + exists []. split; [constructor|]. split; [by intros a ?%not_elem_of_nil|by left].
    + exists killed. rewrite touched_app, map_touched_kill.
      split; [destruct Hc as [[-> _]|[-> _]]; [constructor|done]|].
      split; [destruct Hc as [[-> _]|[-> _]]; [by intros a ?%not_elem_of_nil|done]|by right].
Qed.

Lemma removals_NoDup : NoDup (touched phase_removals).
Proof.
  unfold phase_removals. rewrite touched_concat. apply (NoDup_concat_map _ nw_name); [apply (tok_windows o Ho)| |].
  - intros w Hw. destruct (removed_from_touched w Hw) as (killed & Hk & _ & [->| ->]); [by apply NoDup_agents|].
    apply list.NoDup_app. split; [by apply NoDup_agents|]. split; [|apply NoDup_singleton].
    intros k (a & _ & ->)%elem_of_map [=]%list_elem_of_singleton.
  - assert (∀ w k, w ∈ nt_windows o → k ∈ touched (removed_from w) →
      (∃ a, a ∈ nw_agent_names w ∧ k = ("agent", a)) ∨ k = sidebar_pane (nw_name w)) as Hk.
    { intros w k Hw Hk. destruct (removed_from_touched w Hw) as (killed & _ & Hin & [E|E]); rewrite E in Hk.
      - apply elem_of_map in Hk as (a & Ha & ->). left. eauto.
      - apply elem_of_app in Hk as [(a & Ha & ->)%elem_of_map| ->%list_elem_of_singleton]; [left; eauto|by right]. }
    intros x y k Hx Hy Kx Ky.
    destruct (Hk x k Hx Kx) as [(a & Ha & ->)| ->], (Hk y _ Hy Ky) as [(b & Hb & E)|E]; try discriminate E.
    + injection E as <-. by rewrite (same_agent_window o Ho x y a).
    + injection E as E. by apply prefix_inj in E.
Qed.

Lemma omap_concat {A B} (f : A → option B) l :
  omap f l = concat (map (λ x, match f x with Some y => [y] | None => [] end) l).
Proof. induction l as [|x l IH]; [done|]. cbn. rewrite <-IH. by destruct (f x). Qed.

Lemma tools_NoDup : NoDup (touched phase_tools).
Proof.
  unfold phase_tools, remove_tool_window_steps. rewrite (window_map_list o Ho), omap_concat, map_map, touched_concat.
  assert (∀ w, ∃ b : bool, touched (match (if bool_decide (is_Some (aget (window_map n) (nw_name w))) then None
      else if bool_decide (nw_kind w = WK_TOOL) then
        Some (patch_step KILL_TOOL_WINDOW (Some (nw_name w)) None None (Some "tool") (Some (tool_slot (nw_name w))) None
                "managed tool window exists only in current published config")
      else None) with Some y => [y] | None => [] end) =
      if b then [("tool", tool_slot (nw_name w)); sidebar_pane (nw_name w)] else []) as Hc.
  { intros w. case_bool_decide; [by exists false|]. case_bool_decide; [by exists true|by exists false]. }
  apply (NoDup_concat_map _ nw_name); [apply (tok_windows o Ho)| |].
  - intros w _. cbn [fst snd]. destruct (Hc w) as [[] ->]; [|constructor].
    apply NoDup_cons. split; [intros [=]%list_elem_of_singleton|apply NoDup_singleton].
  - intros x y k _ _. cbn [fst snd]. destruct (Hc x) as [[] ->], (Hc y) as [[] ->]; try (by intros ? ?%not_elem_of_nil).
    + rewrite !elem_of_cons, !elem_of_nil. intros [->|[->|[]]] [E|[E|[]]]; try discriminate E; injection E as E;
        by apply prefix_inj in E.
    + by intros ?%not_elem_of_nil.
Qed.

Lemma steps_NoDup : NoDup (touched (patch_steps o n ops).1).
Proof.
  rewrite patch_phases, !touched_app.
  rewrite (proj1 phase_view_touched).
  rewrite app_nil_l.
  assert (∀ k, k ∈ touched phase_windows → is_Some (sc_panes S1 !! k)) as Nw.
  { intros k (_ & w & Hw & _ & Hk & _)%touched_new. eexists. apply (screen_pane n Hn). by exists w. }
  assert (∀ k, k ∈ touched phase_appends → is_Some (sc_panes S1 !! k)) as Na.
  { intros k (_ & w & Hw & _ & Hk)%touched_appends. eexists. apply (screen_pane n Hn). by exists w. }
  apply list.NoDup_app. split; [apply windows_NoDup|]. split.
  { intros k Hk. rewrite !not_elem_of_app. pose proof (Nw k Hk) as [w1 E1].
    pose proof (touched_new k Hk) as (E0 & w & Hw & Hno & Hkw & _).
    split; [|split; [|split]].
    - intros [[? E] _]%touched_moves. congruence.
    - intros (_ & w' & Hw' & Hno' & Hkw')%touched_appends. apply Hno.
      by rewrite (shared_pane n Hn w w' k).
    - intros [E _]%touched_removals. congruence.
    - intros [E _]%touched_tools. congruence. }
  apply list.NoDup_app. split; [apply moves_NoDup|]. split.
  { intros k Hk. rewrite !not_elem_of_app. apply touched_moves in Hk as [[? E0] [? E1]]. split; [|split].
    - intros [E _]%touched_appends. congruence.
    - intros [E _]%touched_removals. congruence.
    - intros [E _]%touched_tools. congruence. }
  apply list.NoDup_app. split; [apply appends_NoDup|]. split.
  { intros k Hk. rewrite !not_elem_of_app. pose proof (Na k Hk) as [? E1]. split.
    - intros [E _]%touched_removals. congruence.
    - intros [E _]%touched_tools. congruence. }
  apply list.NoDup_app. split; [apply removals_NoDup|]. split; [|apply tools_NoDup].
  intros k (_ & w & Hw & _ & Hc)%touched_removals (_ & w' & Hw' & Ht & Hc')%touched_tools.
  destruct Hc as [(a & _ & ->)|[-> Hk]], Hc' as [E|E]; try discriminate E. injection E as E. apply prefix_inj in E.
  assert (w = w') as -> by by apply (same_window o Ho). done.
Qed.

(** ** Windows *)

Lemma touched_windows_map {A} (f : A → NamespacePatchStep) l :
  (∀ x, window_change (f x) = []) → touched_windows (map f l) = [].
Proof.
  intros H. induction l as [|x l IH]; [done|]. cbn [map]. change (?x :: ?l) with ([x] ++ l) at 1.
  rewrite touched_windows_app, IH, app_nil_r. unfold touched_windows, window_changes. cbn. by rewrite H.
Qed.

Lemma new_window_touched_windows w : touched_windows (new_window_steps mv w) = [nw_name w].
Proof.
  unfold new_window_steps. rewrite !touched_windows_app, touched_windows_map by done.
  destruct (nw_sidebar w); by case_bool_decide.
Qed.

Lemma removed_touched_windows w :
  w ∈ nt_windows o →
  touched_windows (removed_from w) =
    if bool_decide (nw_kind w ≠ WK_TOOL ∧ nw_name w ∉ map nw_name (nt_windows n)) then [nw_name w] else [].
Proof.
  intros Hw. pose proof (removed_from_free w Hw) as Hf. destruct (aget _ _) as [nw|] eqn:E.
  - destruct Hf as [reason ->]. rewrite touched_windows_map, bool_decide_eq_false_2; [done| |done].
    intros [_ Hno]. apply Hno, elem_of_map. apply (window_map_get n Hn) in E as [? <-]. eauto.
  - apply (window_map_None n Hn) in E. destruct Hf as [[Hk ->]|(Hk & ? & ? & ? & -> & _)].
    + rewrite bool_decide_eq_false_2; [done|]. by intros [? _].
    + rewrite touched_windows_app, touched_windows_map by done. by rewrite bool_decide_eq_true_2.
Qed.

Lemma elem_touched_windows_steps w :
  w ∈ touched_windows (patch_steps o n ops).1 ↔
  (w ∈ map nw_name (nt_windows n) ∧ w ∉ map nw_name (nt_windows o)) ∨
  (w ∈ map nw_name (nt_windows o) ∧ w ∉ map nw_name (nt_windows n)).
Proof.
  rewrite patch_phases, !touched_windows_app, !elem_of_app.
  rewrite (proj2 phase_view_touched).
  assert (touched_windows phase_moves = []) as -> by by apply touched_windows_map.
  assert (w ∈ touched_windows phase_appends → False) as Ha.
  { intros (st & Hst & Hk)%elem_touched_windows. apply elem_of_concat_map in Hst as (x & Hx & Hst).
    apply elem_appended_to in Hst as (_ & Ea & _); [|done]. unfold window_change in Hk. rewrite Ea in Hk.
    by apply not_elem_of_nil in Hk. }
  assert (w ∈ touched_windows phase_windows ↔ w ∈ map nw_name (nt_windows n) ∧ w ∉ map nw_name (nt_windows o)) as ->.
  { unfold phase_windows, additive_window_steps. rewrite touched_windows_concat, elem_of_concat_map. split.
    - intros (x & Hx & Hk). rewrite new_window_touched_windows in Hk. apply list_elem_of_singleton in Hk as ->.
      apply elem_of_lfilter in Hx as [Hx Hf]. apply negb_true_iff, bool_decide_eq_false in Hf.
      split; [apply elem_of_map; eauto|]. by apply (window_map_None o Ho), eq_None_not_Some.
    - intros [(x & Hx & ->)%elem_of_map Hno]. exists x. rewrite new_window_touched_windows.
      split; [|by apply list_elem_of_singleton]. apply elem_of_lfilter. split; [done|].
      apply negb_true_iff, bool_decide_eq_false. by apply eq_None_not_Some, (window_map_None o Ho). }
  assert (w ∈ touched_windows phase_removals ∨ w ∈ touched_windows phase_tools ↔
          w ∈ map nw_name (nt_windows o) ∧ w ∉ map nw_name (nt_windows n)) as Hr; [|rewrite <-Hr; clear Hr].
  { split.
    - intros [H|H].
      + unfold phase_removals in H. rewrite touched_windows_concat, elem_of_concat_map in H.
        destruct H as (x & Hx & H). rewrite removed_touched_windows in H by done.
        case_bool_decide as Hb; [|by apply not_elem_of_nil in H]. apply list_elem_of_singleton in H as ->.
        split; [apply elem_of_map; eauto|apply Hb].
      + apply elem_touched_windows in H as (st & Hst & Hk). apply elem_phase_tools in Hst as (x & Hx & Hno & _ & ->).
        apply list_elem_of_singleton in Hk as ->. split; [apply elem_of_map; by exists x|done].
    - intros [(x & Hx & ->)%elem_of_map Hno]. destruct (decide (nw_kind x = WK_TOOL)) as [Hk|Hk].
      + right. apply elem_touched_windows. eexists. split; [apply elem_phase_tools; by exists x|]. by left.
      + left. unfold phase_removals. rewrite touched_windows_concat, elem_of_concat_map. exists x. split; [done|].
        rewrite removed_touched_windows, bool_decide_eq_true_2 by done. by left. }
  pose proof (not_elem_of_nil w). tauto.
Qed.

Lemma windows_touched_once : NoDup (touched_windows (patch_steps o n ops).1).
Proof.
  rewrite patch_phases, !touched_windows_app.
  rewrite (proj2 phase_view_touched).
  assert (touched_windows phase_moves = []) as -> by by apply touched_windows_map.
  assert (touched_windows phase_appends = []) as ->.
  { apply elem_of_nil_inv. intros w (st & Hst & Hk)%elem_touched_windows.
    apply elem_of_concat_map in Hst as (x & Hx & Hst).
    apply elem_appended_to in Hst as (_ & Ea & _); [|done]. unfold window_change in Hk. rewrite Ea in Hk.
    by apply not_elem_of_nil in Hk. }
  rewrite !app_nil_l.
  assert (∀ w, w ∈ touched_windows phase_windows → w ∉ map nw_name (nt_windows o)) as Hw.
  { intros w (st & Hst & Hk)%elem_touched_windows. apply elem_phase_windows in Hst as (x & Hx & Hno & Hst).
    assert (w ∈ touched_windows (new_window_steps mv x)) as H by (apply elem_touched_windows; eauto).
    rewrite new_window_touched_windows in H. by apply list_elem_of_singleton in H as ->. }
  assert (∀ w, w ∈ touched_windows phase_tools → ∃ x, x ∈ nt_windows o ∧ w = nw_name x ∧ nw_kind x = WK_TOOL) as Hto.
  { intros w (st & Hst & Hk)%elem_touched_windows. apply elem_phase_tools in Hst as (x & Hx & _ & Hk' & ->).
    apply list_elem_of_singleton in Hk as ->. by exists x. }
  assert (∀ w, w ∈ touched_windows phase_removals → ∃ x, x ∈ nt_windows o ∧ w = nw_name x ∧ nw_kind x ≠ WK_TOOL) as Hre.
  { intros w H. unfold phase_removals in H. rewrite touched_windows_concat, elem_of_concat_map in H.
    destruct H as (x & Hx & H). rewrite removed_touched_windows in H by done.
    case_bool_decide as Hb; [|by apply not_elem_of_nil in H]. apply list_elem_of_singleton in H as ->. exists x. by destruct Hb. }
  apply list.NoDup_app. split; [|split].
  - unfold phase_windows, additive_window_steps. rewrite touched_windows_concat.
    apply (NoDup_concat_map _ nw_name); [by apply names_filter_NoDup| |].
    + intros w _. rewrite new_window_touched_windows. apply NoDup_singleton.
    + intros x y k _ _. rewrite !new_window_touched_windows. by intros ->%list_elem_of_singleton ->%list_elem_of_singleton.
  - intros w H. pose proof (Hw w H) as Hno. rewrite elem_of_app.
    intros [(x & Hx & -> & _)%Hre|(x & Hx & -> & _)%Hto]; apply Hno, elem_of_map; eauto.
  - apply list.NoDup_app. split; [|split].
    + unfold phase_removals. rewrite touched_windows_concat.
      apply (NoDup_concat_map _ nw_name); [apply (tok_windows o Ho)| |].
      * intros w H. rewrite removed_touched_windows by done. case_bool_decide; [apply NoDup_singleton|constructor].
      * intros x y k Hx Hy. rewrite !removed_touched_windows by done.
        case_bool_decide; [|by intros ?%not_elem_of_nil]. case_bool_decide; [|by intros _ ?%not_elem_of_nil].
        by intros ->%list_elem_of_singleton ->%list_elem_of_singleton.
    + intros w (x & Hx & -> & Hk)%Hre (y & Hy & E & Hk')%Hto. apply Hk. by rewrite (same_window o Ho x y).
    + unfold phase_tools, remove_tool_window_steps. rewrite (window_map_list o Ho), omap_concat, map_map, touched_windows_concat.
      apply (NoDup_concat_map _ nw_name); [apply (tok_windows o Ho)| |].
      * intros w _. cbn. repeat case_bool_decide; cbn; try constructor; [by intros ?%not_elem_of_nil|constructor].
      * intros x y k _ _. cbn. repeat case_bool_decide; cbn; try (by intros ?%not_elem_of_nil); try (by intros _ ?%not_elem_of_nil).
        by intros ->%list_elem_of_singleton ->%list_elem_of_singleton.
Qed.

(** ** The changes lead to the new screen *)

Lemma changes_one s' st k v :
  pane_change st = [(k, v)] → window_change st = [] → v = sc_panes s' !! k →
  (∀ c, c ∈ pane_change st → c.2 = sc_panes s' !! c.1) ∧
  (∀ c, c ∈ window_change st → c.2 = true ↔ c.1 ∈ sc_windows s').
Proof.
  intros -> -> ->. split; [by intros c ->%list_elem_of_singleton|by intros c ?%not_elem_of_nil].
Qed.

Ltac change_one Ea Ew Ep :=
  eapply changes_one;
    [unfold pane_change; rewrite Ea, ?Ew, ?Ep; reflexivity|unfold window_change; rewrite Ea; reflexivity|].

Lemma phase_windows_towards : towards S1 phase_windows.
Proof.
  apply towards_steps. intros st Hst. apply elem_phase_windows in Hst as (w & Hw & Hno & Hst).
  apply elem_of_new_window_steps in Hst as [[Ew _] [Ea|[(Hs & Ea & Ep)|[(a & Ha & Hm & Ea & Ep)|(Hk & Ea & Ep)]]]];
    [|change_one Ea Ew Ep..].
  - unfold pane_change, window_change. rewrite Ea, Ew. split; [by intros c ?%not_elem_of_nil|].
    intros c ->%list_elem_of_singleton. split; [|done]. intros _. apply screen_window, elem_of_map. eauto.
  - symmetry. apply (screen_pane n Hn). exists w. split; [done|]. split; [done|]. apply elem_of_window_panes. by left.
  - symmetry. apply (screen_agent n Hn). by exists w.
  - symmetry. apply (screen_pane n Hn). exists w. split; [done|]. split; [done|]. apply elem_of_window_panes. by right; right.
Qed.

Lemma phase_moves_towards : towards S1 phase_moves.
Proof.
  apply towards_steps. intros st Hst. apply elem_of_map in Hst as ([a [w0 w1]] & Hin & ->).
  apply (elem_of_moved o n Ho Hn) in Hin as (_ & H1 & _). eapply changes_one; [reflexivity|reflexivity|].
  symmetry. by apply (screen_agent n Hn).
Qed.

Lemma phase_appends_towards : towards S1 phase_appends.
Proof.
  apply towards_steps. intros st Hst. apply elem_of_concat_map in Hst as (w & Hw & Hst).
  apply elem_appended_to in Hst as (Ew & Ea & _ & a & Ha & Ep & _); [|done].
  change_one Ea Ew Ep.
  symmetry. apply (screen_agent n Hn). by exists w.
Qed.

Lemma gone_sidebar w : w ∉ map nw_name (nt_windows n) → sc_panes S1 !! sidebar_pane w = None.
Proof.
  intros H. apply (screen_pane_None n Hn). intros x Hx. rewrite elem_of_window_panes.
  intros [[_ E]|[(b & _ & E)|[_ E]]]; try discriminate E. injection E as E. apply prefix_inj in E.
  apply H, elem_of_map. by exists x.
Qed.

Lemma phase_removals_towards : towards S1 phase_removals.
Proof.
  apply towards_steps. intros st Hst. apply elem_of_concat_map in Hst as (w & Hw & Hst).
  apply elem_removed_from in Hst as [Ew [(Ea & a & Ha & Ep & Hx)|(Ea & Ht & Hx)]]; [| |done].
  - change_one Ea Ew Ep.
    symmetry. by apply (screen_agent_None n Hn).
  - unfold pane_change, window_change. rewrite Ea, Ew.
    split; intros c ->%list_elem_of_singleton; cbn; [by rewrite gone_sidebar|].
    split; [done|]. by intros ?%screen_window.
Qed.

Lemma phase_tools_towards : towards S1 phase_tools.
Proof.
  apply towards_steps. intros st Hst. apply elem_phase_tools in Hst as (w & Hw & Hno & Ht & ->). cbn.
  split.
  - intros c. rewrite elem_of_cons, list_elem_of_singleton. intros [->| ->]; cbn; [|by rewrite gone_sidebar].
    symmetry. apply (screen_pane_None n Hn). intros x Hx. rewrite elem_of_window_panes.
    intros [[_ E]|[(b & _ & E)|[_ E]]]; try discriminate E. injection E as E. apply prefix_inj in E.
    apply Hno, elem_of_map. by exists x.
  - intros c ->%list_elem_of_singleton. cbn. split; [done|]. by rewrite elem_of_list_to_set.
Qed.

Lemma patch_towards : towards S1 (patch_steps o n ops).1.
Proof.
  rewrite patch_phases, !towards_app. split; [|split; [|split; [|split; [|split]]]].
  - apply towards_steps. intros st [-> ->]%phase_view_quiet. by split; intros c ?%not_elem_of_nil.
  - apply phase_windows_towards.
  - apply phase_moves_towards.
  - apply phase_appends_towards.
  - apply phase_removals_towards.
  - apply phase_tools_towards.
Qed.

(** ** What is not touched is in both topologies *)

Lemma touched_in_phase l1 l2 k : k ∈ touched l1 → l1 ⊆ l2 → k ∈ touched l2.
Proof. rewrite !elem_touched. intros (st & Hst & Hk) Hs. exists st. split; [by apply Hs|done]. Qed.

Lemma in_phases st :
  st ∈ phase_windows ∨ st ∈ phase_moves ∨ st ∈ phase_appends ∨ st ∈ phase_removals ∨ st ∈ phase_tools →
  st ∈ (patch_steps o n ops).1.
Proof. rewrite patch_phases, !elem_of_app. tauto. Qed.

(** A removed window of agents: the window goes, and its agents go or have moved. *)
Lemma removed_window w :
  w ∈ nt_windows o → nw_kind w ≠ WK_TOOL → nw_name w ∉ map nw_name (nt_windows n) →
  sidebar_pane (nw_name w) ∈ touched (removed_from w) ∧
  ∀ a, a ∈ nw_agent_names w → a ∈ mv ∨ ("agent", a) ∈ touched (removed_from w).
Proof.
  intros Hw Hk Hno. pose proof (removed_from_free w Hw) as Hf. rewrite (proj2 (window_map_None n Hn _) Hno) in Hf.
  destruct Hf as [[? _]|(_ & reason & reason' & killed & -> & Hc)]; [done|].
  rewrite touched_app, map_touched_kill. split; [apply elem_of_app; right; by left|].
  intros a Ha. destruct Hc as [[_ Hc]|[-> _]]; [left; by apply Hc|right].
  apply elem_of_app. left. apply elem_of_map. by exists a.
Qed.

Lemma removed_agent a w :
  at_window o a w → a ∉ topology_agents n → ("agent", a) ∈ touched (patch_steps o n ops).1.
Proof.
  intros (x & Hx & <- & Ha) Hno.
  assert (a ∉ mv) as Hm by (intros H; by apply Hno, moved_new).
  assert (("agent", a) ∈ touched (removed_from x)) as Hin.
  { pose proof (removed_from_free x Hx) as Hf. destruct (aget _ _) as [nw|] eqn:E.
    - destruct Hf as [reason ->]. rewrite map_touched_kill. apply elem_of_map. exists a. split; [|done].
      apply elem_of_lfilter. split; [done|]. apply andb_true_iff. split; apply negb_true_iff, mem_str_not; [|done].
      intros Hin. apply Hno, at_window_agents. apply (window_map_get n Hn) in E as [H _]. by exists (nw_name nw), nw.
    - destruct Hf as [[Hk _]|(Hk & _)].
      + rewrite (tok_tools o Ho x Hx Hk) in Ha. by apply not_elem_of_nil in Ha.
      + apply (window_map_None n Hn) in E. by destruct (proj2 (removed_window x Hx Hk E) a Ha). }
  eapply touched_in_phase; [exact Hin|]. intros st Hst. apply in_phases. right; right; right; left.
  apply elem_of_concat_map. by exists x.
Qed.

Lemma missing_nil op act reason items steps a :
  missing_agent_steps op act reason items steps = [] → a ∈ op_agents op items → a ∈ step_agents act steps.
Proof.
  unfold missing_agent_steps. intros H Ha. apply map_eq_nil in H. unfold sorted_set in H.
  destruct (mem_str a (step_agents act steps)) eqn:E; [by apply mem_str_spec|]. exfalso.
  assert (a ∈ merge_sort String.le (remove_dups (List.filter (λ x, negb (mem_str x (step_agents act steps))) (op_agents op items)))) as Hin.
  { rewrite merge_sort_Permutation. apply elem_of_remove_dups, elem_of_lfilter. by rewrite E. }
  rewrite H in Hin. by apply not_elem_of_nil in Hin.
Qed.

Lemma added_agent a w :
  at_window n a w → a ∉ topology_agents o → ("agent", a) ∈ touched (patch_steps o n ops).1.
Proof.
  intros Hat Hno. destruct free_parts as (_ & _ & _ & Hm & _).
  assert (a ∈ step_agents CREATE_AGENT_PANE (patch_steps o n ops).1) as Hin.
  { eapply missing_nil; [exact Hm|]. apply (oc_added _ _ _ Hops); [apply at_window_agents; eauto|done]. }
  unfold step_agents in Hin. apply list_elem_of_omap in Hin as (st & Hst & E). case_bool_decide as Ea; [|done].
  apply elem_touched. exists st. split; [done|]. unfold pane_change. rewrite Ea.
  assert (st_agent st = Some a) as Es.
  { unfold or_none, str_or in E. destruct (st_agent st) as [b|]; cbn in E; [|done].
    destruct (truthy b) eqn:Eb; cbn in E; rewrite ?Eb in E; try done; cbn in E; by injection E as ->. }
  rewrite patch_phases, !elem_of_app in Hst.
  assert (step_pane st = ("agent", a)) as ->; [|by left].
  destruct Hst as [H|[H|[H|[H|[H|H]]]]].
  - apply phase_view_quiet in H as [H _]. unfold pane_change in H. by rewrite Ea in H.
  - apply elem_phase_windows in H as (x & _ & _ & H). unfold new_window_steps in H.
    rewrite !elem_of_app, elem_of_map in H. destruct H as [H|[H|[(b & _ & ->)|H]]].
    + apply list_elem_of_singleton in H as ->. done.
    + destruct (nw_sidebar x); [|by apply not_elem_of_nil in H]. apply list_elem_of_singleton in H as ->. done.
    + by injection Es as ->.
    + case_bool_decide; [|by apply not_elem_of_nil in H]. apply list_elem_of_singleton in H as ->. done.
  - apply elem_of_map in H as (m & _ & ->). done.
  - apply elem_of_concat_map in H as (x & Hx & H). destruct (appended_to_free x Hx) as [F|(ow & plan & _ & _ & _ & F)];
      rewrite F in H; [by apply not_elem_of_nil in H|].
    apply append_steps_form in H as (b & anchor & ->). by injection Es as ->.
  - apply elem_of_concat_map in H as (x & Hx & H). apply elem_removed_from in H as [_ [(E' & _)|(E' & _)]]; [congruence..|done].
  - apply elem_phase_tools in H as (x & _ & _ & _ & ->). done.
Qed.

Lemma missing_tool_nil op act item w :
  (op = "add_tool_window" ∧ act = CREATE_TOOL_PANE) ∨ (op = "remove_tool_window" ∧ act = KILL_TOOL_WINDOW) →
  item ∈ ops → is_op op item = true → strip (op_str item "window") = w → truthy w = true →
  ∃ st, st ∈ (patch_steps o n ops).1 ∧ st_action st = act ∧ st_window st = Some w.
Proof.
  intros Hop Hi Ho' Hw Ht. destruct free_parts as (_ & _ & _ & _ & Hm).
  assert (w ∈ step_windows act (patch_steps o n ops).1) as Hin.
  { unfold missing_tool_window_steps in Hm. set (steps := (patch_steps o n ops).1) in *.
    destruct (mem_str w (step_windows act steps)) eqn:E; [by apply mem_str_spec|]. exfalso.
    set (f := λ item : pydict, _ ++ _) in Hm.
    assert (f item = []) as Hf.
    { apply elem_of_nil_inv. intros x Hx. assert (x ∈ concat (map f ops)) as H by (apply elem_of_concat_map; eauto).
      rewrite Hm in H. by apply not_elem_of_nil in H. }
    unfold f in Hf. apply app_nil in Hf as [H1 H2]. rewrite Hw in *.
    destruct Hop as [[-> ->]|[-> ->]]; [clear H2; rename H1 into H|clear H1; rename H2 into H];
      rewrite Ho', Ht in H; cbn [andb String.eqb Ascii.eqb Bool.eqb] in H; by rewrite E in H. }
  unfold step_windows in Hin. apply list_elem_of_omap in Hin as (st & Hst & E). exists st.
  destruct (bool_decide (st_action st = act)) eqn:Ea; [|done]. apply bool_decide_eq_true in Ea.
  destruct (negb _); [|done]. done.
Qed.

(** The tool windows of both topologies are the same where both have the window. *)
Lemma tool_kept x :
  x ∈ nt_windows o → nw_kind x = WK_TOOL → ("tool", tool_slot (nw_name x)) ∉ touched phase_tools →
  ∃ y, y ∈ nt_windows n ∧ nw_name y = nw_name x ∧ nw_kind y = WK_TOOL.
Proof.
  intros Hx Ht Hk.
  destruct (decide (Exists (λ y, nw_name y = nw_name x ∧ nw_kind y = WK_TOOL) (nt_windows n))) as [He|He];
    [apply Exists_exists in He as (y & Hy & E & Hyt); by exists y|]. exfalso.
  destruct (oc_tool_removed _ _ _ Hops x Hx Ht) as (item & Hi & Hop & Hw & Htr).
  { intros y Hy E Hyt. apply He, Exists_exists. by exists y. }
  destruct (missing_tool_nil "remove_tool_window" KILL_TOOL_WINDOW item (nw_name x)) as (st & Hst & Ea & Ew);
    [by right|done..|].
  apply Hk, elem_touched. exists st. unfold pane_change. rewrite Ea.
  rewrite patch_phases, !elem_of_app in Hst. destruct Hst as [H|[H|[H|[H|[H|H]]]]].
  - apply phase_view_quiet in H as [_ H]. unfold window_change in H. by rewrite Ea in H.
  - apply elem_phase_windows in H as (y & _ & _ & H).
    apply elem_of_new_window_steps in H as [_ [?|[(? & ? & ?)|[(? & ? & ? & ? & ?)|(? & ? & ?)]]]]; congruence.
  - apply elem_of_map in H as (m & _ & ->). done.
  - apply elem_of_concat_map in H as (y & Hy & H). apply elem_appended_to in H as (_ & ? & _); [congruence|done].
  - apply elem_of_concat_map in H as (y & Hy & H). apply elem_removed_from in H as [_ [(? & _)|(? & _)]]; [congruence..|done].
  - split; [done|]. apply elem_phase_tools in H as (y & Hy & _ & _ & ->). injection Ew as ->. by left.
Qed.

Lemma tool_new x :
  x ∈ nt_windows n → nw_kind x = WK_TOOL → nw_name x ∈ map nw_name (nt_windows o) →
  ∃ y, y ∈ nt_windows o ∧ nw_name y = nw_name x ∧ nw_kind y = WK_TOOL.
Proof.
  intros Hx Ht Hin.
  destruct (decide (Exists (λ y, nw_name y = nw_name x ∧ nw_kind y = WK_TOOL) (nt_windows o))) as [He|He];
    [apply Exists_exists in He as (y & Hy & E & Hyt); by exists y|]. exfalso.
  destruct (oc_tool_added _ _ _ Hops x Hx Ht) as (item & Hi & Hop & Hw & Htr).
  { intros y Hy E Hyt. apply He, Exists_exists. by exists y. }
  destruct (missing_tool_nil "add_tool_window" CREATE_TOOL_PANE item (nw_name x)) as (st & Hst & Ea & Ew);
    [by left|done..|].
  rewrite patch_phases, !elem_of_app in Hst. destruct Hst as [H|[H|[H|[H|[H|H]]]]].
  - apply phase_view_quiet in H as [H _]. unfold pane_change in H. by rewrite Ea in H.
  - apply elem_phase_windows in H as (y & Hy & Hno & H).
    apply elem_of_new_window_steps in H as [[Ew' _] _]. unfold step_window in Ew'. rewrite Ew in Ew'. cbn in Ew'.
    by rewrite <-Ew' in Hno.
  - apply elem_of_map in H as (m & _ & ->). done.
  - apply elem_of_concat_map in H as (y & Hy & H). apply elem_appended_to in H as (_ & ? & _); [congruence|done].
  - apply elem_of_concat_map in H as (y & Hy & H). apply elem_removed_from in H as [_ [(? & _)|(? & _)]]; [congruence..|done].
  - apply elem_phase_tools in H as (y & Hy & _ & _ & ->). done.
Qed.

Section untouched.
Context (k : pane) (Hk : k ∉ touched (patch_steps o n ops).1).

Lemma untouched_in l : (∀ st, st ∈ l → st ∈ (patch_steps o n ops).1) → k ∉ touched l.
Proof. intros Hl H. apply Hk. by eapply touched_in_phase. Qed.

Lemma untouched_phases : k ∉ touched phase_windows ∧ k ∉ touched phase_removals ∧ k ∉ touched phase_tools.
Proof. split; [|split]; apply untouched_in; intros st ?; apply in_phases; tauto. Qed.

Lemma untouched_agent a w0 w1 : k = ("agent", a) → at_window o a w0 → at_window n a w1 → w0 = w1.
Proof.
  intros E H0 H1. destruct (decide (w0 = w1)) as [|Hne]; [done|]. exfalso.
  apply (untouched_in phase_moves); [intros st ?; apply in_phases; by right; left|].
  apply elem_touched. exists (move_of (a, (w0, w1))). rewrite E. split; [|by left].
  apply elem_of_map. exists (a, (w0, w1)). split; [by apply (elem_of_moved o n Ho Hn)|done].
Qed.

Lemma untouched_stays x : x ∈ nt_windows o → k ∈ window_panes x → sc_panes S1 !! k = Some (nw_name x).
Proof.
  intros Hx Hp. apply (screen_pane n Hn). setoid_rewrite elem_of_window_panes.
  rewrite elem_of_window_panes in Hp. destruct untouched_phases as (_ & Hkr & Hkt).
  destruct Hp as [[Hs E]|[(a & Ha & E)|[Ht E]]].
  - destruct (decide (nw_name x ∈ map nw_name (nt_windows n))) as [Hin|Hno].
    + apply elem_of_map in Hin as (y & Hy & En). exists y. split; [done|]. split; [done|]. left. rewrite E, En.
      split; [|done]. apply (tok_sidebar n Hn y Hy). rewrite <-Hside. by apply (tok_sidebar o Ho x Hx).
    + exfalso. destruct (decide (nw_kind x = WK_TOOL)) as [Ht|Ht].
      * apply Hkt, elem_touched. eexists. split; [apply elem_phase_tools; by exists x|]. rewrite E. by right; left.
      * apply Hkr. unfold phase_removals. rewrite touched_concat. apply elem_of_concat_map. exists x.
        rewrite E. split; [done|]. by apply removed_window.
  - assert (at_window o a (nw_name x)) as Hat by by exists x.
    destruct (decide (a ∈ topology_agents n)) as [Hin|Hno]; [|destruct Hk; rewrite E; by eapply removed_agent].
    apply at_window_agents in Hin as (w1 & H1). pose proof (untouched_agent a _ _ E Hat H1) as <-.
    destruct H1 as (y & Hy & En & Hya). exists y. split; [done|]. split; [done|]. right. left. by exists a.
  - rewrite E in Hkt. destruct (tool_kept x Hx Ht Hkt) as (y & Hy & En & Hyt).
    exists y. split; [done|]. split; [done|]. right; right. by rewrite E, En.
Qed.

Lemma untouched_was x : x ∈ nt_windows n → k ∈ window_panes x → sc_panes S0 !! k = Some (nw_name x).
Proof.
  intros Hx Hp. apply (screen_pane o Ho). setoid_rewrite elem_of_window_panes.
  rewrite elem_of_window_panes in Hp. destruct untouched_phases as (Hkw & _ & _).
  assert (nw_name x ∉ map nw_name (nt_windows o) → (∀ a, k = ("agent", a) → a ∉ mv) → False) as Hnew.
  { intros Hno Hm. apply Hkw. unfold phase_windows, additive_window_steps. rewrite touched_concat.
    apply elem_of_concat_map. exists x. split.
    - apply elem_of_lfilter. split; [done|]. apply negb_true_iff, bool_decide_eq_false.
      by apply eq_None_not_Some, (window_map_None o Ho).
    - rewrite new_window_touched. unfold pane_list. rewrite !elem_of_app, elem_of_map.
      destruct Hp as [[Hs E]|[(a & Ha & E)|[Ht E]]].
      + left. rewrite bool_decide_eq_true_2, E by done. by left.
      + right. left. exists a. split; [|done]. apply elem_of_lfilter. split; [done|].
        by apply negb_true_iff, mem_str_not, Hm.
      + right. right. rewrite bool_decide_eq_true_2, E by done. by left. }
  destruct Hp as [[Hs E]|[(a & Ha & E)|[Ht E]]].
  - destruct (decide (nw_name x ∈ map nw_name (nt_windows o))) as [Hin|Hno].
    + apply elem_of_map in Hin as (y & Hy & En). exists y. split; [done|]. split; [done|]. left. rewrite E, En.
      split; [|done]. apply (tok_sidebar o Ho y Hy). rewrite Hside. by apply (tok_sidebar n Hn x Hx).
    + destruct (Hnew Hno). rewrite E. intros a [=].
  - assert (at_window n a (nw_name x)) as Hat by by exists x.
    destruct (decide (a ∈ topology_agents o)) as [Hin|Hno]; [|destruct Hk; rewrite E; by eapply added_agent].
    apply at_window_agents in Hin as (w0 & H0). pose proof (untouched_agent a _ _ E H0 Hat) as ->.
    destruct H0 as (y & Hy & En & Hya). exists y. split; [done|]. split; [done|]. right. left. by exists a.
  - destruct (decide (nw_name x ∈ map nw_name (nt_windows o))) as [Hin|Hno].
    + destruct (tool_new x Hx Ht Hin) as (y & Hy & En & Hyt). exists y. split; [done|]. split; [done|].
      right; right. by rewrite E, En.
    + destruct (Hnew Hno). rewrite E. intros a [=].
Qed.

Lemma patch_covers : sc_panes S0 !! k = sc_panes S1 !! k.
Proof.
  apply option_eq. intros w. split.
  - intros (x & Hx & <- & Hp)%(screen_pane o Ho). by apply untouched_stays.
  - intros (x & Hx & <- & Hp)%(screen_pane n Hn). by apply untouched_was.
Qed.

End untouched.

(** ** Every step can be made when its turn comes *)

Section turn.
Context (pre : list NamespacePatchStep) (st : NamespacePatchStep) (post : list NamespacePatchStep).
Context (Hsteps : (patch_steps o n ops).1 = pre ++ st :: post).

Abbreviation now := (after pre S0).

Lemma pre_towards : towards S1 pre.
Proof. pose proof patch_towards as H. rewrite Hsteps, towards_app in H. apply H. Qed.

Lemma now_pane k : sc_panes now !! k = if decide (k ∈ touched pre) then sc_panes S1 !! k else sc_panes S0 !! k.
Proof. apply after_pane, pre_towards. Qed.

Lemma now_window w : w ∈ sc_windows now ↔ if decide (w ∈ touched_windows pre) then w ∈ sc_windows S1 else w ∈ sc_windows S0.
Proof. apply after_window, pre_towards. Qed.

Lemma pane_fresh k : k ∈ map fst (pane_change st) → sc_panes now !! k = sc_panes S0 !! k.
Proof.
  intros Hk. rewrite now_pane, decide_False; [done|]. intros Hp.
  pose proof steps_NoDup as H. rewrite Hsteps, touched_app in H. apply list.NoDup_app in H as (_ & H & _).
  apply (H k Hp). unfold touched, pane_changes. cbn. rewrite map_app. apply elem_of_app. by left.
Qed.

Lemma window_fresh w : w ∈ map fst (window_change st) → w ∈ sc_windows now ↔ w ∈ sc_windows S0.
Proof.
  intros Hk. rewrite now_window, decide_False; [done|]. intros Hp.
  pose proof windows_touched_once as H. rewrite Hsteps, touched_windows_app in H. apply list.NoDup_app in H as (_ & H & _).
  apply (H w Hp). unfold touched_windows, window_changes. cbn. rewrite map_app. apply elem_of_app. by left.
Qed.

Lemma window_kept w : w ∈ map nw_name (nt_windows o) → w ∈ map nw_name (nt_windows n) → w ∈ sc_windows now.
Proof. intros H0 H1. apply now_window. case_decide; by apply screen_window. Qed.

Lemma pane_kept a w : at_window o a w → at_window n a w → sc_panes now !! ("agent", a) = Some w.
Proof. intros H0 H1. rewrite now_pane. case_decide; [by apply (screen_agent n Hn)|by apply (screen_agent o Ho)]. Qed.

(** A pane that is still in a window that goes has not been touched. *)
Lemma pane_left w k :
  w ∉ map nw_name (nt_windows n) → sc_panes now !! k = Some w →
  k ∉ touched pre ∧ ∃ x, x ∈ nt_windows o ∧ nw_name x = w ∧ k ∈ window_panes x.
Proof.
  intros Hno. rewrite now_pane. case_decide as Hd.
  - intros (x & Hx & <- & _)%(screen_pane n Hn). destruct Hno. apply elem_of_map. by exists x.
  - intros Hk%(screen_pane o Ho). done.
Qed.

Lemma view_turn r : phase_view = pre ++ st :: r → step_ok now st = true.
Proof.
  intros E. pose proof now_pane as Hnow.
  assert (st ∈ phase_view) as Hst by (rewrite E; apply elem_of_app; right; by left).
  unfold phase_view in Hst. apply elem_of_app in Hst as [Hst|Hst].
  - unfold view_refresh_steps in Hst. destruct (negb _); [by apply not_elem_of_nil in Hst|].
    by apply list_elem_of_singleton in Hst as ->.
  - apply list_elem_of_omap in Hst as (item & Hi & Est). destruct (is_op _ item) eqn:Eop; [|done].
    destruct (or_none (strip (op_str item "agent"))) as [a|] eqn:Ea; [|done]. injection Est as <-.
    unfold step_ok. cbn. apply bool_decide_eq_true.
    assert (a ∈ op_agents "replace_agent" ops) as Hin.
    { unfold op_agents. apply list_elem_of_omap. exists item. split; [done|]. by rewrite Eop. }
    apply (oc_replaced _ _ _ Hops), at_window_agents in Hin as [w Hw]. exists w.
    rewrite Hnow, decide_False; [by apply (screen_agent o Ho)|].
    intros Hp. pose proof (proj1 phase_view_touched) as Hv. rewrite E, touched_app in Hv.
    apply app_nil in Hv as [Hv _]. rewrite Hv in Hp. by apply not_elem_of_nil in Hp.
Qed.

Lemma windows_turn mid r :
  pre = phase_view ++ mid → phase_windows = mid ++ st :: r → step_ok now st = true.
Proof.
  intros Ep E. assert (st ∈ phase_windows) as Hst by (rewrite E; apply elem_of_app; right; by left).
  pose proof E as E'. unfold phase_windows, additive_window_steps in E'.
  apply concat_split in E' as (l1 & x & l2 & mid' & r' & El & -> & Ex).
  assert (x ∈ nt_windows n ∧ nw_name x ∉ map nw_name (nt_windows o)) as [Hx Hno].
  { assert (x ∈ l1 ++ x :: l2) as Hin by (apply elem_of_app; right; by left). rewrite <-El in Hin.
    apply elem_of_lfilter in Hin as [Hin Hf]. apply negb_true_iff, bool_decide_eq_false in Hf.
    split; [done|]. by apply (window_map_None o Ho), eq_None_not_Some. }
  assert (st ∈ new_window_steps mv x) as Hsx by (rewrite Ex; apply elem_of_app; right; by left).
  assert (∀ k, k ∈ map fst (pane_change st) → sc_panes now !! k = None) as Hnone.
  { intros k Hk. rewrite pane_fresh by done. apply touched_new. apply elem_touched. eauto. }
  assert (st_action st ≠ CREATE_WINDOW → nw_name x ∈ sc_windows now) as Hwin.
  { intros Hne. apply now_window. rewrite decide_True; [apply screen_window, elem_of_map; by exists x|].
    destruct mid' as [|y mid'].
    - unfold new_window_steps in Ex. injection Ex as Ex _. rewrite <-Ex in Hne. done.
    - unfold new_window_steps in Ex. injection Ex as <- _. rewrite Ep, !touched_windows_app, !elem_of_app.
      right. right. by left. }
  apply elem_of_new_window_steps in Hsx as [[Ew Ean] Hc].
  unfold step_ok. unfold pane_change in Hnone.
  destruct Hc as [Ea|[(_ & Ea & _)|[(a & _ & _ & Ea & _)|(_ & Ea & _)]]]; rewrite Ea in *;
    [|rewrite Ew, Ean, andb_true_r; apply andb_true_iff; split; apply bool_decide_eq_true;
      [by apply Hwin|apply Hnone; by left]..].
  apply bool_decide_eq_true. rewrite window_fresh by (unfold window_change; rewrite Ea; by left).
  by rewrite Ew, screen_window.
Qed.

Lemma moves_turn mid r :
  pre = phase_view ++ phase_windows ++ mid → phase_moves = mid ++ st :: r → step_ok now st = true.
Proof.
  intros Ep E. pose proof pane_fresh as Hpf. pose proof now_window as Hnow.
  assert (st ∈ phase_moves) as Hst by (rewrite E; apply elem_of_app; right; by left).
  apply elem_of_map in Hst as ([a [w0 w1]] & Hin & ->). apply (elem_of_moved o n Ho Hn) in Hin as (H0 & H1 & _).
  unfold step_ok. cbn [st_action move_of agent_step patch_step]. apply andb_true_iff. split; apply bool_decide_eq_true.
  - rewrite Hpf by by left. by apply (screen_agent o Ho).
  - cbn. assert (w1 ∈ map nw_name (nt_windows n)) as Hin.
    { destruct H1 as (x & Hx & <- & _). apply elem_of_map. by exists x. }
    apply Hnow. case_decide as Hd; [by apply screen_window|].
    destruct (decide (w1 ∈ map nw_name (nt_windows o))) as [Ho'|Ho']; [by apply screen_window|].
    destruct Hd. rewrite Ep, !touched_windows_app, !elem_of_app. right. left.
    apply elem_of_map in Hin as (x & Hx & ->).
    unfold phase_windows, additive_window_steps. rewrite touched_windows_concat, elem_of_concat_map. exists x.
    rewrite new_window_touched_windows. split; [|by left]. apply elem_of_lfilter. split; [done|].
    apply negb_true_iff, bool_decide_eq_false. by apply eq_None_not_Some, (window_map_None o Ho).
Qed.

Lemma appends_turn mid r :
  pre = phase_view ++ phase_windows ++ phase_moves ++ mid → phase_appends = mid ++ st :: r → step_ok now st = true.
Proof.
  intros Ep E. assert (st ∈ phase_appends) as Hst by (rewrite E; apply elem_of_app; right; by left).
  pose proof E as E'. apply concat_split in E' as (l1 & x & l2 & mid' & r' & El & -> & Ex).
  assert (x ∈ nt_windows n) as Hx by (rewrite El; apply elem_of_app; right; by left).
  assert (st ∈ appended_to x) as Hsx by (rewrite Ex; apply elem_of_app; right; by left).
  pose proof (elem_appended_to x st Hx Hsx) as (Ew & Ea & Hno & a & Ha & Epa & Hnew).
  assert (pane_change st = [(("agent", a), Some (nw_name x))]) as Ec by (unfold pane_change; by rewrite Ea, Epa, Ew).
  unfold step_ok. rewrite Ea, Epa, Ew. apply andb_true_iff. split; [apply andb_true_iff; split; apply bool_decide_eq_true|].
  - apply window_kept; [done|apply elem_of_map; by exists x].
  - rewrite pane_fresh by (rewrite Ec; by left). by apply (screen_agent_None o Ho).
  - destruct (appended_to_free x Hx) as [F|(ow & plan & How & En & Hag & F)];
      [rewrite F in Ex; by destruct mid'|]. rewrite F in Ex.
    destruct (append_steps_anchor _ _ _ _ _ _ _ Ex) as [-> |(b & -> & Hb & Hc)].
    + destruct (list.last (nw_agent_names ow)) as [b|] eqn:El'; [|done]. apply bool_decide_eq_true.
      apply last_Some in El' as [l' El']. apply pane_kept.
      * exists ow. split; [done|]. split; [done|]. rewrite El'. apply elem_of_app. right. by left.
      * exists x. split; [done|]. split; [done|]. rewrite Hag, El'. apply elem_of_app. left. apply elem_of_app. right. by left.
    + apply bool_decide_eq_true. rewrite now_pane, decide_True.
      * apply (screen_agent n Hn). exists x. split; [done|]. split; [done|]. rewrite Hag. apply elem_of_app. by right.
      * rewrite Ep, !touched_app, !elem_of_app. destruct Hc as [Hc|Hc]; [right; right; left|by right; right; right; right].
        apply elem_of_map in Hc as (m & Hm & ->). apply elem_touched. exists (move_of m).
        split; [apply elem_of_map; by exists m|by left].
Qed.

Lemma removals_turn mid r :
  pre = phase_view ++ phase_windows ++ phase_moves ++ phase_appends ++ mid → phase_removals = mid ++ st :: r →
  step_ok now st = true.
Proof.
  intros Ep E. pose proof E as E'. apply concat_split in E' as (l1 & x & l2 & mid' & r' & El & -> & Ex).
  assert (x ∈ nt_windows o) as Hx by (rewrite El; apply elem_of_app; right; by left).
  assert (st ∈ removed_from x) as Hsx by (rewrite Ex; apply elem_of_app; right; by left).
  pose proof (elem_removed_from x st Hx Hsx) as [Ew [(Ea & a & Ha & Epa & _)|(Ea & Hk & Hno)]].
  - unfold step_ok. rewrite Ea. apply bool_decide_eq_true. rewrite pane_fresh by (unfold pane_change; rewrite Ea; by left).
    rewrite Epa, Ew. apply (screen_agent o Ho). by exists x.
  - unfold step_ok. rewrite Ea, Ew. apply andb_true_iff. split; apply bool_decide_eq_true.
    + apply window_fresh; [unfold window_change; rewrite Ea, Ew; by left|]. apply screen_window, elem_of_map. by exists x.
    + intros k w Hkw ->. apply pane_left in Hkw as (Hp & y & Hy & En & Hky); [|done].
      assert (y = x) as -> by by apply (same_window o Ho). apply elem_of_window_panes in Hky as [[_ ->]|[(a & Ha & ->)|[? _]]];
        [by left| |done].
      exfalso. apply Hp. rewrite Ep, !touched_app, !elem_of_app.
      pose proof (removed_from_free x Hx) as Hf. rewrite (proj2 (window_map_None n Hn _) Hno) in Hf.
      destruct Hf as [[? _]|(_ & reason & reason' & killed & F & Hc)]; [done|]. destruct Hc as [[_ Hc]|[-> _]].
      * right. right. left. apply Hc, elem_of_map in Ha as (m & Hm & ->). apply elem_touched. exists (move_of m).
        split; [apply elem_of_map; by exists m|by left].
      * right. right. right. right. right. rewrite F in Ex. apply app_split in Ex as [[r2 Ex]|(mid2 & -> & _)].
        -- assert (st ∈ map (kill_of (nw_name x) reason) (nw_agent_names x)) as Hin
             by (rewrite Ex; apply elem_of_app; right; by left).
           apply elem_of_map in Hin as (b & _ & ->). done.
        -- rewrite touched_app, map_touched_kill. apply elem_of_app. left. apply elem_of_map. by exists a.
Qed.

Lemma tools_turn : st ∈ phase_tools → step_ok now st = true.
Proof.
  pose proof pane_fresh as Hpf. pose proof window_fresh as Hwf. pose proof pane_left as Hpl.
  intros (w & Hw & Hno & Ht & ->)%elem_phase_tools. unfold step_ok. cbn [st_action patch_step].
  apply andb_true_iff. split; [apply andb_true_iff; split|]; apply bool_decide_eq_true.
  - apply Hwf; [by left|]. apply screen_window, elem_of_map. by exists w.
  - rewrite Hpf by by left. apply (screen_pane o Ho). exists w. split; [done|]. split; [done|].
    apply elem_of_window_panes. by right; right.
  - intros k w' Hkw ->. apply Hpl in Hkw as (_ & y & Hy & En & Hky); [|done].
    assert (y = w) as -> by by apply (same_window o Ho). apply elem_of_window_panes in Hky as [[_ ->]|[(a & Ha & ->)|[_ ->]]].
    + right. by left.
    + rewrite (tok_tools o Ho w Hw Ht) in Ha. by apply not_elem_of_nil in Ha.
    + by left.
Qed.

Lemma turn : step_ok now st = true.
Proof.
  pose proof Hsteps as E. rewrite patch_phases in E.
  apply app_split in E as [[r E]|(m1 & P1 & E)]; [by eapply view_turn|].
  apply app_split in E as [[r E]|(m2 & -> & E)]; [by eapply windows_turn|].
  apply app_split in E as [[r E]|(m3 & -> & E)]; [by eapply moves_turn|].
  apply app_split in E as [[r E]|(m4 & -> & E)]; [by eapply appends_turn|].
  apply app_split in E as [[r E]|(m5 & -> & E)]; [by eapply removals_turn|].
  apply tools_turn. rewrite E. apply elem_of_app. right. by left.
Qed.

End turn.

(** The steps can be made one after the other and lead to the windows of the new topology. *)
Lemma patch_runs : run_steps (patch_steps o n ops).1 S0 = Some S1.
Proof.
  rewrite run_steps_prefix by (intros pre st post E; by eapply turn). f_equal. apply after_reaches.
  - apply patch_towards.
  - apply patch_covers.
  - intros w Hw. rewrite (screen_window o), (screen_window n). rewrite elem_touched_windows_steps in Hw.
    destruct (decide (w ∈ map nw_name (nt_windows o))), (decide (w ∈ map nw_name (nt_windows n))); tauto.
Qed.

(** ** What each step is for *)

(** The change of the configuration that a step answers. *)
Definition justified (st : NamespacePatchStep) : Prop :=
  match st_action st with
  | REFRESH_PROJECT_VIEW => existsb (is_op "view_only_change") ops || existsb (is_op "maintenance_change") ops = true
  | REUSE_AGENT_PANE_FOR_REPLACE => ∃ a, st_agent st = Some a ∧ a ∈ op_agents "replace_agent" ops
  | CREATE_WINDOW | CREATE_SIDEBAR_PANE =>
      ∃ w, st_window st = Some (nw_name w) ∧ w ∈ nt_windows n ∧ nw_name w ∉ map nw_name (nt_windows o)
  | CREATE_TOOL_PANE =>
      ∃ w, st_window st = Some (nw_name w) ∧ w ∈ nt_windows n ∧ nw_kind w = WK_TOOL ∧
        nw_name w ∉ map nw_name (nt_windows o)
  | CREATE_AGENT_PANE =>
      ∃ a w, st_agent st = Some a ∧ st_window st = Some w ∧ at_window n a w ∧ a ∉ topology_agents o
  | MOVE_AGENT_PANE =>
      ∃ a w w', st_agent st = Some a ∧ st_window st = Some w ∧ st_target_window st = Some w' ∧
        at_window o a w ∧ at_window n a w' ∧ w ≠ w'
  | KILL_AGENT_PANE =>
      ∃ a w, st_agent st = Some a ∧ st_window st = Some w ∧ at_window o a w ∧ a ∉ topology_agents n
  | KILL_WINDOW =>
      ∃ w, st_window st = Some (nw_name w) ∧ w ∈ nt_windows o ∧ nw_kind w ≠ WK_TOOL ∧
        nw_name w ∉ map nw_name (nt_windows n)
  | KILL_TOOL_WINDOW =>
      ∃ w, st_window st = Some (nw_name w) ∧ w ∈ nt_windows o ∧ nw_kind w = WK_TOOL ∧
        nw_name w ∉ map nw_name (nt_windows n)
  end.

Lemma new_agent_of_window w a :
  w ∈ nt_windows n → nw_name w ∉ map nw_name (nt_windows o) → a ∈ nw_agent_names w → a ∉ mv → a ∉ topology_agents o.
Proof.
  intros Hw Hno Ha Hm Hin. apply at_window_agents in Hin as (w0 & H0). apply Hm, elem_mv. exists w0, (nw_name w).
  split; [done|]. split; [by exists w|]. intros ->. destruct H0 as (x & Hx & E & _). apply Hno, elem_of_map. by exists x.
Qed.

Lemma steps_justified st : st ∈ (patch_steps o n ops).1 → justified st.
Proof.
  rewrite patch_phases, !elem_of_app. intros [H|[H|[H|[H|[H|H]]]]].
  - unfold phase_view in H. apply elem_of_app in H as [H|H].
    + unfold view_refresh_steps in H. destruct (_ || _) eqn:E; [|by apply not_elem_of_nil in H].
      cbn in H. by apply list_elem_of_singleton in H as ->.
    + apply list_elem_of_omap in H as (item & Hi & E). destruct (is_op _ item) eqn:Eo; [|done].
      destruct (or_none _) as [a|] eqn:Ea; [|done]. injection E as <-. exists a. split; [done|].
      unfold op_agents. apply list_elem_of_omap. exists item. by rewrite Eo.
  - apply elem_phase_windows in H as (w & Hw & Hno & H). unfold new_window_steps in H.
    rewrite !elem_of_app, elem_of_map in H. destruct H as [H|[H|[(a & Ha & ->)|H]]].
    + apply list_elem_of_singleton in H as ->. by exists w.
    + destruct (nw_sidebar w); [|by apply not_elem_of_nil in H]. apply list_elem_of_singleton in H as ->. by exists w.
    + apply elem_of_lfilter in Ha as [Ha Hx]. apply negb_true_iff, mem_str_not in Hx.
      exists a, (nw_name w). split; [done|]. split; [done|]. split; [by exists w|]. by apply (new_agent_of_window w).
    + case_bool_decide; [|by apply not_elem_of_nil in H]. apply list_elem_of_singleton in H as ->. by exists w.
  - apply elem_of_map in H as ([a [w0 w1]] & Hin & ->). apply (elem_of_moved o n Ho Hn) in Hin as (? & ? & ?).
    by exists a, w0, w1.
  - apply elem_of_concat_map in H as (w & Hw & H). pose proof H as H'.
    apply elem_appended_to in H as (Ew & Ea & _ & a & Ha & Ep & Hno); [|done].
    destruct (appended_to_free w Hw) as [F|(ow & plan & _ & _ & _ & F)]; rewrite F in H'; [by apply not_elem_of_nil in H'|].
    apply append_steps_form in H' as (b & anchor & ->). injection Ep as ->.
    exists a, (nw_name w). split; [done|]. split; [done|]. split; [by exists w|done].
  - apply elem_of_concat_map in H as (w & Hw & H). pose proof H as H'.
    apply elem_removed_from in H as [_ Hc]; [|done].
    pose proof (removed_from_free w Hw) as Hf.
    assert ((∃ reason a, st = kill_of (nw_name w) reason a) ∨ ∃ reason, st = kill_window_step (nw_name w) reason) as Hform.
    { destruct (aget _ _).
      - destruct Hf as [reason Hf]. rewrite Hf in H'. apply elem_of_map in H' as (a & _ & ->). left. eauto.
      - destruct Hf as [[_ Hf]|(_ & reason & reason' & killed & Hf & _)]; rewrite Hf in H'; [by apply not_elem_of_nil in H'|].
        apply elem_of_app in H' as [(a & _ & ->)%elem_of_map| ->%list_elem_of_singleton]; [left; eauto|right; eauto]. }
    destruct Hform as [(reason & a & ->)|(reason & ->)], Hc as [(Ea & b & Hb & Ep & Hno)|(Ea & Hk & Hno)]; try done.
    + injection Ep as ->. exists b, (nw_name w). split; [done|]. split; [done|]. split; [by exists w|done].
    + by exists w.
  - apply elem_phase_tools in H as (w & Hw & Hno & Hk & ->). by exists w.
Qed.

End patch.
