(* ===== verification/ReloadProps.v ===== *)
(** Properties of a reload: what a plan is accepted for, and that the steps of an accepted
    plan lead from the windows of one configuration to those of the other. *)

From Stdlib Require Import Ascii String ZArith Lia.
From stdpp Require Import base gmap list strings sets sorting.
From S2P Require Import Prelude PyData Names Layout LayoutParser Topology Drain ReloadConfig ReloadPatch ReloadPlan ReloadScreen.

Local Open Scope Z_scope.

(** ** Sound configurations *)

(** What [ProjectConfig] guarantees of its agents and windows: names are normalised, agents
    once each and every one in exactly one window, windows and tool windows named apart. *)
Record reload_config_ok (c : ReloadConfig) : Prop := {
  rco_agents : NoDup (map fst (rc_agents c));
  rco_names : ∀ a, a ∈ map fst (rc_agents c) → normal_name a = true;
  rco_placed : concat (map ws_agent_names (rc_windows c)) ≡ₚ map fst (rc_agents c);
  rco_windows : NoDup (map ws_name (rc_windows c) ++ map tw_name (rc_tool_windows c));
  rco_tools : ∀ t, t ∈ rc_tool_windows c → window_name_pattern (tw_name t) = true;
}.

Abbreviation topology c := (build_namespace_topology_plan None None c).

Lemma window_name_facts w : window_name_pattern w = true → strip w = w ∧ truthy w = true.
Proof.
  intros H. split; [|by destruct w]. apply strip_no_space, tail_no_space. destruct w as [|c r]; [done|].
  cbn in *. apply andb_prop in H as [H1 H2]. by rewrite (alpha_tail _ H1).
Qed.

Section config.
Context (c : ReloadConfig) (Hc : reload_config_ok c).

Lemma topology_windows :
  map nw_name (nt_windows (topology c)) = map ws_name (rc_windows c) ++ map tw_name (rc_tool_windows c).
Proof. cbn. by rewrite map_app, !map_map. Qed.

Lemma topology_agents_of : topology_agents (topology c) = concat (map ws_agent_names (rc_windows c)).
Proof.
  unfold topology_agents. cbn. rewrite map_app, !map_map, concat_app.
  assert (concat (map (λ t : ToolWindowSpec, @nil string) (rc_tool_windows c)) = []) as E
    by (induction (rc_tool_windows c); done).
  cbn. rewrite E. apply app_nil_r.
Qed.

Lemma elem_topology_agents a : a ∈ topology_agents (topology c) ↔ a ∈ map fst (rc_agents c).
Proof. rewrite topology_agents_of. by rewrite (rco_placed c Hc). Qed.

Lemma config_topology_ok : topology_ok (topology c).
Proof.
  split.
  - rewrite topology_windows. apply Hc.
  - rewrite topology_agents_of, (rco_placed c Hc). apply Hc.
  - intros w Hw Hk. cbn in Hw. apply elem_of_app in Hw as [Hw|Hw]; apply elem_of_map in Hw as (x & _ & ->); done.
  - intros w Hw. cbn in *. apply elem_of_app in Hw as [Hw|Hw]; apply elem_of_map in Hw as (x & _ & ->); cbn;
      unfold sidebar_plan; destruct (sidebar_enabled c); split; try done; by eexists.
Qed.

Lemma agent_strip a : a ∈ map fst (rc_agents c) → or_none (strip a) = Some a.
Proof.
  intros H. apply (rco_names c Hc), normal_name_facts in H as (-> & _ & Ht & _). unfold or_none. by rewrite Ht.
Qed.

(** Windows of agents and tool windows. *)
Lemma elem_tool_window w :
  w ∈ nt_windows (topology c) → nw_kind w = WK_TOOL → ∃ t, t ∈ rc_tool_windows c ∧ tw_name t = nw_name w.
Proof.
  cbn. intros [Hw|Hw]%elem_of_app Hk; apply elem_of_map in Hw as (x & Hx & ->); [done|]. by exists x.
Qed.

Lemma tool_in_topology t :
  t ∈ rc_tool_windows c → ∃ w, w ∈ nt_windows (topology c) ∧ nw_name w = tw_name t ∧ nw_kind w = WK_TOOL.
Proof.
  intros Ht. eexists. split; [cbn; apply elem_of_app; right; apply elem_of_map; exists t; split; [done|reflexivity]|done].
Qed.

Lemma tool_map_keys : map fst (tool_window_record_map c) = map tw_name (rc_tool_windows c).
Proof.
  unfold tool_window_record_map. rewrite of_pairs_id; rewrite map_map; [done|]. cbn.
  pose proof (rco_windows c Hc) as H. by apply list.NoDup_app in H as (_ & _ & H).
Qed.

Lemma window_map_keys : map fst (window_record_map c) = map ws_name (rc_windows c).
Proof.
  unfold window_record_map. rewrite of_pairs_id; rewrite map_map; [done|]. cbn.
  pose proof (rco_windows c Hc) as H. by apply list.NoDup_app in H as (H & _).
Qed.

Lemma config_window_of a w : aget (config_agent_window_map c) a = Some w ↔ at_window (topology c) a w.
Proof.
  assert (config_agent_window_map c = agent_window_map (topology c)) as ->; [|apply agent_window_get, config_topology_ok].
  unfold config_agent_window_map, agent_window_map. cbn. rewrite map_app, !map_map, concat_app. f_equal. cbn.
  assert (concat (map (λ t : ToolWindowSpec, @nil (string * string)) (rc_tool_windows c)) = []) as ->
    by (induction (rc_tool_windows c); done).
  by rewrite app_nil_r.
Qed.

End config.

(** ** The operations *)

Lemma elem_sorted_set a l : a ∈ sorted_set l ↔ a ∈ l.
Proof. unfold sorted_set. by rewrite merge_sort_Permutation, elem_of_remove_dups. Qed.

Lemma elem_names_diff x a b : x ∈ names_diff a b ↔ x ∈ a ∧ x ∉ b.
Proof. unfold names_diff. by rewrite elem_of_lfilter, negb_true_iff, mem_str_not. Qed.

Section operations.
Context (cur new : ReloadConfig).

Lemma elem_kept a : a ∈ kept_agents cur new ↔ a ∈ old_agents cur ∧ a ∈ new_agents new.
Proof. unfold kept_agents. by rewrite elem_sorted_set, elem_of_lfilter, mem_str_spec. Qed.

(** What an operation can be. *)
Inductive operation : pydict → Prop :=
  | OpAddWindow w l : w ∈ map fst (window_record_map new) → w ∉ map fst (window_record_map cur) →
      operation (op_add_window w l)
  | OpAddAgent a : a ∈ new_agents new → a ∉ old_agents cur → operation (op_add_agent a (new_window_of new a))
  | OpRemoveAgent a : a ∈ old_agents cur → a ∉ new_agents new → operation (op_remove_agent a (old_window_of cur a))
  | OpMoveAgent a : a ∈ kept_agents cur new → old_window_of cur a ≠ new_window_of new a →
      operation (op_move_agent a (old_window_of cur a) (new_window_of new a))
  | OpDispatch a fields : operation (op_dispatch_changed a fields)
  | OpReplace a fields : a ∈ kept_agents cur new →
      replace_agent_operation cur new a = Some (op_replace_agent a (left_over_window cur new) fields) →
      operation (op_replace_agent a (left_over_window cur new) fields)
  | OpRemoveWindow w : operation (op_remove_window w)
  | OpWindowChanged w fields : operation (op_window_changed w fields)
  | OpEntryWindow : operation (op_entry_window (rc_entry_window cur) (rc_entry_window new))
  | OpSidebar : operation op_sidebar
  | OpAddTool w command : operation (op_add_tool_window w command)
  | OpRemoveTool w : operation (op_remove_tool_window w)
  | OpChangeTool w fields : operation (op_change_tool_window w fields)
  | OpMaintenance fields : operation (op_maintenance fields).

Lemma map_result_elem {A B} (f : A → result B) l l' y :
  map_result f l = Ok l' → y ∈ l' → ∃ x, x ∈ l ∧ f x = Ok y.
Proof.
  revert l'. induction l as [|x l IH]; intros l' H Hy; cbn in H.
  - injection H as <-. by apply not_elem_of_nil in Hy.
  - apply result_bind_Ok in H as (z & Hz & H). apply result_bind_Ok in H as (zs & Hzs & H). injection H as <-.
    apply elem_of_cons in Hy as [->|Hy]; [exists x; split; [by left|done]|].
    destruct (IH _ Hzs Hy) as (x' & Hx' & E). exists x'. split; [by right|done].
Qed.

Lemma build_operations_sound ops item : build_operations cur new = Ok ops → item ∈ ops → operation item.
Proof.
  unfold build_operations. intros H Hi. apply result_bind_Ok in H as (top & Ht & H). injection H as <-.
  rewrite !elem_of_app in Hi. destruct Hi as [Hi|[Hi|[Hi|[Hi|[Hi|[Hi|[Hi|Hi]]]]]]].
  - apply elem_of_map in Hi as (w & Hw & ->). unfold ordered_windows in Hw.
    rewrite merge_sort_Permutation, elem_of_remove_dups, elem_names_diff in Hw. destruct Hw. by constructor.
  - apply elem_of_map in Hi as (a & Ha & ->). apply elem_sorted_set, elem_names_diff in Ha as [? ?]. by constructor.
  - apply elem_of_map in Hi as (a & Ha & ->). apply elem_sorted_set, elem_names_diff in Ha as [? ?]. by constructor.
  - apply list_elem_of_omap in Hi as (a & Ha & E). case_bool_decide; [done|]. injection E as <-. by constructor.
  - apply list_elem_of_omap in Hi as (a & Ha & E). pose proof E as E'. unfold replace_agent_operation in E.
    destruct (dict_ne _ _); [|done]. case_bool_decide; injection E as <-; [constructor|by constructor].
  - unfold topology_operations in Ht. apply result_bind_Ok in Ht as (lay & Hl & Ht). injection Ht as <-.
    rewrite !elem_of_app in Hi. destruct Hi as [Hi|[Hi|[Hi|Hi]]].
    + apply elem_of_map in Hi as (w & _ & ->). constructor.
    + unfold layout_operations in Hl. apply result_bind_Ok in Hl as (l & Hl & E). injection E as <-.
      apply list_elem_of_omap in Hi as (x & Hx & E). unfold id in E. subst x. eapply map_result_elem in Hx as (w & _ & Hw); [|exact Hl].
      unfold layout_operation in Hw. destruct (negb _); [done|].
      apply result_bind_Ok in Hw as (? & _ & Hw). apply result_bind_Ok in Hw as (? & _ & Hw). injection Hw as Hw.
      case_bool_decide; [done|]. injection Hw as <-. constructor.
    + destruct (String.eqb _ _); [by apply not_elem_of_nil in Hi|]. apply list_elem_of_singleton in Hi as ->. constructor.
    + destruct (dict_ne _ _); [|by apply not_elem_of_nil in Hi]. apply list_elem_of_singleton in Hi as ->. constructor.
  - unfold tool_window_operations in Hi. rewrite !elem_of_app in Hi. destruct Hi as [Hi|[Hi|Hi]].
    + apply elem_of_map in Hi as (w & _ & ->). constructor.
    + apply elem_of_map in Hi as (w & _ & ->). constructor.
    + apply list_elem_of_omap in Hi as (w & _ & E). case_bool_decide; [done|]. injection E as <-. constructor.
  - unfold maintenance_operations in Hi. destruct (dict_ne _ _); [|by apply not_elem_of_nil in Hi].
    apply list_elem_of_singleton in Hi as ->. constructor.
Qed.

Lemma operations_parts ops item :
  build_operations cur new = Ok ops →
  (item ∈ add_window_operations cur new ∨ item ∈ add_agent_operations cur new ∨ item ∈ remove_agent_operations cur new ∨
   item ∈ move_agent_operations cur new ∨ item ∈ omap (replace_agent_operation cur new) (kept_agents cur new) ∨
   item ∈ remove_window_operations cur new ∨ item ∈ tool_window_operations cur new ∨
   (item = op_sidebar ∧ dict_ne (VDict (sidebar_to_record (rc_sidebar cur))) (VDict (sidebar_to_record (rc_sidebar new))) = true)) →
  item ∈ ops.
Proof.
  unfold build_operations, topology_operations. intros H Hi. apply result_bind_Ok in H as (top & Ht & H). injection H as <-.
  apply result_bind_Ok in Ht as (lay & _ & Ht). injection Ht as <-. rewrite !elem_of_app.
  destruct Hi as [?|[?|[?|[?|[?|[?|[?|[-> Hs]]]]]]]]; try tauto. rewrite Hs. rewrite list_elem_of_singleton. tauto.
Qed.

End operations.

Lemma op_str_of item k s : dget item k = VStr s → op_str item k = s.
Proof. intros E. unfold op_str. rewrite E. apply py_str_or_empty_VStr. Qed.

Lemma elem_op_agents op ops a :
  a ∈ op_agents op ops ↔ ∃ item, item ∈ ops ∧ is_op op item = true ∧ or_none (strip (op_str item "agent")) = Some a.
Proof.
  unfold op_agents. rewrite list_elem_of_omap. split.
  - intros (item & Hi & E). destruct (is_op op item) eqn:Eo; [|done]. by exists item.
  - intros (item & Hi & Eo & E). exists item. split; [done|]. by rewrite Eo.
Qed.

Section cover.
Context (cur new : ReloadConfig) (Hcur : reload_config_ok cur) (Hnew : reload_config_ok new).
Context (ops : list pydict) (Hops : build_operations cur new = Ok ops).

Lemma operations_cover : ops_cover (topology cur) (topology new) ops.
Proof.
  split.
  - intros a Ha Hno. rewrite elem_topology_agents in Ha, Hno by done. apply elem_op_agents.
    exists (op_add_agent a (new_window_of new a)). split; [|split; [done|]].
    + eapply operations_parts; [exact Hops|]. right; left. apply elem_of_map. exists a. split; [|done].
      by apply elem_sorted_set, elem_names_diff.
    + rewrite (op_str_of _ _ a) by done. by apply (agent_strip new Hnew).
  - intros a Ha. apply elem_op_agents in Ha as (item & Hi & Eo & E).
    eapply build_operations_sound in Hi; [|exact Hops]. destruct Hi; try discriminate Eo.
    rewrite (op_str_of _ _ a0) in E by done. apply elem_kept in H as [H _].
    rewrite (agent_strip cur Hcur) in E by done. injection E as <-. by apply elem_topology_agents.
  - intros w Hw Hk Hno. apply elem_tool_window in Hw as (t & Ht & Et); [|done].
    destruct (window_name_facts (nw_name w)) as [Es Etr]; [rewrite <-Et; by apply (rco_tools new Hnew)|].
    eexists. split; [eapply operations_parts; [exact Hops|]; do 6 right; left|split; [|split; [|done]]].
    + unfold tool_window_operations. apply elem_of_app. left. apply elem_of_map. exists (nw_name w). split; [|reflexivity].
      unfold ordered_tool_windows. rewrite merge_sort_Permutation, elem_of_remove_dups, elem_names_diff, !tool_map_keys by done.
      split; [rewrite <-Et; apply elem_of_map; by exists t|].
      intros (t' & Ht' & E)%elem_of_map. destruct (tool_in_topology cur t' Ht') as (w' & Hw' & En & Hk').
      apply (Hno w'); [done|congruence|done].
    + done.
    + by rewrite (op_str_of _ _ (nw_name w)).
  - intros w Hw Hk Hno. apply elem_tool_window in Hw as (t & Ht & Et); [|done].
    destruct (window_name_facts (nw_name w)) as [Es Etr]; [rewrite <-Et; by apply (rco_tools cur Hcur)|].
    exists (op_remove_tool_window (nw_name w)). split; [eapply operations_parts; [exact Hops|]; do 6 right; left|split; [|split; [|done]]].
    + unfold tool_window_operations. rewrite !elem_of_app. right. left. apply elem_of_map. exists (nw_name w). split; [|reflexivity].
      unfold ordered_tool_windows. rewrite merge_sort_Permutation, elem_of_remove_dups, elem_names_diff, !tool_map_keys by done.
      split; [rewrite <-Et; apply elem_of_map; by exists t|].
      intros (t' & Ht' & E)%elem_of_map. destruct (tool_in_topology new t' Ht') as (w' & Hw' & En & Hk').
      apply (Hno w'); [done|congruence|done].
    + done.
    + by rewrite (op_str_of _ _ (nw_name w)).
Qed.

(** An unsupported operation blocks the patch. *)
Lemma unsupported_blocks v item :
  patch_blocked ops v = [] → item ∈ ops → strip (op_str item "op") = "layout_change" →
  op_str item "change" = "remove_window".
Proof.
  unfold patch_blocked. intros [H _]%app_nil Hi Eo.
  destruct (String.eqb (op_str item "change") "remove_window") eqn:E; [by apply String.eqb_eq in E|]. exfalso.
  unfold blocked_unsupported_operations in H.
  assert ([("op", VStr "layout_change"); ("agent", dget item "agent"); ("window", dget item "window");
           ("reason", VStr "namespace patch planner supports config-only, additive, idle remove_agent, and guarded move_agent operations")]
          ∈ blocked_unsupported_operations ops) as Hin.
  { unfold blocked_unsupported_operations. apply list_elem_of_omap. exists item. split; [done|]. rewrite Eo, E. reflexivity. }
  unfold blocked_unsupported_operations in Hin. rewrite H in Hin. by apply not_elem_of_nil in Hin.
Qed.

Lemma same_sidebar v :
  patch_blocked ops v = [] → rc_mux_backend cur = rc_mux_backend new →
  nt_sidebar_enabled (topology cur) = nt_sidebar_enabled (topology new).
Proof.
  intros Hb Hm.
  destruct (dict_ne (VDict (sidebar_to_record (rc_sidebar cur))) (VDict (sidebar_to_record (rc_sidebar new)))) eqn:E.
  - assert (op_sidebar ∈ ops) as Hi by (eapply operations_parts; [exact Hops|]; tauto).
    by pose proof (unsupported_blocks v op_sidebar Hb Hi eq_refl).
  - apply negb_false_iff in E. cbn in E. unfold sidebar_to_record in E. cbn in E.
    apply andb_true_iff in E as [E _]. apply String.eqb_eq in E. cbn. unfold sidebar_enabled. by rewrite E, Hm.
Qed.

End cover.

(** ** Accepted plans *)

Lemma patched_not c : mem_str c PATCHED_PLAN_CLASSES = true →
  c ≠ "no_change" ∧ c ≠ "view_only_change" ∧ c ≠ "layout_change".
Proof. intros H. split; [|split]; intros ->; done. Qed.

Section accepted.
Context (cur new : ReloadConfig) (ident : option pydict) (pid : option string) (ns : option Namespace).

Lemma accepted_plan plan :
  build_reload_dry_run_plan cur new ident pid ns = Ok plan → plan_blocker plan = None →
  mem_str (op_str plan "plan_class") PATCHED_PLAN_CLASSES = true →
  ∃ ops, build_operations cur new = Ok ops ∧ op_str plan "plan_class" = select_plan_class ops ∧
    future_safe_to_apply (select_plan_class ops) ops = true ∧
    patch_blocked ops true = [] ∧ (patch_steps (topology cur) (topology new) ops).2 = [] ∧
    (patch_steps (topology cur) (topology new) ops).1 ≠ [] ∧
    dict_items (dget (dict_of (dget plan "namespace_patch_plan")) "steps")
      = map step_to_record (patch_steps (topology cur) (topology new) ops).1 ∧
    dict_items (dget plan "operations") = ops.
Proof.
  unfold build_reload_dry_run_plan. intros Hb Hp Hc.
  destruct (py_eq _ _).
  { injection Hb as <-. exfalso. unfold identity_preserving_plan in Hc.
    destruct (same_record _ _ _); cbn in Hc; done. }
  apply result_bind_Ok in Hb as (built & Hbuilt & Hb). injection Hb as <-.
  change (op_str (plan_payload ?s ?c ?oi ?ni ?op ?dr ?np ?rs ?ws ?es ?sf) "plan_class") with (py_str_or_empty (VStr c)) in *.
  rewrite py_str_or_empty_VStr in *.
  destruct built as [|it built].
  { exfalso. cbn in Hc. done. }
  set (ops := it :: built) in *. change (classified ops) with ops in *.
  exists ops. split; [done|]. split; [done|].
  unfold plan_blocker in Hp.
  change (op_str (plan_payload ?s ?c ?oi ?ni ?op ?dr ?np ?rs ?ws ?es ?sf) "status") with "ok" in Hp.
  change (op_str (plan_payload ?s ?c ?oi ?ni ?op ?dr ?np ?rs ?ws ?es ?sf) "plan_class") with (py_str_or_empty (VStr c)) in Hp.
  rewrite py_str_or_empty_VStr in Hp.
  cbn [String.eqb Ascii.eqb Bool.eqb negb] in Hp.
  destruct (mem_str (select_plan_class ops) ALLOWED_PLAN_CLASSES); [|done]. cbn [negb] in Hp.
  destruct (operation_blocker _); [done|].
  change (dget (plan_payload ?s ?c ?oi ?ni ?op ?dr ?np ?rs ?ws ?es ?sf) "future_safe_to_apply") with (VBool sf) in Hp.
  cbn [py_truthy] in Hp.
  destruct (future_safe_to_apply _ ops) eqn:Hsafe; [|done]. cbn [negb] in Hp. split; [done|].
  rewrite Hc in Hp. unfold namespace_patch_blocker in Hp.
  change (dict_of (dget (plan_payload ?s ?c ?oi ?ni ?op ?dr ?np ?rs ?ws ?es ?sf) "namespace_patch_plan")) with np in *.
  change (dict_items (dget (plan_payload ?s ?c ?oi ?ni ?op ?dr ?np ?rs ?ws ?es ?sf) "operations")) with (dict_items (VList (map VDict op))).
  assert (∀ l, dict_items (VList (map VDict l)) = l) as Hitems.
  { intros l. unfold dict_items. induction l as [|d l IH]; [done|]. cbn. by rewrite IH. }
  unfold patch_plan_of, build_namespace_patch_plan in Hp |- *.
  set (r := planned_patch _ _ _ _) in Hp |- *.
  match type of Hp with context [op_str ?d "status"] =>
    change (op_str d "status") with (py_str_or_empty (VStr (patch_status_value (status_of_patch r)))) in Hp;
    change (dget d "blocked_operations") with (VList (map VDict r.2)) in Hp;
    change (dict_of (dget d "scope")) with (scope_payload pid ns) in Hp end.
  rewrite py_str_or_empty_VStr in Hp.
  assert (scope_verified pid ns = true) as Hv.
  { destruct (String.eqb _ "planned"); [|done]. cbn [negb] in Hp. destruct (py_truthy (VList _)); [done|].
    unfold scope_payload in Hp. destruct ns; [|done]. by destruct (scope_verified pid (Some n)). }
  assert (status_of_patch r = PS_PLANNED) as Hs by (destruct (status_of_patch r); done).
  assert (r = planned_patch (topology cur) (topology new) ops (scope_verified pid ns)) as Er by reflexivity.
  rewrite Hv in Er. unfold planned_patch in Er.
  destruct (patch_blocked ops true) as [|b bl] eqn:Epb; [|by rewrite Er in Hs]. split; [done|].
  rewrite <-Er. destruct r as [steps blocked] eqn:Err. cbn [fst snd].
  unfold status_of_patch in Hs. destruct blocked as [|b bl]; [|by destruct steps].
  destruct steps as [|st steps]; [done|]. split; [done|]. split; [done|]. split; [|apply Hitems].
  match goal with |- context [dget ?d "steps"] =>
    change (dget d "steps") with (VList (map (λ s, VDict (step_to_record s)) (st :: steps))) end.
  rewrite <-(Hitems (map step_to_record (st :: steps))). by rewrite map_map.
Qed.

End accepted.

(** ** The class of a plan and its steps *)

(** The operations a step of a kind can answer, and the steps a class of plan can have. *)
Definition answered_ops (a : patch_action) : list string :=
  match a with
  | REFRESH_PROJECT_VIEW => ["view_only_change"; "maintenance_change"]
  | REUSE_AGENT_PANE_FOR_REPLACE => ["replace_agent"]
  | CREATE_WINDOW | CREATE_SIDEBAR_PANE => ["add_window"; "add_tool_window"]
  | CREATE_AGENT_PANE => ["add_agent"]
  | CREATE_TOOL_PANE => ["add_tool_window"]
  | MOVE_AGENT_PANE => ["move_agent"]
  | KILL_AGENT_PANE => ["remove_agent"]
  | KILL_WINDOW => ["layout_change"]
  | KILL_TOOL_WINDOW => ["remove_tool_window"]
  end.

Definition class_actions (plan_class : string) : list patch_action :=
  if String.eqb plan_class "replace_agent" then [REUSE_AGENT_PANE_FOR_REPLACE]
  else if String.eqb plan_class "remove_agent" then [KILL_AGENT_PANE; KILL_WINDOW]
  else if String.eqb plan_class "move_agent" then
    [CREATE_WINDOW; CREATE_SIDEBAR_PANE; CREATE_AGENT_PANE; MOVE_AGENT_PANE; KILL_WINDOW]
  else
    [REFRESH_PROJECT_VIEW; CREATE_WINDOW; CREATE_SIDEBAR_PANE; CREATE_AGENT_PANE; CREATE_TOOL_PANE; KILL_TOOL_WINDOW].

Lemma class_is_max ops item :
  item ∈ ops → plan_priority (op_class item) <= plan_priority (select_plan_class ops).
Proof.
  destruct ops as [|x l]; [by intros ?%not_elem_of_nil|]. unfold select_plan_class.
  assert (∀ l best, plan_priority best <=
      plan_priority (foldl (λ best item, if plan_priority best <? plan_priority (op_class item) then op_class item else best) best l) ∧
      ∀ y, y ∈ l → plan_priority (op_class y) <=
      plan_priority (foldl (λ best item, if plan_priority best <? plan_priority (op_class item) then op_class item else best) best l)) as H.
  { clear. induction l as [|z l IH]; intros best; cbn [foldl]; [split; [lia|by intros ? ?%not_elem_of_nil]|].
    destruct (Z.ltb_spec (plan_priority best) (plan_priority (op_class z))) as [Hlt|Hge].
    - destruct (IH (op_class z)) as [I1 I2]. split; [lia|]. intros y [->|Hy]%elem_of_cons; [lia|by apply I2].
    - destruct (IH best) as [I1 I2]. split; [lia|]. intros y [->|Hy]%elem_of_cons; [lia|by apply I2]. }
  destruct (H l (op_class x)) as [H1 H2]. intros [->|Hi]%elem_of_cons; [done|by apply H2].
Qed.

Section justified.
Context (cur new : ReloadConfig) (Hcur : reload_config_ok cur) (Hnew : reload_config_ok new).
Context (ops : list pydict) (Hops : build_operations cur new = Ok ops).

Abbreviation part H := (operations_parts cur new ops _ Hops H).

Lemma added_window_op w :
  w ∈ nt_windows (topology new) → nw_name w ∉ map nw_name (nt_windows (topology cur)) →
  ∃ item, item ∈ ops ∧
    op_str item "op" = if bool_decide (nw_kind w = WK_TOOL) then "add_tool_window" else "add_window".
Proof.
  rewrite topology_windows, not_elem_of_app. intros Hw [H1 H2]. cbn in Hw.
  apply elem_of_app in Hw as [Hw|Hw]; apply elem_of_map in Hw as (x & Hx & ->); cbn in *.
  - eexists. split; [eapply operations_parts; [exact Hops|left; apply elem_of_map; exists (ws_name x); split; [|reflexivity]]|reflexivity].
    unfold ordered_windows. rewrite merge_sort_Permutation, elem_of_remove_dups, elem_names_diff, !window_map_keys by done.
    split; [apply elem_of_map; by exists x|done].
  - eexists. split; [eapply operations_parts; [exact Hops|do 6 right; left]|].
    + unfold tool_window_operations. apply elem_of_app. left. apply elem_of_map. exists (tw_name x). split; [|reflexivity].
      unfold ordered_tool_windows. rewrite merge_sort_Permutation, elem_of_remove_dups, elem_names_diff, !tool_map_keys by done.
      split; [apply elem_of_map; by exists x|done].
    + done.
Qed.

Lemma removed_window_op w :
  w ∈ nt_windows (topology cur) → nw_name w ∉ map nw_name (nt_windows (topology new)) →
  ∃ item, item ∈ ops ∧
    op_str item "op" = if bool_decide (nw_kind w = WK_TOOL) then "remove_tool_window" else "layout_change".
Proof.
  rewrite topology_windows, not_elem_of_app. intros Hw [H1 H2]. cbn in Hw.
  apply elem_of_app in Hw as [Hw|Hw]; apply elem_of_map in Hw as (x & Hx & ->); cbn in *.
  - eexists. split; [eapply operations_parts; [exact Hops|do 5 right; left; apply elem_of_map; exists (ws_name x); split; [|reflexivity]]|reflexivity].
    unfold ordered_windows. rewrite merge_sort_Permutation, elem_of_remove_dups, elem_names_diff, !window_map_keys by done.
    split; [apply elem_of_map; by exists x|done].
  - eexists. split; [eapply operations_parts; [exact Hops|do 6 right; left]|].
    + unfold tool_window_operations. rewrite !elem_of_app. right. left. apply elem_of_map. exists (tw_name x). split; [|reflexivity].
      unfold ordered_tool_windows. rewrite merge_sort_Permutation, elem_of_remove_dups, elem_names_diff, !tool_map_keys by done.
      split; [apply elem_of_map; by exists x|done].
    + done.
Qed.

(** A justified step answers an operation of the plan. *)
Lemma justified_op st :
  justified (topology cur) (topology new) ops st → ∃ item, item ∈ ops ∧ op_str item "op" ∈ answered_ops (st_action st).
Proof.
  unfold justified. destruct (st_action st) eqn:Ea; cbn [answered_ops].
  - intros [H|H]%orb_true_iff; apply existsb_exists in H as (item & Hi & Eo); apply list_elem_of_In in Hi;
      apply String.eqb_eq in Eo; exists item; rewrite Eo; split; try done; [by left|by right; left].
  - intros (a & _ & Ha). apply elem_op_agents in Ha as (item & Hi & Eo & _). apply String.eqb_eq in Eo.
    exists item. rewrite Eo. split; [done|by left].
  - intros (w & _ & Hw & Hno). destruct (added_window_op w Hw Hno) as (item & Hi & Eo). exists item. rewrite Eo.
    split; [done|]. case_bool_decide; [right; by left|by left].
  - intros (w & _ & Hw & Hno). destruct (added_window_op w Hw Hno) as (item & Hi & Eo). exists item. rewrite Eo.
    split; [done|]. case_bool_decide; [right; by left|by left].
  - intros (a & w & _ & _ & Hat & Hno). exists (op_add_agent a (new_window_of new a)). split; [|by left].
    eapply operations_parts; [exact Hops|]. right; left. apply elem_of_map. exists a. split; [|done].
    apply elem_sorted_set, elem_names_diff. unfold old_agents, new_agents.
    rewrite <-(elem_topology_agents new), <-(elem_topology_agents cur) by done.
    split; [by apply at_window_agents; eauto|done].
  - intros (w & _ & Hw & Hk & Hno). destruct (added_window_op w Hw Hno) as (item & Hi & Eo). exists item. rewrite Eo.
    split; [done|]. rewrite bool_decide_eq_true_2 by done. by left.
  - intros (a & w & w' & _ & _ & _ & H0 & H1 & Hne).
    exists (op_move_agent a (old_window_of cur a) (new_window_of new a)). split; [|by left].
    eapply operations_parts; [exact Hops|]. do 3 right; left. unfold move_agent_operations.
    apply list_elem_of_omap. exists a. split.
    + apply elem_kept. unfold old_agents, new_agents.
      rewrite <-(elem_topology_agents new), <-(elem_topology_agents cur) by done. split; apply at_window_agents; eauto.
    + rewrite bool_decide_eq_false_2; [done|]. unfold old_window_of, new_window_of.
      rewrite (proj2 (config_window_of cur Hcur a w) H0), (proj2 (config_window_of new Hnew a w') H1). congruence.
  - intros (a & w & _ & _ & Hat & Hno). exists (op_remove_agent a (old_window_of cur a)). split; [|by left].
    eapply operations_parts; [exact Hops|]. do 2 right; left. apply elem_of_map. exists a. split; [|done].
    apply elem_sorted_set, elem_names_diff. unfold old_agents, new_agents.
    rewrite <-(elem_topology_agents new), <-(elem_topology_agents cur) by done.
    split; [by apply at_window_agents; eauto|done].
  - intros (w & _ & Hw & Hk & Hno). destruct (removed_window_op w Hw Hno) as (item & Hi & Eo). exists item. rewrite Eo.
    split; [done|]. rewrite bool_decide_eq_false_2 by done. by left.
  - intros (w & _ & Hw & Hk & Hno). destruct (removed_window_op w Hw Hno) as (item & Hi & Eo). exists item. rewrite Eo.
    split; [done|]. rewrite bool_decide_eq_true_2 by done. by left.
Qed.

Lemma op_class_of item : operation cur new item → op_class item = op_str item "op".
Proof. by destruct 1. Qed.

Ltac action_of st :=
  match goal with Ho : _ ∈ answered_ops (st_action st) |- _ =>
    destruct (st_action st); cbn [answered_ops] in Ho; rewrite ?elem_of_cons, elem_of_nil in Ho;
    repeat (destruct Ho as [Ho|Ho]; [first [discriminate Ho|apply list_elem_of_In; cbn; solve [auto 10]]|]); try done
  end.

(** The steps of a plan that passes for safe are those of its class. *)
Lemma class_steps st :
  future_safe_to_apply (select_plan_class ops) ops = true →
  mem_str (select_plan_class ops) PATCHED_PLAN_CLASSES = true →
  justified (topology cur) (topology new) ops st → st_action st ∈ class_actions (select_plan_class ops).
Proof.
  intros Hsafe Hc Hj. apply justified_op in Hj as (item & Hi & Ho).
  pose proof (class_is_max ops item Hi) as Hmax.
  rewrite op_class_of in Hmax by by eapply build_operations_sound.
  apply mem_str_spec in Hc. unfold PATCHED_PLAN_CLASSES in Hc.
  rewrite !elem_of_cons, elem_of_nil in Hc.
  assert (∀ p : pydict → bool, forallb p ops = true → p item = true) as Hall.
  { intros p Hp. rewrite forallb_forall in Hp. by apply Hp, list_elem_of_In. }
  destruct Hc as [Hc|[Hc|[Hc|[Hc|[Hc|[Hc|[Hc|[]]]]]]]]; rewrite Hc in *; clear Hc.
  all: try (destruct (st_action st); cbn [answered_ops] in Ho; rewrite ?elem_of_cons, elem_of_nil in Ho;
    repeat (destruct Ho as [Ho|Ho]; [rewrite Ho in Hmax; first [exfalso; by apply Hmax|by apply list_elem_of_In; cbn; auto 10]|]);
    done).
  - assert (op_str item "op" = "remove_agent" ∨ op_str item "op" = "layout_change") as Hop.
    { change (remove_agent_operations_are_safe ops = true) in Hsafe. apply andb_true_iff in Hsafe as [Hs _].
      pose proof (Hall _ Hs) as Hi'. apply orb_true_iff in Hi' as [Hi'|Hi']; [left; by apply String.eqb_eq|right].
      apply andb_true_iff in Hi' as [Hi' _]. by apply String.eqb_eq. }
    destruct Hop as [Hop|Hop]; rewrite Hop in Ho; by action_of st.
  - assert (op_str item "op" = "replace_agent") as Hop.
    { change (replace_agent_operations_are_safe ops = true) in Hsafe. apply andb_true_iff in Hsafe as [_ Hs].
      pose proof (Hall _ Hs) as Hi'. by apply String.eqb_eq. }
    rewrite Hop in Ho. by action_of st.
  - assert (op_str item "op" ∈ ["move_agent"; "add_agent"; "add_window"; "layout_change"]) as Hop.
    { change (move_agent_operations_are_safe ops = true) in Hsafe. apply andb_true_iff in Hsafe as [_ Hall'].
      pose proof (Hall _ Hall') as Hs. unfold move_compatible in Hs.
      destruct (is_op "move_agent" item) eqn:E1; [apply String.eqb_eq in E1 as ->; by left|].
      destruct (is_op "add_agent" item) eqn:E2; [apply String.eqb_eq in E2 as ->; by right; left|].
      destruct (is_op "add_window" item) eqn:E3; [apply String.eqb_eq in E3 as ->; by right; right; left|].
      apply andb_true_iff in Hs as [Hs _]. apply andb_true_iff in Hs as [Hs _]. apply String.eqb_eq in Hs as ->.
      by right; right; right; left. }
    rewrite !elem_of_cons, elem_of_nil in Hop. destruct Hop as [Hop|[Hop|[Hop|[Hop|[]]]]]; rewrite Hop in Ho; by action_of st.
Qed.

End justified.

(** ** The properties *)


Module RSample.
Definition spec (provider : string) : pydict := [("provider", VStr provider)].

Definition config (agents : list (string * pydict)) (windows : list WindowSpec) (loop : pydict) : ReloadConfig :=
  mkReloadConfig 2 (map fst agents) agents false "alpha:codex" windows [] "main"
    (mkSidebar "every_window" (VStr "15%") 20 "left") [] true [] loop None None None.

(** [beta] moves from [main] to [side], where [delta] is new. *)
Definition before : ReloadConfig :=
  config [("alpha", spec "codex"); ("beta", spec "claude"); ("gamma", spec "codex")]
    [mkWindow "main" 0 "alpha:codex; beta:claude" ["alpha"; "beta"] [];
     mkWindow "side" 1 "gamma:codex" ["gamma"] []] [].
Definition after_move : ReloadConfig :=
  config [("alpha", spec "codex"); ("beta", spec "claude"); ("gamma", spec "codex"); ("delta", spec "codex")]
    [mkWindow "main" 0 "alpha:codex" ["alpha"] [];
     mkWindow "side" 1 "gamma:codex; beta:claude; delta:codex" ["gamma"; "beta"; "delta"] []] [].

Definition namespace : Namespace :=
  mkNamespace (Some "p") None None (Some "/run/s") (Some "ccb") None None None (Some 1) true.

Abbreviation plan_of a b :=
  (build_reload_dry_run_plan a b None (Some "p") (Some namespace)).

Lemma before_ok : reload_config_ok before.
Proof.
  split; [by apply (bool_decide_unpack _)|by apply list.Forall_forall, (bool_decide_unpack _)|done| |by intros t ?%not_elem_of_nil].
  by apply (bool_decide_unpack _).
Qed.

Lemma after_move_ok : reload_config_ok after_move.
Proof.
  split; [by apply (bool_decide_unpack _)|by apply list.Forall_forall, (bool_decide_unpack _)| | |by intros t ?%not_elem_of_nil].
  - by apply (bool_decide_unpack _).
  - by apply (bool_decide_unpack _).
Qed.

Lemma move_accepted :
  ∃ plan, plan_of before after_move = Ok plan ∧ plan_blocker plan = None ∧ op_str plan "plan_class" = "move_agent".
Proof. eexists. split; [vm_compute; reflexivity|]. split; vm_compute; reflexivity. Qed.
End RSample.


(** ** Examples *)

Module RExamples.
Import RSample.

(** The provider of [alpha] changes.  The operation names the window of [gamma], the last
    agent that is kept, and so does the step. *)
Definition alpha_replaced : ReloadConfig :=
  config [("alpha", spec "claude"); ("beta", spec "claude"); ("gamma", spec "codex")]
    [mkWindow "main" 0 "alpha:claude; beta:claude" ["alpha"; "beta"] [];
     mkWindow "side" 1 "gamma:codex" ["gamma"] []] [].

Example replaced_agent_in_left_over_window :
  ∃ plan, plan_of before alpha_replaced = Ok plan ∧ plan_blocker plan = None ∧
    old_window_of before "alpha" = Some "main" ∧
    dict_items (dget plan "operations") = [op_replace_agent "alpha" (Some "side") ["provider"]].
Proof. eexists. split; [vm_compute; reflexivity|]. repeat split; vm_compute; reflexivity. Qed.

(** A change of the configuration without an operation of its own blocks a reload when it is
    alone, and is not noticed beside another change: here the capacity of the loop. *)
Definition loop_changed (agents : list (string * pydict)) (windows : list WindowSpec) : ReloadConfig :=
  config agents windows [("capacity", VDict [("max_agents", VInt 4)])].
Definition only_loop : ReloadConfig := loop_changed (rc_agents before) (rc_windows before).
Definition loop_and_agent : ReloadConfig :=
  loop_changed (rc_agents before ++ [("delta", spec "codex")])
    [mkWindow "main" 0 "alpha:codex; beta:claude; delta:codex" ["alpha"; "beta"; "delta"] [];
     mkWindow "side" 1 "gamma:codex" ["gamma"] []].

Example unclassified_change_is_masked :
  (∃ plan, plan_of before only_loop = Ok plan ∧ plan_blocker plan ≠ None) ∧
  (∃ plan, plan_of before loop_and_agent = Ok plan ∧ plan_blocker plan = None ∧
     dict_items (dget plan "operations") = [op_add_agent "delta" (Some "main")]).
Proof.
  split; eexists; (split; [vm_compute; reflexivity|]); [vm_compute; discriminate|].
  split; vm_compute; reflexivity.
Qed.

(** Window layouts are compared without the weights of their leaves. *)
Example weights_are_not_compared :
  provider_neutral_layout_spec [("layout_spec", VStr "alpha:codex(2); beta:claude")] =
  provider_neutral_layout_spec [("layout_spec", VStr "alpha:codex; beta:claude")].
Proof. reflexivity. Qed.
End RExamples.
