(* ===== verification/LayoutProps.v ===== *)
(** Theorems on layouts and windows: the layout language (its grammar, its round trip),
    the pane-growth pages, the panes a layout becomes, their geometry and order, and the
    windows of a project configuration. *)

From Stdlib Require Import Ascii String ZArith Lia.
From stdpp Require Import base list strings pretty sorting.
From S2P Require Import Prelude PyData Names Text Layout LayoutParser LayoutGrammar LayoutRender LayoutTokens LayoutOpsLemmas LayoutPanes ReflowLemmas Topology TopologyLemmas.

Local Open Scope Z_scope.

(** ** The language *)

(** C32: the parser is the grammar of the layout language: on any text it either returns a
    tree, and then that tree is the one the grammar derives from the tokens and all its
    leaves are well formed, or raises [LayoutParseError], and then the grammar derives no
    tree at all; it never runs out of the steps it is given. *)
Theorem layout_parser_is_grammar (text : string) :
  match parse_layout_spec text with
  | Ok t => h_expr (tokenize text) t ∧ layout_ok t ∧ ∀ t', h_expr (tokenize text) t' → t' = t
  | Err e => exn_class e = LayoutParseError ∧ ∀ t, ¬ h_expr (tokenize text) t
  end.
Proof.
  destruct (parse_layout_spec text) as [t|e] eqn:E.
  - split; [by apply parse_tokens_spec|]. split; [by apply (parse_layout_ok text)|].
    intros t' H%parse_tokens_spec. unfold parse_layout_spec in E. congruence.
  - split; [by apply (parse_tokens_error (tokenize text))|].
    intros t H%parse_tokens_spec. unfold parse_layout_spec in E. congruence.
Qed.

(** C33: a layout of well-formed leaves is read back from its text as its left-associated
    form, which has the same leaves in the same order, the same weights and the same text,
    and is the layout itself exactly when no chain of one kind continues in a right child. *)
Theorem layout_roundtrip (t : LayoutNode) :
  layout_ok t →
  parse_layout_spec (render t) = Ok (reassoc t) ∧ iter_leaves (reassoc t) = iter_leaves t ∧
  weight_sum (reassoc t) = weight_sum t ∧ render (reassoc t) = render t ∧
  (reassoc t = t ↔ left_normal t = true).
Proof.
  intros H. split; [by apply parse_render|]. split; [apply reassoc_leaves|].
  split; [apply reassoc_weight|]. split; [apply render_reassoc|].
  split; [|apply reassoc_id]. intros E. rewrite <-E. apply reassoc_normal.
Qed.

(** [(a:codex(worktree)(2); b@30), c] *)
Definition sample_layout : LayoutNode :=
  Branch Vertical
    (Branch Horizontal (Leaf (mkLeaf "a" (Some "codex") (Some "worktree") 2 None))
                       (Leaf (mkLeaf "b" None None 1 (Some 30))))
    (Leaf (leaf_named "c")).

Lemma layout_roundtrip_witness :
  render sample_layout = "(a:codex(worktree)(2); b@30), c" ∧
  parse_layout_spec (render sample_layout) = Ok sample_layout.
Proof.
  split; [vm_compute; reflexivity|].
  destruct (layout_roundtrip sample_layout) as (H & _ & _ & _ & Hn).
  - repeat constructor.
  - by rewrite H, (proj2 Hn eq_refl).
Defined.

(** An explicit group on the right of its own kind is not kept: its text is read back as
    another tree, with other pane sizes once a leaf has a percentage. *)
Example right_group_is_lost :
  let spec := "a; (b@50; c)" in
  ∃ t t', parse_layout_spec spec = Ok t ∧ render t = "a; b@50; c" ∧
    parse_layout_spec (render t) = Ok t' ∧ t' ≠ t ∧
    match t, t' with
    | Branch _ l r, Branch _ l' r' =>
        (Reflow.split_sizes l r 101).1 = 50 ∧ (Reflow.split_sizes l' r' 101).2 = 50 ∧
        iter_layout_names r = ["b"; "c"] ∧ iter_layout_names r' = ["c"]
    | _, _ => False
    end.
Proof.
  exists (default sample_layout (match parse_layout_spec "a; (b@50; c)" with Ok t => Some t | Err _ => None end)),
    (default sample_layout (match parse_layout_spec "a; b@50; c" with Ok t => Some t | Err _ => None end)).
  vm_compute. repeat split; congruence.
Qed.

(** ** Pane growth *)

(** The pane-growth windows partition the cleaned names in order into pages of at
    least one and at most the asked number of panes, as few pages as possible, numbered
    from one under names of their own, each laid out in two columns that hold its names
    and none other; they fail, with [ValueError], only on a page size outside 1 to 6 or on
    a repeated name. *)
Theorem growth_windows_partition (names : list string) (prefix : string) (max_panes : Z) :
  match build_pane_growth_windows names prefix max_panes with
  | Ok ws =>
      1 <= max_panes <= 6 ∧ concat (map pw_agent_names ws) = clean_names names ∧
      map pw_index ws = map (λ i, 1 + Z.of_nat i) (seq 0 (length ws)) ∧ NoDup (map pw_name ws) ∧
      Forall (λ w, 1 <= Z.of_nat (length (pw_agent_names w)) <= max_panes ∧
                   iter_layout_names (pw_layout w) = column_order (pw_agent_names w) ∧
                   iter_layout_names (pw_layout w) ≡ₚ pw_agent_names w) ws ∧
      Z.of_nat (length (clean_names names)) <= Z.of_nat (length ws) * max_panes
        < Z.of_nat (length (clean_names names)) + max_panes
  | Err e =>
      exn_class e = ValueError ∧ (max_panes < 1 ∨ 6 < max_panes ∨ ¬ NoDup (clean_names names))
  end.
Proof.
  unfold build_pane_growth_windows, normalize_max_panes.
  change (Z.of_nat DEFAULT_MAX_PANES_PER_WINDOW) with 6.
  destruct (Z.ltb_spec max_panes 1); [cbn; auto|]. destruct (Z.ltb_spec 6 max_panes); [cbn; auto|].
  cbn [orb raise_if result_bind]. rewrite normalize_names_spec.
  destruct (decide (NoDup (clean_names names))) as [Hn|Hn]; [|cbn; auto]. cbn [result_bind].
  destruct (growth_pages_spec (length (clean_names names)) (Z.to_nat max_panes) prefix 1 (clean_names names))
    as (ws & -> & Hc & Hi & Hf & Hl); [lia|lia|apply clean_names_clean|done|].
  split; [lia|]. split; [done|]. split; [done|]. split; [by apply (growth_names_nodup prefix (Z.to_nat max_panes))|].
  split; [|split; nia].
  eapply Forall_impl; [exact Hf|]. intros w (Hs & Hw & _). split; [lia|]. split; [done|].
  rewrite Hw. apply every_other_perm.
Qed.

(** ** Panes *)

(** C35: materialising a layout makes one pane per leaf: every split is asked for with a
    percentage from 1 to 99, and when the multiplexer gives the splits panes of their own,
    the leaves are assigned in order to pairwise distinct panes, the first to the root pane
    of the window, after one split less than there are leaves; an exception is one the
    multiplexer raised. *)
Theorem materialize_one_pane_per_leaf (pane : nat → string) (reply : nat → Materialize.split_cmd → result string)
    (percent_of : LayoutNode → LayoutNode → Z) (root : string) (t : LayoutNode)
    (s : Materialize.panes) (r : result unit) :
  (∀ n c p, reply n c = Ok p → p = pane n) → Inj (=) (=) pane → (∀ n, root ≠ pane n) →
  Materialize.materialize_layout reply percent_of root t Materialize.no_panes = (s, r) →
  Forall (λ c, 1 <= Materialize.sp_percent c <= 99) (Materialize.pn_splits s) ∧
  match r with
  | Ok _ =>
      map fst (Materialize.pn_assigned s) = iter_layout_names t ∧
      NoDup (map snd (Materialize.pn_assigned s)) ∧
      head (map snd (Materialize.pn_assigned s)) = Some root ∧
      Z.of_nat (length (Materialize.pn_splits s)) + 1 = leaf_count t
  | Err e => ∃ n c, reply n c = Err e
  end.
Proof.
  intros Hr Hi Hroot Hrun.
  pose proof (materialize_spec pane reply percent_of Hr t root Materialize.no_panes (Forall_nil_2 _)) as W.
  unfold wp in W. rewrite Hrun in W. destruct r as [[]|e]; [|done].
  destruct W as (Hp & Hl & Ha). split; [done|]. cbn in Hl, Ha. rewrite Ha.
  assert (HL : length (iter_layout_names t) = length (leaf_panes pane root 0 t)).
  { unfold iter_layout_names. by rewrite length_map, leaf_panes_length. }
  assert (E : map snd (zip (iter_layout_names t) (leaf_panes pane root 0 t)) = leaf_panes pane root 0 t)
    by (apply (snd_zip (iter_layout_names t)); lia).
  rewrite E. split; [apply (fst_zip (iter_layout_names t)); lia|].
  split; [apply (leaf_panes_nodup pane Hi); intros i _; apply Hroot|].
  split; [apply leaf_panes_head|].
  rewrite Hl, leaf_count_length. unfold split_total. pose proof (iter_leaves_length t). lia.
Qed.

Definition sample_pane (n : nat) : string := String.append "%" (pretty (Z.of_nat (S n))).

Lemma sample_pane_inj : Inj (=) (=) sample_pane.
Proof. intros n m H. apply (inj (String.append "%")), (inj pretty) in H. lia. Qed.

Lemma materialize_one_pane_per_leaf_witness :
  let s := (Materialize.materialize_layout (λ n _, Ok (sample_pane n)) Materialize.split_percent "%0"
              sample_layout Materialize.no_panes).1 in
  Materialize.pn_assigned s = [("a", "%0"); ("b", "%2"); ("c", "%1")] ∧
  map Materialize.sp_percent (Materialize.pn_splits s) = [70; 30] ∧
  NoDup (map snd (Materialize.pn_assigned s)).
Proof.
  cbv zeta. split; [vm_compute; reflexivity|]. split; [vm_compute; reflexivity|].
  destruct (materialize_one_pane_per_leaf sample_pane (λ n _, Ok (sample_pane n)) Materialize.split_percent
    "%0" sample_layout
    (Materialize.materialize_layout (λ n _, Ok (sample_pane n)) Materialize.split_percent "%0"
       sample_layout Materialize.no_panes).1 (Ok tt)) as (_ & _ & H & _).
  - by intros n _ p [= <-].
  - exact sample_pane_inj.
  - intros n E. apply (inj (String.append "%") "0") in E. change "0" with (pretty 0) in E.
    apply (inj pretty) in E. lia.
  - vm_compute. reflexivity.
  - exact H.
Defined.

(** ** Geometry *)

(** C36: a reflowed window is tiled exactly: whichever of the two constructions computes
    the layout, every pane it lists has a positive size and lies in the window, no two
    panes share a cell, siblings are one cell of border apart from one end of their parent
    to the other, and the panes are listed in the order the swaps aim at; and a window at
    least three columns wide, with a row per agent, is always laid out. *)
Theorem reflow_tiles_window (panes : list Reflow.ObservedPane) (w h : Z) :
  0 < h → (∀ p, p ∈ panes → 0 < Reflow.op_pane_width p) →
  let tiled F order :=
    fits F w h 0 0 ∧ packed (rects F) w h 0 0 ∧ map fst (pane_rects F) = order in
  (∀ text name right F order,
     Reflow.build_topology_layout panes text name right w h = Some (F, order) → tiled F order) ∧
  (∀ sidebar agents F order, (∀ s, sidebar = Some s → s ∈ panes) →
     Reflow.build_fixed_layout sidebar agents w h = (Some F, order) → tiled F order) ∧
  (∀ agents, agents ≠ [] → 3 <= w → Z.of_nat (length agents) <= h →
     is_Some (Reflow.build_fixed_layout None agents w h).1).
Proof.
  intros Hh Hw tiled. split; [|split].
  - intros text name right F order H. apply build_topology_layout_fits in H as [Hf Ho]; [|done..].
    split; [done|]. split; [by apply fits_packed|done].
  - intros sidebar agents F order Hs H. apply build_fixed_layout_fits in H as [Hf Ho]; [|done|].
    + split; [done|]. split; [by apply fits_packed|done].
    + intros s Es. by apply Hw, Hs.
  - intros agents Ha H3 Hl. unfold Reflow.build_fixed_layout. rewrite Z.sub_0_r.
    destruct (Z.leb_spec w 0); [lia|].
    destruct (agent_layout_room agents w h 0 0 Ha H3 Hl) as [F ->]. by eexists.
Qed.

(** A window of 101 by 40 cells with a sidebar of 20 columns and the panes of three agents. *)
Definition sample_panes : list Reflow.ObservedPane :=
  [Reflow.mkObserved "%1" 0 0 0 20 40 "sidebar" "sidebar:main" "main" "main";
   Reflow.mkObserved "%2" 1 21 0 80 13 "agent" "c" "main" "";
   Reflow.mkObserved "%3" 2 21 14 80 12 "agent" "a" "main" "";
   Reflow.mkObserved "%4" 3 21 27 80 13 "agent" "b" "main" ""].

Lemma reflow_tiles_window_witness :
  ∃ F order, Reflow.build_topology_layout sample_panes "(a:codex(2); b:codex@30), c:codex" "main" false 101 40
    = Some (F, order) ∧ order = ["%1"; "%3"; "%4"; "%2"] ∧ packed (rects F) 101 40 0 0.
Proof.
  destruct (reflow_tiles_window sample_panes 101 40) as (H & _ & _).
  - lia.
  - intros p Hp. repeat (apply elem_of_cons in Hp as [->|Hp]; [reflexivity|]). by apply elem_of_nil in Hp.
  - eexists _, _. split; [vm_compute; reflexivity|]. split; [reflexivity|].
    eapply (H "(a:codex(2); b:codex@30), c:codex" "main" false). vm_compute. reflexivity.
Defined.

(** C37: a reflow that reports success has put the window into the computed layout: after
    listing the panes it sent one layout string, which is the checksummed text of a layout
    that tiles the window, and then swaps which, run one after the other on the order the
    panes were listed in, give the order of the panes of that layout; there are fewer swaps
    than panes. *)
Theorem reflow_reaches_layout (list_reply select_reply : Reflow.completed)
    (swap_reply : nat → Reflow.swap_cmd → option string) (window : option Reflow.TopologyWindow)
    (name : string) (prefer : bool) (log : list Reflow.tmux_cmd) (panes : list Reflow.ObservedPane) :
  Reflow.observed_panes list_reply = (panes, None) → NoDup (map Reflow.op_pane_id panes) →
  (∀ p, p ∈ panes → 0 < Reflow.op_pane_width p) →
  Reflow.reflow_agent_window_fixed list_reply select_reply swap_reply window name prefer =
    (log, Ok (true, None)) →
  ∃ F text swaps,
    log = [Reflow.ListPanes; Reflow.SelectLayout
             (String.append (Reflow.hex4 (Reflow.layout_checksum text)) (String.append "," text))] ++
          map Reflow.SwapPane swaps ∧
    Reflow.render_layout F = Some text ∧
    fits F (Reflow.max_extent (λ p, Reflow.op_pane_left p + Reflow.op_pane_width p) panes)
      (Reflow.max_extent (λ p, Reflow.op_pane_top p + Reflow.op_pane_height p) panes) 0 0 ∧
    foldl Reflow.run_swap (map Reflow.op_pane_id panes) swaps = map fst (pane_rects F) ∧
    (length swaps <= pred (length panes))%nat.
Proof.
  intros Ho Hn Hw. unfold Reflow.reflow_agent_window_fixed.
  destruct window as [tw|]; [|done]. destruct (_ || _); [done|]. rewrite Ho.
  destruct panes as [|p0 ps]; [done|]. set (panes := p0 :: ps) in *.
  destruct (Z.leb_spec (Reflow.max_extent (λ p, Reflow.op_pane_left p + Reflow.op_pane_width p) panes) 0); [done|].
  destruct (Z.leb_spec (Reflow.max_extent (λ p, Reflow.op_pane_top p + Reflow.op_pane_height p) panes) 0); [done|].
  cbn [orb]. destruct (Reflow.reflow_plan _ _ _ _ _ _) as [[F order]|] eqn:Ep; [|done].
  apply reflow_plan_fits in Ep as [Hf Hids]; [|done..].
  unfold Reflow.select_layout_text. destruct (Reflow.render_layout F) as [text|] eqn:Et; [|done].
  cbn [option_map]. destruct (Reflow.failed select_reply); [done|].
  destruct (decide (map Reflow.op_pane_id panes ≡ₚ order)) as [HP|HP].
  - destruct (apply_visual_order_spec swap_reply _ _ Hn HP) as (cmds & err & Ec & Hc).
    rewrite Ec. cbn [fst snd]. destruct err; [done|]. destruct Hc as [Hr Hl]. intros [= <-].
    exists F, text, cmds. split; [done|]. split; [done|]. split; [done|]. split; [by rewrite Hids|].
    apply Permutation_length in HP. by rewrite length_map in HP |- * || (rewrite length_map in HP; by rewrite HP).
  - unfold Reflow.apply_visual_order. rewrite bool_decide_eq_false_2 by by rewrite sorted_same. done.
Qed.

Definition tabbed (fields : list string) : string := String.concat (char_str (ascii_of_nat 9)) fields.

(** What tmux answers for a window of 101 by 40 cells with a sidebar and three agents. *)
Definition sample_listing : Reflow.completed :=
  Reflow.mkCompleted 0 (String.concat (char_str line_feed)
    [tabbed ["%1"; "0"; "0"; "0"; "20"; "40"; "sidebar"; "sidebar:main"; "main"; "main"];
     tabbed ["%2"; "1"; "21"; "0"; "80"; "13"; "agent"; "c"; "main"; ""];
     tabbed ["%3"; "2"; "21"; "14"; "80"; "12"; "agent"; "a"; "main"; ""];
     tabbed ["%4"; "3"; "21"; "27"; "80"; "13"; "agent"; "b"; "main"; ""]]) "".

Lemma reflow_reaches_layout_witness :
  let run := Reflow.reflow_agent_window_fixed sample_listing (Reflow.mkCompleted 0 "" "") (λ _ _, None)
    (Some (Reflow.mkTopologyWindow ["a"; "b"; "c"] "(a:codex(2); b:codex@30), c:codex" false)) "main" true in
  ∃ F text, Reflow.render_layout F = Some text ∧ fits F 101 40 0 0 ∧
    run.1 = [Reflow.ListPanes;
             Reflow.SelectLayout (String.append (Reflow.hex4 (Reflow.layout_checksum text)) (String.append "," text));
             Reflow.SwapPane (Reflow.mkSwap "%2" "%3"); Reflow.SwapPane (Reflow.mkSwap "%2" "%4")].
Proof.
  cbv zeta. set (run := Reflow.reflow_agent_window_fixed _ _ _ _ _ _).
  destruct (reflow_reaches_layout sample_listing (Reflow.mkCompleted 0 "" "") (λ _ _, None)
    (Some (Reflow.mkTopologyWindow ["a"; "b"; "c"] "(a:codex(2); b:codex@30), c:codex" false)) "main" true
    run.1 sample_panes) as (F & text & swaps & Hlog & Hr & Hf & _).
  - vm_compute. reflexivity.
  - apply (bool_decide_unpack _). vm_compute. exact I.
  - intros p Hp. repeat (apply elem_of_cons in Hp as [->|Hp]; [reflexivity|]). by apply elem_of_nil in Hp.
  - vm_compute. reflexivity.
  - exists F, text. split; [exact Hr|]. split; [exact Hf|]. rewrite Hlog. vm_compute in Hlog.
    destruct swaps as [|s1 [|s2 [|s3 swaps]]]; try discriminate Hlog.
    injection Hlog as _ E1 E2. subst s1 s2. reflexivity.
Defined.

(** The checksum field of a layout string is four hexadecimal digits of a 16-bit
    value, and tells apart any two layout strings that differ in one character. *)
Theorem layout_checksum_detects (before after : string) (c d : ascii) :
  let body x := String.append before (String x after) in
  0 <= Reflow.layout_checksum (body c) < 65536 ∧
  String.length (Reflow.hex4 (Reflow.layout_checksum (body c))) = 4%nat ∧
  (Reflow.hex4 (Reflow.layout_checksum (body c)) = Reflow.hex4 (Reflow.layout_checksum (body d)) → c = d).
Proof.
  assert (range : ∀ s, 0 <= Reflow.layout_checksum s < 65536) by (intros s; by apply checksum_range).
  cbv zeta. split; [apply range|]. split; [apply hex4_length|]. intros H.
  apply hex4_inj in H; [|apply range..]. rewrite !checksum_append in H. cbn [list_ascii_of_string foldl] in H.
  apply checksum_inj in H; [|apply checksum_step_range..]. by apply checksum_step_char_inj in H; [|apply range].
Qed.

(** ** Windows of a configuration *)

(** C39: a configuration that is accepted has a sound topology: its agents are under their
    own normalised names, once each; its windows have distinct names, are numbered in
    order from zero, and every one has well-formed contents; every agent is in exactly one
    window; tool windows have names of their own; the entry window exists; the default
    agents are agents; and without explicit windows the layout text is that of a tree with
    every default agent, and the command pane first when it is enabled, in which every
    weight given in the configuration has been replaced by one. *)
Theorem config_topology_sound (c : ConfigInput) (p : ProjectConfig) :
  project_config c = Ok p →
  (NoDup (map fst (pc_agents p)) ∧ Forall (λ kv, normal_name kv.1 = true ∧ av_name kv.2 = kv.1) (pc_agents p)) ∧
  (NoDup (pc_default_agents p) ∧ ∀ n, n ∈ pc_default_agents p → n ∈ map fst (pc_agents p)) ∧
  (pc_windows p ≠ [] ∧ Forall window_ok (pc_windows p) ∧ NoDup (map ws_name (pc_windows p)) ∧
   map ws_order (pc_windows p) = map Z.of_nat (seq 0 (length (pc_windows p)))) ∧
  concat (map ws_agent_names (pc_windows p)) ≡ₚ map fst (pc_agents p) ∧
  NoDup (map ws_name (pc_windows p) ++ map tw_name (pc_tool_windows p)) ∧
  pc_entry_window p ∈ map ws_name (pc_windows p) ++ map tw_name (pc_tool_windows p) ∧
  (pc_windows_explicit p = false →
   ∃ t, pc_layout_spec p = render t ∧ layout_ok t ∧ NoDup (iter_layout_names t) ∧
     (∀ n, n ∈ iter_layout_names t ↔
           n ∈ pc_default_agents p ∨ (pc_cmd_enabled p = true ∧ n = "cmd")) ∧
     (pc_cmd_enabled p = true → head (iter_layout_names t) = Some "cmd") ∧
     Forall (λ l, ll_weight l = 1) (iter_leaves t)).
Proof.
  unfold project_config. intros H.
  apply raise_if_Ok in H as [_ H]. apply raise_if_Ok in H as [_ H]. apply raise_if_Ok in H as [_ H].
  set (explicit := match ci_windows_explicit c with Some b => b | None => _ end) in H.
  apply result_bind_Ok in H as (agents & Ha & H). apply normalize_agent_specs_ok in Ha as [Ha1 Ha2].
  apply result_bind_Ok in H as (defaults & Hd & H). apply normalize_default_agents_ok in Hd as (Hd1 & _ & Hd2).
  apply result_bind_Ok in H as (rendered & Hr & H).
  apply result_bind_Ok in H as (windows & Hw & H). apply normalize_windows_ok in Hw as (W1 & W2 & W3 & W4 & W5).
  apply result_bind_Ok in H as (tools & Ht & H). apply tool_windows_go_ok in Ht as (T1 & _ & _).
  apply result_bind_Ok in H as (u & Hc & H). pose proof (no_conflict_ok _ _ _ Hc) as Hc'.
  apply result_bind_Ok in H as (v & Hf & H). pose proof (reference_agents_ok _ _ _ Hf) as Hf'.
  apply result_bind_Ok in H as (entry & He & H). apply entry_window_ok in He.
  injection H as <-.
  cbn [pc_agents pc_default_agents pc_windows pc_tool_windows pc_entry_window pc_windows_explicit pc_layout_spec pc_cmd_enabled].
  split; [done|]. split; [done|]. split; [done|].
  split; [by apply NoDup_Permutation|].
  split.
  { apply NoDup_app. split; [done|]. split; [|done]. intros n Hn Hn'. by apply (Hc' n). }
  split; [done|]. intros ->. apply resolve_layout_ok in Hr as (parsed & t & Hn & Hp & -> & _ & S & N & C).
  exists t. split; [done|]. split; [by apply (normalize_layout_ok parsed)|]. split; [done|].
  split; [|split; [done|]].
  - intros n. rewrite S. unfold expected_layout_names. rewrite elem_of_app.
    destruct (ci_cmd_enabled c); [rewrite list_elem_of_singleton|rewrite elem_of_nil].
    + split; [intros [?|?]; auto|intros [?|[_ ?]]; auto].
    + split; [intros [?|[]]; auto|intros [?|[? _]]; [by left|done]].
  - apply normalize_layout_tree_ok in Hn. induction Hn as [|l l' ls ls' (_ & _ & _ & _ & Hl) _ IH]; constructor; auto.
Qed.

Definition sample_agents : list (string * AgentView) :=
  [("alpha", mkAgentView "alpha" "codex" false); ("beta", mkAgentView "beta" "claude" true)].

Definition sample_input : ConfigInput :=
  mkConfigInput 2 ["alpha"; "beta"] sample_agents true (Some "cmd, Alpha:codex(2); beta:claude(worktree)")
    None None None None false.

(** The weight of two given to [alpha] is lost. *)
Lemma config_topology_sound_witness :
  ∃ p, project_config sample_input = Ok p ∧ pc_layout_spec p = "cmd, alpha:codex; beta:claude(worktree)" ∧
    concat (map ws_agent_names (pc_windows p)) ≡ₚ ["alpha"; "beta"].
Proof.
  eexists. split; [vm_compute; reflexivity|]. split; [reflexivity|].
  match goal with |- concat (map _ (pc_windows ?p)) ≡ₚ _ =>
    destruct (config_topology_sound sample_input p) as (_ & _ & _ & H & _);
      [vm_compute; reflexivity|exact H] end.
Defined.

(** The layout plan of a start keeps of the configured layout exactly the leaves asked
    for: the targets are normalised names, among the configured agents when they were
    requested; the visible leaves are, in layout order, those named by a target, a tool of
    a window, or [cmd] when it is enabled, at least one, and [cmd] first when it is
    enabled; pruning again changes nothing; and the signature, read as a layout, has the
    plan's leaves and signature. *)
Theorem layout_plan_exact (c : ProjectConfig) (requested : list string) (targets : option (list string))
    (plan : ProjectLayoutPlan) :
  Forall (λ n, normal_name n = true) (pc_default_agents c) →
  build_project_layout_plan c requested targets = Ok plan →
  let include := (if pc_cmd_enabled c then ["cmd"] else []) ++ pl_target_agent_names plan ++ layout_tool_names c in
  Forall (λ n, normal_name n = true) (pl_target_agent_names plan) ∧
  (targets = None → requested ≠ [] → ∀ n, n ∈ pl_target_agent_names plan → n ∈ map fst (pc_agents c)) ∧
  (∃ t, parse_layout_spec (layout_source c) = Ok t ∧
     iter_leaves (pl_layout plan) = List.filter (shown include) (iter_leaves t)) ∧
  pl_visible_leaf_names plan = iter_layout_names (pl_layout plan) ∧ pl_visible_leaf_names plan ≠ [] ∧
  (pc_cmd_enabled c = true → head (pl_visible_leaf_names plan) = Some "cmd") ∧
  prune_layout (pl_layout plan) include = Some (pl_layout plan) ∧
  ∃ t', parse_layout_spec (pl_signature plan) = Ok t' ∧ iter_leaves t' = iter_leaves (pl_layout plan) ∧
    render t' = pl_signature plan.
Proof.
  intros Hd H. unfold build_project_layout_plan in H.
  apply result_bind_Ok in H as (ts & Hts & H). apply result_bind_Ok in H as (t & Ht & H).
  destruct (prune_layout t _) as [pruned|] eqn:Ep; [|done].
  apply raise_if_Ok in H as [Hc H]. injection H as <-.
  cbn [pl_target_agent_names pl_visible_leaf_names pl_layout pl_signature].
  assert (Hok : layout_ok pruned) by (apply (prune_ok t _ _ Ep), (parse_layout_ok (layout_source c)), Ht).
  split; [|split; [|split; [|split; [|split; [|split; [|split]]]]]].
  - destruct targets as [names|]; [by apply normalize_names_normal in Hts|].
    by apply (select_targets_ok c requested).
  - intros -> Hne. by apply (select_targets_known c requested).
  - exists t. split; [done|]. by apply prune_some in Ep as [? _].
  - done.
  - unfold iter_layout_names. pose proof (iter_leaves_nonempty pruned). by destruct (iter_leaves pruned).
  - intros E. rewrite E in Hc. by apply negb_false_iff, bool_decide_eq_true in Hc.
  - by apply prune_idemp in Ep.
  - exists (reassoc pruned). split; [by apply parse_render|]. split; [apply reassoc_leaves|apply render_reassoc].
Qed.

Definition sample_config : ProjectConfig :=
  mkConfig ["alpha"; "beta"] sample_agents true "cmd, alpha:codex; beta:claude(worktree)"
    [mkWindow "main" 0 "cmd, alpha:codex; beta:claude(worktree)" ["alpha"; "beta"] []] [] "main" false.

Lemma layout_plan_exact_witness :
  ∃ plan, build_project_layout_plan sample_config ["Beta"] None = Ok plan ∧
    pl_signature plan = "cmd; beta:claude(worktree)" ∧
    head (pl_visible_leaf_names plan) = Some "cmd".
Proof.
  eexists. split; [vm_compute; reflexivity|]. split; [reflexivity|].
  match goal with |- head (pl_visible_leaf_names ?p) = _ =>
    destruct (layout_plan_exact sample_config ["Beta"] None p) as (_ & _ & _ & _ & _ & H & _) end.
  - repeat constructor.
  - vm_compute. reflexivity.
  - apply H. reflexivity.
Defined.
